(* ===== verification/_CoqProject ===== *)
-Q . S2P
Prelude.v
MailboxProtocol.v
Wire.v
RequestLedger.v
MailboxStore.v
MailboxClaims.v
MailboxAdmin.v
SwarmKernel.v
MailboxService.v
Outbox.v
Delivery.v
GatewayStores.v
GatewayService.v
GatewayLaws.v
GatewayState.v
Park.v
GatewayPark.v
RemoteExec.v
Streams.v
Exchange.v
Receiver.v
Routing.v
AgentSession.v
SessionLock.v
OracleResult.v
GatewayRpc.v
GatewayWatch.v
Jobs.v
Relay.v
Patterns.v
SshMaster.v
TranscriptStrip.v
Supervisor.v
SwarmHooks.v
OmpRunner.v
