(* ===== verification/Prelude.v ===== *)
(** * Verification of the aimeshchat core (src/src/codeagent)

    aimeshchat lets agents on several machines exchange messages.  Messages
    are files in mailbox directories; a kernel keeps the sessions with their
    members and permissions; a delivery engine carries messages between
    machines through a durable outbox.  This library models those parts as
    executable functions on records of files and tables, and proves what they
    promise.  File and function names are those of the source.

    ** The parts

    - Prelude.v: exceptions ([res]), computations with state that may raise
      ([st]), Python dictionaries ([pydict], insertion-ordered), strings, time
      stamps, sorting; the lemma families [read_only], [preserves] (what every
      outcome keeps) and [raises] (which exceptions can come out), with the
      tactics [preserving], [raising] and [st_inv] that follow a computation.
    - MailboxProtocol.v (mailbox/protocol.py): messages, attachments,
      validation.  [validate_message] against the record [wf_message], the
      JSON round trip, safety of the identifiers used as file names.
    - RequestLedger.v (RequestLedger of mailbox/store.py): the event log of a
      request as the lines of a file, which the reader splits where Python does;
      one terminal result is recorded and kept, one verdict on an artifact, for
      entries whose text is one line; a torn last line and a line separator
      inside a text hide a result.
    - MailboxStore.v (mailbox/store.py): sessions, the stream cursor, [send]
      with its idempotent replay and the state after a crash at any write,
      history.
    - MailboxClaims.v (mailbox/store.py): claim, finalize, release, renew,
      recover of messages by several readers; no message is lost or
      duplicated, one reader wins a race, reads end.
    - MailboxAdmin.v (mailbox/store.py): status, statistics, clean-up.
    - SwarmKernel.v (swarm/kernel.py, swarm/model.py): sessions, roster, ACL,
      channels, topics, registration, sends, poll, ingest, pull, restart.  The
      class [DeliverySink] is the kernel's interface to transports and
      [DeliverySinkLaws] what it relies on.
    - MailboxService.v (mailbox/service.py, the commands of mailbox/cli.py and
      transport/local.py that deliveries use): reading with acknowledgement
      discipline, parking, receipts, the command line of [send] and
      [session-init].
    - Outbox.v (the directories and the retry state machine of
      swarm/delivery.py): envelopes, markers, attempts, dead letters, sweep.
    - Delivery.v (swarm/delivery.py): caches, deliver, flush, remote sessions.
      The class [Network] is its interface to transports; [EngineDeliverySink]
      is its instance of the kernel's [DeliverySink], so the kernel's theorems
      hold over it.
    - GatewayStores.v (gateway/events.py, gateway/control_store.py,
      gateway/model.py): the event log with its cursor, sequences, ingestion
      and retention; the tables of reviews, generations and commands.
    - GatewayService.v (gateway/service.py): the requests of a machine's
      gateway ([dispatch]): registering, declaring and spawning runtimes, their
      presence, binding and agent state, commands and their acknowledgements,
      events, roles, merged writes, peers, sweeps, artifacts.  [runtime_send]
      takes no lock over its calls and is a sequence of steps ([send_phase],
      [send_step]); so are [runtime_register], [runtime_stop] and
      [runtime_context_set] ([call_phase], [call_step]), whose look and writes
      are apart.  A [system] interleaves any number of them with the other
      requests, which are one step each ([sys_step]).  The class [Backends] is the interface to the
      park registry, the runtime drivers and the kernel.
    - GatewayLaws.v, GatewayState.v: what the gateway promises over those
      interleavings and over its requests.
    - Park.v (park/, domain/park.py): the registry of parked reviews: leases,
      snapshots, sweeps, eviction and revival.  GatewayPark.v is its instance of
      [Backends], so that the gateway's theorems hold over it; a release may come
      between any two steps of a registration.
    - Wire.v (wire/protocol.py): JSON as it is written and read, the messages of
      the wire with the fields that each must have, the composite cursor.
    - RemoteExec.v (remote_exec.py, runtime/registry.py): the helper on the
      remote machine, its handlers, its loop and its streams.  The class [Host]
      is its interface to the machine.  Streams.v: what its streams promise.
    - Exchange.v (transport/local.py, transport/ssh.py): the clients of the
      helper, what they make of its frames, the fallback host.
    - Receiver.v (SSHStream of transport/ssh.py, swarm/receiver.py): the other
      end of a stream, the inbox that is filled from it and the callbacks.
    - Routing.v (domain/, config/repo_map.py, routing/resolver.py,
      transport/router.py, domain/execution.py): the map of hosts and topics as it
      is loaded, where a request runs and by which transport, with which model.
    - AgentSession.v (session/key.py, session/registry.py, [_execute] of cli.py):
      the keys of the agents' sessions, the table that remembers them, and a turn:
      which session is resumed and what is recorded of the run.
    - SessionLock.v (session/lock.py): the lock of a key over processes and
      threads, and turns that interleave under it.
    - OracleResult.v (oracle.py): how the answer to a question is found and told
      from an older one, and waiting for it.
    - GatewayRpc.v (gateway/model.py, server.py, client.py, remote.py): a call of a
      gateway as a line with a request and a line with a response, over a socket or
      an ssh connection.  GatewayWatch.v ([events watch] of gateway/cli.py): following
      the log with a cursor in a file.
    - Jobs.v (job.py): background jobs as the writes to their directories, with the
      temporary file that parent and child share.
    - Relay.v (transport/relay.py): a run typed into the terminal of a login host.
    - Patterns.v ([fnmatch]): the patterns of file and host names.
    - SshMaster.v (transport/control_master.py): connections that are shared, the
      configuration of ssh that is read for them, what is retried.  The class
      [SshHost] is its interface to ssh.
    - TranscriptStrip.v (scripts/oracle_transcript_strip.py): the cutting down of a
      transcript, against the reader of OracleResult.v.
    - Supervisor.v (runtime/supervisor.py, launchers/tmux.py): the supervisor of a
      runtime as the list of its effects on files and gateway, its identity over
      restarts, and the launcher.  The class [Tmux] is its interface to the terminal.
    - SwarmHooks.v (hooks/swarm_hooks.py): the kernel that a process keeps and the
      registrations of its agents.  OmpRunner.v (runners/base.py, runners/omp.py): a
      run of omp from its profile to its clean-up, over a program that is its lines
      with their times, its pipes and its end.

    ** State

    A mailbox is a [session]: metadata, history, cursor and agents, each agent
    with inbox, processing, archive, quarantine and claim files; a disk is a
    map from session names.  The kernel has its tables and the disk; the
    engine has the outbox directories and its caches; [world] joins the
    engine, the mailboxes of this machine and the network; a [gateway] has its
    runtimes, the control store, the event log, mailboxes, ledgers and the hub.
    A store operation
    that the source runs under a file lock is one step; a write that the
    source makes durable in several steps is a list of steps, and a crash is a
    prefix of it ([write_phase], [history_steps], [replace_steps]).

    ** What the theorems show

    - Messages: validation decides [wf_message]; the JSON form is read back;
      a valid identifier cannot leave its directory.
    - Custody: [send_all_or_nothing], [send_replay_recovers] (a crashed send is
      completed by its replay, but for one torn write), [messages_conserved], [claim_race],
      [accepted_not_lost] (the engine keeps a message until it is marked
      delivered, over crashes and restarts), [requeue_restores],
      [one_write_per_request] (concurrent sends of one request write the
      mailbox once), [ingest_idempotent], [first_enqueue_wins].
    - Reviews: [park_rows_ok] (column and manifest agree in every run),
      [lease_exclusive], [sweep_bounds], [sweep_fates], [evicted_recoverable],
      [gateway_keeps_leases], [register_syncs].
    - The wire: [responses_read_back], [requests_read_back], [cursor_roundtrip],
      [plain_cursor], [frames_fit] (nothing longer than the readers accept),
      [request_answered], [run_comes_back] (what the runner gave is what the
      caller gets, through helper, frames and client), [ssh_success_is_result],
      [mailbox_success_is_result].
    - Streams: [stream_sends_once], [log_leg_reads] (a refinement of the reader
      of the event log), [poll_gives_once], [callbacks_once], [streamed_message],
      [receiver_only_adds].
    - Turns: [execute_refines] (a turn is what a memory of one session and one flag
      says), [turn_isolated] (nothing of another turn gets between the steps of a
      turn of the same key), [registry_rows_ok], [key_determines],
      [loaded_map_ok], [topic_target], [transport_agrees], [model_source_spec].
    - Answers: [result_is_fresh], [wait_prints_fresh], [anchor_kept] (nothing older
      than the latest question is taken for its answer), [truncate_spec],
      [stuck_spec]; [answers_survive] (they are found in a stripped transcript as in
      the whole one), [strip_effect], [filter_idempotent].
    - Calls of a gateway: [call_is_dispatch] (one execution and what the
      handler gave, or the refusal of the condition that fails), [remote_is_call],
      [frame_answered], [watches_go_on].
    - Runs: [output_is_last_text], [no_files_left], [watchdog_bounds],
      [identity_agrees], [timeout_restored], [frontmatter_roundtrip];
      [started_is_stopped], [message_goes_as_sent]; [final_has_result], [wait_spec]
      and [run_job_ends] for jobs; [relay_comes_back], [relay_success_is_told].
    - Supervisors: [restart_accepted], [generations_grow] (a gateway admits the next
      owner of a runtime and no earlier one), [probe_tells], [spec_roundtrip],
      [quota_marker_spec], [spawn_cleans].
    - Connections: [attempts_spec], [create_opens], [stop_all_clears], [scan_spec] and
      [host_line_manual] (a line of the configuration against ssh's manual).
    - Progress: [wait_ends], [read_terminates], [no_head_blocking], [poll_pages_complete],
      [retries_end] (back-off of 5, 10, 20, 40 seconds, then a dead letter),
      [send_answers] (eight steps and the wait), [reader_misses_nothing].
    - Permissions: [send_authorized], [broadcast_reaches_roster],
      [ack_discipline], [ingest_spec], [owner_kept], [role_exclusive].
    - Coherence: [kernel_coherent] for every sink, [engine_kernel_coherent]
      for the delivery engine over every network, [restart_roundtrip],
      [events_log_ok], [gateway_coherent] (runtimes, control store and log,
      over every interleaving, but for runtimes that a stop was overtaken on), [review_of_session], [merges_survive].
    - State machines: [ack_spec] (commands move along the table of
      transitions), [sweep_decays] (presence), [command_replay].
    - Equivalence: [local_path_is_store_send] (the command line of a local
      message against a direct send), [pull_groups_spec].
    - Defects: [torn_tail_loses_terminal], [separator_loses_terminal],
      [bare_value_blocks], [torn_history_blocks], [stop_overtaken],
      [sync_wakes_released], [executed_unanswered], [surrogate_unmeasured],
      [status_torn], [replay_redelivers],
      [targeted_read_spins], [poll_skips], [receipt_needs_run],
      [sender_as_manager], [terminal_crash_strands], [cache_crosses_sessions],
      [late_ack_overwritten], [heartbeat_never_fades], [event_cannot_trigger],
      [swept_sequence_lost], [verify_any_agent], [evict_loses_update],
      [late_message_never], [opencode_run_dies], [resume_dropped],
      [local_error_is_success], [splitlines_lose], [fallback_runs_again],
      [dotted_sender_dropped], [watch_loses], [failed_session_returns], [keys_meet],
      [short_names_meet], [provider_mixed], [shared_file_waits], [one_file_hides],
      [reviews_meet], [exit_on_skips], [watchers_meet], [late_mark_running],
      [hang_escapes], [dry_run_deletes], [second_strip_refused],
      [locate_takes_older], [quota_reported], [reused_number_refused],
      [restart_reports_refused], [old_marks_stay], [inherited_wins],
      [stop_forgets_root], [scalar_line_escapes], [timeout_starts_at_eof],
      [failed_run_no_session], [first_agent_stays], [session_never_registered],
      [explicit_timeout_dropped] describe behaviour that comments or documents do
      not want.

    ** Bounds

    Integers are unbounded, as in Python.  The rounds of [read] are bounded by
    fuel; twice the inbox, three times the claims and the temporary files are
    enough ([read_terminates]); a read with a target may spin, and then no fuel
    is enough ([targeted_read_spins]).  Identifiers drawn at random are given as a
    list of candidates.  Python 3.11 or later is assumed (JSON, sets, paths).
    A text is its UTF-8 bytes, with three bytes that are no UTF-8 for a lone
    surrogate ([utf8_valid] is whether [encode] goes through).  Times are in
    milliseconds and one clock value is used in a call.
    [poll_gives_once] counts on the ten thousand identifiers that a stream
    keeps; a frame has at most 1048576 characters ([frames_fit]).

    ** Not modelled

    Refusals of the file system (full disk, permissions), symbolic links and
    the permissions of files; the random part of identifiers, UUIDs, [repr],
    the decimal text of floats and argparse's notion of an option are parameters.
    Processes, pipes, sockets, terminals and external programs are outside: the
    classes [Network], [Backends], [Host], [Runners], [SshHost] and [Tmux] and the
    programs of OmpRunner.v stand for them.  Not modelled are the life of the
    gateway's server (sockets, pid files, threads), the runtime adapters (which start
    the modelled supervisor and runner, or opencode and generic programs), the
    copying of artifacts, and the reminders that are printed into a terminal.  Of the
    mailbox commands, the helper's own dispatch is an operation of [Host].  Of the
    command line the execution of a request, the watch of events and the commands of
    jobs are modelled, of the oracle what is read back: the rest parses arguments,
    prints, edits the files of other programs and starts them. *)
From stdpp Require Export base gmap strings list sorting option pretty.
From Stdlib Require Export ZArith Lia.
From Stdlib Require Ascii.
Export Ascii.AsciiSyntax.
Delimit Scope char_scope with char.
From Stdlib Require Import Floats.SpecFloat.

#[export] Set Warnings "-clear-no-such-hyp".
#[global] Open Scope Z_scope.

Notation ascii := Ascii.ascii.
Notation N_of_ascii := Ascii.N_of_ascii.
Notation ascii_of_N := Ascii.ascii_of_N.

(** ** Tactics shared by the components *)

(** [inv H] inverts [H] and cleans up the equations it leaves. *)
Ltac inv H := inversion H; clear H; simplify_eq/=.

(** [cases] splits every match of the goal and of the hypotheses. *)
Ltac cases := repeat (case_match; simplify_eq/=; try done).

(** [split_and_all] takes conjunctions of boolean tests apart. *)
Ltac bool_to_prop :=
  repeat match goal with
  | H : _ && _ = true |- _ => apply andb_true_iff in H; destruct H
  | H : _ || _ = false |- _ => apply orb_false_iff in H; destruct H
  | H : negb _ = true |- _ => apply negb_true_iff in H
  | H : negb _ = false |- _ => apply negb_false_iff in H
  | H : bool_decide _ = true |- _ => apply bool_decide_eq_true in H
  | H : bool_decide _ = false |- _ => apply bool_decide_eq_false in H
  | H : Z.ltb _ _ = true |- _ => apply Z.ltb_lt in H
  | H : Z.ltb _ _ = false |- _ => apply Z.ltb_ge in H
  | H : Z.leb _ _ = true |- _ => apply Z.leb_le in H
  | H : Z.leb _ _ = false |- _ => apply Z.leb_gt in H
  | H : Z.eqb _ _ = true |- _ => apply Z.eqb_eq in H
  | H : Z.eqb _ _ = false |- _ => apply Z.eqb_neq in H
  | H : String.eqb _ _ = true |- _ => apply String.eqb_eq in H
  | H : String.eqb _ _ = false |- _ => apply String.eqb_neq in H
  end.

(** The head constant of an application. *)
Ltac head_of t := lazymatch t with ?f _ => head_of f | _ => t end.

(** [in_list] proves membership in a closed list by computation. *)
Ltac in_list := refine (bool_decide_unpack _ _); vm_compute; exact I.

(** ** Python exceptions and fallible computations *)

(** The exception classes the modelled code raises.  The string is the
    constant head of the message, which tells the raise sites apart. *)
Inductive pyexn :=
| ValueError (what : string)
| PermissionError (what : string)
| KeyError (what : string)
| IndexError (what : string)
| TypeError (what : string)
| RuntimeError (what : string)
| TimeoutError (what : string)
| AttributeError (what : string)
| OSError (what : string)
| AppError (cls what : string)
| GatewayError (code : string).

#[export] Instance pyexn_eq_dec : EqDecision pyexn.
Proof. solve_decision. Defined.

(** The outcome of a Python call: a value or an exception. *)
Inductive res (A : Type) :=
| Ok (a : A)
| Raise (e : pyexn).
Arguments Ok {A} a.
Arguments Raise {A} e.

Definition res_bind {A B} (m : res A) (k : A -> res B) : res B :=
  match m with
  | Ok a => k a
  | Raise e => Raise e
  end.

Declare Scope py_scope.
Delimit Scope py_scope with py.
Notation "'do' x <- m ; k" := (res_bind m (fun x => k))
  (at level 100, x name, m at level 99, k at level 100, right associativity) : py_scope.
Notation "'guard' b 'orelse' e ; k" := (if b then k else Raise e)
  (at level 100, b at level 99, e at level 99, k at level 100, right associativity) : py_scope.
#[global] Open Scope py_scope.

Definition is_ok {A} (r : res A) : bool :=
  match r with
  | Ok _ => true
  | Raise _ => false
  end.

Lemma res_bind_Ok {A B} (m : res A) (k : A -> res B) b :
  res_bind m k = Ok b <-> exists a, m = Ok a /\ k a = Ok b.
Proof. destruct m; simpl; naive_solver. Qed.

(** Python's [for x in l: f(x)] where [f] may raise. *)
Fixpoint res_iter {A} (f : A -> res unit) (l : list A) : res unit :=
  match l with
  | [] => Ok tt
  | x :: l' => do _ <- f x; res_iter f l'
  end.

Lemma res_iter_Ok {A} (f : A -> res unit) l :
  res_iter f l = Ok tt <-> Forall (fun x => f x = Ok tt) l.
Proof.
  induction l as [|x l IH]; simpl; [split; [constructor|done]|].
  rewrite res_bind_Ok, Forall_cons. split.
  - intros ([] & ? & ?). naive_solver.
  - intros [? ?]. exists tt. naive_solver.
Qed.

(** *** Computations that change a state and may raise

    The state a computation leaves is kept when it raises, as the files
    written before an exception are. *)
Definition st (T A : Type) : Type := T -> res A * T.

#[export] Instance st_ret T : MRet (st T) := fun A a s => (Ok a, s).
#[export] Instance st_bind T : MBind (st T) := fun A B k m s =>
  match m s with
  | (Ok a, s') => k a s'
  | (Raise e, s') => (Raise e, s')
  end.

#[export] Instance st_fmap T : FMap (st T) := fun A B f m s =>
  match m s with
  | (Ok a, s') => (Ok (f a), s')
  | (Raise e, s') => (Raise e, s')
  end.

Definition raise {T A} (e : pyexn) : st T A := fun s => (Raise e, s).
Definition lift {T A} (r : res A) : st T A := fun s => (r, s).
Definition gets {T A} (f : T -> A) : st T A := fun s => (Ok (f s), s).
Definition modify {T} (f : T -> T) : st T unit := fun s => (Ok tt, f s).
(** [if not b: raise e] *)
Definition ensure {T} (b : bool) (e : pyexn) : st T unit :=
  fun s => if b then (Ok tt, s) else (Raise e, s).

(** [for x in l: f(x)] *)
Fixpoint st_iter {T A} (f : A -> st T unit) (l : list A) : st T unit :=
  match l with
  | [] => mret tt
  | x :: l' => _ ← f x; st_iter f l'
  end.

Lemma st_bind_unfold {T A B} (m : st T A) (k : A -> st T B) s :
  (m ≫= k) s = match m s with
               | (Ok a, s') => k a s'
               | (Raise e, s') => (Raise e, s')
               end.
Proof. done. Qed.

(** What a computation that did not raise has done. *)
Section st_Ok.
Context {T : Type}.
Implicit Types s : T.

Lemma st_bind_Ok {A B} (m : st T A) (k : A -> st T B) s b s' :
  (m ≫= k) s = (Ok b, s') <-> exists a s1, m s = (Ok a, s1) /\ k a s1 = (Ok b, s').
Proof. rewrite st_bind_unfold. destruct (m s) as [[a|e] s1]; naive_solver. Qed.
Lemma st_fmap_Ok {A B} (f : A -> B) (m : st T A) s b s' :
  (f <$> m) s = (Ok b, s') <-> exists a, m s = (Ok a, s') /\ b = f a.
Proof. unfold fmap, st_fmap. destruct (m s) as [[a|e] s1]; naive_solver. Qed.
Lemma st_ret_Ok {A} (a b : A) s s' : (mret a : st T A) s = (Ok b, s') <-> b = a /\ s' = s.
Proof. unfold mret, st_ret. naive_solver. Qed.
Lemma ensure_Ok b e s u s' : ensure b e s = (Ok u, s') <-> b = true /\ s' = s.
Proof. unfold ensure. destruct b, u; naive_solver. Qed.
Lemma lift_Ok {A} (r : res A) s a s' : lift r s = (Ok a, s') <-> r = Ok a /\ s' = s.
Proof. unfold lift. naive_solver. Qed.
Lemma gets_Ok {A} (f : T -> A) s a s' : gets f s = (Ok a, s') <-> a = f s /\ s' = s.
Proof. unfold gets. naive_solver. Qed.
Lemma modify_Ok (f : T -> T) s u s' : modify f s = (Ok u, s') <-> s' = f s.
Proof. unfold modify. destruct u; naive_solver. Qed.
End st_Ok.

(** [st_inv] takes the runs that did not raise apart. *)
Ltac st_inv := repeat (simpl in *; match goal with
  | H : (_ ≫= _) _ = (Ok _, _) |- _ => apply st_bind_Ok in H as (? & ? & ? & ?)
  | H : (_ <$> _) _ = (Ok _, _) |- _ => apply st_fmap_Ok in H as (? & ? & ?)
  | H : mret _ _ = (Ok _, _) |- _ => apply st_ret_Ok in H as [? ?]
  | H : ensure _ _ _ = (Ok _, _) |- _ => apply ensure_Ok in H as [? ?]
  | H : lift _ _ = (Ok _, _) |- _ => apply lift_Ok in H as [? ?]
  | H : gets _ _ = (Ok _, _) |- _ => apply gets_Ok in H as [? ?]
  | H : modify _ _ = (Ok _, _) |- _ => apply modify_Ok in H
  | H : raise _ _ = (Ok _, _) |- _ => discriminate H
  | H : Raise _ = Ok _ |- _ => discriminate H
  end; simplify_eq).

(** [read_only m]: [m] leaves the state as it was, raising or not. *)
Definition read_only {T A} (m : st T A) : Prop := forall s, (m s).2 = s.

Section read_only.
Context {T : Type}.
Lemma read_only_bind {A B} (m : st T A) (k : A -> st T B) :
  read_only m -> (forall a, read_only (k a)) -> read_only (m ≫= k).
Proof.
  intros Hm Hk s. rewrite st_bind_unfold. specialize (Hm s).
  destruct (m s) as [[a|e] s']; simpl in *; subst; [apply Hk|done].
Qed.
Lemma read_only_iter {A} (f : A -> st T unit) l :
  (forall x, read_only (f x)) -> read_only (st_iter f l).
Proof. intros Hf. induction l as [|x l IH]; simpl; [done|]. by apply read_only_bind. Qed.
Lemma read_only_ensure b e : read_only (ensure b e : st T unit).
Proof. intros s. by destruct b. Qed.
End read_only.

(** What holds of every state that [m] leaves, raising or not. *)
Definition preserves {T A} (P : T -> Prop) (m : st T A) : Prop :=
  forall s, P s -> P (m s).2.

Section preserves.
Context {T : Type} (P : T -> Prop).

Lemma preserves_ret {A} (a : A) : preserves P (mret a : st T A).
Proof. by intros s Hs. Qed.
Lemma preserves_raise {A} e : preserves P (raise e : st T A).
Proof. by intros s Hs. Qed.
Lemma preserves_lift {A} (r : res A) : preserves P (lift r : st T A).
Proof. by intros s Hs. Qed.
Lemma preserves_gets {A} (f : T -> A) : preserves P (gets f).
Proof. by intros s Hs. Qed.
Lemma preserves_ensure b e : preserves P (ensure b e).
Proof. intros s Hs. by destruct b. Qed.
Lemma preserves_modify f : (forall s, P s -> P (f s)) -> preserves P (modify f).
Proof. intros Hf s Hs. by apply Hf. Qed.
Lemma preserves_bind {A B} (m : st T A) (k : A -> st T B) :
  preserves P m -> (forall a, preserves P (k a)) -> preserves P (m ≫= k).
Proof.
  intros Hm Hk s Hs. rewrite st_bind_unfold. specialize (Hm s Hs).
  destruct (m s) as [[a|e] s']; simpl in *; [by apply Hk|done].
Qed.
Lemma preserves_iter {A} (f : A -> st T unit) l :
  (forall x, x ∈ l -> preserves P (f x)) -> preserves P (st_iter f l).
Proof.
  induction l as [|x l IH]; intros Hf; simpl; [apply preserves_ret|].
  apply preserves_bind; [apply Hf; by left|]. intros _. apply IH. intros y Hy. apply Hf. by right.
Qed.
Lemma preserves_fmap {A B} (f : A -> B) (m : st T A) : preserves P m -> preserves P (f <$> m).
Proof.
  intros Hm s Hs. specialize (Hm s Hs). unfold fmap, st_fmap. by destruct (m s) as [[a|e] s'].
Qed.
Lemma preserves_read_only {A} (m : st T A) : read_only m -> preserves P m.
Proof. intros Hm s Hs. by rewrite Hm. Qed.
End preserves.

(** [preserving] follows the structure of a computation; what is left are
    the changes of the state and the calls. *)
Ltac preserving_step := lazymatch goal with
  | |- preserves _ (mret _) => apply preserves_ret
  | |- preserves _ (raise _) => apply preserves_raise
  | |- preserves _ (lift _) => apply preserves_lift
  | |- preserves _ (gets _) => apply preserves_gets
  | |- preserves _ (ensure _ _) => apply preserves_ensure
  | |- preserves _ (_ ≫= _) => apply preserves_bind; [|intros ?]
  | |- preserves _ (_ <$> _) => apply preserves_fmap
  | |- preserves _ (st_iter _ _) => apply preserves_iter; intros ? ?
  | |- preserves _ (modify _) => apply preserves_modify; intros ? ?; try done
  | |- preserves _ (match ?x with _ => _ end) => destruct x eqn:?
  end.
Ltac preserving := repeat preserving_step.

(** What holds of every value that [m] returns. *)
Definition yields {T A} (C : A -> Prop) (m : st T A) : Prop :=
  forall s a, (m s).1 = Ok a -> C a.
Section yields.
Context {T A : Type} (C : A -> Prop).
Lemma yields_ret (a : A) : C a -> yields C (mret a : st T A).
Proof. by intros Ha s a' [= <-]. Qed.
Lemma yields_raise e : yields C (raise e : st T A).
Proof. by intros s a H. Qed.
Lemma yields_bind {B} (m : st T B) (k : B -> st T A) : (forall b, yields C (k b)) -> yields C (m ≫= k).
Proof.
  intros Hk s a. rewrite st_bind_unfold. destruct (m s) as [[b|e] s1]; simpl; [apply Hk|done].
Qed.
End yields.
Ltac yielding := repeat lazymatch goal with
  | |- yields _ (mret _) => apply yields_ret
  | |- yields _ (raise _) => apply yields_raise
  | |- yields _ (_ ≫= _) => apply yields_bind; intros ?
  | |- yields _ (match ?x with _ => _ end) => destruct x eqn:?
  end.

(** Only exceptions of the class [C] are raised. *)
Definition raises {T A} (C : pyexn -> Prop) (m : st T A) : Prop :=
  forall s e, (m s).1 = Raise e -> C e.
Definition value_error (e : pyexn) : Prop := exists w, e = ValueError w.

Section raises.
Context {T : Type} (C : pyexn -> Prop).

Lemma raises_ret {A} (a : A) : raises C (mret a : st T A).
Proof. by intros s e H. Qed.
Lemma raises_raise {A} e : C e -> raises C (raise e : st T A).
Proof. by intros Hc s e' [= <-]. Qed.
Lemma raises_lift {A} (r : res A) : (forall e, r = Raise e -> C e) -> raises C (lift r : st T A).
Proof. intros H s e. apply H. Qed.
Lemma raises_gets {A} (f : T -> A) : raises C (gets f).
Proof. by intros s e H. Qed.
Lemma raises_modify (f : T -> T) : raises C (modify f).
Proof. by intros s e H. Qed.
Lemma raises_ensure b e : C e -> raises C (ensure b e : st T unit).
Proof. intros Hc s e'. destruct b; [done|by intros [= <-]]. Qed.
Lemma raises_bind {A B} (m : st T A) (k : A -> st T B) :
  raises C m -> (forall a, raises C (k a)) -> raises C (m ≫= k).
Proof.
  intros Hm Hk s e. rewrite st_bind_unfold. specialize (Hm s).
  destruct (m s) as [[a|e1] s1]; simpl in *; [apply Hk|]. intros [= <-]. by apply Hm.
Qed.
Lemma raises_fmap {A B} (f : A -> B) (m : st T A) : raises C m -> raises C (f <$> m).
Proof.
  intros Hm s e H. apply (Hm s). unfold fmap, st_fmap in H. destruct (m s) as [[|e'] s1]; simpl in *; congruence.
Qed.
Lemma raises_iter {A} (f : A -> st T unit) l :
  (forall x, raises C (f x)) -> raises C (st_iter f l).
Proof.
  intros Hf. induction l as [|x l IH]; [apply raises_ret|].
  apply raises_bind; [apply Hf|by intros _].
Qed.
End raises.

(** [raising] follows the structure of a computation. *)
Ltac raising := repeat lazymatch goal with
  | |- raises _ (mret _) => apply raises_ret
  | |- raises _ (raise _) => apply raises_raise
  | |- raises _ (lift _) => apply raises_lift
  | |- raises _ (gets _) => apply raises_gets
  | |- raises _ (modify _) => apply raises_modify
  | |- raises _ (ensure _ _) => apply raises_ensure
  | |- raises _ (_ ≫= _) => apply raises_bind; [|intros ?]
  | |- raises _ (_ <$> _) => apply raises_fmap
  | |- raises _ (st_iter _ _) => apply raises_iter; intros ?
  | |- raises _ (match ?x with _ => _ end) => destruct x eqn:?
  | |- value_error (ValueError _) => by eexists
  end.

#[export] Instance Ok_eq_dec {A} `{EqDecision A} (r : res A) (a : A) : Decision (r = Ok a).
Proof.
  destruct r as [x|e]; [destruct (decide (x = a)) as [->|Hne]; [by left|right; congruence]|by right].
Defined.

(** ** Filters *)
Lemma list_filter_all {A} (P : A -> Prop) `{forall x, Decision (P x)} (l : list A) :
  (forall x, x ∈ l -> P x) -> filter P l = l.
Proof.
  induction l as [|x l IH]; intros Hl; [done|]. rewrite filter_cons, decide_True by (apply Hl; by left).
  f_equal. apply IH. intros y Hy. apply Hl. by right.
Qed.
Lemma list_filter_none {A} (P : A -> Prop) `{forall x, Decision (P x)} (l : list A) :
  (forall x, x ∈ l -> ~ P x) -> filter P l = [].
Proof.
  induction l as [|x l IH]; intros Hl; [done|]. rewrite filter_cons, decide_False by (apply Hl; by left).
  apply IH. intros y Hy. apply Hl. by right.
Qed.

(** *** Sublists *)
Lemma foldl_keeps {A B} (P : B -> Prop) (f : B -> A -> B) l b :
  (forall b a, a ∈ l -> P b -> P (f b a)) -> P b -> P (foldl f b l).
Proof.
  revert b. induction l as [|a l IH]; intros b Hf Hb; [done|]. apply IH.
  - intros b' a' Ha'. apply Hf. by right.
  - apply Hf; [by left|done].
Qed.
Lemma Forall_sublist {A} (P : A -> Prop) (l k : list A) :
  l `sublist_of` k -> Forall P k -> Forall P l.
Proof. induction 1; intros Hk; [done| |]; apply Forall_cons in Hk as []; auto. Qed.
Lemma StronglySorted_sublist {A} (R : A -> A -> Prop) (l k : list A) :
  l `sublist_of` k -> StronglySorted R k -> StronglySorted R l.
Proof.
  induction 1 as [|x l k Hs IH|x l k Hs IH]; intros Hk; [done| |];
    apply StronglySorted_inv in Hk as [Hk Hx]; [|by auto].
  constructor; [by auto|]. by eapply Forall_sublist.
Qed.
Lemma List_filter_sublist {A} (f : A -> bool) l : List.filter f l `sublist_of` l.
Proof. induction l as [|x l IH]; simpl; [done|]. by destruct (f x); constructor. Qed.
Lemma map_sublist {A B} (f : A -> B) (l k : list A) : l `sublist_of` k -> map f l `sublist_of` map f k.
Proof. induction 1; simpl; by constructor. Qed.
Lemma elem_of_List_filter {A} (f : A -> bool) l x : x ∈ List.filter f l <-> x ∈ l /\ f x = true.
Proof. rewrite !list_elem_of_In. apply List.filter_In. Qed.

(** ** Strings

    A Python string is modelled by its UTF-8 bytes.  UTF-8 preserves the
    code point order, so Python's string comparison is [String.le]. *)

Fixpoint all_chars (f : ascii -> bool) (s : string) : bool :=
  match s with
  | "" => true
  | String c s' => f c && all_chars f s'
  end.

(** [sub in s] *)
Fixpoint contains (sub s : string) : bool :=
  String.prefix sub s ||
  match s with
  | "" => false
  | String _ s' => contains sub s'
  end.

(** [c in s] for a one-character string [c] *)
Definition has_char (c : ascii) (s : string) : bool :=
  negb (all_chars (fun d => negb (Ascii.eqb c d)) s).

Definition between (lo hi : N) (c : ascii) : bool :=
  N.leb lo (N_of_ascii c) && N.leb (N_of_ascii c) hi.
Definition is_lower (c : ascii) : bool := between 97 122 c.
Definition is_upper (c : ascii) : bool := between 65 90 c.
Definition is_digit (c : ascii) : bool := between 48 57 c.
Definition is_alnum (c : ascii) : bool := is_lower c || is_upper c || is_digit c.
Definition is_hex (c : ascii) : bool := is_digit c || between 97 102 c || between 65 70 c.

Definition newline : ascii := ascii_of_N 10.
Definition NL : string := String newline "".

(** One leading whitespace character dropped, as [str.isspace] defines it on
    the UTF-8 encoding of the Unicode whitespace characters. *)
Definition drop_space (s : string) : option string :=
  match s with
  | "" => None
  | String c s1 =>
    let n := N_of_ascii c in
    if (between 9 13 c || between 28 32 c)%bool then Some s1 else
    match s1 with
    | "" => None
    | String d s2 =>
      if N.eqb n 194 && (N.eqb (N_of_ascii d) 133 || N.eqb (N_of_ascii d) 160) then Some s2 else
      match s2 with
      | "" => None
      | String e s3 =>
        let d := N_of_ascii d in
        let k := N_of_ascii e in
        if (N.eqb n 225 && N.eqb d 154 && N.eqb k 128)
           || (N.eqb n 226 && N.eqb d 128 &&
               ((N.leb 128 k && N.leb k 138) || N.eqb k 168 || N.eqb k 169 || N.eqb k 175))
           || (N.eqb n 226 && N.eqb d 129 && N.eqb k 159)
           || (N.eqb n 227 && N.eqb d 128 && N.eqb k 128)
        then Some s3 else None
      end
    end
  end.

Fixpoint lstrip_fuel (n : nat) (s : string) : string :=
  match n with
  | O => s
  | S n' => match drop_space s with Some s' => lstrip_fuel n' s' | None => s end
  end.
(** [s.lstrip()]; every step drops at least one byte. *)
Definition lstrip (s : string) : string := lstrip_fuel (String.length s) s.

(** [not s.strip()] *)
Definition blank (s : string) : bool := String.eqb (lstrip s) "".

Fixpoint rstrip (s : string) : string :=
  if blank s then "" else
  match s with
  | "" => ""
  | String c s' => String c (rstrip s')
  end.
Definition strip (s : string) : string := rstrip (lstrip s).

(** Characters are counted as code points: every byte that is not a UTF-8
    continuation byte starts one. *)
Definition is_cont (c : ascii) : bool := between 128 191 c.
Fixpoint str_len (s : string) : Z :=
  match s with
  | "" => 0
  | String c s' => (if is_cont c then 0 else 1) + str_len s'
  end.
(** [s[:n]] *)
Fixpoint str_take (n : nat) (s : string) : string :=
  match s with
  | "" => ""
  | String c s' =>
    if is_cont c then String c (str_take n s')
    else match n with
         | O => ""
         | S n' => String c (str_take n' s')
         end
  end.

(** [s.split(c, 1)] when [c] occurs in [s]. *)
Fixpoint split1 (c : ascii) (s : string) : option (string * string) :=
  match s with
  | "" => None
  | String d s' =>
    if Ascii.eqb c d then Some ("", s')
    else match split1 c s' with
         | Some (a, b) => Some (String d a, b)
         | None => None
         end
  end.
Definition before (c : ascii) (s : string) : string :=
  match split1 c s with Some (a, _) => a | None => s end.

(** [s.rsplit(c, 1)] when [c] occurs in [s]. *)
Fixpoint rsplit1 (c : ascii) (s : string) : option (string * string) :=
  match s with
  | "" => None
  | String d s' =>
    match rsplit1 c s' with
    | Some (a, b) => Some (String d a, b)
    | None => if Ascii.eqb c d then Some ("", s') else None
    end
  end.

Lemma rsplit1_app c s t : rsplit1 c t = None -> rsplit1 c (s +:+ String c t) = Some (s, t).
Proof.
  intros Ht. induction s as [|d s IH]; simpl; [by rewrite Ht, Ascii.eqb_refl|]. by rewrite IH.
Qed.
Lemma rsplit1_none c s : all_chars (fun d => negb (Ascii.eqb c d)) s = true -> rsplit1 c s = None.
Proof.
  induction s as [|d s IH]; simpl; [done|]. intros [Hd Hs]%andb_true_iff. rewrite IH by done.
  apply negb_true_iff in Hd. by rewrite Hd.
Qed.

(** [s.split(c)] *)
Fixpoint split_all (c : ascii) (s : string) : list string :=
  match s with
  | "" => [""]
  | String d s' =>
    if Ascii.eqb c d then "" :: split_all c s'
    else match split_all c s' with
         | [] => [String d ""]
         | w :: ws => String d w :: ws
         end
  end.

Definition lower_char (c : ascii) : ascii :=
  if is_upper c then ascii_of_N (N_of_ascii c + 32) else c.
(** [s.lower()] on ASCII letters; other characters are kept. *)
Fixpoint lower (s : string) : string :=
  match s with
  | "" => ""
  | String c s' => String (lower_char c) (lower s')
  end.

Definition ends_with (suf s : string) : bool :=
  String.prefix (String.rev suf) (String.rev s).

(** *** Anchored character-class patterns *)

(** [re.fullmatch("[cls]{lo,hi}", s)] for a class of ASCII characters. *)
Definition class_bounded (cls : ascii -> bool) (lo hi : nat) (s : string) : bool :=
  all_chars cls s && Nat.leb lo (String.length s) && Nat.leb (String.length s) hi.

(** [re.fullmatch("[fst][cls]{0,n}", s)] *)
Definition head_class (fst cls : ascii -> bool) (n : nat) (s : string) : bool :=
  match s with
  | "" => false
  | String c s' => fst c && class_bounded cls 0 n s'
  end.

(** [chop_newline s] is [Some t] when [s] is [t] and one newline. *)
Fixpoint chop_newline (s : string) : option string :=
  match s with
  | "" => None
  | String c s' =>
    match chop_newline s' with
    | Some t => Some (String c t)
    | None => if Ascii.eqb c newline && String.eqb s' "" then Some "" else None
    end
  end.

(** [re.match("^X$", s)]: Python's [$] also matches before one trailing
    newline, so [s] is in [X] or is a string of [X] and a newline. *)
Definition match_dollar (X : string -> bool) (s : string) : bool :=
  X s || match chop_newline s with Some t => X t | None => false end.

Lemma chop_newline_app t : chop_newline (t +:+ NL) = Some t.
Proof. induction t as [|c t IH]; simpl; [done|]. by rewrite IH. Qed.

Lemma chop_newline_Some s t : chop_newline s = Some t <-> s = t +:+ NL.
Proof.
  split; [|intros ->; apply chop_newline_app].
  revert t. induction s as [|c s IH]; intros t; simpl; [done|].
  destruct (chop_newline s) as [u|].
  - intros [= <-]. simpl. by rewrite (IH u).
  - destruct (Ascii.eqb_spec c newline), (String.eqb_spec s ""); simpl; try done.
    intros [= <-]. by subst.
Qed.

Lemma match_dollar_spec X s :
  match_dollar X s = true <-> X s = true \/ exists t, s = t +:+ NL /\ X t = true.
Proof.
  unfold match_dollar. rewrite orb_true_iff. apply or_iff_compat_l.
  destruct (chop_newline s) as [t|] eqn:E.
  - apply chop_newline_Some in E. split; [eauto|].
    intros (t' & Ht & HX). apply chop_newline_Some in Ht.
    apply chop_newline_Some in E. congruence.
  - split; [done|]. intros (t' & Ht & _). apply chop_newline_Some in Ht. congruence.
Qed.

Lemma all_chars_app f s t : all_chars f (s +:+ t) = all_chars f s && all_chars f t.
Proof. induction s as [|c s IH]; simpl; [done|]. by rewrite IH, andb_assoc. Qed.

Lemma all_chars_impl (f g : ascii -> bool) s :
  (forall c, f c = true -> g c = true) -> all_chars f s = true -> all_chars g s = true.
Proof.
  intros Hfg. induction s as [|c s IH]; simpl; [done|].
  intros [? ?]%andb_true_iff. rewrite Hfg, IH; done.
Qed.

Lemma has_char_false c s :
  has_char c s = false <-> all_chars (fun d => negb (Ascii.eqb c d)) s = true.
Proof. unfold has_char. by rewrite negb_false_iff. Qed.

Lemma split1_app c s t : has_char c s = false -> split1 c (s +:+ String c t) = Some (s, t).
Proof.
  intros Hs%has_char_false. induction s as [|d s IH]; simpl; [by rewrite Ascii.eqb_refl|]. simpl in Hs.
  apply andb_true_iff in Hs as [Hd%negb_true_iff Hs]. by rewrite Hd, IH.
Qed.

(** *** Sorted lists of strings: [sorted(set(l))] *)
Definition sort_strs (l : list string) : list string := merge_sort String.le l.
Definition sorted_set (l : list string) : list string := sort_strs (remove_dups l).

Lemma elem_of_sort_strs x l : x ∈ sort_strs l <-> x ∈ l.
Proof. unfold sort_strs. by rewrite merge_sort_Permutation. Qed.

Lemma elem_of_sorted_set x l : x ∈ sorted_set l <-> x ∈ l.
Proof. unfold sorted_set. by rewrite elem_of_sort_strs, elem_of_remove_dups. Qed.

Lemma NoDup_sorted_set l : NoDup (sorted_set l).
Proof.
  unfold sorted_set, sort_strs. rewrite merge_sort_Permutation.
  apply NoDup_remove_dups.
Qed.

Lemma StronglySorted_sorted_set l : StronglySorted String.le (sorted_set l).
Proof. apply StronglySorted_merge_sort; apply _. Qed.

(** The result depends on the set of elements only. *)
Lemma sorted_set_ext l1 l2 :
  (forall x, x ∈ l1 <-> x ∈ l2) -> sorted_set l1 = sorted_set l2.
Proof.
  intros Hl. apply (StronglySorted_unique String.le).
  1, 2: apply StronglySorted_sorted_set.
  apply NoDup_Permutation; [apply NoDup_sorted_set..|].
  intros x. by rewrite !elem_of_sorted_set.
Qed.

(** *** Numbers and instants as text *)

(** The last [w] decimal digits of [z]. *)
Fixpoint digits (w : nat) (z : Z) : string :=
  match w with
  | O => ""
  | S w' => String (ascii_of_N (48 + Z.to_N (z / 10 ^ Z.of_nat w' mod 10))) (digits w' z)
  end.
(** [f"{z:0{w}d}"] for [0 <= z] *)
Definition pad0 (w : nat) (z : Z) : string :=
  if (0 <=? z) && (z <? 10 ^ Z.of_nat w) then digits w z else pretty z.

Lemma ascii_compare_digit a b :
  0 <= a < 10 -> 0 <= b < 10 ->
  Ascii.compare (ascii_of_N (48 + Z.to_N a)) (ascii_of_N (48 + Z.to_N b)) = (a ?= b).
Proof.
  intros Ha Hb. unfold Ascii.compare. rewrite !Ascii.N_ascii_embedding by lia.
  rewrite <-N2Z.inj_compare, !N2Z.inj_add, !Z2N.id by lia.
  apply Z.add_compare_mono_l.
Qed.

Lemma mod_pow_S z w :
  z mod 10 ^ Z.of_nat (S w) = (z / 10 ^ Z.of_nat w mod 10) * 10 ^ Z.of_nat w + z mod 10 ^ Z.of_nat w.
Proof.
  rewrite Nat2Z.inj_succ, Z.pow_succ_r by lia.
  rewrite (Z.mul_comm 10), Z.rem_mul_r by lia. lia.
Qed.

(** Fixed-width decimals are compared as the numbers they show. *)
Lemma digits_compare w a b :
  String.compare (digits w a) (digits w b) =
  (a mod 10 ^ Z.of_nat w ?= b mod 10 ^ Z.of_nat w).
Proof.
  induction w as [|w IH]; simpl digits; [by rewrite !Z.mod_1_r|].
  rewrite !mod_pow_S. simpl. rewrite ascii_compare_digit, IH by (apply Z.mod_pos_bound; lia).
  pose proof (Z.mod_pos_bound a (10 ^ Z.of_nat w)).
  pose proof (Z.mod_pos_bound b (10 ^ Z.of_nat w)).
  destruct (Z.compare_spec (a / 10 ^ Z.of_nat w mod 10) (b / 10 ^ Z.of_nat w mod 10))
    as [->|Hlt|Hgt]; symmetry.
  - destruct (Z.compare_spec (a mod 10 ^ Z.of_nat w) (b mod 10 ^ Z.of_nat w)).
    + apply Z.compare_eq_iff. lia.
    + apply Z.compare_lt_iff. lia.
    + apply Z.compare_gt_iff. lia.
  - apply Z.compare_lt_iff. nia.
  - apply Z.compare_gt_iff. nia.
Qed.

Lemma pad0_compare w a b :
  0 <= a < 10 ^ Z.of_nat w -> 0 <= b < 10 ^ Z.of_nat w ->
  String.compare (pad0 w a) (pad0 w b) = (a ?= b).
Proof.
  intros Ha Hb. unfold pad0.
  rewrite (proj2 (Z.leb_le 0 a)), (proj2 (Z.ltb_lt a _)), (proj2 (Z.leb_le 0 b)),
    (proj2 (Z.ltb_lt b _)) by lia.
  simpl. rewrite digits_compare, !Z.mod_small by lia. done.
Qed.

Lemma string_app_nil_l (s : string) : "" +:+ s = s.
Proof. done. Qed.
Lemma string_app_cons c (s t : string) : String c s +:+ t = String c (s +:+ t).
Proof. done. Qed.

Lemma str_len_app s t : str_len (s +:+ t) = str_len s + str_len t.
Proof. induction s as [|c s IH]; [done|]. rewrite string_app_cons. cbn [str_len]. rewrite IH. destruct (is_cont c); lia. Qed.
Lemma string_length_app (s t : string) :
  String.length (s +:+ t) = (String.length s + String.length t)%nat.
Proof. induction s as [|c s IH]; [done|]. rewrite string_app_cons. simpl. by rewrite IH. Qed.

Lemma string_app_assoc (s t u : string) : (s +:+ t) +:+ u = s +:+ (t +:+ u).
Proof. induction s as [|c s IH]; [done|]. rewrite !string_app_cons. by rewrite IH. Qed.

Lemma string_app_inj_l (s t u : string) : s +:+ t = s +:+ u -> t = u.
Proof.
  induction s as [|c s IH]; [done|]. rewrite !string_app_cons. intros E. injection E as E. auto.
Qed.

Lemma prefix_app (s t : string) : String.prefix s (s +:+ t) = true.
Proof.
  induction s as [|c s IH]; [by destruct t|]. rewrite string_app_cons. simpl.
  by destruct (Ascii.ascii_dec c c).
Qed.

Lemma string_app_inv s1 s2 t1 t2 :
  String.length t1 = String.length t2 -> s1 +:+ t1 = s2 +:+ t2 -> s1 = s2 /\ t1 = t2.
Proof.
  intros Hl. revert s2. induction s1 as [|c s1 IH]; intros [|d s2];
    rewrite ?string_app_nil_l, ?string_app_cons; intros E; try done.
  - exfalso. subst t1. simpl in Hl. rewrite string_length_app in Hl. lia.
  - exfalso. subst t2. simpl in Hl. rewrite string_length_app in Hl. lia.
  - injection E as -> E. apply IH in E as [-> ->]. done.
Qed.

Lemma string_compare_app s t u : String.compare (s +:+ t) (s +:+ u) = String.compare t u.
Proof.
  induction s as [|c s IH]; simpl; [done|]. unfold Ascii.compare at 1. by rewrite N.compare_refl.
Qed.

(** An instant is a number of milliseconds since the epoch.  The civil date
    of a day number, in the proleptic Gregorian calendar. *)
Definition civil (days : Z) : Z * Z * Z :=
  let z := days + 719468 in
  let era := z / 146097 in
  let doe := z mod 146097 in
  let yoe := (doe - doe / 1460 + doe / 36524 - doe / 146096) / 365 in
  let doy := doe - (365 * yoe + yoe / 4 - yoe / 100) in
  let mp := (5 * doy + 2) / 153 in
  let d := doy - (153 * mp + 2) / 5 + 1 in
  let m := if mp <? 10 then mp + 3 else mp - 9 in
  (yoe + era * 400 + (if m <=? 2 then 1 else 0), m, d).

(** [strftime] of the UTC time with the two formats of constants.py. *)
Definition strftime (dsep tsep : string) (now : Z) : string :=
  let secs := now / 1000 in
  let '(y, m, d) := civil (secs / 86400) in
  let t := secs mod 86400 in
  pad0 4 y +:+ dsep +:+ pad0 2 m +:+ dsep +:+ pad0 2 d +:+ "T" +:+
  pad0 2 (t / 3600) +:+ tsep +:+ pad0 2 (t / 60 mod 60) +:+ tsep +:+ pad0 2 (t mod 60).
(** [ISO_TIMESTAMP_FORMAT] *)
Definition iso_timestamp (now : Z) : string := strftime "-" ":" now +:+ "Z".
(** [MSG_ID_TIMESTAMP_FORMAT] *)
Definition compact_timestamp (now : Z) : string := strftime "" "" now.
(** The instant such a timestamp denotes: the second [now] lies in. *)
Definition to_second (now : Z) : Z := now / 1000 * 1000.

Lemma to_second_le now : now - 1000 < to_second now <= now.
Proof. unfold to_second. pose proof (Z.mul_div_le now 1000). pose proof (Z.mul_succ_div_gt now 1000). lia. Qed.

(** *** Lists *)
Lemma filter_nil_iff {A} (P : A -> Prop) `{!forall x, Decision (P x)} (l : list A) :
  filter P l = [] <-> forall x, x ∈ l -> ~ P x.
Proof.
  split.
  - intros Hl x Hx HP. by apply (filter_nil_not_elem_of P l x).
  - induction l as [|x l IH]; intros Hl; [done|]. rewrite filter_cons_False.
    + apply IH. intros y Hy. apply Hl. by right.
    + apply Hl. by left.
Qed.

Lemma find_app {A} (f : A -> bool) l1 l2 :
  List.find f (l1 ++ l2) = match List.find f l1 with Some x => Some x | None => List.find f l2 end.
Proof. induction l1 as [|x l1 IH]; simpl; [done|]. by destruct (f x). Qed.

Lemma find_None {A} (f : A -> bool) l :
  List.find f l = None <-> forall x, x ∈ l -> f x = false.
Proof.
  split.
  - intros H x Hx. apply (List.find_none _ _ H). by apply list_elem_of_In.
  - induction l as [|x l IH]; intros H; simpl; [done|].
    rewrite (H x) by left. apply IH. intros y Hy. apply H. by right.
Qed.

(** *** A stable sort by insertion *)
Section insertion.
Context {A : Type} (before : A -> A -> bool).
Fixpoint insert_by (x : A) (l : list A) : list A :=
  match l with
  | [] => [x]
  | y :: l' => if before x y then x :: l else y :: insert_by x l'
  end.
Definition sort_by (l : list A) : list A := foldr insert_by [] l.
Lemma insert_by_perm x l : insert_by x l ≡ₚ x :: l.
Proof. induction l as [|y l IH]; simpl; [done|]. case_match; [done|]. rewrite IH. by constructor. Qed.
Lemma sort_by_perm l : sort_by l ≡ₚ l.
Proof. induction l as [|x l IH]; simpl; [done|]. by rewrite insert_by_perm, IH. Qed.
Lemma sort_by_sorted l : (forall x y, before x y = true \/ before y x = true) ->
  (forall x y z, before x y = true -> before y z = true -> before x z = true) ->
  StronglySorted (fun x y => before x y = true) (sort_by l).
Proof.
  intros Htot Htr. induction l as [|x l IH]; simpl; [constructor|]. revert IH. generalize (sort_by l). intros k.
  induction 1 as [|y k Hk IH Hy]; simpl; [repeat constructor|]. destruct (before x y) eqn:Hxy.
  - constructor; [by constructor|]. constructor; [done|]. eapply Forall_impl; [exact Hy|]. eauto.
  - constructor; [done|]. rewrite insert_by_perm. constructor; [|done]. by destruct (Htot x y) as [?|?]; [congruence|].
Qed.
End insertion.

(** ** Dictionaries: key/value pairs in insertion order *)
Section dict.
Context {A : Type}.
Implicit Types d : list (string * A).

Fixpoint dget d (k : string) : option A :=
  match d with
  | [] => None
  | (k', v) :: d' => if String.eqb k k' then Some v else dget d' k
  end.

(** [d[k] = v]: an existing key keeps its place. *)
Fixpoint dset d (k : string) (v : A) : list (string * A) :=
  match d with
  | [] => [(k, v)]
  | (k', v') :: d' => if String.eqb k k' then (k, v) :: d' else (k', v') :: dset d' k v
  end.

(** [d.pop(k, None)] *)
Fixpoint ddel d (k : string) : list (string * A) :=
  match d with
  | [] => []
  | (k', v') :: d' => if String.eqb k k' then ddel d' k else (k', v') :: ddel d' k
  end.

Definition dmem d (k : string) : bool :=
  match dget d k with Some _ => true | None => false end.

(** [{**d, **e}] *)
Definition dupdate d (e : list (string * A)) : list (string * A) :=
  foldl (fun acc kv => dset acc kv.1 kv.2) d e.

Lemma dget_dset_eq d k v : dget (dset d k v) k = Some v.
Proof.
  induction d as [|[k' v'] d IH]; simpl; [by rewrite String.eqb_refl|].
  destruct (String.eqb k k') eqn:E; simpl; [by rewrite String.eqb_refl|].
  by rewrite E.
Qed.

Lemma dget_dset_ne d k k' v : k <> k' -> dget (dset d k v) k' = dget d k'.
Proof.
  intros Hk. induction d as [|[k1 v1] d IH]; simpl.
  - destruct (String.eqb_spec k' k); congruence.
  - destruct (String.eqb_spec k k1) as [<-|Hk1]; simpl.
    + destruct (String.eqb_spec k' k); congruence.
    + by rewrite IH.
Qed.

Lemma dget_dset d k k' v :
  dget (dset d k v) k' = if decide (k = k') then Some v else dget d k'.
Proof.
  case_decide; [subst; apply dget_dset_eq|by apply dget_dset_ne].
Qed.

Lemma dget_ddel_eq d k : dget (ddel d k) k = None.
Proof.
  induction d as [|[k' v'] d IH]; simpl; [done|].
  destruct (String.eqb k k') eqn:E; simpl; [done|]. by rewrite E.
Qed.

Lemma dget_ddel_ne d k k' : k <> k' -> dget (ddel d k) k' = dget d k'.
Proof.
  intros Hk. induction d as [|[k1 v1] d IH]; simpl; [done|].
  destruct (String.eqb_spec k k1) as [<-|Hk1]; simpl; [|by rewrite IH].
  destruct (String.eqb_spec k' k); congruence.
Qed.

(** No key occurs twice, as in every Python dict. *)
Definition dict_wf d : Prop := NoDup d.*1.

Lemma dset_keys d k v x : x ∈ (dset d k v).*1 <-> x = k \/ x ∈ d.*1.
Proof.
  induction d as [|[k' v'] d IH]; simpl; [set_solver|].
  destruct (String.eqb_spec k k') as [<-|]; simpl; rewrite !elem_of_cons; [tauto|].
  rewrite IH. tauto.
Qed.

Lemma dset_wf d k v : dict_wf d -> dict_wf (dset d k v).
Proof.
  unfold dict_wf. induction d as [|[k' v'] d IH]; simpl.
  { intros _. apply NoDup_singleton. }
  rewrite NoDup_cons. intros [Hk Hd].
  destruct (String.eqb_spec k k') as [<-|Hne]; simpl; rewrite NoDup_cons; [done|].
  rewrite dset_keys. naive_solver.
Qed.

Lemma dget_elem_of d k v : dict_wf d -> ((k, v) ∈ d <-> dget d k = Some v).
Proof.
  unfold dict_wf. induction d as [|[k' v'] d IH]; simpl.
  { rewrite elem_of_nil. naive_solver. }
  rewrite NoDup_cons, elem_of_cons. intros [Hk Hd]. rewrite IH by done.
  destruct (String.eqb_spec k k') as [<-|Hne]; split.
  - intros [[= ->]|Hv]; [done|]. destruct Hk. apply IH in Hv; [|done].
    apply list_elem_of_fmap. by exists (k, v).
  - intros [= ->]. by left.
  - intros [[= ? ?]|]; [congruence|done].
  - by right.
Qed.

Lemma dget_app d1 d2 k :
  dget (d1 ++ d2) k = match dget d1 k with Some v => Some v | None => dget d2 k end.
Proof.
  induction d1 as [|[k' v'] d1 IH]; simpl; [done|]. by destruct (String.eqb k k').
Qed.
End dict.
Lemma dget_map {A B} (f : A -> B) (l : list (string * A)) k :
  dget (map (fun x => (fst x, f (snd x))) l) k = f <$> dget l k.
Proof. induction l as [|[k' a] l IH]; simpl; [done|]. by destruct (k =? k')%string. Qed.
Lemma dget_filter_key {A} (f : string -> bool) (l : list (string * A)) k :
  dget (List.filter (fun x => f (fst x)) l) k = if f k then dget l k else None.
Proof.
  induction l as [|[k' a] l IH]; simpl; [by destruct (f k)|].
  destruct (f k') eqn:Hf; simpl; destruct (String.eqb_spec k k') as [->|]; rewrite ?IH, ?Hf; done.
Qed.

Lemma ddel_wf {A} (d : list (string * A)) k : dict_wf d -> dict_wf (ddel d k).
Proof.
  intros Hd. unfold dict_wf in *. eapply sublist_NoDup; [exact Hd|]. apply (map_sublist fst).
  clear. induction d as [|[k' v] d IH]; simpl; [constructor|]. destruct (k =? k')%string; by constructor.
Qed.
Lemma filter_wf {A} (f : string * A -> bool) d : dict_wf d -> dict_wf (List.filter f d).
Proof. intros Hd. unfold dict_wf in *. by eapply sublist_NoDup, map_sublist, List_filter_sublist. Qed.

(** ** Python values, as [json.loads] returns them *)
Inductive pyval :=
| VNone
| VBool (b : bool)
| VInt (z : Z)
| VFloat (f : spec_float)
| VStr (s : string)
| VList (l : list pyval)
| VDict (d : list (string * pyval)).

Abbreviation pydict := (list (string * pyval)).

(** [bool(v)] *)
Definition truthy (v : pyval) : bool :=
  match v with
  | VNone => false
  | VBool b => b
  | VInt z => negb (z =? 0)
  | VFloat (S754_zero _) => false
  | VFloat _ => true
  | VStr s => negb (String.eqb s "")
  | VList l => negb (bool_decide (length l = 0%nat))
  | VDict d => negb (bool_decide (length d = 0%nat))
  end.

(** [d.get(k, dflt)] *)
Definition dgetd (d : pydict) (k : string) (dflt : pyval) : pyval :=
  match dget d k with Some v => v | None => dflt end.

(** [v == s] for a string [s]: only an equal string is. *)
Definition eq_str (v : pyval) (s : string) : bool :=
  match v with VStr t => String.eqb t s | _ => false end.

Definition is_str (v : pyval) : bool :=
  match v with VStr _ => true | _ => false end.

(** [d[k]], known to be a string. *)
Definition dstr (d : pydict) (k : string) : string :=
  match dget d k with Some (VStr s) => s | _ => "" end.

Lemma eq_str_true v s : eq_str v s = true <-> v = VStr s.
Proof.
  destruct v; simpl; try (split; [done|congruence]).
  rewrite String.eqb_eq. naive_solver.
Qed.

(** ** Hint database of the development *)
Create HintDb s2p discriminated.
#[export] Hint Rewrite @dget_dset_eq @dget_ddel_eq elem_of_sorted_set elem_of_sort_strs : s2p.
Create HintDb read_only discriminated.
#[export] Hint Resolve @read_only_bind @read_only_iter @read_only_ensure : read_only.
#[export] Hint Resolve NoDup_sorted_set StronglySorted_sorted_set dset_wf : s2p.
