(* ===== verification/MailboxProtocol.v ===== *)
(** * Mailbox protocol (src/src/codeagent/mailbox/protocol.py)

    Message types, their JSON form and the validation of a message read from
    disk.  A JSON object is a [pydict]; the fields of a [Message] hold
    arbitrary values, as the Python dataclass does, and [typed] says that
    they have the annotated types. *)
From S2P Require Import Prelude.

(** ** Constants *)
Definition PROTOCOL_VERSION : Z := 2.
Definition VALID_KINDS : list string :=
  ["TASK"; "REPORT"; "PROGRESS"; "EVIDENCE"; "QUESTION"; "RESPONSE"; "NOTICE"; "RECEIPT"].
Definition VALID_STATES : list string := ["IDLE"; "BUSY"; "DONE"; "BLOCKED"].
(** [sorted(REQUIRED_FIELDS)] *)
Definition REQUIRED_FIELDS : list string :=
  ["body"; "created_at"; "from"; "kind"; "msg_id"; "session_id"; "subject"; "to"].
(** [KIND_CONDITIONAL_REQUIRED], each set sorted. *)
Definition KIND_CONDITIONAL_REQUIRED (kind : string) : list string :=
  if String.eqb kind "TASK" then ["request_id"; "run_id"]
  else if String.eqb kind "REPORT" then ["reply_to"; "request_id"; "run_id"]
  else if String.eqb kind "RECEIPT" then ["receipt_type"; "reply_to"; "request_id"; "run_id"]
  else [].
Definition BROADCAST_TO : string := "*".
Definition DEFAULT_MEDIA_TYPE : string := "application/octet-stream".

Definition id_char (c : ascii) : bool :=
  is_alnum c || Ascii.eqb c "_"%char || Ascii.eqb c "."%char || Ascii.eqb c "-"%char.
(** [AGENT_ID_RE.match] *)
Definition AGENT_ID_RE (s : string) : bool := match_dollar (head_class is_alnum id_char 31) s.
(** [SHA256_RE.match] *)
Definition SHA256_RE (s : string) : bool := match_dollar (class_bounded is_hex 64 64) s.
(** [PATH_SAFE_RE.match] *)
Definition PATH_SAFE_RE (s : string) : bool := match_dollar (class_bounded id_char 1 64) s.

(** ** AttachmentRef *)
Record AttachmentRef := {
  artifact_id : pyval; source_host : pyval; remote_root : pyval;
  relative_path : pyval; size : pyval; sha256 : pyval; media_type : pyval }.

Module AttachmentRef.
Definition to_dict (a : AttachmentRef) : pydict :=
  [("artifact_id", artifact_id a); ("source_host", source_host a);
   ("remote_root", remote_root a); ("relative_path", relative_path a);
   ("size", size a); ("sha256", sha256 a); ("media_type", media_type a)].

(** [d[k]] *)
Definition item (d : pydict) (k : string) : res pyval :=
  match dget d k with Some v => Ok v | None => Raise (KeyError k) end.

Definition from_dict (d : pydict) : res AttachmentRef :=
  do a <- item d "artifact_id";
  do h <- item d "source_host";
  do r <- item d "remote_root";
  do p <- item d "relative_path";
  do n <- item d "size";
  do s <- item d "sha256";
  Ok {| artifact_id := a; source_host := h; remote_root := r; relative_path := p;
        size := n; sha256 := s;
        media_type := dgetd d "media_type" (VStr DEFAULT_MEDIA_TYPE) |}.
End AttachmentRef.

(** ** Message *)
Record Message := {
  session_id : pyval; from_id : pyval; to_id : pyval; subject : pyval; body : pyval;
  kind : pyval; msg_id : pyval; created_at : pyval;
  reply_to : pyval; run_id : pyval; request_id : pyval; command_id : pyval;
  trace_id : pyval; causation_id : pyval; attachments : list AttachmentRef;
  protocol_version : pyval; require_ack : bool; receipt_type : pyval }.

(** [if v: d[k] = v] *)
Definition dset_if (b : bool) (d : pydict) (k : string) (v : pyval) : pydict :=
  if b then dset d k v else d.
Definition dset_truthy (d : pydict) (k : string) (v : pyval) : pydict :=
  dset_if (truthy v) d k v.

Module Message.
Definition to_dict (m : Message) : pydict :=
  let d := [("session_id", session_id m); ("from", from_id m); ("to", to_id m);
            ("subject", subject m); ("body", body m); ("kind", kind m);
            ("msg_id", msg_id m); ("created_at", created_at m);
            ("protocol_version", protocol_version m);
            ("require_ack", VBool (require_ack m))] in
  let d := dset_truthy d "receipt_type" (receipt_type m) in
  let d := dset_truthy d "reply_to" (reply_to m) in
  let d := dset_truthy d "run_id" (run_id m) in
  let d := dset_truthy d "request_id" (request_id m) in
  let d := dset_truthy d "command_id" (command_id m) in
  let d := dset_truthy d "trace_id" (trace_id m) in
  let d := dset_truthy d "causation_id" (causation_id m) in
  dset_truthy d "attachments"
    (VList (map (fun a => VDict (AttachmentRef.to_dict a)) (attachments m))).

(** [[AttachmentRef.from_dict(a) for a in v if isinstance(a, dict)]]: a string
    or an object yields strings, another scalar is not iterable. *)
Fixpoint refs_of (l : list pyval) : res (list AttachmentRef) :=
  match l with
  | [] => Ok []
  | VDict a :: l' =>
    do r <- AttachmentRef.from_dict a;
    do rs <- refs_of l';
    Ok (r :: rs)
  | _ :: l' => refs_of l'
  end.
Definition attachments_of (v : pyval) : res (list AttachmentRef) :=
  match v with
  | VList l => refs_of l
  | VStr _ | VDict _ => Ok []
  | _ => Raise (TypeError "not iterable")
  end.

Definition from_dict (d : pydict) : res Message :=
  do sid <- AttachmentRef.item d "session_id";
  do fr <- AttachmentRef.item d "from";
  do tt' <- AttachmentRef.item d "to";
  do sb <- AttachmentRef.item d "subject";
  do bd <- AttachmentRef.item d "body";
  do kd <- AttachmentRef.item d "kind";
  do mid <- AttachmentRef.item d "msg_id";
  do cr <- AttachmentRef.item d "created_at";
  do atts <- attachments_of (dgetd d "attachments" (VList []));
  Ok {| session_id := sid; from_id := fr; to_id := tt'; subject := sb; body := bd;
        kind := kd; msg_id := mid; created_at := cr;
        reply_to := dgetd d "reply_to" (VStr ""); run_id := dgetd d "run_id" (VStr "");
        request_id := dgetd d "request_id" (VStr "");
        command_id := dgetd d "command_id" (VStr "");
        trace_id := dgetd d "trace_id" (VStr "");
        causation_id := dgetd d "causation_id" (VStr "");
        attachments := atts;
        protocol_version := dgetd d "protocol_version" (VInt 1);
        require_ack := truthy (dgetd d "require_ack" (VBool false));
        receipt_type := dgetd d "receipt_type" (VStr "") |}.
End Message.

(** ** Validation *)
Definition validate_agent_id (aid : string) : res unit :=
  guard AGENT_ID_RE aid orelse ValueError "invalid agent id"; Ok tt.

(** [value in (".", "..")] *)
Definition dot_name (s : string) : bool := String.eqb s "." || String.eqb s "..".

Definition validate_path_component (value : pyval) : res unit :=
  match value with
  | VStr s =>
    guard negb (dot_name s || negb (PATH_SAFE_RE s)) orelse ValueError "invalid path component";
    Ok tt
  | _ => Raise (ValueError "invalid path component")
  end.

(** The verdict of a validation: [(True, "")] or [(False, reason)], the
    reason by its constant text. *)
Inductive verdict := Valid | Invalid (reason : string).

#[export] Instance verdict_eq_dec : EqDecision verdict.
Proof. solve_decision. Defined.

(** [not isinstance(v, str) or not v.strip()] *)
Definition not_nonblank (v : pyval) : bool :=
  match v with VStr s => blank s | _ => true end.

Definition attachment_error (att : pyval) : option string :=
  match att with
  | VDict d =>
    match List.find (fun k => not_nonblank (dgetd d k VNone))
            ["artifact_id"; "source_host"; "remote_root"; "relative_path"] with
    | Some k => Some k
    | None =>
      match dget d "size" with
      | Some (VInt n) =>
        if n <? 0 then Some "size" else
        match dget d "sha256" with
        | Some (VStr s) =>
          if negb (SHA256_RE s) then Some "sha256" else
          let rp := dstr d "relative_path" in
          if String.prefix "/" rp || has_char "\"%char rp || contains ".." rp
          then Some "unsafe relative_path"
          else if not_nonblank (dgetd d "media_type" (VStr DEFAULT_MEDIA_TYPE))
          then Some "media_type" else None
        | _ => Some "sha256"
        end
      | _ => Some "size"
      end
    end
  | _ => Some "attachment must be an object"
  end.

Notation "'require' b 'else' r ; k" := (if b then k else Ok (Invalid r))
  (at level 100, b at level 99, r at level 99, k at level 100, right associativity) : py_scope.

(** [v in VALID_KINDS] hashes [v]: a list or an object raises [TypeError]. *)
Definition unhashable (v : pyval) : bool :=
  match v with VList _ | VDict _ => true | _ => false end.

Definition STRING_FIELDS : list string :=
  ["subject"; "body"; "session_id"; "from"; "to"; "msg_id"; "created_at"].
Definition PATH_FIELDS : list string := ["request_id"; "run_id"; "reply_to"].

(** [isinstance(pv, int) and not isinstance(pv, bool) and pv >= 1] *)
Definition positive_int (v : pyval) : bool :=
  match v with VInt n => 1 <=? n | _ => false end.
Definition is_bool (v : pyval) : bool :=
  match v with VBool _ => true | _ => false end.

(** The test of the loop over [request_id], [run_id] and [reply_to]. *)
Definition path_field_ok (v : pyval) : bool :=
  negb (truthy v) ||
  match v with VStr s => negb (dot_name s) && PATH_SAFE_RE s | _ => false end.

(** [expected is None or b] *)
Definition opt_test (o : option string) (b : string -> bool) : bool :=
  match o with None => true | Some s => b s end.

Definition validate_message (msg : pyval)
    (expected_session_id expected_agent filename : option string) : res verdict :=
  match msg with
  | VDict d =>
    require forallb (dmem d) REQUIRED_FIELDS else "missing fields";
    let kd := dgetd d "kind" VNone in
    if unhashable kd then Raise (TypeError "unhashable type") else
    require existsb (eq_str kd) VALID_KINDS else "invalid kind";
    require forallb (fun f => is_str (dgetd d f VNone)) STRING_FIELDS else "must be string";
    require positive_int (dgetd d "protocol_version" (VInt 1)) else "protocol_version";
    require is_bool (dgetd d "require_ack" (VBool false)) else "require_ack must be bool";
    let rt := dgetd d "receipt_type" (VStr "") in
    require is_str rt else "receipt_type must be string";
    require negb (truthy rt) || eq_str rt "READ" else "invalid receipt_type";
    require negb (blank (dstr d "subject")) else "subject must be non-empty";
    require negb (blank (dstr d "body")) else "body must be non-empty";
    let extras := KIND_CONDITIONAL_REQUIRED (dstr d "kind") in
    require forallb (dmem d) extras else "kind requires fields";
    require forallb (fun f => negb (not_nonblank (dgetd d f (VStr "")))) extras
      else "kind requires non-empty";
    let receipt := eq_str kd "RECEIPT" in
    require negb (receipt && truthy (dgetd d "require_ack" (VBool false)))
      else "RECEIPT must not set require_ack";
    require negb (receipt && negb (eq_str rt "READ")) else "RECEIPT requires receipt_type";
    require negb (receipt && blank (dstr d "reply_to")) else "RECEIPT requires non-empty reply_to";
    require opt_test expected_session_id (String.eqb (dstr d "session_id"))
      else "session_id mismatch";
    require opt_test expected_agent (fun a => String.eqb (dstr d "to") a
                                              || String.eqb (dstr d "to") BROADCAST_TO)
      else "recipient mismatch";
    require opt_test filename (String.eqb (dstr d "msg_id" +:+ ".json")) else "msg_id mismatch";
    require negb (has_char "/"%char (dstr d "msg_id") || has_char "\"%char (dstr d "msg_id"))
      else "invalid msg_id";
    require forallb (fun f => path_field_ok (dgetd d f (VStr ""))) PATH_FIELDS
      else "unsafe path component";
    match dget d "attachments" with
    | None => Ok Valid
    | Some (VList atts) =>
      require forallb (fun a => bool_decide (attachment_error a = None)) atts
        else "invalid attachment";
      Ok Valid
    | Some _ => Ok (Invalid "attachments must be a list")
    end
  | _ => Ok (Invalid "not a JSON object")
  end.

(** ** What a valid message is *)

(** [d[k]] is a string satisfying [P]. *)
Definition str_field (d : pydict) (k : string) (P : string -> Prop) : Prop :=
  exists s, dget d k = Some (VStr s) /\ P s.
Definition nonblank (s : string) : Prop := blank s = false.
(** A string that may name a directory. *)
Definition path_safe (s : string) : Prop :=
  PATH_SAFE_RE s = true /\ s <> "." /\ s <> "..".

Record wf_message (d : pydict) (sid ag fn : option string) : Prop := {
  wf_kind : str_field d "kind" (fun k => k ∈ VALID_KINDS);
  wf_strings : forall f, f ∈ STRING_FIELDS -> str_field d f (fun _ => True);
  wf_version : forall v, dget d "protocol_version" = Some v -> exists n, v = VInt n /\ 1 <= n;
  wf_ack : forall v, dget d "require_ack" = Some v -> exists b, v = VBool b;
  wf_receipt_type : forall v, dget d "receipt_type" = Some v -> v = VStr "" \/ v = VStr "READ";
  wf_subject : str_field d "subject" nonblank;
  wf_body : str_field d "body" nonblank;
  wf_extras : forall k f, dget d "kind" = Some (VStr k) ->
    f ∈ KIND_CONDITIONAL_REQUIRED k -> str_field d f nonblank;
  wf_no_receipt_loop : dget d "kind" = Some (VStr "RECEIPT") ->
    dget d "require_ack" <> Some (VBool true) /\ dget d "receipt_type" = Some (VStr "READ");
  wf_session : forall s, sid = Some s -> dget d "session_id" = Some (VStr s);
  wf_recipient : forall a, ag = Some a ->
    dget d "to" = Some (VStr a) \/ dget d "to" = Some (VStr BROADCAST_TO);
  wf_filename : forall f, fn = Some f -> str_field d "msg_id" (fun m => m +:+ ".json" = f);
  wf_msg_id : str_field d "msg_id" (fun m => has_char "/"%char m = false
                                             /\ has_char "\"%char m = false);
  wf_paths : forall f v, f ∈ PATH_FIELDS -> dget d f = Some v ->
    truthy v = false \/ exists s, v = VStr s /\ path_safe s;
  wf_attachments : forall v, dget d "attachments" = Some v ->
    exists l, v = VList l /\ Forall (fun a => attachment_error a = None) l }.

(** ** Auxiliary facts *)

(** A check of a validation that came out [Valid]. *)
Lemma require_Valid (b : bool) r k :
  (if b then k else Ok (Invalid r)) = Ok Valid <-> b = true /\ k = Ok Valid.
Proof. destruct b; naive_solver. Qed.

Lemma no_raise_Valid (b : bool) e k :
  (if b then Raise e else k) = Ok Valid <-> b = false /\ k = Ok Valid.
Proof. destruct b; naive_solver. Qed.

Lemma dstr_Some d k s : dget d k = Some (VStr s) -> dstr d k = s.
Proof. unfold dstr. by intros ->. Qed.

Lemma is_str_dgetd d k : is_str (dgetd d k VNone) = true <-> exists s, dget d k = Some (VStr s).
Proof.
  unfold dgetd. destruct (dget d k) as [[]|]; simpl; naive_solver.
Qed.

Lemma dmem_true {A} (d : list (string * A)) k : dmem d k = true <-> is_Some (dget d k).
Proof. unfold dmem. destruct (dget d k); simpl; split; naive_solver. Qed.

Lemma nonblank_field d k :
  not_nonblank (dgetd d k (VStr "")) = false <-> str_field d k nonblank.
Proof.
  unfold dgetd, str_field, nonblank. destruct (dget d k) as [[]|]; simpl; naive_solver.
Qed.

Lemma forallb_elem_of {A} (f : A -> bool) l :
  forallb f l = true <-> forall x, x ∈ l -> f x = true.
Proof.
  rewrite forallb_forall. by setoid_rewrite <- list_elem_of_In.
Qed.

Lemma kind_field d :
  existsb (eq_str (dgetd d "kind" VNone)) VALID_KINDS = true <->
  str_field d "kind" (fun k => k ∈ VALID_KINDS).
Proof.
  unfold str_field. rewrite existsb_exists. setoid_rewrite <- list_elem_of_In.
  setoid_rewrite eq_str_true. unfold dgetd. split.
  - intros (k & Hk & Heq). exists k. destruct (dget d "kind"); simpl in *; naive_solver.
  - intros (k & Heq & Hk). exists k. by rewrite Heq.
Qed.

Lemma path_field_ok_true v :
  path_field_ok v = true <-> truthy v = false \/ exists s, v = VStr s /\ path_safe s.
Proof.
  unfold path_field_ok, path_safe, dot_name. rewrite orb_true_iff, negb_true_iff.
  apply or_iff_compat_l. destruct v; simpl; try (split; [done|intros (? & ? & _); congruence]).
  rewrite andb_true_iff, negb_true_iff, orb_false_iff, !String.eqb_neq.
  split; [intros ([? ?] & ?); eauto|intros (t & [= <-] & ? & ? & ?); done].
Qed.
#[export] Hint Rewrite is_str_dgetd @dmem_true nonblank_field kind_field path_field_ok_true : s2p.

Lemma dget_dstr d k (P : string -> Prop) :
  is_str (dgetd d k VNone) = true -> P (dstr d k) -> str_field d k P.
Proof.
  intros [s Hs]%is_str_dgetd. rewrite (dstr_Some _ _ _ Hs). exists s. eauto.
Qed.

Lemma dgetd_Some d k v dflt : dget d k = Some v -> dgetd d k dflt = v.
Proof. unfold dgetd. by intros ->. Qed.

(** The checks of [validate_message], as one conjunction. *)
Record checks (d : pydict) (sid ag fn : option string) : Prop := {
  ck_required : forallb (dmem d) REQUIRED_FIELDS = true;
  ck_kind : existsb (eq_str (dgetd d "kind" VNone)) VALID_KINDS = true;
  ck_strings : forallb (fun f => is_str (dgetd d f VNone)) STRING_FIELDS = true;
  ck_version : positive_int (dgetd d "protocol_version" (VInt 1)) = true;
  ck_ack : is_bool (dgetd d "require_ack" (VBool false)) = true;
  ck_rt : is_str (dgetd d "receipt_type" (VStr "")) = true;
  ck_rt_val : negb (truthy (dgetd d "receipt_type" (VStr "")))
              || eq_str (dgetd d "receipt_type" (VStr "")) "READ" = true;
  ck_subject : blank (dstr d "subject") = false;
  ck_body : blank (dstr d "body") = false;
  ck_extras : forallb (dmem d) (KIND_CONDITIONAL_REQUIRED (dstr d "kind")) = true;
  ck_extras_nb : forallb (fun f => negb (not_nonblank (dgetd d f (VStr ""))))
                   (KIND_CONDITIONAL_REQUIRED (dstr d "kind")) = true;
  ck_rec1 : eq_str (dgetd d "kind" VNone) "RECEIPT" = true ->
            truthy (dgetd d "require_ack" (VBool false)) = false;
  ck_rec2 : eq_str (dgetd d "kind" VNone) "RECEIPT" = true ->
            negb (eq_str (dgetd d "receipt_type" (VStr "")) "READ") = false;
  ck_rec3 : eq_str (dgetd d "kind" VNone) "RECEIPT" = true ->
            blank (dstr d "reply_to") = false;
  ck_sid : opt_test sid (String.eqb (dstr d "session_id")) = true;
  ck_ag : opt_test ag (fun a => String.eqb (dstr d "to") a
                                || String.eqb (dstr d "to") BROADCAST_TO) = true;
  ck_fn : opt_test fn (String.eqb (dstr d "msg_id" +:+ ".json")) = true;
  ck_sep : has_char "/"%char (dstr d "msg_id") || has_char "\"%char (dstr d "msg_id") = false;
  ck_paths : forallb (fun f => path_field_ok (dgetd d f (VStr ""))) PATH_FIELDS = true;
  ck_atts : forall v, dget d "attachments" = Some v ->
    exists l, v = VList l /\ forallb (fun a => bool_decide (attachment_error a = None)) l = true }.

Lemma kind_hashable v : existsb (eq_str v) VALID_KINDS = true -> unhashable v = false.
Proof.
  intros (k & _ & Hk)%existsb_exists. apply eq_str_true in Hk. by subst.
Qed.

Lemma negb_andb_true (a b : bool) : negb (a && b) = true <-> (a = true -> b = false).
Proof. destruct a, b; naive_solver. Qed.

Lemma validate_checks d sid ag fn :
  validate_message (VDict d) sid ag fn = Ok Valid <-> checks d sid ag fn.
Proof.
  unfold validate_message; cbv zeta. split.
  - intros H.
    repeat (apply require_Valid in H as [? H] || apply no_raise_Valid in H as [? H]).
    repeat match goal with
    | E : negb (_ && _) = true |- _ => rewrite negb_andb_true in E
    | E : negb _ = true |- _ => rewrite negb_true_iff in E
    end.
    split; try assumption.
    intros v Hv. rewrite Hv in H. destruct v; try discriminate H.
    apply require_Valid in H as [? _]. eauto.
  - intros [].
    repeat (apply require_Valid; split;
            [first [assumption | by apply negb_true_iff | by apply negb_andb_true]|];
            try (apply no_raise_Valid; split; [apply kind_hashable; assumption|])).
    destruct (dget d "attachments") as [v|]; [|done].
    destruct (ck_atts0 v eq_refl) as (l & -> & Hl).
    apply require_Valid. done.
Qed.

Lemma is_str_dgetd_str d k :
  is_str (dgetd d k (VStr "")) = true <-> forall v, dget d k = Some v -> exists s, v = VStr s.
Proof.
  unfold dgetd. destruct (dget d k) as [v|]; [|done].
  split; [intros H v' [= <-]; destruct v; try done; eauto|].
  intros H. by destruct (H v eq_refl) as [s ->].
Qed.

(** A field of [STRING_FIELDS] holds the string [dstr] reads. *)
Lemma string_field d f :
  forallb (fun f => is_str (dgetd d f VNone)) STRING_FIELDS = true ->
  f ∈ STRING_FIELDS -> dget d f = Some (VStr (dstr d f)).
Proof.
  intros H Hf. rewrite forallb_elem_of in H.
  apply H, is_str_dgetd in Hf as [s Hs]. by rewrite (dstr_Some _ _ _ Hs).
Qed.

Lemma wf_of_checks d sid ag fn : checks d sid ag fn -> wf_message d sid ag fn.
Proof.
  intros [].
  pose proof (fun f => string_field d f ck_strings0) as Hs.
  assert (Hk : exists k, dget d "kind" = Some (VStr k) /\ k ∈ VALID_KINDS).
  { by apply kind_field. }
  destruct Hk as (k & Hk & HkV).
  rewrite (dstr_Some _ _ _ Hk) in *.
  rewrite (dgetd_Some _ _ _ _ Hk) in *.
  split.
  - by apply kind_field; rewrite (dgetd_Some _ _ _ _ Hk).
  - intros f Hf. exists (dstr d f). auto.
  - intros v Hv. rewrite (dgetd_Some _ _ _ _ Hv) in ck_version0.
    destruct v; try done. simpl in ck_version0. bool_to_prop. eauto.
  - intros v Hv. rewrite (dgetd_Some _ _ _ _ Hv) in ck_ack0. destruct v; try done. eauto.
  - intros v Hv. rewrite (dgetd_Some _ _ _ _ Hv) in *.
    destruct v as [| | | |s| |]; try done. simpl in ck_rt_val0.
    destruct (String.eqb_spec s ""); [by left; subst|].
    destruct (String.eqb_spec s "READ"); [by right; subst|done].
  - exists (dstr d "subject"). split; [apply Hs; in_list|done].
  - exists (dstr d "body"). split; [apply Hs; in_list|done].
  - intros k' f [= <-]%(fun e => eq_trans (eq_sym Hk) e) Hf.
    rewrite forallb_elem_of in ck_extras_nb0.
    apply nonblank_field, negb_true_iff. by apply ck_extras_nb0.
  - intros Hr. rewrite Hk in Hr. injection Hr as ->.
    specialize (ck_rec4 eq_refl). specialize (ck_rec5 eq_refl). apply negb_false_iff in ck_rec5.
    split.
    + intros Ha. by rewrite (dgetd_Some _ _ _ _ Ha) in ck_rec4.
    + apply eq_str_true in ck_rec5. unfold dgetd in ck_rec5.
      destruct (dget d "receipt_type"); congruence.
  - intros s ->. simpl in ck_sid0. apply String.eqb_eq in ck_sid0. subst s.
    apply Hs. in_list.
  - intros a ->. simpl in ck_ag0. apply orb_true_iff in ck_ag0 as [E|E]; apply String.eqb_eq in E;
      [left|right]; rewrite <- E; apply Hs; in_list.
  - intros f ->. simpl in ck_fn0. apply String.eqb_eq in ck_fn0.
    exists (dstr d "msg_id"). split; [apply Hs; in_list|done].
  - exists (dstr d "msg_id"). apply orb_false_iff in ck_sep0.
    split; [apply Hs; in_list|done].
  - intros f v Hf Hv. rewrite forallb_elem_of in ck_paths0. specialize (ck_paths0 f Hf).
    rewrite (dgetd_Some _ _ _ _ Hv) in ck_paths0. by apply path_field_ok_true.
  - intros v Hv. destruct (ck_atts0 v Hv) as (l & -> & Hl). exists l. split; [done|].
    apply Forall_forall. rewrite forallb_elem_of in Hl. intros a Ha.
    apply Hl in Ha. by apply bool_decide_eq_true in Ha.
Qed.

Lemma required_string f : f ∈ REQUIRED_FIELDS -> f <> "kind" -> f ∈ STRING_FIELDS.
Proof.
  intros Hf Hne.
  repeat (apply elem_of_cons in Hf as [-> | Hf]; [done || in_list|]).
  by apply elem_of_nil in Hf.
Qed.

(** A field with a default satisfies a test that its default and its value do. *)
Lemma dgetd_test d k dflt (f : pyval -> bool) :
  f dflt = true -> (forall v, dget d k = Some v -> f v = true) -> f (dgetd d k dflt) = true.
Proof. intros ? Hv. unfold dgetd. destruct (dget d k); auto. Qed.

Lemma checks_of_wf d sid ag fn : wf_message d sid ag fn -> checks d sid ag fn.
Proof.
  intros [[k [Hk HkV]] Hstr Hver Hack Hrt [sb [Hsb Hsbn]] [bd [Hbd Hbdn]] Hex Hrec Hsid Hag Hfn
          [mid [Hmid [Hm1 Hm2]]] Hpaths Hatts].
  assert (Hs : forall f, f ∈ STRING_FIELDS -> dget d f = Some (VStr (dstr d f))).
  { intros f Hf. destruct (Hstr f Hf) as (s & Hs & _). by rewrite (dstr_Some _ _ _ Hs). }
  assert (Hrec' : k = "RECEIPT" -> str_field d "reply_to" nonblank).
  { intros ->. apply (Hex "RECEIPT"); [done|]. in_list. }
  split; rewrite ?(dstr_Some _ _ _ Hk), ?(dgetd_Some _ _ _ _ Hk); try done.
  - apply forallb_elem_of. intros f Hf. apply dmem_true.
    destruct (decide (f = "kind")) as [->|Hne]; [by rewrite Hk|].
    rewrite Hs; [done|]. by apply required_string.
  - apply existsb_exists. exists k. rewrite <- list_elem_of_In, eq_str_true. done.
  - apply forallb_elem_of. intros f Hf. apply is_str_dgetd. eauto.
  - apply dgetd_test; [done|]. intros v Hv. destruct (Hver v Hv) as (n & -> & ?).
    by apply Z.leb_le.
  - apply dgetd_test; [done|]. intros v Hv. by destruct (Hack v Hv) as [b ->].
  - apply dgetd_test; [done|]. intros v Hv. by destruct (Hrt v Hv) as [-> | ->].
  - apply (dgetd_test d "receipt_type" _ (fun v => negb (truthy v) || eq_str v "READ")); [done|].
    intros v Hv. by destruct (Hrt v Hv) as [-> | ->].
  - by rewrite (dstr_Some _ _ _ Hsb).
  - by rewrite (dstr_Some _ _ _ Hbd).
  - apply forallb_elem_of. intros f Hf. apply dmem_true.
    destruct (Hex k f Hk Hf) as (s & -> & _). done.
  - apply forallb_elem_of. intros f Hf. apply negb_true_iff, nonblank_field. eauto.
  - intros Hr. apply eq_str_true in Hr. injection Hr as ->. destruct (Hrec Hk) as [Ha _].
    unfold dgetd. destruct (dget d "require_ack") as [v|] eqn:E; [|done].
    destruct (Hack v eq_refl) as [[] ->]; done.
  - intros Hr. apply eq_str_true in Hr. injection Hr as ->. destruct (Hrec Hk) as [_ Hr].
    by rewrite (dgetd_Some _ _ _ _ Hr).
  - intros Hr. apply eq_str_true in Hr. injection Hr as ->.
    destruct (Hrec' eq_refl) as (s & Hs' & Hn). by rewrite (dstr_Some _ _ _ Hs').
  - destruct sid as [s|]; [|done]. simpl. rewrite (dstr_Some _ _ _ (Hsid s eq_refl)).
    apply String.eqb_refl.
  - destruct ag as [a|]; [|done]. simpl.
    destruct (Hag a eq_refl) as [E|E]; rewrite (dstr_Some _ _ _ E), String.eqb_refl; [done|].
    apply orb_true_r.
  - destruct fn as [f|]; [|done]. simpl. destruct (Hfn f eq_refl) as (m & E & <-).
    rewrite (dstr_Some _ _ _ E). apply String.eqb_refl.
  - by rewrite (dstr_Some _ _ _ Hmid), Hm1, Hm2.
  - apply forallb_elem_of. intros f Hf.
    apply (dgetd_test d f _ path_field_ok); [done|]. intros v Hv. apply path_field_ok_true. eauto.
  - intros v Hv. destruct (Hatts v Hv) as (l & -> & Hl). exists l. split; [done|].
    apply forallb_elem_of. intros a Ha. apply bool_decide_eq_true.
    by apply (proj1 (Forall_forall _ _) Hl).
Qed.

(** ** Properties *)

(** [validate_message] accepts an object exactly when it is a well-formed
    message: every field typed as the protocol says, the kind's own fields
    present and non-blank, receipts never demanding a receipt, the recipient,
    session and file name the expected ones, and every field that names a
    file or a directory free of path separators. *)
Theorem validate_message_spec d sid ag fn :
  validate_message (VDict d) sid ag fn = Ok Valid <-> wf_message d sid ag fn.
Proof.
  rewrite validate_checks. split; [apply wf_of_checks|apply checks_of_wf].
Qed.

(** *** Round trip of the JSON form *)

Lemma AttachmentRef_roundtrip a : AttachmentRef.from_dict (AttachmentRef.to_dict a) = Ok a.
Proof. by destruct a. Qed.

Lemma refs_of_to_dict atts :
  Message.refs_of (map (fun a => VDict (AttachmentRef.to_dict a)) atts) = Ok atts.
Proof. induction atts as [|[] atts IH]; simpl in *; [done|]. by rewrite IH. Qed.

Lemma dget_dset_truthy_eq d k v :
  dget (dset_truthy d k v) k = if truthy v then Some v else dget d k.
Proof. unfold dset_truthy, dset_if. destruct (truthy v); [apply dget_dset_eq|done]. Qed.

Lemma dget_dset_truthy_ne d k k' v : k <> k' -> dget (dset_truthy d k v) k' = dget d k'.
Proof. intros ?. unfold dset_truthy, dset_if. destruct (truthy v); [by apply dget_dset_ne|done]. Qed.

(** [get_field] computes the value a message's JSON form has for a key. *)
Ltac get_field :=
  unfold Message.to_dict, dgetd, AttachmentRef.item; cbv zeta;
  repeat first [rewrite dget_dset_truthy_ne by discriminate | rewrite dget_dset_truthy_eq].

Lemma to_dict_mandatory m :
  let d := Message.to_dict m in
  dget d "session_id" = Some (session_id m) /\ dget d "from" = Some (from_id m) /\
  dget d "to" = Some (to_id m) /\ dget d "subject" = Some (subject m) /\
  dget d "body" = Some (body m) /\ dget d "kind" = Some (kind m) /\
  dget d "msg_id" = Some (msg_id m) /\ dget d "created_at" = Some (created_at m) /\
  dget d "protocol_version" = Some (protocol_version m) /\
  dget d "require_ack" = Some (VBool (require_ack m)).
Proof. cbv zeta. repeat split; by get_field. Qed.

(** An optional field is present exactly when it is truthy. *)
Definition opt_of (v : pyval) : option pyval := if truthy v then Some v else None.

Lemma to_dict_optional m :
  let d := Message.to_dict m in
  dget d "receipt_type" = opt_of (receipt_type m) /\ dget d "reply_to" = opt_of (reply_to m) /\
  dget d "run_id" = opt_of (run_id m) /\ dget d "request_id" = opt_of (request_id m) /\
  dget d "command_id" = opt_of (command_id m) /\ dget d "trace_id" = opt_of (trace_id m) /\
  dget d "causation_id" = opt_of (causation_id m) /\
  dget d "attachments" =
    opt_of (VList (map (fun a => VDict (AttachmentRef.to_dict a)) (attachments m))).
Proof. cbv zeta. repeat split; by get_field. Qed.

(** The optional fields of [m] are strings, as the dataclass annotates them. *)
Definition typed (m : Message) : Prop :=
  Forall (fun v => is_str v = true)
    [reply_to m; run_id m; request_id m; command_id m; trace_id m; causation_id m; receipt_type m].

Lemma dgetd_opt d k v :
  is_str v = true -> dget d k = opt_of v -> dgetd d k (VStr "") = v.
Proof.
  unfold dgetd, opt_of. intros Hv ->. destruct v as [| | | |s| |]; try done. simpl.
  by destruct (String.eqb_spec s "") as [->|].
Qed.

Lemma attachments_roundtrip m :
  Message.attachments_of (dgetd (Message.to_dict m) "attachments" (VList [])) = Ok (attachments m).
Proof.
  destruct (to_dict_optional m) as (_ & _ & _ & _ & _ & _ & _ & Ha).
  unfold dgetd. rewrite Ha. unfold opt_of. destruct (attachments m) as [|a atts]; [done|].
  apply (refs_of_to_dict (a :: atts)).
Qed.

(** a message with string-valued optional fields is read back from its
    JSON form unchanged: absent optional fields come back as the empty string
    they were, attachments in order with every field, the protocol version
    and the acknowledgement flag as written. *)
Theorem message_roundtrip m : typed m -> Message.from_dict (Message.to_dict m) = Ok m.
Proof.
  unfold typed. rewrite !Forall_cons. intros (H1 & H2 & H3 & H4 & H5 & H6 & H7 & _).
  destruct (to_dict_mandatory m) as (E1 & E2 & E3 & E4 & E5 & E6 & E7 & E8 & E9 & E10).
  destruct (to_dict_optional m) as (F1 & F2 & F3 & F4 & F5 & F6 & F7 & _).
  unfold Message.from_dict, AttachmentRef.item.
  rewrite attachments_roundtrip, E1, E2, E3, E4, E5, E6, E7, E8. simpl.
  rewrite (dgetd_Some _ _ _ _ E9), (dgetd_Some _ _ _ _ E10).
  rewrite (dgetd_opt _ _ _ H1 F2), (dgetd_opt _ _ _ H2 F3), (dgetd_opt _ _ _ H3 F4),
    (dgetd_opt _ _ _ H4 F5), (dgetd_opt _ _ _ H5 F6), (dgetd_opt _ _ _ H6 F7),
    (dgetd_opt _ _ _ H7 F1).
  by destruct m.
Qed.

(** *** Path safety *)

(** A file name component that cannot leave its directory. *)
Definition confined (s : string) : Prop :=
  s <> "" /\ s <> "." /\ s <> ".." /\ has_char "/"%char s = false /\ has_char "\"%char s = false.

Lemma id_char_no_sep c : id_char c = true -> c <> "/"%char /\ c <> "\"%char.
Proof. intros H. split; intros ->; vm_compute in H; discriminate. Qed.

Lemma PATH_SAFE_no_sep s c :
  (c = "/"%char \/ c = "\"%char) -> PATH_SAFE_RE s = true -> s <> "" /\ has_char c s = false.
Proof.
  intros Hc H. unfold PATH_SAFE_RE in H. rewrite match_dollar_spec in H.
  assert (Hcls : forall t, class_bounded id_char 1 64 t = true ->
            t <> "" /\ all_chars (fun d => negb (Ascii.eqb c d)) t = true).
  { intros t [[Ht Hlen]%andb_true_iff _]%andb_true_iff. split; [by intros ->|].
    revert Ht. apply all_chars_impl. intros d [Hs Hb]%id_char_no_sep.
    apply negb_true_iff, Ascii.eqb_neq. destruct Hc; congruence. }
  rewrite has_char_false. destruct H as [H|(t & -> & H)].
  - by apply Hcls.
  - apply Hcls in H as [Hne Ht]. split; [by destruct t|].
    rewrite all_chars_app, Ht. by destruct Hc as [-> | ->].
Qed.

Lemma path_safe_confined s : path_safe s -> confined s.
Proof.
  intros (H & ? & ?). unfold confined.
  destruct (PATH_SAFE_no_sep s "/"%char (or_introl eq_refl) H) as [? ?].
  destruct (PATH_SAFE_no_sep s "\"%char (or_intror eq_refl) H) as [? ?]. done.
Qed.

(** the identifiers of an accepted message that the store and the request
    ledger turn into file and directory names cannot leave their directory:
    a non-empty [request_id], [run_id] or [reply_to] is a confined path
    component, and [msg_id] contains no path separator. *)
Theorem validated_paths_confined d sid ag fn :
  validate_message (VDict d) sid ag fn = Ok Valid ->
  (forall f v, f ∈ PATH_FIELDS -> dget d f = Some v -> truthy v = true ->
     exists s, v = VStr s /\ confined s) /\
  str_field d "msg_id" (fun m => has_char "/"%char m = false /\ has_char "\"%char m = false).
Proof.
  rewrite validate_checks. intros H%wf_of_checks. split; [|apply (wf_msg_id _ _ _ _ H)].
  intros f v Hf Hv Ht. destruct (wf_paths _ _ _ _ H f v Hf Hv) as [?|(s & -> & Hs)]; [congruence|].
  eauto using path_safe_confined.
Qed.

(** A TASK message as the swarm kernel sends it. *)
Definition sample_task (req : string) : Message :=
  {| session_id := VStr "s1"; from_id := VStr "mgr"; to_id := VStr "w1"; subject := VStr "hi";
     body := VStr "hello"; kind := VStr "TASK"; msg_id := VStr "m1";
     created_at := VStr "2026-08-01T10:00:00Z"; reply_to := VStr ""; run_id := VStr "r1";
     request_id := VStr req; command_id := VStr ""; trace_id := VStr ""; causation_id := VStr "";
     attachments := []; protocol_version := VInt 2; require_ack := false;
     receipt_type := VStr "" |}.

Lemma message_roundtrip_witness :
  typed (sample_task "q1") /\
  Message.from_dict (Message.to_dict (sample_task "q1")) = Ok (sample_task "q1").
Proof.
  assert (H : typed (sample_task "q1")).
  { unfold typed. repeat constructor. }
  split; [exact H|apply (message_roundtrip _ H)].
Defined.

Lemma validated_paths_confined_witness :
  let d := Message.to_dict (sample_task "q1") in
  validate_message (VDict d) (Some "s1") (Some "w1") (Some "m1.json") = Ok Valid /\
  ((forall f v, f ∈ PATH_FIELDS -> dget d f = Some v -> truthy v = true ->
     exists s, v = VStr s /\ confined s) /\
   str_field d "msg_id" (fun m => has_char "/"%char m = false /\ has_char "\"%char m = false)).
Proof.
  assert (H : validate_message (VDict (Message.to_dict (sample_task "q1")))
                (Some "s1") (Some "w1") (Some "m1.json") = Ok Valid) by (vm_compute; reflexivity).
  split; [exact H|apply (validated_paths_confined _ _ _ _ H)].
Defined.

(** the path-component check is not the character class its comment
    states.  [PATH_SAFE_RE] is anchored with [$], so a string of up to 64 safe
    characters is also accepted with a newline after it; the newline becomes
    part of the directory name. *)
Theorem path_component_newline s :
  class_bounded id_char 1 64 s = true ->
  validate_path_component (VStr (s +:+ NL)) = Ok tt /\
  all_chars id_char (s +:+ NL) = false.
Proof.
  intros Hs. split.
  - assert (HP : PATH_SAFE_RE (s +:+ NL) = true).
    { unfold PATH_SAFE_RE. rewrite match_dollar_spec. eauto. }
    unfold validate_path_component, dot_name. rewrite HP.
    assert (Hd : forall t, t = "." \/ t = ".." -> String.eqb (s +:+ NL) t = false).
    { intros t Ht. apply String.eqb_neq. intros E.
      destruct Ht as [-> | ->]; destruct s as [|? [|? []]]; try done. }
    by rewrite !Hd by eauto.
  - rewrite all_chars_app. by destruct (all_chars id_char s).
Qed.

Lemma path_component_newline_witness :
  class_bounded id_char 1 64 "req-1" = true /\
  (validate_path_component (VStr ("req-1" +:+ NL)) = Ok tt /\
   all_chars id_char ("req-1" +:+ NL) = false).
Proof.
  assert (H : class_bounded id_char 1 64 "req-1" = true) by (vm_compute; reflexivity).
  split; [exact H|apply (path_component_newline _ H)].
Defined.

(** a message whose [kind] is a list or an object, with every required
    field present, is the one input [validate_message] neither accepts nor
    rejects: the membership test in the set of kinds raises [TypeError]. *)
Theorem validate_message_raises msg sid ag fn e :
  validate_message msg sid ag fn = Raise e <->
  exists d, msg = VDict d /\ forallb (dmem d) REQUIRED_FIELDS = true /\
            unhashable (dgetd d "kind" VNone) = true /\ e = TypeError "unhashable type".
Proof.
  split.
  - destruct msg as [| | | | | |d]; try discriminate. unfold validate_message. cbv zeta.
    destruct (forallb (dmem d) REQUIRED_FIELDS) eqn:E1; [|discriminate].
    destruct (unhashable (dgetd d "kind" VNone)) eqn:E2; [intros [= <-]; eauto|].
    intros H. exfalso. revert H. repeat case_match; discriminate.
  - intros (d & -> & E1 & E2 & ->). unfold validate_message. by rewrite E1, E2.
Qed.
