(* ===== verification/Wire.v ===== *)
(** * Frames of the remote helper (src/src/codeagent/wire/protocol.py)

    The JSON text of a frame and its reading, one frame per line; requests and
    responses with the fields that each kind must have; the composite cursor of
    a stream.  Texts are UTF-8 bytes as everywhere in this development; a lone
    surrogate that an escape denotes is kept as its three bytes.  How Python
    prints a float is a parameter, which no frame of the protocol needs. *)
From S2P Require Import Prelude.
From Stdlib Require Import Floats.SpecFloat.


(** ** JSON text *)
Definition quote : ascii := ascii_of_N 34.
Definition backslash : ascii := ascii_of_N 92.
Definition hex_digit (n : N) : ascii := ascii_of_N (if N.ltb n 10 then 48 + n else 87 + n).
(** One character inside quotes, with [ensure_ascii=False]. *)
Definition escape (c : ascii) : string :=
  match N_of_ascii c with
  | 34%N => "\"  +:+ String quote ""
  | 92%N => "\\" | 10%N => "\n" | 13%N => "\r" | 9%N => "\t" | 8%N => "\b" | 12%N => "\f"
  | n => if N.ltb n 32 then "\u00" +:+ String (hex_digit (N.div n 16)) (String (hex_digit (N.modulo n 16)) "")
         else String c ""
  end.
Fixpoint escapes (s : string) : string :=
  match s with "" => "" | String c s' => escape c +:+ escapes s' end.
Definition dump_str (s : string) : string := String quote (escapes s +:+ String quote "").
Fixpoint join (sep : string) (l : list string) : string :=
  match l with [] => "" | [s] => s | s :: l' => s +:+ sep +:+ join sep l' end.

Section dumps.
Context (float_repr : spec_float -> string) (comma colon : string).
Fixpoint dumps_with (v : pyval) : string :=
  match v with
  | VNone => "null"
  | VBool b => if b then "true" else "false"
  | VInt z => pretty z
  | VFloat f => float_repr f
  | VStr s => dump_str s
  | VList l => "[" +:+ join comma (map dumps_with l) +:+ "]"
  | VDict d => "{" +:+ join comma (map (fun x => dump_str (fst x) +:+ colon +:+ dumps_with (snd x)) d) +:+ "}"
  end.
End dumps.

(** *** Reading *)
Definition is_ws (c : ascii) : bool := bool_decide (N_of_ascii c ∈ [32; 9; 10; 13]%N).
Fixpoint skip_ws (s : string) : string :=
  match s with String c s' => if is_ws c then skip_ws s' else s | "" => "" end.
Definition hex_val (c : ascii) : option N :=
  let n := N_of_ascii c in
  if between 48 57 c then Some (n - 48)%N else if between 97 102 c then Some (n - 87)%N
  else if between 65 70 c then Some (n - 55)%N else None.
Definition hex4 (a b c d : ascii) : option N :=
  match hex_val a, hex_val b, hex_val c, hex_val d with
  | Some w, Some x, Some y, Some z => Some (((w * 16 + x) * 16 + y) * 16 + z)%N
  | _, _, _, _ => None
  end.
Definition byte_of (n : N) : string := String (ascii_of_N n) "".
Definition utf8 (n : N) : string :=
  if N.ltb n 128 then byte_of n
  else if N.ltb n 2048 then byte_of (192 + n / 64) +:+ byte_of (128 + n mod 64)
  else if N.ltb n 65536 then byte_of (224 + n / 4096) +:+ byte_of (128 + n / 64 mod 64) +:+ byte_of (128 + n mod 64)
  else byte_of (240 + n / 262144) +:+ byte_of (128 + n / 4096 mod 64) +:+ byte_of (128 + n / 64 mod 64)
       +:+ byte_of (128 + n mod 64).
Definition is_high (n : N) : bool := N.leb 55296 n && N.leb n 56319.
Definition is_low (n : N) : bool := N.leb 56320 n && N.leb n 57343.
Definition prepend (a : string) (r : option (string * string)) : option (string * string) :=
  match r with Some (s, rest) => Some (a +:+ s, rest) | None => None end.
Definition simple_escape (c : ascii) : option ascii :=
  match N_of_ascii c with
  | 34%N => Some quote | 92%N => Some backslash | 47%N => Some (ascii_of_N 47) | 98%N => Some (ascii_of_N 8)
  | 102%N => Some (ascii_of_N 12) | 110%N => Some newline | 114%N => Some (ascii_of_N 13)
  | 116%N => Some (ascii_of_N 9) | _ => None
  end.
(** The characters up to the closing quote, and what follows it. *)
Fixpoint read_chars (s : string) : option (string * string) :=
  match s with
  | "" => None
  | String c s1 =>
    if Ascii.eqb c quote then Some ("", s1)
    else if Ascii.eqb c backslash then
      match s1 with
      | String "u" (String h1 (String h2 (String h3 (String h4 s2)))) =>
        match hex4 h1 h2 h3 h4 with
        | None => None
        | Some n =>
          if is_high n then
            match s2 with
            | String b (String "u" (String l1 (String l2 (String l3 (String l4 s3))))) =>
              match (if Ascii.eqb b backslash then hex4 l1 l2 l3 l4 else None) with
              | Some m => if is_low m then prepend (utf8 (65536 + (n - 55296) * 1024 + (m - 56320))) (read_chars s3)
                          else prepend (utf8 n) (read_chars s2)
              | None => prepend (utf8 n) (read_chars s2)
              end
            | _ => prepend (utf8 n) (read_chars s2)
            end
          else prepend (utf8 n) (read_chars s2)
        end
      | String e s2 => match simple_escape e with Some x => prepend (String x "") (read_chars s2) | None => None end
      | "" => None
      end
    else if N.ltb (N_of_ascii c) 32 then None
    else prepend (String c "") (read_chars s1)
  end.

(** Numbers: a sign, an integer without leading zeros, and for a float a
    fraction, an exponent or both. *)
Fixpoint span (f : ascii -> bool) (s : string) : string * string :=
  match s with
  | String c s' => if f c then let (a, b) := span f s' in (String c a, b) else ("", s)
  | "" => ("", "")
  end.
Fixpoint decimal (acc : Z) (s : string) : Z :=
  match s with "" => acc | String c s' => decimal (acc * 10 + Z.of_N (N_of_ascii c - 48)) s' end.
Definition char_is (n : N) (c : ascii) : bool := N.eqb (N_of_ascii c) n.
Definition read_int (s : string) : option (string * string) :=
  match s with
  | String c s' => if char_is 48 c then Some ("0", s') else if is_digit c then Some (span is_digit s) else None
  | "" => None
  end.
Definition read_frac (s : string) : string * string :=
  match s with
  | String c s' => if char_is 46 c then match span is_digit s' with ("", _) => ("", s) | r => r end else ("", s)
  | "" => ("", "")
  end.
(** The exponent, when there is one. *)
Definition read_exp (s : string) : option Z * string :=
  match s with
  | String c s1 =>
    if char_is 101 c || char_is 69 c then
      let '(neg, s2) := match s1 with
                        | String d s' => if char_is 45 d then (true, s') else if char_is 43 d then (false, s') else (false, s1)
                        | "" => (false, s1)
                        end in
      match span is_digit s2 with
      | ("", _) => (None, s)
      | (ds, r) => (Some (if neg : bool then - decimal 0 ds else decimal 0 ds), r)
      end
    else (None, s)
  | "" => (None, s)
  end.
(** The binary64 number nearest to [m * 10 ^ e], ties to even.  Exponents out
    of all range are cut, and a quotient of 64 bits with a sticky bit rounds as
    the exact one. *)
Definition float_of (neg : bool) (m e : Z) : spec_float :=
  if (m =? 0) || (e + Z.log2 m <? -1200) then S754_zero neg
  else if 400 <? e then S754_infinity neg
  else let sign z := if neg then - z else z in
    if 0 <=? e then binary_normalize 53 1024 (sign (m * 10 ^ e)) 0 neg
    else
      let d := 10 ^ (- e) in
      let sh := Z.max 0 (64 + Z.log2 d - Z.log2 m) in
      let n := m * 2 ^ sh in
      binary_normalize 53 1024 (sign (2 * (n / d) + (if n mod d =? 0 then 0 else 1))) (- sh - 1) neg.
Definition read_number (s : string) : option (pyval * string) :=
  let '(neg, s1) := match s with String c s' => if char_is 45 c then (true, s') else (false, s) | "" => (false, s) end in
  match read_int s1 with
  | None => None
  | Some (ds, s2) =>
    let (fs, s3) := read_frac s2 in
    let (ex, s4) := read_exp s3 in
    match fs, ex with
    | "", None => Some (VInt (if neg : bool then - decimal 0 ds else decimal 0 ds), s4)
    | _, _ => Some (VFloat (float_of neg (decimal 0 (ds +:+ fs)) (default 0 ex - Z.of_nat (String.length fs))), s4)
    end
  end.
Fixpoint drop_prefix (p s : string) : option string :=
  match p, s with
  | "", _ => Some s
  | String a p', String b s' => if Ascii.eqb a b then drop_prefix p' s' else None
  | _, "" => None
  end.
Definition constants : list (string * pyval) := [
  ("null", VNone); ("true", VBool true); ("false", VBool false); ("NaN", VFloat S754_nan);
  ("Infinity", VFloat (S754_infinity false)); ("-Infinity", VFloat (S754_infinity true))].
Definition read_constant (s : string) : option (pyval * string) :=
  foldr (fun x r => match drop_prefix (fst x) s with Some s' => Some (snd x, s') | None => r end) None constants.
(** [dict(pairs)]: the last value of a key stays, at its first place. *)
Definition dict_of (l : list (string * pyval)) : pydict := foldl (fun d x => dset d (fst x) (snd x)) [] l.

(** Each call goes past a character, so that the length of the text is fuel
    enough. *)
Fixpoint read_value (n : nat) (s : string) : option (pyval * string) :=
  match n, s with
  | S n, String c s1 =>
    if Ascii.eqb c quote then match read_chars s1 with Some (t, r) => Some (VStr t, r) | None => None end
    else if char_is 91 c then
      match skip_ws s1 with
      | String d r as s2 => if char_is 93 d then Some (VList [], r)
                            else match read_items n s2 with Some (l, r') => Some (VList l, r') | None => None end
      | "" => None
      end
    else if char_is 123 c then
      match skip_ws s1 with
      | String d r as s2 => if char_is 125 d then Some (VDict [], r)
                            else match read_members n s2 with Some (l, r') => Some (VDict (dict_of l), r') | None => None end
      | "" => None
      end
    else match read_constant s with Some x => Some x | None => read_number s end
  | _, _ => None
  end
with read_items (n : nat) (s : string) : option (list pyval * string) :=
  match n with
  | S n =>
    match read_value n s with
    | Some (v, r) =>
      match skip_ws r with
      | String c r' => if char_is 44 c then match read_items n (skip_ws r') with
                                            | Some (l, r2) => Some (v :: l, r2) | None => None end
                       else if char_is 93 c then Some ([v], r') else None
      | "" => None
      end
    | None => None
    end
  | O => None
  end
with read_members (n : nat) (s : string) : option (list (string * pyval) * string) :=
  match n, s with
  | S n, String q s1 =>
    match (if Ascii.eqb q quote then read_chars s1 else None) with
    | Some (k, r) =>
      match skip_ws r with
      | String c r1 =>
        match (if char_is 58 c then read_value n (skip_ws r1) else None) with
        | Some (v, r2) =>
          match skip_ws r2 with
          | String d r3 => if char_is 44 d then match read_members n (skip_ws r3) with
                                                | Some (l, r4) => Some ((k, v) :: l, r4) | None => None end
                           else if char_is 125 d then Some ([(k, v)], r3) else None
          | "" => None
          end
        | None => None
        end
      | "" => None
      end
    | None => None
    end
  | _, _ => None
  end.
(** [json.loads]; [None] is [JSONDecodeError]. *)
Definition loads (s : string) : option pyval :=
  let s1 := skip_ws s in
  match read_value (S (String.length s1)) s1 with
  | Some (v, r) => if String.eqb (skip_ws r) "" then Some v else None
  | None => None
  end.

(** *** What is printed is read back *)
#[local] Ltac Zify.zify_post_hook ::= Z.to_euclidean_division_equations.
Section pyval_induction.
Context (P : pyval -> Prop).
Context (Hnone : P VNone) (Hbool : forall b, P (VBool b)) (Hint : forall z, P (VInt z)).
Context (Hfloat : forall f, P (VFloat f)) (Hstr : forall s, P (VStr s)).
Context (Hlist : forall l, Forall P l -> P (VList l)) (Hdict : forall d, Forall (fun x => P (snd x)) d -> P (VDict d)).
Fixpoint pyval_deep (v : pyval) : P v :=
  match v with
  | VNone => Hnone
  | VBool b => Hbool b
  | VInt z => Hint z
  | VFloat f => Hfloat f
  | VStr s => Hstr s
  | VList l => Hlist l ((fix go l : Forall P l :=
      match l with [] => Forall_nil_2 P | x :: l' => Forall_cons_2 P x l' (pyval_deep x) (go l') end) l)
  | VDict d => Hdict d ((fix go d : Forall (fun x => P (snd x)) d :=
      match d with [] => Forall_nil_2 _ | x :: d' => Forall_cons_2 _ x d' (pyval_deep (snd x)) (go d') end) d)
  end.
End pyval_induction.
(** Values without floats whose dictionaries have each key once. *)
Fixpoint plain (v : pyval) : bool :=
  match v with
  | VFloat _ => false
  | VList l => forallb plain l
  | VDict d => bool_decide (NoDup d.*1) && forallb (fun x => plain (snd x)) d
  | _ => true
  end.

Lemma read_chars_escape c t : read_chars (escape c +:+ t) = prepend (String c "") (read_chars t).
Proof. destruct c as [[] [] [] [] [] [] [] []]; reflexivity. Qed.
Lemma read_chars_escapes s t : read_chars (escapes s +:+ String quote t) = Some (s, t).
Proof.
  induction s as [|c s IH]; simpl; [done|]. rewrite string_app_assoc, read_chars_escape, IH. done.
Qed.
Lemma read_dump_str s t : read_chars (escapes s +:+ String quote "" +:+ t) = Some (s, t).
Proof. apply read_chars_escapes. Qed.

Definition stops (s : string) : Prop :=
  match s with "" => True | String c _ => is_digit c = false /\ char_is 46 c = false /\ char_is 101 c = false /\ char_is 69 c = false end.
Lemma span_digits ds r : all_chars is_digit ds = true -> stops r -> span is_digit (ds +:+ r) = (ds, r).
Proof.
  intros Hds Hr. induction ds as [|c ds IH]; simpl in *.
  - destruct r as [|c r]; [done|]. simpl. by destruct Hr as [-> _].
  - apply andb_true_iff in Hds as [-> Hds]. by rewrite IH.
Qed.
Lemma string_append_nil (s : string) : s +:+ "" = s.
Proof. induction s as [|c s IH]; [done|]. rewrite string_app_cons. by rewrite IH. Qed.
(** The decimal digits of a number. *)
Lemma pretty_char_spec x : (x < 10)%N ->
  pretty_N_char x = ascii_of_N (48 + x) /\ is_digit (pretty_N_char x) = true /\
  Z.of_N (N_of_ascii (pretty_N_char x) - 48) = Z.of_N x.
Proof.
  intros Hx. assert (Hc : x ∈ [0; 1; 2; 3; 4; 5; 6; 7; 8; 9]%N) by (rewrite !elem_of_cons; lia).
  repeat (apply elem_of_cons in Hc as [->|Hc]; [by vm_compute|]). by apply elem_of_nil in Hc.
Qed.
Lemma decimal_app acc s t : decimal acc (s +:+ t) = decimal (decimal acc s) t.
Proof. revert acc. induction s as [|c s IH]; intros acc; simpl; [done|]. by rewrite IH. Qed.
Lemma pretty_go x : (0 < x)%N -> exists c ds, (forall s, pretty_N_go x s = String c ds +:+ s) /\
  is_digit c = true /\ char_is 48 c = false /\ all_chars is_digit ds = true /\ decimal 0 (String c ds) = Z.of_N x.
Proof.
  induction (N.lt_wf_0 x) as [x _ IH]. intros Hx. destruct (pretty_char_spec (x mod 10)) as (Hc & Hd & Hv); [lia|].
  destruct (decide (x < 10)%N) as [Hlt|Hge].
  - exists (pretty_N_char x), "". rewrite N.mod_small in * by done. split_and!.
    + intros s. rewrite pretty_N_go_step by done. rewrite N.div_small, N.mod_small by done. by rewrite pretty_N_go_0.
    + done.
    + rewrite Hc. unfold char_is. apply N.eqb_neq. rewrite Ascii.N_ascii_embedding; lia.
    + done.
    + simpl. rewrite Hv. lia.
  - destruct (IH (x / 10)%N) as (c & ds & Hs & Hcd & Hnz & Hall & Hval); [lia..|].
    exists c, (ds +:+ String (pretty_N_char (x mod 10)) ""). split_and!; [|done|done| |].
    + intros s. rewrite pretty_N_go_step, Hs by done. by rewrite !string_app_cons, string_app_assoc.
    + rewrite all_chars_app, Hall. simpl. by rewrite Hd.
    + change (String c (ds +:+ ?t)) with (String c ds +:+ t). rewrite decimal_app, Hval. simpl. rewrite Hv. lia.
Qed.
Lemma read_frac_stop r : stops r -> read_frac r = ("", r).
Proof. destruct r as [|c r]; simpl; [done|]. by intros (_ & -> & _). Qed.
Lemma read_exp_stop r : stops r -> read_exp r = (None, r).
Proof. destruct r as [|c r]; simpl; [done|]. by intros (_ & _ & -> & ->). Qed.
Lemma read_nat x r : stops r -> exists c ds, pretty (N.pos x) = String c ds /\ is_digit c = true /\
  read_int (pretty (N.pos x) +:+ r) = Some (pretty (N.pos x), r) /\ decimal 0 (pretty (N.pos x)) = Z.pos x.
Proof.
  intros Hr. destruct (pretty_go (N.pos x)) as (c & ds & Hs & Hc & Hnz & Hall & Hval); [lia|].
  assert (Hp : pretty (N.pos x) = String c ds).
  { change (pretty (N.pos x)) with (pretty_N_go (N.pos x) ""). rewrite Hs. by rewrite string_append_nil. }
  assert (Hspan : span is_digit (String c ds +:+ r) = (String c ds, r))
    by (apply span_digits; [simpl; by rewrite Hc|done]).
  exists c, ds. rewrite Hp. split_and!; [done..| |done]. rewrite string_app_cons in *. unfold read_int.
  by rewrite Hnz, Hc, Hspan.
Qed.
Lemma read_pretty z r : stops r -> read_number (pretty z +:+ r) = Some (VInt z, r).
Proof.
  intros Hr. unfold read_number. destruct z as [|x|x].
  - simpl. by rewrite read_frac_stop, read_exp_stop.
  - destruct (read_nat x r Hr) as (c & ds & Hp & Hc & Hi & Hv). change (pretty (Z.pos x)) with (pretty (N.pos x)).
    rewrite Hp in *. rewrite string_app_cons in *. replace (char_is 45 c) with false.
    + by rewrite Hi, read_frac_stop, read_exp_stop, Hv.
    + symmetry. apply N.eqb_neq. apply andb_true_iff in Hc as [Hc%N.leb_le _]. lia.
  - destruct (read_nat x r Hr) as (c & ds & Hp & Hc & Hi & Hv).
    change (pretty (Z.neg x)) with (String "-" (pretty (N.pos x))). rewrite string_app_cons.
    change (char_is 45 "-"%char) with true. cbv iota. by rewrite Hi, read_frac_stop, read_exp_stop, Hv.
Qed.

Section printed.
Context (float_repr : spec_float -> string) (sp : string) (Hsp : forall t, skip_ws (sp +:+ t) = skip_ws t).
Notation dumps := (dumps_with float_repr ("," +:+ sp) (":" +:+ sp)).
(** The first character of a value. *)
Definition opens (c : ascii) : Prop :=
  is_ws c = false /\ char_is 93 c = false /\ char_is 125 c = false.
Lemma dumps_opens v : plain v = true -> exists c s, dumps v = String c s /\ opens c.
Proof.
  assert (Hc : forall c s, bool_decide (is_ws c = false /\ char_is 93 c = false /\ char_is 125 c = false) = true ->
    exists c' s', String c s = String c' s' /\ opens c').
  { intros c s Hb. exists c, s. split; [done|]. by apply bool_decide_eq_true in Hb. }
  destruct v as [|[]|z|f|s|l|d]; intros Hv; try (apply Hc; reflexivity); try discriminate Hv.
  destruct z as [|x|x]; try (apply Hc; reflexivity).
  destruct (read_nat x "") as (c & ds & Hp & Hd & _); [done|]. simpl.
  change (pretty (Z.pos x)) with (pretty (N.pos x)). rewrite Hp. apply Hc.
  revert Hd. clear. by destruct c as [[] [] [] [] [] [] [] []].
Qed.
Lemma skip_opens v t : plain v = true -> skip_ws (dumps v +:+ t) = dumps v +:+ t.
Proof.
  intros Hv. destruct (dumps_opens v Hv) as (c & s & -> & Hc & _). rewrite string_app_cons. simpl. by rewrite Hc.
Qed.
Definition reads_back (v : pyval) : Prop := plain v = true -> forall n r,
  (String.length (dumps v) <= n)%nat -> stops r -> read_value n (dumps v +:+ r) = Some (v, r).
Lemma items_back l : l <> [] -> Forall reads_back l -> forallb plain l = true -> forall n r,
  (String.length (join ("," +:+ sp) (map dumps l)) < n)%nat ->
  read_items n (join ("," +:+ sp) (map dumps l) +:+ "]" +:+ r) = Some (l, r).
Proof.
  induction l as [|v l IH]; [done|]. intros _ [Hv Hl]%Forall_cons [Hpv Hpl]%andb_true_iff n r Hn.
  destruct n as [|n]; [simpl in Hn; lia|]. destruct l as [|v' l].
  - simpl map in *. simpl join in *. simpl. rewrite Hv; [done|done|lia|done].
  - assert (Hj : join ("," +:+ sp) (map dumps (v :: v' :: l)) = dumps v +:+ "," +:+ sp +:+ join ("," +:+ sp) (map dumps (v' :: l))).
    { simpl. by rewrite !string_app_assoc. }
    rewrite Hj in *. rewrite !string_length_app in Hn. change (String.length ",") with 1%nat in Hn.
    rewrite !string_app_assoc. cbn [read_items]. rewrite Hv; [|done|lia|done].
    set (t := join _ _ +:+ "]" +:+ r) in *.
    change (skip_ws ("," +:+ sp +:+ t)) with ("," +:+ (sp +:+ t)).
    assert (Ht : skip_ws t = t).
    { unfold t. simpl in Hpl. apply andb_true_iff in Hpl as [Hpv' _]. destruct l as [|v2 l]; simpl.
      - by apply skip_opens.
      - rewrite string_app_assoc. by apply skip_opens. }
    rewrite string_app_cons. change (char_is 44 ","%char) with true. cbv iota. rewrite string_app_nil_l, Hsp, Ht. unfold t.
    rewrite IH; [done|done|done|done|]. lia.
Qed.
Definition member (x : string * pyval) : string := dump_str (fst x) +:+ (":" +:+ sp) +:+ dumps (snd x).
Lemma members_back d : d <> [] -> Forall (fun x => reads_back (snd x)) d -> forallb (fun x => plain (snd x)) d = true ->
  forall n r, (String.length (join ("," +:+ sp) (map member d)) < n)%nat ->
  read_members n (join ("," +:+ sp) (map member d) +:+ "}" +:+ r) = Some (d, r).
Proof.
  assert (Hstr : forall n k v t, plain v = true -> read_members (S n) (dump_str k +:+ (":" +:+ sp) +:+ dumps v +:+ t) =
    match read_value n (dumps v +:+ t) with
    | Some (v, r2) => match skip_ws r2 with
                      | String d r3 => if char_is 44 d then match read_members n (skip_ws r3) with
                                                            | Some (l, r4) => Some ((k, v) :: l, r4) | None => None end
                                       else if char_is 125 d then Some ([(k, v)], r3) else None
                      | "" => None end
    | None => None end).
  { intros n k v t Hv. unfold dump_str. rewrite string_app_cons. cbn [read_members].
    rewrite Ascii.eqb_refl, string_app_assoc, read_dump_str. rewrite string_app_assoc, string_app_cons.
    change (skip_ws (String ":" ?t)) with (String ":" t). change (char_is 58 ":"%char) with true. cbv iota.
    rewrite string_app_nil_l, Hsp, skip_opens by done. done. }
  assert (Happ : forall k v t, member (k, v) +:+ t = dump_str k +:+ (":" +:+ sp) +:+ dumps v +:+ t)
    by (intros; unfold member; by rewrite !string_app_assoc).
  assert (Hlen : forall k v, (S (String.length (dumps v)) <= String.length (member (k, v)))%nat).
  { intros k v. unfold member. rewrite !string_length_app. simpl. lia. }
  induction d as [|[k v] d IH]; [done|]. intros _ [Hv Hd]%Forall_cons [Hpv Hpd]%andb_true_iff n r Hn.
  simpl in Hv, Hpv. destruct n as [|n]; [lia|]. destruct d as [|[k' v'] d].
  - change (join _ (map member [(k, v)])) with (member (k, v)) in *. specialize (Hlen k v).
    rewrite Happ, Hstr by done. rewrite Hv; [done|done|lia|done].
  - assert (Hj : join ("," +:+ sp) (map member ((k, v) :: (k', v') :: d))
      = member (k, v) +:+ "," +:+ sp +:+ join ("," +:+ sp) (map member ((k', v') :: d))).
    { simpl. by rewrite !string_app_assoc. }
    specialize (Hlen k v).
    rewrite Hj in *. rewrite !string_length_app in Hn. change (String.length ",") with 1%nat in Hn.
    rewrite string_app_assoc, Happ, Hstr by done. rewrite !string_app_assoc. rewrite Hv; [|done|lia|done].
    set (t := join _ _ +:+ "}" +:+ r) in *.
    change (skip_ws ("," +:+ sp +:+ t)) with ("," +:+ (sp +:+ t)).
    assert (Ht : skip_ws t = t) by (by destruct d).
    rewrite string_app_cons. change (char_is 44 ","%char) with true. cbv iota. rewrite string_app_nil_l, Hsp, Ht.
    unfold t. rewrite IH; [done|done|done|done|]. lia.
Qed.
Lemma dict_of_same d : NoDup d.*1 -> dict_of d = d.
Proof.
  unfold dict_of. intros Hd. enough (H : forall d1, NoDup (d1 ++ d).*1 -> foldl (fun e x => dset e (fst x) (snd x)) d1 d = d1 ++ d)
    by (by apply (H [])).
  clear Hd. induction d as [|[k v] d IH]; intros d1 Hd; simpl; [by rewrite app_nil_r|].
  assert (Hk : dset d1 k v = d1 ++ [(k, v)]).
  { rewrite fmap_app in Hd. simpl in Hd. apply NoDup_app in Hd as (_ & Hd & _).
    assert (Hn : k ∉ d1.*1) by (intros Hk; apply (Hd k Hk); by left). clear -Hn.
    induction d1 as [|[k' v'] d1 IH]; simpl in *; [done|]. apply not_elem_of_cons in Hn as [Hne Hn].
    destruct (String.eqb_spec k k'); [done|]. by rewrite IH. }
  rewrite Hk, IH; [by rewrite <- app_assoc|by rewrite <- app_assoc].
Qed.
Lemma read_step n c s1 v r : plain v = true -> dumps v +:+ r = String c s1 ->
  char_is 91 c = false -> char_is 123 c = false -> Ascii.eqb c quote = false ->
  read_value (S n) (dumps v +:+ r) = match read_constant (dumps v +:+ r) with
                                     | Some x => Some x | None => read_number (dumps v +:+ r) end.
Proof. intros _ -> H1 H2 H3. cbn [read_value]. by rewrite H1, H2, H3. Qed.
Lemma int_not_constant (z : Z) r : stops r -> read_constant (pretty z +:+ r) = None /\
  exists c s, pretty z +:+ r = String c s /\ char_is 91 c = false /\ char_is 123 c = false /\ Ascii.eqb c quote = false.
Proof.
  intros Hr. assert (Hdig : forall c s, is_digit c = true -> read_constant (String c s) = None /\
    char_is 91 c = false /\ char_is 123 c = false /\ Ascii.eqb c quote = false).
  { intros c s Hc. revert Hc. by destruct c as [[] [] [] [] [] [] [] []]. }
  destruct z as [|x|x].
  - split; [done|]. by eexists _, _.
  - destruct (read_nat x r Hr) as (c & ds & Hp & Hc & _). change (pretty (Z.pos x)) with (pretty (N.pos x)).
    rewrite Hp, string_app_cons. destruct (Hdig c (ds +:+ r) Hc) as [? ?]. split; [done|]. by eexists _, _.
  - destruct (read_nat x r Hr) as (c & ds & Hp & Hc & _).
    change (pretty (Z.neg x)) with (String "-" (pretty (N.pos x))). rewrite Hp, !string_app_cons.
    split; [|by eexists _, _]. revert Hc. clear. by destruct c as [[] [] [] [] [] [] [] []].
Qed.
Lemma list_text l r : dumps (VList l) +:+ r = String "[" (join ("," +:+ sp) (map dumps l) +:+ "]" +:+ r).
Proof. cbn [dumps_with]. by rewrite !string_app_assoc. Qed.
Lemma list_length l : String.length (dumps (VList l)) = S (S (String.length (join ("," +:+ sp) (map dumps l)))).
Proof. cbn [dumps_with]. rewrite !string_length_app. simpl (String.length "["). simpl (String.length "]"). lia. Qed.
Lemma dict_text d r : dumps (VDict d) +:+ r = String "{" (join ("," +:+ sp) (map member d) +:+ "}" +:+ r).
Proof. cbn [dumps_with]. rewrite !string_app_assoc. done. Qed.
Lemma dict_length d : String.length (dumps (VDict d)) = S (S (String.length (join ("," +:+ sp) (map member d)))).
Proof.
  change (dumps (VDict d)) with ("{" +:+ join ("," +:+ sp) (map member d) +:+ "}").
  rewrite !string_length_app. simpl (String.length "{"). simpl (String.length "}"). lia.
Qed.
Lemma value_back v : reads_back v.
Proof.
  induction v as [|b|z|f|s|l Hl|d Hd] using pyval_deep; intros Hp n r Hn Hr.
  - destruct n; [simpl in Hn; lia|]. done.
  - destruct n; [destruct b; simpl in Hn; lia|]. by destruct b.
  - destruct (int_not_constant z r Hr) as (Hc & c & s & Hs & H1 & H2 & H3).
    destruct n as [|n]; [destruct (dumps_opens (VInt z)) as (c' & s' & Hd & _); [done|]; rewrite Hd in Hn; simpl in Hn; lia|].
    rewrite (read_step _ c s) by done. simpl dumps_with. rewrite Hc. by apply read_pretty.
  - done.
  - destruct n; [simpl in Hn; lia|]. simpl dumps_with. unfold dump_str. rewrite string_app_cons, string_app_assoc.
    cbn [read_value]. by rewrite Ascii.eqb_refl, read_dump_str.
  - rewrite list_text, list_length in *. destruct n as [|n]; [lia|]. cbn [read_value].
    change (Ascii.eqb "["%char quote) with false. change (char_is 91 "["%char) with true. cbv iota.
    destruct l as [|v l]; [done|].
    set (t := join _ _ +:+ _). assert (Ht : exists c s, t = String c s /\ opens c).
    { simpl in Hp. apply andb_true_iff in Hp as [Hpv _]. destruct (dumps_opens v Hpv) as (c & s & Hc & Ho).
      unfold t. destruct l; cbn [map join]; rewrite Hc, ?string_app_assoc, string_app_cons; by eexists _, _. }
    destruct Ht as (c & s & Ht & Hws & H93 & _). rewrite Ht. simpl skip_ws. rewrite Hws, H93, <- Ht. unfold t.
    rewrite items_back; [done|done|exact Hl|exact Hp|]. lia.
  - rewrite dict_text, dict_length in *. destruct n as [|n]; [lia|]. simpl in Hp.
    apply andb_true_iff in Hp as [Hnd%bool_decide_eq_true Hp]. cbn [read_value].
    change (Ascii.eqb "{"%char quote) with false. change (char_is 91 "{"%char) with false.
    change (char_is 123 "{"%char) with true. cbv iota. destruct d as [|x d]; [done|].
    set (t := join _ _ +:+ _). assert (Ht : exists s, t = String quote s).
    { unfold t. destruct d; cbn [map join]; unfold member, dump_str; rewrite ?string_app_assoc, string_app_cons; by eexists. }
    destruct Ht as (s & Ht). rewrite Ht. change (skip_ws (String quote s)) with (String quote s).
    change (char_is 125 quote) with false. cbv iota. rewrite <- Ht. unfold t.
    rewrite members_back; [by rewrite dict_of_same|done|exact Hd|exact Hp|]. lia.
Qed.
Lemma loads_back v : plain v = true -> loads (dumps v) = Some v.
Proof.
  intros Hv. unfold loads. destruct (dumps_opens v Hv) as (c & s & Hd & Hc & _).
  assert (Hs : skip_ws (dumps v) = dumps v) by (rewrite Hd; simpl; by rewrite Hc).
  rewrite Hs. rewrite <- (string_append_nil (dumps v)) at 2. rewrite value_back; [done|done|lia|done].
Qed.
(** A text that is printed has no line break, and no blank at either end. *)
Lemma escape_unbroken c : all_chars (fun d => negb (Ascii.eqb newline d)) (escape c) = true.
Proof. by destruct c as [[] [] [] [] [] [] [] []]. Qed.
Context (Hsp_unbroken : has_char newline sp = false).
Notation unbroken s := (all_chars (fun d => negb (Ascii.eqb newline d)) s = true).
Lemma str_unbroken s : unbroken (dump_str s).
Proof.
  unfold dump_str. simpl. rewrite all_chars_app. simpl. rewrite andb_true_r.
  induction s as [|c s IH]; simpl; [done|]. by rewrite all_chars_app, escape_unbroken.
Qed.
Lemma join_unbroken {A} (f : A -> string) l : Forall (fun x => unbroken (f x)) l -> unbroken (join ("," +:+ sp) (map f l)).
Proof.
  apply has_char_false in Hsp_unbroken as Hs.
  induction 1 as [|x l Hx Hl IH]; [done|]. destruct l as [|y l]; [exact Hx|].
  change (join ?c (map f (x :: y :: l))) with (f x +:+ c +:+ join c (map f (y :: l))).
  rewrite !all_chars_app, Hx, Hs, IH. done.
Qed.
Lemma digits_unbroken s : all_chars is_digit s = true -> unbroken s.
Proof. apply all_chars_impl. by intros [[] [] [] [] [] [] [] []]. Qed.
Lemma nat_unbroken x : unbroken (pretty (N.pos x)).
Proof.
  destruct (pretty_go (N.pos x)) as (c & ds & Hs & Hc & _ & Hall & _); [lia|].
  change (pretty (N.pos x)) with (pretty_N_go (N.pos x) ""). rewrite Hs, string_append_nil.
  apply digits_unbroken. simpl. by rewrite Hc.
Qed.
Lemma dumps_unbroken v : plain v = true -> unbroken (dumps v).
Proof.
  induction v as [|[]|[|x|x]|f|s|l Hl|d Hd] using pyval_deep; intros Hp; try done.
  - apply nat_unbroken.
  - change (dumps (VInt (Z.neg x))) with (String "-" (pretty (N.pos x))). simpl. apply nat_unbroken.
  - apply str_unbroken.
  - cbn [dumps_with]. rewrite !all_chars_app, join_unbroken; [done|]. simpl in Hp.
    induction Hl as [|v l Hv _ IH]; [constructor|]. apply andb_true_iff in Hp as [Hpv Hpl]. constructor; auto.
  - change (dumps (VDict d)) with ("{" +:+ join ("," +:+ sp) (map member d) +:+ "}").
    rewrite !all_chars_app, join_unbroken; [done|]. simpl in Hp. apply andb_true_iff in Hp as [_ Hp].
    apply has_char_false in Hsp_unbroken as Hs.
    induction Hd as [|[k v] d Hv _ IH]; [constructor|]. apply andb_true_iff in Hp as [Hpv Hpl]. constructor; [|auto].
    cbn [snd] in Hv. change (member (k, v)) with (dump_str k +:+ (":" +:+ sp) +:+ dumps v).
    rewrite !all_chars_app, str_unbroken, Hs. by rewrite (Hv Hpv).
Qed.
(** A character that is no part of a blank. *)
Definition solid (c : ascii) : bool := between 33 126 c.
Lemma has_char_cons c d s : has_char c (String d s) = Ascii.eqb c d || has_char c s.
Proof. unfold has_char. simpl. by destruct (Ascii.eqb c d). Qed.
Lemma has_char_app c s t : has_char c (s +:+ t) = has_char c s || has_char c t.
Proof. unfold has_char. rewrite all_chars_app. by destruct (all_chars _ s). Qed.
Lemma solid_other c d : solid c = true -> solid d = false -> Ascii.eqb c d = false.
Proof. intros Hc Hd. apply Ascii.eqb_neq. intros ->. congruence. Qed.
Lemma drop_space_solid c s s' : solid c = true -> drop_space s = Some s' -> has_char c s = true -> has_char c s' = true.
Proof.
  intros Hc Hd. assert (Hwide : forall d, N.leb 128 (N_of_ascii d) = true -> Ascii.eqb c d = false).
  { intros d Hn. apply solid_other; [done|]. unfold solid, between. apply N.leb_le in Hn.
    apply andb_false_iff. right. apply N.leb_gt. lia. }
  destruct s as [|a s1]; [done|]. cbn [drop_space] in Hd. rewrite has_char_cons.
  match type of Hd with (if ?b then _ else _) = _ => destruct b eqn:Ha end.
  { injection Hd as <-. rewrite (solid_other c a Hc); [done|]. revert Ha. clear.
    by destruct a as [[] [] [] [] [] [] [] []]. }
  destruct s1 as [|b s2]; [done|]. rewrite has_char_cons.
  match type of Hd with (if ?b then _ else _) = _ => destruct b eqn:Hab end.
  { injection Hd as <-. apply andb_true_iff in Hab as [Ha1%N.eqb_eq Hb]. apply orb_true_iff in Hb.
    rewrite (Hwide a), (Hwide b); [done| |by rewrite Ha1]. by destruct Hb as [->%N.eqb_eq| ->%N.eqb_eq]. }
  destruct s2 as [|e s3]; [done|]. rewrite has_char_cons.
  match type of Hd with (if ?b then _ else _) = _ => destruct b eqn:Habe end; [|done].
  injection Hd as <-. repeat first [rewrite orb_true_iff in Habe|rewrite andb_true_iff in Habe
    |rewrite N.eqb_eq in Habe|rewrite N.leb_le in Habe].
  rewrite (Hwide a), (Hwide b), (Hwide e); [done|apply N.leb_le; lia..].
Qed.
Lemma lstrip_solid c n s : solid c = true -> has_char c s = true -> has_char c (lstrip_fuel n s) = true.
Proof.
  intros Hc. revert s. induction n as [|n IH]; intros s Hs; simpl; [done|].
  destruct (drop_space s) as [s'|] eqn:Hd; [|done]. apply IH. by eapply drop_space_solid.
Qed.
Lemma blank_solid c s : solid c = true -> has_char c s = true -> blank s = false.
Proof.
  intros Hc Hs. unfold blank, lstrip. pose proof (lstrip_solid c (String.length s) s Hc Hs) as Hl.
  by destruct (lstrip_fuel _ _).
Qed.
Lemma rstrip_solid c s t : solid c = true -> blank t = true -> rstrip (s +:+ String c t) = s +:+ String c "".
Proof.
  intros Hc Ht. induction s as [|d s IH].
  - rewrite string_app_nil_l. cbn [rstrip]. rewrite (blank_solid c) by (rewrite ?has_char_cons, ?Ascii.eqb_refl; done).
    f_equal. destruct t; [done|]. cbn [rstrip]. by rewrite Ht.
  - rewrite !string_app_cons. cbn [rstrip].
    rewrite (blank_solid c) by (rewrite ?has_char_cons, ?has_char_app, ?has_char_cons, ?Ascii.eqb_refl, ?orb_true_r; done).
    by rewrite IH.
Qed.
Lemma lstrip_solid_head c s : solid c = true -> lstrip (String c s) = String c s.
Proof.
  intros Hc. unfold lstrip. cbn [String.length lstrip_fuel]. replace (drop_space (String c s)) with (@None string); [done|].
  revert Hc. clear. destruct c as [[] [] [] [] [] [] [] []]; try done; by destruct s as [|? [|? ?]].
Qed.
Lemma last_char f c s : all_chars f (String c s) = true -> exists t d, String c s = t +:+ String d "" /\ f d = true.
Proof.
  revert c. induction s as [|c' s IH]; intros c Hall.
  - exists "", c. simpl in Hall. by rewrite andb_true_r in Hall.
  - apply andb_true_iff in Hall as [_ Hall]. destruct (IH c' Hall) as (t & d & -> & Hd).
    by exists (String c t), d.
Qed.
Lemma nat_ends x : exists t d, pretty (N.pos x) = t +:+ String d "" /\ solid d = true.
Proof.
  destruct (pretty_go (N.pos x)) as (c & ds & Hs & Hc & _ & Hall & _); [lia|].
  destruct (last_char is_digit c ds) as (t & d & Ht & Hd); [simpl; by rewrite Hc|].
  exists t, d. change (pretty (N.pos x)) with (pretty_N_go (N.pos x) ""). rewrite Hs, string_append_nil.
  split; [done|]. revert Hd. clear. by destruct d as [[] [] [] [] [] [] [] []].
Qed.
(** A printed value begins and ends with a solid character. *)
Lemma dumps_ends v : plain v = true -> exists s c, dumps v = s +:+ String c "" /\ solid c = true.
Proof.
  assert (Hlit : forall s c, solid c = true -> exists s' c', s +:+ String c "" = s' +:+ String c' "" /\ solid c' = true)
    by (intros s c Hc; by exists s, c).
  destruct v as [|[]|[|x|x]|f|s|l|d]; intros Hv; try discriminate Hv.
  - by apply (Hlit "nul").
  - by apply (Hlit "tru").
  - by apply (Hlit "fals").
  - by apply (Hlit "").
  - apply nat_ends.
  - destruct (nat_ends x) as (t & d & Ht & Hd). change (dumps (VInt (Z.neg x))) with ("-" +:+ pretty (N.pos x)).
    exists ("-" +:+ t), d. by rewrite Ht, string_app_assoc.
  - by apply (Hlit (String quote (escapes s))).
  - cbn [dumps_with]. rewrite <- string_app_assoc. by apply Hlit.
  - cbn [dumps_with]. rewrite <- string_app_assoc. by apply Hlit.
Qed.
Lemma dumps_begins v : plain v = true -> exists c s, dumps v = String c s /\ solid c = true.
Proof.
  intros Hv. destruct v as [|[]|[|x|x]|f|s|l|d]; try discriminate Hv; try (by eexists _, _).
  destruct (pretty_go (N.pos x)) as (c & ds & Hs & Hc & _); [lia|].
  exists c, ds. change (dumps (VInt (Z.pos x))) with (pretty_N_go (N.pos x) ""). rewrite Hs, string_append_nil.
  split; [done|]. revert Hc. clear. by destruct c as [[] [] [] [] [] [] [] []].
Qed.
Lemma strip_line v t : plain v = true -> blank t = true -> strip (dumps v +:+ t) = dumps v.
Proof.
  intros Hv Ht. unfold strip. destruct (dumps_begins v Hv) as (c & s & Hb & Hc).
  rewrite Hb, string_app_cons, lstrip_solid_head, <- string_app_cons, <- Hb by done.
  destruct (dumps_ends v Hv) as (s' & c' & -> & Hc'). rewrite string_app_assoc, string_app_cons, string_app_nil_l.
  by apply rstrip_solid.
Qed.
End printed.

(** ** Frames *)
Definition WIRE_VERSION : Z := 2.
Definition MAX_LINE_LENGTH : Z := 1048576.
Definition MSG_READY := "ready".
Definition MSG_ACCEPTED := "accepted".
Definition MSG_SESSION := "session".
Definition MSG_RESULT := "result".
Definition MSG_ERROR := "error".
Definition MSG_PONG := "pong".
Definition MSG_CAPABILITIES := "capabilities".
Definition MSG_MAILBOX_RESULT := "mailbox_result".
Definition MSG_STREAM_EVENT := "stream_event".
Definition CMD_RUN := "run".
Definition CMD_PING := "ping".
Definition CMD_CAPABILITIES := "capabilities".
Definition CMD_MAILBOX := "mailbox".
Definition CMD_STREAM := "stream".

Inductive pytype := TInt | TStr | TDict | TList.
(** [isinstance(v, t)]: a bool is an int. *)
Definition isinstance (v : pyval) (t : pytype) : bool :=
  match t, v with
  | TInt, (VInt _ | VBool _) | TStr, VStr _ | TDict, VDict _ | TList, VList _ => true
  | _, _ => false
  end.
Definition type_name (t : pytype) : string :=
  match t with TInt => "int" | TStr => "str" | TDict => "dict" | TList => "list" end.
Definition type_of (v : pyval) : string :=
  match v with VNone => "NoneType" | VBool _ => "bool" | VInt _ => "int" | VFloat _ => "float" | VStr _ => "str"
             | VList _ => "list" | VDict _ => "dict" end.
Definition schema := list (string * pytype).
Definition _RESPONSE_REQUIRED : list (string * schema) := [
  (MSG_ACCEPTED, [("wire_version", TInt)]); (MSG_READY, [("wire_version", TInt)]); (MSG_SESSION, [("id", TStr)]);
  (MSG_RESULT, [("exit_code", TInt); ("stdout", TStr); ("stderr", TStr)]); (MSG_ERROR, [("message", TStr)]);
  (MSG_PONG, [("wire_version", TInt)]); (MSG_CAPABILITIES, []);
  (MSG_MAILBOX_RESULT, [("exit_code", TInt); ("stdout", TStr); ("stderr", TStr)]);
  (MSG_STREAM_EVENT, [("request_id", TStr); ("session_id", TStr); ("cursor", TStr); ("payload", TDict)])].
Definition _REQUEST_REQUIRED : list (string * schema) := [
  (CMD_RUN, [("task", TStr); ("workdir", TStr); ("timeout", TInt)]); (CMD_PING, []); (CMD_CAPABILITIES, []);
  (CMD_MAILBOX, [("args", TList)]); (CMD_STREAM, [("session_id", TStr); ("cursor", TStr)])].

Record WireMessage := { wm_type : string; wm_payload : pydict }.
Definition quoted (s : string) : string := "'" +:+ s +:+ "'".
(** What [what] asks of a dictionary; [lenient] fields may be missing and are
    then zero. *)
Fixpoint check_fields (what missing : string) (lenient : string -> bool) (l : schema) (obj : pydict) : res pydict :=
  match l with
  | [] => Ok obj
  | (field, t) :: l' =>
    match dget obj field with
    | None => if lenient field then check_fields what missing lenient l' (dset obj field (VInt 0))
              else Raise (ValueError (what +:+ " " +:+ missing +:+ " " +:+ quoted field))
    | Some v => if isinstance v t then check_fields what missing lenient l' obj
                else Raise (ValueError (what +:+ " field " +:+ quoted field +:+ " must be " +:+ type_name t
                                        +:+ ", got " +:+ type_of v))
    end
  end.
(** The object that a line holds. *)
Definition read_object (kind line : string) : res pydict :=
  let text := strip line in
  guard negb (String.eqb text "") orelse ValueError "empty wire line";
  guard str_len text <=? MAX_LINE_LENGTH orelse ValueError "wire line exceeds 1048576 bytes";
  match loads text with
  | None => Raise (ValueError "invalid JSON")
  | Some (VDict obj) => Ok obj
  | Some v => Raise (ValueError (kind +:+ " must be a JSON object, got " +:+ type_of v))
  end.
Definition decode_line (strict : bool) (line : string) : res WireMessage :=
  do obj <- read_object "wire message" line;
  match dget obj "type" with
  | Some (VStr t) =>
    guard negb (String.eqb t "") orelse ValueError "wire message 'type' must be a non-empty string";
    let payload := ddel obj "type" in
    match dget _RESPONSE_REQUIRED t with
    | None => Ok {| wm_type := t; wm_payload := payload |}
    | Some l =>
      do p <- check_fields (quoted t +:+ " message") "missing required field"
                (fun field => negb strict && String.eqb t MSG_READY && String.eqb field "wire_version") l payload;
      Ok {| wm_type := t; wm_payload := p |}
    end
  | _ => Raise (ValueError "wire message 'type' must be a non-empty string")
  end.
Definition no_lenience (_ : string) : bool := false.
Definition decode_request (line : string) : res pydict :=
  do obj <- read_object "wire request" line;
  match dget obj "command" with
  | Some (VStr cmd) =>
    guard negb (String.eqb cmd "") orelse ValueError "request 'command' must be a non-empty string";
    match dget _REQUEST_REQUIRED cmd with
    | None => Raise (ValueError ("unknown command: " +:+ cmd))
    | Some l => check_fields ("command " +:+ quoted cmd) "missing required field" no_lenience l obj
    end
  | _ => Raise (ValueError "request 'command' must be a non-empty string")
  end.

Section encode.
Context (float_repr : spec_float -> string).
Definition dumps : pyval -> string := dumps_with float_repr "," ":".
Definition encode_line (obj : pydict) : string := dumps (VDict obj) +:+ NL.
(** The arguments that are given by name may name the version, too. *)
Definition encode_request (command : string) (kwargs : pydict) : res string :=
  guard negb (String.eqb command "") orelse ValueError "command must be a non-empty string";
  match dget _REQUEST_REQUIRED command with
  | None => Raise (ValueError ("unknown command: " +:+ command))
  | Some l =>
    do _ <- check_fields ("command " +:+ quoted command) "requires field" no_lenience l kwargs;
    Ok (dumps (VDict (dict_of ([("wire_version", VInt WIRE_VERSION); ("command", VStr command)] ++ kwargs))) +:+ NL)
  end.
End encode.

(** *** The frames that are built *)
Definition present (k : string) (v : pyval) (b : bool) : pydict := if b then [(k, v)] else [].
Definition given (k v : string) : pydict := present k (VStr v) (negb (String.eqb v "")).
Record run_request := {
  rq_task : string; rq_workdir : string; rq_backend : string; rq_agent : string; rq_model : string;
  rq_skills : string; rq_session_id : string; rq_skip_permissions : bool; rq_timeout : Z;
  rq_session_key : string; rq_request_id : string; rq_run_id : string; rq_review_key : string;
  rq_require_ack : bool; rq_capabilities : list string }.
(** [make_request] of a run; an argument that is None is as good as empty. *)
Definition make_request (version : Z) (r : run_request) : pydict :=
  [("wire_version", VInt version); ("command", VStr CMD_RUN); ("task", VStr (rq_task r)); ("workdir", VStr (rq_workdir r))]
  ++ given "backend" (rq_backend r) ++ given "agent" (rq_agent r) ++ given "model" (rq_model r)
  ++ given "skills" (rq_skills r) ++ given "resume_session_id" (rq_session_id r)
  ++ [("skip_permissions", VBool (rq_skip_permissions r)); ("timeout", VInt (rq_timeout r));
      ("session_key", VStr (rq_session_key r)); ("request_id", VStr (rq_request_id r)); ("run_id", VStr (rq_run_id r));
      ("review_key", VStr (rq_review_key r)); ("require_ack", VBool (rq_require_ack r))]
  ++ present "capabilities" (VList (map VStr (rq_capabilities r))) (negb (bool_decide (rq_capabilities r = []))).
(** [uuid] is the identifier it makes when none is given. *)
Definition make_stream_request (session_id cursor : string) (timeout : Z) (request_id uuid : string) (version : Z)
    (stream_kind runtime_id agent_id : string) : pydict :=
  [("wire_version", VInt version); ("command", VStr CMD_STREAM); ("session_id", VStr session_id);
   ("cursor", VStr cursor); ("timeout", VInt timeout);
   ("request_id", VStr (if String.eqb request_id "" then uuid else request_id)); ("stream_kind", VStr stream_kind)]
  ++ given "runtime_id" runtime_id ++ given "agent_id" agent_id.
Definition make_ping : pydict := [("wire_version", VInt WIRE_VERSION); ("command", VStr CMD_PING)].
Definition make_capabilities_request : pydict :=
  [("wire_version", VInt WIRE_VERSION); ("command", VStr CMD_CAPABILITIES)].
Definition make_mailbox_request (args : list string) (mailbox_root : string) (version : Z) : pydict :=
  [("wire_version", VInt version); ("command", VStr CMD_MAILBOX); ("args", VList (map VStr args))]
  ++ given "mailbox_root" mailbox_root.
Definition make_ready (version : Z) (package_version : string) : pydict :=
  [("type", VStr MSG_READY); ("wire_version", VInt version); ("package_version", VStr package_version)].
Definition make_accepted (version : Z) : pydict := [("type", VStr MSG_ACCEPTED); ("wire_version", VInt version)].
Definition make_session (session_id : string) : pydict := [("type", VStr MSG_SESSION); ("id", VStr session_id)].
Definition make_result (stdout stderr : string) (exit_code : Z) : pydict :=
  [("type", VStr MSG_RESULT); ("stdout", VStr stdout); ("stderr", VStr stderr); ("exit_code", VInt exit_code)].
Definition make_error (message : string) : pydict := [("type", VStr MSG_ERROR); ("message", VStr message)].
Definition make_mailbox_result (stdout stderr : string) (exit_code : Z) : pydict :=
  [("type", VStr MSG_MAILBOX_RESULT); ("stdout", VStr stdout); ("stderr", VStr stderr); ("exit_code", VInt exit_code)].
Definition strs_opt (k : string) (l : option (list string)) : pydict :=
  match l with Some l => [(k, VList (map VStr l))] | None => [] end.
Definition make_pong (version : Z) (hostname : string) (capabilities : option (list string)) : pydict :=
  [("type", VStr MSG_PONG); ("wire_version", VInt version)] ++ given "hostname" hostname
  ++ strs_opt "capabilities" capabilities.
Definition make_capabilities (version : Z) (backends features : option (list string)) : pydict :=
  [("type", VStr MSG_CAPABILITIES); ("wire_version", VInt version)] ++ strs_opt "backends" backends
  ++ strs_opt "features" features.
Definition make_stream_event (request_id session_id cursor : string) (payload : pydict) : pydict :=
  [("type", VStr MSG_STREAM_EVENT); ("request_id", VStr request_id); ("session_id", VStr session_id);
   ("cursor", VStr cursor); ("payload", VDict payload)].

(** ** What is written is read

    The client writes without blanks after commas and colons ([encode_line]),
    the helper with one ([json.dumps] as it is). *)
Definition spaced (float_repr : spec_float -> string) (sp : string) : pyval -> string :=
  dumps_with float_repr ("," +:+ sp) (":" +:+ sp).
Section frames.
Context (float_repr : spec_float -> string) (sp : string).
Context (Hsp : forall t, skip_ws (sp +:+ t) = skip_ws t) (Hsp_unbroken : has_char newline sp = false).
Notation text := (spaced float_repr sp).
Definition line_of (d : pydict) : string := text (VDict d) +:+ NL.
Notation line := line_of.
Definition fits (d : pydict) : Prop := str_len (text (VDict d)) <= MAX_LINE_LENGTH.
Lemma loads_text v : plain v = true -> loads (text v) = Some v.
Proof. by apply loads_back. Qed.
Lemma strip_text v t : plain v = true -> blank t = true -> strip (text v +:+ t) = text v.
Proof. apply strip_line. Qed.
Lemma text_begins v : plain v = true -> exists c s, text v = String c s /\ solid c = true.
Proof. apply dumps_begins. Qed.
Lemma read_text kind d t : plain (VDict d) = true -> fits d -> blank t = true ->
  read_object kind (text (VDict d) +:+ t) = Ok d.
Proof.
  intros Hp Hf Ht. unfold read_object. rewrite strip_text by done.
  destruct (text_begins (VDict d) Hp) as (c & s & Hd & _). unfold fits in Hf.
  rewrite Hd. change (String.eqb (String c s) "") with false. simpl negb. cbv iota.
  rewrite <- Hd, (proj2 (Z.leb_le _ _) Hf), loads_text by done. done.
Qed.
Definition has_fields (l : schema) (d : pydict) : bool :=
  forallb (fun x => match dget d (fst x) with Some v => isinstance v (snd x) | None => false end) l.
Lemma check_has what missing lenient l d : has_fields l d = true -> check_fields what missing lenient l d = Ok d.
Proof.
  induction l as [|[k t] l IH]; simpl; [done|]. intros [Hk Hl]%andb_true_iff.
  destruct (dget d k) as [v|]; [|done]. rewrite Hk. by apply IH.
Qed.
(** A frame of kind [t] with what its kind must have. *)
Definition frame_of_kind (t : string) (d : pydict) : Prop :=
  plain (VDict d) = true /\ dget d "type" = Some (VStr t) /\ t <> "" /\
  has_fields (default [] (dget _RESPONSE_REQUIRED t)) (ddel d "type") = true.
Lemma decode_text strict t d b : frame_of_kind t d -> fits d -> blank b = true ->
  decode_line strict (text (VDict d) +:+ b) = Ok {| wm_type := t; wm_payload := ddel d "type" |}.
Proof.
  intros (Hp & Ht & Hne & Hl) Hf Hb. unfold decode_line. rewrite read_text by done. cbn [res_bind]. rewrite Ht.
  apply String.eqb_neq in Hne. rewrite Hne. cbn [negb]. destruct (dget _RESPONSE_REQUIRED t) as [l|]; [|done].
  by rewrite check_has.
Qed.
(** The lines of a stream of bytes. *)
Definition byte_lines (s : string) : list string :=
  match rev (split_all newline s) with "" :: r => rev r | _ => split_all newline s end.
Lemma split_line s t : has_char newline s = false -> split_all newline (s +:+ NL +:+ t) = s :: split_all newline t.
Proof.
  intros Hs%has_char_false. induction s as [|c s IH]; [done|]. rewrite string_app_cons. cbn [all_chars] in Hs.
  apply andb_true_iff in Hs as [Hc Hs]. cbn [split_all]. apply negb_true_iff in Hc. rewrite Hc, IH by done. done.
Qed.
Lemma byte_lines_frames ds : Forall (fun d => plain (VDict d) = true) ds ->
  byte_lines (join "" (map line ds)) = map (fun d => text (VDict d)) ds.
Proof.
  intros Hds. assert (Hj : split_all newline (join "" (map line ds)) = map (fun d => text (VDict d)) ds ++ [""]).
  { induction Hds as [|d ds Hd _ IH]; [done|].
    assert (Hc : join "" (map line (d :: ds)) = text (VDict d) +:+ NL +:+ join "" (map line ds)).
    { unfold line_of. destruct ds; cbn [map join]; rewrite ?string_app_assoc, ?string_app_nil_l; [|done].
      by rewrite string_append_nil. }
    rewrite Hc, split_line; [by rewrite IH|]. apply has_char_false. by apply dumps_unbroken. }
  unfold byte_lines. rewrite Hj, rev_unit. by rewrite rev_involutive.
Qed.

(** The responses of the helper, as the factories build them. *)
Inductive response :=
  | Ready (version : Z) (package : string) | Accepted (version : Z) | Session (id : string)
  | Result (stdout stderr : string) (exit_code : Z) | Error (message : string)
  | MailboxResult (stdout stderr : string) (exit_code : Z)
  | Pong (version : Z) (hostname : string) (caps : option (list string))
  | Capabilities (version : Z) (backends features : option (list string))
  | StreamEvent (request_id session_id cursor : string) (payload : pydict).
Definition frame_of (r : response) : pydict :=
  match r with
  | Ready v p => make_ready v p | Accepted v => make_accepted v | Session i => make_session i
  | Result o e c => make_result o e c | Error m => make_error m | MailboxResult o e c => make_mailbox_result o e c
  | Pong v h c => make_pong v h c | Capabilities v b f => make_capabilities v b f
  | StreamEvent r s c p => make_stream_event r s c p
  end.
Definition kind_of (r : response) : string :=
  match r with
  | Ready _ _ => MSG_READY | Accepted _ => MSG_ACCEPTED | Session _ => MSG_SESSION | Result _ _ _ => MSG_RESULT
  | Error _ => MSG_ERROR | MailboxResult _ _ _ => MSG_MAILBOX_RESULT | Pong _ _ _ => MSG_PONG
  | Capabilities _ _ _ => MSG_CAPABILITIES | StreamEvent _ _ _ _ => MSG_STREAM_EVENT
  end.
Definition payload_ok (r : response) : Prop :=
  match r with StreamEvent _ _ _ p => plain (VDict p) = true | _ => True end.
Lemma plain_strs l : forallb plain (map VStr l) = true.
Proof. by induction l. Qed.
Lemma response_frame r : payload_ok r -> frame_of_kind (kind_of r) (frame_of r).
Proof.
  intros Hr. unfold frame_of_kind. destruct r as [v p|v|i|o e c|m|o e c|v h c|v b f|r s c p]; simpl in Hr; try done.
  - unfold frame_of, make_pong, given, present, strs_opt. destruct (negb _), c as [c|]; simpl; by rewrite ?plain_strs.
  - unfold frame_of, make_capabilities, strs_opt. destruct b, f; simpl; by rewrite ?plain_strs.
  - split_and!; [|done..]. simpl. simpl in Hr. by rewrite Hr.
Qed.
(** Whatever responses the helper writes, in whatever number, the reader of
    the stream finds as many lines and in each the message that was meant, its
    kind and all its fields, in order; no text in a field can break a line or be
    taken for another frame. *)
Theorem responses_read_back strict rs :
  Forall payload_ok rs -> Forall (fun r => fits (frame_of r)) rs ->
  map (decode_line strict) (byte_lines (join "" (map (fun r => line (frame_of r)) rs)))
  = map (fun r => Ok {| wm_type := kind_of r; wm_payload := ddel (frame_of r) "type" |}) rs.
Proof.
  intros Hok Hfit. rewrite <- (map_map frame_of line), byte_lines_frames, !map_map.
  - apply map_ext_in. intros r Hr%list_elem_of_In. rewrite Forall_forall in Hok, Hfit.
    rewrite <- (string_append_nil (text _)). apply decode_text; [apply response_frame| |]; auto.
  - apply Forall_map. eapply Forall_impl; [exact Hok|]. intros r Hr. by destruct (response_frame r Hr).
Qed.

(** The requests of the client. *)
Inductive wire_request :=
  | Run (version : Z) (r : run_request)
  | Stream (session_id cursor : string) (timeout : Z) (request_id uuid : string) (version : Z)
           (stream_kind runtime_id agent_id : string)
  | Ping | AskCapabilities | Mailbox (args : list string) (mailbox_root : string) (version : Z).
Definition request_of (q : wire_request) : pydict :=
  match q with
  | Run v r => make_request v r | Stream s c t r u v k i a => make_stream_request s c t r u v k i a
  | Ping => make_ping | AskCapabilities => make_capabilities_request | Mailbox a r v => make_mailbox_request a r v
  end.
Definition command_of (q : wire_request) : string :=
  match q with
  | Run _ _ => CMD_RUN | Stream _ _ _ _ _ _ _ _ _ => CMD_STREAM | Ping => CMD_PING
  | AskCapabilities => CMD_CAPABILITIES | Mailbox _ _ _ => CMD_MAILBOX
  end.
Lemma request_frame q : plain (VDict (request_of q)) = true /\
  dget (request_of q) "command" = Some (VStr (command_of q)) /\
  exists l, dget _REQUEST_REQUIRED (command_of q) = Some l /\ has_fields l (request_of q) = true.
Proof.
  destruct q as [v r|s c t r u v k i a| | |a r v]; simpl request_of; simpl command_of;
    unfold make_request, make_stream_request, make_mailbox_request, given, present.
  - repeat destruct (negb _); simpl; rewrite ?plain_strs; (split; [done|split; [done|by eexists]]).
  - repeat destruct (negb _); (split; [done|split; [done|by eexists]]).
  - split; [done|split; [done|by eexists]].
  - split; [done|split; [done|by eexists]].
  - destruct (negb _); simpl; rewrite plain_strs; (split; [done|split; [done|by eexists]]).
Qed.
Lemma request_back q :
  (fits (request_of q) -> decode_request (line (request_of q)) = Ok (request_of q)) /\
  (~ fits (request_of q) ->
   decode_request (line (request_of q)) = Raise (ValueError "wire line exceeds 1048576 bytes")).
Proof.
  destruct (request_frame q) as (Hp & Hc & l & Hl & Hf). split; intros Hfit.
  - unfold decode_request, line_of. rewrite read_text by done. cbn [res_bind]. rewrite Hc, Hl.
    replace (String.eqb (command_of q) "") with false by (by destruct q). cbn [negb]. by apply check_has.
  - unfold decode_request, read_object, line_of. rewrite strip_text by done.
    destruct (text_begins (VDict (request_of q)) Hp) as (c & s & Hd & _).
    unfold fits in Hfit. rewrite (proj2 (Z.leb_gt _ _)) by lia. by rewrite Hd.
Qed.
End frames.
Lemma compact_sep t : skip_ws ("" +:+ t) = skip_ws t.
Proof. done. Qed.
Lemma blank_sep t : skip_ws (" " +:+ t) = skip_ws t.
Proof. done. Qed.

(** A request that the client builds is accepted by the helper, and is the
    request that was meant, whatever its texts hold; one that is longer than
    the limit is refused, not cut. *)
Theorem requests_read_back float_repr q :
  (fits float_repr "" (request_of q) -> decode_request (encode_line float_repr (request_of q)) = Ok (request_of q)) /\
  (~ fits float_repr "" (request_of q) ->
   decode_request (encode_line float_repr (request_of q)) = Raise (ValueError "wire line exceeds 1048576 bytes")).
Proof. apply (request_back float_repr "" compact_sep). Qed.

(** ** The composite cursor of a stream *)
Definition b64_char (n : Z) : ascii := ascii_of_N (Z.to_N
  (if n <? 26 then 65 + n else if n <? 52 then 71 + n else if n <? 62 then n - 4 else if n =? 62 then 45 else 95)).
(** [urlsafe_b64decode] takes both alphabets. *)
Definition b64_val (c : ascii) : option Z :=
  let n := Z.of_N (N_of_ascii c) in
  if is_upper c then Some (n - 65) else if is_lower c then Some (n - 71) else if is_digit c then Some (n + 4)
  else if (n =? 45) || (n =? 43) then Some 62 else if (n =? 95) || (n =? 47) then Some 63 else None.
Definition byte_z (c : ascii) : Z := Z.of_N (N_of_ascii c).
Definition z_byte (n : Z) : ascii := ascii_of_N (Z.to_N n).
Fixpoint b64encode (s : string) : string :=
  match s with
  | "" => ""
  | String a "" => String (b64_char (byte_z a / 4)) (String (b64_char (byte_z a mod 4 * 16)) "==")
  | String a (String b "") =>
    String (b64_char (byte_z a / 4)) (String (b64_char (byte_z a mod 4 * 16 + byte_z b / 16))
      (String (b64_char (byte_z b mod 16 * 4)) "="))
  | String a (String b (String c s')) =>
    String (b64_char (byte_z a / 4)) (String (b64_char (byte_z a mod 4 * 16 + byte_z b / 16))
      (String (b64_char (byte_z b mod 16 * 4 + byte_z c / 64)) (String (b64_char (byte_z c mod 64)) (b64encode s'))))
  end.
(** [binascii.a2b_base64], not strict: characters outside the alphabet are
    passed over, and enough padding ends the text.  [pos] is the place in a
    group of four, [left] the bits not yet used. *)
Fixpoint a2b (pos pads : nat) (left : Z) (s : string) : option string :=
  match s with
  | "" => if Nat.eqb pos 0 then Some "" else None
  | String c s' =>
    if char_is 61 c then
      if Nat.leb 2 pos then if Nat.leb 4 (pos + S pads) then Some "" else a2b pos (S pads) left s'
      else a2b pos pads left s'
    else match b64_val c with
         | None => a2b pos pads left s'
         | Some v =>
           match pos with
           | O => a2b 1 0 v s'
           | 1%nat => String (z_byte (left * 4 + v / 16)) <$> a2b 2 0 (v mod 16) s'
           | 2%nat => String (z_byte (left * 16 + v / 4)) <$> a2b 3 0 (v mod 4) s'
           | _ => String (z_byte (left * 64 + v)) <$> a2b 0 0 0 s'
           end
         end
  end.
(** [bytes.decode("utf-8")] goes through: no overlong form, no surrogate,
    nothing beyond U+10FFFF. *)
Fixpoint utf8_valid (s : string) : bool :=
  match s with
  | "" => true
  | String a s1 =>
    if between 0 127 a then utf8_valid s1
    else if between 194 223 a then match s1 with String b s2 => is_cont b && utf8_valid s2 | _ => false end
    else if between 224 239 a then
      match s1 with
      | String b (String c s3) =>
        is_cont b && is_cont c && negb (char_is 224 a && between 128 159 b) && negb (char_is 237 a && between 160 191 b)
        && utf8_valid s3
      | _ => false end
    else if between 240 244 a then
      match s1 with
      | String b (String c (String d s4)) =>
        is_cont b && is_cont c && is_cont d && negb (char_is 240 a && between 128 143 b)
        && negb (char_is 244 a && between 144 191 b) && utf8_valid s4
      | _ => false end
    else false
  end.
Fixpoint equals (n : nat) : string := match n with O => "" | S n => String (ascii_of_N 61) (equals n) end.
(** [int(s)] of an ASCII text: blanks around, a sign, digits that single
    underscores may divide. *)
Fixpoint int_digits (acc : Z) (after_digit : bool) (s : string) : option Z :=
  match s with
  | "" => if after_digit then Some acc else None
  | String c s' => if is_digit c then int_digits (acc * 10 + (byte_z c - 48)) true s'
                   else if char_is 95 c && after_digit then int_digits acc false s' else None
  end.
Definition int_of_str (s : string) : option Z :=
  match strip s with
  | String c s' as t => if char_is 45 c then Z.opp <$> int_digits 0 false s'
                        else if char_is 43 c then int_digits 0 false s' else int_digits 0 false t
  | "" => None
  end.
Lemma int_digits_all acc b ds : all_chars is_digit ds = true -> (b = true \/ ds <> "") ->
  int_digits acc b ds = Some (decimal acc ds).
Proof.
  revert acc b. induction ds as [|c ds IH]; intros acc b Hds Hb; simpl; [by destruct Hb as [->|]|].
  simpl in Hds. apply andb_true_iff in Hds as [Hc Hds]. rewrite Hc, IH; [|done|by left]. do 2 f_equal.
  unfold byte_z. apply andb_true_iff in Hc as [Hc%N.leb_le _]. lia.
Qed.
Lemma digit_solid c : is_digit c = true -> solid c = true /\ char_is 45 c = false /\ char_is 43 c = false.
Proof. by destruct c as [[] [] [] [] [] [] [] []]. Qed.
Lemma int_of_decimals ds : ds <> "" -> all_chars is_digit ds = true -> int_of_str ds = Some (decimal 0 ds).
Proof.
  intros Hne Hds. destruct ds as [|c s]; [done|]. destruct (last_char is_digit c s Hds) as (t & d & Hl & Hd).
  assert (Hst : strip (String c s) = String c s).
  { unfold strip. simpl in Hds. apply andb_true_iff in Hds as [Hc _].
    rewrite lstrip_solid_head by (by apply digit_solid). rewrite Hl. apply rstrip_solid; [by apply digit_solid|done]. }
  unfold int_of_str. rewrite Hst. simpl in Hds. pose proof Hds as Hds'. apply andb_true_iff in Hds as [Hc _].
  destruct (digit_solid c Hc) as (_ & -> & ->). apply int_digits_all; [done|by right].
Qed.
Lemma pretty_digits z : 0 <= z -> pretty z <> "" /\ all_chars is_digit (pretty z) = true /\ decimal 0 (pretty z) = z.
Proof.
  destruct z as [|x|x]; intros Hz; [by vm_compute| |lia]. destruct (pretty_go (N.pos x)) as (c & ds & Hs & Hc & _ & Hds & Hv); [lia|].
  change (pretty (Z.pos x)) with (pretty_N_go (N.pos x) ""). rewrite Hs, string_append_nil, Hv. split_and!; [done| |done].
  simpl. by rewrite Hc.
Qed.
Lemma fixed_digits w z : all_chars is_digit (digits w z) = true /\ forall acc, decimal acc (digits w z) = acc * 10 ^ Z.of_nat w + z mod 10 ^ Z.of_nat w.
Proof.
  induction w as [|w [IH1 IH2]]; [split; [done|intros acc; simpl; rewrite Z.mod_1_r; lia]|].
  pose proof (Z.mod_pos_bound (z / 10 ^ Z.of_nat w) 10). split.
  - simpl. rewrite IH1, andb_true_r. unfold is_digit, between. rewrite Ascii.N_ascii_embedding by lia.
    apply andb_true_iff. rewrite !N.leb_le. lia.
  - intros acc. rewrite mod_pow_S. cbn [digits decimal]. rewrite IH2, Ascii.N_ascii_embedding by lia.
    rewrite Nat2Z.inj_succ, Z.pow_succ_r by lia.
    replace (Z.of_N (48 + Z.to_N (z / 10 ^ Z.of_nat w mod 10) - 48)) with (z / 10 ^ Z.of_nat w mod 10) by lia. ring.
Qed.
Lemma pad0_decimal w z : (0 < w)%nat -> 0 <= z ->
  pad0 w z <> "" /\ all_chars is_digit (pad0 w z) = true /\ decimal 0 (pad0 w z) = z.
Proof.
  intros Hw Hz. unfold pad0. destruct (_ && _) eqn:Hb; [|by apply pretty_digits].
  apply andb_true_iff in Hb as [_ Hb%Z.ltb_lt]. destruct (fixed_digits w z) as [Hd Hv].
  split_and!; [by destruct w; [lia|]|done|]. rewrite Hv, Z.mod_small; lia.
Qed.
Definition float_trunc (f : spec_float) : option Z :=
  match f with
  | S754_zero _ => Some 0
  | S754_finite s m e => let a := if 0 <=? e then Z.pos m * 2 ^ e else Z.pos m / 2 ^ (- e) in Some (if s then - a else a)
  | _ => None
  end.
(** [int(v)]; [None] is an exception. *)
Definition py_int (v : pyval) : option Z :=
  match v with
  | VInt z => Some z | VBool b => Some (if b then 1 else 0) | VFloat f => float_trunc f | VStr s => int_of_str s
  | _ => None
  end.
Definition COMPOSITE_CURSOR_VERSION : Z := 2.
Definition is_version (v : pyval) : bool :=
  match v with
  | VInt z => z =? COMPOSITE_CURSOR_VERSION
  | VFloat f => SFeqb f (binary_normalize 53 1024 2 0 false)
  | _ => false
  end.
Section cursor.
Context (float_repr : spec_float -> string) (py_str : pyval -> string).
Definition make_composite_cursor (mailbox_cursor : string) (runtime_event_id : Z) : string :=
  b64encode (dumps float_repr (VDict [("v", VInt COMPOSITE_CURSOR_VERSION);
    ("mailbox", VStr (if String.eqb mailbox_cursor "" then "0" else mailbox_cursor)); ("runtime", VInt runtime_event_id)])).
(** The two cursors, when the text is a composite one. *)
Definition composite (cursor : string) : option (string * Z) :=
  if negb (all_chars (between 0 127) cursor) then None else
  let pad := ((4 - String.length cursor mod 4) mod 4)%nat in
  match a2b 0 0 0 (cursor +:+ equals pad) with
  | None => None
  | Some raw =>
    if negb (utf8_valid raw) then None else
    match loads raw with
    | Some (VDict obj) =>
      if is_version (dgetd obj "v" VNone) then
        match py_int (dgetd obj "runtime" (VInt 0)) with
        | Some rt => Some (match dgetd obj "mailbox" (VStr "0") with VStr s => s | v => py_str v end, rt)
        | None => None
        end
      else None
    | _ => None
    end
  end.
Definition split_composite_cursor (cursor : string) : string * Z :=
  if String.eqb cursor "" then ("0", 0) else default (cursor, 0) (composite cursor).
End cursor.

(** *** Cursors come back *)
Lemma b64_ok n : 0 <= n < 64 -> b64_val (b64_char n) = Some n /\ char_is 61 (b64_char n) = false /\
  between 0 127 (b64_char n) = true.
Proof.
  intros Hn. assert (H : forallb (fun n => bool_decide (b64_val (b64_char n) = Some n /\ char_is 61 (b64_char n) = false /\
    between 0 127 (b64_char n) = true)) (seqZ 0 64) = true) by (by vm_compute).
  rewrite forallb_forall in H. specialize (H n). rewrite bool_decide_eq_true in H. apply H.
  apply list_elem_of_In, elem_of_seqZ. lia.
Qed.
Lemma byte_range c : 0 <= byte_z c < 256.
Proof. unfold byte_z. pose proof (Ascii.N_ascii_bounded c). lia. Qed.
Lemma z_byte_z c n : n = byte_z c -> z_byte n = c.
Proof. intros ->. unfold z_byte, byte_z. by rewrite N2Z.id, Ascii.ascii_N_embedding. Qed.
Lemma a2b_char pos pads left n s : 0 <= n < 64 -> a2b pos pads left (String (b64_char n) s) =
  match pos with
  | O => a2b 1 0 n s
  | 1%nat => String (z_byte (left * 4 + n / 16)) <$> a2b 2 0 (n mod 16) s
  | 2%nat => String (z_byte (left * 16 + n / 4)) <$> a2b 3 0 (n mod 4) s
  | _ => String (z_byte (left * 64 + n)) <$> a2b 0 0 0 s
  end.
Proof. intros Hn. destruct (b64_ok n Hn) as (Hv & Hp & _). cbn [a2b]. by rewrite Hp, Hv. Qed.
Lemma three_step (P : string -> Prop) :
  P "" -> (forall a, P (String a "")) -> (forall a b, P (String a (String b ""))) ->
  (forall a b c s, P s -> P (String a (String b (String c s)))) -> forall s, P s.
Proof.
  intros H0 H1 H2 H3. fix go 1. intros [|a [|b [|c s]]]; [exact H0|apply H1|apply H2|apply H3, go].
Qed.
Lemma a2b_b64 s : a2b 0 0 0 (b64encode s) = Some s.
Proof.
  induction s as [|a|a b|a b c s IH] using three_step; [done|..]; cbn [b64encode].
  - pose proof (byte_range a). rewrite !a2b_char by lia.
    change (a2b 2 0 ?l "==") with (Some ""). simpl. rewrite (z_byte_z a) by lia. done.
  - pose proof (byte_range a). pose proof (byte_range b). rewrite !a2b_char by lia.
    change (a2b 3 0 ?l "=") with (Some ""). simpl. rewrite (z_byte_z a), (z_byte_z b) by lia. done.
  - pose proof (byte_range a). pose proof (byte_range b). pose proof (byte_range c).
    rewrite !a2b_char by lia. rewrite IH. simpl. rewrite (z_byte_z a), (z_byte_z b), (z_byte_z c) by lia. done.
Qed.
Lemma b64_length s : exists k, String.length (b64encode s) = (k * 4)%nat.
Proof.
  induction s as [|a|a b|a b c s [k IH]] using three_step; cbn [b64encode String.length];
    [by exists 0%nat|by exists 1%nat|by exists 1%nat|]. exists (S k). rewrite IH. lia.
Qed.
Lemma b64_ascii s : all_chars (between 0 127) (b64encode s) = true.
Proof.
  induction s as [|a|a b|a b c s IH] using three_step; [done|..]; cbn [b64encode all_chars];
    pose proof (byte_range a); try pose proof (byte_range b); try pose proof (byte_range c);
    repeat match goal with |- context [between 0 127 (b64_char ?n)] =>
      rewrite (proj2 (proj2 (b64_ok n ltac:(lia)))) end; simpl; done.
Qed.
(** Printing keeps a text well-formed. *)
Lemma utf8_step a s1 : utf8_valid (String a s1) =
  if between 0 127 a then utf8_valid s1
  else if between 194 223 a then match s1 with String b s2 => is_cont b && utf8_valid s2 | _ => false end
  else if between 224 239 a then
    match s1 with
    | String b (String c s3) =>
      is_cont b && is_cont c && negb (char_is 224 a && between 128 159 b) && negb (char_is 237 a && between 160 191 b)
      && utf8_valid s3
    | _ => false end
  else if between 240 244 a then
    match s1 with
    | String b (String c (String d s4)) =>
      is_cont b && is_cont c && is_cont d && negb (char_is 240 a && between 128 143 b)
      && negb (char_is 244 a && between 144 191 b) && utf8_valid s4
    | _ => false end
  else false.
Proof. done. Qed.
Lemma utf8_ascii_app s t : all_chars (between 0 127) s = true -> utf8_valid (s +:+ t) = utf8_valid t.
Proof.
  induction s as [|c s IH]; [done|]. rewrite string_app_cons. cbn [all_chars]. intros [Hc Hs]%andb_true_iff.
  rewrite utf8_step. rewrite Hc. by apply IH.
Qed.
Lemma escape_wide c : between 0 127 c = false -> escape c = String c "".
Proof. destruct c as [[] [] [] [] [] [] [] []]; by intros Hc. Qed.
Lemma escape_ascii c : between 0 127 c = true -> all_chars (between 0 127) (escape c) = true.
Proof. destruct c as [[] [] [] [] [] [] [] []]; by intros Hc. Qed.
Lemma cont_wide c : is_cont c = true -> between 0 127 c = false.
Proof. destruct c as [[] [] [] [] [] [] [] []]; by intros Hc. Qed.
Lemma utf8_escapes n s t : (String.length s <= n)%nat -> utf8_valid s = true ->
  utf8_valid (escapes s +:+ t) = utf8_valid t.
Proof.
  revert s. induction n as [|n IH]; intros [|a s1] Hn Hs; try done; [simpl in Hn; lia|].
  cbn [escapes]. rewrite string_app_assoc. cbn [String.length] in Hn.
  assert (Hascii : between 0 127 a = true -> utf8_valid (escape a +:+ escapes s1 +:+ t) = utf8_valid t).
  { intros Ha. rewrite utf8_ascii_app by (by apply escape_ascii). apply IH; [lia|]. rewrite utf8_step in Hs. by rewrite Ha in Hs. }
  destruct (between 0 127 a) eqn:Ha; [by apply Hascii|]. clear Hascii. rewrite (escape_wide a Ha). rewrite utf8_step in Hs.
  rewrite Ha in Hs. rewrite string_app_cons, string_app_nil_l.
  destruct (between 194 223 a) eqn:H2; [|destruct (between 224 239 a) eqn:H3; [|destruct (between 240 244 a) eqn:H4; [|done]]].
  - destruct s1 as [|b s2]; [done|]. apply andb_true_iff in Hs as [Hb Hs].
    cbn [escapes]. rewrite (escape_wide b) by (by apply cont_wide). rewrite !string_app_cons, string_app_nil_l.
    rewrite utf8_step. rewrite Ha, H2, Hb. simpl. apply IH; [cbn [String.length] in Hn; lia|done].
  - destruct s1 as [|b [|c s3]]; try done.
    apply andb_true_iff in Hs as [[[[Hb Hc]%andb_true_iff Hn1]%andb_true_iff Hn2]%andb_true_iff Hs].
    cbn [escapes]. rewrite (escape_wide b), (escape_wide c) by (by apply cont_wide).
    rewrite !string_app_cons, !string_app_nil_l, !string_app_cons, ?string_app_nil_l, utf8_step. rewrite Ha, H2, H3, Hb, Hc, Hn1, Hn2.
    apply IH; [cbn [String.length] in Hn; lia|done].
  - destruct s1 as [|b [|c [|d s4]]]; try done.
    apply andb_true_iff in Hs as [[[[[Hb Hc]%andb_true_iff Hd]%andb_true_iff Hn1]%andb_true_iff Hn2]%andb_true_iff Hs].
    cbn [escapes]. rewrite (escape_wide b), (escape_wide c), (escape_wide d) by (by apply cont_wide).
    repeat first [rewrite string_app_cons|rewrite string_app_nil_l]. rewrite utf8_step, Ha, H2, H3, H4, Hb, Hc, Hd, Hn1, Hn2.
    apply IH; [cbn [String.length] in Hn; lia|done].
Qed.
Lemma pretty_ascii (z : Z) : all_chars (between 0 127) (pretty z) = true.
Proof.
  assert (Hd : forall s, all_chars is_digit s = true -> all_chars (between 0 127) s = true).
  { intros s. apply all_chars_impl. by intros [[] [] [] [] [] [] [] []]. }
  assert (Hpos : forall x, all_chars (between 0 127) (pretty (N.pos x)) = true).
  { intros x. destruct (pretty_go (N.pos x)) as (c & ds & Hs & Hc & _ & Hall & _); [lia|].
    change (pretty (N.pos x)) with (pretty_N_go (N.pos x) ""). rewrite Hs, string_append_nil.
    apply Hd. simpl. by rewrite Hc. }
  destruct z as [|x|x]; [done|apply Hpos|]. change (pretty (Z.neg x)) with (String "-" (pretty (N.pos x))).
  cbn [all_chars]. by rewrite Hpos.
Qed.
Lemma composite_back float_repr py_str m rt : utf8_valid m = true ->
  split_composite_cursor py_str (make_composite_cursor float_repr m rt) = (if String.eqb m "" then "0" else m, rt).
Proof.
  intros Hm. unfold split_composite_cursor, make_composite_cursor. set (m' := if String.eqb m "" then "0" else m).
  set (d := [("v", _); _; _]). assert (Hm' : utf8_valid m' = true) by (unfold m'; by case_match).
  assert (Hd : plain (VDict d) = true) by (by vm_compute).
  change (dumps float_repr) with (spaced float_repr "").
  destruct (text_begins float_repr "" (VDict d) Hd) as (c & s & Hc & _).
  assert (He : String.eqb (b64encode (spaced float_repr "" (VDict d))) "" = false).
  { rewrite Hc. by destruct s as [|? [|? ?]]. }
  rewrite He. unfold composite. rewrite b64_ascii. cbn [negb].
  destruct (b64_length (spaced float_repr "" (VDict d))) as [k Hk]. rewrite Hk, Nat.Div0.mod_mul.
  change (equals _) with "". rewrite string_append_nil, a2b_b64.
  assert (Hu : utf8_valid (spaced float_repr "" (VDict d)) = true).
  { assert (Ht : spaced float_repr "" (VDict d) = ("{" +:+ dump_str "v" +:+ ":2," +:+ dump_str "mailbox" +:+ ":" +:+ String quote "")
      +:+ escapes m' +:+ (String quote "" +:+ "," +:+ dump_str "runtime" +:+ ":" +:+ pretty rt +:+ "}")).
    { unfold spaced. cbn [dumps_with map join d fst snd]. unfold dump_str.
      rewrite ?string_app_assoc, ?string_app_cons, ?string_app_assoc, ?string_app_nil_l. done. }
    rewrite Ht, utf8_ascii_app, (utf8_escapes (String.length m') m'); [|lia|done|by vm_compute].
    rewrite <- (string_append_nil (String quote "" +:+ _)), utf8_ascii_app; [done|].
    rewrite !all_chars_app, pretty_ascii. by vm_compute. }
  rewrite Hu, loads_text by done. reflexivity.
Qed.
(** A composite cursor gives back the two positions that it was made of,
    whatever the mailbox cursor is; a missing one is the start. *)
Theorem cursor_roundtrip float_repr py_str m rt : utf8_valid m = true ->
  split_composite_cursor py_str (make_composite_cursor float_repr m rt) = (if String.eqb m "" then "0" else m, rt).
Proof. intros Hm. by rewrite composite_back. Qed.
Lemma loads_wide x r : 208 <= byte_z x -> loads (String x r) = None.
Proof. destruct x as [[] [] [] [] [] [] [] []]; intros Hx; try (by (vm_compute in Hx; destruct Hx)); reflexivity. Qed.
Definition numeric (c : ascii) : bool := is_digit c || char_is 47 c.
Lemma numeric_val c : numeric c = true -> exists v, b64_val c = Some v /\ 52 <= v < 64 /\ char_is 61 c = false /\
  between 0 127 c = true.
Proof.
  intros Hc. assert (Hb : match b64_val c with Some v => bool_decide (52 <= v < 64) && negb (char_is 61 c) && between 0 127 c
    | None => false end = true).
  { revert Hc. by destruct c as [[] [] [] [] [] [] [] []]. }
  destruct (b64_val c) as [v|]; [|done]. exists v. apply andb_true_iff in Hb as [[Hv%bool_decide_eq_true Hp]%andb_true_iff Ha].
  apply negb_true_iff in Hp. destruct Hv. by split_and!.
Qed.
Lemma numeric_wide a b s raw : numeric a = true -> numeric b = true -> a2b 0 0 0 (String a (String b s)) = Some raw ->
  exists x r, raw = String x r /\ 208 <= byte_z x.
Proof.
  intros Ha Hb Hraw. destruct (numeric_val a Ha) as (va & Hva & Hra & Hpa & _), (numeric_val b Hb) as (vb & Hvb & Hrb & Hpb & _).
  cbn [a2b] in Hraw. rewrite Hpa, Hva, Hpb, Hvb in Hraw. destruct (a2b 2 0 _ s) as [r|]; [|done].
  injection Hraw as <-. eexists _, _. split; [done|]. unfold byte_z, z_byte.
  rewrite Ascii.N_ascii_embedding; lia.
Qed.
(** Texts of digits, alone or around a slash, are no composite cursors. *)
Lemma plain_kept py_str ds ss : ds <> "" -> all_chars is_digit ds = true -> all_chars is_digit ss = true ->
  split_composite_cursor py_str ds = (ds, 0) /\
  split_composite_cursor py_str (ds +:+ "/" +:+ ss) = (ds +:+ "/" +:+ ss, 0).
Proof.
  assert (Hwide : forall a b s, numeric a = true -> numeric b = true ->
    split_composite_cursor py_str (String a (String b s)) = (String a (String b s), 0)).
  { intros a b s Ha Hb. unfold split_composite_cursor. cbn [String.eqb]. unfold composite. case_match; [done|].
    rewrite !string_app_cons. set (t := s +:+ _). destruct (a2b 0 0 0 _) as [raw|] eqn:Hraw; [|done].
    destruct (numeric_wide a b t raw Ha Hb Hraw) as (x & r & -> & Hx). rewrite loads_wide by done. by case_match. }
  intros Hne Hds Hss. destruct ds as [|a ds]; [done|]. cbn [all_chars] in Hds. apply andb_true_iff in Hds as [Ha Hds].
  assert (Hn : forall c, is_digit c = true -> numeric c = true) by (intros c Hc; unfold numeric; by rewrite Hc).
  destruct ds as [|b ds].
  - split; [|by apply (Hwide a "/"%char ss); [apply Hn|]].
    revert Ha. by destruct a as [[] [] [] [] [] [] [] []].
  - cbn [all_chars] in Hds. apply andb_true_iff in Hds as [Hb _].
    rewrite !string_app_cons. split; apply Hwide; auto.
Qed.

(** A plain mailbox cursor, such as a peer of the first version sends, is
    never taken for a composite one: it is kept whole and the events start at
    the beginning. *)
Theorem plain_cursor py_str ds ss : ds <> "" -> all_chars is_digit ds = true -> all_chars is_digit ss = true ->
  split_composite_cursor py_str ds = (ds, 0) /\
  split_composite_cursor py_str (ds +:+ "/" +:+ ss) = (ds +:+ "/" +:+ ss, 0).
Proof. intros Hne Hds Hss. split; by apply (plain_kept py_str ds ss). Qed.

(** ** Witnesses *)
Definition demo_responses : list response := [
  Ready 2 "0.2.10"; Accepted 2; Session "ses"; StreamEvent "q" "s" "0" [("msg_id", VStr "m1"); ("n", VList [VInt (-3); VNone])];
  Result ("one" +:+ NL +:+ "{}") "" 0].
Lemma responses_read_back_witness :
  Forall (fun r => exists p, r = Ok p) (map (decode_line true)
    (byte_lines (join "" (map (fun r => line_of (fun _ => "") " " (frame_of r)) demo_responses)))).
Proof.
  rewrite (responses_read_back (fun _ => "") " " blank_sep eq_refl true demo_responses).
  - repeat constructor; eexists; reflexivity.
  - repeat constructor; vm_compute; reflexivity.
  - repeat constructor; vm_compute; discriminate.
Defined.
Lemma requests_read_back_witness :
  decode_request (encode_line (fun _ => "") make_ping) = Ok make_ping.
Proof. apply (requests_read_back (fun _ => "") Ping). vm_compute. discriminate. Defined.
Lemma cursor_roundtrip_witness :
  split_composite_cursor (fun _ => "") (make_composite_cursor (fun _ => "") "1700000000000/000001" 42)
  = ("1700000000000/000001", 42).
Proof. apply (cursor_roundtrip (fun _ => "") (fun _ => "") "1700000000000/000001" 42). vm_compute. reflexivity. Defined.
Lemma plain_cursor_witness :
  split_composite_cursor (fun _ => "") "1700000000000/000001" = ("1700000000000/000001", 0).
Proof. apply (plain_cursor (fun _ => "") "1700000000000" "000001"); [discriminate|reflexivity..]. Defined.

(** ** [str.splitlines] *)
Definition line_break (s : string) : option string :=
  match s with
  | String c s1 =>
    match N_of_ascii c, s1 with
    | 13%N, String d s2 => Some (if char_is 10 d then s2 else s1)
    | (10 | 11 | 12 | 13 | 28 | 29 | 30)%N, _ => Some s1
    | 194%N, String d s2 => if char_is 133 d then Some s2 else None
    | 226%N, String d (String e s3) =>
      if char_is 128 d && (char_is 168 e || char_is 169 e) then Some s3 else None
    | _, _ => None
    end
  | "" => None
  end.
Fixpoint split_lines (n : nat) (s : string) : list string :=
  match n, s with
  | S n, String c s' =>
    match line_break s with
    | Some r => "" :: split_lines n r
    | None => match split_lines n s' with [] => [String c ""] | l :: ls => String c l :: ls end
    end
  | _, _ => []
  end.
Definition splitlines (s : string) : list string := split_lines (String.length s) s.
Section printable.
Abbreviation printable s := (all_chars (between 32 126) s = true).
Lemma printable_break c s : between 32 126 c = true -> line_break (String c s) = None.
Proof.
  destruct c as [[] [] [] [] [] [] [] []]; try discriminate; reflexivity.
Qed.
Lemma split_printable n s t : printable s -> (String.length (s +:+ NL +:+ t) <= n)%nat ->
  split_lines n (s +:+ NL +:+ t) = s :: split_lines (n - S (String.length s)) t.
Proof.
  revert n. induction s as [|c s IH]; intros n Hs Hn; destruct n as [|n]; try (simpl in Hn; lia).
  - rewrite string_app_nil_l. simpl. by rewrite Nat.sub_0_r.
  - cbn [all_chars] in Hs. apply andb_true_iff in Hs as [Hc Hs]. rewrite string_app_cons in *. cbn [split_lines String.length] in *.
    rewrite printable_break by done. rewrite IH by (try done; lia). done.
Qed.
Lemma printable_escapes m : printable m -> printable (escapes m).
Proof.
  induction m as [|c m IH]; [done|]. cbn [all_chars escapes]. intros [Hc Hm]%andb_true_iff. rewrite all_chars_app, IH by done.
  rewrite andb_true_r. revert Hc. clear. by destruct c as [[] [] [] [] [] [] [] []].
Qed.
Lemma split_one n s : printable s -> s <> "" -> (String.length s <= n)%nat -> split_lines n s = [s].
Proof.
  revert n. induction s as [|c s IH]; intros [|n] Hs Hne Hn; try done; simpl in Hn; [lia|].
  cbn [all_chars] in Hs. apply andb_true_iff in Hs as [Hc Hs]. cbn [split_lines]. rewrite printable_break by done.
  destruct s as [|d s]; [by destruct n|]. rewrite IH by (try done; lia). done.
Qed.
Lemma printable_utf8 s : printable s -> utf8_valid s = true.
Proof.
  intros Hs. rewrite <- (string_append_nil s). rewrite utf8_ascii_app; [done|]. revert Hs. apply all_chars_impl. clear.
  intros c. by destruct c as [[] [] [] [] [] [] [] []].
Qed.
End printable.
