(* ===== verification/RequestLedger.v ===== *)
(** * Request ledger (RequestLedger in src/src/codeagent/mailbox/store.py)

    The append-only event log of one agent, one JSONL file per request id.
    An entry is written as one text of JSON and a newline, and the file is read
    back by [str.splitlines], which also divides at U+0085, U+2028 and U+2029:
    the lines of a file are what such pieces say.  After a write cut short by a
    crash the file has an unterminated tail (cut between characters).
    [record_event] runs under the file lock of the request directory, so it is
    one atomic step. *)
From S2P Require Import Prelude MailboxProtocol Wire.

(** ** Data *)
Definition TERMINAL_STATES : list string :=
  ["DONE"; "BLOCKED"; "CANCELLED"; "EXPIRED"; "UNKNOWN_STALE"].
Definition is_terminal (event : string) : bool := bool_decide (event ∈ TERMINAL_STATES).

Record entry := {
  e_request : string; e_run : string; e_event : string; e_ts : Z; e_meta : pydict }.
(** The text of an entry.  Numbers outside of strings never divide it, nor does any
    piece that [json.loads] takes hold one; they are written as 0 here. *)
Definition entry_text (e : entry) : string := spaced (fun _ => "0") " " (VDict [
  ("request_id", VStr (e_request e)); ("run_id", VStr (e_run e)); ("event", VStr (e_event e)); ("ts", VInt 0);
  ("meta", VDict (e_meta e))]).

(** A line, as it is read: an entry; an object without the fields of an entry (between
    the quotes of a piece stand the commas and colons of the whole text); a value of
    JSON that is no object; a text that does not parse, which is skipped. *)
Inductive line := Entry (e : entry) | Hollow | Scalar | Junk.
#[export] Instance line_junk_dec (x : line) : Decision (x = Junk).
Proof. destruct x; first [by left | by right]. Defined.
Definition piece (s : string) : line :=
  match loads (strip s) with Some (VDict _) => Hollow | Some _ => Scalar | None => Junk end.
(** The lines that an entry makes: itself, or the pieces of its text. *)
Definition written (e : entry) : list line :=
  match splitlines (entry_text e) with [_] => [Entry e] | ps => map piece ps end.

(** An [events.jsonl] file.  [tail] is the text after the last division. *)
Record jsonl := { lines : list line; tail : option line }.
Definition empty_file : jsonl := {| lines := []; tail := None |}.

(** The files under [<session_dir>/<agent>/events], by request id. *)
Abbreviation ledger := (gmap string jsonl).

(** ** The interface: a write-once register

    What the ledger promises for terminal states.  [wo_inv] holds of the
    states the promise is made for, [wo_val] of the keys and values that it is
    made for: they close the register. *)
Class WriteOnce (S K V : Type) := {
  wo_inv : S -> Prop;
  wo_val : K -> V -> bool;
  wo_get : S -> K -> option V;
  wo_put : S -> K -> V -> bool * S }.

Class WriteOnceLaws (S K V : Type) `{WriteOnce S K V} := {
  wo_put_inv : forall s k v, wo_inv s -> wo_val k v = true -> wo_inv (wo_put s k v).2;
  wo_put_fresh : forall s k v, wo_inv s -> wo_val k v = true -> wo_get s k = None ->
    (wo_put s k v).1 = true /\ wo_get (wo_put s k v).2 k = Some v;
  wo_put_taken : forall s k v w, wo_inv s -> wo_val k v = true -> wo_get s k = Some w ->
    (wo_put s k v).1 = false /\ wo_get (wo_put s k v).2 k = Some w;
  wo_put_frame : forall s k k' v, wo_inv s -> wo_val k v = true -> k <> k' ->
    wo_get (wo_put s k v).2 k' = wo_get s k' }.

(** A client that tries to close the register and reports what it holds. *)
Definition resolve {S K V} `{WriteOnce S K V} (s : S) (k : K) (v : V) : (V * bool) * S :=
  let r := wo_put s k v in
  if r.1 then ((v, true), r.2) else ((default v (wo_get r.2 k), false), r.2).

Section resolve.
Context {S K V : Type} `{WriteOnceLaws S K V}.

(** The client reports the value of the register, and whether it wrote it. *)
Lemma resolve_reports s k v :
  wo_inv s -> wo_val k v = true ->
  let r := resolve s k v in
  wo_get r.2 k = Some r.1.1 /\ wo_inv r.2 /\ (r.1.2 = true <-> wo_get s k = None).
Proof.
  intros Hi Hv. unfold resolve. pose proof (wo_put_inv s k v Hi Hv) as Hi'.
  destruct (wo_get s k) as [w|] eqn:E.
  - destruct (wo_put_taken s k v w Hi Hv E) as [-> Hg]. simpl. rewrite Hg. naive_solver.
  - destruct (wo_put_fresh s k v Hi Hv E) as [-> Hg]. simpl. naive_solver.
Qed.

(** Once closed, every later attempt reports the value it was closed with. *)
Lemma resolve_stable s k v w :
  wo_inv s -> wo_val k v = true -> wo_get s k = Some w ->
  (resolve s k v).1 = (w, false) /\ wo_get (resolve s k v).2 k = Some w.
Proof.
  intros Hi Hv E. unfold resolve.
  destruct (wo_put_taken s k v w Hi Hv E) as [-> Hg]. simpl. by rewrite Hg.
Qed.
End resolve.

Module RequestLedger.

(** ** Reading *)
Definition file_lines (f : jsonl) : list line :=
  filter (fun x => x <> Junk) (lines f ++ match tail f with Some x => [x] | None => [] end).

Definition _read_all (l : ledger) (request_id : string) : list line :=
  match l !! request_id with
  | None => []
  | Some f => file_lines f
  end.

Definition no_object : pyexn := AttributeError "no attribute get".
(** [[e for e in ... if e.get("run_id") == run_id]] *)
Fixpoint keep_run (run_id : string) (xs : list line) : res (list entry) :=
  match xs with
  | [] => Ok []
  | Entry e :: xs => do es <- keep_run run_id xs; Ok (if String.eqb (e_run e) run_id then e :: es else es)
  | Scalar :: _ => Raise no_object
  | (Hollow | Junk) :: xs => keep_run run_id xs
  end.
Definition _read_entries (l : ledger) (request_id run_id : string) : res (list entry) :=
  keep_run run_id (_read_all l request_id).

(** [by_run.setdefault(e.get("run_id", ""), []).append(e)] over the lines; [None] is an
    object without fields. *)
Definition add_run (acc : list (string * list (option entry))) (k : string) (e : option entry) :=
  dset acc k (default [] (dget acc k) ++ [e]).
Fixpoint group_by_run (xs : list line) (acc : list (string * list (option entry))) :
    res (list (string * list (option entry))) :=
  match xs with
  | [] => Ok acc
  | Entry e :: xs => group_by_run xs (add_run acc (e_run e) (Some e))
  | Hollow :: xs => group_by_run xs (add_run acc "" None)
  | Scalar :: _ => Raise no_object
  | Junk :: xs => group_by_run xs acc
  end.
Definition _read_entries_all_runs (l : ledger) (request_id : string) :
    res (list (string * list (option entry))) :=
  group_by_run (_read_all l request_id) [].

Definition first_terminal (es : list entry) : option string :=
  e_event <$> List.find (fun e => is_terminal (e_event e)) es.
Definition get_terminal (l : ledger) (request_id run_id : string) : res (option string) :=
  do es <- _read_entries l request_id run_id; Ok (first_terminal es).

(** ** Writing *)

(** The text is written at the end of the file: after an unterminated tail its
    first piece becomes part of that line, which then does not parse. *)
Definition file_append (f : jsonl) (e : entry) : jsonl :=
  {| lines := lines f ++ match tail f with
                         | None => written e
                         | Some _ => match written e with [] => [] | _ :: ps => Junk :: ps end
                         end;
     tail := None |}.

(** A text with a lone surrogate cannot be encoded. *)
Definition _append (l : ledger) (request_id run_id event : string) (meta : pydict) (now : Z) :
    res ledger :=
  let e := {| e_request := request_id; e_run := run_id; e_event := event; e_ts := now; e_meta := meta |} in
  guard utf8_valid (entry_text e) orelse ValueError "surrogates not allowed";
  Ok (<[request_id := file_append (default empty_file (l !! request_id)) e]> l).

(** The body of [record_event], run under the lock. *)
Definition record_locked (l : ledger) (request_id run_id event : string) (meta : pydict)
    (now : Z) : res (bool * ledger) :=
  do found <- (if is_terminal event then get_terminal l request_id run_id else Ok None);
  match found with
  | Some existing =>
    do l' <- _append l request_id run_id "PROTOCOL_CONFLICT"
               [("frozen_event", VStr event); ("existing_terminal", VStr existing)] now;
    Ok (false, l')
  | None => do l' <- _append l request_id run_id event meta now; Ok (true, l')
  end.

Definition record_event (l : ledger) (request_id run_id event : string) (meta : pydict)
    (now : Z) : res (bool * ledger) :=
  do _ <- validate_path_component (VStr request_id);
  record_locked l request_id run_id event meta now.

(** [apply_message] on the fields of a validated message, which are strings. *)
Definition apply_message (l : ledger) (msg : pydict) (now : Z) : res (string * ledger) :=
  let kind := dstr msg "kind" in
  let run_id := dstr msg "run_id" in
  let request_id := dstr msg "request_id" in
  let record event meta :=
    do r <- record_event l request_id run_id event meta now; Ok (event, r.2) in
  if String.eqb request_id "" || String.eqb run_id "" then Ok ("", l)
  else if String.eqb kind "RECEIPT" then
    if negb (String.eqb (dstr msg "receipt_type") "READ") then Ok ("", l)
    else record "ACKED" [("msg_id", VStr (dstr msg "msg_id"));
                         ("reply_to", VStr (dstr msg "reply_to"))]
  else if String.eqb kind "TASK" || String.eqb kind "INIT" then
    record "DISPATCHED" [("msg_id", VStr (dstr msg "msg_id")); ("from", VStr (dstr msg "from"))]
  else if String.eqb kind "PROGRESS" then
    do _ <- validate_path_component (VStr request_id);
    do found <- get_terminal l request_id run_id;
    match found with
    | Some _ => Ok ("", l)
    | None =>
      do es <- _read_entries l request_id run_id;
      if existsb (fun e => String.eqb (e_event e) "RUNNING") es
      then Ok ("", l)
      else record "RUNNING" [("msg_id", VStr (dstr msg "msg_id"))]
    end
  else if String.eqb kind "REPORT" then
    record "DONE" [("msg_id", VStr (dstr msg "msg_id")); ("from", VStr (dstr msg "from"));
                   ("source", VStr "report")]
  else if String.eqb kind "NOTICE" then
    record "NOTICE" [("msg_id", VStr (dstr msg "msg_id")); ("from", VStr (dstr msg "from"))]
  else Ok ("", l).

(** The outcome of [record_artifact_verdict]: terminal state and CAS flag.  When the
    read after a refused verdict raises, the conflict entry that [record_event]
    appended stays in the file; the result names the exception only. *)
Definition verdict_state (verified : bool) : string := if verified then "DONE" else "BLOCKED".
Definition verdict_meta (verified : bool) : pydict :=
  if verified then [("source", VStr "artifact_verify")]
  else [("source", VStr "artifact_verify"); ("reason", VStr "sha256_mismatch")].
Definition record_artifact_verdict (l : ledger) (request_id run_id : string) (verified : bool)
    (now : Z) : res ((string * bool) * ledger) :=
  let state := verdict_state verified in
  do r <- record_event l request_id run_id state (verdict_meta verified) now;
  if r.1 then Ok ((state, true), r.2)
  else do existing <- get_terminal r.2 request_id run_id; Ok ((default state existing, false), r.2).

(** ** Stale requests *)
Definition acked_before (now sla : Z) (e : entry) : bool :=
  String.eqb (e_event e) "ACKED" && (sla <? now - e_ts e).
Definition no_event : pyexn := KeyError "event".
(** [any(e["event"] in TERMINAL_STATES for e in events)] *)
Fixpoint any_terminal (es : list (option entry)) : res bool :=
  match es with
  | [] => Ok false
  | Some e :: es => if is_terminal (e_event e) then Ok true else any_terminal es
  | None :: _ => Raise no_event
  end.
Fixpoint first_acked (now sla : Z) (es : list (option entry)) : res (option Z) :=
  match es with
  | [] => Ok None
  | Some e :: es => if acked_before now sla e then Ok (Some (e_ts e)) else first_acked now sla es
  | None :: _ => Raise no_event
  end.
Definition stale_run (now sla : Z) (request_id : string) (run : string * list (option entry)) :
    res (list (string * string * Z)) :=
  do over <- any_terminal run.2;
  if over : bool then Ok [] else
  do ts <- first_acked now sla run.2;
  Ok match ts with Some ts => [(request_id, run.1, ts)] | None => [] end.
(** The results of a loop that may raise, one after the other. *)
Fixpoint collect {A B} (f : A -> res (list B)) (l : list A) : res (list B) :=
  match l with [] => Ok [] | x :: l => do ys <- f x; do zs <- collect f l; Ok (ys ++ zs) end.
Definition stale_request (l : ledger) (now sla : Z) (request_id : string) : res (list (string * string * Z)) :=
  do runs <- _read_entries_all_runs l request_id; collect (stale_run now sla request_id) runs.

(** Request directories in sorted order, runs in order of first entry. *)
Definition find_stale (l : ledger) (now sla : Z) : res (list (string * string * Z)) :=
  collect (stale_request l now sla) (sort_strs (elements (dom l))).

End RequestLedger.

Import RequestLedger.

(** ** Lemmas *)

(** *** What a text divides into *)
Abbreviation printable s := (all_chars (between 32 126) s = true).
Definition printable_meta (m : pydict) : Prop :=
  Forall (fun x => printable x.1 /\ match x.2 with VStr s => printable s | _ => False end) m.
(** The entry is written as one line and can be encoded. *)
Definition recordable (e : entry) : Prop := utf8_valid (entry_text e) = true /\ written e = [Entry e].
Definition no_entry (x : line) : Prop := match x with Entry _ => False | _ => True end.
Lemma piece_no_entry s : no_entry (piece s).
Proof. unfold piece. destruct (loads _) as [[]|]; done. Qed.
Lemma written_cases e : written e = [Entry e] \/ Forall no_entry (written e).
Proof.
  unfold written. destruct (splitlines (entry_text e)) as [|p [|q ps]]; [by right; constructor|by left|right].
  apply Forall_fmap. apply Forall_forall. intros. apply piece_no_entry.
Qed.
Lemma printable_quoted s : printable s -> printable (dump_str s).
Proof. intros Hs. unfold dump_str. cbn [all_chars]. by rewrite all_chars_app, printable_escapes by done. Qed.
Lemma printable_join sep l : printable sep -> Forall (fun s => printable s) l -> printable (join sep l).
Proof.
  intros Hs. induction 1 as [|x l Hx Hl IH]; [done|]. cbn [join]. destruct l as [|y l]; [done|].
  by rewrite !all_chars_app, Hx, Hs, IH.
Qed.
Lemma printable_dict (d : pydict) : Forall (fun x => printable x.1 /\ printable (spaced (fun _ => "0") " " x.2)) d ->
  printable (spaced (fun _ => "0") " " (VDict d)).
Proof.
  intros Hd. unfold spaced. cbn [dumps_with]. rewrite !all_chars_app. cbn [all_chars]. rewrite printable_join; [done|done|].
  apply Forall_fmap. eapply Forall_impl; [exact Hd|]. intros [k v] [Hk Hv].
  unfold compose. cbn [fst snd] in *. rewrite !all_chars_app, printable_quoted by done. unfold spaced in Hv. by rewrite Hv.
Qed.
Lemma printable_recordable r n ev ts meta : printable r -> printable n -> printable ev -> printable_meta meta ->
  recordable {| e_request := r; e_run := n; e_event := ev; e_ts := ts; e_meta := meta |}.
Proof.
  intros Hr Hn Hev Hm. set (e := {| e_request := r |}).
  assert (Hp : printable (entry_text e)).
  { unfold entry_text. apply printable_dict. repeat (apply Forall_cons; split; [split; [done|]|]); [| | |done| |done];
      try (unfold spaced; cbn [dumps_with]; by apply printable_quoted).
    apply printable_dict. eapply Forall_impl; [exact Hm|]. intros [k v] [Hk Hv]. split; [done|]. destruct v; try done.
    unfold spaced. cbn [dumps_with]. by apply printable_quoted. }
  split; [by apply printable_utf8|]. unfold written, splitlines. by rewrite split_one by (done || by unfold entry_text).
Qed.

(** *** Files *)
(** No file ends in an unterminated line. *)
Definition intact (l : ledger) : Prop := map_Forall (fun _ f => tail f = None) l.
(** The entries of a run that are on a line of their own. *)
Fixpoint entries_of (n : string) (xs : list line) : list entry :=
  match xs with
  | [] => []
  | Entry e :: xs => if String.eqb (e_run e) n then e :: entries_of n xs else entries_of n xs
  | _ :: xs => entries_of n xs
  end.
Lemma entries_app n xs ys : entries_of n (xs ++ ys) = entries_of n xs ++ entries_of n ys.
Proof. induction xs as [|[e| | |] xs IH]; simpl; rewrite ?IH; try done. by destruct (String.eqb _ _). Qed.
Lemma no_entries n xs : Forall no_entry xs -> entries_of n xs = [].
Proof. by induction 1 as [|[] ? ?]; simpl. Qed.
Definition readable (xs : list line) : bool := forallb (fun x => match x with Scalar => false | _ => true end) xs.
Lemma keep_run_spec n xs : keep_run n xs = if readable xs then Ok (entries_of n xs) else Raise no_object.
Proof.
  induction xs as [|[e| | |] xs IH]; cbn [keep_run entries_of readable forallb andb]; rewrite ?IH; try done.
  unfold readable. destruct (forallb _ xs); [|done]. simpl. by destruct (String.eqb _ _).
Qed.
Lemma entries_keep n xs : entries_of n (filter (fun x => x <> Junk) xs) = entries_of n xs.
Proof.
  induction xs as [|x xs IH]; [by rewrite filter_nil|]. destruct x;
    [rewrite filter_cons_True by done..|rewrite filter_cons_False by naive_solver]; simpl; by rewrite ?IH.
Qed.
Lemma entries_run n xs : Forall (fun e => e_run e = n) (entries_of n xs).
Proof. induction xs as [|[e| | |] xs IH]; simpl; try done. destruct (String.eqb_spec (e_run e) n); [by constructor|done]. Qed.
Lemma readable_app xs ys : readable (xs ++ ys) = readable xs && readable ys.
Proof. apply forallb_app. Qed.
Lemma read_entries_spec l r n : _read_entries l r n =
  if readable (_read_all l r) then Ok (entries_of n (_read_all l r)) else Raise no_object.
Proof. apply keep_run_spec. Qed.
Lemma get_terminal_spec l r n : get_terminal l r n =
  if readable (_read_all l r) then Ok (first_terminal (entries_of n (_read_all l r))) else Raise no_object.
Proof. unfold get_terminal. rewrite read_entries_spec. by destruct (readable _). Qed.

(** *** Appending *)
Definition entry_of (r n ev : string) (meta : pydict) (now : Z) : entry :=
  {| e_request := r; e_run := n; e_event := ev; e_ts := now; e_meta := meta |}.
Definition one_line (e : entry) : bool := Nat.eqb (length (splitlines (entry_text e))) 1.
(** The readable entries of a run, in order. *)
Definition run_log (l : ledger) (r n : string) : list entry := entries_of n (_read_all l r).

Lemma written_entries n e : entries_of n (written e) = if one_line e && String.eqb (e_run e) n then [e] else [].
Proof.
  unfold one_line. destruct (written_cases e) as [H|H].
  - rewrite H. simpl. destruct (Nat.eqb_spec (length (splitlines (entry_text e))) 1) as [H1|H1]; [by destruct (String.eqb _ _)|].
    exfalso. unfold written in H. destruct (splitlines _) as [|p [|q ps]]; [done..|]. injection H as H _.
    pose proof (piece_no_entry p). by rewrite H in *.
  - rewrite (no_entries n _ H). destruct (Nat.eqb_spec (length (splitlines (entry_text e))) 1) as [H1|H1]; [|done].
    unfold written in H. destruct (splitlines _) as [|p [|q ps]]; [done| |done]. by apply Forall_inv in H.
Qed.
Lemma recordable_one_line e : recordable e -> one_line e = true.
Proof.
  intros [_ H]. pose proof (written_entries (e_run e) e) as E. rewrite H in E. simpl in E.
  rewrite String.eqb_refl in E. by destruct (one_line e).
Qed.

Lemma append_Ok l r n ev meta now l' : _append l r n ev meta now = Ok l' <->
  utf8_valid (entry_text (entry_of r n ev meta now)) = true /\ l' = <[r := file_append (default empty_file (l !! r)) (entry_of r n ev meta now)]> l.
Proof. unfold _append. fold (entry_of r n ev meta now). destruct (utf8_valid _); naive_solver. Qed.
Lemma append_total l r n ev meta now :
  utf8_valid (entry_text (entry_of r n ev meta now)) = true -> exists l', _append l r n ev meta now = Ok l'.
Proof. intros H. eexists. by apply append_Ok. Qed.
Lemma intact_lookup l r : intact l -> tail (default empty_file (l !! r)) = None.
Proof. intros H. destruct (l !! r) as [f|] eqn:E; [apply (H r f E)|done]. Qed.
Lemma intact_append l r n ev meta now l' : intact l -> _append l r n ev meta now = Ok l' -> intact l'.
Proof. intros H [_ ->]%append_Ok. by apply map_Forall_insert_2. Qed.
Lemma file_lines_append f e : tail f = None ->
  file_lines (file_append f e) = file_lines f ++ filter (fun x => x <> Junk) (written e).
Proof. intros H. unfold file_lines, file_append. simpl. by rewrite H, !app_nil_r, filter_app. Qed.
Lemma read_all_append l r n ev meta now l' r' : intact l -> _append l r n ev meta now = Ok l' ->
  _read_all l' r' = _read_all l r' ++
    (if decide (r = r') then filter (fun x => x <> Junk) (written (entry_of r n ev meta now)) else []).
Proof.
  intros H [_ ->]%append_Ok. unfold _read_all. destruct (decide (r = r')) as [<-|Hr].
  - rewrite lookup_insert_eq, file_lines_append by by apply intact_lookup. by destruct (l !! r).
  - by rewrite lookup_insert_ne, app_nil_r by done.
Qed.
Lemma run_log_append l r n ev meta now l' r' n' : intact l -> _append l r n ev meta now = Ok l' ->
  run_log l' r' n' = run_log l r' n' ++
    (if decide (r = r' /\ n = n') then if one_line (entry_of r n ev meta now) then [entry_of r n ev meta now] else []
     else []).
Proof.
  intros H Ha. unfold run_log. rewrite (read_all_append _ _ _ _ _ _ _ r' H Ha), entries_app. f_equal.
  destruct (decide (r = r')) as [<-|Hr]; [|rewrite decide_False by naive_solver; done].
  rewrite entries_keep, written_entries. simpl. destruct (String.eqb_spec n n') as [<-|Hn].
  - rewrite decide_True by done. by destruct (one_line _).
  - rewrite decide_False by naive_solver. by destruct (one_line _).
Qed.
Lemma readable_append l r n ev meta now l' r' : intact l -> _append l r n ev meta now = Ok l' ->
  readable (_read_all l' r') = true -> readable (_read_all l r') = true.
Proof. intros H Ha. rewrite (read_all_append _ _ _ _ _ _ _ r' H Ha), readable_app. by intros [? _]%andb_prop. Qed.
Lemma readable_append_one l r n ev meta now l' r' : intact l -> _append l r n ev meta now = Ok l' ->
  recordable (entry_of r n ev meta now) -> readable (_read_all l' r') = readable (_read_all l r').
Proof.
  intros H Ha [_ Hw]. rewrite (read_all_append _ _ _ _ _ _ _ r' H Ha), readable_app, Hw.
  destruct (decide (r = r')); [by rewrite filter_cons_True, filter_nil, andb_true_r by done|by rewrite andb_true_r].
Qed.

(** *** Terminal states *)
Definition verdict_of (es : list entry) (hit : bool) (ev : string) : option string :=
  match first_terminal es with
  | Some t => Some t
  | None => if hit && is_terminal ev then Some ev else None
  end.
Lemma first_terminal_app es e : first_terminal (es ++ [e]) = verdict_of es true (e_event e).
Proof.
  unfold first_terminal, verdict_of, first_terminal. rewrite find_app.
  destruct (List.find _ es); [done|]. simpl. by destruct (is_terminal _).
Qed.
Lemma is_terminal_conflict : is_terminal "PROTOCOL_CONFLICT" = false.
Proof. reflexivity. Qed.

(** The entry that [record_event] appends. *)
Definition appended (l : ledger) (r n ev : string) (meta : pydict) (now : Z) : entry :=
  match (if is_terminal ev then first_terminal (run_log l r n) else None) with
  | Some t => entry_of r n "PROTOCOL_CONFLICT" [("frozen_event", VStr ev); ("existing_terminal", VStr t)] now
  | None => entry_of r n ev meta now
  end.
Lemma record_locked_Ok l r n ev meta now b l' : record_locked l r n ev meta now = Ok (b, l') ->
  exists ev' meta', _append l r n ev' meta' now = Ok l' /\ appended l r n ev meta now = entry_of r n ev' meta' now /\
    b = negb (bool_decide (is_terminal ev = true /\ first_terminal (run_log l r n) <> None)) /\
    (is_terminal ev' = true -> first_terminal (run_log l r n) = None).
Proof.
  unfold record_locked, appended. rewrite get_terminal_spec. unfold run_log. destruct (is_terminal ev) eqn:Et.
  - destruct (readable _); [|done]. simpl. destruct (first_terminal _) as [t|] eqn:Ef; intros (l1 & Ha & [= <- <-])%res_bind_Ok.
    + eexists _, _. split; [exact Ha|]. rewrite bool_decide_eq_true_2 by done. done.
    + eexists _, _. split; [exact Ha|]. rewrite bool_decide_eq_false_2 by naive_solver. done.
  - simpl. intros (l1 & Ha & [= <- <-])%res_bind_Ok. eexists _, _. split; [exact Ha|].
    split_and!; [done..|congruence].
Qed.
Lemma record_locked_intact l r n ev meta now b l' :
  intact l -> record_locked l r n ev meta now = Ok (b, l') -> intact l'.
Proof. intros Hi (? & ? & Ha & _)%record_locked_Ok. by eapply intact_append. Qed.

(** What a recorded event does to the entries of every run. *)
Lemma run_log_record l r n ev meta now b l' r' n' : intact l -> record_locked l r n ev meta now = Ok (b, l') ->
  run_log l' r' n' = run_log l r' n' ++
    (if decide (r = r' /\ n = n') then if one_line (appended l r n ev meta now) then [appended l r n ev meta now] else []
     else []).
Proof. intros Hi (? & ? & Ha & -> & _)%record_locked_Ok. by apply run_log_append. Qed.
Lemma terminal_kept l r n ev meta now b l' r' n' t : intact l -> record_locked l r n ev meta now = Ok (b, l') ->
  first_terminal (run_log l r' n') = Some t -> first_terminal (run_log l' r' n') = Some t.
Proof.
  intros Hi Hr Ht. rewrite (run_log_record _ _ _ _ _ _ _ _ r' n' Hi Hr).
  destruct (decide _); [destruct (one_line _)|]; rewrite ?app_nil_r; try done.
  rewrite first_terminal_app. unfold verdict_of. by rewrite Ht.
Qed.
Lemma readable_record l r n ev meta now b l' r' : intact l -> record_locked l r n ev meta now = Ok (b, l') ->
  readable (_read_all l' r') = true -> readable (_read_all l r') = true.
Proof. intros Hi (? & ? & Ha & _)%record_locked_Ok. by eapply readable_append. Qed.

(** With an entry of one line that can be encoded, recording goes as it should. *)
Lemma record_locked_spec l r n ev meta now : intact l -> readable (_read_all l r) = true ->
  recordable (appended l r n ev meta now) ->
  exists l', record_locked l r n ev meta now =
      Ok (negb (bool_decide (is_terminal ev = true /\ first_terminal (run_log l r n) <> None)), l') /\
    intact l' /\ (forall r', readable (_read_all l' r') = readable (_read_all l r')) /\
    forall r' n', first_terminal (run_log l' r' n') =
      verdict_of (run_log l r' n') (bool_decide (r = r' /\ n = n')) ev.
Proof.
  intros Hi Hrd Hrec. pose proof Hrec as [Hu _].
  assert (exists l' b, record_locked l r n ev meta now = Ok (b, l')) as (l' & b & Hl).
  { revert Hu. unfold record_locked, appended. rewrite get_terminal_spec. fold (run_log l r n). rewrite Hrd.
    destruct (is_terminal ev); [destruct (first_terminal _) eqn:E|];
      intros Hu; destruct (append_total l _ _ _ _ _ Hu) as [l' Hl']; exists l'; unfold res_bind; rewrite Hl'; eexists; reflexivity. }
  pose proof Hl as (ev' & meta' & Ha & He & -> & _)%record_locked_Ok. exists l'. split; [done|].
  split; [by eapply intact_append|]. rewrite He in Hrec. split; [intros; by eapply readable_append_one|].
  intros r' n'. rewrite (run_log_append _ _ _ _ _ _ _ r' n' Hi Ha), (recordable_one_line _ Hrec).
  unfold verdict_of. destruct (decide (r = r' /\ n = n')) as [[<- <-]|Hne].
  - rewrite first_terminal_app, bool_decide_eq_true_2 by done. unfold verdict_of. rewrite <- He. unfold appended. simpl.
    destruct (is_terminal ev) eqn:Et, (first_terminal _); simpl.
    all: rewrite ?Et; try done.
  - rewrite app_nil_r, bool_decide_eq_false_2 by done. simpl. by destruct (first_terminal (run_log l r' n')).
Qed.

(** The texts that the ledger itself puts into an entry are printable. *)
Lemma terminal_printable ev : is_terminal ev = true -> printable ev.
Proof. intros H%bool_decide_eq_true. repeat (apply elem_of_cons in H as [->|H]; [reflexivity|]). by apply elem_of_nil in H. Qed.
Lemma first_terminal_Some es t : first_terminal es = Some t -> is_terminal t = true.
Proof. intros (e & Hf & ->)%fmap_Some. by apply find_some in Hf as [_ ?]. Qed.
Lemma appended_recordable l r n ev meta now : printable r -> printable n -> printable ev -> printable_meta meta ->
  recordable (appended l r n ev meta now).
Proof.
  intros Hr Hn Hev Hm. unfold appended. destruct (if is_terminal ev then _ else _) as [t|] eqn:E.
  - apply printable_recordable; [done..|]. repeat constructor; simpl; [done|]. destruct (is_terminal ev); [|done].
    eauto using first_terminal_Some, terminal_printable.
  - by apply printable_recordable.
Qed.
#[export] Hint Resolve intact_append record_locked_intact : s2p.

(** ** The ledger is a write-once register for terminal states

    The register is closed with the terminal states of runs with printable names. *)
Section write_once.
Context (meta : pydict) (now : Z) (Hmeta : printable_meta meta).

Definition ledger_put (l : ledger) (k : string * string) (v : string) : bool * ledger :=
  match record_locked l k.1 k.2 v meta now with Ok r => r | Raise _ => (false, l) end.
Definition ledger_get (l : ledger) (k : string * string) : option string :=
  match get_terminal l k.1 k.2 with Ok t => t | Raise _ => None end.
#[local] Instance ledger_once : WriteOnce ledger (string * string) string := {
  wo_inv l := intact l /\ forall r, readable (_read_all l r) = true;
  wo_val k v := is_terminal v && all_chars (between 32 126) k.1 && all_chars (between 32 126) k.2;
  wo_get := ledger_get;
  wo_put := ledger_put }.

Lemma ledger_put_spec l k v : wo_inv l -> wo_val k v = true ->
  record_locked l k.1 k.2 v meta now = Ok (ledger_put l k v) /\ wo_inv (ledger_put l k v).2 /\
  (ledger_put l k v).1 = bool_decide (ledger_get l k = None) /\
  forall k', ledger_get (ledger_put l k v).2 k' =
    match ledger_get l k' with Some t => Some t | None => if bool_decide (k = k') then Some v else None end.
Proof.
  destruct k as [r n]. intros [Hi Hrd] [[Hv Hr]%andb_prop Hn]%andb_prop. unfold ledger_put, ledger_get. simpl in *.
  destruct (record_locked_spec l r n v meta now Hi (Hrd r)) as (l' & -> & Hi' & Hrd' & Hf).
  { apply appended_recordable; try done. by apply terminal_printable. }
  split; [done|]. split; [split; [done|]; intros; by rewrite Hrd'|]. rewrite get_terminal_spec, Hrd. simpl. split.
  - unfold run_log. rewrite Hv. destruct (first_terminal _); repeat case_bool_decide; naive_solver.
  - intros [r' n']. rewrite !get_terminal_spec, Hrd', Hrd. simpl. fold (run_log l' r' n') (run_log l r' n').
    rewrite Hf. unfold verdict_of. rewrite Hv, andb_true_r. destruct (first_terminal _); [done|].
    destruct (decide (r = r' /\ n = n')) as [[<- <-]|Hne].
    + by rewrite !bool_decide_eq_true_2.
    + by rewrite !bool_decide_eq_false_2 by naive_solver.
Qed.

#[local] Instance ledger_once_laws : WriteOnceLaws ledger (string * string) string.
Proof.
  split; intros *; intros Hi Hv; pose proof (ledger_put_spec _ _ _ Hi Hv) as (_ & Hi' & Hb & Hg); simpl in *.
  - done.
  - intros E. by rewrite Hb, Hg, E, !bool_decide_eq_true_2.
  - intros E. by rewrite Hb, Hg, E, bool_decide_eq_false_2.
  - intros Hne. rewrite Hg, (bool_decide_eq_false_2 (k = k')) by done. by destruct (ledger_get s k').
Qed.
End write_once.

(** ** Reachable ledgers *)
Inductive ledger_step : ledger -> ledger -> Prop :=
| step_record l l' r n ev meta now b :
    record_event l r n ev meta now = Ok (b, l') -> ledger_step l l'
| step_apply l l' msg now name :
    apply_message l msg now = Ok (name, l') -> ledger_step l l'
| step_verdict l l' r n v now out :
    record_artifact_verdict l r n v now = Ok (out, l') -> ledger_step l l'.

(** The ledger an operation leaves is the one it got, or that with one event. *)
Definition one_event (l l' : ledger) : Prop :=
  l' = l \/ exists r n ev meta now b, record_locked l r n ev meta now = Ok (b, l').

Lemma record_event_Ok l r n ev meta now x :
  record_event l r n ev meta now = Ok x ->
  record_locked l r n ev meta now = Ok x /\ validate_path_component (VStr r) = Ok tt.
Proof. unfold record_event. rewrite res_bind_Ok. intros ([] & ? & ?). done. Qed.

Lemma apply_message_event l msg now name l' : apply_message l msg now = Ok (name, l') ->
  l' = l \/ exists ev meta b, record_locked l (dstr msg "request_id") (dstr msg "run_id") ev meta now = Ok (b, l') /\
    (is_terminal ev = true -> dstr msg "kind" = "REPORT" /\ ev = "DONE").
Proof.
  unfold apply_message. generalize (dstr msg "kind") (dstr msg "request_id") (dstr msg "run_id"). intros kind r n.
  assert (Hrec : forall ev meta, (do x <- record_event l r n ev meta now; Ok (ev, x.2)) = Ok (name, l') ->
    (is_terminal ev = true -> kind = "REPORT" /\ ev = "DONE") ->
    exists ev meta b, record_locked l r n ev meta now = Ok (b, l') /\
      (is_terminal ev = true -> kind = "REPORT" /\ ev = "DONE")).
  { intros ev meta ([b l1] & Hx & [= _ <-])%res_bind_Ok Hev. apply record_event_Ok in Hx as [Hx _]. eauto 10. }
  destruct (_ || _); [by intros [= _ <-]; left|]. destruct (String.eqb_spec kind "RECEIPT").
  { destruct (negb _); [by intros [= _ <-]; left|]. intros E. right. by eapply Hrec. }
  destruct (_ || _); [intros E; right; by eapply Hrec|]. destruct (String.eqb_spec kind "PROGRESS").
  { intros ([] & _ & E)%res_bind_Ok. apply res_bind_Ok in E as ([t|] & _ & E); [by injection E as _ <-; left|].
    apply res_bind_Ok in E as (es & _ & E). destruct (existsb _ es); [by injection E as _ <-; left|right; by eapply Hrec]. }
  destruct (String.eqb_spec kind "REPORT"); [intros E; right; by eapply Hrec|].
  destruct (String.eqb kind "NOTICE"); [intros E; right; by eapply Hrec|by intros [= _ <-]; left].
Qed.

Lemma ledger_step_one_event l l' : ledger_step l l' -> one_event l l'.
Proof.
  intros [? ? r n ev meta now b H | ? ? msg now name H | ? ? r n v now out H].
  - apply record_event_Ok in H as [H _]. right. eauto 10.
  - apply apply_message_event in H as [->|(ev & meta & b & H & _)]; [by left|right; eauto 10].
  - unfold record_artifact_verdict in H. apply res_bind_Ok in H as ([b l1] & Hx & Hout).
    apply record_event_Ok in Hx as [Hx _]. right. eexists r, n, _, _, now, b. simpl in Hout.
    destruct b; [by injection Hout as _ <-|]. by apply res_bind_Ok in Hout as (? & _ & [= _ <-]).
Qed.

Lemma ledger_step_intact l l' : intact l -> ledger_step l l' -> intact l'.
Proof. intros Hi [->|(r & n & ev & meta & now & b & H)]%ledger_step_one_event; eauto with s2p. Qed.
Lemma reachable_intact l : rtc ledger_step ∅ l -> intact l.
Proof.
  apply (rtc_ind_r (fun l => intact l)); [apply map_Forall_empty|].
  intros l1 l2 _ Hs Hi. by eapply ledger_step_intact.
Qed.
Lemma steps_kept l l' r n t : intact l -> rtc ledger_step l l' ->
  first_terminal (run_log l r n) = Some t -> first_terminal (run_log l' r n) = Some t.
Proof.
  intros Hi Hl Ht. cut (intact l' /\ first_terminal (run_log l' r n) = Some t); [tauto|]. revert l' Hl.
  apply (rtc_ind_r (fun l' => intact l' /\ first_terminal (run_log l' r n) = Some t)); [done|].
  intros l1 l2 _ Hs [Hi1 Hg]. split; [by eapply ledger_step_intact|].
  apply ledger_step_one_event in Hs as [->|(? & ? & ? & ? & ? & ? & ?)]; [done|]. by eapply terminal_kept.
Qed.

(** The terminal entries of a run. *)
Definition terminals (l : ledger) (r n : string) : list entry :=
  filter (fun e => is_terminal (e_event e) = true) (run_log l r n).
Lemma no_terminals l r n : first_terminal (run_log l r n) = None -> terminals l r n = [].
Proof.
  intros Hf%fmap_None. apply filter_nil_iff. intros e He Ht. rewrite find_None in Hf. specialize (Hf e He). congruence.
Qed.
Lemma terminals_record l r n ev meta now b l' r' n' :
  intact l -> record_locked l r n ev meta now = Ok (b, l') ->
  (length (terminals l r' n') <= 1)%nat -> (length (terminals l' r' n') <= 1)%nat.
Proof.
  intros Hi Hr Hlen. unfold terminals in *. rewrite (run_log_record _ _ _ _ _ _ _ _ r' n' Hi Hr), filter_app, length_app.
  apply record_locked_Ok in Hr as (ev' & meta' & _ & -> & _ & Ht).
  destruct (decide (r = r' /\ n = n')) as [[<- <-]|_]; [|simpl; lia]. destruct (one_line _); [|simpl; lia].
  destruct (is_terminal ev') eqn:E.
  - fold (terminals l r n). rewrite no_terminals by auto. apply (length_filter _ [_]).
  - rewrite filter_cons_False, filter_nil by (simpl; congruence). simpl. lia.
Qed.

(** *** Verdicts *)
Lemma verdict_meta_printable v : printable_meta (verdict_meta v).
Proof. destruct v; repeat constructor. Qed.
Lemma verdict_terminal v : is_terminal (verdict_state v) = true.
Proof. by destruct v. Qed.
Lemma verdict_resolve l r n v now : validate_path_component (VStr r) = Ok tt ->
  @wo_inv _ _ _ (ledger_once (verdict_meta v) now) l -> printable r -> printable n ->
  record_artifact_verdict l r n v now = Ok (@resolve _ _ _ (ledger_once (verdict_meta v) now) l (r, n) (verdict_state v)).
Proof.
  intros Hr Hi Hpr Hpn. unfold record_artifact_verdict, record_event. rewrite Hr. cbn [res_bind].
  destruct (ledger_put_spec (verdict_meta v) now (verdict_meta_printable v) l (r, n) (verdict_state v) Hi) as (Hl & [_ Hrd] & _).
  { simpl. by rewrite verdict_terminal, Hpr, Hpn. }
  cbn [fst snd] in Hl. rewrite Hl. unfold resolve. cbn [res_bind wo_put ledger_once].
  destruct (ledger_put _ _ l (r, n) _) as [[] l'] eqn:E; [done|]. cbn [fst snd] in *.
  cbn [wo_get ledger_once]. unfold ledger_get. cbn [fst snd]. by rewrite get_terminal_spec, Hrd.
Qed.
Lemma empty_writable : intact ∅ /\ forall r, readable (_read_all ∅ r) = true.
Proof. split; [apply map_Forall_empty|done]. Qed.
Lemma verdict_fresh r n v now : validate_path_component (VStr r) = Ok tt -> printable r -> printable n ->
  exists l', record_artifact_verdict ∅ r n v now = Ok ((verdict_state v, true), l').
Proof.
  intros Hr Hpr Hpn. rewrite verdict_resolve by (done || apply empty_writable).
  destruct (@resolve_reports _ _ _ _ (ledger_once_laws (verdict_meta v) now (verdict_meta_printable v)) ∅ (r, n) (verdict_state v)
    empty_writable) as (_ & _ & Hb).
  { simpl. by rewrite verdict_terminal, Hpr, Hpn. }
  unfold resolve in *. destruct (@wo_put _ _ _ _ _ _ _) as [[] l']; simpl in *; [eauto|].
  exfalso. assert (false = true) by by apply Hb. done.
Qed.

(** ** Properties *)

(** C1: terminal compare-and-set.  In every ledger the operations can build
    (without a crash in the middle of a write), a (request, run) pair has at
    most one readable terminal entry.  Once a run has a terminal state, it is
    what the ledger reports after every further sequence of operations, with
    whatever texts in messages and events, unless a text with a line separator
    put a line that is a bare value into the log, on which every later read
    raises; and no other terminal event of the run is accepted.  A terminal
    event of a run without one is accepted and from then on its terminal
    state, when its text is one line that can be encoded: an entry with a line
    separator or a lone surrogate is lost ([separator_loses_terminal]) or
    refused. *)
Theorem terminal_cas l l' :
  rtc ledger_step ∅ l -> rtc ledger_step l l' ->
  forall r n, (length (terminals l r n) <= 1)%nat /\
    (forall t, get_terminal l r n = Ok (Some t) ->
      (get_terminal l' r n = Ok (Some t) \/ get_terminal l' r n = Raise no_object) /\
      forall ev meta now b l1, is_terminal ev = true -> record_event l r n ev meta now = Ok (b, l1) -> b = false) /\
    (forall ev meta now, validate_path_component (VStr r) = Ok tt -> is_terminal ev = true ->
      recordable (entry_of r n ev meta now) -> get_terminal l r n = Ok None ->
      exists l1, record_event l r n ev meta now = Ok (true, l1) /\ get_terminal l1 r n = Ok (Some ev)).
Proof.
  intros Hl Hl' r n. pose proof (reachable_intact _ Hl) as Hi. split; [|split].
  - cut (intact l /\ (length (terminals l r n) <= 1)%nat); [tauto|].
    clear l' Hl' Hi. revert l Hl. apply (rtc_ind_r (fun l => intact l /\ (length (terminals l r n) <= 1)%nat)).
    { split; [apply map_Forall_empty|]. unfold terminals, run_log, _read_all. rewrite lookup_empty. simpl. lia. }
    intros l1 l2 _ Hs [Hi Hlen]. split; [by eapply ledger_step_intact|].
    apply ledger_step_one_event in Hs as [->|(? & ? & ? & ? & ? & ? & ?)]; [done|]. by eapply terminals_record.
  - intros t. rewrite !get_terminal_spec. destruct (readable _); [|done]. intros [= Ht].
    split; [|intros ev meta now b l1 Hev [Hr _]%record_event_Ok].
    + destruct (readable _); [left; f_equal; by eapply steps_kept|by right].
    + apply record_locked_Ok in Hr as (? & ? & _ & _ & -> & _). rewrite bool_decide_eq_true_2; [done|].
      split; [done|]. unfold run_log. by rewrite Ht.
  - intros ev meta now Hr Hev Hrec. rewrite get_terminal_spec. destruct (readable _) eqn:Hrd; [|done]. intros [= Ht].
    destruct (record_locked_spec l r n ev meta now Hi Hrd) as (l1 & Hl1 & _ & Hrd1 & Hf).
    { unfold appended, run_log. by rewrite Hev, Ht. }
    exists l1. unfold record_event. rewrite Hr. cbn [res_bind]. rewrite Hl1, get_terminal_spec, Hrd1, Hrd.
    fold (run_log l1 r n) in *. rewrite Hf. unfold verdict_of. fold (run_log l r n) in Ht. rewrite Ht, Hev.
    rewrite bool_decide_eq_false_2 by (intros [_ []]; done). by rewrite bool_decide_eq_true_2.
Qed.

(** artifact verdicts refine the write-once register.  On a ledger
    without torn lines and bare values, [record_artifact_verdict] with a path-safe
    request id and printable names is the interface's [resolve]: the state it reports is the run's terminal
    state afterwards, it claims the write exactly when the run had none, and
    every later verdict reports that same state without claiming it. *)
Theorem artifact_verdict_once l r n v now :
  intact l -> (forall r, readable (_read_all l r) = true) -> validate_path_component (VStr r) = Ok tt ->
  printable r -> printable n ->
  exists t b l', record_artifact_verdict l r n v now = Ok ((t, b), l') /\
    get_terminal l' r n = Ok (Some t) /\ (b = true <-> get_terminal l r n = Ok None) /\
    forall v' now', exists l'',
      record_artifact_verdict l' r n v' now' = Ok ((t, false), l'') /\ get_terminal l'' r n = Ok (Some t).
Proof.
  intros Hi Hrd Hr Hpr Hpn.
  assert (Hval : forall v, is_terminal (verdict_state v) && all_chars (between 32 126) (r, n).1 &&
      all_chars (between 32 126) (r, n).2 = true) by by intros; simpl; rewrite verdict_terminal, Hpr, Hpn.
  assert (Hget : forall l r n, (forall r, readable (_read_all l r) = true) -> get_terminal l r n = Ok (ledger_get l (r, n))).
  { intros l0 r0 n0 H. unfold ledger_get. simpl. by rewrite get_terminal_spec, H. }
  pose proof (@resolve_reports _ _ _ _ (ledger_once_laws (verdict_meta v) now (verdict_meta_printable v))
    l (r, n) (verdict_state v) (conj Hi Hrd) (Hval v)) as (Hg & [Hi' Hrd'] & Hb).
  rewrite verdict_resolve by done. destruct (resolve l (r, n) (verdict_state v)) as [[t b] l'] eqn:E. simpl in *.
  exists t, b, l'. rewrite !Hget by done. split; [done|]. split; [by f_equal|]. split; [rewrite Hb; split; [by intros ->|by intros [= ->]]|].
  intros v' now'.
  pose proof (@resolve_stable _ _ _ _ (ledger_once_laws (verdict_meta v') now' (verdict_meta_printable v'))
    l' (r, n) (verdict_state v') t (conj Hi' Hrd') (Hval v') Hg) as [H1 H2].
  pose proof (@resolve_reports _ _ _ _ (ledger_once_laws (verdict_meta v') now' (verdict_meta_printable v'))
    l' (r, n) (verdict_state v') (conj Hi' Hrd') (Hval v')) as (_ & [_ Hrd''] & _).
  rewrite verdict_resolve by done. destruct (resolve l' (r, n) (verdict_state v')) as [x l'']. simpl in *. subst x.
  exists l''. split; [done|]. rewrite Hget by done. by f_equal.
Qed.

Lemma artifact_verdict_once_witness :
  (intact ∅ /\ validate_path_component (VStr "req-1") = Ok tt) /\
  exists t b l', record_artifact_verdict ∅ "req-1" "run-1" false 7 = Ok ((t, b), l') /\
    get_terminal l' "req-1" "run-1" = Ok (Some t) /\ (b = true <-> get_terminal ∅ "req-1" "run-1" = Ok None) /\
    forall v' now', exists l'',
      record_artifact_verdict l' "req-1" "run-1" v' now' = Ok ((t, false), l'') /\
      get_terminal l'' "req-1" "run-1" = Ok (Some t).
Proof.
  assert (Hr : validate_path_component (VStr "req-1") = Ok tt) by (vm_compute; reflexivity).
  split; [split; [apply map_Forall_empty|exact Hr]|].
  apply (artifact_verdict_once ∅ "req-1" "run-1" false 7 (map_Forall_empty _) (proj2 empty_writable) Hr eq_refl eq_refl).
Defined.

(** A report for run "run-1" of request "req-1". *)
Definition sample_report : pydict :=
  [("kind", VStr "REPORT"); ("request_id", VStr "req-1"); ("run_id", VStr "run-1");
   ("msg_id", VStr "m9"); ("from", VStr "w1")].

(** A ledger in which the artifact check has already closed the run. *)
Definition blocked_ledger : ledger :=
  match record_artifact_verdict ∅ "req-1" "run-1" false 7 with Ok (_, l) => l | Raise _ => ∅ end.

Lemma terminal_cas_witness :
  let l' := match apply_message blocked_ledger sample_report 8 with Ok (_, l) => l | _ => ∅ end in
  (rtc ledger_step ∅ blocked_ledger /\ rtc ledger_step blocked_ledger l') /\
  (get_terminal l' "req-1" "run-1" = Ok (Some "BLOCKED") \/ get_terminal l' "req-1" "run-1" = Raise no_object) /\
  (length (terminals blocked_ledger "req-1" "run-1") <= 1)%nat /\
  exists l1, record_event blocked_ledger "req-1" "run-2" "DONE" [] 9 = Ok (true, l1) /\
    get_terminal l1 "req-1" "run-2" = Ok (Some "DONE").
Proof.
  intros l'.
  assert (H1 : rtc ledger_step ∅ blocked_ledger).
  { apply rtc_once. eapply (step_verdict _ _ "req-1" "run-1" false 7). vm_compute. reflexivity. }
  assert (H2 : rtc ledger_step blocked_ledger l').
  { apply rtc_once. eapply (step_apply _ _ sample_report 8). vm_compute. reflexivity. }
  split; [split; [exact H1|exact H2]|].
  destruct (terminal_cas _ _ H1 H2 "req-1" "run-1") as (Ha & Hb & _).
  destruct (terminal_cas _ _ H1 H2 "req-1" "run-2") as (_ & _ & Hc).
  split; [|split; [exact Ha|]].
  - apply Hb. vm_compute. reflexivity.
  - apply Hc; [vm_compute; reflexivity|reflexivity|apply printable_recordable; [reflexivity..|constructor]|vm_compute; reflexivity].
Defined.

(** what a message does to the request states.  A message never changes
    the terminal state of a run that has one, and only a REPORT gives one, the
    state DONE of its own run.  The name a REPORT gets back is "DONE" in every
    case, also when the run was already closed with another state and only a
    conflict entry was written. *)
Theorem apply_message_terminal l msg now name l' :
  intact l -> apply_message l msg now = Ok (name, l') ->
  (forall r n t, get_terminal l r n = Ok (Some t) ->
     get_terminal l' r n = Ok (Some t) \/ get_terminal l' r n = Raise no_object) /\
  (forall r n t, get_terminal l r n = Ok None -> get_terminal l' r n = Ok (Some t) ->
     t = "DONE" /\ dstr msg "kind" = "REPORT" /\ dstr msg "request_id" = r /\ dstr msg "run_id" = n) /\
  (dstr msg "kind" = "REPORT" -> dstr msg "request_id" <> "" -> dstr msg "run_id" <> "" -> name = "DONE").
Proof.
  intros Hi Ha. pose proof (apply_message_event _ _ _ _ _ Ha) as He. split; [|split].
  - intros r n t. rewrite !get_terminal_spec. destruct (readable (_read_all l r)); [|done]. intros [= Ht].
    destruct (readable _) eqn:Hrd; [left|by right]. f_equal. destruct He as [->|(ev & meta & b & H & _)]; [done|].
    by eapply terminal_kept.
  - intros r n t. rewrite !get_terminal_spec. destruct (readable (_read_all l r)); [|done]. intros [= Ht].
    destruct (readable _) eqn:Hrd; [|done]. intros [= Ht']. fold (run_log l r n) in Ht. fold (run_log l' r n) in Ht'.
    destruct He as [->|(ev & meta & b & H & Hev)]; [congruence|].
    rewrite (run_log_record _ _ _ _ _ _ _ _ r n Hi H) in Ht'.
    destruct (decide _) as [[-> ->]|]; [|rewrite app_nil_r in Ht'; congruence].
    destruct (one_line _); [|rewrite app_nil_r in Ht'; congruence].
    rewrite first_terminal_app in Ht'. unfold verdict_of in Ht'. rewrite Ht in Ht'. simpl in Ht'.
    apply record_locked_Ok in H as (ev' & meta' & _ & Hap & _ & _). unfold appended in *. rewrite Ht in Ht'.
    replace (if is_terminal ev then None else None) with (@None string) in Ht' by by destruct (is_terminal ev).
    simpl in Ht'. destruct (is_terminal ev); [|done]. destruct Hev as [Hk ->]; [done|]. naive_solver.
  - intros Hk Hr Hn. revert Ha. unfold apply_message. rewrite Hk. apply String.eqb_neq in Hr, Hn. rewrite Hr, Hn. simpl.
    by intros (x & _ & [= <- _])%res_bind_Ok.
Qed.

Lemma apply_message_terminal_witness :
  let l' := match apply_message blocked_ledger sample_report 8 with Ok (_, l) => l | _ => ∅ end in
  (intact blocked_ledger /\ apply_message blocked_ledger sample_report 8 = Ok ("DONE", l') /\
   get_terminal l' "req-1" "run-1" = Ok (Some "BLOCKED")) /\
  (get_terminal l' "req-1" "run-1" = Ok (Some "BLOCKED") \/ get_terminal l' "req-1" "run-1" = Raise no_object) /\
  "DONE" = "DONE".
Proof.
  intros l'.
  assert (Hi : intact blocked_ledger) by (refine (bool_decide_unpack _ _); vm_compute; exact I).
  assert (Ha : apply_message blocked_ledger sample_report 8 = Ok ("DONE", l')) by (vm_compute; reflexivity).
  split; [split; [exact Hi|split; [exact Ha|vm_compute; reflexivity]]|].
  destruct (apply_message_terminal _ _ _ _ _ Hi Ha) as (H1 & _ & H3).
  split; [apply H1; vm_compute; reflexivity|apply H3; [reflexivity|discriminate|discriminate]].
Defined.

(** *** Stale requests *)
(** Every line of the log of a request is an entry. *)
Definition whole (l : ledger) : Prop := forall r, exists es, _read_all l r = map Entry es.
Lemma whole_spec l r es : _read_all l r = map Entry es ->
  readable (_read_all l r) = true /\ forall n, run_log l r n = filter (fun e => e_run e = n) es.
Proof.
  intros H. unfold run_log. rewrite H. clear H. split; [by induction es|]. intros n.
  induction es as [|e es IH]; [done|]. simpl. rewrite IH, filter_cons.
  by destruct (String.eqb_spec (e_run e) n), (decide (e_run e = n)).
Qed.
Definition grouped (es : list entry) (acc : list (string * list (option entry))) :=
  foldl (fun acc e => add_run acc (e_run e) (Some e)) acc es.
Lemma group_entries es acc : group_by_run (map Entry es) acc = Ok (grouped es acc).
Proof. revert acc. induction es; simpl; auto. Qed.
Lemma grouped_wf es acc : dict_wf acc -> dict_wf (grouped es acc).
Proof. revert acc. induction es; simpl; unfold add_run; auto with s2p. Qed.
Lemma dget_grouped es acc n :
  dget (grouped es acc) n =
  match filter (fun e => e_run e = n) es with
  | [] => dget acc n
  | new => Some (default [] (dget acc n) ++ map Some new)
  end.
Proof.
  revert acc. induction es as [|e es IH]; intros acc; simpl; [done|].
  rewrite IH. unfold add_run. rewrite dget_dset. destruct (decide (e_run e = n)) as [<-|Hne].
  - rewrite filter_cons_True by done. destruct (filter _ es); [done|]. simpl. by rewrite <- app_assoc.
  - by rewrite filter_cons_False.
Qed.
Lemma any_terminal_spec es : any_terminal (map Some es) = Ok (bool_decide (first_terminal es <> None)).
Proof.
  unfold first_terminal. induction es as [|e es IH]; [done|]. simpl. destruct (is_terminal (e_event e)); [done|exact IH].
Qed.
Lemma first_acked_spec now sla es : first_acked now sla (map Some es) = Ok (e_ts <$> List.find (acked_before now sla) es).
Proof. induction es as [|e es IH]; [done|]. simpl. by destruct (acked_before now sla e). Qed.
Lemma stale_run_spec now sla r n es : exists out, stale_run now sla r (n, map Some es) = Ok out /\
  forall x, x ∈ out <-> exists ts, x = (r, n, ts) /\ first_terminal es = None /\
    e_ts <$> List.find (acked_before now sla) es = Some ts.
Proof.
  unfold stale_run. simpl. rewrite any_terminal_spec. cbn [res_bind]. case_bool_decide as Ht.
  - exists []. split; [done|]. set_solver.
  - rewrite first_acked_spec. cbn [res_bind]. eexists. split; [done|]. 
    destruct (e_ts <$> _); set_solver.
Qed.
Lemma collect_spec {A B} (f : A -> res (list B)) (P : A -> B -> Prop) (l : list A) :
  (forall a, a ∈ l -> exists out, f a = Ok out /\ forall b, b ∈ out <-> P a b) ->
  exists out, collect f l = Ok out /\ forall b, b ∈ out <-> exists a, a ∈ l /\ P a b.
Proof.
  induction l as [|a l IH]; intros Hf; [exists []; set_solver|].
  destruct (Hf a) as (o1 & H1 & E1); [set_solver|]. destruct IH as (o2 & H2 & E2); [set_solver|].
  simpl. rewrite H1. cbn [res_bind]. rewrite H2. cbn [res_bind]. exists (o1 ++ o2). split; [done|].
  intros b. rewrite elem_of_app, E1, E2. set_solver.
Qed.

(** [find_stale] reports, when every line of the logs is an entry, exactly the runs that were acknowledged more than
    [sla] ago and have no terminal state, each with the time of the first
    acknowledgement that old; in particular a run with a terminal state is
    never reported. *)
Theorem find_stale_spec l now sla : whole l -> exists out, find_stale l now sla = Ok out /\
  forall r n ts, (r, n, ts) ∈ out <-> get_terminal l r n = Ok None /\
    e_ts <$> List.find (acked_before now sla) (run_log l r n) = Some ts.
Proof.
  intros Hw. unfold find_stale.
  pose (P r x := exists n ts, x = (r, n, ts) /\ first_terminal (run_log l r n) = None /\
    e_ts <$> List.find (acked_before now sla) (run_log l r n) = Some ts).
  destruct (collect_spec (stale_request l now sla) P (sort_strs (elements (dom l)))) as (out & Hc & Hout).
  - intros r _. destruct (Hw r) as [es Hes]. destruct (whole_spec _ _ _ Hes) as [_ Hlog].
    unfold stale_request, _read_entries_all_runs. rewrite Hes, group_entries. cbn [res_bind].
    assert (Hruns : forall n xs, (n, xs) ∈ grouped es [] <-> xs = map Some (run_log l r n) /\ xs <> []).
    { intros n xs. rewrite dget_elem_of by (apply grouped_wf, NoDup_nil_2). rewrite dget_grouped, Hlog. simpl.
      destruct (filter _ es); naive_solver. }
    destruct (collect_spec (stale_run now sla r) (fun run x => exists ts, x = (r, run.1, ts) /\
      first_terminal (run_log l r run.1) = None /\
      e_ts <$> List.find (acked_before now sla) (run_log l r run.1) = Some ts) (grouped es [])) as (o & Ho & Hel).
    + intros [n xs] [-> _]%Hruns. apply stale_run_spec.
    + exists o. split; [done|]. intros x. rewrite Hel. unfold P. split.
      * intros ([n xs] & _ & ts & H). by exists n, ts.
      * intros (n & ts & -> & Ht & Hf). exists (n, map Some (run_log l r n)). split; [|by exists ts].
        apply Hruns. split; [done|]. by destruct (run_log l r n).
  - exists out. split; [done|]. intros r n ts. rewrite Hout, get_terminal_spec. destruct (Hw r) as [es Hes].
    destruct (whole_spec _ _ _ Hes) as [-> _]. fold (run_log l r n). unfold P. split.
    + intros (r' & _ & n' & ts' & [= -> -> ->] & -> & Hf). done.
    + intros [[= Ht] Hf]. exists r. split; [|by exists n, ts]. apply elem_of_sort_strs, elem_of_elements, elem_of_dom.
      unfold run_log, _read_all in Hf. by destruct (l !! r).
Qed.
Lemma find_stale_spec_witness :
  whole blocked_ledger /\ exists out, find_stale blocked_ledger 900 300 = Ok out /\
  forall r n ts, (r, n, ts) ∈ out <-> get_terminal blocked_ledger r n = Ok None /\
    e_ts <$> List.find (acked_before 900 300) (run_log blocked_ledger r n) = Some ts.
Proof.
  assert (H : whole blocked_ledger).
  { intros r. unfold _read_all. destruct (blocked_ledger !! r) as [f|] eqn:E; [|by exists []].
    assert (Hf : map_Forall (fun _ f => Forall (fun x => match x with Entry _ => True | _ => False end) (file_lines f))
      blocked_ledger).
    { refine (map_Forall_insert_2 _ ∅ "req-1" _ _ (map_Forall_empty _)). vm_compute. repeat constructor. }
    specialize (Hf r f E). simpl in Hf. clear E. induction Hf as [|x xs Hx Hxs [es IH]]; [by exists []|].
    destruct x as [e| | |]; try done. exists (e :: es). simpl. by f_equal. }
  split; [exact H|exact (find_stale_spec blocked_ledger 900 300 H)].
Defined.

(** *** Lost and unreadable entries *)
Lemma record_fresh l r n ev meta now l' : validate_path_component (VStr r) = Ok tt -> get_terminal l r n = Ok None ->
  _append l r n ev meta now = Ok l' -> record_event l r n ev meta now = Ok (true, l').
Proof.
  intros Hr Hg Ha. unfold record_event. rewrite Hr. cbn [res_bind]. unfold record_locked.
  destruct (is_terminal ev); rewrite ?Hg; cbn [res_bind]; by rewrite Ha.
Qed.

(** a torn line swallows the next event.  When a crash left the file of a
    request without a final newline, the next terminal event is written behind
    the torn text: [record_event] reports it accepted, but no reader finds it,
    and a second, different terminal state is then accepted as well. *)
Theorem torn_tail_loses_terminal l r n f x ev ev' meta meta' now now' :
  validate_path_component (VStr r) = Ok tt ->
  l !! r = Some f -> tail f = Some x -> get_terminal l r n = Ok None ->
  is_terminal ev' = true ->
  recordable (entry_of r n ev meta now) -> recordable (entry_of r n ev' meta' now') ->
  exists l1 l2, record_event l r n ev meta now = Ok (true, l1) /\
    get_terminal l1 r n = Ok None /\
    record_event l1 r n ev' meta' now' = Ok (true, l2) /\ get_terminal l2 r n = Ok (Some ev').
Proof.
  intros Hr Hf Hx Hg Hev' [Hu Hw] [Hu' Hw'].
  destruct (append_total l _ _ _ _ _ Hu) as [l1 Ha1]. destruct (append_total l1 _ _ _ _ _ Hu') as [l2 Ha2].
  exists l1, l2. pose proof Ha1 as [_ Hl1]%append_Ok. pose proof Ha2 as [_ Hl2]%append_Ok.
  rewrite Hf in Hl1. simpl in Hl1. rewrite Hl1, lookup_insert_eq in Hl2. simpl in Hl2.
  assert (Hfile : file_lines (file_append f (entry_of r n ev meta now)) = filter (fun x => x <> Junk) (lines f)).
  { unfold file_lines, file_append. simpl. rewrite Hx, Hw, app_nil_r, filter_app. simpl. by rewrite app_nil_r. }
  assert (Hin : readable (file_lines f) = true /\ first_terminal (entries_of n (file_lines f)) = None).
  { revert Hg. rewrite get_terminal_spec. unfold _read_all. rewrite Hf. destruct (readable _); [|done]. by intros [= ->]. }
  assert (Hlines : readable (filter (fun x => x <> Junk) (lines f)) = true /\
    first_terminal (entries_of n (filter (fun x => x <> Junk) (lines f))) = None).
  { revert Hin. unfold file_lines. rewrite filter_app, readable_app, entries_app. unfold first_terminal.
    rewrite find_app. intros [[-> _]%andb_prop Ht]. split; [done|]. by destruct (List.find _ (entries_of n _)). }
  destruct Hlines as [Hrd Ht].
  assert (Hg1 : get_terminal l1 r n = Ok None).
  { rewrite get_terminal_spec. unfold _read_all. rewrite Hl1, lookup_insert_eq, Hfile, Hrd. by rewrite Ht. }
  split; [by apply record_fresh|]. split; [done|]. split; [by apply record_fresh|].
  rewrite get_terminal_spec. unfold _read_all. rewrite Hl2, lookup_insert_eq, file_lines_append by done.
  rewrite Hfile, readable_app, Hrd, entries_app, Hw', filter_cons_True, filter_nil by done. simpl.
  rewrite String.eqb_refl, first_terminal_app. unfold verdict_of. rewrite Ht. simpl. by rewrite Hev'.
Qed.

(** A request whose log was cut in the middle of a line. *)
Definition torn_ledger : ledger := {[ "req-1" := {| lines := []; tail := Some Junk |} ]}.

Lemma torn_tail_loses_terminal_witness :
  validate_path_component (VStr "req-1") = Ok tt /\
  exists l1 l2, record_event torn_ledger "req-1" "run-1" "DONE" [] 1 = Ok (true, l1) /\
    get_terminal l1 "req-1" "run-1" = Ok None /\
    record_event l1 "req-1" "run-1" "BLOCKED" [] 2 = Ok (true, l2) /\
    get_terminal l2 "req-1" "run-1" = Ok (Some "BLOCKED").
Proof.
  assert (Hr : validate_path_component (VStr "req-1") = Ok tt) by (vm_compute; reflexivity).
  split; [exact Hr|].
  apply (torn_tail_loses_terminal torn_ledger "req-1" "run-1" _ Junk "DONE" "BLOCKED" [] [] 1 2 Hr
           (lookup_singleton_eq _ _)); try (vm_compute; reflexivity); apply printable_recordable; (reflexivity || constructor).
Defined.

(** A line separator in a text loses the entry.  An entry whose text holds
    U+0085, U+2028 or U+2029 is written as one line and read as several:
    [record_event] reports the terminal event accepted, no reader finds it,
    and a second, different terminal state is accepted as well, also in
    ledgers without any crash. *)
Theorem separator_loses_terminal l r n ev ev' meta meta' now now' :
  intact l -> validate_path_component (VStr r) = Ok tt -> get_terminal l r n = Ok None ->
  is_terminal ev' = true ->
  let e := entry_of r n ev meta now in
  utf8_valid (entry_text e) = true -> one_line e = false -> readable (written e) = true ->
  recordable (entry_of r n ev' meta' now') ->
  exists l1 l2, record_event l r n ev meta now = Ok (true, l1) /\ get_terminal l1 r n = Ok None /\
    record_event l1 r n ev' meta' now' = Ok (true, l2) /\ get_terminal l2 r n = Ok (Some ev').
Proof.
  intros Hi Hr Hg Hev' e Hu He Hrd Hrec. pose proof Hrec as [Hu' _].
  destruct (append_total l _ _ _ _ _ Hu) as [l1 Ha1]. destruct (append_total l1 _ _ _ _ _ Hu') as [l2 Ha2].
  pose proof (intact_append _ _ _ _ _ _ _ Hi Ha1) as Hi1.
  assert (Hfil : forall xs, readable xs = true -> readable (filter (fun x => x <> Junk) xs) = true).
  { induction xs as [|x xs IH]; [done|]. intros [Hx Hxs]%andb_prop. rewrite filter_cons.
    destruct (decide _); [simpl; rewrite Hx; by apply IH|by apply IH]. }
  assert (Hg1 : get_terminal l1 r n = Ok None).
  { revert Hg. rewrite !get_terminal_spec. fold (run_log l r n) (run_log l1 r n).
    rewrite (read_all_append _ _ _ _ _ _ _ r Hi Ha1), (run_log_append _ _ _ _ _ _ _ r n Hi Ha1).
    rewrite !decide_True by done. fold e. rewrite He, app_nil_r, readable_app, (Hfil _ Hrd).
    by destruct (readable (_read_all l r)). }
  exists l1, l2. split; [by apply record_fresh|]. split; [done|]. split; [by apply record_fresh|].
  revert Hg1. rewrite !get_terminal_spec. fold (run_log l1 r n) (run_log l2 r n).
  rewrite (readable_append_one _ _ _ _ _ _ _ r Hi1 Ha2 Hrec), (run_log_append _ _ _ _ _ _ _ r n Hi1 Ha2).
  rewrite decide_True, (recordable_one_line _ Hrec) by done. destruct (readable (_read_all l1 r)); [|done]. intros [= Ht].
  rewrite first_terminal_app. unfold verdict_of. rewrite Ht. simpl. by rewrite Hev'.
Qed.

(** The text of U+2028, and a source that holds it. *)
Definition LINE_SEPARATOR : string := String "226" (String "128" (String "168" "")).
Lemma separator_loses_terminal_witness :
  let meta := [("source", VStr ("a" +:+ LINE_SEPARATOR +:+ "b"))] in
  validate_path_component (VStr "req-1") = Ok tt /\
  exists l1 l2, record_event ∅ "req-1" "run-1" "DONE" meta 1 = Ok (true, l1) /\
    get_terminal l1 "req-1" "run-1" = Ok None /\
    record_event l1 "req-1" "run-1" "BLOCKED" [] 2 = Ok (true, l2) /\
    get_terminal l2 "req-1" "run-1" = Ok (Some "BLOCKED").
Proof.
  assert (Hr : validate_path_component (VStr "req-1") = Ok tt) by (vm_compute; reflexivity).
  split; [exact Hr|].
  apply (separator_loses_terminal ∅ "req-1" "run-1" "DONE" "BLOCKED" _ [] 1 2 (map_Forall_empty _) Hr);
    try (vm_compute; reflexivity). apply printable_recordable; (reflexivity || constructor).
Defined.

(** A bare value in the log stops the request.  When a piece of an entry is a
    JSON value that is no object, every later read of the request, and every
    later terminal event of any of its runs, raises. *)
Theorem bare_value_blocks l l' r n ev meta now :
  intact l -> rtc ledger_step l l' -> readable (_read_all l r) = false ->
  validate_path_component (VStr r) = Ok tt -> is_terminal ev = true ->
  get_terminal l' r n = Raise no_object /\ record_event l' r n ev meta now = Raise no_object.
Proof.
  intros Hi Hl Hrd Hr Hev.
  assert (Hrd' : readable (_read_all l' r) = false).
  { cut (intact l' /\ readable (_read_all l' r) = false); [tauto|]. revert l' Hl.
    apply (rtc_ind_r (fun l' => intact l' /\ readable (_read_all l' r) = false)); [done|].
    intros l1 l2 _ Hs [Hi1 Hg]. split; [by eapply ledger_step_intact|].
    apply ledger_step_one_event in Hs as [->|(? & ? & ? & ? & ? & ? & H)]; [done|].
    apply not_true_is_false. intros H2. rewrite (readable_record _ _ _ _ _ _ _ _ r Hi1 H H2) in Hg. done. }
  assert (Hg : get_terminal l' r n = Raise no_object) by by rewrite get_terminal_spec, Hrd'.
  split; [done|]. unfold record_event, record_locked. rewrite Hr. cbn [res_bind]. by rewrite Hev, Hg.
Qed.

(** A run named after a number between two separators. *)
Definition bare_run : string := "run-1" +:+ LINE_SEPARATOR +:+ "7" +:+ LINE_SEPARATOR.
Definition bare_ledger : ledger :=
  match record_artifact_verdict ∅ "req-1" bare_run true 7 with Ok (_, l) => l | Raise _ => ∅ end.
Lemma bare_value_blocks_witness :
  rtc ledger_step ∅ bare_ledger /\ get_terminal bare_ledger "req-1" "run-2" = Raise no_object /\
  record_event bare_ledger "req-1" "run-2" "DONE" [] 8 = Raise no_object.
Proof.
  split.
  - apply rtc_once. eapply (step_verdict _ _ "req-1" bare_run true 7). vm_compute. reflexivity.
  - apply (bare_value_blocks bare_ledger bare_ledger "req-1" "run-2" "DONE" [] 8); try (vm_compute; reflexivity).
    + refine (bool_decide_unpack _ _); vm_compute; exact I.
    + constructor.
Defined.
