(* ===== verification/MailboxStore.v ===== *)
(** * Mailbox store: sessions, sending, history
      (MailboxStore in src/src/codeagent/mailbox/store.py)

    The state of one session directory and the operations that create it,
    write messages into inboxes and append the canonical history.  A
    directory maps file stems to files; a file is its parsed JSON ([None]
    when it does not parse) and its modification time.  A write to a
    temporary file followed by [os.replace] is one step, except in the
    history, where the temporary file is created exclusively and a crash may
    leave it behind.  The park leases are in ParkRegistry.v and claims in
    MailboxClaims.v. *)
From S2P Require Import Prelude MailboxProtocol.

(** ** Constants *)
Definition MAX_MAILBOX_BODY : Z := 100000.
Definition MAX_ATTACHMENT_SIZE : Z := 100000.
Definition SEQ_WIDTH : nat := 6.
Definition STREAM_CURSOR_INITIAL : string := "0".

(** ** Data *)
Record file := { content : option pyval; mtime : Z }.
Abbreviation dir := (gmap string file).

(** A claim file: the fields of its JSON object; [c_at] is the instant the
    string [claimed_at] denotes, [None] when it is missing or unparsable. *)
Record claim := { c_owner : option string; c_at : option Z; c_msg_id : option string }.

(** The directory of an agent.  [claims] are the files
    [.claim-<msg>-<owner>.json] of processing/, by [<msg>-<owner>], and
    [tmp_claims] the [.tmp-claim-*.json] files with their age. *)
Record agent := {
  inbox : dir; processing : dir; archive : dir; corrupt : dir;
  claims : gmap string (option claim); tmp_claims : gmap string Z }.
Definition empty_agent : agent :=
  {| inbox := ∅; processing := ∅; archive := ∅; corrupt := ∅; claims := ∅; tmp_claims := ∅ |}.

(** session.json.  [m_created] is the instant [created_at] denotes. *)
Record session_meta := {
  m_manager : string; m_agents : list string; m_revision : Z; m_created : option Z;
  m_acl : option pyval;
  m_execution_modes : option (list (string * string));
  m_return_modes : option (list (string * string)) }.

(** A session directory.  [meta] is what [read_session] returns: [None] when
    session.json is missing or corrupt. *)
Record session := {
  present : bool; meta : option session_meta; history : dir;
  cursor : option (Z * Z); agents : gmap string agent }.
Definition empty_session : session :=
  {| present := false; meta := None; history := ∅; cursor := None; agents := ∅ |}.

Definition set_meta (m : session_meta) (s : session) : session :=
  {| present := present s; meta := Some m; history := history s; cursor := cursor s;
     agents := agents s |}.
Definition set_history (h : dir) (s : session) : session :=
  {| present := present s; meta := meta s; history := h; cursor := cursor s;
     agents := agents s |}.
Definition set_agents (a : gmap string agent) (s : session) : session :=
  {| present := present s; meta := meta s; history := history s; cursor := cursor s;
     agents := a |}.
Definition set_cursor (c : Z * Z) (s : session) : session :=
  {| present := true; meta := meta s; history := history s; cursor := Some c;
     agents := agents s |}.
Definition set_present (s : session) : session :=
  {| present := true; meta := meta s; history := history s; cursor := cursor s;
     agents := agents s |}.
Definition set_inbox (d : dir) (a : agent) : agent :=
  {| inbox := d; processing := processing a; archive := archive a; corrupt := corrupt a;
     claims := claims a; tmp_claims := tmp_claims a |}.

(** ** Directories *)
Definition visible (stem : string) : bool :=
  negb (String.prefix ".sync-conflict-" stem || String.prefix ".tmp-" stem).
Definition older (a b : string * file) : Prop := mtime a.2 <= mtime b.2.
#[export] Instance older_dec a b : Decision (older a b).
Proof. unfold older. apply _. Defined.
#[export] Instance older_total : Total older.
Proof. intros a b. unfold older. lia. Qed.
#[export] Instance older_trans : Transitive older.
Proof. intros a b c. unfold older. lia. Qed.

(** Oldest first; files of the same age in the order of the directory. *)
Definition list_messages (d : dir) : list (string * file) :=
  merge_sort older (filter (fun x => visible x.1 = true) (map_to_list d)).

(** ** Sessions *)
Definition _ensure_agent_dirs (aid : string) : st session unit :=
  modify (fun s => set_agents (match agents s !! aid with
                               | Some _ => agents s
                               | None => <[aid := empty_agent]> (agents s)
                               end) s).

Definition is_none {A} (o : option A) : bool := match o with None => true | Some _ => false end.

(** [existing[k] = {**existing.get(k, {}), **modes}] when [modes] is given. *)
Definition merge_modes (old modes : option (list (string * string))) :
    option (list (string * string)) :=
  match modes with
  | None => old
  | Some ms => Some (dupdate (default [] old) ms)
  end.

(** The merge of new agents into an existing session. *)
Definition merge_session (session_id manager_id : string) (agent_ids : list string)
    (acl : option pyval) (execution_modes return_modes : option (list (string * string)))
    (m : session_meta) : st session string :=
  let old_manager := m_manager m in
  _ ← ensure (String.eqb old_manager "" || String.eqb old_manager manager_id)
        (ValueError "session already has manager");
  let old_agents := m_agents m in
  let new_agents := sorted_set agent_ids in
  let merged := sorted_set (old_agents ++ new_agents) in
  let added := filter (fun a => a ∉ old_agents) new_agents in
  let revision := m_revision m + 1 in
  if bool_decide (added = []) && is_none acl && is_none execution_modes && is_none return_modes
  then mret ("session " +:+ session_id +:+ " ok (merged 0 agents)")
  else
    _ ← st_iter _ensure_agent_dirs added;
    _ ← modify (set_meta
          {| m_manager := old_manager; m_agents := merged; m_revision := revision;
             m_created := m_created m;
             m_acl := match acl with Some a => Some a | None => m_acl m end;
             m_execution_modes := merge_modes (m_execution_modes m) execution_modes;
             m_return_modes := merge_modes (m_return_modes m) return_modes |});
    mret (if bool_decide (added = []) then "session " +:+ session_id +:+ " ok (acl updated)"
          else "session " +:+ session_id +:+ " ok (merged " +:+ pretty (length added)
               +:+ " agents)").

(** The creation of a session; the text omits the agents that the code lists
    after the manager. *)
Definition create_session (session_id manager_id : string) (agent_ids : list string)
    (acl : option pyval) (execution_modes return_modes : option (list (string * string)))
    (now : Z) : st session string :=
  _ ← modify (set_meta
        {| m_manager := manager_id; m_agents := sorted_set agent_ids; m_revision := 1;
           m_created := Some (to_second now); m_acl := acl;
           m_execution_modes := execution_modes; m_return_modes := return_modes |});
  _ ← st_iter _ensure_agent_dirs (sorted_set agent_ids);
  _ ← _ensure_agent_dirs manager_id;
  mret ("session " +:+ session_id +:+ " created: manager=" +:+ manager_id).

Definition session_init (session_id manager_id : string) (agent_ids : list string)
    (acl : option pyval) (execution_modes return_modes : option (list (string * string)))
    (now : Z) : st session string :=
  _ ← lift (validate_agent_id session_id);
  _ ← lift (validate_agent_id manager_id);
  _ ← lift (res_iter validate_agent_id agent_ids);
  _ ← modify set_present;
  existing ← gets meta;
  match existing with
  | Some m => merge_session session_id manager_id agent_ids acl execution_modes return_modes m
  | None => create_session session_id manager_id agent_ids acl execution_modes return_modes now
  end.

(** [{meta.get("manager", "")} | set(meta.get("agents", []))] *)
Definition roster (m : session_meta) : list string := m_manager m :: m_agents m.

(** ** Stream cursor *)
Definition cursor_text (c : Z * Z) : string := pretty c.1 +:+ "/" +:+ pad0 SEQ_WIDTH c.2.
Definition next_cursor (now : Z) (prev : option (Z * Z)) : Z * Z :=
  let p := default (0, 0) prev in
  (now, if now =? p.1 then p.2 + 1 else 0).

Definition advance_cursor (session_id : string) (now : Z) : st session string :=
  _ ← lift (validate_agent_id session_id);
  c ← gets (fun s => next_cursor now (cursor s));
  _ ← modify (set_cursor c);
  mret (cursor_text c).

Definition read_cursor (s : session) (session_id : string) : res string :=
  do _ <- validate_agent_id session_id;
  Ok (match cursor s with None => STREAM_CURSOR_INITIAL | Some c => cursor_text c end).

(** ** Canonical history *)

(** The class [[a-zA-Z0-9][a-zA-Z0-9_.-]{0,63}], matched in full. *)
Definition _validate_msg_id (msg_id : string) : res unit :=
  guard head_class is_alnum id_char 63 msg_id orelse ValueError "invalid msg_id"; Ok tt.

Definition valid_or_raise (what : string) (r : res verdict) : res unit :=
  do v <- r;
  match v with Valid => Ok tt | Invalid _ => Raise (ValueError what) end.

Definition tmp_name (id : string) : string := ".tmp-" +:+ id.

(** [append_history] as the sequence of its steps: the checks, the exclusive
    creation of the temporary file and its publication by [os.replace]. *)
Definition history_check (session_id : string) (message : pydict) : st session unit :=
  _ ← lift (validate_agent_id session_id);
  there ← gets present;
  _ ← ensure there (ValueError "session not found");
  _ ← lift (valid_or_raise "history validation failed"
              (validate_message (VDict message) (Some session_id) None None));
  _ ← lift (_validate_msg_id (dstr message "msg_id"));
  h ← gets history;
  ensure (bool_decide (h !! dstr message "msg_id" = None))
    (ValueError "history entry already exists").
Definition history_create (message : pydict) (now : Z) : st session unit :=
  let tmp := tmp_name (dstr message "msg_id") in
  h ← gets history;
  _ ← ensure (bool_decide (h !! tmp = None)) (ValueError "history entry already exists");
  modify (set_history (<[tmp := {| content := Some (VDict message); mtime := now |}]> h)).
Definition history_publish (message : pydict) : st session unit :=
  let id := dstr message "msg_id" in
  h ← gets history;
  match h !! tmp_name id with
  | Some f => modify (set_history (<[id := f]> (delete (tmp_name id) h)))
  | None => raise (OSError "no such file")
  end.
Definition history_steps (session_id : string) (message : pydict) (now : Z) :
    list (st session unit) :=
  [history_check session_id message; history_create message now; history_publish message].

Definition run_steps {T} (l : list (st T unit)) : st T unit := st_iter (fun x => x) l.

Definition append_history (session_id : string) (message : pydict) (now : Z) :
    st session string :=
  _ ← run_steps (history_steps session_id message now);
  mret ("history: " +:+ dstr message "msg_id").

(** Python's [a < b] on strings. *)
Definition str_lt (a b : string) : bool := negb (bool_decide (String.le b a)).
(** The key [(m["created_at"], m["msg_id"])] of the sort, decreasing. *)
Definition newest_first (a b : pydict) : Prop :=
  (dstr a "created_at" <> dstr b "created_at" /\
   String.le (dstr b "created_at") (dstr a "created_at"))
  \/ (dstr a "created_at" = dstr b "created_at" /\ String.le (dstr b "msg_id") (dstr a "msg_id")).
#[export] Instance newest_first_dec a b : Decision (newest_first a b).
Proof. unfold newest_first. apply _. Defined.

(** [x is not None and test(x)] *)
Definition given {A} (o : option A) (test : A -> bool) : bool :=
  match o with None => false | Some x => test x end.

Definition history_filter (since before from_id kind : option string) (msg : pydict) : bool :=
  negb (given since (fun t => str_lt (dstr msg "created_at") t)
        || given before (fun t => negb (str_lt (dstr msg "created_at") t))
        || given from_id (fun f => negb (String.eqb (dstr msg "from") f))
        || given kind (fun k => negb (String.eqb (dstr msg "kind") k))).

(** The loop over the files. *)
Fixpoint collect_history (session_id : string) (keep : pydict -> bool)
    (files : list (string * file)) : res (list pydict) :=
  match files with
  | [] => Ok []
  | (stem, f) :: files' =>
    match content f with
    | None => collect_history session_id keep files'
    | Some v =>
      do ok <- validate_message v (Some session_id) None (Some (stem +:+ ".json"));
      match ok, v with
      | Valid, VDict msg =>
        do out <- collect_history session_id keep files';
        Ok (if keep msg then msg :: out else out)
      | _, _ => collect_history session_id keep files'
      end
    end
  end.

Definition read_history (s : session) (session_id : string)
    (since before : option string) (limit : option Z) (from_id kind : option string) :
    res (list pydict) :=
  guard negb (given kind (fun k => bool_decide (k ∉ VALID_KINDS)))
    orelse ValueError "invalid kind";
  guard negb (given limit (fun n => n <? 0)) orelse ValueError "limit must be non-negative";
  do _ <- validate_agent_id session_id;
  do out <- collect_history session_id (history_filter since before from_id kind)
              (list_messages (history s));
  let out := merge_sort newest_first out in
  Ok (match limit with None => out | Some n => take (Z.to_nat n) out end).

(** ** Peek *)

(** [v[:n]] *)
Definition slice (n : nat) (v : pyval) : res pyval :=
  match v with
  | VStr s => Ok (VStr (str_take n s))
  | VList l => Ok (VList (take n l))
  | _ => Raise (TypeError "not sliceable")
  end.

Definition unreadable_summary (stem : string) : pydict :=
  [("from", VStr "?"); ("kind", VStr "?"); ("subject", VStr "(unreadable)");
   ("msg_id", VStr stem)].

Definition peek_file (max_subject : nat) (x : string * file) : res pydict :=
  match content x.2 with
  | None => Ok (unreadable_summary x.1)
  | Some (VDict msg) =>
    do subject <- slice max_subject (dgetd msg "subject" (VStr ""));
    Ok [("from", dgetd msg "from" (VStr "?")); ("kind", dgetd msg "kind" (VStr "?"));
        ("subject", subject); ("msg_id", dgetd msg "msg_id" (VStr x.1));
        ("command_id", dgetd msg "command_id" (VStr ""))]
  | Some _ => Raise (AttributeError "get")
  end.

Fixpoint res_map {A B} (f : A -> res B) (l : list A) : res (list B) :=
  match l with
  | [] => Ok []
  | x :: l' => do y <- f x; do ys <- res_map f l'; Ok (y :: ys)
  end.

Definition peek (a : agent) (session_id agent_id : string) (max_messages max_subject : nat) :
    res (Z * list pydict) :=
  do _ <- validate_agent_id agent_id;
  do _ <- validate_agent_id session_id;
  let files := list_messages (inbox a) in
  do summaries <- res_map (peek_file max_subject) (take max_messages files);
  Ok (Z.of_nat (length files), summaries).

(** ** Send *)

(** The arguments of [send] that become fields of the message. *)
Record draft := {
  d_from : string; d_to : string; d_subject : string; d_body : string; d_kind : string;
  d_reply_to : string; d_run_id : string; d_request_id : string; d_command_id : string;
  d_trace_id : string; d_causation_id : string; d_attachments : option pyval;
  d_require_ack : bool; d_receipt_type : string }.

Fixpoint attachment_refs (l : list pyval) : res (list AttachmentRef) :=
  match l with
  | [] => Ok []
  | VDict ad :: l' =>
    guard bool_decide (attachment_error (VDict ad) = None) orelse ValueError "invalid attachment";
    guard negb (match dget ad "size" with
                | Some (VInt n) => MAX_ATTACHMENT_SIZE <? n
                | _ => false
                end) orelse ValueError "attachment exceeds limit";
    do r <- AttachmentRef.from_dict ad;
    do rs <- attachment_refs l';
    Ok (r :: rs)
  | _ :: _ => Raise (ValueError "invalid attachment: must be AttachmentRef or dict")
  end.
Definition check_attachments (o : option pyval) : res (list AttachmentRef) :=
  match o with
  | None => Ok []
  | Some (VList l) => attachment_refs l
  | Some _ => Raise (ValueError "attachments must be a list")
  end.

Definition is_broadcast (d : draft) : bool := String.eqb (d_to d) BROADCAST_TO.
(** [sorted(roster - {from_id})], or the one recipient. *)
Definition recipients (m : session_meta) (d : draft) : list string :=
  if is_broadcast d then sorted_set (filter (fun a => a <> d_from d) (roster m)) else [d_to d].

Section attachments_eq.
(** Python's [str] of a value that is not a string, a number, a boolean or
    [None], and of a float: the interpreter's [repr]. *)
Variable py_repr : pyval -> string.

Definition py_str (v : pyval) : string :=
  match v with
  | VStr s => s
  | VInt z => pretty z
  | VBool b => if b then "True" else "False"
  | VNone => "None"
  | _ => py_repr v
  end.

Definition key_le (a b : string * string) : Prop := String.le a.1 b.1.
#[local] Instance key_le_dec a b : Decision (key_le a b).
Proof. unfold key_le. apply _. Defined.

(** The tuple [_norm] makes of a reference: sorted pairs, or one string. *)
Definition norm_ref (ref : pyval) : list (string * string) + string :=
  match ref with
  | VDict d => inl (merge_sort key_le (map (fun kv => (kv.1, py_str kv.2)) d))
  | v => inr (py_str v)
  end.

Definition attachments_eq (a b : list pyval) : bool :=
  bool_decide (length a = length b)
  && bool_decide (map norm_ref a ⊆ map norm_ref b) && bool_decide (map norm_ref b ⊆ map norm_ref a).

(** The characters of a string. *)
Fixpoint code_points (s : string) : list string :=
  match s with
  | "" => []
  | String c s' =>
    match code_points s' with
    | String d w :: ws =>
      if is_cont d then String c (String d w) :: ws else String c "" :: String d w :: ws
    | ws => String c "" :: ws
    end
  end.

(** The elements of a value Python can measure and iterate. *)
Definition py_items (v : pyval) : res (list pyval) :=
  match v with
  | VList l => Ok l
  | VDict d => Ok (map (fun kv => VStr kv.1) d)
  | VStr s => Ok (map VStr (code_points s))
  | _ => Raise (TypeError "no len")
  end.

Definition eq_field (e : pydict) (k s : string) : bool := eq_str (dgetd e k VNone) s.
Definition eq_opt_field (e : pydict) (k s : string) : bool := eq_str (dgetd e k (VStr "")) s.

(** The [same] test of the idempotent replay. *)
Definition same_payload (session_id : string) (d : draft) (refs : list AttachmentRef)
    (existing : pyval) : res bool :=
  match existing with
  | VDict e =>
    if eq_field e "session_id" session_id && eq_field e "from" (d_from d)
       && eq_field e "to" (d_to d) && eq_field e "subject" (d_subject d)
       && eq_field e "body" (d_body d) && eq_field e "kind" (d_kind d)
       && eq_opt_field e "reply_to" (d_reply_to d) && eq_opt_field e "run_id" (d_run_id d)
       && eq_opt_field e "request_id" (d_request_id d)
       && eq_opt_field e "command_id" (d_command_id d)
       && eq_opt_field e "trace_id" (d_trace_id d)
       && eq_opt_field e "causation_id" (d_causation_id d)
       && Bool.eqb (truthy (dgetd e "require_ack" (VBool false))) (d_require_ack d)
       && eq_opt_field e "receipt_type" (d_receipt_type d)
    then do l <- py_items (dgetd e "attachments" (VList []));
         Ok (attachments_eq l (map (fun a => VDict (AttachmentRef.to_dict a)) refs))
    else Ok false
  | _ => Raise (AttributeError "get")
  end.
End attachments_eq.

Definition inbox_of (s : session) (rid : string) : dir :=
  default ∅ (inbox <$> agents s !! rid).
Definition put_inbox (rid id : string) (payload : pyval) (now : Z) : st session unit :=
  modify (fun s => set_agents
    (alter (fun a => set_inbox (<[id := {| content := Some payload; mtime := now |}]> (inbox a)) a)
           rid (agents s)) s).

(** What [json.loads] finds in an existing copy: [{}] when it fails. *)
Definition loaded (f : file) : option pyval :=
  match content f with
  | None => Some (VDict [])
  | Some VNone => None
  | Some v => Some v
  end.
Fixpoint first_some {A B} (f : A -> option B) (l : list A) : option B :=
  match l with
  | [] => None
  | x :: l' => match f x with Some y => Some y | None => first_some f l' end
  end.
Definition existing_copy (s : session) (rids : list string) (id : string) : option pyval :=
  match first_some (fun rid => inbox_of s rid !! id ≫= loaded) rids with
  | Some v => Some v
  | None => history s !! id ≫= loaded
  end.

(** [gen_msg_id]; [suffix] is the random part. *)
Definition gen_msg_id (sender suffix : string) (now : Z) : string :=
  sender +:+ "_" +:+ compact_timestamp now +:+ "_" +:+ suffix.
Definition id_taken (s : session) (rids : list string) (id : string) : bool :=
  existsb (fun rid => bool_decide (is_Some (inbox_of s rid !! id))) rids
  || bool_decide (is_Some (history s !! id)).
(** The first identifier drawn that is not taken; the loop draws on while
    they all are. *)
Fixpoint fresh_msg_id (s : session) (rids : list string) (sender : string) (now : Z)
    (suffixes : list string) : option string :=
  match suffixes with
  | [] => None
  | x :: suffixes' =>
    let id := gen_msg_id sender x now in
    if id_taken s rids id then fresh_msg_id s rids sender now suffixes' else Some id
  end.

Definition message_of (session_id : string) (d : draft) (refs : list AttachmentRef)
    (id : string) (now : Z) : Message :=
  {| session_id := VStr session_id; from_id := VStr (d_from d); to_id := VStr (d_to d);
     subject := VStr (d_subject d); body := VStr (d_body d); kind := VStr (d_kind d);
     msg_id := VStr id; created_at := VStr (iso_timestamp now);
     reply_to := VStr (d_reply_to d); run_id := VStr (d_run_id d);
     request_id := VStr (d_request_id d); command_id := VStr (d_command_id d);
     trace_id := VStr (d_trace_id d); causation_id := VStr (d_causation_id d);
     attachments := refs; protocol_version := VInt PROTOCOL_VERSION;
     require_ack := d_require_ack d; receipt_type := VStr (d_receipt_type d) |}.

(** The write phase, step by step: every envelope, the cursor, every envelope
    again with the cursor, the history record. *)
Definition stamped (payload : pydict) (c : Z * Z) : pydict :=
  dset payload "_cursor" (VStr (cursor_text c)).
Definition write_phase (session_id id : string) (rids : list string) (payload : pydict)
    (c : Z * Z) (now : Z) : list (st session unit) :=
  map (fun rid => put_inbox rid id (VDict payload) now) rids ++
  [_ ← advance_cursor session_id now; mret tt] ++
  map (fun rid => put_inbox rid id (VDict (stamped payload c)) now) rids ++
  history_steps session_id (stamped payload c) now.

Section send.
Context (py_repr : pyval -> string).

(** The inbox of a recipient exists. *)
Definition check_agent (rid : string) : st session unit :=
  _ ← lift (validate_agent_id rid);
  ags ← gets agents;
  ensure (bool_decide (is_Some (ags !! rid))) (ValueError "agent not in session").

(** The checks before anything is written: the references and recipients. *)
Definition send_checks (d : draft) : st session (list AttachmentRef * list string) :=
  there ← gets present;
  _ ← ensure there (ValueError "session not found");
  meta ← gets meta;
  match meta with
  | None => raise (ValueError "session metadata not found or corrupt")
  | Some m =>
    _ ← ensure (bool_decide (d_from d ∈ roster m)) (ValueError "sender not in roster");
    refs ← lift (check_attachments (d_attachments d));
    _ ← ensure (is_broadcast d || bool_decide (d_to d ∈ roster m))
          (ValueError "recipient not in roster");
    let rids := recipients m d in
    _ ← st_iter check_agent rids;
    _ ← ensure (bool_decide (d_kind d ∈ VALID_KINDS)) (ValueError "invalid kind");
    _ ← ensure (Z.of_nat (String.length (d_body d)) <=? MAX_MAILBOX_BODY)
          (ValueError "body exceeds limit");
    mret (refs, rids)
  end.

(** The idempotent replay of a message of which a copy exists. *)
Definition missing (s : session) (rids : list string) (id : string) : list string :=
  filter (fun rid => inbox_of s rid !! id = None) rids.
Definition replay (session_id id : string) (d : draft) (refs : list AttachmentRef)
    (rids : list string) (existing : pyval) (now : Z) : st session string :=
  same ← lift (same_payload py_repr session_id d refs existing);
  _ ← ensure same (ValueError "msg_id already exists with different payload");
  todo ← gets (fun s => missing s rids id);
  _ ← st_iter (fun rid => put_inbox rid id existing now) todo;
  h ← gets history;
  _ ← (if bool_decide (h !! id = None)
       then match existing with
            | VDict e => _ ← append_history session_id e now; mret tt
            | _ => raise (ValueError "history message must be a dict")
            end
       else mret tt);
  mret ("sent → " +:+ d_to d +:+ "/inbox/" +:+ id +:+ ".json (idempotent replay, backfilled "
        +:+ pretty (length todo) +:+ ")").

Definition deliver (session_id id : string) (d : draft) (refs : list AttachmentRef)
    (rids : list string) (now : Z) : st session string :=
  let payload := Message.to_dict (message_of session_id d refs id now) in
  _ ← lift (valid_or_raise "send validation failed"
              (validate_message (VDict payload) (Some session_id) None None));
  c ← gets (fun s => next_cursor now (cursor s));
  _ ← run_steps (write_phase session_id id rids payload c now);
  mret (if is_broadcast d then "broadcast → " +:+ pretty (length rids) +:+ " recipients"
        else "sent → " +:+ d_to d +:+ "/inbox/" +:+ id +:+ ".json").

(** [msg_id] is the identifier given, or [suffixes] are the random parts
    that [gen_msg_id] draws; [None] when it would draw more of them. *)
Definition send (session_id : string) (d : draft) (msg_id : option string)
    (suffixes : list string) (now : Z) : st session (option string) :=
  _ ← lift (validate_agent_id session_id);
  '(refs, rids) ← send_checks d;
  match msg_id with
  | Some id =>
    _ ← lift (_validate_msg_id id);
    existing ← gets (fun s => existing_copy s rids id);
    match existing with
    | Some e => Some <$> replay session_id id d refs rids e now
    | None => Some <$> deliver session_id id d refs rids now
    end
  | None =>
    id ← gets (fun s => fresh_msg_id s rids (d_from d) now suffixes);
    match id with
    | Some id => Some <$> deliver session_id id d refs rids now
    | None => mret None
    end
  end.
End send.

(** ** The stream cursor *)

(** [advance_cursor] at the times [ts], one after the other. *)
Fixpoint advances (session_id : string) (ts : list Z) : st session (list string) :=
  match ts with
  | [] => mret []
  | t :: ts' =>
    c ← advance_cursor session_id t;
    cs ← advances session_id ts';
    mret (c :: cs)
  end.

Definition cursor_lt (c d : Z * Z) : Prop := c.1 < d.1 \/ c.1 = d.1 /\ c.2 < d.2.
Definition cursor_ok (n : Z) (c : Z * Z) : Prop := 0 <= c.1 /\ 0 <= c.2 < n.

Lemma next_cursor_lt now c : c.1 <= now -> cursor_lt c (next_cursor now (Some c)).
Proof.
  unfold cursor_lt, next_cursor. simpl. intros Hc.
  destruct (Z.eqb_spec now c.1); simpl; lia.
Qed.

Lemma next_cursor_ok now c n : 0 <= now -> cursor_ok n c -> cursor_ok (n + 1) (next_cursor now (Some c)).
Proof.
  unfold cursor_ok, next_cursor. simpl. destruct (Z.eqb_spec now c.1); simpl; lia.
Qed.

Lemma digits_length w z : String.length (digits w z) = w.
Proof. induction w as [|w IH]; simpl; congruence. Qed.

Lemma pad0_digits w z : 0 <= z < 10 ^ Z.of_nat w -> pad0 w z = digits w z.
Proof.
  intros [H1 H2]. unfold pad0. apply Z.leb_le in H1. apply Z.ltb_lt in H2.
  by rewrite H1, H2.
Qed.

(** Cursors whose sequence number fits the width have different texts, in
    the order of the sequence numbers within one epoch. *)
Lemma cursor_text_inj c d :
  cursor_ok 1000000 c -> cursor_ok 1000000 d -> cursor_text c = cursor_text d -> c = d.
Proof.
  destruct c as [e a], d as [e' b]. unfold cursor_ok, cursor_text, SEQ_WIDTH. simpl.
  intros Ha Hb Heq.
  assert (Hl : forall z, 0 <= z < 1000000 -> String.length ("/" +:+ pad0 6 z) = 7%nat).
  { intros z Hz. rewrite pad0_digits by (simpl; lia). done. }
  apply string_app_inv in Heq as [He Hs]; [|rewrite !Hl by lia; done].
  apply (inj pretty) in He. subst e'. f_equal.
  change (String "/"%char (pad0 6 a) = String "/"%char (pad0 6 b)) in Hs. injection Hs as Hs.
  apply Z.compare_eq_iff. rewrite <-(pad0_compare 6) by (simpl; lia). rewrite Hs.
  rewrite pad0_compare by (simpl; lia). apply Z.compare_refl.
Qed.

Lemma cursor_text_order e a b :
  0 <= a < b -> b < 1000000 ->
  String.compare (cursor_text (e, a)) (cursor_text (e, b)) = Lt.
Proof.
  intros Ha Hb. unfold cursor_text, SEQ_WIDTH. simpl fst. simpl snd.
  rewrite !string_compare_app, pad0_compare by (simpl; lia). apply Z.compare_lt_iff. lia.
Qed.

(** [cs] are the cursors that [ts] give after [c]. *)
Fixpoint cursors (c : option (Z * Z)) (ts : list Z) : list (Z * Z) :=
  match ts with
  | [] => []
  | t :: ts' => let c' := next_cursor t c in c' :: cursors (Some c') ts'
  end.

Lemma advance_cursor_eq sid t s :
  validate_agent_id sid = Ok tt ->
  advance_cursor sid t s =
  (Ok (cursor_text (next_cursor t (cursor s))), set_cursor (next_cursor t (cursor s)) s).
Proof. intros Hs. unfold advance_cursor. by rewrite st_bind_unfold, Hs. Qed.

Lemma advances_cursors sid ts s :
  validate_agent_id sid = Ok tt ->
  exists s', advances sid ts s = (Ok (map cursor_text (cursors (cursor s) ts)), s') /\
    cursor s' = match last (cursors (cursor s) ts) with Some c => Some c | None => cursor s end.
Proof.
  intros Hs. revert s. induction ts as [|t ts IH]; intros s; [by exists s|].
  destruct (IH (set_cursor (next_cursor t (cursor s)) s)) as (s' & Hadv & Hc).
  exists s'. cbn [advances]. rewrite st_bind_unfold, advance_cursor_eq by done.
  rewrite st_bind_unfold, Hadv. split; [done|].
  rewrite Hc. cbn [cursors set_cursor cursor].
  rewrite last_cons. by destruct (last (cursors (Some (next_cursor t (cursor s))) ts)).
Qed.

Lemma cursors_sorted ts c n :
  StronglySorted Z.le (c.1 :: ts) -> cursor_ok n c ->
  StronglySorted cursor_lt (c :: cursors (Some c) ts) /\
  Forall (cursor_ok (n + Z.of_nat (length ts))) (cursors (Some c) ts).
Proof.
  revert c n. induction ts as [|t ts IH]; intros c n Hts Hc.
  { simpl. split; [constructor; constructor|constructor]. }
  inversion Hts as [|? ? Hts' Hall]; subst. inversion Hall as [|? ? Ht Hall']; subst.
  assert (H0 : 0 <= t) by (unfold cursor_ok in Hc; lia).
  pose proof (next_cursor_ok t c n H0 Hc) as Hc'.
  pose proof (next_cursor_lt t c Ht) as Hlt.
  destruct (IH (next_cursor t (Some c)) (n + 1)) as [Hs Hf]; [done..|].
  cbn [cursors length]. split.
  - constructor; [done|]. constructor; [done|].
    inversion Hs as [|? ? _ Hs']; subst. eapply Forall_impl; [exact Hs'|].
    unfold cursor_lt in *. intros d Hd. lia.
  - constructor; [revert Hc'; unfold cursor_ok; lia|].
    eapply Forall_impl; [exact Hf|]. unfold cursor_ok. intros d Hd. lia.
Qed.

Lemma cursors_texts ts c n :
  StronglySorted Z.le (c.1 :: ts) -> cursor_ok n c -> n + Z.of_nat (length ts) <= 1000000 ->
  NoDup (map cursor_text (c :: cursors (Some c) ts)).
Proof.
  intros Hts Hc Hn. destruct (cursors_sorted ts c n Hts Hc) as [Hs Hf].
  assert (Hok : Forall (cursor_ok 1000000) (c :: cursors (Some c) ts)).
  { constructor; [revert Hc; unfold cursor_ok; lia|].
    eapply Forall_impl; [exact Hf|]. unfold cursor_ok. intros d Hd. lia. }
  clear Hf Hts Hc. revert Hs Hok. generalize (c :: cursors (Some c) ts). intros l Hs Hok.
  induction Hs as [|d l Hs IH Hd]; [constructor|]. inversion Hok as [|? ? Hok1 Hok2]; subst.
  simpl. constructor; [|by apply IH].
  rewrite list_elem_of_fmap. intros (e & He & Hel).
  rewrite Forall_forall in Hok2, Hd. apply cursor_text_inj in He; [|naive_solver..].
  subst e. specialize (Hd d Hel). unfold cursor_lt in Hd. lia.
Qed.

(** while the clock does not go back, the cursors handed out in a session
    are pairwise different (up to a million of them), and [read_cursor]
    returns the last one. *)
Theorem cursor_unique sid ts s :
  validate_agent_id sid = Ok tt -> cursor s = None -> StronglySorted Z.le ts ->
  Forall (fun t => 0 < t) ts -> Z.of_nat (length ts) < 1000000 ->
  exists texts s', advances sid ts s = (Ok texts, s') /\ length texts = length ts /\
    NoDup texts /\ read_cursor s' sid = Ok (default STREAM_CURSOR_INITIAL (last texts)).
Proof.
  intros Hsid Hc Hts Hpos Hlen. destruct (advances_cursors sid ts s Hsid) as (s' & Hadv & Hl).
  exists (map cursor_text (cursors None ts)), s'. rewrite Hc in Hadv, Hl.
  split; [done|]. split; [|split].
  - rewrite length_map. clear. generalize (@None (Z * Z)).
    induction ts as [|t ts IH]; intros c; simpl; [done|]. by rewrite IH.
  - destruct ts as [|t ts]; [constructor|]. inversion Hpos as [|? ? Ht ?]; subst.
    cbn [cursors]. assert (Hn : next_cursor t None = (t, 0)).
    { unfold next_cursor. simpl. by destruct (Z.eqb_spec t 0); [lia|]. }
    rewrite Hn. apply (cursors_texts ts (t, 0) 1); [done| |simpl in Hlen; lia].
    unfold cursor_ok. simpl. lia.
  - unfold read_cursor. rewrite Hsid. simpl. rewrite Hl.
    rewrite (fmap_last cursor_text). by destruct (last (cursors None ts)).
Qed.

Lemma cursor_unique_witness :
  exists texts s', advances "s1" [5; 5; 7] empty_session = (Ok texts, s') /\
    length texts = 3%nat /\ NoDup texts /\
    read_cursor s' "s1" = Ok (default STREAM_CURSOR_INITIAL (last texts)).
Proof.
  apply (cursor_unique "s1" [5; 5; 7] empty_session).
  - reflexivity.
  - reflexivity.
  - repeat constructor; lia.
  - repeat constructor; lia.
  - simpl; lia.
Defined.

(** when the wall clock steps back to an earlier millisecond the cursor
    does too: the same cursor is handed out a second time. *)
Theorem cursor_clock_step_back sid e e' s :
  validate_agent_id sid = Ok tt -> cursor s = None -> e <> 0 -> e <> e' ->
  exists c d s', advances sid [e; e'; e] s = (Ok [c; d; c], s').
Proof.
  intros Hsid Hc He Hee'. destruct (advances_cursors sid [e; e'; e] s Hsid) as (s' & -> & _).
  rewrite Hc. cbn [cursors map]. exists (cursor_text (e, 0)), (cursor_text (next_cursor e' (Some (e, 0)))), s'.
  unfold next_cursor. simpl.
  destruct (Z.eqb_spec e 0), (Z.eqb_spec e' e); simpl; try congruence.
  destruct (Z.eqb_spec e e'); [congruence|done].
Qed.

Lemma cursor_clock_step_back_witness :
  exists c d s', advances "s1" [7; 6; 7] empty_session = (Ok [c; d; c], s').
Proof. by apply (cursor_clock_step_back "s1" 7 6 empty_session). Defined.

(** ** Sending *)

Lemma run_steps_app {T} (l1 l2 : list (st T unit)) s :
  run_steps (l1 ++ l2) s =
  match run_steps l1 s with
  | (Ok _, s') => run_steps l2 s'
  | (Raise e, s') => (Raise e, s')
  end.
Proof.
  revert s. induction l1 as [|m l1 IH]; intros s; [done|].
  unfold run_steps in *. simpl. rewrite !st_bind_unfold.
  destruct (m s) as [[a|e] s1]; [apply IH|done].
Qed.

(** *** Messages and the cursor stamp *)
Lemma validate_wf d sid ag fn :
  validate_message (VDict d) sid ag fn = Ok Valid <-> wf_message d sid ag fn.
Proof. rewrite validate_checks. split; [apply wf_of_checks|apply checks_of_wf]. Qed.

Lemma fields_not_cursor :
  Forall (fun f => f <> "_cursor") (STRING_FIELDS ++ PATH_FIELDS).
Proof. refine (bool_decide_unpack _ _). vm_compute. exact I. Qed.

Lemma extras_not_cursor k f : f ∈ KIND_CONDITIONAL_REQUIRED k -> f <> "_cursor".
Proof.
  intros Hf ->. revert Hf. apply (bool_decide_unpack _).
  unfold KIND_CONDITIONAL_REQUIRED. repeat case_match; vm_compute; exact I.
Qed.

Lemma wf_message_ext d d' sid ag fn :
  (forall k, k <> "_cursor" -> dget d' k = dget d k) -> wf_message d sid ag fn ->
  wf_message d' sid ag fn.
Proof.
  intros He W.
  assert (Hf : forall f, f ∈ STRING_FIELDS ++ PATH_FIELDS -> f <> "_cursor").
  { pose proof fields_not_cursor as Hf. rewrite Forall_forall in Hf. exact Hf. }
  split; unfold str_field; try (rewrite ?He by done; apply W).
  - intros f Hin. rewrite He by (apply Hf, elem_of_app; by left). by apply (wf_strings _ _ _ _ W).
  - intros k f Hk Hin. rewrite He in Hk by done. rewrite He by (by eapply extras_not_cursor).
    by eapply (wf_extras _ _ _ _ W).
  - intros f v Hin Hv. rewrite He in Hv by (apply Hf, elem_of_app; by right).
    by eapply (wf_paths _ _ _ _ W).
Qed.

Lemma wf_message_stamped d c sid ag fn :
  wf_message d sid ag fn -> wf_message (stamped d c) sid ag fn.
Proof. apply wf_message_ext. intros k Hk. by apply dget_dset_ne. Qed.

(** What [read] will check in addition: the recipient and the file name. *)
Lemma wf_message_addressed d sid a id :
  wf_message d sid None None -> dget d "msg_id" = Some (VStr id) ->
  dget d "to" = Some (VStr a) \/ dget d "to" = Some (VStr BROADCAST_TO) ->
  wf_message d sid (Some a) (Some (id +:+ ".json")).
Proof.
  intros W Hid Hto. split; try apply W.
  - by intros ? [= <-].
  - intros ? [= <-]. by exists id.
Qed.

Lemma valid_or_raise_Ok what r u : valid_or_raise what r = Ok u <-> r = Ok Valid.
Proof. unfold valid_or_raise. destruct r as [[]|], u; naive_solver. Qed.

(** *** The checks *)
Lemma send_checks_read_only d : read_only (send_checks d).
Proof.
  unfold send_checks. apply read_only_bind; [done|]. intros there.
  apply read_only_bind; [apply read_only_ensure|]. intros _.
  apply read_only_bind; [done|]. intros [m|]; [|done].
  repeat (apply read_only_bind; [first [apply read_only_ensure | done |
    apply read_only_iter; intros ?; apply read_only_bind; [done|]; intros _;
    apply read_only_bind; [done|]; intros ?; apply read_only_ensure]|]; intros ?).
  done.
Qed.

Lemma check_agent_Ok rid s s' :
  check_agent rid s = (Ok tt, s') <->
  s' = s /\ validate_agent_id rid = Ok tt /\ is_Some (agents s !! rid).
Proof.
  unfold check_agent. rewrite st_bind_Ok. split.
  - intros ([] & ? & [Hv ->]%lift_Ok & H). apply st_bind_Ok in H as (? & ? & [-> ->]%gets_Ok & H).
    apply ensure_Ok in H as [H ->]. by bool_to_prop.
  - intros (-> & Hv & Ha). exists tt, s. split; [by apply lift_Ok|].
    apply st_bind_Ok. exists (agents s), s. split; [done|]. apply ensure_Ok.
    split; [by apply bool_decide_eq_true_2|done].
Qed.

Lemma check_agents_Ok rids s s' :
  st_iter check_agent rids s = (Ok tt, s') <->
  s' = s /\ forall rid, rid ∈ rids -> validate_agent_id rid = Ok tt /\ is_Some (agents s !! rid).
Proof.
  revert s s'. induction rids as [|r rids IH]; intros s s'; simpl.
  { rewrite st_ret_Ok. set_solver. }
  rewrite st_bind_Ok. split.
  - intros ([] & s1 & (-> & Hr)%check_agent_Ok & (-> & Hall)%IH). split; [done|]. set_solver.
  - intros (-> & Hall). exists tt, s. rewrite check_agent_Ok, IH. set_solver.
Qed.

(** What the checks establish. *)
Record sendable (s : session) (d : draft) (m : session_meta) (refs : list AttachmentRef) : Prop := {
  sb_present : present s = true;
  sb_meta : meta s = Some m;
  sb_sender : d_from d ∈ roster m;
  sb_refs : check_attachments (d_attachments d) = Ok refs;
  sb_to : d_to d = BROADCAST_TO \/ d_to d ∈ roster m;
  sb_agents : forall rid, rid ∈ recipients m d ->
    validate_agent_id rid = Ok tt /\ is_Some (agents s !! rid);
  sb_kind : d_kind d ∈ VALID_KINDS;
  sb_body : Z.of_nat (String.length (d_body d)) <= MAX_MAILBOX_BODY }.

Lemma send_checks_Ok d s refs rids s' :
  send_checks d s = (Ok (refs, rids), s') ->
  s' = s /\ exists m, rids = recipients m d /\ sendable s d m refs.
Proof.
  intros H. pose proof (send_checks_read_only d s) as Hro. rewrite H in Hro. simpl in Hro. subst s'.
  split; [done|]. unfold send_checks in H.
  apply st_bind_Ok in H as (? & ? & [-> ->]%gets_Ok & H).
  apply st_bind_Ok in H as (? & ? & [Hp ->]%ensure_Ok & H).
  apply st_bind_Ok in H as (? & ? & [-> ->]%gets_Ok & H).
  destruct (meta s) as [m|] eqn:Em; [|done].
  apply st_bind_Ok in H as (? & ? & [Hs ->]%ensure_Ok & H).
  apply st_bind_Ok in H as (refs' & ? & [Hr ->]%lift_Ok & H).
  apply st_bind_Ok in H as (? & ? & [Ht ->]%ensure_Ok & H).
  apply st_bind_Ok in H as ([] & ? & [-> Ha]%check_agents_Ok & H).
  apply st_bind_Ok in H as (? & ? & [Hk ->]%ensure_Ok & H).
  apply st_bind_Ok in H as (? & ? & [Hb ->]%ensure_Ok & H).
  apply st_ret_Ok in H as [[= -> ->] _]. bool_to_prop.
  exists m. split; [done|]. split; try done.
  - apply orb_true_iff in Ht as [Ht|Ht]; [left; by apply String.eqb_eq|right; by bool_to_prop].
Qed.

Lemma send_checks_sendable s d m refs :
  sendable s d m refs -> send_checks d s = (Ok (refs, recipients m d), s).
Proof.
  intros H. unfold send_checks.
  apply st_bind_Ok. exists true, s. split; [by rewrite <-(sb_present _ _ _ _ H)|].
  apply st_bind_Ok. exists tt, s. split; [done|].
  apply st_bind_Ok. exists (Some m), s. split; [by rewrite <-(sb_meta _ _ _ _ H)|].
  repeat (apply st_bind_Ok;
          first [exists tt, s; split;
                 [first [apply ensure_Ok; split; [|done] | apply check_agents_Ok; split; [done|]]|]
                |exists refs, s; split; [apply lift_Ok; split; [|done]|]]);
    try apply bool_decide_eq_true_2; try apply H; [| |done].
  - apply orb_true_iff. unfold is_broadcast. rewrite String.eqb_eq, bool_decide_eq_true. apply H.
  - apply Z.leb_le, H.
Qed.

(** *** The write phase *)
Definition with_inbox (rids : list string) (id : string) (f : file) (ags : gmap string agent) :
    gmap string agent :=
  map_imap (fun a ag =>
    Some (if bool_decide (a ∈ rids) then set_inbox (<[id := f]> (inbox ag)) ag else ag)) ags.

Lemma with_inbox_lookup rids id f ags a :
  with_inbox rids id f ags !! a =
  (fun ag => if bool_decide (a ∈ rids) then set_inbox (<[id := f]> (inbox ag)) ag else ag)
    <$> ags !! a.
Proof. unfold with_inbox. rewrite map_lookup_imap. by destruct (ags !! a). Qed.

Lemma with_inbox_cons r rids id f ags :
  with_inbox rids id f (alter (fun a => set_inbox (<[id := f]> (inbox a)) a) r ags)
  = with_inbox (r :: rids) id f ags.
Proof.
  apply map_eq. intros a. rewrite !with_inbox_lookup.
  destruct (decide (a = r)) as [->|Hne].
  - rewrite lookup_alter_eq. destruct (ags !! r) as [ag|]; [|done]. simpl. f_equal.
    rewrite (bool_decide_eq_true_2 (r ∈ r :: rids)) by (by left).
    case_bool_decide; [|done]. unfold set_inbox. simpl. by rewrite insert_insert_eq.
  - rewrite lookup_alter_ne by done. destruct (ags !! a) as [ag|]; [|done]. simpl. f_equal.
    case_bool_decide as H1; case_bool_decide as H2; try done; exfalso; set_solver.
Qed.

Lemma with_inbox_nil id f ags : with_inbox [] id f ags = ags.
Proof.
  apply map_eq. intros a. rewrite with_inbox_lookup. by destruct (ags !! a).
Qed.

Lemma run_put rids id v now s :
  run_steps (map (fun rid => put_inbox rid id v now) rids) s =
  (Ok tt, set_agents (with_inbox rids id {| content := Some v; mtime := now |} (agents s)) s).
Proof.
  revert s. induction rids as [|r rids IH]; intros s.
  { rewrite with_inbox_nil. by destruct s. }
  change (run_steps (map (fun rid => put_inbox rid id v now) (r :: rids)) s)
    with (run_steps (map (fun rid => put_inbox rid id v now) rids) (put_inbox r id v now s).2).
  rewrite IH. simpl. by rewrite with_inbox_cons.
Qed.

Lemma inbox_of_with rids id f s rid :
  inbox_of (set_agents (with_inbox rids id f (agents s)) s) rid =
  if bool_decide (rid ∈ rids /\ is_Some (agents s !! rid))
  then <[id := f]> (inbox_of s rid) else inbox_of s rid.
Proof.
  unfold inbox_of. simpl. rewrite with_inbox_lookup.
  destruct (agents s !! rid) as [ag|]; simpl.
  - case_bool_decide; case_bool_decide; try done; exfalso; naive_solver.
  - rewrite bool_decide_eq_false_2; [done|]. intros [_ [? ?]]. done.
Qed.

Lemma with_inbox_twice rids id f g ags :
  with_inbox rids id g (with_inbox rids id f ags) = with_inbox rids id g ags.
Proof.
  apply map_eq. intros a. rewrite !with_inbox_lookup.
  destruct (ags !! a) as [ag|]; [|done]. simpl. f_equal.
  case_bool_decide; [|done]. unfold set_inbox. simpl. by rewrite insert_insert_eq.
Qed.

(** What the history accepts: a message that validates for the session under
    an identifier that is new. *)
Lemma run_history sid msg id now s :
  validate_agent_id sid = Ok tt -> present s = true ->
  wf_message msg (Some sid) None None -> dget msg "msg_id" = Some (VStr id) ->
  _validate_msg_id id = Ok tt -> history s !! id = None -> history s !! tmp_name id = None ->
  run_steps (history_steps sid msg now) s =
  (Ok tt, set_history (<[id := {| content := Some (VDict msg); mtime := now |}]> (history s)) s).
Proof.
  intros Hs Hp Hwf Hid Hv Hn Ht. apply validate_wf in Hwf.
  unfold run_steps, history_steps. simpl st_iter.
  rewrite st_bind_unfold. unfold history_check, history_create, history_publish.
  rewrite (dstr_Some _ _ _ Hid).
  assert (Hne : tmp_name id <> id).
  { intros E. apply (f_equal String.length) in E. unfold tmp_name in E.
    rewrite string_length_app in E. simpl in E. lia. }
  repeat (rewrite st_bind_unfold; unfold lift, gets, ensure, modify;
          rewrite ?Hs, ?Hp, ?Hwf, ?Hv, ?Hn, ?Ht; cbn).
  rewrite lookup_insert_eq. cbn. f_equal. unfold set_history. cbn. f_equal.
  rewrite delete_insert_id by done. done.
Qed.

(** The state a delivered message leaves. *)
Definition delivered (sid : string) (d : draft) (m : session_meta) (refs : list AttachmentRef)
    (id : string) (now : Z) (s : session) : pydict * session :=
  let c := next_cursor now (cursor s) in
  let p := stamped (Message.to_dict (message_of sid d refs id now)) c in
  let f := {| content := Some (VDict p); mtime := now |} in
  (p, {| present := true; meta := meta s; history := <[id := f]> (history s); cursor := Some c;
         agents := with_inbox (recipients m d) id f (agents s) |}).

Lemma run_write_phase sid d m refs id now s :
  let p := Message.to_dict (message_of sid d refs id now) in
  validate_agent_id sid = Ok tt -> sendable s d m refs ->
  wf_message p (Some sid) None None -> _validate_msg_id id = Ok tt ->
  history s !! id = None -> history s !! tmp_name id = None ->
  run_steps (write_phase sid id (recipients m d) p (next_cursor now (cursor s)) now) s
  = (Ok tt, (delivered sid d m refs id now s).2).
Proof.
  intros p Hs Hsb Hwf Hv Hn Ht. unfold write_phase, delivered. cbn zeta. fold p.
  rewrite run_steps_app, run_put, run_steps_app. unfold run_steps at 1. cbn [st_iter].
  rewrite st_bind_unfold, st_bind_unfold, advance_cursor_eq by done.
  cbn -[history_steps]. rewrite run_steps_app, run_put.
  rewrite (run_history sid _ id now); cbn; try done.
  - unfold set_history. cbn. by rewrite with_inbox_twice.
  - by apply wf_message_stamped.
  - unfold stamped, p. rewrite dget_dset_ne by done.
    destruct (to_dict_mandatory (message_of sid d refs id now)) as (_ & _ & _ & _ & _ & _ & -> & _).
    done.
Qed.

Lemma deliver_eq sid d m refs id now s :
  validate_agent_id sid = Ok tt -> sendable s d m refs -> _validate_msg_id id = Ok tt ->
  history s !! id = None -> history s !! tmp_name id = None ->
  (exists e, deliver sid id d refs (recipients m d) now s = (Raise e, s)) \/
  (wf_message (Message.to_dict (message_of sid d refs id now)) (Some sid) None None /\
   exists txt, deliver sid id d refs (recipients m d) now s
               = (Ok txt, (delivered sid d m refs id now s).2)).
Proof.
  intros Hs Hsb Hv Hn Ht. unfold deliver. cbn zeta.
  set (p := Message.to_dict (message_of sid d refs id now)).
  rewrite st_bind_unfold. unfold lift.
  destruct (valid_or_raise _ _) as [u|e] eqn:Hval; [|by left; exists e].
  apply valid_or_raise_Ok, validate_wf in Hval. right. split; [done|].
  rewrite st_bind_unfold. unfold gets. rewrite st_bind_unfold.
  pose proof (run_write_phase sid d m refs id now s Hs Hsb Hval Hv Hn Ht) as Hrun.
  cbv zeta in Hrun. fold p in Hrun. rewrite Hrun. by eexists.
Qed.

(** Every recipient can read what was delivered: it passes the validation of
    [read] under the name of its file. *)
Lemma delivered_readable sid d m refs id now s rid :
  wf_message (Message.to_dict (message_of sid d refs id now)) (Some sid) None None ->
  rid ∈ recipients m d ->
  validate_message (VDict (delivered sid d m refs id now s).1) (Some sid) (Some rid)
    (Some (id +:+ ".json")) = Ok Valid.
Proof.
  intros Hwf Hrid. apply validate_wf. cbn.
  destruct (to_dict_mandatory (message_of sid d refs id now)) as (_ & _ & Hto & _ & _ & _ & Hid & _).
  apply wf_message_addressed; [by apply wf_message_stamped|..];
    unfold stamped; rewrite dget_dset_ne by done; [done|].
  rewrite Hto. cbn. unfold recipients, is_broadcast in Hrid.
  destruct (String.eqb_spec (d_to d) BROADCAST_TO) as [->|Hne]; [by right|].
  apply list_elem_of_singleton in Hrid as ->. by left.
Qed.

(** No copy of [id] exists, nor the temporary file of one. *)
Definition new_id (s : session) (rids : list string) (id : string) : Prop :=
  history s !! id = None /\ history s !! tmp_name id = None /\
  forall rid, rid ∈ rids -> inbox_of s rid !! id = None.

Lemma existing_copy_new s rids id : new_id s rids id -> existing_copy s rids id = None.
Proof.
  intros (Hh & _ & Hi). unfold existing_copy. rewrite Hh.
  assert (first_some (fun rid => inbox_of s rid !! id ≫= loaded) rids = None) as ->; [|done].
  induction rids as [|r rids IH]; simpl; [done|].
  rewrite (Hi r) by (by left). simpl. apply IH. intros r' Hr'. apply Hi. by right.
Qed.

Lemma id_taken_false s rids id :
  id_taken s rids id = false -> history s !! id = None /\
  forall rid, rid ∈ rids -> inbox_of s rid !! id = None.
Proof.
  unfold id_taken. intros [Hi Hh]%orb_false_iff. bool_to_prop.
  split; [by apply eq_None_not_Some|]. intros rid Hr. apply eq_None_not_Some. intros Hs.
  apply not_true_iff_false in Hi. apply Hi, existsb_exists. exists rid.
  split; [by apply list_elem_of_In|by apply bool_decide_eq_true_2].
Qed.

Lemma fresh_msg_id_Some s rids sender now sfx id :
  fresh_msg_id s rids sender now sfx = Some id ->
  id_taken s rids id = false /\ exists x, x ∈ sfx /\ id = gen_msg_id sender x now.
Proof.
  induction sfx as [|x sfx IH]; simpl; [done|].
  destruct (id_taken s rids (gen_msg_id sender x now)) eqn:E.
  - intros H. destruct (IH H) as (? & y & ? & ?). split; [done|]. exists y. set_solver.
  - intros [= <-]. split; [done|]. exists x. set_solver.
Qed.

(** C3: sending a new message either raises and changes nothing, or delivers
    it: every recipient, and no other agent, gets the message in its inbox,
    the history gets it under the same new identifier, the cursor moves on,
    and nothing else changes; the message passes the validation that [read]
    will apply to each recipient's copy. *)
Theorem send_all_or_nothing py_repr sid d mid sfx now s r s' :
  send py_repr sid d mid sfx now s = (r, s') ->
  (forall m, meta s = Some m -> from_option (new_id s (recipients m d)) True mid) ->
  (forall x, x ∈ sfx -> _validate_msg_id (gen_msg_id (d_from d) x now) = Ok tt /\
                     history s !! tmp_name (gen_msg_id (d_from d) x now) = None) ->
  s' = s /\ (r = Ok None \/ exists e, r = Raise e) \/
  exists txt m refs id,
    r = Ok (Some txt) /\ sendable s d m refs /\ from_option (eq id) True mid /\
    history s !! id = None /\ s' = (delivered sid d m refs id now s).2 /\
    forall rid, rid ∈ recipients m d ->
      validate_message (VDict (delivered sid d m refs id now s).1) (Some sid) (Some rid)
        (Some (id +:+ ".json")) = Ok Valid.
Proof.
  unfold send. intros H Hnew Hgen. rewrite st_bind_unfold in H. unfold lift in H.
  destruct (validate_agent_id sid) as [[]|e] eqn:Hsid; [|left; injection H as <- <-; eauto].
  rewrite st_bind_unfold in H. pose proof (send_checks_read_only d s) as Hro.
  destruct (send_checks d s) as [[[refs rids]|e] s1] eqn:Hc; simpl in Hro; subst s1;
    [|left; injection H as <- <-; eauto].
  apply send_checks_Ok in Hc as (_ & m & -> & Hsb).
  match goal with |- ?G => assert (Hdeliver : forall id, _validate_msg_id id = Ok tt ->
    history s !! id = None -> history s !! tmp_name id = None -> from_option (eq id) True mid ->
    (Some <$> deliver sid id d refs (recipients m d) now) s = (r, s') -> G) end.
  { intros id Hv Hh Ht Hmid Hd. unfold fmap, st_fmap in Hd.
    destruct (deliver_eq sid d m refs id now s) as [[e He]|(Hwf & txt & He)]; try done;
      rewrite He in Hd; injection Hd as <- <-; [left; split; [done|]; right; eauto|].
    right. exists txt, m, refs, id. split_and!; try done.
    intros rid. by apply delivered_readable. }
  destruct mid as [id|].
  - rewrite st_bind_unfold in H.
    destruct (_validate_msg_id id) as [[]|e] eqn:Hv; [|left; injection H as <- <-; eauto].
    destruct (Hnew m (sb_meta _ _ _ _ Hsb)) as (Hh & Ht & Hi).
    rewrite st_bind_unfold in H. unfold gets in H. rewrite existing_copy_new in H by done.
    by eapply Hdeliver.
  - rewrite st_bind_unfold in H. unfold gets in H.
    destruct (fresh_msg_id s _ _ _ sfx) as [id|] eqn:Hf; [|injection H as <- <-; eauto].
    apply fresh_msg_id_Some in Hf as (Hf & x & Hx & ->). destruct (Hgen x Hx) as [Hv Ht].
    apply id_taken_false in Hf as [Hh Hi]. by eapply Hdeliver.
Qed.

(** ** Replaying a send *)

Lemma attachments_eq_refl py l : attachments_eq py l l = true.
Proof. unfold attachments_eq. by rewrite !bool_decide_eq_true_2. Qed.

Lemma eq_str_refl s : eq_str (VStr s) s = true.
Proof. by apply eq_str_true. Qed.

(** The replay test accepts the message the same arguments made, with or
    without the cursor stamp. *)
Lemma same_payload_own py sid d refs id now e :
  (forall k, k <> "_cursor" ->
     dget e k = dget (Message.to_dict (message_of sid d refs id now)) k) ->
  same_payload py sid d refs (VDict e) = Ok true.
Proof.
  intros He. set (m := message_of sid d refs id now) in *.
  destruct (to_dict_mandatory m) as (E1 & E2 & E3 & E4 & E5 & E6 & _ & _ & _ & E10).
  destruct (to_dict_optional m) as (F1 & F2 & F3 & F4 & F5 & F6 & F7 & F8).
  unfold same_payload, eq_field, eq_opt_field.
  rewrite <-He in E1, E2, E3, E4, E5, E6, E10, F1, F2, F3, F4, F5, F6, F7, F8 by done.
  rewrite (dgetd_Some _ _ _ _ E1), (dgetd_Some _ _ _ _ E2), (dgetd_Some _ _ _ _ E3),
    (dgetd_Some _ _ _ _ E4), (dgetd_Some _ _ _ _ E5), (dgetd_Some _ _ _ _ E6),
    (dgetd_Some _ _ _ _ E10).
  pose proof (fun v k => dgetd_opt e k (VStr v) eq_refl) as Hopt.
  rewrite (Hopt _ _ F1), (Hopt _ _ F2), (Hopt _ _ F3), (Hopt _ _ F4), (Hopt _ _ F5),
    (Hopt _ _ F6), (Hopt _ _ F7).
  subst m. cbn [message_of session_id from_id to_id subject body kind reply_to run_id request_id
    command_id trace_id causation_id require_ack receipt_type truthy].
  rewrite !eq_str_refl, Bool.eqb_reflx. cbn [andb].
  unfold dgetd. rewrite F8. unfold opt_of. cbn [message_of attachments].
  destruct refs as [|r refs]; [done|].
  rewrite (@eq_refl _ true : truthy (VList (map _ (r :: refs))) = true).
  cbn [py_items res_bind]. by rewrite attachments_eq_refl.
Qed.

Lemma missing_spec s rids id rid : rid ∈ missing s rids id <-> rid ∈ rids /\ inbox_of s rid !! id = None.
Proof. unfold missing. rewrite list_elem_of_filter. tauto. Qed.

Lemma st_iter_steps {T A} (f : A -> st T unit) l s : st_iter f l s = run_steps (map f l) s.
Proof.
  revert s. induction l as [|x l IH]; intros s; [done|].
  unfold run_steps in *. simpl. rewrite !st_bind_unfold.
  destruct (f x s) as [[a|e] s1]; [apply IH|done].
Qed.

Section replay.
Context (py_repr : pyval -> string) (sid id : string) (d : draft).

(** The replay of a message of which [e] is a copy, once the checks passed. *)
Lemma replay_eq s rids refs e now :
  validate_agent_id sid = Ok tt -> present s = true -> _validate_msg_id id = Ok tt ->
  same_payload py_repr sid d refs (VDict e) = Ok true ->
  wf_message e (Some sid) None None -> dget e "msg_id" = Some (VStr id) ->
  history s !! tmp_name id = None ->
  let f := {| content := Some (VDict e); mtime := now |} in
  let s1 := set_agents (with_inbox (missing s rids id) id f (agents s)) s in
  exists txt, replay py_repr sid id d refs rids (VDict e) now s =
    (Ok txt, match history s !! id with
             | None => set_history (<[id := f]> (history s)) s1
             | Some _ => s1
             end).
Proof.
  intros Hs Hp Hv Hsame Hwf Hid Ht f s1. unfold replay.
  rewrite st_bind_unfold. unfold lift. rewrite Hsame.
  rewrite st_bind_unfold. unfold ensure. rewrite st_bind_unfold. unfold gets at 1.
  rewrite st_bind_unfold, st_iter_steps, run_put. fold f. fold s1.
  rewrite st_bind_unfold. unfold gets. rewrite st_bind_unfold.
  change (history s1) with (history s).
  destruct (history s !! id) as [g|] eqn:Hh;
    [rewrite bool_decide_eq_false_2 by done; by eexists|rewrite bool_decide_eq_true_2 by done].
  unfold append_history. rewrite !st_bind_unfold.
  rewrite (run_history sid e id now s1) by done. by eexists.
Qed.

Lemma send_replay s m refs e now sfx :
  validate_agent_id sid = Ok tt -> sendable s d m refs -> _validate_msg_id id = Ok tt ->
  existing_copy s (recipients m d) id = Some (VDict e) ->
  same_payload py_repr sid d refs (VDict e) = Ok true ->
  wf_message e (Some sid) None None -> dget e "msg_id" = Some (VStr id) ->
  history s !! tmp_name id = None ->
  let f := {| content := Some (VDict e); mtime := now |} in
  let s1 := set_agents (with_inbox (missing s (recipients m d) id) id f (agents s)) s in
  exists txt, send py_repr sid d (Some id) sfx now s =
    (Ok (Some txt), match history s !! id with
                    | None => set_history (<[id := f]> (history s)) s1
                    | Some _ => s1
                    end).
Proof.
  intros Hs Hsb Hv He Hsame Hwf Hid Ht f s1. unfold send.
  rewrite st_bind_unfold. unfold lift at 1. rewrite Hs.
  rewrite st_bind_unfold, (send_checks_sendable s d m refs) by done.
  rewrite st_bind_unfold. unfold lift. rewrite Hv. rewrite st_bind_unfold. unfold gets. rewrite He.
  destruct (replay_eq s (recipients m d) refs e now) as [txt Htxt]; try done; [apply Hsb|].
  unfold fmap, st_fmap. rewrite Htxt. by eexists.
Qed.

(** A new message that was sent: what its [send] established. *)
Lemma send_new_Ok s m sfx now txt s' :
  meta s = Some m -> new_id s (recipients m d) id ->
  send py_repr sid d (Some id) sfx now s = (Ok (Some txt), s') ->
  exists refs, validate_agent_id sid = Ok tt /\ sendable s d m refs /\ _validate_msg_id id = Ok tt /\
    wf_message (Message.to_dict (message_of sid d refs id now)) (Some sid) None None /\
    s' = (delivered sid d m refs id now s).2.
Proof.
  intros Hm Hnew H. unfold send in H.
  apply st_bind_Ok in H as ([] & ? & [Hs ->]%lift_Ok & H).
  apply st_bind_Ok in H as ([refs rids] & s1 & Hc & H).
  apply send_checks_Ok in Hc as (-> & m' & -> & Hsb).
  assert (m' = m) as -> by (pose proof (sb_meta _ _ _ _ Hsb); congruence).
  apply st_bind_Ok in H as ([] & ? & [Hv ->]%lift_Ok & H).
  apply st_bind_Ok in H as (? & ? & [-> ->]%gets_Ok & H).
  rewrite existing_copy_new in H by done. apply st_fmap_Ok in H as (txt' & H & _).
  exists refs. destruct Hnew as (Hh & Ht & _).
  destruct (deliver_eq sid d m refs id now s) as [[e He]|(Hwf & txt'' & He)]; try done;
    rewrite He in H; [done|]. injection H as _ <-. done.
Qed.
End replay.

Lemma history_check_read_only sid msg : read_only (history_check sid msg).
Proof.
  unfold history_check. repeat (apply read_only_bind; [first [apply read_only_ensure|done]|]; intros ?).
  apply read_only_ensure.
Qed.

(** *** Crashes *)
Section crash.
Context (sid id : string) (d : draft) (m : session_meta).
Context (refs : list AttachmentRef) (now : Z) (s : session).
Let p : pydict := Message.to_dict (message_of sid d refs id now).
Let c : Z * Z := next_cursor now (cursor s).
Let steps := write_phase sid id (recipients m d) p c now.

(** The two forms of the message that the write phase stores. *)
Definition own_copy (f : file) : Prop :=
  mtime f = now /\ (content f = Some (VDict p) \/ content f = Some (VDict (stamped p c))).

(** A state the write phase goes through before it touches the history, in
    which [first] already has the message. *)
Record partial (first : option string) (s' : session) : Prop := {
  pt_present : present s' = true;
  pt_meta : meta s' = meta s;
  pt_history : history s' = history s;
  pt_agents : forall a, is_Some (agents s' !! a) <-> is_Some (agents s !! a);
  pt_inbox : forall rid f, rid ∈ recipients m d -> inbox_of s' rid !! id = Some f -> own_copy f;
  pt_first : forall r, first = Some r -> is_Some (inbox_of s' r !! id) }.

Lemma own_copies : own_copy {| content := Some (VDict p); mtime := now |} /\
  own_copy {| content := Some (VDict (stamped p c)); mtime := now |}.
Proof. unfold own_copy. simpl. auto. Qed.

Lemma put_inbox_agents rid f s' a :
  agents (put_inbox rid id f now s').2 !! a =
  (if decide (a = rid)
   then (fun ag => set_inbox (<[id := {| content := Some f; mtime := now |}]> (inbox ag)) ag)
          <$> agents s' !! a
   else agents s' !! a).
Proof.
  simpl. case_decide as E; [subst; apply lookup_alter_eq|by apply lookup_alter_ne].
Qed.

Lemma put_inbox_of rid f s' a :
  inbox_of (put_inbox rid id f now s').2 a =
  (if decide (a = rid /\ is_Some (agents s' !! a))
   then <[id := {| content := Some f; mtime := now |}]> (inbox_of s' a) else inbox_of s' a).
Proof.
  unfold inbox_of. rewrite put_inbox_agents. destruct (agents s' !! a) as [ag|] eqn:E; simpl.
  - case_decide; case_decide; try done; naive_solver.
  - destruct (decide (a = rid)), (decide (_ /\ _)) as [[_ [? ?]]|]; done.
Qed.

Lemma put_partial first rid v :
  own_copy {| content := Some v; mtime := now |} ->
  preserves (partial first) (put_inbox rid id v now).
Proof.
  intros Hv s' [H1 H2 H3 H4 H5 H6]. split; try done.
  - intros a. rewrite put_inbox_agents. rewrite <-H4. case_decide; [apply fmap_is_Some|done].
  - intros a f Ha. rewrite put_inbox_of. case_decide; [|by apply H5].
    rewrite lookup_insert_eq. by intros [= <-].
  - intros r Hr. rewrite put_inbox_of. case_decide; [|by apply H6].
    by rewrite lookup_insert_eq.
Qed.

Lemma advance_partial first : preserves (partial first) (_ ← advance_cursor sid now; mret tt).
Proof.
  intros s' H. unfold advance_cursor. rewrite st_bind_unfold, st_bind_unfold. unfold lift.
  destruct (validate_agent_id sid) as [[]|e]; simpl; [|done].
  destruct H as [H1 H2 H3 H4 H5 H6]. by split.
Qed.

Lemma check_partial first msg : preserves (partial first) (history_check sid msg).
Proof.
  intros s' H. by rewrite history_check_read_only.
Qed.

Lemma elem_of_take_app {A} n (l1 l2 : list A) x :
  (n <= length l1)%nat -> x ∈ take n (l1 ++ l2) -> x ∈ l1.
Proof.
  intros Hn. rewrite take_app_le by done. intros (i & Hi & _)%elem_of_take.
  by eapply list_elem_of_lookup_2.
Qed.

Lemma steps_partial first n :
  (n <= 2 * length (recipients m d) + 2)%nat ->
  forall x, x ∈ take n steps -> preserves (partial first) x.
Proof.
  intros Hn x Hx. unfold steps, write_phase, history_steps in Hx.
  set (w := fun q => map (fun rid => put_inbox rid id (VDict q) now) (recipients m d)) in *.
  assert (Hl : forall q, length (w q) = length (recipients m d)) by (intros q; apply length_map).
  assert (Hx' : x ∈ w p ++ [_ ← advance_cursor sid now; mret tt] ++ w (stamped p c)
                    ++ [history_check sid (stamped p c)]).
  { apply (elem_of_take_app n _ [history_create (stamped p c) now; history_publish (stamped p c)]).
    - rewrite !length_app, !Hl. simpl. lia.
    - by rewrite <-!app_assoc. }
  clear Hx Hn. destruct own_copies as [Hp Hc].
  rewrite !elem_of_app, !list_elem_of_singleton in Hx'.
  destruct Hx' as [Hx|[->|[Hx| ->]]].
  - apply list_elem_of_fmap in Hx as (rid & -> & _). by apply put_partial.
  - apply advance_partial.
  - apply list_elem_of_fmap in Hx as (rid & -> & _). by apply put_partial.
  - apply check_partial.
Qed.

(** What is left when the write phase stops after [n] of its steps. *)
Definition crashed (n : nat) : session := (run_steps (take n steps) s).2.

Lemma crashed_partial n :
  new_id s (recipients m d) id ->
  present s = true ->
  (forall rid, rid ∈ recipients m d -> is_Some (agents s !! rid)) ->
  recipients m d <> [] ->
  (1 <= n <= 2 * length (recipients m d) + 2)%nat ->
  exists r, r ∈ recipients m d /\ partial (Some r) (crashed n).
Proof.
  intros (_ & _ & Hi) Hp Ha Hne [Hn1 Hn2].
  pose proof (fun first => steps_partial first n Hn2) as Hsteps. unfold crashed, steps in *.
  destruct (recipients m d) as [|r rids] eqn:Er; [done|]. exists r. split; [by left|].
  destruct n as [|n]; [lia|]. clear Hn1.
  unfold write_phase in *. cbn [map app take] in *.
  set (rest := take n _) in *.
  change (partial (Some r) (run_steps rest (put_inbox r id (VDict p) now s).2).2).
  assert (Hr : preserves (partial (Some r)) (run_steps rest)).
  { unfold run_steps. apply preserves_iter. intros x Hx. apply Hsteps. by right. }
  apply Hr. split; try done.
  - intros a. rewrite put_inbox_agents. case_decide; [subst; apply fmap_is_Some|done].
  - intros rid f Hrid. rewrite put_inbox_of. rewrite Er in Hrid. case_decide.
    + rewrite lookup_insert_eq. intros [= <-]. apply own_copies.
    + by rewrite (Hi rid Hrid).
  - intros r' [= <-]. rewrite put_inbox_of, decide_True by (split; [done|apply Ha; by left]).
    by rewrite lookup_insert_eq.
Qed.

(** The copy that a repeated send finds is one of the two forms. *)
Lemma partial_copy r s' :
  partial (Some r) s' -> r ∈ recipients m d ->
  exists e, existing_copy s' (recipients m d) id = Some (VDict e) /\ (e = p \/ e = stamped p c).
Proof.
  intros Hp Hr. unfold existing_copy.
  assert (Hall : forall rids, rids ⊆ recipients m d -> r ∈ rids -> exists e,
    first_some (fun rid => inbox_of s' rid !! id ≫= loaded) rids = Some (VDict e)
    /\ (e = p \/ e = stamped p c)); [|destruct (Hall (recipients m d)) as (e & -> & ?); eauto].
  induction rids as [|r' rids IH]; intros Hsub Hin; simpl; [set_solver|].
  destruct (inbox_of s' r' !! id) as [f|] eqn:Hf; simpl.
  - assert (Hr' : r' ∈ recipients m d) by set_solver.
    destruct (pt_inbox _ _ Hp r' f Hr' Hf) as [_ [Hc|Hc]]; unfold loaded; rewrite Hc; eauto.
  - apply IH; [set_solver|]. apply elem_of_cons in Hin as [->|Hin]; [|done].
    destruct (pt_first _ _ Hp r' eq_refl) as [f Hf']. congruence.
Qed.
End crash.

Lemma sendable_ext s1 s d m refs :
  present s1 = true -> meta s1 = meta s ->
  (forall a, is_Some (agents s !! a) -> is_Some (agents s1 !! a)) ->
  sendable s d m refs -> sendable s1 d m refs.
Proof.
  intros Hp Hm Ha [H1 H2 H3 H4 H5 H6 H7 H8]. split; try done; [congruence|].
  intros rid Hr. destruct (H6 rid Hr). auto.
Qed.

(** The properties of the two forms that the repeated send checks. *)
Lemma own_form py_repr sid d refs id now c e :
  let p := Message.to_dict (message_of sid d refs id now) in
  e = p \/ e = stamped p c -> wf_message p (Some sid) None None ->
  same_payload py_repr sid d refs (VDict e) = Ok true /\ wf_message e (Some sid) None None /\
  dget e "msg_id" = Some (VStr id).
Proof.
  intros p He Hwf.
  assert (Heq : forall k, k <> "_cursor" -> dget e k = dget p k).
  { destruct He as [-> | ->]; [done|]. intros k Hk. by apply dget_dset_ne. }
  split_and!.
  - by apply (same_payload_own _ _ _ _ id now).
  - by eapply wf_message_ext.
  - rewrite Heq by done. unfold p.
    by destruct (to_dict_mandatory (message_of sid d refs id now)) as (_ & _ & _ & _ & _ & _ & -> & _).
Qed.

Lemma inbox_delivered sid d m refs id now s rid :
  rid ∈ recipients m d -> is_Some (agents s !! rid) ->
  inbox_of (delivered sid d m refs id now s).2 rid !! id =
  Some {| content := Some (VDict (delivered sid d m refs id now s).1); mtime := now |}.
Proof.
  intros Hr Ha.
  transitivity (inbox_of (set_agents (with_inbox (recipients m d) id
    {| content := Some (VDict (delivered sid d m refs id now s).1); mtime := now |}
    (agents s)) s) rid !! id); [done|].
  rewrite inbox_of_with, bool_decide_eq_true_2 by done. apply lookup_insert_eq.
Qed.

Lemma replay_delivered py_repr sid d m refs id sfx now now' s :
  validate_agent_id sid = Ok tt -> sendable s d m refs -> _validate_msg_id id = Ok tt ->
  new_id s (recipients m d) id -> recipients m d <> [] ->
  wf_message (Message.to_dict (message_of sid d refs id now)) (Some sid) None None ->
  let s' := (delivered sid d m refs id now s).2 in
  exists txt, send py_repr sid d (Some id) sfx now' s' = (Ok (Some txt), s').
Proof.
  intros Hs Hsb Hv Hnew Hne Hwf s'. set (p := (delivered sid d m refs id now s).1).
  assert (Hin : forall rid, rid ∈ recipients m d ->
    inbox_of s' rid !! id = Some {| content := Some (VDict p); mtime := now |}).
  { intros rid Hr. apply inbox_delivered; [done|]. by apply (sb_agents _ _ _ _ Hsb). }
  destruct (own_form py_repr sid d refs id now (next_cursor now (cursor s)) p) as (H1 & H2 & H3);
    [by right|done|].
  destruct (send_replay py_repr sid id d s' m refs p now' sfx) as [txt Htxt]; try done.
  - apply (sendable_ext s' s); try done. intros a Ha. cbn. rewrite with_inbox_lookup.
    by apply fmap_is_Some.
  - unfold existing_copy. destruct (recipients m d) as [|r rids] eqn:E; [done|]. simpl first_some.
    by rewrite (Hin r) by (by left).
  - cbn. rewrite lookup_insert_ne; [apply Hnew|]. unfold tmp_name. intros Heq.
    apply (f_equal String.length) in Heq. rewrite string_length_app in Heq. simpl in Heq. lia.
  - exists txt. rewrite Htxt.
    assert (missing s' (recipients m d) id = []) as ->.
    { apply filter_nil_iff. intros rid Hr. by rewrite (Hin rid Hr). }
    assert (Hh : is_Some (history s' !! id)) by (by cbn; rewrite lookup_insert_eq).
    destruct Hh as [g ->]. by rewrite with_inbox_nil.
Qed.

(** *** A history record torn by a crash *)
Lemma history_blocked sid msg id now s :
  dget msg "msg_id" = Some (VStr id) -> is_Some (history s !! tmp_name id) ->
  exists e, run_steps (history_steps sid msg now) s = (Raise e, s).
Proof.
  intros Hid [f Hf]. unfold run_steps, history_steps. cbn [st_iter]. rewrite st_bind_unfold.
  pose proof (history_check_read_only sid msg s) as Hro. destruct (history_check sid msg s) as [[[]|e] s1]; simpl in Hro; subst s1;
    [|by eexists].
  rewrite st_bind_unfold. unfold history_create. rewrite (dstr_Some _ _ _ Hid).
  rewrite st_bind_unfold. unfold gets. rewrite st_bind_unfold. unfold ensure.
  rewrite Hf. rewrite bool_decide_eq_false_2 by done. by eexists.
Qed.

(** What is left between the creation and the publication of the history record. *)
Definition torn (sid : string) (d : draft) (m : session_meta) (refs : list AttachmentRef) (id : string)
    (now : Z) (s : session) : session :=
  let r := delivered sid d m refs id now s in
  set_history (<[tmp_name id := {| content := Some (VDict r.1); mtime := now |}]> (history s)) r.2.
Lemma crashed_ends sid d m refs id now s n :
  let p := Message.to_dict (message_of sid d refs id now) in
  validate_agent_id sid = Ok tt -> sendable s d m refs ->
  wf_message p (Some sid) None None -> _validate_msg_id id = Ok tt ->
  history s !! id = None -> history s !! tmp_name id = None ->
  (n = 2 * length (recipients m d) + 3 -> crashed sid id d m refs now s n = torn sid d m refs id now s)%nat /\
  (n >= 2 * length (recipients m d) + 4 -> crashed sid id d m refs now s n = (delivered sid d m refs id now s).2)%nat.
Proof.
  intros p Hs Hsb Hwf Hv Hn Ht. unfold crashed. fold p. split; intros Hlen.
  - set (c := next_cursor now (cursor s)). set (q := stamped p c).
    set (w := fun q => map (fun rid => put_inbox rid id (VDict q) now) (recipients m d)).
    assert (Hl : forall q, length (w q) = length (recipients m d)) by (intros; apply length_map).
    assert (Hw : write_phase sid id (recipients m d) p c now =
      (w p ++ [_ ← advance_cursor sid now; mret tt] ++ w q ++ [history_check sid q; history_create q now]) ++
      [history_publish q]) by (unfold write_phase, history_steps; by rewrite <- !app_assoc).
    rewrite Hw, take_app_length' by (rewrite !length_app, !Hl; simpl; lia). clear Hw.
    unfold w. rewrite run_steps_app, run_put, run_steps_app. unfold run_steps at 1. cbn [st_iter].
    rewrite st_bind_unfold, st_bind_unfold, advance_cursor_eq by done. cbn. rewrite run_steps_app, run_put.
    pose proof (wf_message_stamped _ c _ _ _ Hwf) as Hq%validate_wf. fold q in Hq.
    assert (Hid : dstr q "msg_id" = id).
    { apply dstr_Some. unfold q, stamped, p. rewrite dget_dset_ne by done.
      by destruct (to_dict_mandatory (message_of sid d refs id now)) as (_ & _ & _ & _ & _ & _ & -> & _). }
    unfold run_steps, history_check, history_create. cbn [st_iter]. rewrite Hid.
    repeat (rewrite st_bind_unfold; unfold lift, gets, ensure, modify; rewrite ?Hs, ?Hq, ?Hv, ?Hn, ?Ht; cbn).
    rewrite bool_decide_eq_true_2 by done. cbn.
    repeat (rewrite st_bind_unfold; unfold lift, gets, ensure, modify; rewrite ?Hid, ?Ht; cbn).
    unfold torn, delivered, set_history, set_agents, set_cursor. cbn.
    rewrite with_inbox_twice. pose proof (sb_present _ _ _ _ Hsb) as Hpr. by rewrite ?Hpr.
  - rewrite take_ge; [exact (f_equal snd (run_write_phase sid d m refs id now s Hs Hsb Hwf Hv Hn Ht))|]. unfold write_phase. rewrite !length_app, !length_map. simpl. lia.
Qed.
Lemma send_torn py_repr sid d m refs id sfx now now' s :
  validate_agent_id sid = Ok tt -> sendable s d m refs -> _validate_msg_id id = Ok tt ->
  new_id s (recipients m d) id -> recipients m d <> [] ->
  wf_message (Message.to_dict (message_of sid d refs id now)) (Some sid) None None ->
  let s1 := torn sid d m refs id now s in
  history s1 !! id = None /\ exists e, send py_repr sid d (Some id) sfx now' s1 = (Raise e, s1).
Proof.
  intros Hs Hsb Hv (Hn & Ht & Hni) Hne Hwf s1. set (p := (delivered sid d m refs id now s).1).
  assert (Hh : history s1 !! id = None).
  { cbn. rewrite lookup_insert_ne; [done|]. unfold tmp_name. intros Heq.
    apply (f_equal String.length) in Heq. rewrite string_length_app in Heq. simpl in Heq. lia. }
  split; [done|].
  assert (Hin : forall rid, rid ∈ recipients m d ->
    inbox_of s1 rid !! id = Some {| content := Some (VDict p); mtime := now |}).
  { intros rid Hr. apply (inbox_delivered sid d m refs id now s rid Hr). by apply (sb_agents _ _ _ _ Hsb). }
  destruct (own_form py_repr sid d refs id now (next_cursor now (cursor s)) p) as (H1 & H2 & H3); [by right|done|].
  assert (Hsb1 : sendable s1 d m refs).
  { apply (sendable_ext s1 s); try done. intros a Ha. cbn. rewrite with_inbox_lookup. by apply fmap_is_Some. }
  assert (He : existing_copy s1 (recipients m d) id = Some (VDict p)).
  { unfold existing_copy. destruct (recipients m d) as [|r rids] eqn:E; [done|]. simpl first_some.
    by rewrite (Hin r) by (by left). }
  assert (Hmiss : missing s1 (recipients m d) id = []).
  { apply filter_nil_iff. intros rid Hr. by rewrite (Hin rid Hr). }
  unfold send. rewrite st_bind_unfold. unfold lift at 1. rewrite Hs.
  rewrite st_bind_unfold, (send_checks_sendable s1 d m refs) by done.
  rewrite st_bind_unfold. unfold lift. rewrite Hv. rewrite st_bind_unfold. unfold gets. rewrite He.
  unfold fmap, st_fmap, replay. rewrite st_bind_unfold. unfold lift. rewrite H1.
  rewrite st_bind_unfold. unfold ensure. rewrite st_bind_unfold. unfold gets. rewrite Hmiss.
  cbn [st_iter]. rewrite st_bind_unfold. cbn -[append_history s1].
  rewrite st_bind_unfold. cbn -[append_history s1]. rewrite st_bind_unfold. rewrite Hh, bool_decide_eq_true_2 by done. unfold append_history.
  destruct (history_blocked sid p id now' s1 H3) as [e Hb].
  { cbn. rewrite lookup_insert_eq. by eexists. }
  exists e. change (stamped _ _) with p. by rewrite !st_bind_unfold, Hb.
Qed.

(** C4: a send that is cut off by a crash can be repeated under the same
    identifier, except in one place.  After any part of the write phase up to
    the creation of the history record's temporary file, as long as the first
    envelope was written, the repeated send succeeds, and then every recipient
    has the message, with or without its cursor, and the history has it.
    Between the creation of that file and its publication every repetition
    raises and changes nothing, and the message never gets its history record.
    After the publication the send is complete, and repeating a completed send
    changes nothing. *)
Theorem send_replay_recovers py_repr sid d m id sfx sfx' now now' s txt s' n :
  meta s = Some m -> new_id s (recipients m d) id -> recipients m d <> [] ->
  send py_repr sid d (Some id) sfx now s = (Ok (Some txt), s') -> (1 <= n)%nat ->
  exists refs,
    let p := Message.to_dict (message_of sid d refs id now) in
    let own v := v = VDict p \/ v = VDict (stamped p (next_cursor now (cursor s))) in
    let s1 := crashed sid id d m refs now s n in
    s' = (delivered sid d m refs id now s).2 /\
    (exists txt', send py_repr sid d (Some id) sfx' now' s' = (Ok (Some txt'), s')) /\
    ((n <= 2 * length (recipients m d) + 2)%nat -> exists txt' s2,
      send py_repr sid d (Some id) sfx' now' s1 = (Ok (Some txt'), s2) /\
      (forall rid, rid ∈ recipients m d ->
         exists f v, inbox_of s2 rid !! id = Some f /\ content f = Some v /\ own v) /\
      exists f v, history s2 = <[id := f]> (history s) /\ content f = Some v /\ own v) /\
    ((n = 2 * length (recipients m d) + 3)%nat -> history s1 !! id = None /\
      exists e, send py_repr sid d (Some id) sfx' now' s1 = (Raise e, s1)) /\
    ((n >= 2 * length (recipients m d) + 4)%nat -> s1 = s').
Proof.
  intros Hm Hnew Hne Hsend Hn0.
  destruct (send_new_Ok _ _ _ _ _ _ _ _ _ _ Hm Hnew Hsend) as (refs & Hs & Hsb & Hv & Hwf & ->).
  exists refs. cbn zeta. split; [done|]. split; [by apply replay_delivered|].
  pose proof Hnew as (Hn1 & Hn2 & _).
  destruct (crashed_ends sid d m refs id now s n) as [Htorn Hdone]; [done..|].
  split; [intros Hn|split; [intros Hn; rewrite (Htorn Hn); by apply send_torn|exact Hdone]].
  set (s1 := crashed sid id d m refs now s n).
  destruct (crashed_partial sid id d m refs now s n) as (r & Hr & Hp); try done;
    [apply Hsb|intros rid Hrid; by apply Hsb|]. fold s1 in Hp. clear Htorn Hdone.
  destruct (partial_copy _ _ _ _ _ _ _ _ _ Hp Hr) as (e & He & Hform).
  destruct (own_form py_repr sid d refs id now _ e Hform Hwf) as (H1 & H2 & H3).
  pose proof (pt_history _ _ _ _ _ _ _ _ _ Hp) as Hh.
  assert (Hsb1 : sendable s1 d m refs).
  { apply (sendable_ext s1 s); try apply Hp; try done. }
  destruct (send_replay py_repr sid id d s1 m refs e now' sfx') as [txt' Htxt]; try done;
    [by rewrite Hh|].
  rewrite Hh, Hn1 in Htxt. eexists txt', _. split; [exact Htxt|].
  set (f := {| content := Some (VDict e); mtime := now' |}).
  assert (Hown : VDict e = VDict (Message.to_dict (message_of sid d refs id now)) \/
    VDict e = VDict (stamped (Message.to_dict (message_of sid d refs id now))
                       (next_cursor now (cursor s)))) by (destruct Hform as [-> | ->]; auto).
  split; [|by exists f, (VDict e)]. intros rid Hrid.
  change (inbox_of (set_history _ ?x) rid) with (inbox_of x rid). rewrite inbox_of_with.
  destruct (inbox_of s1 rid !! id) as [g|] eqn:Hg.
  - exists g. rewrite bool_decide_eq_false_2.
    + destruct (pt_inbox _ _ _ _ _ _ _ _ _ Hp rid g Hrid Hg) as [_ [Hc|Hc]]; eauto.
    + intros [[_ ?]%missing_spec _]. congruence.
  - exists f, (VDict e). rewrite bool_decide_eq_true_2; [by rewrite lookup_insert_eq|].
    split; [by apply missing_spec|]. by apply (sb_agents _ _ _ _ Hsb1).
Qed.

(** *** A concrete session *)
Definition demo : session :=
  (session_init "s1" "mgr" ["w1"; "w2"] None None None 1700000000000 empty_session).2.
Definition demo_meta : session_meta := default
  {| m_manager := ""; m_agents := []; m_revision := 0; m_created := None; m_acl := None;
     m_execution_modes := None; m_return_modes := None |} (meta demo).
Definition demo_draft (to : string) : draft :=
  {| d_from := "mgr"; d_to := to; d_subject := "hello"; d_body := "body"; d_kind := "NOTICE";
     d_reply_to := ""; d_run_id := ""; d_request_id := ""; d_command_id := "";
     d_trace_id := "t1"; d_causation_id := ""; d_attachments := None;
     d_require_ack := false; d_receipt_type := "" |}.
(** A stand-in for [repr]: no value of these sends needs it. *)
Definition demo_repr (v : pyval) : string := "?".

Lemma demo_new_id to id : new_id demo (recipients demo_meta (demo_draft to)) id.
Proof.
  split; [apply lookup_empty|]. split; [apply lookup_empty|]. intros rid _.
  unfold inbox_of. destruct (agents demo !! rid) as [a|] eqn:E; [|exact (lookup_empty id)].
  assert (Hall : map_Forall (fun _ a => length (map_to_list (inbox a)) = 0%nat) (agents demo)).
  { refine (bool_decide_unpack _ _). vm_compute. exact I. }
  apply Hall, nil_length_inv, map_to_list_empty_iff in E. simpl. by rewrite E, lookup_empty.
Qed.

Lemma send_all_or_nothing_witness :
  let r := send demo_repr "s1" (demo_draft "*") (Some "m1") [] 1700000005000 demo in
  (exists txt, r.1 = Ok (Some txt)) /\
  (r.2 = demo /\ (r.1 = Ok None \/ exists e, r.1 = Raise e) \/
  exists txt m refs id,
    r.1 = Ok (Some txt) /\ sendable demo (demo_draft "*") m refs /\ id = "m1" /\
    history demo !! id = None /\
    r.2 = (delivered "s1" (demo_draft "*") m refs id 1700000005000 demo).2 /\
    forall rid, rid ∈ recipients m (demo_draft "*") ->
      validate_message (VDict (delivered "s1" (demo_draft "*") m refs id 1700000005000 demo).1)
        (Some "s1") (Some rid) (Some (id +:+ ".json")) = Ok Valid).
Proof.
  cbv zeta. split; [eexists; vm_compute; reflexivity|].
  apply (send_all_or_nothing demo_repr "s1" (demo_draft "*") (Some "m1") [] 1700000005000 demo _ _
           (surjective_pairing _)).
  - intros m [= <-]. apply (demo_new_id "*").
  - intros x Hx. by apply not_elem_of_nil in Hx.
Defined.

Lemma send_replay_recovers_witness :
  let s' := (send demo_repr "s1" (demo_draft "*") (Some "m1") [] 1700000005000 demo).2 in
  exists refs,
    let p := Message.to_dict (message_of "s1" (demo_draft "*") refs "m1" 1700000005000) in
    let own v := v = VDict p \/ v = VDict (stamped p (next_cursor 1700000005000 (cursor demo))) in
    let s1 := crashed "s1" "m1" (demo_draft "*") demo_meta refs 1700000005000 demo 1 in
    s' = (delivered "s1" (demo_draft "*") demo_meta refs "m1" 1700000005000 demo).2 /\
    (exists txt', send demo_repr "s1" (demo_draft "*") (Some "m1") [] 1700000009000 s' = (Ok (Some txt'), s')) /\
    exists txt' s2,
      send demo_repr "s1" (demo_draft "*") (Some "m1") [] 1700000009000 s1 = (Ok (Some txt'), s2) /\
      (forall rid, rid ∈ recipients demo_meta (demo_draft "*") ->
         exists f v, inbox_of s2 rid !! "m1" = Some f /\ content f = Some v /\ own v) /\
      exists f v, history s2 = <["m1" := f]> (history demo) /\ content f = Some v /\ own v.
Proof.
  intros s'.
  destruct (send_replay_recovers demo_repr "s1" (demo_draft "*") demo_meta "m1" [] []
    1700000005000 1700000009000 demo
    "broadcast → 2 recipients" s' 1 eq_refl (demo_new_id "*" "m1")) as (refs & H1 & H2 & H3 & _).
  - vm_compute. discriminate.
  - apply injective_projections; [vm_compute; reflexivity|reflexivity].
  - lia.
  - exists refs. cbv zeta. split; [exact H1|]. split; [exact H2|]. apply H3. vm_compute. lia.
Defined.

(** *** A leftover of the history's temporary file *)
Lemma existing_copy_Some s rids id v :
  existing_copy s rids id = Some v -> history s !! id = None ->
  exists rid g, inbox_of s rid !! id = Some g /\ loaded g = Some v.
Proof.
  unfold existing_copy. intros H Hh. rewrite Hh in H.
  destruct (first_some _ rids) as [w|] eqn:E; [|done]. injection H as ->. clear Hh.
  induction rids as [|r rids IH]; simpl in E; [done|].
  destruct (inbox_of s r !! id) as [g|] eqn:Hg; simpl in E; [|by apply IH].
  destruct (loaded g) eqn:Hl; [|by apply IH]. injection E as ->. eauto.
Qed.

Lemma deliver_blocked sid id d refs rids now s :
  is_Some (history s !! tmp_name id) ->
  exists e s', deliver sid id d refs rids now s = (Raise e, s') /\ history s' = history s.
Proof.
  intros Hf. unfold deliver. cbn zeta. set (p := Message.to_dict _).
  rewrite st_bind_unfold. unfold lift. destruct (valid_or_raise _ _) as [u|e]; [|by eexists _, _].
  rewrite st_bind_unfold. unfold gets. rewrite st_bind_unfold. unfold write_phase.
  rewrite run_steps_app, run_put, run_steps_app.
  unfold run_steps at 1. cbn [st_iter]. rewrite st_bind_unfold, st_bind_unfold.
  destruct (validate_agent_id sid) as [[]|e] eqn:Hs;
    [rewrite advance_cursor_eq by done
    |unfold advance_cursor; rewrite st_bind_unfold; unfold lift; rewrite Hs; by eexists _, _].
  cbn -[history_steps]. rewrite run_steps_app, run_put.
  destruct (history_blocked sid (stamped p (next_cursor now (cursor s))) id now
    (set_agents (with_inbox rids id {| content := Some (VDict (stamped p (next_cursor now (cursor s)))); mtime := now |}
       (with_inbox rids id {| content := Some (VDict p); mtime := now |} (agents s)))
       (set_cursor (next_cursor now (cursor s))
          (set_agents (with_inbox rids id {| content := Some (VDict p); mtime := now |} (agents s)) s))))
    as [e He].
  - unfold stamped, p. rewrite dget_dset_ne by done.
    by destruct (to_dict_mandatory (message_of sid d refs id now)) as (_ & _ & _ & _ & _ & _ & -> & _).
  - done.
  - cbn in He |- *. rewrite He. by eexists _, _.
Qed.

(** a crash between the creation of the history's temporary file and its
    publication blocks the message for good: every later send under the same
    identifier raises and leaves the history as it is, so the message never
    gets its history record. *)
Theorem torn_history_blocks py_repr sid d id sfx now s r s' :
  is_Some (history s !! tmp_name id) -> history s !! id = None ->
  (forall rid g e, inbox_of s rid !! id = Some g -> content g = Some (VDict e) ->
     dget e "msg_id" = Some (VStr id)) ->
  send py_repr sid d (Some id) sfx now s = (r, s') ->
  (exists e, r = Raise e) /\ history s' = history s.
Proof.
  intros Hf Hh Hids H. unfold send in H. rewrite st_bind_unfold in H. unfold lift in H.
  destruct (validate_agent_id sid) as [[]|e]; [|injection H as <- <-; eauto].
  rewrite st_bind_unfold in H. pose proof (send_checks_read_only d s) as Hro.
  destruct (send_checks d s) as [[[refs rids]|e] s1]; simpl in Hro; subst s1;
    [|injection H as <- <-; eauto].
  rewrite st_bind_unfold in H.
  destruct (_validate_msg_id id) as [[]|e]; [|injection H as <- <-; eauto].
  rewrite st_bind_unfold in H. unfold gets in H. unfold fmap, st_fmap in H.
  destruct (existing_copy s rids id) as [v|] eqn:Hc.
  - apply existing_copy_Some in Hc as (rid & g & Hg & Hl); [|done].
    unfold replay in H. rewrite st_bind_unfold in H. unfold lift in H.
    destruct (same_payload py_repr sid d refs v) as [same|e] eqn:Hsame;
      [|injection H as <- <-; eauto].
    rewrite st_bind_unfold in H. unfold ensure in H.
    destruct same; [|injection H as <- <-; eauto].
    rewrite st_bind_unfold in H. unfold gets in H at 1.
    rewrite st_bind_unfold, st_iter_steps, run_put in H.
    rewrite st_bind_unfold in H. unfold gets in H. rewrite st_bind_unfold in H.
    cbn [history set_agents] in H. rewrite Hh, bool_decide_eq_true_2 in H by done.
    destruct v as [| | | | | |e]; try (injection H as <- <-; eauto).
    assert (Hid : dget e "msg_id" = Some (VStr id)).
    { unfold loaded in Hl. destruct (content g) as [w|] eqn:Hw; [|by injection Hl as <-].
      apply (Hids rid g e Hg). by destruct w; simplify_eq. }
    unfold append_history in H. rewrite !st_bind_unfold in H.
    destruct (history_blocked sid e id now (set_agents (with_inbox (missing s rids id) id
      {| content := Some (VDict e); mtime := now |} (agents s)) s)) as [e' He']; [done..|].
    rewrite He' in H. injection H as <- <-. eauto.
  - destruct (deliver_blocked sid id d refs rids now s Hf) as (e & s1 & He & Hs1).
    rewrite He in H. injection H as <- <-. eauto.
Qed.

(** The session after a send that stopped between the two history steps. *)
Definition torn_demo : session :=
  crashed "s1" "m1" (demo_draft "w1") demo_meta [] 1700000005000 demo 5.

Lemma torn_history_blocks_witness :
  let r := send demo_repr "s1" (demo_draft "w1") (Some "m1") [] 1700000009000 torn_demo in
  (exists e, r.1 = Raise e) /\ history r.2 = history torn_demo.
Proof.
  cbv zeta. apply (torn_history_blocks demo_repr "s1" (demo_draft "w1") "m1" [] 1700000009000 torn_demo
    _ _).
  - vm_compute. by eexists.
  - vm_compute. reflexivity.
  - intros rid g e Hg He. unfold inbox_of in Hg.
    destruct (agents torn_demo !! rid) as [a|] eqn:E; [|by simpl in Hg; rewrite lookup_empty in Hg].
    assert (Hall : map_Forall (fun _ a => match inbox a !! "m1" with
      | Some f => match content f with
                  | Some (VDict e) => eq_str (dgetd e "msg_id" VNone) "m1"
                  | _ => true
                  end
      | None => true end = true) (agents torn_demo)).
    { refine (bool_decide_unpack _ _). vm_compute. exact I. }
    specialize (Hall rid a E). cbn beta in Hall. simpl in Hg. rewrite Hg, He in Hall.
    apply eq_str_true in Hall. unfold dgetd in Hall. destruct (dget e "msg_id"); congruence.
  - apply surjective_pairing.
Defined.

(** the replay looks for copies in the inboxes and the history only.  When
    a message was sent and every recipient has consumed it (moved it out of
    its inbox), sending it again under its identifier puts it back into every
    recipient's inbox, whatever is in processing/ and archive/. *)
Theorem replay_redelivers py_repr sid d m id sfx sfx' now now' s txt s1 s2 :
  meta s = Some m -> new_id s (recipients m d) id -> recipients m d <> [] ->
  send py_repr sid d (Some id) sfx now s = (Ok (Some txt), s1) ->
  present s2 = true -> meta s2 = meta s1 -> history s2 = history s1 ->
  (forall a, is_Some (agents s1 !! a) -> is_Some (agents s2 !! a)) ->
  (forall rid, rid ∈ recipients m d -> inbox_of s2 rid !! id = None) ->
  exists txt' s3 v, send py_repr sid d (Some id) sfx' now' s2 = (Ok (Some txt'), s3) /\
    content <$> history s !! id = None /\ content <$> history s1 !! id = Some v /\
    (forall rid, rid ∈ recipients m d ->
       inbox_of s3 rid !! id = Some {| content := v; mtime := now' |}) /\
    forall a, archive <$> agents s3 !! a = archive <$> agents s2 !! a.
Proof.
  intros Hm Hnew Hne Hsend Hp2 Hm2 Hh2 Ha2 Hi2.
  destruct (send_new_Ok _ _ _ _ _ _ _ _ _ _ Hm Hnew Hsend) as (refs & Hs & Hsb & Hv & Hwf & ->).
  set (s1 := (delivered sid d m refs id now s).2) in *.
  set (p := (delivered sid d m refs id now s).1).
  assert (Hh1 : history s1 !! id = Some {| content := Some (VDict p); mtime := now |})
    by apply lookup_insert_eq.
  destruct Hnew as (Hn & Hnt & Hni).
  destruct (own_form py_repr sid d refs id now (next_cursor now (cursor s)) p) as (H1 & H2 & H3);
    [by right|done|].
  assert (Hsb2 : sendable s2 d m refs).
  { apply (sendable_ext s2 s); try done. intros a Ha. apply Ha2.
    cbn. rewrite with_inbox_lookup. by apply fmap_is_Some. }
  destruct (send_replay py_repr sid id d s2 m refs p now' sfx') as [txt' Htxt]; try done.
  - unfold existing_copy.
    assert (first_some (fun rid => inbox_of s2 rid !! id ≫= loaded) (recipients m d) = None) as ->.
    { clear - Hi2. induction (recipients m d) as [|r rids IH]; simpl; [done|].
      rewrite (Hi2 r) by (by left). simpl. apply IH. intros r' Hr'. apply Hi2. by right. }
    by rewrite Hh2, Hh1.
  - rewrite Hh2. cbn. rewrite lookup_insert_ne; [done|]. unfold tmp_name. intros Heq.
    apply (f_equal String.length) in Heq. rewrite string_length_app in Heq. simpl in Heq. lia.
  - rewrite Hh2, Hh1 in Htxt. eexists txt', _, (Some (VDict p)). split; [exact Htxt|].
    rewrite Hn, Hh1. split_and!; try done.
    + intros rid Hr. rewrite inbox_of_with, bool_decide_eq_true_2; [by rewrite lookup_insert_eq|].
      split; [apply missing_spec; auto|]. by apply (sb_agents _ _ _ _ Hsb2).
    + intros a. cbn [agents set_agents]. rewrite with_inbox_lookup.
      destruct (agents s2 !! a) as [ag|]; [|done]. cbn. by case_bool_decide.
Qed.

(** [w1] takes "m1" out of its inbox into its archive. *)
Definition consume (s : session) : session :=
  set_agents (alter (fun a => {| inbox := delete "m1" (inbox a); processing := processing a;
    archive := match inbox a !! "m1" with Some f => <["m1" := f]> (archive a) | None => archive a end;
    corrupt := corrupt a; claims := claims a; tmp_claims := tmp_claims a |}) "w1" (agents s)) s.

Lemma replay_redelivers_witness :
  let s1 := (send demo_repr "s1" (demo_draft "w1") (Some "m1") [] 1700000005000 demo).2 in
  let s2 := consume s1 in
  exists txt' s3 v, send demo_repr "s1" (demo_draft "w1") (Some "m1") [] 1700000009000 s2
      = (Ok (Some txt'), s3) /\
    content <$> history demo !! "m1" = None /\ content <$> history s1 !! "m1" = Some v /\
    (forall rid, rid ∈ recipients demo_meta (demo_draft "w1") ->
       inbox_of s3 rid !! "m1" = Some {| content := v; mtime := 1700000009000 |}) /\
    forall a, archive <$> agents s3 !! a = archive <$> agents s2 !! a.
Proof.
  cbv zeta.
  refine (replay_redelivers demo_repr "s1" (demo_draft "w1") demo_meta "m1" [] []
    1700000005000 1700000009000 demo _ _ _ eq_refl (demo_new_id "w1" "m1") _ _ _ _ _ _ _).
  - vm_compute. discriminate.
  - apply injective_projections; [vm_compute; reflexivity|reflexivity].
  - vm_compute. reflexivity.
  - reflexivity.
  - reflexivity.
  - intros a Ha. unfold consume. cbn [agents set_agents].
    destruct (decide (a = "w1")) as [->|Hne].
    + rewrite lookup_alter_eq. by apply fmap_is_Some.
    + by rewrite lookup_alter_ne.
  - intros rid Hr. apply list_elem_of_singleton in Hr as ->. vm_compute. reflexivity.
Defined.

(** ** The evolution of a session *)
Inductive store_op :=
| OpInit (manager_id : string) (agent_ids : list string) (acl : option pyval)
    (execution_modes return_modes : option (list (string * string))) (now : Z)
| OpSend (d : draft) (msg_id : option string) (suffixes : list string) (now : Z)
| OpCursor (now : Z)
| OpHistory (message : pydict) (now : Z).

Definition exec (py_repr : pyval -> string) (sid : string) (op : store_op) (s : session) : session :=
  match op with
  | OpInit mg ags acl em rm now => (session_init sid mg ags acl em rm now s).2
  | OpSend d id sfx now => (send py_repr sid d id sfx now s).2
  | OpCursor now => (advance_cursor sid now s).2
  | OpHistory msg now => (append_history sid msg now s).2
  end.

(** [s'] is a later state of the session [s]. *)
Record evolves (s s' : session) : Prop := {
  ev_history : forall id f, visible id = true -> history s !! id = Some f ->
    history s' !! id = Some f;
  ev_agents : forall a, is_Some (agents s !! a) -> is_Some (agents s' !! a);
  ev_meta : forall m, meta s = Some m -> exists m', meta s' = Some m' /\
    m_manager m' = m_manager m /\ m_agents m ⊆ m_agents m' /\ m_revision m <= m_revision m' /\
    m_created m' = m_created m }.

#[export] Instance evolves_preorder : PreOrder evolves.
Proof.
  split.
  - intros s. split; [done|done|]. intros m Hm. exists m. split_and!; done.
  - intros s1 s2 s3 [H1 H2 H3] [G1 G2 G3]. split; [eauto|eauto|].
    intros m Hm. destruct (H3 m Hm) as (m2 & Hm2 & ? & ? & ? & ?).
    destruct (G3 m2 Hm2) as (m3 & Hm3 & ? & ? & ? & ?).
    exists m3. split_and!; [done|congruence|by etrans|lia|congruence].
Qed.

(** [grows m]: whatever [m] does, the session evolves. *)
Definition grows {A} (m : st session A) : Prop := forall s, evolves s (m s).2.

Lemma grows_bind {A B} (m : st session A) (k : A -> st session B) :
  grows m -> (forall a, grows (k a)) -> grows (m ≫= k).
Proof.
  intros Hm Hk s. rewrite st_bind_unfold. specialize (Hm s).
  destruct (m s) as [[a|e] s1]; simpl in *; [|done]. etrans; [done|]. apply Hk.
Qed.
Lemma grows_fmap {A B} (f : A -> B) (m : st session A) : grows m -> grows (f <$> m).
Proof.
  intros Hm s. specialize (Hm s). unfold fmap, st_fmap. by destruct (m s) as [[a|e] s1].
Qed.
Lemma grows_read {A} (m : st session A) : read_only m -> grows m.
Proof. intros Hm s. by rewrite Hm. Qed.
Lemma grows_iter {A} (f : A -> st session unit) l : (forall x, grows (f x)) -> grows (st_iter f l).
Proof.
  intros Hf. induction l as [|x l IH]; simpl; [by apply grows_read|]. by apply grows_bind.
Qed.
Lemma grows_ensure b e : grows (ensure b e).
Proof. apply grows_read, read_only_ensure. Qed.
Lemma grows_modify f :
  (forall s, evolves s (f s)) -> grows (modify f).
Proof. intros Hf s. apply Hf. Qed.

(** A change of the agents or of the cursor alone. *)
Lemma evolves_agents s s' :
  meta s' = meta s -> history s' = history s ->
  (forall a, is_Some (agents s !! a) -> is_Some (agents s' !! a)) -> evolves s s'.
Proof.
  intros Hm Hh Ha. split; [by rewrite Hh|done|]. intros m Hs. rewrite Hm. exists m. done.
Qed.

Lemma ensure_agent_dirs_grows aid : grows (_ensure_agent_dirs aid).
Proof.
  apply grows_modify. intros s. apply evolves_agents; try done.
  intros a Ha. cbn. destruct (agents s !! aid); [done|].
  destruct (decide (a = aid)) as [->|]; [by rewrite lookup_insert_eq|by rewrite lookup_insert_ne].
Qed.

Lemma set_meta_evolves s m m' :
  meta s = Some m -> m_manager m' = m_manager m -> m_agents m ⊆ m_agents m' ->
  m_revision m <= m_revision m' -> m_created m' = m_created m -> evolves s (set_meta m' s).
Proof.
  intros Hm H1 H2 H3 H4. split; [done|done|]. intros m0 Hm0. exists m'. naive_solver.
Qed.

Lemma session_init_grows sid mg ags acl em rm now : grows (session_init sid mg ags acl em rm now).
Proof.
  unfold session_init.
  do 3 (apply grows_bind; [by apply grows_read|]; intros _).
  apply grows_bind; [apply grows_modify; intros s; by apply evolves_agents|]. intros _ s.
  rewrite st_bind_unfold. unfold gets. destruct (meta s) as [m|] eqn:Hm.
  - unfold merge_session. rewrite st_bind_unfold. unfold ensure at 1. destruct (_ || _); [|done].
    destruct (_ && _); [done|].
    set (added := filter _ _). rewrite st_bind_unfold.
    assert (Hd : evolves s (st_iter _ensure_agent_dirs added s).2 /\
                 meta (st_iter _ensure_agent_dirs added s).2 = meta s).
    { split; [apply grows_iter, ensure_agent_dirs_grows|].
      clear. revert s. induction added as [|a l IH]; intros s; [done|].
      simpl. rewrite st_bind_unfold. cbn. by rewrite IH. }
    destruct Hd as [Hd Hmeta]. destruct (st_iter _ _ s) as [[[]|e] s1]; simpl in *; [|done].
    etrans; [exact Hd|]. rewrite Hm in Hmeta. apply (set_meta_evolves _ m); try done; [|simpl; lia].
    simpl. intros a Ha. apply elem_of_sorted_set, elem_of_app. by left.
  - unfold create_session. rewrite st_bind_unfold. unfold modify.
    etrans; [|apply grows_bind; [apply grows_iter, ensure_agent_dirs_grows|]; intros _;
              apply grows_bind; [apply ensure_agent_dirs_grows|]; intros _; by apply grows_read].
    split; [done|done|]. intros m0 Hm0. congruence.
Qed.

Lemma history_steps_grow sid msg now : grows (run_steps (history_steps sid msg now)).
Proof.
  intros s. unfold run_steps, history_steps. cbn [st_iter]. rewrite st_bind_unfold.
  destruct (history_check sid msg s) as [[[]|e] s1] eqn:Hc.
  - unfold history_check in Hc.
    apply st_bind_Ok in Hc as ([] & ? & [_ ->]%lift_Ok & Hc).
    apply st_bind_Ok in Hc as (? & ? & [-> ->]%gets_Ok & Hc).
    apply st_bind_Ok in Hc as ([] & ? & [_ ->]%ensure_Ok & Hc).
    apply st_bind_Ok in Hc as ([] & ? & [_ ->]%lift_Ok & Hc).
    apply st_bind_Ok in Hc as ([] & ? & [_ ->]%lift_Ok & Hc).
    apply st_bind_Ok in Hc as (? & ? & [-> ->]%gets_Ok & Hc).
    apply ensure_Ok in Hc as [Hnew ->]. bool_to_prop.
    rewrite st_bind_unfold. unfold history_create. rewrite st_bind_unfold. unfold gets at 1.
    rewrite st_bind_unfold. unfold ensure. case_bool_decide; [|done]. unfold modify.
    rewrite st_bind_unfold. unfold history_publish. rewrite st_bind_unfold. unfold gets.
    cbn [history set_history]. rewrite lookup_insert_eq. cbn.
    split; [|done|by intros m Hm; exists m]. cbn. intros id f Hid Hf.
    destruct (decide (id = dstr msg "msg_id")) as [->|Hne]; [congruence|].
    rewrite lookup_insert_ne by done. rewrite delete_insert_eq.
    destruct (decide (id = tmp_name (dstr msg "msg_id"))) as [->|Hne']; [congruence|].
    by rewrite lookup_delete_ne.
  - pose proof (history_check_read_only sid msg s) as Hro. rewrite Hc in Hro. simpl in *. by subst.
Qed.

Lemma put_inbox_grows rid id v now : grows (put_inbox rid id v now).
Proof.
  apply grows_modify. intros s. apply evolves_agents; try done. intros a Ha. cbn.
  destruct (decide (a = rid)) as [->|Hne]; [|by rewrite lookup_alter_ne].
  rewrite lookup_alter_eq. by apply fmap_is_Some.
Qed.

Lemma advance_cursor_grows sid now : grows (advance_cursor sid now).
Proof.
  unfold advance_cursor. apply grows_bind; [by apply grows_read|]. intros _.
  apply grows_bind; [by apply grows_read|]. intros c.
  apply grows_bind; [apply grows_modify; intros s; by apply evolves_agents|]. intros _.
  by apply grows_read.
Qed.

Lemma append_history_grows sid msg now : grows (append_history sid msg now).
Proof.
  unfold append_history. apply grows_bind; [apply history_steps_grow|]. intros _. by apply grows_read.
Qed.

Lemma run_steps_grows l : (forall x, x ∈ l -> grows x) -> grows (run_steps l).
Proof.
  intros Hl. unfold run_steps. induction l as [|x l IH]; simpl; [by apply grows_read|].
  apply grows_bind; [apply Hl; by left|]. intros _. apply IH. intros y Hy. apply Hl. by right.
Qed.

Lemma deliver_grows sid id d refs rids now : grows (deliver sid id d refs rids now).
Proof.
  unfold deliver. apply grows_bind; [by apply grows_read|]. intros _.
  apply grows_bind; [by apply grows_read|]. intros c.
  apply grows_bind; [|intros _; by apply grows_read].
  set (p := Message.to_dict _). intros s. unfold write_phase. rewrite !app_assoc, run_steps_app.
  match goal with |- evolves _ (match run_steps ?l s with _ => _ end).2 =>
    assert (Hl : grows (run_steps l)) end.
  { apply run_steps_grows. intros x Hx. rewrite !elem_of_app, list_elem_of_singleton in Hx.
    destruct Hx as [[Hx| ->]|Hx].
    - apply list_elem_of_fmap in Hx as (r & -> & _). apply put_inbox_grows.
    - apply grows_bind; [apply advance_cursor_grows|]. intros _. by apply grows_read.
    - apply list_elem_of_fmap in Hx as (r & -> & _). apply put_inbox_grows. }
  specialize (Hl s). destruct (run_steps _ s) as [[[]|e] s1]; simpl in *; [|done].
  etrans; [exact Hl|]. apply history_steps_grow.
Qed.

Lemma replay_grows py_repr sid id d refs rids v now : grows (replay py_repr sid id d refs rids v now).
Proof.
  unfold replay. apply grows_bind; [by apply grows_read|]. intros same.
  apply grows_bind; [apply grows_ensure|]. intros _.
  apply grows_bind; [by apply grows_read|]. intros todo.
  apply grows_bind; [apply grows_iter; intros ?; apply put_inbox_grows|]. intros _.
  apply grows_bind; [by apply grows_read|]. intros h.
  apply grows_bind; [|intros _; by apply grows_read].
  case_bool_decide; [|by apply grows_read].
  destruct v; try by apply grows_read.
  apply grows_bind; [apply append_history_grows|]. intros _. by apply grows_read.
Qed.

Lemma send_grows py_repr sid d mid sfx now : grows (send py_repr sid d mid sfx now).
Proof.
  unfold send. apply grows_bind; [by apply grows_read|]. intros _.
  apply grows_bind; [apply grows_read, send_checks_read_only|]. intros [refs rids].
  destruct mid as [id|].
  - apply grows_bind; [by apply grows_read|]. intros _.
    apply grows_bind; [by apply grows_read|]. intros [e|].
    + apply grows_fmap, replay_grows.
    + apply grows_fmap, deliver_grows.
  - apply grows_bind; [by apply grows_read|]. intros [id|]; [|by apply grows_read].
    apply grows_fmap, deliver_grows.
Qed.

(** whatever operations run on a session, and whether they raise or not:
    a history record never changes or disappears, the roster only grows, the
    manager and the creation time stay, the manifest revision never goes
    down and no agent directory disappears. *)
Theorem session_evolution py_repr sid ops s :
  evolves s (foldl (fun s op => exec py_repr sid op s) s ops).
Proof.
  revert s. induction ops as [|op ops IH]; intros s; [done|]. simpl. etrans; [|apply IH].
  destruct op; simpl; [apply session_init_grows|apply send_grows|apply advance_cursor_grows|
                       apply append_history_grows].
Qed.

(** ** Initialising a session *)

(** Every rostered agent has its directory. *)
Definition dirs_ok (s : session) : Prop :=
  forall m a, meta s = Some m -> a ∈ m_agents m -> is_Some (agents s !! a).

Lemma ensure_dirs l s :
  let r := st_iter _ensure_agent_dirs l s in
  r.1 = Ok tt /\ present r.2 = present s /\ meta r.2 = meta s /\
  forall a, a ∈ l \/ is_Some (agents s !! a) -> is_Some (agents r.2 !! a).
Proof.
  revert s. induction l as [|x l IH]; intros s; [naive_solver set_solver|]. cbv zeta.
  set (s1 := (_ensure_agent_dirs x s).2).
  change (st_iter _ensure_agent_dirs (x :: l) s) with (st_iter _ensure_agent_dirs l s1).
  destruct (IH s1) as (H1 & H2 & H3 & H4).
  assert (Hx : forall a, a = x \/ is_Some (agents s !! a) -> is_Some (agents s1 !! a)).
  { intros a Ha. unfold s1. cbn. destruct (agents s !! x) eqn:E; [naive_solver|].
    destruct (decide (a = x)) as [->|]; [by rewrite lookup_insert_eq|].
    rewrite lookup_insert_ne by done. naive_solver. }
  split_and!; [done|by rewrite H2|by rewrite H3|].
  intros a Ha. apply H4. rewrite elem_of_cons in Ha. naive_solver.
Qed.

Lemma session_init_eq sid mg ags acl em rm now s :
  (forall x, x ∈ sid :: mg :: ags -> validate_agent_id x = Ok tt) ->
  session_init sid mg ags acl em rm now s =
  match meta s with
  | Some m => merge_session sid mg ags acl em rm m (set_present s)
  | None => create_session sid mg ags acl em rm now (set_present s)
  end.
Proof.
  intros Hval. unfold session_init.
  assert (Hags : res_iter validate_agent_id ags = Ok tt).
  { apply res_iter_Ok, Forall_forall. intros x Hx. apply Hval. set_solver. }
  rewrite st_bind_unfold. unfold lift at 1. rewrite Hval by set_solver.
  rewrite st_bind_unfold. unfold lift at 1. rewrite Hval by set_solver.
  rewrite st_bind_unfold. unfold lift at 1. rewrite Hags.
  rewrite st_bind_unfold. unfold modify at 1. rewrite st_bind_unfold. unfold gets.
  cbn. by destruct (meta s).
Qed.

(** The outcome of a merge. *)
Lemma merge_session_eq sid mg ags acl em rm m0 s :
  m_manager m0 = "" \/ m_manager m0 = mg ->
  exists txt, 
    let added := filter (fun a => a ∉ m_agents m0) (sorted_set ags) in
    merge_session sid mg ags acl em rm m0 s =
    (Ok txt, if bool_decide (added = []) && is_none acl && is_none em && is_none rm then s else
      set_meta {| m_manager := m_manager m0; m_agents := sorted_set (m_agents m0 ++ sorted_set ags);
                  m_revision := m_revision m0 + 1; m_created := m_created m0;
                  m_acl := match acl with Some a => Some a | None => m_acl m0 end;
                  m_execution_modes := merge_modes (m_execution_modes m0) em;
                  m_return_modes := merge_modes (m_return_modes m0) rm |}
        (st_iter _ensure_agent_dirs added s).2).
Proof.
  intros Hm. unfold merge_session. set (added := filter _ _). cbv zeta.
  assert (String.eqb (m_manager m0) "" || String.eqb (m_manager m0) mg = true) as ->.
  { by rewrite orb_true_iff, !String.eqb_eq. }
  rewrite st_bind_unfold. unfold ensure at 1. destruct (_ && _); [by eexists|].
  rewrite st_bind_unfold. destruct (ensure_dirs added s) as (H1 & _).
  destruct (st_iter _ensure_agent_dirs added s) as [r s1]. simpl in H1. subst r. by eexists.
Qed.

Lemma added_nil (ags old : list string) :
  filter (fun a => a ∉ old) (sorted_set ags) = [] <-> forall a, a ∈ ags -> a ∈ old.
Proof.
  rewrite filter_nil_iff. setoid_rewrite elem_of_sorted_set.
  split; intros H a Ha; [|by intros Hn; apply Hn, H].
  destruct (decide (a ∈ old)); [done|]. by destruct (H a Ha).
Qed.

(** Repeating the call changes nothing. *)
Lemma session_init_again sid mg ags now m s :
  (forall x, x ∈ sid :: mg :: ags -> validate_agent_id x = Ok tt) ->
  meta s = Some m -> present s = true -> (forall a, a ∈ ags -> a ∈ m_agents m) ->
  m_manager m = "" \/ m_manager m = mg ->
  exists txt, session_init sid mg ags None None None now s = (Ok txt, s).
Proof.
  intros Hval Hm Hp Ha Hmg. rewrite session_init_eq, Hm by done.
  destruct (merge_session_eq sid mg ags None None None m (set_present s) Hmg) as [txt ->].
  exists txt. rewrite bool_decide_eq_true_2 by (by apply added_nil). cbn. f_equal.
  destruct s. simpl in *. by subst.
Qed.

(** a successful [session_init] leaves a session whose roster is the old
    one and the given agents, sorted and without duplicates when it was
    rewritten, whose manager is the one given (or the one it had), in which
    every rostered agent has its directory; repeating the call changes
    nothing.  It fails on an existing session exactly when that has another
    manager. *)
Theorem session_init_spec sid mg ags acl em rm now s :
  (forall x, x ∈ sid :: mg :: ags -> validate_agent_id x = Ok tt) -> dirs_ok s ->
  let r := session_init sid mg ags acl em rm now s in
  match meta s with
  | Some m0 =>
    (exists e, r.1 = Raise e) <-> m_manager m0 <> "" /\ m_manager m0 <> mg
  | None => exists txt, r.1 = Ok txt
  end /\
  (is_ok r.1 = true -> exists m,
    meta r.2 = Some m /\ present r.2 = true /\ dirs_ok r.2 /\
    (forall a, a ∈ m_agents m <->
       a ∈ ags \/ exists m0, meta s = Some m0 /\ a ∈ m_agents m0) /\
    m_manager m = from_option m_manager mg (meta s) /\
    (meta s = Some m \/ m_agents m = sorted_set (m_agents m)) /\
    forall now', exists txt, session_init sid mg ags None None None now' r.2 = (Ok txt, r.2)).
Proof.
  intros Hval Hd. cbv zeta. rewrite session_init_eq by done.
  destruct (meta s) as [m0|] eqn:Hm0.
  - destruct (decide (m_manager m0 = "" \/ m_manager m0 = mg)) as [Hmg|Hmg].
    + destruct (merge_session_eq sid mg ags acl em rm m0 (set_present s) Hmg) as [txt ->].
      split; [cbn; split; [naive_solver|tauto]|]. intros _. cbn [snd].
      destruct (_ && _) eqn:Hnew.
      * bool_to_prop. exists m0. assert (Hin := proj1 (added_nil _ _) H).
        split_and!; try done; [naive_solver|by left|].
        intros now'. by apply (session_init_again _ _ _ _ m0).
      * destruct (ensure_dirs (filter (fun a => a ∉ m_agents m0) (sorted_set ags)) (set_present s))
          as (_ & Hp & _ & Hdirs).
        eexists. split; [reflexivity|]. split; [exact Hp|].
        assert (Hag : forall a, a ∈ sorted_set (m_agents m0 ++ sorted_set ags) <->
                       a ∈ ags \/ exists m1, Some m0 = Some m1 /\ a ∈ m_agents m1).
        { intros a. rewrite elem_of_sorted_set, elem_of_app, elem_of_sorted_set. naive_solver. }
        split_and!; try done.
        -- intros m a [= <-]. cbn. rewrite Hag. intros Ha. apply Hdirs.
           destruct (decide (a ∈ m_agents m0)) as [Hin|Hin]; [right; by apply (Hd m0)|].
           left. rewrite list_elem_of_filter, elem_of_sorted_set. naive_solver.
        -- right. cbn. apply sorted_set_ext. intros a. by rewrite !elem_of_sorted_set.
        -- intros now'. eapply session_init_again; [done|reflexivity|exact Hp| |exact Hmg].
           intros a Ha. apply Hag. by left.
    + assert (merge_session sid mg ags acl em rm m0 (set_present s)
              = (Raise (ValueError "session already has manager"), set_present s)) as ->.
      { unfold merge_session. rewrite st_bind_unfold. unfold ensure.
        assert (String.eqb (m_manager m0) "" || String.eqb (m_manager m0) mg = false) as ->; [|done].
        apply orb_false_iff. rewrite !String.eqb_neq. tauto. }
      cbn. split; [|done]. split; [intros _; tauto|eauto].
  - unfold create_session. rewrite st_bind_unfold. unfold modify.
    set (m := {| m_manager := mg |}). rewrite st_bind_unfold.
    destruct (ensure_dirs (sorted_set ags) (set_meta m (set_present s))) as (H1 & H2 & H3 & H4).
    destruct (st_iter _ _ _) as [r s1]. simpl in H1. subst r. rewrite st_bind_unfold.
    change (_ensure_agent_dirs mg s1) with (Ok tt, (_ensure_agent_dirs mg s1).2).
    destruct (ensure_dirs [mg] s1) as (_ & G2 & G3 & G4).
    change (st_iter _ensure_agent_dirs [mg] s1).2 with (_ensure_agent_dirs mg s1).2 in *.
    cbn [fst snd] in *. split; [by eexists|]. intros _.
    change ((mret (M:=st session) ?x ?y).2) with y.
    exists m. assert (Hm : meta (_ensure_agent_dirs mg s1).2 = Some m) by (by rewrite G3, H3).
    assert (Hp : present (_ensure_agent_dirs mg s1).2 = true) by (by rewrite G2, H2).
    assert (Hag : forall a, a ∈ m_agents m <-> a ∈ ags) by (intros a; apply elem_of_sorted_set).
    split_and!; try done.
    + intros m' a Hm' Ha. assert (m' = m) as -> by congruence. apply G4. right. apply H4. by left.
    + intros a. rewrite Hag. naive_solver.
    + right. cbn. apply sorted_set_ext. intros a. by rewrite elem_of_sorted_set.
    + intros now'. apply (session_init_again _ _ _ _ m); try done; [|by right].
      intros a. apply Hag.
Qed.

Lemma session_init_spec_witness :
  let r := session_init "s1" "mgr" ["w2"; "w1"; "w2"] None None None 5000 empty_session in
  (exists txt, r.1 = Ok txt) /\
  (is_ok r.1 = true -> exists m,
    meta r.2 = Some m /\ present r.2 = true /\ dirs_ok r.2 /\
    (forall a, a ∈ m_agents m <->
       a ∈ ["w2"; "w1"; "w2"] \/ exists m0, meta empty_session = Some m0 /\ a ∈ m_agents m0) /\
    m_manager m = "mgr" /\
    (meta empty_session = Some m \/ m_agents m = sorted_set (m_agents m)) /\
    forall now', exists txt,
      session_init "s1" "mgr" ["w2"; "w1"; "w2"] None None None now' r.2 = (Ok txt, r.2)).
Proof.
  apply (session_init_spec "s1" "mgr" ["w2"; "w1"; "w2"] None None None 5000 empty_session).
  - intros x Hx. repeat (apply elem_of_cons in Hx as [->|Hx]; [vm_compute; reflexivity|]).
    by apply not_elem_of_nil in Hx.
  - intros m a Hm. discriminate Hm.
Defined.

(** ** Reading the history *)
#[export] Instance newest_first_total : Total newest_first.
Proof.
  intros a b. unfold newest_first.
  destruct (decide (dstr a "created_at" = dstr b "created_at")) as [E|E].
  - destruct (total String.le (dstr a "msg_id") (dstr b "msg_id")); [right|left]; right; by split.
  - destruct (total String.le (dstr a "created_at") (dstr b "created_at"));
      [right; left; by split; [apply not_eq_sym|]|left; left; by split].
Qed.
#[export] Instance newest_first_trans : Transitive newest_first.
Proof.
  intros a b c. unfold newest_first. intros [[H1 H2]|[H1 H2]] [[G1 G2]|[G1 G2]].
  - left. split; [|by etrans]. intros E. apply H1. rewrite E in H2 |- *. by apply (anti_symm String.le).
  - left. rewrite <-G1. auto.
  - left. rewrite H1. auto.
  - right. split; [congruence|by etrans].
Qed.

Lemma list_messages_elem d stem f :
  (stem, f) ∈ list_messages d <-> d !! stem = Some f /\ visible stem = true.
Proof.
  unfold list_messages. rewrite merge_sort_Permutation, list_elem_of_filter, elem_of_map_to_list.
  simpl. tauto.
Qed.

Lemma list_messages_sorted d : StronglySorted older (list_messages d).
Proof. apply StronglySorted_merge_sort; apply _. Qed.

Lemma list_messages_NoDup d : NoDup (list_messages d).*1.
Proof.
  apply NoDup_fmap_fst.
  - intros x f g Hf Hg. apply list_messages_elem in Hf, Hg. naive_solver.
  - unfold list_messages. rewrite merge_sort_Permutation.
    apply NoDup_filter, NoDup_map_to_list.
Qed.

(** [msg] is the record of a file of the history. *)
Definition recorded (sid : string) (files : list (string * file)) (msg : pydict) : Prop :=
  exists stem f, (stem, f) ∈ files /\ content f = Some (VDict msg) /\
    validate_message (VDict msg) (Some sid) None (Some (stem +:+ ".json")) = Ok Valid.

Lemma collect_history_elem sid keep files out msg :
  collect_history sid keep files = Ok out ->
  (msg ∈ out <-> keep msg = true /\ recorded sid files msg).
Proof.
  revert out. induction files as [|[stem f] files IH]; intros out; simpl.
  { intros [= <-]. unfold recorded. set_solver. }
  assert (Hskip : forall o, collect_history sid keep files = Ok o ->
    (content f = None \/ exists v, content f = Some v /\ forall d, v = VDict d ->
       validate_message v (Some sid) None (Some (stem +:+ ".json")) <> Ok Valid) ->
    (msg ∈ o <-> keep msg = true /\ recorded sid ((stem, f) :: files) msg)).
  { intros o Ho Hf. rewrite (IH o Ho). apply and_iff_compat_l. unfold recorded.
    split; [intros (st' & g & H & ?); exists st', g; split; [by right|done]|].
    intros (st' & g & [[= -> ->]|H]%elem_of_cons & Hg & Hv); [|by exists st', g].
    destruct Hf as [Hf|(v & Hf & Hn)]; [congruence|].
    rewrite Hg in Hf. injection Hf as <-. by destruct (Hn msg eq_refl). }
  destruct (content f) as [v|] eqn:Hc; [|intros H; apply Hskip; auto].
  intros H. apply res_bind_Ok in H as (ok & Hok & H).
  destruct ok; [|apply Hskip; [done|]; right; exists v; split; [done|]; intros d _; congruence].
  destruct v as [| | | | | |d]; try (apply Hskip; [done|]; right; eexists; split; [done|]; done).
  apply res_bind_Ok in H as (o & Ho & [= <-]). specialize (IH o Ho).
  assert (Hhd : forall x, recorded sid ((stem, f) :: files) x <-> x = d \/ recorded sid files x).
  { intros x. unfold recorded. split.
    - intros (st' & g & [[= -> ->]|Hin]%elem_of_cons & Hg & Hv); [left; congruence|right; eauto].
    - intros [->|(st' & g & Hin & ? & ?)].
      + exists stem, f. split; [by left|done].
      + exists st', g. split; [by right|done]. }
  rewrite Hhd. destruct (keep d) eqn:Hk; [rewrite elem_of_cons|]; rewrite IH.
  - split; [intros [->|[? ?]]; auto|intros [? [->|?]]; auto].
  - split; [tauto|]. intros [? [->|?]]; [congruence|auto].
Qed.

(** [read_history] returns, newest first, exactly the messages of the
    history that validate for the session under their file name and satisfy
    every given filter, cut to the limit.  It raises only for an invalid
    filter or session id, or where validation itself does. *)
Theorem read_history_spec s sid since before limit from_id kind out :
  read_history s sid since before limit from_id kind = Ok out ->
  exists all, out = match limit with None => all | Some n => take (Z.to_nat n) all end /\
    (forall n, limit = Some n -> 0 <= n) /\ (forall k, kind = Some k -> k ∈ VALID_KINDS) /\
    StronglySorted newest_first all /\
    forall msg, msg ∈ all <->
      recorded sid (list_messages (history s)) msg /\
      (forall t, since = Some t -> str_lt (dstr msg "created_at") t = false) /\
      (forall t, before = Some t -> str_lt (dstr msg "created_at") t = true) /\
      (forall f, from_id = Some f -> dstr msg "from" = f) /\
      (forall k, kind = Some k -> dstr msg "kind" = k).
Proof.
  unfold read_history. intros H.
  destruct (negb (given kind _)) eqn:Hk; [|done].
  destruct (negb (given limit _)) eqn:Hl; [|done].
  apply res_bind_Ok in H as (u & _ & H). apply res_bind_Ok in H as (all & Hall & [= <-]).
  exists (merge_sort newest_first all). split_and!.
  - done.
  - intros n ->. simpl in Hl. bool_to_prop. lia.
  - intros k ->. simpl in Hk. bool_to_prop. by apply dec_stable.
  - apply StronglySorted_merge_sort; apply _.
  - intros msg. rewrite merge_sort_Permutation, (collect_history_elem _ _ _ _ msg Hall).
    unfold history_filter. rewrite negb_true_iff, !orb_false_iff.
    rewrite (and_comm (recorded _ _ _)).
    apply and_iff_compat_r.
    destruct since, before, from_id, kind; simpl; rewrite ?negb_false_iff, ?String.eqb_eq;
      naive_solver.
Qed.

Lemma read_history_spec_witness :
  let s := (send demo_repr "s1" (demo_draft "*") (Some "m1") [] 1700000005000 demo).2 in
  exists out, read_history s "s1" None None (Some 1) (Some "mgr") None = Ok out /\
    length out = 1%nat /\
    exists all, out = take (Z.to_nat 1) all /\
    (forall n, Some 1 = Some n -> 0 <= n) /\ (forall k, None = Some k -> k ∈ VALID_KINDS) /\
    StronglySorted newest_first all /\
    forall msg, msg ∈ all <->
      recorded "s1" (list_messages (history s)) msg /\
      (forall t, None = Some t -> str_lt (dstr msg "created_at") t = false) /\
      (forall t, None = Some t -> str_lt (dstr msg "created_at") t = true) /\
      (forall f, Some "mgr" = Some f -> dstr msg "from" = f) /\
      (forall k, None = Some k -> dstr msg "kind" = k).
Proof.
  cbv zeta. eexists. split; [vm_compute; reflexivity|]. split; [reflexivity|].
  apply (read_history_spec _ "s1" None None (Some 1) (Some "mgr") None). vm_compute. reflexivity.
Defined.
