(* ===== verification/MailboxClaims.v ===== *)
(** * Mailbox store: claiming messages
      (MailboxStore.read, finalize, release, renew_claim, recover_stale in
       src/src/codeagent/mailbox/store.py)

    The two-phase consumption of one agent's inbox.  [read] publishes a claim
    file and moves the message to processing/; [finalize] archives it,
    [release] puts it back, [renew_claim] extends the lease of the claim and
    [recover_stale] recycles the messages whose lease ran out.  The
    publication of a claim and the move of the message are separate atomic
    steps, so that readers can be interleaved between them; the sections under
    the claim lock are one step each. *)
From S2P Require Import Prelude MailboxProtocol MailboxStore.

(** ** Leases *)
Definition LEASE_TIMEOUT_MS : Z := 3600 * 1000.
Definition LEASE_CLOCK_TOLERANCE_MS : Z := 30 * 1000.
Definition lease_cutoff (now : Z) : Z := now - LEASE_TIMEOUT_MS + LEASE_CLOCK_TOLERANCE_MS.
Definition orphan_age_gate (now : Z) : Z := now - 30 * 1000.

(** ** Claim files *)

(** The part of [.claim-<msg>-<owner>.json] between prefix and suffix. *)
Definition claim_key (msg_id owner : string) : string := msg_id +:+ "-" +:+ owner.
(** [sorted(processing.glob(f".claim-{msg_id}-*.json"))] *)
Definition claim_files (a : agent) (msg_id : string) : list string :=
  sort_strs (filter (fun k => String.prefix (msg_id +:+ "-") k = true) (map_to_list (claims a)).*1).

(** The message of a claim: its [msg_id], or what is left of the file name
    when the owner of the claim is cut off. *)
Definition claim_target (key : string) (c : claim) : string :=
  let fallback :=
    let stem := ".claim-" +:+ key in
    let owner := default "" (c_owner c) in
    let suffix := if String.eqb owner "" then "" else "-" +:+ owner in
    if negb (String.eqb suffix "") && ends_with suffix stem
    then String.substring 7 (String.length stem - 7 - String.length suffix) stem
    else stem in
  match c_msg_id c with
  | Some m => if String.eqb m "" then fallback else m
  | None => fallback
  end.

Definition set_claims (cl : gmap string (option claim)) (a : agent) : agent :=
  {| inbox := inbox a; processing := processing a; archive := archive a; corrupt := corrupt a;
     claims := cl; tmp_claims := tmp_claims a |}.
Definition set_tmp_claims (t : gmap string Z) (a : agent) : agent :=
  {| inbox := inbox a; processing := processing a; archive := archive a; corrupt := corrupt a;
     claims := claims a; tmp_claims := t |}.
Definition drop_claim (key : string) (a : agent) : agent := set_claims (delete key (claims a)) a.

(** [os.replace] of one message file between two directories: a file of the
    same name at the destination is overwritten. *)
Inductive place := Inbox | Processing | Archive | Corrupt.
#[export] Instance place_eq_dec : EqDecision place.
Proof. solve_decision. Defined.
Definition dir_of (p : place) (a : agent) : dir :=
  match p with
  | Inbox => inbox a | Processing => processing a | Archive => archive a | Corrupt => corrupt a
  end.
Definition set_dir (p : place) (d : dir) (a : agent) : agent :=
  match p with
  | Inbox => set_inbox d a
  | Processing =>
    {| inbox := inbox a; processing := d; archive := archive a; corrupt := corrupt a;
       claims := claims a; tmp_claims := tmp_claims a |}
  | Archive =>
    {| inbox := inbox a; processing := processing a; archive := d; corrupt := corrupt a;
       claims := claims a; tmp_claims := tmp_claims a |}
  | Corrupt =>
    {| inbox := inbox a; processing := processing a; archive := archive a; corrupt := d;
       claims := claims a; tmp_claims := tmp_claims a |}
  end.
(** The state after [os.replace(src/id.json, dst/id.json)]; [None] when it
    raises because the source does not exist. *)
Definition replace_file (src dst : place) (id : string) (a : agent) : option agent :=
  f ← dir_of src a !! id;
  let a1 := set_dir src (delete id (dir_of src a)) a in
  Some (set_dir dst (<[id := f]> (dir_of dst a1)) a1).
(** A move of a file known to exist. *)
Definition move (src dst : place) (id : string) (a : agent) : agent :=
  default a (replace_file src dst id a).

(** ** Claiming *)

(** The section of [_reap_expired_claim] under the claim lock. *)
Definition reap_locked (key msg_id : string) (cutoff claimed_ts : Z) (a : agent) : bool * agent :=
  let cur_ts := match claims a !! key with
                | Some (Some c) => default claimed_ts (c_at c)
                | _ => claimed_ts
                end in
  if cutoff <=? cur_ts then (false, a)
  else (true, drop_claim key (move Processing Inbox msg_id a)).

Definition _reap_expired_claim (key : string) (now : Z) (a : agent) : bool * agent :=
  match claims a !! key with
  | Some (Some c) =>
    match c_at c with
    | None => (false, a)
    | Some claimed_ts =>
      if lease_cutoff now <=? claimed_ts then (false, a)
      else reap_locked key (claim_target key c) (lease_cutoff now) claimed_ts a
    end
  | _ => (false, a)
  end.

Definition tmp_claim_key (msg_id owner nonce : string) : string :=
  claim_key msg_id owner +:+ "-" +:+ nonce.

(** The publication of a claim: the temporary file, then [os.link]. *)
Inductive publication := TmpExists | ClaimExists | Published.
Definition publish_claim (msg_id owner nonce : string) (now : Z) (a : agent) :
    publication * agent :=
  let tmp := tmp_claim_key msg_id owner nonce in
  let key := claim_key msg_id owner in
  match tmp_claims a !! tmp with
  | Some _ => (TmpExists, set_tmp_claims (delete tmp (tmp_claims a)) a)
  | None =>
    match claims a !! key with
    | Some _ => (ClaimExists, a)
    | None =>
      let c := {| c_owner := Some owner; c_at := Some (to_second now); c_msg_id := Some msg_id |} in
      (Published, set_claims (<[key := Some c]> (claims a))
                    (set_tmp_claims (<[tmp := now]> (tmp_claims a)) a))
    end
  end.

(** The move of the message after its claim was published: [false] when the
    message is gone, and then the claim is withdrawn. *)
Definition move_claimed (msg_id owner nonce : string) (a : agent) : bool * agent :=
  let tmp := tmp_claim_key msg_id owner nonce in
  let untmp a := set_tmp_claims (delete tmp (tmp_claims a)) a in
  match replace_file Inbox Processing msg_id a with
  | Some a' => (true, untmp a')
  | None => (false, drop_claim (claim_key msg_id owner) (untmp a))
  end.

(** One round of the loop of [read]. *)
Inductive round :=
| Return (msg : option pydict)
| Continue (contested : gset string)
| Throw (e : pyexn).

Section read.
Context (meta : option session_meta) (session_id agent_id owner : string).
Context (skip_msg_ids : gset string) (target_msg_id : option string).

(** The message to claim: the given one, or the oldest that is neither parked
    nor contested. *)
Definition target_of (contested : gset string) (files : list (string * file)) :
    option (string * file) :=
  match target_msg_id with
  | Some t => if String.eqb t "" then
                List.find (fun f => bool_decide (f.1 ∉ skip_msg_ids /\ f.1 ∉ contested)) files
              else List.find (fun f => String.eqb (fst f) t) files
  | None => List.find (fun f => bool_decide (f.1 ∉ skip_msg_ids /\ f.1 ∉ contested)) files
  end.

Definition in_roster (sender : string) : bool :=
  match meta with None => false | Some m => bool_decide (sender ∈ roster m) end.

(** The claim of a message that passed the checks. *)
Definition claim_round (contested : gset string) (nonce : string) (now : Z) (stem : string)
    (msg : pydict) (a : agent) : round * agent :=
  match publish_claim stem owner nonce now a with
  | (TmpExists, a) => (Continue contested, a)
  | (ClaimExists, a) =>
    match _reap_expired_claim (claim_key stem owner) now a with
    | (true, a) => (Continue contested, a)
    | (false, a) => (Continue ({[stem]} ∪ contested), a)
    end
  | (Published, a) =>
    match move_claimed stem owner nonce a with
    | (true, a) => (Return (Some msg), a)
    | (false, a) => (Continue contested, a)
    end
  end.

Definition read_round (contested : gset string) (nonce : string) (now : Z) (a : agent) :
    round * agent :=
  match target_of contested (list_messages (inbox a)) with
  | None => (Return None, a)
  | Some (stem, f) =>
    match content f with
    | None => (Continue contested, move Inbox Corrupt stem a)
    | Some v =>
      match validate_message v (Some session_id) (Some agent_id) (Some (stem +:+ ".json")), v with
      | Raise e, _ => (Throw e, a)
      | Ok Valid, VDict msg =>
        if in_roster (dstr msg "from") then claim_round contested nonce now stem msg a
        else (Continue contested, move Inbox Corrupt stem a)
      | Ok _, _ => (Continue contested, move Inbox Corrupt stem a)
      end
    end
  end.

(** [read] for at most [fuel] rounds; [None] when it has not returned yet.
    [nonce] gives the random part of each round's temporary file. *)
Fixpoint read_loop (fuel : nat) (contested : gset string) (nonce : nat -> string) (now : Z)
    (a : agent) : option (res (option pydict) * agent) :=
  match fuel with
  | O => None
  | S fuel' =>
    match read_round contested (nonce fuel') now a with
    | (Return m, a') => Some (Ok m, a')
    | (Throw e, a') => Some (Raise e, a')
    | (Continue c, a') => read_loop fuel' c nonce now a'
    end
  end.
End read.

(** [agent_subdir] validates both names. *)
Definition check_names (session_id agent_id : string) : res unit :=
  do _ <- validate_agent_id agent_id;
  validate_agent_id session_id.

Definition read (meta : option session_meta) (session_id agent_id owner : string)
    (skip_msg_ids : gset string) (target_msg_id : option string) (fuel : nat)
    (nonce : nat -> string) (now : Z) (a : agent) : option (res (option pydict) * agent) :=
  match check_names session_id agent_id with
  | Raise e => Some (Raise e, a)
  | Ok _ => read_loop meta session_id agent_id owner skip_msg_ids target_msg_id fuel ∅ nonce now a
  end.

(** ** Finalizing and releasing *)

(** [json.loads(claim_file.read_bytes()).get("owner")] *)
Definition claim_owner (a : agent) (key : string) : res (option string) :=
  match claims a !! key with
  | Some (Some c) => Ok (c_owner c)
  | _ => Raise (ValueError "claim is not JSON")
  end.

Definition finalize (session_id agent_id msg_id owner : string) : st agent string :=
  _ ← lift (_validate_msg_id msg_id);
  _ ← lift (check_names session_id agent_id);
  files ← gets (fun a => claim_files a msg_id);
  match files with
  | [] => raise (ValueError "no claim file")
  | [claim_file] =>
    there ← gets (fun a => bool_decide (is_Some (processing a !! msg_id)));
    _ ← ensure there (ValueError "msg not in processing/");
    a ← gets (fun a => a);
    claim_owned ← lift (claim_owner a claim_file);
    _ ← ensure (bool_decide (claim_owned = Some owner)) (ValueError "owner mismatch");
    _ ← modify (move Processing Archive msg_id);
    _ ← modify (drop_claim claim_file);
    mret ("finalized → archive/" +:+ msg_id +:+ ".json")
  | _ => raise (ValueError "multiple claim files")
  end.

(** The owner that [finalize_from_inbox] reads: [""] for an unreadable claim
    or one without owner. *)
Definition claim_owner_or_empty (a : agent) (key : string) : string :=
  match claims a !! key with
  | Some (Some c) => default "" (c_owner c)
  | _ => ""
  end.

Definition finalize_from_inbox (session_id agent_id msg_id owner : string) : st agent string :=
  _ ← lift (_validate_msg_id msg_id);
  _ ← lift (check_names session_id agent_id);
  a ← gets (fun a => a);
  let text := "finalized → archive/" +:+ msg_id +:+ ".json" in
  if bool_decide (is_Some (inbox a !! msg_id)) then
    _ ← modify (move Inbox Archive msg_id); mret text
  else if bool_decide (is_Some (processing a !! msg_id)) then
    _ ← ensure (forallb (fun k => String.eqb (claim_owner_or_empty a k) owner)
                 (claim_files a msg_id))
          (ValueError "msg has an active foreign claim");
    _ ← modify (move Processing Archive msg_id); mret text
  else raise (ValueError "msg not in inbox/ or processing/").

Definition release (session_id agent_id msg_id owner : string) : st agent string :=
  _ ← lift (_validate_msg_id msg_id);
  _ ← lift (check_names session_id agent_id);
  files ← gets (fun a => claim_files a msg_id);
  there ← gets (fun a => bool_decide (is_Some (processing a !! msg_id)));
  _ ← ensure there (ValueError "msg not found in processing/");
  a ← gets (fun a => a);
  let done := mret ("released → inbox/" +:+ msg_id +:+ ".json") in
  match files with
  | [] => _ ← modify (move Processing Inbox msg_id); done
  | [claim_file] =>
    claim_owned ← lift (claim_owner a claim_file);
    _ ← ensure (bool_decide (claim_owned = Some owner)) (ValueError "owner mismatch on release");
    _ ← modify (move Processing Inbox msg_id);
    _ ← modify (drop_claim claim_file);
    done
  | _ => raise (ValueError "multiple claim files")
  end.

(** ** Leases: renewal and recovery *)

(** The section of [renew_claim] under the claim lock. *)
Definition renew_locked (msg_id owner : string) (now : Z) (a : agent) : bool * agent :=
  match processing a !! msg_id, claim_files a msg_id with
  | Some _, [claim_file] =>
    match claims a !! claim_file with
    | Some (Some c) =>
      if bool_decide (c_owner c = Some owner) then
        (true, set_claims (<[claim_file := Some {| c_owner := c_owner c;
                 c_at := Some (to_second now); c_msg_id := c_msg_id c |}]> (claims a)) a)
      else (false, a)
    | _ => (false, a)
    end
  | _, _ => (false, a)
  end.

Definition renew_claim (session_id agent_id msg_id owner : string) (now : Z) : st agent bool :=
  _ ← lift (_validate_msg_id msg_id);
  _ ← lift (check_names session_id agent_id);
  a ← gets (fun a => a);
  match processing a !! msg_id, claim_files a msg_id with
  | Some _, [_] =>
    let r := renew_locked msg_id owner now a in
    _ ← modify (fun _ => r.2); mret r.1
  | _, _ => mret false
  end.

(** The work on one claim file under its lock: whether a message was
    recovered. *)
Definition recover_locked (key msg_id : string) (now claimed_ts : Z) (a : agent) : bool * agent :=
  let cur_ts := match claims a !! key with
                | Some (Some c) => default claimed_ts (c_at c)
                | _ => claimed_ts
                end in
  match processing a !! msg_id with
  | None => (false, if orphan_age_gate now <=? cur_ts then a else drop_claim key a)
  | Some _ =>
    if lease_cutoff now <=? cur_ts then (false, a)
    else (true, drop_claim key (move Processing Inbox msg_id a))
  end.

Definition recover_claim (now : Z) (key : string) (a : agent) : bool * agent :=
  match claims a !! key with
  | Some (Some c) =>
    match c_at c with
    | None => (false, a)
    | Some claimed_ts => recover_locked key (claim_target key c) now claimed_ts a
    end
  | _ => (false, a)
  end.

Fixpoint recover_claims (now : Z) (keys : list string) (a : agent) : Z * agent :=
  match keys with
  | [] => (0, a)
  | key :: keys' =>
    let r := recover_claim now key a in
    let q := recover_claims now keys' r.2 in
    ((if r.1 then 1 else 0) + q.1, q.2)
  end.

Definition recover_stale (session_id agent_id : string) (now : Z) : st agent string :=
  _ ← lift (check_names session_id agent_id);
  a ← gets (fun a => a);
  let r := recover_claims now (sort_strs (map_to_list (claims a)).*1) a in
  _ ← modify (fun _ =>
        set_tmp_claims (filter (fun kt => orphan_age_gate now <= kt.2) (tmp_claims r.2)) r.2);
  mret ("recovered " +:+ pretty r.1 +:+ " stale claim(s)").

(** ** No message is lost or duplicated *)

Lemma dir_of_set_dir p q d a :
  dir_of p (set_dir q d a) = if decide (p = q) then d else dir_of p a.
Proof. by destruct p, q. Qed.

(** [a] has the message file [f] under [id] in some directory. *)
Definition holds (a : agent) (id : string) (f : file) : Prop :=
  exists p, dir_of p a !! id = Some f.
(** Every message is in one directory only. *)
Definition one_place (a : agent) : Prop :=
  forall id p q f g, dir_of p a !! id = Some f -> dir_of q a !! id = Some g -> p = q.
(** From [a] to [a'] the messages may have moved, nothing else. *)
Definition keeps (a a' : agent) : Prop :=
  one_place a -> one_place a' /\ forall id f, holds a' id f <-> holds a id f.

#[export] Instance keeps_preorder : PreOrder keeps.
Proof.
  split; [by intros a|]. intros a b c Hab Hbc Ha. destruct (Hab Ha) as [Hb Hs].
  destruct (Hbc Hb) as [Hc Ht]. split; [done|]. intros id f. by rewrite Ht.
Qed.

Lemma keeps_dirs a a' : (forall p, dir_of p a' = dir_of p a) -> keeps a a'.
Proof.
  intros Hd Ha. split.
  - intros id p q f g. rewrite !Hd. apply Ha.
  - intros id f. unfold holds. by setoid_rewrite Hd.
Qed.
Lemma keeps_set_claims cl a : keeps a (set_claims cl a).
Proof. apply keeps_dirs. by intros []. Qed.
Lemma keeps_set_tmp t a : keeps a (set_tmp_claims t a).
Proof. apply keeps_dirs. by intros []. Qed.
#[local] Hint Resolve keeps_set_claims keeps_set_tmp : s2p.

Lemma replace_file_lookup src dst id a a' p id' :
  src <> dst -> replace_file src dst id a = Some a' ->
  dir_of p a' !! id' =
  if decide (id' = id)
  then if decide (p = dst) then dir_of src a !! id
       else if decide (p = src) then None else dir_of p a !! id'
  else dir_of p a !! id'.
Proof.
  intros Hne H. unfold replace_file in H. apply bind_Some in H as (f & Hf & [= <-]).
  rewrite dir_of_set_dir, !dir_of_set_dir.
  repeat case_decide; subst; try done; rewrite ?lookup_insert_eq, ?lookup_delete_eq,
    ?lookup_insert_ne, ?lookup_delete_ne by done; done.
Qed.

Lemma keeps_replace src dst id a a' :
  src <> dst -> replace_file src dst id a = Some a' -> keeps a a'.
Proof.
  intros Hne H Ha.
  pose proof (fun p id' => replace_file_lookup src dst id a a' p id' Hne H) as Hl.
  unfold replace_file in H. apply bind_Some in H as (f0 & Hf & _). split.
  - intros id' p q f g. rewrite !Hl. repeat case_decide; subst; try done.
    + intros _ Hq. exfalso. eauto using Ha.
    + intros Hp _. exfalso. eauto using Ha.
    + apply Ha.
    + apply Ha.
  - intros id' f. unfold holds. setoid_rewrite Hl. split; intros [p Hp].
    + repeat case_decide; subst; try done; eauto.
    + destruct (decide (id' = id)) as [->|]; [|by exists p].
      exists dst. rewrite decide_True by done. by rewrite (Ha id src p _ _ Hf Hp).
Qed.

Lemma keeps_move src dst id a : src <> dst -> keeps a (move src dst id a).
Proof.
  intros Hne. unfold move. destruct (replace_file src dst id a) as [a'|] eqn:E; [|done].
  by eapply keeps_replace.
Qed.
#[local] Hint Extern 1 (keeps _ (move _ _ _ _)) => apply keeps_move; discriminate : s2p.

Lemma keeps_drop key a : keeps a (drop_claim key a).
Proof. apply keeps_set_claims. Qed.
#[local] Hint Resolve keeps_drop : s2p.

Lemma keeps_reap key now a : keeps a (_reap_expired_claim key now a).2.
Proof.
  unfold _reap_expired_claim, reap_locked. repeat case_match; try done.
  cbn [snd]. etrans; [|apply keeps_drop]. auto with s2p.
Qed.

Lemma keeps_publish id owner nonce now a : keeps a (publish_claim id owner nonce now a).2.
Proof. unfold publish_claim. repeat case_match; simpl; try done; by apply keeps_dirs; intros []. Qed.

Lemma keeps_move_claimed id owner nonce a : keeps a (move_claimed id owner nonce a).2.
Proof.
  unfold move_claimed. destruct (replace_file _ _ _ a) as [a'|] eqn:E; simpl.
  - etrans; [by apply (keeps_replace Inbox Processing id)|]. auto with s2p.
  - etrans; [|apply keeps_drop]. auto with s2p.
Qed.

Lemma keeps_read_round meta sid aid owner skip tgt cont nonce now a :
  keeps a (read_round meta sid aid owner skip tgt cont nonce now a).2.
Proof.
  unfold read_round. destruct (target_of _ _ _ _) as [[stem f]|]; [|done].
  destruct (content f) as [v|]; [|simpl; auto with s2p].
  destruct (validate_message _ _ _ _) as [[]|e]; [|simpl; auto with s2p|done].
  destruct v; try (simpl; auto with s2p; fail).
  destruct (in_roster _ _); [|simpl; auto with s2p].
  unfold claim_round. pose proof (keeps_publish stem owner nonce now a) as H1.
  destruct (publish_claim _ _ _ _ a) as [[] a1]; simpl in *; [done| |].
  - pose proof (keeps_reap (claim_key stem owner) now a1) as H2.
    destruct (_reap_expired_claim _ _ a1) as [[] a2]; simpl in *; by etrans.
  - pose proof (keeps_move_claimed stem owner nonce a1) as H2.
    destruct (move_claimed _ _ _ a1) as [[] a2]; simpl in *; by etrans.
Qed.

Lemma keeps_read_loop meta sid aid owner skip tgt fuel cont nonce now a r a' :
  read_loop meta sid aid owner skip tgt fuel cont nonce now a = Some (r, a') -> keeps a a'.
Proof.
  revert cont a. induction fuel as [|fuel IH]; intros cont a; simpl; [done|].
  pose proof (keeps_read_round meta sid aid owner skip tgt cont (nonce fuel) now a) as Hr.
  destruct (read_round _ _ _ _ _ _ _ _ _ a) as [[m|c|e] a1]; simpl in Hr.
  - by intros [= <- <-].
  - intros H. etrans; [exact Hr|]. by eapply IH.
  - by intros [= <- <-].
Qed.

(** Computations that keep the messages. *)
Definition keeping {A} (m : st agent A) : Prop := forall a, keeps a (m a).2.
Lemma keeping_bind {A B} (m : st agent A) (k : A -> st agent B) :
  keeping m -> (forall x, keeping (k x)) -> keeping (m ≫= k).
Proof.
  intros Hm Hk a. rewrite st_bind_unfold. specialize (Hm a).
  destruct (m a) as [[x|e] a1]; simpl in *; [|done]. etrans; [exact Hm|]. apply Hk.
Qed.
Lemma keeping_read {A} (m : st agent A) : read_only m -> keeping m.
Proof. intros Hm a. by rewrite Hm. Qed.
Lemma keeping_modify f : (forall a, keeps a (f a)) -> keeping (modify f).
Proof. intros Hf a. apply Hf. Qed.
Lemma keeping_here {A} (k : agent -> st agent A) :
  (forall a, keeps a (k a a).2) -> keeping (a ← gets (fun a => a); k a).
Proof. intros Hk a. apply Hk. Qed.

Ltac keeping := repeat first
  [ apply keeping_bind; [|intros ?]
  | by apply keeping_read
  | apply keeping_read, read_only_ensure
  | apply keeping_modify; intros ?; solve [auto with s2p]
  | case_match ].

Lemma keeping_finalize sid aid id owner : keeping (finalize sid aid id owner).
Proof. unfold finalize. keeping. Qed.
Lemma keeping_finalize_from_inbox sid aid id owner : keeping (finalize_from_inbox sid aid id owner).
Proof. unfold finalize_from_inbox. keeping. Qed.
Lemma keeping_release sid aid id owner : keeping (release sid aid id owner).
Proof. unfold release. keeping. Qed.

Lemma keeps_renew_locked id owner now a : keeps a (renew_locked id owner now a).2.
Proof. unfold renew_locked. repeat case_match; simpl; auto with s2p; done. Qed.

Lemma keeping_renew sid aid id owner now : keeping (renew_claim sid aid id owner now).
Proof.
  unfold renew_claim. do 2 (apply keeping_bind; [by apply keeping_read|intros _]).
  apply keeping_here. intros a. repeat case_match; try done. apply keeps_renew_locked.
Qed.

Lemma keeps_recover_claims now keys a : keeps a (recover_claims now keys a).2.
Proof.
  revert a. induction keys as [|k keys IH]; intros a; simpl; [done|].
  etrans; [|apply IH]. unfold recover_claim, recover_locked. repeat case_match; cbn [snd]; try done;
    (etrans; [|apply keeps_drop]); first [done|auto with s2p].
Qed.

Lemma keeping_recover sid aid now : keeping (recover_stale sid aid now).
Proof.
  unfold recover_stale. apply keeping_bind; [by apply keeping_read|intros _].
  apply keeping_here. intros a. simpl. etrans; [apply keeps_recover_claims|]. auto with s2p.
Qed.

(** The operations of the claim protocol. *)
Inductive claim_op :=
| CRead (meta : option session_meta) (owner : string) (skip : gset string)
    (target : option string) (fuel : nat) (nonce : nat -> string) (now : Z)
| CPublish (msg_id owner nonce : string) (now : Z)
| CMove (msg_id owner nonce : string)
| CReap (key : string) (now : Z)
| CFinalize (msg_id owner : string)
| CFinalizeInbox (msg_id owner : string)
| CRelease (msg_id owner : string)
| CRenew (msg_id owner : string) (now : Z)
| CRecover (now : Z).

Definition exec_claim (sid aid : string) (op : claim_op) (a : agent) : agent :=
  match op with
  | CRead meta owner skip tgt fuel nonce now =>
    from_option snd a (read meta sid aid owner skip tgt fuel nonce now a)
  | CPublish id owner nonce now => (publish_claim id owner nonce now a).2
  | CMove id owner nonce => (move_claimed id owner nonce a).2
  | CReap key now => (_reap_expired_claim key now a).2
  | CFinalize id owner => (finalize sid aid id owner a).2
  | CFinalizeInbox id owner => (finalize_from_inbox sid aid id owner a).2
  | CRelease id owner => (release sid aid id owner a).2
  | CRenew id owner now => (renew_claim sid aid id owner now a).2
  | CRecover now => (recover_stale sid aid now a).2
  end.

(** C2: the operations that claim, finish and recycle messages, whole or
    interrupted between the publication of a claim and the move of its
    message, in any order and with any outcome, never lose, duplicate or alter
    a message: if every message was in one directory, every message still is
    in one, and the files are the same. *)
Theorem messages_conserved sid aid ops a :
  one_place a ->
  let a' := foldl (fun a op => exec_claim sid aid op a) a ops in
  one_place a' /\ forall id f, holds a' id f <-> holds a id f.
Proof.
  intros Ha. enough (Hk : keeps a (foldl (fun a op => exec_claim sid aid op a) a ops)) by auto.
  clear Ha. revert a. induction ops as [|op ops IH]; intros a; simpl; [done|].
  etrans; [|apply IH]. destruct op; simpl.
  - unfold read. destruct (check_names sid aid); simpl; [|done].
    destruct (read_loop _ _ _ _ _ _ _ _ _ _ a) as [[r a']|] eqn:E; simpl; [|done].
    by eapply keeps_read_loop.
  - apply keeps_publish.
  - apply keeps_move_claimed.
  - apply keeps_reap.
  - apply keeping_finalize.
  - apply keeping_finalize_from_inbox.
  - apply keeping_release.
  - apply keeping_renew.
  - apply keeping_recover.
Qed.

(** ** Termination of [read] *)

(** The number of elements of a finite map or set. *)
Abbreviation count := base.size.

Definition measure (contested : gset string) (a : agent) : nat :=
  (count (inbox a) + count (dom (inbox a) ∖ contested) + 3 * count (claims a)
   + count (tmp_claims a))%nat.

Lemma size_delete_lt {A} (m : gmap string A) k x :
  m !! k = Some x -> (count (delete k m) < count m)%nat.
Proof.
  intros Hx. rewrite map_size_delete, Hx. simpl.
  assert (count m <> 0%nat); [|lia]. rewrite map_size_non_empty_iff. by intros ->.
Qed.

Lemma target_of_inbox skip tgt cont a stem f :
  target_of skip tgt cont (list_messages (inbox a)) = Some (stem, f) -> inbox a !! stem = Some f.
Proof.
  intros H. assert (Hin : (stem, f) ∈ list_messages (inbox a)).
  { apply list_elem_of_In. unfold target_of in H.
    repeat case_match; by apply List.find_some in H as [? _]. }
  by apply list_messages_elem in Hin as [? _].
Qed.

Lemma target_of_uncontested skip cont a stem f :
  target_of skip None cont (list_messages (inbox a)) = Some (stem, f) -> stem ∉ cont.
Proof. intros H. apply List.find_some in H as [_ H]. bool_to_prop. naive_solver. Qed.

Lemma measure_quarantine cont a stem f :
  inbox a !! stem = Some f -> (measure cont (move Inbox Corrupt stem a) < measure cont a)%nat.
Proof.
  intros Hf. unfold move, replace_file. simpl. rewrite Hf. unfold measure. simpl.
  pose proof (size_delete_lt _ _ _ Hf).
  assert (count (dom (delete stem (inbox a)) ∖ cont) <= count (dom (inbox a) ∖ cont))%nat.
  { apply subseteq_size. rewrite dom_delete_L. set_solver. }
  lia.
Qed.

Lemma measure_reap cont key now a :
  (_reap_expired_claim key now a).1 = true ->
  (measure cont (_reap_expired_claim key now a).2 < measure cont a)%nat.
Proof.
  unfold _reap_expired_claim. destruct (claims a !! key) as [[c|]|] eqn:Hc; try done.
  destruct (c_at c) as [ts|]; [|done]. destruct (_ <=? ts); [done|].
  unfold reap_locked. destruct (_ <=? _); [done|]. intros _. simpl.
  pose proof (size_delete_lt _ _ _ Hc) as Hlt.
  unfold move, replace_file. simpl. destruct (processing a !! claim_target key c) as [f|] eqn:Hf;
    unfold measure; simpl; [|lia].
  set (id := claim_target key c).
  assert (count (<[id:=f]> (inbox a)) <= S (count (inbox a)))%nat
    by (rewrite map_size_insert; destruct (inbox a !! id); simpl; lia).
  assert (count (dom (<[id:=f]> (inbox a)) ∖ cont) <= S (count (dom (inbox a) ∖ cont)))%nat; [|lia].
  transitivity (count ({[id]} ∪ dom (inbox a) ∖ cont)).
  - apply subseteq_size. rewrite dom_insert_L. set_solver.
  - rewrite size_union_alt, size_singleton.
    assert (count (dom (inbox a) ∖ cont ∖ {[id]}) <= count (dom (inbox a) ∖ cont))%nat; [|lia].
    apply subseteq_size. set_solver.
Qed.

(** Every round that goes on makes the measure smaller. *)
Lemma round_decreases meta sid aid owner skip cont nonce now a cont' a' :
  read_round meta sid aid owner skip None cont nonce now a = (Continue cont', a') ->
  (measure cont' a' < measure cont a)%nat.
Proof.
  unfold read_round. destruct (target_of _ _ _ _) as [[stem f]|] eqn:Ht; [|done].
  pose proof (target_of_inbox _ _ _ _ _ _ Ht) as Hf.
  pose proof (target_of_uncontested _ _ _ _ _ Ht) as Hun.
  assert (Hq : (Continue cont, move Inbox Corrupt stem a) = (Continue cont', a') ->
               (measure cont' a' < measure cont a)%nat).
  { intros [= <- <-]. by eapply measure_quarantine. }
  destruct (content f) as [v|]; [|done].
  destruct (validate_message _ _ _ _) as [[]|e]; [|by destruct v|done].
  destruct v; try done. destruct (in_roster _ _); [|done].
  unfold claim_round, publish_claim.
  destruct (tmp_claims a !! _) as [t|] eqn:Htmp.
  { intros [= <- <-]. unfold measure. simpl. pose proof (size_delete_lt _ _ _ Htmp). lia. }
  destruct (claims a !! claim_key stem owner) as [c|] eqn:Hc.
  - pose proof (measure_reap cont (claim_key stem owner) now a) as Hr.
    destruct (_reap_expired_claim _ _ a) as [[] a1] eqn:Er; simpl in Hr; intros [= <- <-].
    + by apply Hr.
    + assert (a1 = a) as ->.
      { revert Er. unfold _reap_expired_claim, reap_locked. repeat case_match; by intros [= <-]. }
      unfold measure. assert (count (dom (inbox a) ∖ ({[stem]} ∪ cont)) < count (dom (inbox a) ∖ cont))%nat;
        [|lia]. apply subset_size. split; [set_solver|]. intros Hsub.
      assert (stem ∈ dom (inbox a)) by (by apply elem_of_dom). set_solver.
  - unfold move_claimed, replace_file. simpl. rewrite Hf. done.
Qed.

Lemma read_loop_terminates meta sid aid owner skip nonce now fuel cont a :
  (measure cont a < fuel)%nat ->
  is_Some (read_loop meta sid aid owner skip None fuel cont nonce now a).
Proof.
  revert cont a. induction fuel as [|fuel IH]; intros cont a Hm; [lia|]. simpl.
  destruct (read_round _ _ _ _ _ _ _ _ _ a) as [[m|c|e] a1] eqn:E; [done| |done].
  apply IH. apply round_decreases in E. lia.
Qed.

(** [read] without a target returns: a number of rounds linear in the files
    of the agent's directories is enough. *)
Theorem read_terminates meta sid aid owner skip nonce now a fuel :
  (2 * count (inbox a) + 3 * count (claims a) + count (tmp_claims a) < fuel)%nat ->
  is_Some (read meta sid aid owner skip None fuel nonce now a).
Proof.
  intros Hf. unfold read. destruct (check_names sid aid); [|done].
  apply read_loop_terminates. unfold measure.
  assert (count (dom (inbox a) ∖ (∅ : gset string)) <= count (inbox a))%nat; [|lia].
  rewrite <-size_dom. apply subseteq_size. set_solver.
Qed.

(** [read] with a target never returns when the target is still in the
    inbox, passes the checks, and its claim file is there and not expired (as
    a reader of the same name leaves it when it dies between the two steps of
    the claim): no number of rounds is enough, the state does not change and
    nothing is read. *)
Theorem targeted_read_spins m sid aid owner skip t f msg nonce now a fuel :
  validate_agent_id sid = Ok tt -> validate_agent_id aid = Ok tt ->
  t <> "" -> visible t = true -> inbox a !! t = Some f -> content f = Some (VDict msg) ->
  validate_message (VDict msg) (Some sid) (Some aid) (Some (t +:+ ".json")) = Ok Valid ->
  dstr msg "from" ∈ roster m -> tmp_claims a = ∅ ->
  is_Some (claims a !! claim_key t owner) ->
  _reap_expired_claim (claim_key t owner) now a = (false, a) ->
  read (Some m) sid aid owner skip (Some t) fuel nonce now a = None.
Proof.
  intros Hs Ha Hne Hvis Hf Hc Hval Hfrom Htmp Hclaim Hreap.
  unfold read, check_names. rewrite Ha. simpl. rewrite Hs.
  generalize (∅ : gset string). induction fuel as [|fuel IH]; intros cont; simpl; [done|].
  assert (Htgt : target_of skip (Some t) cont (list_messages (inbox a)) = Some (t, f)).
  { unfold target_of. destruct (String.eqb_spec t "") as [|_]; [done|].
    assert (Hin : (t, f) ∈ list_messages (inbox a)) by (by apply list_messages_elem).
    destruct (List.find _ _) as [[t' f']|] eqn:E.
    - apply List.find_some in E as [Hin' Heq]. simpl in Heq. apply String.eqb_eq in Heq as ->.
      apply list_elem_of_In, list_messages_elem in Hin' as [? _]. congruence.
    - rewrite find_None in E. specialize (E _ Hin). simpl in E. by rewrite String.eqb_refl in E. }
  unfold read_round. rewrite Htgt, Hc, Hval. simpl.
  rewrite bool_decide_eq_true_2 by done. unfold claim_round, publish_claim.
  rewrite Htmp, lookup_empty. destruct Hclaim as [c Hcl]. rewrite Hcl, Hreap. apply IH.
Qed.

(** ** Claim files of a message *)

Lemma claim_files_elem a id k :
  k ∈ claim_files a id <-> is_Some (claims a !! k) /\ String.prefix (id +:+ "-") k = true.
Proof.
  unfold claim_files. rewrite elem_of_sort_strs, list_elem_of_filter.
  rewrite list_elem_of_fmap. split.
  - intros [Hp ([k' c] & -> & Hc)]. apply elem_of_map_to_list in Hc. eauto.
  - intros [[c Hc] Hp]. split; [done|]. exists (k, c). split; [done|]. by apply elem_of_map_to_list.
Qed.

Lemma claim_files_NoDup a id : NoDup (claim_files a id).
Proof.
  unfold claim_files, sort_strs. rewrite merge_sort_Permutation.
  apply NoDup_filter, NoDup_fst_map_to_list.
Qed.

(** [k] is the only claim file that the pattern of [id] matches. *)
Definition sole_claim (a : agent) (id k : string) : Prop :=
  forall k', is_Some (claims a !! k') /\ String.prefix (id +:+ "-") k' = true <-> k' = k.

Lemma claim_files_sole a id k : claim_files a id = [k] <-> sole_claim a id k.
Proof.
  split.
  - intros E k'. rewrite <-claim_files_elem, E. apply list_elem_of_singleton.
  - intros H. apply Permutation_singleton_r. apply NoDup_Permutation.
    + apply claim_files_NoDup.
    + apply NoDup_singleton.
    + intros k'. rewrite claim_files_elem, list_elem_of_singleton. apply H.
Qed.

Lemma claim_key_prefix id o : String.prefix (id +:+ "-") (claim_key id o) = true.
Proof. unfold claim_key. rewrite <-string_app_assoc. apply prefix_app. Qed.

Lemma claim_key_inj id o o' : claim_key id o = claim_key id o' -> o = o'.
Proof. unfold claim_key. intros E. by apply string_app_inj_l, (string_app_inj_l "-") in E. Qed.

(** What [finalize] needs: the message in processing/, one claim file under
    the pattern, and that claim held by [owner]. *)
Record finalizable (a : agent) (id owner : string) (key : string) : Prop := {
  fz_sole : sole_claim a id key;
  fz_there : is_Some (processing a !! id);
  fz_owner : exists c, claims a !! key = Some (Some c) /\ c_owner c = Some owner }.

Lemma finalize_eq sid aid id owner a :
  _validate_msg_id id = Ok tt -> check_names sid aid = Ok tt ->
  (exists key, finalizable a id owner key /\
     finalize sid aid id owner a =
     (Ok ("finalized → archive/" +:+ id +:+ ".json"), drop_claim key (move Processing Archive id a)))
  \/ ((forall key, ~ finalizable a id owner key) /\
      exists e, finalize sid aid id owner a = (Raise e, a)).
Proof.
  intros Hv Hn. destruct (finalize sid aid id owner a) as [r a'] eqn:H. unfold finalize in H.
  rewrite st_bind_unfold in H. unfold lift at 1 in H. rewrite Hv in H.
  rewrite st_bind_unfold in H. unfold lift at 1 in H. rewrite Hn in H.
  rewrite st_bind_unfold in H. unfold gets at 1 in H.
  destruct (claim_files a id) as [|key [|k2 ks]] eqn:E.
  - right. split; [|injection H as <- <-; by eexists]. intros key [Hs _ _]. apply claim_files_sole in Hs. congruence.
  - assert (Hs : sole_claim a id key) by (by apply claim_files_sole).
    assert (Hkey : forall key', finalizable a id owner key' -> key' = key).
    { intros key' [Hs' _ _]. apply claim_files_sole in Hs'. congruence. }
    rewrite st_bind_unfold in H. unfold gets at 1 in H.
    rewrite st_bind_unfold in H. unfold ensure at 1 in H. case_bool_decide as Ht.
    2:{ right. split; [|injection H as <- <-; by eexists]. intros key' [_ ? _]. done. }
    rewrite st_bind_unfold in H. unfold gets in H.
    rewrite st_bind_unfold in H. unfold lift, claim_owner in H.
    destruct (claims a !! key) as [[c|]|] eqn:Hc; cycle 1.
    + right. split; [|injection H as <- <-; by eexists]. intros key' Hf. rewrite (Hkey _ Hf) in Hf.
      destruct (fz_owner _ _ _ _ Hf) as (c & ? & _). congruence.
    + right. split; [|injection H as <- <-; by eexists]. intros key' Hf. rewrite (Hkey _ Hf) in Hf.
      destruct (fz_owner _ _ _ _ Hf) as (c & ? & _). congruence.
    + rewrite st_bind_unfold in H. unfold ensure in H. case_bool_decide as Ho.
      * left. exists key. split; [split; eauto|]. by injection H as <- <-.
      * right. split; [|injection H as <- <-; by eexists]. intros key' Hf. rewrite (Hkey _ Hf) in Hf.
        destruct (fz_owner _ _ _ _ Hf) as (c' & ? & ?). congruence.
  - right. split; [|injection H as <- <-; by eexists]. intros key' [Hs _ _]. apply claim_files_sole in Hs. congruence.
Qed.

(** ** Readers racing for a message *)

(** Where a reader is: before its claim, between the publication of the claim
    and the move of the message, and after. *)
Inductive pc := Start | HasClaim | Won | Missed.
#[export] Instance pc_eq_dec : EqDecision pc.
Proof. solve_decision. Defined.
Record race := { r_agent : agent; r_pc : string -> pc }.
Definition at_pc (r : race) (o : string) (a : agent) (p : pc) : race :=
  {| r_agent := a; r_pc := fun o' => if decide (o' = o) then p else r_pc r o' |}.

Section race.
Context (id : string) (nonce : string -> string) (now : Z).

(** The next step of the reader [o]. *)
Definition race_step (r : race) (o : string) : race :=
  match r_pc r o with
  | Start =>
    match publish_claim id o (nonce o) now (r_agent r) with
    | (Published, a) => at_pc r o a HasClaim
    | (_, a) => at_pc r o a Missed
    end
  | HasClaim =>
    match move_claimed id o (nonce o) (r_agent r) with
    | (true, a) => at_pc r o a Won
    | (false, a) => at_pc r o a Missed
    end
  | _ => r
  end.
(** The readers step in the order of [schedule]; one that stops early is a
    reader that crashed. *)
Definition run_race (a : agent) (schedule : list string) : race :=
  foldl race_step {| r_agent := a; r_pc := fun _ => Start |} schedule.

Definition claim_by (o : string) : claim :=
  {| c_owner := Some o; c_at := Some (to_second now); c_msg_id := Some id |}.

Record race_inv (f : file) (r : race) : Prop := {
  ri_claims : forall k, String.prefix (id +:+ "-") k = true -> is_Some (claims (r_agent r) !! k) ->
    exists o, k = claim_key id o;
  ri_claim : forall o, claims (r_agent r) !! claim_key id o =
    if decide (r_pc r o = HasClaim \/ r_pc r o = Won) then Some (Some (claim_by o)) else None;
  ri_tmp : forall o, is_Some (tmp_claims (r_agent r) !! tmp_claim_key id o (nonce o)) ->
    r_pc r o = HasClaim;
  ri_won : forall o o', r_pc r o = Won -> r_pc r o' = Won -> o = o';
  ri_place : (inbox (r_agent r) !! id = Some f /\ forall o, r_pc r o <> Won /\ r_pc r o <> Missed)
    \/ (inbox (r_agent r) !! id = None /\ processing (r_agent r) !! id = Some f /\
        exists w, r_pc r w = Won) }.

Hypothesis nonce_length : forall o, String.length (nonce o) = 4%nat.

Lemma tmp_claim_key_inj o o' :
  tmp_claim_key id o (nonce o) = tmp_claim_key id o' (nonce o') -> o = o'.
Proof.
  unfold tmp_claim_key. intros E. apply string_app_inv in E as [E _].
  - by apply claim_key_inj in E.
  - by rewrite !string_length_app, !nonce_length.
Qed.

Lemma race_inv_publish f r o :
  race_inv f r -> r_pc r o = Start -> race_inv f (race_step r o).
Proof.
  intros [H1 H2 H3 H4 H5] Ho. unfold race_step. rewrite Ho. unfold publish_claim.
  destruct (tmp_claims (r_agent r) !! _) as [t|] eqn:Ht.
  { exfalso. enough (r_pc r o = HasClaim) by congruence. apply H3. eauto. }
  rewrite H2, decide_False by (rewrite Ho; naive_solver).
  set (a' := set_claims _ _).
  split; simpl.
  - intros k Hk. destruct (decide (k = claim_key id o)) as [->|Hne]; [eauto|].
    rewrite lookup_insert_ne by done. by apply H1.
  - intros o'. destruct (decide (o' = o)) as [->|Hne].
    + rewrite lookup_insert_eq, decide_True; auto.
    + rewrite lookup_insert_ne; [apply H2|]. intros E. by apply Hne, eq_sym, (claim_key_inj id).
  - intros o'. destruct (decide (o' = o)) as [->|Hne]; [done|].
    rewrite lookup_insert_ne; [apply H3|]. intros E. by apply Hne, eq_sym, tmp_claim_key_inj.
  - intros o1 o2. repeat case_decide; naive_solver.
  - destruct H5 as [[Hi Hp]|(Hi & Hp & w & Hw)].
    + left. split; [done|]. intros o'. case_decide; [done|]. apply Hp.
    + right. split; [done|]. split; [done|]. exists w. case_decide; congruence.
Qed.

Lemma race_inv_move f r o :
  race_inv f r -> r_pc r o = HasClaim -> race_inv f (race_step r o).
Proof.
  intros [H1 H2 H3 H4 H5] Ho. unfold race_step. rewrite Ho. unfold move_claimed, replace_file.
  assert (Htmp : forall o', is_Some (delete (tmp_claim_key id o (nonce o)) (tmp_claims (r_agent r))
                            !! tmp_claim_key id o' (nonce o')) -> o' <> o /\ r_pc r o' = HasClaim).
  { intros o'. destruct (decide (o' = o)) as [->|Hne]; [rewrite lookup_delete_eq; by intros [? ?]|].
    rewrite lookup_delete_ne; [split; auto|]. intros E. by apply Hne, eq_sym, tmp_claim_key_inj. }
  destruct H5 as [[Hi Hp]|(Hi & Hp & w & Hw)]; simpl; rewrite Hi; simpl.
  - split; simpl.
    + apply H1.
    + intros o'. rewrite H2. case_decide as E1; case_decide as E2; try done;
        destruct (decide (o' = o)); naive_solver.
    + intros o' Hs. apply Htmp in Hs as [Hne Hs]. by rewrite decide_False.
    + intros o1 o2. pose proof (Hp o1). pose proof (Hp o2). repeat case_decide; naive_solver.
    + right. rewrite lookup_delete_eq, lookup_insert_eq. split; [done|]. split; [done|].
      exists o. by rewrite decide_True.
  - assert (Hwo : w <> o) by (intros ->; congruence).
    split; simpl.
    + intros k Hk. destruct (decide (k = claim_key id o)) as [->|Hne]; [eauto|].
      rewrite lookup_delete_ne by done. by apply H1.
    + intros o'. destruct (decide (o' = o)) as [->|Hne].
      * rewrite lookup_delete_eq, decide_False; naive_solver.
      * rewrite lookup_delete_ne; [apply H2|]. intros E. by apply Hne, eq_sym, (claim_key_inj id).
    + intros o' Hs. apply Htmp in Hs as [Hne Hs]. by rewrite decide_False.
    + intros o1 o2. repeat case_decide; naive_solver.
    + right. split; [done|]. split; [done|]. exists w. by rewrite decide_False.
Qed.

Lemma race_inv_run f a schedule :
  inbox a !! id = Some f ->
  (forall k, String.prefix (id +:+ "-") k = true -> claims a !! k = None) ->
  (forall o, tmp_claims a !! tmp_claim_key id o (nonce o) = None) ->
  race_inv f (run_race a schedule).
Proof.
  intros Hf Hc Ht. unfold run_race.
  assert (H0 : race_inv f {| r_agent := a; r_pc := fun _ => Start |}).
  { split; simpl; try done.
    - intros k Hk [c Hs]. rewrite Hc in Hs; done.
    - intros o. apply Hc, claim_key_prefix.
    - intros o [t Hs]. by rewrite Ht in Hs.
    - left. done. }
  revert H0. generalize {| r_agent := a; r_pc := fun _ => Start |}.
  induction schedule as [|o schedule IH]; intros r Hr; simpl; [done|]. apply IH.
  destruct (r_pc r o) eqn:E.
  - by apply race_inv_publish.
  - by apply race_inv_move.
  - unfold race_step. by rewrite E.
  - unfold race_step. by rewrite E.
Qed.

(** The claim files of the message are those of the readers that hold one. *)
Lemma race_sole_claim f r w :
  race_inv f r -> r_pc r w = Won -> (forall o, r_pc r o <> HasClaim) ->
  sole_claim (r_agent r) id (claim_key id w).
Proof.
  intros [H1 H2 H3 H4 H5] Hw Hdone k. split.
  - intros [Hs Hp]. destruct (H1 k Hp Hs) as [o ->]. rewrite H2 in Hs.
    case_decide as E; [|by destruct Hs]. destruct E as [E|E]; [by apply Hdone in E|].
    by rewrite (H4 o w E Hw).
  - intros ->. rewrite H2, decide_True by auto. split; [eauto|]. apply claim_key_prefix.
Qed.

(** C40: however the steps of readers of one message interleave, at most one of
    them gets it; once every reader that started has finished, exactly one
    has, the message is in processing/ under its claim alone, and that reader
    can finalize it. *)
Theorem claim_race sid aid f a schedule :
  _validate_msg_id id = Ok tt -> check_names sid aid = Ok tt ->
  inbox a !! id = Some f ->
  (forall k, String.prefix (id +:+ "-") k = true -> claims a !! k = None) ->
  (forall o, tmp_claims a !! tmp_claim_key id o (nonce o) = None) ->
  let r := run_race a schedule in
  (forall o o', r_pc r o = Won -> r_pc r o' = Won -> o = o') /\
  ((exists o, r_pc r o <> Start) -> (forall o, r_pc r o <> HasClaim) ->
   exists w, r_pc r w = Won /\ inbox (r_agent r) !! id = None /\
     processing (r_agent r) !! id = Some f /\
     exists txt a', finalize sid aid id w (r_agent r) = (Ok txt, a') /\
       archive a' !! id = Some f /\ claim_files a' id = []).
Proof.
  intros Hv Hn Hf Hc Ht. pose proof (race_inv_run f a schedule Hf Hc Ht) as Hinv. cbv zeta.
  set (r := run_race a schedule) in *. split; [apply Hinv|]. intros [o Ho] Hdone.
  destruct (ri_place _ _ Hinv) as [[_ Hp]|(Hi & Hp & w & Hw)].
  { exfalso. specialize (Hdone o). destruct (Hp o). by destruct (r_pc r o). }
  exists w. split; [done|]. split; [done|]. split; [done|].
  pose proof (race_sole_claim f r w Hinv Hw Hdone) as Hsole.
  destruct (finalize_eq sid aid id w (r_agent r) Hv Hn) as [(key & Hfz & ->)|[Hno _]].
  - eexists _, _. split; [done|].
    assert (key = claim_key id w) as ->.
    { pose proof (fz_sole _ _ _ _ Hfz) as Hs. apply claim_files_sole in Hs, Hsole. congruence. }
    unfold move, replace_file. simpl. rewrite Hp. simpl. rewrite lookup_insert_eq. split; [done|].
    apply Permutation_nil_r, NoDup_Permutation; [apply claim_files_NoDup|constructor|].
    intros k. rewrite claim_files_elem. simpl. split; [|by intros ?%not_elem_of_nil].
    intros [Hs Hpre]. exfalso. destruct (decide (k = claim_key id w)) as [->|Hne].
    + rewrite lookup_delete_eq in Hs. by destruct Hs.
    + rewrite lookup_delete_ne in Hs by done. by apply Hne, Hsole.
  - exfalso. apply (Hno (claim_key id w)). split; [done|by rewrite Hp|].
    exists (claim_by w). split; [|done]. rewrite (ri_claim _ _ Hinv), decide_True; auto.
Qed.

(** a reader that dies between the two steps of its claim blocks the
    reader that got the message: there are two claim files, so the winner can
    neither finalize it nor renew its lease, and when the lease has run out
    the message is given back to the inbox while the winner still works on
    it. *)
Theorem crashed_rival_blocks sid aid f a schedule w o t :
  _validate_msg_id id = Ok tt -> check_names sid aid = Ok tt ->
  inbox a !! id = Some f -> claims a = ∅ -> tmp_claims a = ∅ ->
  let r := run_race a schedule in
  r_pc r w = Won -> r_pc r o = HasClaim ->
  (exists e, finalize sid aid id w (r_agent r) = (Raise e, r_agent r)) /\
  renew_claim sid aid id w t (r_agent r) = (Ok false, r_agent r) /\
  forall key, key ∈ [claim_key id w; claim_key id o] -> to_second now < lease_cutoff t ->
    let a' := (recover_claim t key (r_agent r)).2 in
    inbox a' !! id = Some f /\ processing a' !! id = None.
Proof.
  intros Hv Hn Hf Hc Ht. cbv zeta. intros Hw Ho.
  assert (Hinv : race_inv f (run_race a schedule)).
  { apply race_inv_run; [done|by intros; rewrite Hc, lookup_empty|by intros; rewrite Ht, lookup_empty]. }
  set (r := run_race a schedule) in *. destruct Hinv as [H1 H2 H3 H4 H5].
  assert (Hcl : forall x, x = w \/ x = o ->
    claims (r_agent r) !! claim_key id x = Some (Some (claim_by x))).
  { intros x [->| ->]; rewrite H2, decide_True; auto. }
  assert (Hns : forall key, claim_files (r_agent r) id <> [key]).
  { intros key E. apply claim_files_sole in E.
    assert (claim_key id w = key) by (apply E; rewrite Hcl by auto; eauto using claim_key_prefix).
    assert (claim_key id o = key) by (apply E; rewrite Hcl by auto; eauto using claim_key_prefix).
    assert (w = o) by (apply (claim_key_inj id); congruence). congruence. }
  destruct H5 as [[_ Hp]|(Hi & Hp & _)]; [by destruct (Hp w)|]. split_and!.
  - destruct (finalize_eq sid aid id w (r_agent r) Hv Hn) as [(key & Hfz & _)|[_ He]]; [|done].
    destruct (Hns key). by apply claim_files_sole, Hfz.
  - unfold renew_claim. rewrite st_bind_unfold. unfold lift. rewrite Hv.
    rewrite st_bind_unfold, Hn. rewrite st_bind_unfold. unfold gets. rewrite Hp.
    destruct (claim_files (r_agent r) id) as [|k [|k' ks]] eqn:E; try done. by destruct (Hns k).
  - intros key Hkey Hlease.
    assert (Hx : exists x, (x = w \/ x = o) /\ key = claim_key id x) by set_solver.
    destruct Hx as (x & Hx & ->). unfold recover_claim. rewrite (Hcl x Hx). simpl.
    assert (claim_target (claim_key id x) (claim_by x) = id) as ->.
    { unfold claim_target. simpl. destruct (String.eqb_spec id "") as [E|]; [|done].
      exfalso. clear -Hv E. rewrite E in Hv. discriminate Hv. }
    unfold recover_locked. rewrite (Hcl x Hx), Hp. simpl.
    destruct (Z.leb_spec (lease_cutoff t) (to_second now)); [lia|].
    unfold move, replace_file. simpl. rewrite Hp. simpl.
    by rewrite lookup_insert_eq, lookup_delete_eq.
Qed.
End race.

(** ** Leases *)

(** No two dated claims are about the same message. *)
Definition one_claim (a : agent) : Prop :=
  forall k1 k2 c1 c2, claims a !! k1 = Some (Some c1) -> claims a !! k2 = Some (Some c2) ->
    claim_target k1 c1 = claim_target k2 c2 -> k1 = k2.

(** What recovery does to one claim. *)
Definition recovers (now : Z) (key : string) (a a' : agent) : Prop :=
  forall c ts, claims a !! key = Some (Some c) -> c_at c = Some ts ->
  let id := claim_target key c in
  match processing a !! id with
  | Some f =>
    if ts <? lease_cutoff now
    then inbox a' !! id = Some f /\ processing a' !! id = None /\ claims a' !! key = None
    else inbox a' !! id = inbox a !! id /\ processing a' !! id = Some f /\
         claims a' !! key = Some (Some c)
  | None => processing a' !! id = None /\ inbox a' !! id = inbox a !! id /\
            claims a' !! key = if ts <? orphan_age_gate now then None else Some (Some c)
  end.

(** The claim files and messages that recovery does not touch. *)
Lemma recover_claim_frame now key a :
  let a' := (recover_claim now key a).2 in
  (forall k, k <> key -> claims a' !! k = claims a !! k) /\
  (forall k c, claims a' !! k = Some c -> claims a !! k = Some c) /\
  (forall id, (forall c, claims a !! key = Some (Some c) -> claim_target key c <> id) ->
     inbox a' !! id = inbox a !! id /\ processing a' !! id = processing a !! id) /\
  (claims a !! key = Some None -> a' = a).
Proof.
  cbv zeta. unfold recover_claim. destruct (claims a !! key) as [[c|]|] eqn:Hc; try by naive_solver.
  destruct (c_at c) as [ts|] eqn:Hts; [|by naive_solver].
  unfold recover_locked. rewrite Hc. simpl. rewrite Hts. simpl.
  set (m := claim_target key c).
  assert (Hdrop : forall b, claims b = claims a ->
    (forall k, k <> key -> claims (drop_claim key b) !! k = claims a !! k) /\
    (forall k x, claims (drop_claim key b) !! k = Some x -> claims a !! k = Some x)).
  { intros b Hb. unfold drop_claim. simpl. rewrite Hb. split.
    - intros k Hk. by rewrite lookup_delete_ne.
    - intros k x Hx. by apply lookup_delete_Some in Hx as [_ ?]. }
  destruct (processing a !! m) as [f|] eqn:Hp; simpl.
  - destruct (lease_cutoff now <=? ts); simpl; [by naive_solver|].
    unfold move, replace_file. simpl. rewrite Hp. simpl.
    match goal with |- context [drop_claim key ?b] => destruct (Hdrop b eq_refl) as [D1 D2] end.
    split; [exact D1|]. split; [exact D2|]. split; [|done]. intros id Hid.
    specialize (Hid c eq_refl). simpl. by rewrite lookup_insert_ne, lookup_delete_ne.
  - destruct (orphan_age_gate now <=? ts); simpl; [by naive_solver|].
    destruct (Hdrop a eq_refl) as [D1 D2]. done.
Qed.

Lemma recover_claim_spec now key a : recovers now key a (recover_claim now key a).2.
Proof.
  intros c ts Hc Hts. unfold recover_claim. rewrite Hc, Hts. unfold recover_locked.
  rewrite Hc. simpl. rewrite Hts. simpl. set (m := claim_target key c).
  destruct (processing a !! m) as [f|] eqn:Hp; simpl.
  - rewrite (Z.ltb_antisym (lease_cutoff now) ts).
    destruct (lease_cutoff now <=? ts); simpl; [done|].
    unfold move, replace_file. simpl. rewrite Hp. simpl.
    by rewrite lookup_insert_eq, !lookup_delete_eq.
  - rewrite (Z.ltb_antisym (orphan_age_gate now) ts).
    destruct (orphan_age_gate now <=? ts); simpl; [done|]. by rewrite lookup_delete_eq.
Qed.

Lemma recover_claims_spec now keys a :
  NoDup keys -> one_claim a ->
  let a' := (recover_claims now keys a).2 in
  (forall k, k ∈ keys -> recovers now k a a') /\
  (forall k, k ∉ keys -> claims a' !! k = claims a !! k) /\
  (forall k, claims a !! k = Some None -> claims a' !! k = Some None) /\
  (forall id, (forall k c, k ∈ keys -> claims a !! k = Some (Some c) -> claim_target k c <> id) ->
     inbox a' !! id = inbox a !! id /\ processing a' !! id = processing a !! id).
Proof.
  intros Hnd. revert a. induction Hnd as [|key keys Hnin Hnd IH]; intros a Hone; simpl.
  { split; [intros k Hk; by apply not_elem_of_nil in Hk|]. done. }
  set (a1 := (recover_claim now key a).2).
  destruct (recover_claim_frame now key a) as (F1 & F2 & F3 & F4). fold a1 in F1, F2, F3, F4.
  pose proof (recover_claim_spec now key a) as Hspec. fold a1 in Hspec.
  assert (Hone1 : one_claim a1).
  { intros k1 k2 c1 c2 H1 H2. apply F2 in H1, H2. by apply Hone. }
  destruct (IH a1 Hone1) as (G1 & G2 & G3 & G4). split_and!.
  - intros k Hk c ts Hc Hts. apply elem_of_cons in Hk as [->|Hk].
    + specialize (Hspec c ts Hc Hts). cbv zeta in *.
      destruct (G4 (claim_target key c)) as [E1 E2].
      { intros k' c' Hk' Hc' E. apply F2 in Hc'. apply Hnin.
        by rewrite <-(Hone _ _ _ _ Hc' Hc E). }
      by rewrite E1, E2, (G2 key Hnin).
    + assert (Hne : k <> key) by (by intros ->). specialize (G1 k Hk c ts).
      rewrite (F1 k Hne) in G1. specialize (G1 Hc Hts). cbv zeta in *.
      destruct (F3 (claim_target k c)) as [E1 E2].
      { intros c' Hc' E. by apply Hne, eq_sym, (Hone _ _ _ _ Hc' Hc E). }
      by rewrite E1, E2 in G1.
  - intros k Hk. rewrite not_elem_of_cons in Hk. destruct Hk as [Hne Hk].
    by rewrite (G2 k Hk), (F1 k Hne).
  - intros k Hk. apply G3. destruct (decide (k = key)) as [->|Hne]; [|by rewrite F1].
    by rewrite F4.
  - intros id Hid. destruct (G4 id) as [E1 E2].
    + intros k c Hk Hc. apply F2 in Hc. eapply Hid; [by right|done].
    + destruct (F3 id) as [E3 E4]; [intros c Hc; by apply (Hid key c); [left|]|].
      by rewrite E1, E2, E3, E4.
Qed.

Lemma recover_claims_tmp now keys a : tmp_claims (recover_claims now keys a).2 = tmp_claims a.
Proof.
  revert a. induction keys as [|key keys IH]; intros a; simpl; [done|]. rewrite IH.
  unfold recover_claim, recover_locked, move, replace_file. simpl.
  repeat (case_match; simpl in *; try done).
  all: by destruct (processing a !! _).
Qed.

Lemma recover_stale_run sid aid now a :
  check_names sid aid = Ok tt -> one_claim a ->
  exists txt a', recover_stale sid aid now a = (Ok txt, a') /\
    (forall key, recovers now key a a') /\
    (forall key, claims a !! key = Some None -> claims a' !! key = Some None) /\
    (forall id, (forall key c, claims a !! key = Some (Some c) -> claim_target key c <> id) ->
       inbox a' !! id = inbox a !! id /\ processing a' !! id = processing a !! id).
Proof.
  intros Hn Hone. unfold recover_stale. rewrite st_bind_unfold. unfold lift. rewrite Hn.
  rewrite st_bind_unfold. unfold gets. set (keys := sort_strs _).
  assert (Hnd : NoDup keys).
  { unfold keys, sort_strs. rewrite merge_sort_Permutation. apply NoDup_fst_map_to_list. }
  destruct (recover_claims_spec now keys a Hnd Hone) as (G1 & G2 & G3 & G4).
  eexists _, _. split; [done|]. cbn. split_and!.
  - intros key c ts Hc Hts. apply G1; try done. unfold keys. apply elem_of_sort_strs.
    apply list_elem_of_fmap. exists (key, Some c). split; [done|]. by apply elem_of_map_to_list.
  - apply G3.
  - intros id Hid. apply G4. eauto.
Qed.

Lemma recover_stale_tmp sid aid now a txt a' :
  recover_stale sid aid now a = (Ok txt, a') ->
  tmp_claims a' = filter (fun kt => orphan_age_gate now <= kt.2) (tmp_claims a).
Proof.
  unfold recover_stale. intros H. apply st_bind_Ok in H as (u & ? & [_ ->]%lift_Ok & H).
  apply st_bind_Ok in H as (? & ? & [-> ->]%gets_Ok & H). injection H as _ <-. cbn.
  by rewrite recover_claims_tmp.
Qed.

(** [recover_stale] gives back exactly the messages in processing/ whose
    claim is older than 3570 seconds, drops the claims older than 30 seconds
    whose message is not in processing/, and leaves every other claim and
    message alone, unreadable and undated claims included. *)
Theorem recover_stale_spec sid aid now a :
  check_names sid aid = Ok tt -> one_claim a ->
  exists txt a', recover_stale sid aid now a = (Ok txt, a') /\
    (forall key, recovers now key a a') /\
    (forall key, claims a !! key = Some None -> claims a' !! key = Some None) /\
    (forall id, (forall key c, claims a !! key = Some (Some c) -> claim_target key c <> id) ->
       inbox a' !! id = inbox a !! id /\ processing a' !! id = processing a !! id) /\
    (forall t x, tmp_claims a' !! t = Some x <->
       tmp_claims a !! t = Some x /\ now - 30000 <= x) /\
    forall ts, ts < lease_cutoff now <-> now - ts > 3570 * 1000.
Proof.
  intros Hn Hone. destruct (recover_stale_run sid aid now a Hn Hone) as (txt & a' & Hr & H1 & H2 & H3).
  exists txt, a'. split_and!; try done.
  - intros t x. rewrite (recover_stale_tmp _ _ _ _ _ _ Hr), map_lookup_filter_Some.
    unfold orphan_age_gate. simpl. tauto.
  - intros ts. unfold lease_cutoff, LEASE_TIMEOUT_MS, LEASE_CLOCK_TOLERANCE_MS. lia.
Qed.

(** The claim [c] of [key] with a new lease. *)
Definition renewed (key : string) (c : claim) (now : Z) (a : agent) : agent :=
  set_claims (<[key := Some {| c_owner := c_owner c; c_at := Some (to_second now);
                               c_msg_id := c_msg_id c |}]> (claims a)) a.

Lemma renew_eq sid aid id owner now a :
  _validate_msg_id id = Ok tt -> check_names sid aid = Ok tt ->
  (exists key c, finalizable a id owner key /\ claims a !! key = Some (Some c) /\
     renew_claim sid aid id owner now a = (Ok true, renewed key c now a)) \/
  ((forall key, ~ finalizable a id owner key) /\
   renew_claim sid aid id owner now a = (Ok false, a)).
Proof.
  intros Hv Hn. destruct (renew_claim sid aid id owner now a) as [r a'] eqn:H.
  unfold renew_claim in H. rewrite st_bind_unfold in H. unfold lift in H. rewrite Hv in H.
  rewrite st_bind_unfold, Hn in H. rewrite st_bind_unfold in H. unfold gets in H.
  assert (Hno : (forall k, claim_files a id <> [k]) -> forall key, ~ finalizable a id owner key).
  { intros Hk key [Hs _ _]. apply claim_files_sole in Hs. by apply (Hk key). }
  destruct (processing a !! id) as [f|] eqn:Hp.
  2:{ right. injection H as <- <-. split; [|done]. intros key [_ [? ?] _]. congruence. }
  destruct (claim_files a id) as [|key [|k2 ks]] eqn:E;
    try (right; injection H as <- <-; split; [by apply Hno|done]).
  assert (Hs : sole_claim a id key) by (by apply claim_files_sole).
  assert (Hkey : forall k, finalizable a id owner k -> k = key).
  { intros k [Hs' _ _]. apply claim_files_sole in Hs'. congruence. }
  unfold renew_locked in H. rewrite Hp, E in H.
  assert (Hbad : (forall c, claims a !! key = Some (Some c) -> c_owner c <> Some owner) ->
                 forall k, ~ finalizable a id owner k).
  { intros Hc k Hf. rewrite (Hkey k Hf) in Hf. destruct (fz_owner _ _ _ _ Hf) as (c & Hc' & Ho).
    by apply (Hc c). }
  destruct (claims a !! key) as [[c|]|] eqn:Hc;
    try (right; injection H as <- <-; split; [apply Hbad; congruence|done]).
  case_bool_decide as Ho.
  - left. exists key, c. split; [|by injection H as <- <-].
    split; [done|by rewrite Hp|eauto].
  - right. injection H as <- <-. split; [|done]. apply Hbad. naive_solver.
Qed.

(** [renew_claim] answers [True] exactly to the holder of the message's
    only claim, and then [recover_stale] does not take the message from it
    for the next 3569 seconds. *)
Theorem renew_protects sid aid id owner t0 a :
  _validate_msg_id id = Ok tt -> check_names sid aid = Ok tt ->
  exists b a1, renew_claim sid aid id owner t0 a = (Ok b, a1) /\
    (b = true <-> exists key, finalizable a id owner key) /\
    (b = false -> a1 = a) /\
    forall t, b = true -> one_claim a -> t <= t0 + 3569 * 1000 ->
      (forall key c, claims a !! key = Some (Some c) -> claim_target key c = id ->
         String.prefix (id +:+ "-") key = true) ->
      exists txt a2, recover_stale sid aid t a1 = (Ok txt, a2) /\
        processing a2 !! id = processing a !! id.
Proof.
  intros Hv Hn. destruct (renew_eq sid aid id owner t0 a Hv Hn) as [(key & c & Hf & Hc & ->)|[Hno ->]].
  2:{ exists false, a. split; [done|]. split; [split; [done|intros [k Hk]; by apply Hno in Hk]|].
      split; [done|]. intros t. done. }
  exists true, (renewed key c t0 a). split; [done|]. split; [split; [by exists key|done]|].
  split; [done|]. intros t _ Hone Ht Hpre.
  set (a1 := renewed key c t0 a).
  assert (Hcl : forall k x, claims a1 !! k = Some (Some x) ->
    exists y, claims a !! k = Some (Some y) /\ claim_target k x = claim_target k y /\
              (k = key -> c_at x = Some (to_second t0))).
  { intros k x. cbn. destruct (decide (k = key)) as [->|Hne].
    - rewrite lookup_insert_eq. intros [= <-]. by exists c.
    - rewrite lookup_insert_ne by done. intros Hx. by exists x. }
  assert (Hone1 : one_claim a1).
  { intros k1 k2 c1 c2 H1 H2. apply Hcl in H1 as (y1 & H1 & -> & _), H2 as (y2 & H2 & -> & _).
    by apply Hone. }
  destruct (recover_stale_run sid aid t a1 Hn Hone1) as (txt & a2 & Hrun & Hrec & _ & Hframe).
  exists txt, a2. split; [done|]. destruct (fz_there _ _ _ _ Hf) as [f Hp].
  destruct (decide (claim_target key c = id)) as [Hid|Hid].
  - specialize (Hrec key _ (to_second t0) (lookup_insert_eq _ _ _) eq_refl). cbv zeta in Hrec.
    change (claim_target key _) with (claim_target key c) in Hrec. rewrite Hid in Hrec.
    change (processing a1) with (processing a) in Hrec. rewrite Hp in Hrec |- *.
    pose proof (to_second_le t0). unfold lease_cutoff, LEASE_TIMEOUT_MS, LEASE_CLOCK_TOLERANCE_MS in *.
    destruct (Z.ltb_spec (to_second t0) (t - 3600 * 1000 + 30 * 1000)); [lia|]. apply Hrec.
  - apply (Hframe id). intros k x Hx E. apply Hcl in Hx as (y & Hy & Hxy & _).
    rewrite E in Hxy. assert (k = key) as ->.
    { apply (fz_sole _ _ _ _ Hf). split; [eauto|]. by apply (Hpre k y). }
    rewrite Hc in Hy. injection Hy as <-. congruence.
Qed.

(** ** What [read] returns *)

(** The message [msg] was claimed by [owner] at [now]. *)
Record claimed (m : session_meta) (sid aid owner id : string) (now : Z) (msg : pydict) (a : agent) :
    Prop := {
  cl_processing : exists f, processing a !! id = Some f /\ content f = Some (VDict msg);
  cl_inbox : inbox a !! id = None;
  cl_claim : claims a !! claim_key id owner =
    Some (Some {| c_owner := Some owner; c_at := Some (to_second now); c_msg_id := Some id |});
  cl_valid : validate_message (VDict msg) (Some sid) (Some aid) (Some (id +:+ ".json")) = Ok Valid;
  cl_roster : dstr msg "from" ∈ roster m }.

Definition read_outcome (meta : option session_meta) (sid aid owner : string) (skip : gset string)
    (now : Z) (r : res (option pydict)) (a : agent) : Prop :=
  match r with
  | Ok (Some msg) => exists m id, meta = Some m /\ id ∉ skip /\ claimed m sid aid owner id now msg a
  | Ok None => forall id f, inbox a !! id = Some f -> visible id = true ->
      id ∈ skip \/ is_Some (claims a !! claim_key id owner)
  | Raise e => exists id f v, inbox a !! id = Some f /\ content f = Some v /\
      validate_message v (Some sid) (Some aid) (Some (id +:+ ".json")) = Raise e
  end.

(** The contested messages are those whose claim file exists. *)
Definition contested_ok (owner : string) (cont : gset string) (a : agent) : Prop :=
  forall id, id ∈ cont -> is_Some (claims a !! claim_key id owner).

Lemma claim_key_inj_msg id id' o : claim_key id o = claim_key id' o -> id = id'.
Proof. unfold claim_key. intros E. by apply string_app_inv in E as [-> _]. Qed.

Lemma reap_claims key now a k :
  k <> key -> claims (_reap_expired_claim key now a).2 !! k = claims a !! k.
Proof.
  intros Hk. unfold _reap_expired_claim, reap_locked, move, replace_file. simpl.
  repeat (case_match; simpl in *; try done).
  all: destruct (processing a !! _); simpl; by rewrite lookup_delete_ne.
Qed.

Lemma reap_false key now a : (_reap_expired_claim key now a).1 = false ->
  (_reap_expired_claim key now a).2 = a.
Proof. unfold _reap_expired_claim, reap_locked. by repeat case_match. Qed.

Lemma target_of_skip skip cont files stem f :
  target_of skip None cont files = Some (stem, f) -> stem ∉ skip /\ stem ∉ cont.
Proof. intros H. apply List.find_some in H as [_ H]. by bool_to_prop. Qed.

Lemma claims_move src dst id a : claims (move src dst id a) = claims a.
Proof. unfold move, replace_file. by destruct (dir_of src a !! id), src, dst. Qed.

Lemma round_outcome meta sid aid owner skip cont nonce now a :
  contested_ok owner cont a ->
  match read_round meta sid aid owner skip None cont nonce now a with
  | (Return m, a') => read_outcome meta sid aid owner skip now (Ok m) a'
  | (Throw e, a') => read_outcome meta sid aid owner skip now (Raise e) a'
  | (Continue cont', a') => contested_ok owner cont' a'
  end.
Proof.
  intros Hc. unfold read_round. destruct (target_of _ _ _ _) as [[stem f]|] eqn:Ht; simpl.
  2:{ intros id f Hf Hvis. unfold target_of in Ht. rewrite find_None in Ht.
      specialize (Ht (id, f)). simpl in Ht.
      assert (Hin : (id, f) ∈ list_messages (inbox a)) by (by apply list_messages_elem).
      specialize (Ht Hin). bool_to_prop. apply not_and_l in Ht as [Hn|Hn]; apply dec_stable in Hn; auto. }
  pose proof (target_of_inbox _ _ _ _ _ _ Ht) as Hf. apply target_of_skip in Ht as [Hskip Hcont].
  assert (Hq : contested_ok owner cont (move Inbox Corrupt stem a)).
  { intros id Hid. rewrite claims_move. auto. }
  destruct (content f) as [v|] eqn:Hv; [|done].
  destruct (validate_message v _ _ _) as [[]|e] eqn:Hval; [|by destruct v|by exists stem, f, v].
  destruct v as [| | | | | |msg]; try done. unfold in_roster.
  destruct meta as [m|]; [|done]. case_bool_decide as Hro; [|done].
  unfold claim_round, publish_claim.
  destruct (tmp_claims a !! _) as [t|]; [done|].
  destruct (claims a !! claim_key stem owner) as [c|] eqn:Hcl.
  - pose proof (reap_claims (claim_key stem owner) now a) as Hr.
    pose proof (reap_false (claim_key stem owner) now a) as Hrf.
    destruct (_reap_expired_claim _ _ a) as [[] a1]; simpl in Hr, Hrf.
    + intros id Hid. rewrite Hr; [by apply Hc|]. intros E. apply claim_key_inj_msg in E. congruence.
    + rewrite (Hrf eq_refl). intros id [->%elem_of_singleton|Hid]%elem_of_union; [eauto|auto].
  - unfold move_claimed, replace_file. simpl. rewrite Hf. simpl.
    exists m, stem. split; [done|]. split; [done|]. split; try done; simpl.
    + exists f. split; [apply lookup_insert_eq|done].
    + apply lookup_delete_eq.
    + apply lookup_insert_eq.
Qed.

(** what an untargeted [read] leaves when it returns.  A message: it is a
    valid message of a roster member that is not parked, now in processing/
    only, under a fresh claim of the reader.  [None]: every message left in
    the inbox is parked or already has a claim file of this owner.  An
    exception: validation itself raised on a message, which stays in the
    inbox. *)
Theorem read_result meta sid aid owner skip fuel nonce now a r a' :
  check_names sid aid = Ok tt ->
  read meta sid aid owner skip None fuel nonce now a = Some (r, a') ->
  read_outcome meta sid aid owner skip now r a'.
Proof.
  intros Hn. unfold read. rewrite Hn.
  assert (Hc : contested_ok owner ∅ a) by (intros id Hid; set_solver).
  revert Hc. generalize (∅ : gset string). revert a.
  induction fuel as [|fuel IH]; intros a cont Hc; simpl; [done|].
  pose proof (round_outcome meta sid aid owner skip cont (nonce fuel) now a Hc) as Hr.
  destruct (read_round _ _ _ _ _ _ _ _ _ a) as [[m|c|e] a1].
  - by intros [= <- <-].
  - by apply IH.
  - by intros [= <- <-].
Qed.

(** the pattern that finds the claim of a message also matches the claims
    of every message whose id continues it with a dash: while the claim of
    [id-x] by [owner'] exists, [finalize] of [id] raises and [renew_claim]
    answers [False], though the claim of [id] is in order. *)
Theorem claim_pattern_collision sid aid id x owner owner' t a :
  _validate_msg_id id = Ok tt -> check_names sid aid = Ok tt ->
  is_Some (claims a !! claim_key id owner) ->
  is_Some (claims a !! claim_key (id +:+ "-" +:+ x) owner') ->
  claim_key (id +:+ "-" +:+ x) owner' <> claim_key id owner ->
  (exists e, finalize sid aid id owner a = (Raise e, a)) /\
  renew_claim sid aid id owner t a = (Ok false, a).
Proof.
  intros Hv Hn H1 H2 Hne.
  assert (Hno : forall key, ~ finalizable a id owner key).
  { intros key [Hs _ _]. apply Hne. transitivity key; [|symmetry]; apply Hs; split; try done.
    - unfold claim_key. rewrite !string_app_assoc, <-string_app_assoc. apply prefix_app.
    - apply claim_key_prefix. }
  split.
  - destruct (finalize_eq sid aid id owner a Hv Hn) as [(key & Hf & _)|[_ He]]; [|done].
    by apply Hno in Hf.
  - destruct (renew_eq sid aid id owner t a Hv Hn) as [(key & c & Hf & _)|[_ He]]; [|done].
    by apply Hno in Hf.
Qed.

(** ** A concrete inbox *)

(** The directory of [w1] after a message was sent to it. *)
Definition demo_agent : agent := default empty_agent
  (agents (send demo_repr "s1" (demo_draft "w1") (Some "m1") [] 1700000005000 demo).2 !! "w1").
Definition demo_file : file := default {| content := None; mtime := 0 |} (inbox demo_agent !! "m1").
Definition demo_nonce (_ : nat) : string := "1234".
Definition demo_claimed : agent :=
  from_option snd demo_agent (read (Some demo_meta) "s1" "w1" "alice" ∅ None 10 demo_nonce
                                1700000006000 demo_agent).

Lemma one_place_inbox a :
  processing a = ∅ -> archive a = ∅ -> corrupt a = ∅ -> one_place a.
Proof.
  intros H2 H3 H4 id p q f g.
  destruct p, q; simpl; rewrite ?H2, ?H3, ?H4, ?lookup_empty; done.
Qed.
Lemma demo_one_place : one_place demo_agent.
Proof. apply one_place_inbox; vm_compute; reflexivity. Qed.

Lemma messages_conserved_witness :
  let a' := foldl (fun a op => exec_claim "s1" "w1" op a) demo_agent
    [CRead (Some demo_meta) "alice" ∅ None 10 demo_nonce 1700000006000; CFinalize "m1" "alice"] in
  one_place a' /\ (forall id f, holds a' id f <-> holds demo_agent id f) /\
  archive a' !! "m1" = Some demo_file.
Proof.
  destruct (messages_conserved "s1" "w1"
    [CRead (Some demo_meta) "alice" ∅ None 10 demo_nonce 1700000006000; CFinalize "m1" "alice"]
    demo_agent demo_one_place) as [H1 H2].
  split; [exact H1|]. split; [exact H2|]. vm_compute. reflexivity.
Defined.

Lemma read_terminates_witness :
  is_Some (read (Some demo_meta) "s1" "w1" "alice" ∅ None 3 demo_nonce 1700000006000 demo_agent).
Proof. apply read_terminates. vm_compute. lia. Defined.

Definition demo_msg : pydict := match content demo_file with Some (VDict d) => d | _ => [] end.

Lemma read_result_witness :
  read (Some demo_meta) "s1" "w1" "alice" ∅ None 10 demo_nonce 1700000006000 demo_agent
    = Some (Ok (Some demo_msg), demo_claimed) /\
  read_outcome (Some demo_meta) "s1" "w1" "alice" ∅ 1700000006000 (Ok (Some demo_msg)) demo_claimed.
Proof.
  assert (E : read (Some demo_meta) "s1" "w1" "alice" ∅ None 10 demo_nonce 1700000006000 demo_agent
    = Some (Ok (Some demo_msg), demo_claimed)) by (vm_compute; reflexivity).
  split; [exact E|].
  exact (read_result (Some demo_meta) "s1" "w1" "alice" ∅ 10 demo_nonce 1700000006000 demo_agent
    _ demo_claimed eq_refl E).
Defined.

(** [alice] died between the two steps of its claim. *)
Definition half_claimed : agent := (publish_claim "m1" "alice" "1234" 1700000006000 demo_agent).2.
(** ... and [recover_stale] would have removed the temporary file. *)
Definition half_claimed_swept : agent := set_tmp_claims ∅ half_claimed.

Lemma targeted_read_spins_witness :
  read (Some demo_meta) "s1" "w1" "alice" ∅ (Some "m1") 1000 demo_nonce 1700000007000
    half_claimed_swept = None.
Proof.
  apply (targeted_read_spins demo_meta "s1" "w1" "alice" ∅ "m1" demo_file demo_msg).
  3: discriminate.
  7: in_list.
  8: vm_compute; by eexists.
  all: vm_compute; reflexivity.
Defined.

Lemma claim_race_witness :
  let r := run_race "m1" (fun _ => "1234") 1700000006000 demo_agent ["a"; "b"; "b"; "a"] in
  (forall o o', r_pc r o = Won -> r_pc r o' = Won -> o = o') /\
  ((exists o, r_pc r o <> Start) -> (forall o, r_pc r o <> HasClaim) ->
   exists w, r_pc r w = Won /\ inbox (r_agent r) !! "m1" = None /\
     processing (r_agent r) !! "m1" = Some demo_file /\
     exists txt a', finalize "s1" "w1" "m1" w (r_agent r) = (Ok txt, a') /\
       archive a' !! "m1" = Some demo_file /\ claim_files a' "m1" = []).
Proof.
  apply (claim_race "m1" (fun _ => "1234") 1700000006000 (fun _ => eq_refl) "s1" "w1" demo_file
           demo_agent ["a"; "b"; "b"; "a"]); vm_compute; reflexivity.
Defined.

Lemma crashed_rival_blocks_witness :
  let r := run_race "m1" (fun _ => "1234") 1700000006000 demo_agent ["a"; "b"; "a"] in
  (exists e, finalize "s1" "w1" "m1" "a" (r_agent r) = (Raise e, r_agent r)) /\
  renew_claim "s1" "w1" "m1" "a" 1700000007000 (r_agent r) = (Ok false, r_agent r) /\
  forall key, key ∈ [claim_key "m1" "a"; claim_key "m1" "b"] ->
    to_second 1700000006000 < lease_cutoff 1700000007000 ->
    let a' := (recover_claim 1700000007000 key (r_agent r)).2 in
    inbox a' !! "m1" = Some demo_file /\ processing a' !! "m1" = None.
Proof.
  apply (crashed_rival_blocks "m1" (fun _ => "1234") 1700000006000 (fun _ => eq_refl) "s1" "w1"
    demo_file demo_agent ["a"; "b"; "a"] "a" "b" 1700000007000); vm_compute; reflexivity.
Defined.

Lemma demo_one_claim : one_claim demo_claimed.
Proof.
  assert (exists c, claims demo_claimed = {["m1-alice" := Some c]}) as [c Hc]
    by (vm_compute; by eexists).
  intros k1 k2 c1 c2. rewrite Hc. intros [<- _]%lookup_singleton_Some [<- _]%lookup_singleton_Some.
  done.
Qed.

Lemma recover_stale_spec_witness :
  exists txt a', recover_stale "s1" "w1" 1700003580000 demo_claimed = (Ok txt, a') /\
    (forall key, recovers 1700003580000 key demo_claimed a') /\
    (forall key, claims demo_claimed !! key = Some None -> claims a' !! key = Some None) /\
    (forall id, (forall key c, claims demo_claimed !! key = Some (Some c) ->
         claim_target key c <> id) ->
       inbox a' !! id = inbox demo_claimed !! id /\
       processing a' !! id = processing demo_claimed !! id) /\
    (forall t x, tmp_claims a' !! t = Some x <->
       tmp_claims demo_claimed !! t = Some x /\ 1700003580000 - 30000 <= x) /\
    forall ts, ts < lease_cutoff 1700003580000 <-> 1700003580000 - ts > 3570 * 1000.
Proof. apply recover_stale_spec; [vm_compute; reflexivity|exact demo_one_claim]. Defined.

Lemma renew_protects_witness :
  exists b a1, renew_claim "s1" "w1" "m1" "alice" 1700003000000 demo_claimed = (Ok b, a1) /\
    (b = true <-> exists key, finalizable demo_claimed "m1" "alice" key) /\
    (b = false -> a1 = demo_claimed) /\
    forall t, b = true -> one_claim demo_claimed -> t <= 1700003000000 + 3569 * 1000 ->
      (forall key c, claims demo_claimed !! key = Some (Some c) -> claim_target key c = "m1" ->
         String.prefix ("m1" +:+ "-") key = true) ->
      exists txt a2, recover_stale "s1" "w1" t a1 = (Ok txt, a2) /\
        processing a2 !! "m1" = processing demo_claimed !! "m1".
Proof. apply renew_protects; vm_compute; reflexivity. Defined.

(** [alice] also holds "m1-b". *)
Definition dashed : agent :=
  (publish_claim "m1-b" "alice" "1234" 1700000006000 demo_claimed).2.
Lemma claim_pattern_collision_witness :
  (exists e, finalize "s1" "w1" "m1" "alice" dashed = (Raise e, dashed)) /\
  renew_claim "s1" "w1" "m1" "alice" 1700000007000 dashed = (Ok false, dashed).
Proof.
  apply (claim_pattern_collision "s1" "w1" "m1" "b" "alice" "alice"); vm_compute; try done;
    by eexists.
Defined.
