(* ===== verification/MailboxAdmin.v ===== *)
(** * Mailbox store: status, statistics and cleanup
      (MailboxStore.write_status, read_status, stats, clear, purge,
       clean_older_than and check in src/src/codeagent/mailbox/store.py)

    The park registry is consulted through a predicate [hot] that tells the
    agents with a HOT_PARKED lease; ParkRegistry.v models the registry. *)
From S2P Require Import Prelude MailboxProtocol MailboxStore MailboxClaims.

(** ** Status *)
Record StatusSnapshot := {
  st_session_id : string; st_state : string; st_current_task : string;
  st_last_conclusion : string; st_updated_at : string }.

Definition status_to_dict (s : StatusSnapshot) : pydict :=
  [("session_id", VStr (st_session_id s)); ("state", VStr (st_state s));
   ("current_task", VStr (st_current_task s));
   ("last_conclusion", VStr (st_last_conclusion s));
   ("updated_at", VStr (st_updated_at s))].
(** [StatusSnapshot.from_dict] of an object whose five fields are strings. *)
Definition status_from_dict (d : pydict) : StatusSnapshot :=
  {| st_session_id := dstr d "session_id"; st_state := dstr d "state";
     st_current_task := dstr d "current_task"; st_last_conclusion := dstr d "last_conclusion";
     st_updated_at := dstr d "updated_at" |}.

(** A status.json: missing, unparsable, or a JSON value. *)
Inductive status_file := NoStatus | BadStatus | Status (v : pyval).

(** [there] is whether the session and the agent exist; the result is the new
    status file. *)
Definition write_status (session_id agent_id : string) (session_there agent_there : bool)
    (state current_task last_conclusion : string) (now : Z) (old : status_file) :
    res string * status_file :=
  let r :=
    guard bool_decide (state ∈ VALID_STATES) orelse ValueError "invalid state";
    do _ <- validate_agent_id session_id;
    guard session_there orelse ValueError "session not found";
    do _ <- validate_agent_id agent_id;
    guard agent_there orelse ValueError "agent not in session";
    Ok ("status: " +:+ state) in
  match r with
  | Ok _ => (r, Status (VDict (status_to_dict
      {| st_session_id := session_id; st_state := state; st_current_task := current_task;
         st_last_conclusion := last_conclusion; st_updated_at := iso_timestamp now |})))
  | Raise _ => (r, old)
  end.

Definition STATUS_KEYS : list string :=
  ["session_id"; "state"; "current_task"; "last_conclusion"; "updated_at"].

(** [None], or [StatusFileCorruptError] when [strict]. *)
Definition corrupt_status (strict : bool) (reason : string) : res (option StatusSnapshot) :=
  if strict then Raise (AppError "StatusFileCorruptError" reason) else Ok None.

Definition read_status (session_id agent_id : string) (strict : bool) (f : status_file) :
    res (option StatusSnapshot) :=
  do _ <- validate_agent_id agent_id;
  do _ <- validate_agent_id session_id;
  match f with
  | NoStatus => Ok None
  | BadStatus => corrupt_status strict "unparsable"
  | Status (VDict d) =>
    if negb (forallb (dmem d) STATUS_KEYS
             && forallb (fun kv => bool_decide (kv.1 ∈ STATUS_KEYS)) d)
    then corrupt_status strict "missing or extra keys"
    else if negb (forallb (fun k => is_str (dgetd d k VNone)) STATUS_KEYS)
    then corrupt_status strict "non-string field value"
    else if bool_decide (dstr d "state" ∉ VALID_STATES)
    then corrupt_status strict "invalid state"
    else if negb (String.eqb (dstr d "session_id") session_id)
    then corrupt_status strict "session mismatch"
    else Ok (Some (status_from_dict d))
  | Status _ => corrupt_status strict "missing or extra keys"
  end.

(** ** Statistics and clearing *)

(** The pattern of [list_messages] also matches the claim files
    [.claim-*.json] of processing/. *)
Definition stats (a : agent) : list (string * Z) :=
  [("inbox", Z.of_nat (length (list_messages (inbox a))));
   ("processing", Z.of_nat (length (list_messages (processing a)) + base.size (claims a)));
   ("archive", Z.of_nat (length (list_messages (archive a))));
   ("_corrupt", Z.of_nat (length (list_messages (corrupt a))))].

Section park.
(** The agents with a HOT_PARKED lease. *)
Variable hot : string -> bool.

Definition _check_park_lease (agent_id : string) : res unit :=
  guard negb (hot agent_id) orelse AppError "ParkLeaseActiveError" "active park lease"; Ok tt.

Definition clear (session_id agent_id : string) (prune_stale : bool) (now : Z) : st agent string :=
  _ ← lift (_check_park_lease agent_id);
  _ ← lift (check_names session_id agent_id);
  total ← gets (fun a => base.size (archive a));
  _ ← modify (set_dir Archive ∅);
  _ ← (if prune_stale then _ ← recover_stale session_id agent_id now; mret tt else mret tt);
  mret ("cleared " +:+ pretty total).

Definition purge (session_id agent_id : string) : st agent string :=
  _ ← lift (check_names session_id agent_id);
  total ← gets (fun a => base.size (corrupt a));
  _ ← modify (set_dir Corrupt ∅);
  mret ("purged " +:+ pretty total).

(** ** Removal of old sessions *)

(** The store: its sessions, and per session the files queued in _outbox/ and
    _dead_letter/. *)
Record store := {
  sessions : gmap string session;
  outbox : gmap string (list string); dead_letter : gmap string (list string) }.

(** [set(meta.get("agents", [])) | {meta.get("manager", "")}], without [""]. *)
Definition members (s : session) : list string :=
  match meta s with
  | None => []
  | Some m => filter (fun a => a <> "") (m_agents m ++ [m_manager m])
  end.

(** A member without a session.json is [""] and skipped. *)
Definition _session_has_active_park_lease (s : session) : bool := existsb hot (members s).

Definition pending (d : dir) : bool :=
  existsb (fun x => negb (String.prefix "." x.1)) (map_to_list d).
Definition agent_busy (now : Z) (a : agent) : bool :=
  pending (inbox a) || pending (processing a)
  || existsb (fun x => match x.2 with
                       | Some c => given (c_at c) (fun ts => lease_cutoff now <=? ts)
                       | None => false
                       end) (map_to_list (claims a)).

(** The loop over the members: [agent_dir] may reject a name. *)
Fixpoint members_busy (now : Z) (s : session) (aids : list string) : res bool :=
  match aids with
  | [] => Ok false
  | aid :: aids' =>
    do _ <- validate_agent_id aid;
    if from_option (agent_busy now) false (agents s !! aid) then Ok true
    else members_busy now s aids'
  end.

Definition _session_has_unfinished_work (r : store) (sid : string) (s : session) (now : Z) :
    res bool :=
  do busy <- members_busy now s (members s);
  Ok (busy || negb (bool_decide (default [] (outbox r !! sid) = []))).

Definition remove_session (sid : string) (r : store) : store :=
  {| sessions := delete sid (sessions r); outbox := delete sid (outbox r);
     dead_letter := delete sid (dead_letter r) |}.

(** The loop over the session directories, in the order of their names; the
    accumulators are [removed] and [skipped]. *)
Fixpoint clean_loop (now cutoff : Z) (sids : list string) (removed skipped : list string)
    (r : store) : res (list string * list string) * store :=
  match sids with
  | [] => (Ok (removed, skipped), r)
  | sid :: sids' =>
    if String.prefix "." sid || String.prefix "_" sid then clean_loop now cutoff sids' removed skipped r
    else match sessions r !! sid with
    | None => clean_loop now cutoff sids' removed skipped r
    | Some s =>
      if negb (is_ok (validate_agent_id sid)) then clean_loop now cutoff sids' removed skipped r
      else let ts := default now (meta s ≫= m_created) in
      if cutoff <=? ts then clean_loop now cutoff sids' removed skipped r
      else match _session_has_unfinished_work r sid s now with
      | Raise e => (Raise e, r)
      | Ok busy =>
        if busy || _session_has_active_park_lease s
        then clean_loop now cutoff sids' removed (skipped ++ [sid]) r
        else clean_loop now cutoff sids' (removed ++ [sid]) skipped (remove_session sid r)
      end
    end
  end.

Definition clean_older_than (days now : Z) (r : store) :
    res (list string * list string) * store :=
  if days <? 0 then (Raise (ValueError "days must be non-negative"), r)
  else clean_loop now (now - days * 86400 * 1000)
         (sort_strs (map_to_list (sessions r)).*1) [] [] r.
End park.

(** ** The legacy reader *)

(** [check] for the messages [files]: validated ones go to archive/, the
    others to _corrupt/; only a [ValueError] is caught. *)
Fixpoint check_files (agent_id : string) (files : list (string * file)) (a : agent) :
    res (list pydict) * agent :=
  match files with
  | [] => (Ok [], a)
  | (stem, f) :: files' =>
    let bad := check_files agent_id files' (move Inbox Corrupt stem a) in
    match content f with
    | None => bad
    | Some v =>
      match validate_message v None (Some agent_id) (Some (stem +:+ ".json")), v with
      | Raise e, _ => (Raise e, a)
      | Ok Valid, VDict msg =>
        let q := check_files agent_id files' (move Inbox Archive stem a) in
        (do l <- q.1; Ok (msg :: l), q.2)
      | Ok _, _ => bad
      end
    end
  end.

Definition check (session_id agent_id : string) (max_messages : nat) (a : agent) :
    res (list pydict) * agent :=
  match check_names session_id agent_id with
  | Raise e => (Raise e, a)
  | Ok _ =>
    let files := list_messages (inbox a) in
    check_files agent_id (if Nat.eqb max_messages 0 then files else take max_messages files) a
  end.

(** ** Status round trip *)

(** what [write_status] wrote, [read_status] reads back, strict or not; a
    status it refuses leaves the file as it was; and in strict mode every
    unusable file raises instead of looking like a missing one. *)
Theorem status_roundtrip sid aid strict st_there ag_there state task concl now old :
  let w := write_status sid aid st_there ag_there state task concl now old in
  (forall txt, w.1 = Ok txt -> read_status sid aid strict w.2 = Ok (Some
     {| st_session_id := sid; st_state := state; st_current_task := task;
        st_last_conclusion := concl; st_updated_at := iso_timestamp now |})) /\
  (forall e, w.1 = Raise e -> w.2 = old) /\
  (forall f, read_status sid aid true f = Ok None -> f = NoStatus) /\
  (forall f s, read_status sid aid strict f = Ok (Some s) ->
     st_session_id s = sid /\ st_state s ∈ VALID_STATES).
Proof.
  cbv zeta. split_and!.
  - intros txt. unfold write_status. destruct (bool_decide _) eqn:Hs; [|done].
    destruct (validate_agent_id sid) as [[]|] eqn:Hsid; [|done]. simpl.
    destruct st_there; [|done]. destruct (validate_agent_id aid) as [[]|] eqn:Haid; [|done]. simpl.
    destruct ag_there; [|done]. intros _. simpl. unfold read_status. rewrite Hsid, Haid. simpl.
    bool_to_prop. rewrite bool_decide_eq_false_2 by auto. rewrite String.eqb_refl. done.
  - intros e. unfold write_status. by destruct (if bool_decide _ then _ else _).
  - intros f. unfold read_status. destruct (validate_agent_id aid) as [[]|]; [|done].
    destruct (validate_agent_id sid) as [[]|]; [|done]. simpl.
    destruct f as [| |v]; [done|done|]. destruct v; try done. by repeat case_match.
  - intros f s. unfold read_status. destruct (validate_agent_id aid) as [[]|]; [|done].
    destruct (validate_agent_id sid) as [[]|]; [|done]. simpl.
    destruct f as [| |v]; [done|by destruct strict|].
    destruct v as [| | | | | |d]; try by destruct strict.
    destruct (negb _); [by destruct strict|]. destruct (negb _); [by destruct strict|].
    case_bool_decide as Hst; [by destruct strict|].
    destruct (String.eqb_spec (dstr d "session_id") sid) as [Heq|]; [|by destruct strict].
    intros [= <-]. simpl. by split.
Qed.

(** ** Removal of old sessions *)
Lemma NoDup_sort_keys {A} (m : gmap string A) : NoDup (sort_strs (map_to_list m).*1).
Proof. unfold sort_strs. rewrite merge_sort_Permutation. apply NoDup_fst_map_to_list. Qed.

Section clean.
Variable hot : string -> bool.
Context (now cutoff : Z).
Hypothesis cutoff_past : cutoff <= now.

(** The sessions that may be removed. *)
Record removable (r : store) (sid : string) (s : session) : Prop := {
  rm_session : sessions r !! sid = Some s;
  rm_name : String.prefix "." sid = false /\ String.prefix "_" sid = false;
  rm_valid : validate_agent_id sid = Ok tt;
  rm_old : exists m ts, meta s = Some m /\ m_created m = Some ts /\ ts < cutoff;
  rm_idle : _session_has_unfinished_work r sid s now = Ok false;
  rm_cold : _session_has_active_park_lease hot s = false }.

(** The stores agree on the sessions [sids]. *)
Definition agree (sids : list string) (r1 r2 : store) : Prop :=
  forall sid, sid ∈ sids -> sessions r1 !! sid = sessions r2 !! sid /\
                            outbox r1 !! sid = outbox r2 !! sid.

Lemma removable_agree r1 r2 sid s :
  sessions r1 !! sid = sessions r2 !! sid -> outbox r1 !! sid = outbox r2 !! sid ->
  removable r1 sid s -> removable r2 sid s.
Proof.
  intros Hs Ho [H1 H2 H3 H4 H5 H6]. split; try done; [by rewrite <-Hs|].
  revert H5. unfold _session_has_unfinished_work. by rewrite Ho.
Qed.

(** [r'] is [r] without the sessions [gone]. *)
Definition without (gone : list string) (r r' : store) : Prop :=
  forall sid,
    sessions r' !! sid = (if decide (sid ∈ gone) then None else sessions r !! sid) /\
    outbox r' !! sid = (if decide (sid ∈ gone) then None else outbox r !! sid) /\
    dead_letter r' !! sid = (if decide (sid ∈ gone) then None else dead_letter r !! sid).

Lemma without_remove sid gone r r' :
  without gone (remove_session sid r) r' -> without (sid :: gone) r r'.
Proof.
  intros H x. destruct (H x) as (H1 & H2 & H3). rewrite H1, H2, H3. simpl.
  destruct (decide (x = sid)) as [->|Hne].
  - rewrite !lookup_delete_eq.
    destruct (decide (sid ∈ gone)), (decide (sid ∈ sid :: gone)); try done; exfalso; set_solver.
  - rewrite !lookup_delete_ne by done.
    destruct (decide (x ∈ gone)), (decide (x ∈ sid :: gone)); try done; exfalso; set_solver.
Qed.

Lemma without_nil r : without [] r r.
Proof. intros sid. by rewrite decide_False by apply not_elem_of_nil. Qed.

Lemma clean_loop_spec sids removed skipped r out r' :
  NoDup sids -> clean_loop hot now cutoff sids removed skipped r = (out, r') ->
  exists gone, without gone r r' /\
    (forall sid, sid ∈ gone -> sid ∈ sids /\ exists s, removable r sid s) /\
    forall rem sk, out = Ok (rem, sk) -> rem = removed ++ gone /\
      forall sid s, sid ∈ sids -> removable r sid s -> sid ∈ gone.
Proof.
  intros Hnd. revert removed skipped r. induction Hnd as [|sid sids Hnin Hnd IH];
    intros removed skipped r H; simpl in H.
  { injection H as <- <-. exists []. split; [apply without_nil|].
    split; [intros sid Hs; by apply not_elem_of_nil in Hs|].
    intros rem sk [= -> ->]. rewrite app_nil_r. split; [done|].
    intros sid s Hs. by apply not_elem_of_nil in Hs. }
  assert (Hskip : forall skipped',
    clean_loop hot now cutoff sids removed skipped' r = (out, r') ->
    (forall s, ~ removable r sid s) -> exists gone, without gone r r' /\
    (forall x, x ∈ gone -> x ∈ sid :: sids /\ exists s, removable r x s) /\
    forall rem sk, out = Ok (rem, sk) -> rem = removed ++ gone /\
      forall x s, x ∈ sid :: sids -> removable r x s -> x ∈ gone).
  { intros skipped' Hc Hno. destruct (IH _ _ _ Hc) as (gone & G1 & G2 & G3).
    exists gone. split; [done|]. split.
    - intros x Hx. destruct (G2 x Hx) as [? ?]. split; [by right|done].
    - intros rem sk Hout. destruct (G3 rem sk Hout) as [-> G4]. split; [done|].
      intros x s [->|Hx]%elem_of_cons Hr; [by apply Hno in Hr|by eapply G4]. }
  destruct (String.prefix "." sid || String.prefix "_" sid) eqn:Hname.
  { eapply Hskip; [exact H|]. intros s [_ [? ?] _ _ _ _]. apply orb_true_iff in Hname.
    destruct Hname; congruence. }
  destruct (sessions r !! sid) as [s|] eqn:Hs.
  2:{ eapply Hskip; [exact H|]. intros s [? _ _ _ _ _]. congruence. }
  destruct (validate_agent_id sid) as [[]|] eqn:Hv; simpl in H.
  2:{ eapply Hskip; [exact H|]. intros s' [_ _ ? _ _ _]. congruence. }
  destruct (Z.leb_spec cutoff (default now (meta s ≫= m_created))) as [Hle|Hlt].
  { eapply Hskip; [exact H|]. intros s' [Hs' _ _ (m & ts & Hm & Hts & Hlt) _ _].
    assert (s' = s) as -> by congruence. rewrite Hm in Hle. simpl in Hle. rewrite Hts in Hle.
    simpl in Hle. lia. }
  destruct (_session_has_unfinished_work r sid s now) as [busy|e] eqn:Hb.
  2:{ injection H as <- <-. exists []. split; [apply without_nil|].
      split; [intros x Hx; by apply not_elem_of_nil in Hx|done]. }
  destruct (busy || _session_has_active_park_lease hot s) eqn:Hbusy.
  { eapply Hskip; [exact H|]. intros s' [Hs' _ _ _ Hb' Hc']. assert (s' = s) as -> by congruence.
    rewrite Hb' in Hb. injection Hb as <-. by rewrite Hc' in Hbusy. }
  apply orb_false_iff in Hbusy as [-> Hcold]. apply orb_false_iff in Hname as [Hn1 Hn2].
  assert (Hrm : removable r sid s).
  { split; try done. destruct (meta s) as [m|] eqn:Hm; simpl in Hlt; [|lia].
    destruct (m_created m) as [ts|] eqn:Hts; simpl in Hlt; [by exists m, ts|lia]. }
  destruct (IH _ _ _ H) as (gone & G1 & G2 & G3).
  assert (Hag : forall x s', removable (remove_session sid r) x s' <-> removable r x s' /\ x <> sid).
  { intros x s'. destruct (decide (x = sid)) as [->|Hne].
    - split; [|naive_solver]. intros [Hs' _ _ _ _ _]. simpl in Hs'. by rewrite lookup_delete_eq in Hs'.
    - split; [intros Hr; split; [|done]|intros [Hr _]];
        (eapply removable_agree; [| |exact Hr]); simpl; by rewrite lookup_delete_ne. }
  exists (sid :: gone). split; [by apply without_remove|]. split.
  - intros x [->|Hx]%elem_of_cons; [split; [by left|eauto]|].
    destruct (G2 x Hx) as [? [s' Hr]]. split; [by right|]. exists s'. by apply Hag in Hr as [? _].
  - intros rem sk Hout. destruct (G3 rem sk Hout) as [-> G4]. rewrite <-app_assoc. split; [done|].
    intros x s' [->|Hx]%elem_of_cons Hr; [by left|]. right. apply (G4 x s' Hx).
    apply Hag. split; [done|]. by intros ->.
Qed.

(** Nothing waits in a session without unfinished work. *)
Lemma idle_session r sid s aid a :
  _session_has_unfinished_work r sid s now = Ok false -> aid ∈ members s ->
  agents s !! aid = Some a -> agent_busy now a = false.
Proof.
  unfold _session_has_unfinished_work. intros H. apply res_bind_Ok in H as (b & Hb & [= H]).
  apply orb_false_iff in H as [-> _]. revert Hb. induction (members s) as [|x l IH]; simpl.
  - intros _ Hin. by apply not_elem_of_nil in Hin.
  - intros Hb. apply res_bind_Ok in Hb as (u & _ & Hb).
    destruct (from_option (agent_busy now) false (agents s !! x)) eqn:E; [done|].
    intros [->|Hin]%elem_of_cons Ha; [by rewrite Ha in E|by apply IH].
Qed.

Lemma idle_agent a id f :
  agent_busy now a = false -> inbox a !! id = Some f \/ processing a !! id = Some f ->
  String.prefix "." id = true.
Proof.
  intros [[Hi Hp]%orb_false_iff _]%orb_false_iff H.
  assert (Hpend : forall d, pending d = false -> d !! id = Some f -> String.prefix "." id = true).
  { intros d Hd Hf. apply not_true_iff_false in Hd. apply not_false_iff_true. intros Hid.
    apply Hd, existsb_exists. exists (id, f). split; [|simpl; by rewrite Hid].
    by apply list_elem_of_In, elem_of_map_to_list. }
  destruct H as [H|H]; eauto.
Qed.
End clean.

(** [clean_older_than] removes exactly the sessions that are older than
    the limit, idle and without a hot park lease, with their queued and dead
    letters, and nothing else; in a removed session no message waits in any
    member's inbox/ or processing/.  When it raises, what was removed so far
    satisfied the same conditions. *)
Theorem clean_removes_idle hot days now r out r' :
  0 <= days -> clean_older_than hot days now r = (out, r') ->
  let cutoff := now - days * 86400 * 1000 in
  exists gone, without gone r r' /\
    (forall sid, sid ∈ gone -> exists s, removable hot now cutoff r sid s /\
       forall aid a id f, aid ∈ members s -> agents s !! aid = Some a ->
         inbox a !! id = Some f \/ processing a !! id = Some f -> String.prefix "." id = true) /\
    forall rem sk, out = Ok (rem, sk) -> rem = gone /\
      forall sid s, removable hot now cutoff r sid s -> sid ∈ gone.
Proof.
  intros Hd H cutoff. unfold clean_older_than in H. destruct (Z.ltb_spec days 0); [lia|].
  assert (Hcut : cutoff <= now) by (unfold cutoff; lia).
  destruct (clean_loop_spec hot now cutoff Hcut _ [] [] r out r'
    (NoDup_sort_keys (sessions r)) H) as (gone & G1 & G2 & G3).
  exists gone. split; [done|]. split.
  - intros sid Hs. destruct (G2 sid Hs) as [_ [s Hr]]. exists s. split; [done|].
    intros aid a id f Hm Ha Hf. eapply (idle_agent now); [|exact Hf].
    eapply idle_session; [apply Hr|done|done].
  - intros rem sk Hout. destruct (G3 rem sk Hout) as [-> G4]. split; [done|].
    intros sid s Hr. apply (G4 sid s); [|done]. apply elem_of_sort_strs, list_elem_of_fmap.
    exists (sid, s). split; [done|]. apply elem_of_map_to_list, Hr.
Qed.

(** A store with one old idle session. *)
Definition demo_store : store :=
  {| sessions := {["s1" := demo]}; outbox := {["s1" := []]}; dead_letter := ∅ |}.

Lemma clean_removes_idle_witness :
  let out := clean_older_than (fun _ => false) 1 1700200000000 demo_store in
  let cutoff := 1700200000000 - 1 * 86400 * 1000 in
  out.1 = Ok (["s1"], []) /\
  exists gone, without gone demo_store out.2 /\
    (forall sid, sid ∈ gone ->
       exists s, removable (fun _ => false) 1700200000000 cutoff demo_store sid s /\
       forall aid a id f, aid ∈ members s -> agents s !! aid = Some a ->
         inbox a !! id = Some f \/ processing a !! id = Some f -> String.prefix "." id = true) /\
    forall rem sk, out.1 = Ok (rem, sk) -> rem = gone /\
      forall sid s, removable (fun _ => false) 1700200000000 cutoff demo_store sid s -> sid ∈ gone.
Proof.
  cbv zeta. split; [vm_compute; reflexivity|].
  refine (clean_removes_idle (fun _ => false) 1 1700200000000 demo_store _ _ _ _);
    [lia|apply surjective_pairing].
Defined.

(** ** Statistics *)

(** [stats] counts every claim file of processing/ as a message: after one
    message was claimed it reports two in processing/. *)
Theorem stats_counts_claims a :
  dget (stats a) "processing" =
    Some (Z.of_nat (length (list_messages (processing a))) + Z.of_nat (base.size (claims a))) /\
  (exists one : agent, length (list_messages (processing one)) = 1%nat /\
     dget (stats one) "processing" = Some 2).
Proof.
  split; [simpl; by rewrite Nat2Z.inj_add|].
  exists demo_claimed. split; vm_compute; reflexivity.
Qed.
