(* ===== verification/SwarmKernel.v ===== *)
(** * Swarm kernel: sessions, routing table, access control, fan-out
      (src/src/codeagent/swarm/kernel.py and model.py)

    The kernel keeps its sessions, routing table, channels and subscriptions
    in memory and persists them next to the mailbox sessions.  Sending is two
    steps, as in the code: a routing decision on the kernel state (under its
    lock), and the deliveries to a sink, an interface of which
    [LocalDeliverySink] is an implementation.  Random identifiers are an
    argument [uuid]: the values that successive calls of [uuid4] return. *)
From S2P Require Import Prelude MailboxProtocol MailboxStore MailboxClaims.

(** ** Data *)
Inductive AddressKind := DIRECT | CHANNEL | BROADCAST | NOTICE.
Inductive ExecutionMode := MAILBOX_WORKER | LOCAL_OMP_MCP.
Inductive ReturnMode := MANAGER_PULL | BIDIRECTIONAL.
#[export] Instance AddressKind_eq_dec : EqDecision AddressKind.
Proof. solve_decision. Defined.
#[export] Instance ExecutionMode_eq_dec : EqDecision ExecutionMode.
Proof. solve_decision. Defined.
#[export] Instance ReturnMode_eq_dec : EqDecision ReturnMode.
Proof. solve_decision. Defined.

Definition execution_value (m : ExecutionMode) : string :=
  match m with MAILBOX_WORKER => "mailbox-worker" | LOCAL_OMP_MCP => "local-omp-mcp" end.
Definition return_value (m : ReturnMode) : string :=
  match m with MANAGER_PULL => "manager-pull" | BIDIRECTIONAL => "bidirectional" end.
(** [ExecutionMode(raw)] and [ReturnMode(raw)] *)
Definition execution_of (raw : string) : res ExecutionMode :=
  if String.eqb raw "mailbox-worker" then Ok MAILBOX_WORKER
  else if String.eqb raw "local-omp-mcp" then Ok LOCAL_OMP_MCP
  else Raise (ValueError "not a valid ExecutionMode").
Definition return_of (raw : string) : res ReturnMode :=
  if String.eqb raw "manager-pull" then Ok MANAGER_PULL
  else if String.eqb raw "bidirectional" then Ok BIDIRECTIONAL
  else Raise (ValueError "not a valid ReturnMode").

Record AgentLocation := {
  l_agent_id : string; l_host_alias : string; l_backend : string;
  l_capabilities : list string; l_execution_mode : option ExecutionMode;
  l_mailbox_root : string; l_return_mode : option ReturnMode }.
Record Address := {
  ad_kind : AddressKind; ad_agent_id : string; ad_channel_id : string; ad_topic : string }.
Record Envelope := {
  e_subject : string; e_body : string; e_kind : string; e_attachments : list AttachmentRef;
  e_reply_to : string; e_run_id : string; e_request_id : string; e_trace_id : string;
  e_causation_id : string; e_require_ack : bool; e_receipt_type : string }.
Record ACL := {
  authority : string; allowed_senders : list string; room_members : list string;
  policy : string }.
Record Channel := { ch_id : string; ch_members : list string; ch_acl : option ACL }.
Record Session := {
  s_manager : string; s_roster : list string; s_acl : ACL;
  s_execution_modes : list (string * string); s_return_modes : list (string * string) }.
Record Subscription := { sub_channels : list string; sub_kinds : list string;
                         sub_topics : list string }.

(** [Roster.without] *)
Definition without (members : list string) (agent_id : string) : list string :=
  filter (fun m => m <> agent_id) members.

(** ** Persisted metadata: swarm-meta.json *)
Record routing_entry := {
  re_agent_id : option string; re_host_alias : option string; re_backend : option string;
  re_execution_mode : option string; re_mailbox_root : option string;
  re_return_mode : option string }.
Record swarm_meta := {
  sm_acl : option ACL; sm_channels : gmap string (option string * list string);
  sm_routing : gmap string routing_entry; sm_tokens : gmap string string;
  sm_cards : gmap string pydict }.
Definition empty_meta : swarm_meta :=
  {| sm_acl := None; sm_channels := ∅; sm_routing := ∅; sm_tokens := ∅; sm_cards := ∅ |}.

(** ** The kernel *)
Record kernel := {
  sessions : gmap string Session;
  routing : gmap (string * string) AgentLocation;
  channels : gmap string (gmap string Channel);
  subscriptions : gmap string (gmap string (list Subscription));
  topic_subscriptions : gmap string (gmap string (gset string));
  registration_tokens : gmap (string * string) string;
  (** the files: mailbox sessions and readable swarm-meta.json files *)
  disk : gmap string session;
  metas : gmap string swarm_meta }.

Definition set_sessions x k := {| sessions := x; routing := routing k; channels := channels k;
  subscriptions := subscriptions k; topic_subscriptions := topic_subscriptions k;
  registration_tokens := registration_tokens k; disk := disk k; metas := metas k |}.
Definition set_routing x k := {| sessions := sessions k; routing := x; channels := channels k;
  subscriptions := subscriptions k; topic_subscriptions := topic_subscriptions k;
  registration_tokens := registration_tokens k; disk := disk k; metas := metas k |}.
Definition set_channels x k := {| sessions := sessions k; routing := routing k; channels := x;
  subscriptions := subscriptions k; topic_subscriptions := topic_subscriptions k;
  registration_tokens := registration_tokens k; disk := disk k; metas := metas k |}.
Definition set_subscriptions x k := {| sessions := sessions k; routing := routing k;
  channels := channels k; subscriptions := x; topic_subscriptions := topic_subscriptions k;
  registration_tokens := registration_tokens k; disk := disk k; metas := metas k |}.
Definition set_topics x k := {| sessions := sessions k; routing := routing k;
  channels := channels k; subscriptions := subscriptions k; topic_subscriptions := x;
  registration_tokens := registration_tokens k; disk := disk k; metas := metas k |}.
Definition set_tokens x k := {| sessions := sessions k; routing := routing k;
  channels := channels k; subscriptions := subscriptions k;
  topic_subscriptions := topic_subscriptions k;
  registration_tokens := x; disk := disk k; metas := metas k |}.
Definition set_disk x k := {| sessions := sessions k; routing := routing k;
  channels := channels k; subscriptions := subscriptions k;
  topic_subscriptions := topic_subscriptions k;
  registration_tokens := registration_tokens k; disk := x; metas := metas k |}.
Definition set_metas x k := {| sessions := sessions k; routing := routing k;
  channels := channels k; subscriptions := subscriptions k;
  topic_subscriptions := topic_subscriptions k;
  registration_tokens := registration_tokens k; disk := disk k; metas := x |}.

(** A mailbox operation on the files of one session. *)
Definition on_session {A} (session_id : string) (m : st session A) : st kernel A := fun k =>
  let r := m (default empty_session (disk k !! session_id)) in
  (r.1, set_disk (<[session_id := r.2]> (disk k)) k).

(** The locked read-modify-write of swarm-meta.json. *)
Definition _persist_meta (session_id : string) (update : swarm_meta -> swarm_meta) :
    st kernel unit :=
  modify (fun k => set_metas
    (<[session_id := update (default empty_meta (metas k !! session_id))]> (metas k)) k).

Definition _require_session (session_id : string) : st kernel Session :=
  k ← gets (fun k => k);
  match sessions k !! session_id with
  | Some s => mret s
  | None => raise (ValueError "session not found")
  end.

(** ** Session lifecycle *)
Definition strs (l : list string) : pyval := VList (map VStr l).
Definition acl_dict (a : ACL) : pydict :=
  [("authority", VStr (authority a)); ("allowed_senders", strs (allowed_senders a));
   ("room_members", strs (room_members a)); ("policy", VStr (policy a))].

(** [set(l) | {m}] when [m] is not in [l], as a list. *)
Definition with_member (l : list string) (m : string) : list string :=
  if bool_decide (m ∈ l) then l else sorted_set (m :: l).

Definition open_acl (authority : string) (members : list string) : ACL :=
  {| authority := authority; allowed_senders := members; room_members := members;
     policy := "open" |}.

Definition nonempty {A} (l : list A) : option (list A) :=
  match l with [] => None | _ => Some l end.

Definition create_session (session_id manager_id : string) (roster : list string)
    (acl : option ACL) (execution_modes return_modes : list (string * string)) (now : Z) :
    st kernel Session :=
  _ ← lift (validate_agent_id session_id);
  _ ← lift (validate_agent_id manager_id);
  _ ← lift (res_iter validate_agent_id roster);
  k ← gets (fun k => k);
  _ ← ensure (bool_decide (sessions k !! session_id = None)) (ValueError "session already exists");
  let all_members := sorted_set (manager_id :: roster) in
  let acl := default (open_acl manager_id all_members) acl in
  let acl := {| authority := authority acl;
                allowed_senders := with_member (allowed_senders acl) manager_id;
                room_members := with_member (room_members acl) manager_id;
                policy := policy acl |} in
  let s := {| s_manager := manager_id; s_roster := all_members; s_acl := acl;
              s_execution_modes := execution_modes; s_return_modes := return_modes |} in
  _ ← on_session session_id
        (session_init session_id manager_id (filter (fun a => a <> manager_id) all_members)
           (Some (VDict (acl_dict acl))) (nonempty execution_modes) (nonempty return_modes) now);
  _ ← _persist_meta session_id (fun m =>
        {| sm_acl := Some acl; sm_channels := sm_channels m; sm_routing := sm_routing m;
           sm_tokens := sm_tokens m; sm_cards := sm_cards m |});
  _ ← modify (fun k => set_sessions (<[session_id := s]> (sessions k)) k);
  _ ← modify (fun k => set_channels (<[session_id := ∅]> (channels k)) k);
  _ ← modify (fun k => set_subscriptions (<[session_id := ∅]> (subscriptions k)) k);
  mret s.

(** ** Registration *)

(** The entry [_persist_routing] writes: [capabilities] has none. *)
Definition entry_of (loc : AgentLocation) : routing_entry :=
  {| re_agent_id := Some (l_agent_id loc); re_host_alias := Some (l_host_alias loc);
     re_backend := Some (l_backend loc);
     re_execution_mode := execution_value <$> l_execution_mode loc;
     re_mailbox_root := if String.eqb (l_mailbox_root loc) "" then None
                        else Some (l_mailbox_root loc);
     re_return_mode := return_value <$> l_return_mode loc |}.

(** The locations of one session, by agent. *)
Definition session_routing (session_id : string) (k : kernel) : list (string * AgentLocation) :=
  omap (fun x => if String.eqb x.1.1 session_id then Some (x.1.2, x.2) else None)
       (map_to_list (routing k)).

Definition _persist_routing (session_id : string) (deleted : list string) : st kernel unit :=
  k ← gets (fun k => k);
  _persist_meta session_id (fun m =>
    let r := foldl (fun r x => <[x.1 := entry_of x.2]> r) (sm_routing m)
               (session_routing session_id k) in
    {| sm_acl := sm_acl m; sm_channels := sm_channels m;
       sm_routing := foldl (fun r aid => delete aid r) r deleted;
       sm_tokens := sm_tokens m; sm_cards := sm_cards m |}).

Definition check_roster (s : Session) (agent_id : string) : st kernel unit :=
  ensure (bool_decide (agent_id ∈ s_roster s)) (ValueError "agent not in roster").

(** Registers the modes of a location in the session and in session.json. *)
Definition register_modes (session_id : string) (s : Session) (loc : AgentLocation) (now : Z) :
    st kernel unit :=
  let put (d : list (string * string)) (o : option string) :=
    match o with Some v => dset d (l_agent_id loc) v | None => d end in
  let em := execution_value <$> l_execution_mode loc in
  let rm := return_value <$> l_return_mode loc in
  _ ← modify (fun k => set_sessions (<[session_id :=
        {| s_manager := s_manager s; s_roster := s_roster s; s_acl := s_acl s;
           s_execution_modes := put (s_execution_modes s) em;
           s_return_modes := put (s_return_modes s) rm |}]> (sessions k)) k);
  if is_none em && is_none rm then mret tt
  else _ ← on_session session_id
             (session_init session_id (s_manager s) [] None
                ((fun v => [(l_agent_id loc, v)]) <$> em)
                ((fun v => [(l_agent_id loc, v)]) <$> rm) now);
       mret tt.

Definition register (loc : AgentLocation) (session_id token : string) (now : Z) :
    st kernel AgentLocation :=
  s ← _require_session session_id;
  _ ← check_roster s (l_agent_id loc);
  let key := (session_id, l_agent_id loc) in
  k ← gets (fun k => k);
  let expected := default "" (registration_tokens k !! key) in
  _ ← ensure (String.eqb expected "" || String.eqb token expected)
        (PermissionError "registration token mismatch");
  _ ← modify (fun k => set_routing (<[key := loc]> (routing k)) k);
  _ ← _persist_routing session_id [];
  _ ← register_modes session_id s loc now;
  mret loc.

Definition unregister (session_id agent_id : string) : st kernel unit :=
  _ ← _require_session session_id;
  _ ← modify (fun k => set_routing (delete (session_id, agent_id) (routing k)) k);
  _persist_routing session_id [agent_id].

Definition set_registration_token (session_id agent_id token : string) : st kernel unit :=
  s ← _require_session session_id;
  _ ← check_roster s agent_id;
  _ ← modify (fun k => set_tokens (<[(session_id, agent_id) := token]> (registration_tokens k)) k);
  _persist_meta session_id (fun m =>
    {| sm_acl := sm_acl m; sm_channels := sm_channels m; sm_routing := sm_routing m;
       sm_tokens := <[agent_id := token]> (sm_tokens m); sm_cards := sm_cards m |}).

(** The fields of an agent card, cut to size; [py_str] is Python's [str]. *)
Definition CARD_KEYS : list string :=
  ["display_name"; "description"; "agent_version"; "capabilities"].
Definition clean_card (py_str : pyval -> string) (card : pydict) : pydict :=
  map (fun kv =>
    (kv.1, if String.eqb kv.1 "capabilities" then
             match kv.2 with
             | VList l => VList (map (fun c => VStr (str_take 64 (py_str c))) (take 32 l))
             | v => v
             end
           else match kv.2 with VStr s => VStr (str_take 256 s) | v => v end))
    (filter (fun kv => kv.1 ∈ CARD_KEYS) card).

Definition set_agent_card (py_str : pyval -> string) (session_id agent_id : string)
    (card : pydict) : st kernel unit :=
  s ← _require_session session_id;
  _ ← check_roster s agent_id;
  let clean := clean_card py_str card in
  _ ← ensure (negb (bool_decide (length clean = 0%nat)))
        (ValueError "agent card must include at least one field");
  _persist_meta session_id (fun m =>
    {| sm_acl := sm_acl m; sm_channels := sm_channels m; sm_routing := sm_routing m;
       sm_tokens := sm_tokens m; sm_cards := <[agent_id := clean]> (sm_cards m) |}).

Definition get_agent_cards (k : kernel) (session_id : string) : gmap string pydict :=
  default ∅ (sm_cards <$> metas k !! session_id).

(** ** Channels *)
Definition _persist_channels (session_id : string) : st kernel unit :=
  k ← gets (fun k => k);
  _persist_meta session_id (fun m =>
    {| sm_acl := sm_acl m;
       sm_channels := ((fun c => (Some (ch_id c), ch_members c)) <$>
                         default ∅ (channels k !! session_id)) ∪ sm_channels m;
       sm_routing := sm_routing m; sm_tokens := sm_tokens m; sm_cards := sm_cards m |}).

Definition create_channel (session_id channel_id : string) (members : list string)
    (acl : option ACL) : st kernel Channel :=
  s ← _require_session session_id;
  _ ← ensure (forallb (fun m => bool_decide (m ∈ s_roster s)) members)
        (ValueError "channel member not in roster");
  k ← gets (fun k => k);
  let chans := default ∅ (channels k !! session_id) in
  _ ← ensure (bool_decide (is_none (chans !! channel_id) = true))
        (ValueError "channel already exists");
  let c := {| ch_id := channel_id; ch_members := members; ch_acl := acl |} in
  _ ← modify (fun k => set_channels (<[session_id := <[channel_id := c]> chans]> (channels k)) k);
  _ ← _persist_channels session_id;
  mret c.

(** ** Access control *)
Definition _check_direct (s : Session) (sender recipient : string) : res unit :=
  guard bool_decide (sender ∈ allowed_senders (s_acl s))
    orelse PermissionError "sender not in allowed_senders";
  guard bool_decide (recipient ∈ room_members (s_acl s))
    orelse PermissionError "recipient not in room_members";
  Ok tt.
Definition _check_channel (c : Channel) (sender : string) : res unit :=
  guard bool_decide (sender ∈ ch_members c) orelse PermissionError "sender not in channel members";
  Ok tt.
Definition _check_broadcast (s : Session) (sender : string) : res unit :=
  guard String.eqb (policy (s_acl s)) "open" || String.eqb sender (authority (s_acl s))
    orelse PermissionError "sender is not broadcast authority";
  Ok tt.
Definition _check_notice (s : Session) (sender : string) : res unit :=
  guard bool_decide (sender ∈ allowed_senders (s_acl s))
    orelse PermissionError "sender not in allowed_senders";
  Ok tt.

(** ** Routing decisions *)

(** What the locked part of a send decides: the envelope with its trace id,
    and the recipients with the message id of each. *)
Record plan := { p_envelope : Envelope; p_created_at : string; p_targets : list (string * string) }.

Definition _ensure_trace_id (trace : string) (e : Envelope) : Envelope :=
  if String.eqb (e_trace_id e) "" then
    {| e_subject := e_subject e; e_body := e_body e; e_kind := e_kind e;
       e_attachments := e_attachments e; e_reply_to := e_reply_to e; e_run_id := e_run_id e;
       e_request_id := e_request_id e; e_trace_id := trace; e_causation_id := e_causation_id e;
       e_require_ack := e_require_ack e; e_receipt_type := e_receipt_type e |}
  else e.

Section decisions.
(** Successive [uuid4] values: the trace id, then one id per recipient. *)
Context (uuid : nat -> string) (now : Z).

Definition plan_for (e : Envelope) (recipients : list string) : plan :=
  {| p_envelope := _ensure_trace_id (uuid 0) e; p_created_at := iso_timestamp now;
     p_targets := imap (fun i r => (r, uuid (S i))) recipients |}.

Definition direct_plan (session_id sender to_agent : string) (e : Envelope) : st kernel plan :=
  s ← _require_session session_id;
  _ ← lift (_check_direct s sender to_agent);
  mret (plan_for e [to_agent]).

Definition broadcast_plan (session_id sender : string) (e : Envelope) : st kernel plan :=
  s ← _require_session session_id;
  _ ← lift (_check_broadcast s sender);
  mret (plan_for e (without (s_roster s) sender)).

Definition channel_plan (session_id sender channel_id : string) (e : Envelope) : st kernel plan :=
  _ ← _require_session session_id;
  k ← gets (fun k => k);
  match default ∅ (channels k !! session_id) !! channel_id with
  | None => raise (ValueError "channel not found")
  | Some c =>
    _ ← lift (_check_channel c sender);
    mret (plan_for e (without (ch_members c) sender))
  end.

(** The subscribers of a topic, in [_topic_subscriptions]. *)
Definition topic_members (k : kernel) (session_id topic : string) : gset string :=
  default ∅ (default ∅ (topic_subscriptions k !! session_id) !! topic).

(** [targets.discard(sender)] works on the registered set itself when the
    topic has subscribers. *)
Definition notice_plan (session_id sender topic : string) (e : Envelope) : st kernel plan :=
  s ← _require_session session_id;
  _ ← lift (_check_notice s sender);
  k ← gets (fun k => k);
  let members := topic_members k session_id topic in
  if bool_decide (members = ∅) then
    mret (plan_for e (sorted_set (without (room_members (s_acl s)) sender)))
  else
    let targets := members ∖ {[sender]} in
    _ ← modify (fun k => set_topics
          (<[session_id := <[topic := targets]> (default ∅ (topic_subscriptions k !! session_id))]>
             (topic_subscriptions k)) k);
    mret (plan_for e (sort_strs (elements targets))).
End decisions.

(** ** Delivery *)
Record receipt := { r_status : string; r_queued : bool; r_error : string }.

(** The interface to transports: a sink with a state [T] of its own delivers
    one envelope to one agent. *)
Class DeliverySink (T : Type) :=
  deliver : forall (session_id target : string) (e : Envelope) (msg_id created_at from_id : string),
    st (kernel * T) receipt.
(** What the kernel relies on: a delivery leaves its tables and the metadata
    files alone. *)
Class DeliverySinkLaws (T : Type) `{DeliverySink T} :=
  deliver_frame : forall sid target e id created from kt,
    let k := kt.1 in
    let k' := (deliver sid target e id created from kt).2.1 in
    sessions k' = sessions k /\ routing k' = routing k /\ channels k' = channels k /\
    topic_subscriptions k' = topic_subscriptions k /\
    subscriptions k' = subscriptions k /\
    registration_tokens k' = registration_tokens k /\ metas k' = metas k /\
    forall sid', disk k' !! sid' ≫= meta = disk k !! sid' ≫= meta.

Record SendReceipt := { sr_msg_id : string; sr_status : string; sr_target : string;
                        sr_queued : bool }.
Record DeliveryReceipt := { dr_msg_id : string; dr_recipient : string; dr_status : string;
                            dr_error : string }.

Definition on_kernel {T A} (m : st kernel A) : st (kernel * T) A := fun kt =>
  let r := m kt.1 in (r.1, (r.2, kt.2)).

Section send.
Context {T : Type} `{DeliverySink T} (uuid : nat -> string) (now : Z).

Definition deliver_one (session_id sender : string) (p : plan) (x : string * string) :
    st (kernel * T) DeliveryReceipt :=
  r ← deliver session_id x.1 (p_envelope p) x.2 (p_created_at p) sender;
  mret {| dr_msg_id := x.2; dr_recipient := x.1; dr_status := r_status r; dr_error := r_error r |}.

(** One delivery after the other; the first that raises ends the send. *)
Fixpoint deliver_all (session_id sender : string) (p : plan) (l : list (string * string)) :
    st (kernel * T) (list DeliveryReceipt) :=
  match l with
  | [] => mret []
  | x :: l' =>
    r ← deliver_one session_id sender p x;
    rs ← deliver_all session_id sender p l';
    mret (r :: rs)
  end.

(** The thread pool of a large broadcast: every delivery runs (here in the
    order of the roster), and then the first exception is raised. *)
Fixpoint deliver_pool (session_id sender : string) (p : plan) (l : list (string * string)) :
    st (kernel * T) (list DeliveryReceipt) :=
  match l with
  | [] => mret []
  | x :: l' => fun kt =>
    let r := deliver_one session_id sender p x kt in
    let rs := deliver_pool session_id sender p l' r.2 in
    (do a <- r.1; do b <- rs.1; Ok (a :: b), rs.2)
  end.

Definition _BROADCAST_PARALLEL_MIN : nat := 4.

Definition direct (session_id sender to_agent : string) (e : Envelope) :
    st (kernel * T) SendReceipt :=
  p ← on_kernel (direct_plan uuid now session_id sender to_agent e);
  r ← deliver session_id to_agent (p_envelope p) (uuid 1) (p_created_at p) sender;
  mret {| sr_msg_id := uuid 1; sr_status := r_status r; sr_target := to_agent;
          sr_queued := r_queued r |}.

Definition broadcast (session_id sender : string) (e : Envelope) :
    st (kernel * T) (list DeliveryReceipt) :=
  p ← on_kernel (broadcast_plan uuid now session_id sender e);
  if Nat.leb _BROADCAST_PARALLEL_MIN (length (p_targets p))
  then deliver_pool session_id sender p (p_targets p)
  else deliver_all session_id sender p (p_targets p).

Definition channel (session_id sender channel_id : string) (e : Envelope) :
    st (kernel * T) (list DeliveryReceipt) :=
  p ← on_kernel (channel_plan uuid now session_id sender channel_id e);
  deliver_all session_id sender p (p_targets p).

Definition notice (session_id sender topic : string) (e : Envelope) :
    st (kernel * T) (list DeliveryReceipt) :=
  p ← on_kernel (notice_plan uuid now session_id sender topic e);
  deliver_all session_id sender p (p_targets p).

(** The status of a fan-out: delivered if every delivery is. *)
Definition fanout_receipt (receipts : list DeliveryReceipt) : SendReceipt :=
  {| sr_msg_id := from_option dr_msg_id "" (head receipts);
     sr_status := if forallb (fun r => String.eqb (dr_status r) "delivered") receipts
                  then "delivered" else "accepted";
     sr_target := ""; sr_queued := false |}.

Definition send (session_id sender : string) (target : Address) (e : Envelope) :
    st (kernel * T) SendReceipt :=
  match ad_kind target with
  | DIRECT => direct session_id sender (ad_agent_id target) e
  | BROADCAST =>
    receipts ← broadcast session_id sender e;
    mret (match receipts with
          | [] => {| sr_msg_id := ""; sr_status := "empty_roster"; sr_target := "";
                     sr_queued := false |}
          | _ => fanout_receipt receipts
          end)
  | CHANNEL =>
    receipts ← channel session_id sender (ad_channel_id target) e;
    mret (fanout_receipt receipts)
  | NOTICE =>
    receipts ← notice session_id sender (ad_topic target) e;
    mret (fanout_receipt receipts)
  end.
End send.

(** [LocalDeliverySink]: the message is written into the store; the flags
    [require_ack] and [receipt_type] of the envelope are not passed on. *)
Section local.
Context (py_repr : pyval -> string) (now : Z).

Definition local_draft (target : string) (e : Envelope) (from_id : string) : draft :=
  {| d_from := from_id; d_to := target; d_subject := e_subject e; d_body := e_body e;
     d_kind := e_kind e; d_reply_to := e_reply_to e; d_run_id := e_run_id e;
     d_request_id := e_request_id e; d_command_id := ""; d_trace_id := e_trace_id e;
     d_causation_id := e_causation_id e;
     d_attachments := match e_attachments e with
                      | [] => None
                      | l => Some (VList (map (fun a => VDict (AttachmentRef.to_dict a)) l))
                      end;
     d_require_ack := false; d_receipt_type := "" |}.

Definition local_deliver (session_id target : string) (e : Envelope)
    (msg_id created_at from_id : string) : st (kernel * unit) receipt :=
  _ ← on_kernel (on_session session_id
        (MailboxStore.send py_repr session_id (local_draft target e from_id) (Some msg_id) [] now));
  mret {| r_status := "delivered"; r_queued := false; r_error := "" |}.

#[export] Instance LocalDeliverySink : DeliverySink unit := local_deliver.
End local.

(** ** Polling and subscriptions *)
Definition _matches_subscription (sub : Subscription) (msg : pydict) : bool :=
  (bool_decide (length (sub_channels sub) = 0%nat)
   || existsb (eq_str (dgetd msg "channel_id" (VStr ""))) (sub_channels sub))
  && (bool_decide (length (sub_kinds sub) = 0%nat)
      || existsb (eq_str (dgetd msg "kind" (VStr ""))) (sub_kinds sub)).

(** The cursor ["created_at|msg_id"], or a bare time. *)
Definition parse_cursor (cursor : string) : string * string :=
  match rsplit1 "|"%char cursor with
  | Some (ts, id) => (ts, id)
  | None => (cursor, "")
  end.

(** Python's [<=] on pairs of strings. *)
Definition pair_le (a b : string * string) : bool :=
  bool_decide (a.1 <> b.1 /\ String.le a.1 b.1 \/ a.1 = b.1 /\ String.le a.2 b.2).

Definition poll_key (msg : pydict) : string * string := (dstr msg "created_at", dstr msg "msg_id").
Definition cursor_of (msg : pydict) : string := dstr msg "created_at" +:+ "|" +:+ dstr msg "msg_id".

(** The loop over the listed messages, which are JSON objects with string
    fields; the limit is tested after each message that is taken. *)
Fixpoint poll_loop (cursor : string) (limit taken : nat) (msgs : list pydict) : list pydict :=
  match msgs with
  | [] => []
  | msg :: msgs' =>
    if negb (String.eqb cursor "") && pair_le (poll_key msg) (parse_cursor cursor)
    then poll_loop cursor limit taken msgs'
    else if Nat.leb limit (S taken) then [msg]
    else msg :: poll_loop cursor limit (S taken) msgs'
  end.

Definition readable (files : list (string * file)) : list pydict :=
  omap (fun x => match content x.2 with Some (VDict d) => Some d | _ => None end) files.

Record PollResult := { po_messages : list pydict; po_cursor : string; po_has_more : bool }.

Definition poll_list (files : list (string * file)) (cursor : string) (limit : nat) : PollResult :=
  let messages := poll_loop cursor limit 0 (readable files) in
  {| po_messages := messages; po_cursor := from_option cursor_of cursor (last messages);
     po_has_more := bool_decide (length messages = limit) |}.

(** [poll]: the page, and the calls of the subscription callbacks. *)
Definition poll (session_id agent_id cursor : string) (limit : nat) :
    st kernel (PollResult * list (Subscription * pydict)) :=
  _ ← _require_session session_id;
  _ ← lift (check_names session_id agent_id);
  k ← gets (fun k => k);
  let r := poll_list (list_messages (inbox_of (default empty_session (disk k !! session_id)) agent_id))
             cursor limit in
  let subs := default [] (default ∅ (subscriptions k !! session_id) !! agent_id) in
  mret (r, concat (map (fun sub => map (pair sub)
              (filter (fun msg => _matches_subscription sub msg = true) (po_messages r))) subs)).

Definition subscribe (session_id agent_id : string) (sub : Subscription) : st kernel unit :=
  _ ← _require_session session_id;
  _ ← modify (fun k =>
        let subs := default ∅ (subscriptions k !! session_id) in
        set_subscriptions (<[session_id :=
          <[agent_id := default [] (subs !! agent_id) ++ [sub]]> subs]> (subscriptions k)) k);
  st_iter (fun topic => modify (fun k =>
    let ts := default ∅ (topic_subscriptions k !! session_id) in
    set_topics (<[session_id :=
      <[topic := {[agent_id]} ∪ default ∅ (ts !! topic)]> ts]> (topic_subscriptions k)) k))
    (sub_topics sub).

(** A mailbox operation on the directory of one agent. *)
Definition on_agent {A} (session_id agent_id : string) (m : st agent A) : st kernel A :=
  on_session session_id (fun s =>
    let r := m (default empty_agent (agents s !! agent_id)) in
    (r.1, set_agents (match agents s !! agent_id with
                      | Some _ => <[agent_id := r.2]> (agents s)
                      | None => agents s
                      end) s)).

Definition ack (session_id agent_id msg_id phase : string) : st kernel string :=
  _ ← _require_session session_id;
  if String.eqb phase "consumed" then
    on_agent session_id agent_id (fun a =>
      match finalize session_id agent_id msg_id agent_id a with
      | (Raise (ValueError _), a') => finalize_from_inbox session_id agent_id msg_id agent_id a'
      | r => r
      end)
  else if String.eqb phase "released" then
    on_agent session_id agent_id (release session_id agent_id msg_id agent_id)
  else raise (ValueError "unknown ack phase").

(** ** Manager pull: ingest, replay, trace *)

(** [append_history] with its [ValueError] caught: whether it succeeded. *)
Definition append_or_skip (session_id : string) (msg : pydict) (now : Z) : st kernel bool :=
  fun k => match on_session session_id (append_history session_id msg now) k with
           | (Ok _, k') => (Ok true, k')
           | (Raise (ValueError _), k') => (Ok false, k')
           | (Raise e, k') => (Raise e, k')
           end.

Fixpoint ingest_loop (session_id : string) (s : Session) (messages : list pyval) (now : Z) :
    st kernel (list string) :=
  match messages with
  | [] => mret []
  | VDict msg :: messages' =>
    ok ← lift (validate_message (VDict msg) (Some session_id) None None);
    let sender := dstr msg "from" in
    let recipient := dstr msg "to" in
    if bool_decide (ok <> Valid)
       || negb (String.eqb sender "") && bool_decide (sender ∉ s_roster s)
       || negb (String.eqb recipient "") && negb (String.eqb recipient (s_manager s))
    then ingest_loop session_id s messages' now
    else
      there ← append_or_skip session_id msg now;
      ids ← ingest_loop session_id s messages' now;
      mret (if there : bool then dstr msg "msg_id" :: ids else ids)
  | _ :: messages' => ingest_loop session_id s messages' now
  end.

Definition ingest (session_id : string) (messages : list pyval) (now : Z) :
    st kernel (list string) :=
  s ← _require_session session_id;
  ingest_loop session_id s messages now.

(** The readable history files, in the order of their names, whose field has
    the value. *)
Definition _history_filtered (s : session) (field value : string) : list pydict :=
  filter (fun m => eq_str (dgetd m field VNone) value = true)
    (readable (merge_sort (fun a b => String.le a.1 b.1) (map_to_list (history s)))).

Definition oldest_first (a b : pydict) : Prop :=
  pair_le (dstr a "created_at", dstr a "msg_id") (dstr b "created_at", dstr b "msg_id") = true.
#[export] Instance oldest_first_dec a b : Decision (oldest_first a b).
Proof. unfold oldest_first. apply _. Defined.

Definition replay (session_id request_id : string) : st kernel (list pydict) :=
  _ ← _require_session session_id;
  k ← gets (fun k => k);
  mret (merge_sort oldest_first
    (_history_filtered (default empty_session (disk k !! session_id)) "request_id" request_id)).

Definition created_le (a b : pydict) : Prop := String.le (dstr a "created_at") (dstr b "created_at").
#[export] Instance created_le_dec a b : Decision (created_le a b).
Proof. unfold created_le. apply _. Defined.

(** [delivered] is the delivery marker of the outbox, when the sink has one. *)
Definition trace (delivered : option (string -> bool)) (session_id trace_id : string) :
    st kernel (list (string * string)) :=
  _ ← _require_session session_id;
  k ← gets (fun k => k);
  let msgs := _history_filtered (default empty_session (disk k !! session_id)) "trace_id" trace_id in
  _ ← ensure (negb (bool_decide (length msgs = 0%nat))) (ValueError "no messages with trace_id");
  mret (map (fun m => (dstr m "msg_id",
                       match delivered with
                       | None => "delivered"
                       | Some d => if d (dstr m "msg_id") then "delivered" else "unknown"
                       end))
            (merge_sort created_le msgs)).

(** The groups of [pull_remote]: the agents on [from_host] that the manager
    pulls from, by mailbox root. *)
Definition is_pull_agent (k : kernel) (s : Session) (aid : string) (loc : AgentLocation)
    (from_host : string) : bool :=
  String.eqb (l_host_alias loc) from_host &&
  match l_return_mode loc with
  | Some m => bool_decide (m = MANAGER_PULL)
  | None => match dget (s_return_modes s) aid with
            | Some v => String.eqb v (return_value MANAGER_PULL)
            | None => false
            end
  end.
Definition pull_groups (k : kernel) (session_id : string) (s : Session) (from_host : string) :
    list (string * list string) :=
  foldl (fun groups (x : string * AgentLocation) => dset groups (l_mailbox_root x.2)
                           (default [] (dget groups (l_mailbox_root x.2)) ++ [x.1])) []
    (List.filter (fun x : string * AgentLocation => is_pull_agent k s x.1 x.2 from_host) (session_routing session_id k)).

(** The tags of a pulled message; item assignment on anything but an object
    raises. *)
Definition pull_tag (from_host root : string) (m : pyval) : res pydict :=
  match m with
  | VDict d => Ok (dset (dset d "_pull_host" (VStr from_host)) "_pull_mailbox_root" (VStr root))
  | _ => Raise (TypeError "object does not support item assignment")
  end.

(** One remote read per mailbox root.  [fetch root] is the JSON that the
    command on the host prints, [None] when it fails, times out or prints
    nothing or no JSON. *)
Fixpoint pull_all (fetch : string -> option pyval) (from_host : string)
    (groups : list (string * list string)) : res (list pydict) :=
  match groups with
  | [] => Ok []
  | (root, _) :: groups' =>
    do msgs <- match fetch root with
               | Some (VDict d) => do m <- pull_tag from_host root (VDict d); Ok [m]
               | Some (VList l) => res_map (pull_tag from_host root) l
               | _ => Ok []
               end;
    do rest <- pull_all fetch from_host groups';
    Ok (msgs ++ rest)
  end.

Definition pull_remote (fetch : string -> option pyval) (session_id from_host : string) :
    st kernel (list pydict) :=
  s ← _require_session session_id;
  k ← gets (fun k => k);
  lift (pull_all fetch from_host (pull_groups k session_id s from_host)).

(** The exit status of the remote command line of a batch: the commands are
    joined with [;], so it is the status of the last one.  [run] gives the
    status of one mailbox command. *)
Definition batch_ok (run : string -> Z) (msg_ids : list string) : bool :=
  match last msg_ids with None => true | Some id => run id =? 0 end.
Definition batch_release_remote (run : string -> Z) (msg_ids : list string) :
    list (string * bool) :=
  let ok := batch_ok run msg_ids in
  foldl (fun d id => dset d id ok) [] msg_ids.

(** ** Restart *)

(** [x if x is present else dflt] *)
Definition acl_of_pyval (v : pyval) (manager : string) (members : list string) : option ACL :=
  match v with
  | VDict d =>
    let strings k := match dget d k with
                     | Some (VList l) => omap (fun x => match x with VStr s => Some s | _ => None end) l
                     | _ => members
                     end in
    let str k dflt := match dget d k with Some (VStr s) => s | _ => dflt end in
    Some {| authority := str "authority" manager; allowed_senders := strings "allowed_senders";
            room_members := strings "room_members"; policy := str "policy" "open" |}
  | _ => None
  end.

Definition location_of (aid : string) (r : routing_entry) : res AgentLocation :=
  let mode {A} (f : string -> res A) (o : option string) : res (option A) :=
    match o with
    | Some raw => if String.eqb raw "" then Ok None else do m <- f raw; Ok (Some m)
    | None => Ok None
    end in
  do em <- mode execution_of (re_execution_mode r);
  do rm <- mode return_of (re_return_mode r);
  Ok {| l_agent_id := default aid (re_agent_id r); l_host_alias := default "" (re_host_alias r);
        l_backend := default "cli" (re_backend r); l_capabilities := [];
        l_execution_mode := em; l_mailbox_root := default "" (re_mailbox_root r);
        l_return_mode := rm |}.

(** The entries of the routing table of one session, one after the other; a
    bad mode is a [ValueError] that the loader does not catch. *)
Fixpoint load_routing (sid : string) (l : list (string * routing_entry)) (k : kernel) :
    res kernel :=
  match l with
  | [] => Ok k
  | (aid, r) :: l' =>
    do loc <- location_of aid r;
    load_routing sid l' (set_routing (<[(sid, aid) := loc]> (routing k)) k)
  end.

Definition load_session (sid : string) (m : session_meta) (k : kernel) : res kernel :=
  let manager := m_manager m in
  let members := sorted_set (m_agents m ++ (if String.eqb manager "" then [] else [manager])) in
  let from_session := m_acl m ≫= fun v => acl_of_pyval v manager members in
  let acl0 := default (open_acl manager members) from_session in
  let add acl k := set_sessions (<[sid := {| s_manager := manager; s_roster := members; s_acl := acl;
      s_execution_modes := default [] (m_execution_modes m);
      s_return_modes := default [] (m_return_modes m) |}]> (sessions k)) k in
  let chans c k := set_subscriptions (<[sid := ∅]> (subscriptions k))
                     (set_channels (<[sid := c]> (channels k)) k) in
  match metas k !! sid with
  | None => Ok (chans ∅ (add acl0 k))
  | Some sm =>
    let acl := match sm_acl sm with
               | Some a => if truthy (default VNone (m_acl m)) then acl0 else a
               | None => acl0
               end in
    let c := (map_imap (fun cid x => Some {| ch_id := default cid x.1; ch_members := x.2;
                                            ch_acl := None |}) (sm_channels sm)) in
    do k1 <- load_routing sid (map_to_list (sm_routing sm)) k;
    let k2 := set_tokens (map_fold (fun aid tok t => <[(sid, aid) := tok]> t)
                            (registration_tokens k1) (sm_tokens sm)) k1 in
    Ok (chans c (add acl k2))
  end.

Definition _load_persisted_sessions (disk : gmap string session) (metas : gmap string swarm_meta) :
    res kernel :=
  let k0 := {| sessions := ∅; routing := ∅; channels := ∅; subscriptions := ∅;
               topic_subscriptions := ∅; registration_tokens := ∅;
               disk := disk; metas := metas |} in
  foldl (fun r sid => do k <- r;
           match disk !! sid ≫= meta with
           | Some m => load_session sid m k
           | None => Ok k
           end) (Ok k0) (sort_strs (map_to_list disk).*1).

(** ** The mailbox operations keep session.json *)
Section meta.
Context (m : option session_meta).
Notation keeps_meta := (preserves (fun s : session => meta s = m)).

Lemma put_inbox_meta rid id v now : keeps_meta (put_inbox rid id v now).
Proof. unfold put_inbox. preserving. Qed.
Lemma advance_cursor_meta sid now : keeps_meta (advance_cursor sid now).
Proof. unfold advance_cursor. preserving. Qed.
Lemma history_steps_meta sid msg now x : x ∈ history_steps sid msg now -> keeps_meta x.
Proof.
  unfold history_steps. rewrite !elem_of_cons. intros [-> | [-> | [-> | []%elem_of_nil]]].
  - apply preserves_read_only, history_check_read_only.
  - unfold history_create. preserving.
  - unfold history_publish. preserving.
Qed.
Lemma append_history_meta sid msg now : keeps_meta (append_history sid msg now).
Proof. unfold append_history, run_steps. preserving. by eapply history_steps_meta. Qed.
Lemma deliver_meta sid id d refs rids now : keeps_meta (MailboxStore.deliver sid id d refs rids now).
Proof.
  unfold MailboxStore.deliver, run_steps. preserving. unfold write_phase in *.
  match goal with H : _ ∈ _ |- _ => rewrite !elem_of_app, list_elem_of_singleton in H;
    destruct H as [H | [-> | [H | H]]] end.
  - apply list_elem_of_fmap in H as (? & -> & _). apply put_inbox_meta.
  - preserving. apply advance_cursor_meta.
  - apply list_elem_of_fmap in H as (? & -> & _). apply put_inbox_meta.
  - by eapply history_steps_meta.
Qed.
Lemma store_send_meta py_repr sid d id sfx now :
  keeps_meta (MailboxStore.send py_repr sid d id sfx now).
Proof.
  unfold MailboxStore.send, MailboxStore.replay. preserving;
    first [apply preserves_read_only, send_checks_read_only | apply put_inbox_meta
          | apply append_history_meta | apply deliver_meta].
Qed.
End meta.

(** A mailbox operation that keeps the metadata of its session. *)
Lemma on_session_meta {A} sid (m : st session A) k sid' :
  (forall md, preserves (fun s => meta s = md) m) ->
  disk (on_session sid m k).2 !! sid' ≫= meta = disk k !! sid' ≫= meta.
Proof.
  intros Hm. unfold on_session. simpl. destruct (decide (sid' = sid)) as [->|Hne].
  - rewrite lookup_insert_eq. simpl. rewrite (Hm _ _ eq_refl).
    by destruct (disk k !! sid).
  - by rewrite lookup_insert_ne.
Qed.

#[export] Instance LocalDeliverySink_laws py_repr now :
  @DeliverySinkLaws unit (LocalDeliverySink py_repr now).
Proof.
  intros sid target e id created from [k []].
  set (m := MailboxStore.send py_repr sid (local_draft target e from) (Some id) [] now).
  assert (E : (local_deliver py_repr now sid target e id created from (k, ())).2.1
              = (on_session sid m k).2).
  { unfold local_deliver. rewrite st_bind_unfold.
    unfold on_kernel, on_session. simpl. fold m. by destruct (m _) as [[]]. }
  cbv zeta. unfold deliver, LocalDeliverySink. rewrite E. split_and!; try done.
  intros sid'. apply on_session_meta. intros md. apply store_send_meta.
Qed.

(** ** Coherence of memory and files *)

Record session_ok (sid : string) (s : Session) : Prop := {
  so_sid : validate_agent_id sid = Ok tt;
  so_manager : validate_agent_id (s_manager s) = Ok tt;
  so_roster : s_roster s = sorted_set (s_roster s) /\ s_manager s ∈ s_roster s;
  so_acl : s_manager s ∈ allowed_senders (s_acl s) /\ s_manager s ∈ room_members (s_acl s) }.

(** What session.json says of a session. *)
Record persisted (s : Session) (m : session_meta) : Prop := {
  pe_manager : m_manager m = s_manager s;
  pe_agents : forall a, a ∈ s_roster s <-> a ∈ m_agents m \/ a = s_manager s;
  pe_acl : m_acl m = Some (VDict (acl_dict (s_acl s)));
  pe_execution : s_execution_modes s = default [] (m_execution_modes m);
  pe_return : s_return_modes s = default [] (m_return_modes m) }.

Definition saved_channel (c : Channel) : option string * list string :=
  (Some (ch_id c), ch_members c).

(** The metadata file of a session agrees with the tables. *)
Record synced (k : kernel) (sid : string) (sm : swarm_meta) : Prop := {
  sy_routing : forall aid, sm_routing sm !! aid = entry_of <$> routing k !! (sid, aid);
  sy_channels : sm_channels sm = saved_channel <$> default ∅ (channels k !! sid);
  sy_tokens : forall aid, sm_tokens sm !! aid = registration_tokens k !! (sid, aid) }.

(** A session of the tables agrees with its files. *)
Record live (k : kernel) (sid : string) (s : Session) : Prop := {
  lv_ok : session_ok sid s;
  lv_disk : exists m, disk k !! sid ≫= meta = Some m /\ persisted s m;
  lv_meta : exists sm, metas k !! sid = Some sm /\ synced k sid sm;
  lv_routing : forall aid loc, routing k !! (sid, aid) = Some loc ->
    l_agent_id loc = aid /\ aid ∈ s_roster s;
  lv_channels : exists chans, channels k !! sid = Some chans /\
    forall c ch, chans !! c = Some ch -> ch_id ch = c /\ ch_members ch ⊆ s_roster s }.
(** Nothing is known of a session that does not exist. *)
Record dead (k : kernel) (sid : string) : Prop := {
  dd_disk : disk k !! sid ≫= meta = None;
  dd_meta : metas k !! sid = None;
  dd_routing : forall aid, routing k !! (sid, aid) = None;
  dd_tokens : forall aid, registration_tokens k !! (sid, aid) = None;
  dd_channels : channels k !! sid = None }.
Definition coherent_at (k : kernel) (sid : string) : Prop :=
  match sessions k !! sid with Some s => live k sid s | None => dead k sid end.
Definition coherent (k : kernel) : Prop := forall sid, coherent_at k sid.

Definition empty_kernel : kernel :=
  {| sessions := ∅; routing := ∅; channels := ∅; subscriptions := ∅; topic_subscriptions := ∅;
     registration_tokens := ∅; disk := ∅; metas := ∅ |}.

Lemma coherent_empty : coherent empty_kernel.
Proof. intros sid. by unfold coherent_at. Qed.

(** Coherence at a session only depends on what is stored for it. *)
Record same_at (k k' : kernel) (sid : string) : Prop := {
  sa_sessions : sessions k' !! sid = sessions k !! sid;
  sa_disk : disk k' !! sid ≫= meta = disk k !! sid ≫= meta;
  sa_metas : metas k' !! sid = metas k !! sid;
  sa_routing : forall aid, routing k' !! (sid, aid) = routing k !! (sid, aid);
  sa_tokens : forall aid, registration_tokens k' !! (sid, aid) = registration_tokens k !! (sid, aid);
  sa_channels : channels k' !! sid = channels k !! sid }.

Lemma coherent_at_same k k' sid : same_at k k' sid -> coherent_at k sid -> coherent_at k' sid.
Proof.
  intros [H1 H2 H3 H4 H5 H6]. unfold coherent_at. rewrite H1.
  destruct (sessions k !! sid) as [s|].
  - intros [Ho Hd (sm & Hm & [G1 G2 G3]) Hr Hc]. split; [done|by rewrite H2| | |by rewrite H6].
    + exists sm. rewrite H3. split; [done|].
      split; [intros aid; by rewrite H4|by rewrite H6|intros aid; by rewrite H5].
    + intros aid loc. rewrite H4. apply Hr.
  - intros [Hd Hm Hr Ht Hc].
    split; [by rewrite H2|by rewrite H3|intros; by rewrite H4|intros; by rewrite H5|by rewrite H6].
Qed.

Lemma coherent_but k k' sid :
  coherent k -> (forall sid', sid' <> sid -> same_at k k' sid') -> coherent_at k' sid -> coherent k'.
Proof.
  intros Hk Hs Hsid sid'. destruct (decide (sid' = sid)) as [->|Hne]; [done|].
  by apply (coherent_at_same k); [apply Hs|apply Hk].
Qed.
Lemma coherent_same k k' : coherent k -> (forall sid, same_at k k' sid) -> coherent k'.
Proof. intros Hk Hs sid. by apply (coherent_at_same k). Qed.

Lemma require_session_eq sid k :
  _require_session sid k =
  match sessions k !! sid with
  | Some s => (Ok s, k)
  | None => (Raise (ValueError "session not found"), k)
  end.
Proof. unfold _require_session. rewrite st_bind_unfold. unfold gets. by destruct (sessions k !! sid). Qed.

Lemma require_session_Ok sid k s k' :
  _require_session sid k = (Ok s, k') <-> k' = k /\ sessions k !! sid = Some s.
Proof. rewrite require_session_eq. destruct (sessions k !! sid); naive_solver. Qed.

(** *** The routing table and its file *)
Lemma session_routing_elem sid k aid loc :
  (aid, loc) ∈ session_routing sid k <-> routing k !! (sid, aid) = Some loc.
Proof.
  unfold session_routing. rewrite list_elem_of_omap. split.
  - intros ([[sid' aid'] loc'] & Hin & H). simpl in H. apply elem_of_map_to_list in Hin.
    destruct (String.eqb_spec sid' sid); [|done]. by injection H as <- <-; subst.
  - intros H. exists (sid, aid, loc). split; [by apply elem_of_map_to_list|].
    simpl. by rewrite String.eqb_refl.
Qed.

Lemma foldl_insert_lookup {A B} (f : A -> B) (l : list (string * A)) (m : gmap string B) i :
  (forall x y, (i, x) ∈ l -> (i, y) ∈ l -> x = y) ->
  foldl (fun r x => <[x.1 := f x.2]> r) m l !! i =
  match List.find (fun x => String.eqb (fst x) i) l with
  | Some x => Some (f x.2)
  | None => m !! i
  end.
Proof.
  revert m. induction l as [|[j x] l IH]; intros m Hl; simpl; [done|].
  rewrite IH by (intros a b Ha Hb; apply Hl; by right).
  destruct (String.eqb_spec j i) as [->|Hne].
  - destruct (List.find _ l) as [[j' y]|] eqn:E; [|by rewrite lookup_insert_eq].
    apply List.find_some in E as [Hin Heq]. simpl in Heq. apply String.eqb_eq in Heq as ->.
    simpl. f_equal. f_equal. apply list_elem_of_In in Hin. apply Hl; [by right|by left].
  - destruct (List.find _ l); [done|]. by rewrite lookup_insert_ne.
Qed.

Lemma foldl_delete_lookup {B} (l : list string) (m : gmap string B) i :
  foldl (fun r aid => delete aid r) m l !! i = if bool_decide (i ∈ l) then None else m !! i.
Proof.
  revert m. induction l as [|j l IH]; intros m; simpl; [done|]. rewrite IH.
  destruct (decide (i = j)) as [->|Hne].
  - rewrite (bool_decide_eq_true_2 (j ∈ j :: l)) by (by left). rewrite lookup_delete_eq.
    by case_bool_decide.
  - rewrite lookup_delete_ne by done. case_bool_decide as H1; case_bool_decide as H2; try done;
      exfalso; set_solver.
Qed.

(** The update of the routing section of the file. *)
Definition saved_routing (sid : string) (k : kernel) (deleted : list string)
    (old : gmap string routing_entry) : gmap string routing_entry :=
  foldl (fun r aid => delete aid r)
    (foldl (fun r x => <[x.1 := entry_of x.2]> r) old (session_routing sid k)) deleted.

Lemma saved_routing_lookup sid k deleted old aid :
  saved_routing sid k deleted old !! aid =
  if bool_decide (aid ∈ deleted) then None
  else match routing k !! (sid, aid) with Some loc => Some (entry_of loc) | None => old !! aid end.
Proof.
  unfold saved_routing. rewrite foldl_delete_lookup. case_bool_decide; [done|].
  rewrite foldl_insert_lookup.
  2:{ intros x y Hx Hy. apply session_routing_elem in Hx, Hy. congruence. }
  destruct (List.find _ _) as [[j loc]|] eqn:E.
  - apply List.find_some in E as [Hin Heq]. simpl in Heq. apply String.eqb_eq in Heq as ->.
    apply list_elem_of_In, session_routing_elem in Hin. by rewrite Hin.
  - destruct (routing k !! (sid, aid)) as [loc|] eqn:Hr; [|done].
    apply session_routing_elem, list_elem_of_In in Hr.
    apply (List.find_none _ _ E) in Hr. simpl in Hr. by rewrite String.eqb_refl in Hr.
Qed.

(** *** Every operation keeps the kernel coherent *)
Notation keeps_coherent := (preserves coherent).

Lemma keeps_same {A} (m : st kernel A) :
  (forall k sid, same_at k (m k).2 sid) -> keeps_coherent m.
Proof. intros Hm k Hk. by apply (coherent_same k). Qed.

(** An operation on an existing session. *)
Lemma keeps_require {A} sid (f : Session -> st kernel A) :
  (forall k s, coherent k -> sessions k !! sid = Some s -> coherent (f s k).2) ->
  keeps_coherent (s ← _require_session sid; f s).
Proof.
  intros Hf k Hk. rewrite st_bind_unfold, require_session_eq.
  destruct (sessions k !! sid) eqn:Hs; [by apply Hf|done].
Qed.
Lemma keeps_roster {A} s aid (f : unit -> st kernel A) k :
  coherent k -> (aid ∈ s_roster s -> coherent (f tt k).2) ->
  coherent ((u ← check_roster s aid; f u) k).2.
Proof.
  intros Hk Hf. rewrite st_bind_unfold. unfold check_roster, ensure.
  case_bool_decide; [by apply Hf|done].
Qed.

Lemma live_session k sid s : coherent k -> sessions k !! sid = Some s -> live k sid s.
Proof. intros Hk Hs. specialize (Hk sid). unfold coherent_at in Hk. by rewrite Hs in Hk. Qed.
Lemma dead_session k sid : coherent k -> sessions k !! sid = None -> dead k sid.
Proof. intros Hk Hs. specialize (Hk sid). unfold coherent_at in Hk. by rewrite Hs in Hk. Qed.

(** The routing table of a session changes and is written to its file. *)
Lemma routing_coherent k sid s r deleted :
  coherent k -> sessions k !! sid = Some s ->
  (forall sid' aid, sid' <> sid -> r !! (sid', aid) = routing k !! (sid', aid)) ->
  (forall aid loc, r !! (sid, aid) = Some loc -> l_agent_id loc = aid /\ aid ∈ s_roster s) ->
  (forall aid, aid ∈ deleted -> r !! (sid, aid) = None) ->
  (forall aid, r !! (sid, aid) = None -> aid ∈ deleted \/ routing k !! (sid, aid) = None) ->
  coherent (_persist_routing sid deleted (set_routing r k)).2.
Proof.
  intros Hk Hs Hother Hr Hdel Hnone. destruct (live_session _ _ _ Hk Hs) as [Ho Hd (sm & Hm & Hsy) _ Hc].
  apply (coherent_but k _ sid Hk).
  - intros sid' Hne. split; try done; simpl; [|intros aid; by apply Hother].
    by rewrite lookup_insert_ne.
  - unfold coherent_at. simpl. rewrite Hs. split; try done. simpl. rewrite lookup_insert_eq.
    eexists. split; [reflexivity|]. destruct Hsy as [G1 G2 G3]. rewrite Hm. split; simpl; [|done|done].
    intros aid. fold (saved_routing sid (set_routing r k) deleted (sm_routing sm)).
    rewrite saved_routing_lookup. simpl. case_bool_decide as Hin; [by rewrite Hdel|].
    destruct (r !! (sid, aid)) as [loc|] eqn:E; [done|].
    destruct (Hnone aid E) as [|Hn]; [done|]. by rewrite G1, Hn.
Qed.

(** Fields of session.json and of the session that agree may change. *)
Lemma session_coherent k sid s s' m' ds :
  coherent k -> sessions k !! sid = Some s ->
  session_ok sid s' -> s_roster s' = s_roster s -> meta ds = Some m' -> persisted s' m' ->
  coherent (set_disk (<[sid := ds]> (disk k)) (set_sessions (<[sid := s']> (sessions k)) k)).
Proof.
  intros Hk Hs Hok Hro Hm Hp. destruct (live_session _ _ _ Hk Hs) as [_ _ (sm & Hsm & Hsy) Hr Hc].
  apply (coherent_but k _ sid Hk).
  - intros sid' Hne. split; try done; simpl; by rewrite lookup_insert_ne.
  - unfold coherent_at. simpl. rewrite lookup_insert_eq.
    split; [done| | |intros aid loc Hl; rewrite Hro; by apply Hr|by rewrite Hro]; simpl.
    + rewrite lookup_insert_eq. by exists m'.
    + exists sm. split; [done|]. destruct Hsy. by split.
Qed.

Lemma session_init_modes sid s em rm now ds m :
  session_ok sid s -> meta ds = Some m -> persisted s m ->
  exists m', meta (session_init sid (s_manager s) [] None em rm now ds).2 = Some m' /\
    m_manager m' = m_manager m /\ (forall a, a ∈ m_agents m' <-> a ∈ m_agents m) /\
    m_acl m' = m_acl m /\
    m_execution_modes m' = merge_modes (m_execution_modes m) em /\
    m_return_modes m' = merge_modes (m_return_modes m) rm.
Proof.
  intros Hok Hm Hp. rewrite session_init_eq, Hm.
  2:{ intros x. rewrite !elem_of_cons. intros [->|[->|[]%elem_of_nil]]; by apply Hok. }
  destruct (merge_session_eq sid (s_manager s) [] None em rm m (set_present ds)) as [txt ->].
  { right. apply Hp. }
  simpl. destruct em as [em|]; simpl; [|destruct rm as [rm|]; simpl].
  3:{ exists m. done. }
  all: eexists; split; [reflexivity|]; split_and!; try done; intros a; simpl;
    rewrite elem_of_sorted_set, elem_of_app; set_solver.
Qed.

Lemma register_modes_coherent sid s loc now k :
  coherent k -> sessions k !! sid = Some s -> coherent (register_modes sid s loc now k).2.
Proof.
  intros Hk Hs. destruct (live_session _ _ _ Hk Hs) as [Hok (m & Hm & Hp) _ _ _].
  unfold register_modes. rewrite st_bind_unfold. unfold modify at 1.
  set (s' := {| s_manager := _ |}).
  assert (Hok' : session_ok sid s') by (destruct Hok; by split).
  destruct (disk k !! sid) as [ds|] eqn:Hds; [|done]. simpl in Hm.
  destruct (_ && _) eqn:Hnone.
  - replace (set_sessions (<[sid:=s']> (sessions k)) k) with
      (set_disk (<[sid:=ds]> (disk k)) (set_sessions (<[sid:=s']> (sessions k)) k)).
    2:{ rewrite (insert_id (disk k)) by done. done. }
    apply (session_coherent _ _ s _ m); try done. destruct Hp. split; try done.
    all: unfold s'; simpl; destruct (l_execution_mode loc), (l_return_mode loc); done.
  - rewrite st_bind_unfold. unfold on_session. simpl. rewrite Hds. simpl.
    set (o := session_init _ _ _ _ _ _ _ _).
    assert (coherent (set_disk (<[sid := o.2]> (disk k)) (set_sessions (<[sid:=s']> (sessions k)) k))).
    { destruct (session_init_modes sid s
        ((fun v => [(l_agent_id loc, v)]) <$> (execution_value <$> l_execution_mode loc))
        ((fun v => [(l_agent_id loc, v)]) <$> (return_value <$> l_return_mode loc)) now ds m)
        as (m' & Hm' & E1 & E2 & E3 & E4 & E5); try done.
      apply (session_coherent _ _ s _ m'); try done. destruct Hp as [P1 P2 P3 P4 P5].
      split; simpl; [congruence|intros a; rewrite E2; apply P2|congruence|rewrite E4, P4|rewrite E5, P5].
      - by destruct (l_execution_mode loc).
      - by destruct (l_return_mode loc). }
    by destruct o as [[]].
Qed.

Lemma ensure_unfold {T} b e : (ensure b e : st T unit) = fun s => (if b then Ok tt else Raise e, s).
Proof. unfold ensure. by destruct b. Qed.

(** The token that [register] asks for. *)
Definition token_mismatch (k : kernel) (key : string * string) (token : string) : Prop :=
  match registration_tokens k !! key with
  | Some t => t <> "" /\ t <> token
  | None => False
  end.
#[export] Instance token_mismatch_dec k key token : Decision (token_mismatch k key token).
Proof. unfold token_mismatch. destruct (_ !! key); apply _. Defined.

Lemma token_test k key token :
  String.eqb (default "" (registration_tokens k !! key)) "" ||
  String.eqb token (default "" (registration_tokens k !! key))
  = negb (bool_decide (token_mismatch k key token)).
Proof.
  rewrite <-bool_decide_not. apply Bool.eq_iff_eq_true.
  rewrite orb_true_iff, !String.eqb_eq, bool_decide_eq_true. unfold token_mismatch.
  destruct (registration_tokens k !! key) as [t|]; simpl; [|tauto].
  destruct (decide (t = "")), (decide (t = token)); naive_solver.
Qed.

Lemma session_init_same sid s em rm now ds m :
  session_ok sid s -> meta ds = Some m -> m_manager m = s_manager s ->
  exists txt ds', session_init sid (s_manager s) [] None em rm now ds = (Ok txt, ds').
Proof.
  intros Hok Hm Hmg. rewrite session_init_eq, Hm.
  2:{ intros x. rewrite !elem_of_cons. intros [->|[->|[]%elem_of_nil]]; by apply Hok. }
  destruct (merge_session_eq sid (s_manager s) [] None em rm m (set_present ds)) as [txt ->];
    [by right|]. by eexists _, _.
Qed.

Lemma register_modes_frame sid s loc now k :
  live k sid s ->
  exists k', register_modes sid s loc now k = (Ok tt, k') /\
  routing k' = routing k /\ registration_tokens k' = registration_tokens k /\
  channels k' = channels k /\ metas k' = metas k /\
  forall sid', sid' <> sid -> sessions k' !! sid' = sessions k !! sid' /\
                              disk k' !! sid' = disk k !! sid'.
Proof.
  intros [Hok (m & Hm & Hp) _ _ _]. unfold register_modes. rewrite st_bind_unfold.
  unfold modify at 1. destruct (_ && _).
  - eexists. split; [reflexivity|]. split_and!; try done. intros sid' Hne. simpl.
    by rewrite lookup_insert_ne.
  - destruct (disk k !! sid) as [ds|] eqn:Hd; [|done]. simpl in Hm. rewrite st_bind_unfold.
    unfold on_session. simpl. rewrite Hd. simpl.
    edestruct (session_init_same sid s) as (txt & ds' & ->); [done|done|apply Hp|]. simpl.
    eexists. split; [reflexivity|]. split_and!; try done. intros sid' Hne. simpl.
    by rewrite !lookup_insert_ne.
Qed.

Definition routed (loc : AgentLocation) (sid : string) (k : kernel) : kernel :=
  (_persist_routing sid [] (set_routing (<[(sid, l_agent_id loc) := loc]> (routing k)) k)).2.

Lemma register_eq loc sid token now k :
  register loc sid token now k =
  match sessions k !! sid with
  | None => (Raise (ValueError "session not found"), k)
  | Some s =>
    if bool_decide (l_agent_id loc ∈ s_roster s) then
      if bool_decide (token_mismatch k (sid, l_agent_id loc) token)
      then (Raise (PermissionError "registration token mismatch"), k)
      else (_ ← register_modes sid s loc now; mret loc) (routed loc sid k)
    else (Raise (ValueError "agent not in roster"), k)
  end.
Proof.
  unfold register. rewrite st_bind_unfold, require_session_eq.
  destruct (sessions k !! sid) as [s|]; [|done].
  rewrite st_bind_unfold. unfold check_roster, ensure at 1. case_bool_decide; [|done].
  rewrite st_bind_unfold. unfold gets at 1. rewrite st_bind_unfold, token_test, ensure_unfold.
  by case_bool_decide.
Qed.

Lemma routed_live loc sid s k :
  coherent k -> sessions k !! sid = Some s -> l_agent_id loc ∈ s_roster s -> coherent (routed loc sid k).
Proof.
  intros Hk Hs Hin. destruct (live_session _ _ _ Hk Hs) as [_ _ _ Hr _].
  apply (routing_coherent _ _ s); try done.
  - intros sid' aid Hne. rewrite lookup_insert_ne; [done|congruence].
  - intros aid l. destruct (decide (aid = l_agent_id loc)) as [->|Hne].
    + rewrite lookup_insert_eq. by intros [= <-].
    + rewrite lookup_insert_ne by congruence. apply Hr.
  - intros aid []%elem_of_nil.
  - intros aid E. right. apply lookup_insert_None in E. by destruct E.
Qed.

Lemma register_coherent loc sid token now : keeps_coherent (register loc sid token now).
Proof.
  intros k Hk. rewrite register_eq. destruct (sessions k !! sid) as [s|] eqn:Hs; [|done].
  case_bool_decide as Hin; [|done]. case_bool_decide; [done|].
  pose proof (routed_live loc sid s k Hk Hs Hin) as Hk2. rewrite st_bind_unfold.
  apply (register_modes_coherent sid s loc now) in Hk2; [|done].
  by destruct (register_modes sid s loc now (routed loc sid k)) as [[]].
Qed.

Lemma unregister_coherent sid aid : keeps_coherent (unregister sid aid).
Proof.
  unfold unregister. apply keeps_require. intros k s Hk Hs.
  rewrite st_bind_unfold. unfold modify at 1.
  destruct (live_session _ _ _ Hk Hs) as [_ _ _ Hr _]. apply (routing_coherent _ _ s); try done.
  - intros sid' aid' Hne. rewrite lookup_delete_ne; [done|congruence].
  - intros aid' loc E. apply lookup_delete_Some in E as [_ E]. by apply Hr.
  - intros aid' ->%list_elem_of_singleton. apply lookup_delete_eq.
  - intros aid' E. apply lookup_delete_None in E as [E|E]; [left|by right]. set_solver.
Qed.

(** A change of the metadata file and of what it mirrors, at one session. *)
Lemma meta_coherent k sid s sm chans toks :
  coherent k -> sessions k !! sid = Some s ->
  (forall c ch, chans !! c = Some ch -> ch_id ch = c /\ ch_members ch ⊆ s_roster s) ->
  (forall sid' aid, sid' <> sid -> toks !! (sid', aid) = registration_tokens k !! (sid', aid)) ->
  (forall aid, sm_routing sm !! aid = entry_of <$> routing k !! (sid, aid)) ->
  sm_channels sm = saved_channel <$> chans ->
  (forall aid, sm_tokens sm !! aid = toks !! (sid, aid)) ->
  coherent (set_metas (<[sid := sm]> (metas k))
             (set_tokens toks (set_channels (<[sid := chans]> (channels k)) k))).
Proof.
  intros Hk Hs Hch Hto H1 H2 H3. destruct (live_session _ _ _ Hk Hs) as [Ho Hd _ Hr _].
  apply (coherent_but k _ sid Hk).
  - intros sid' Hne. split; try done; simpl; try by rewrite lookup_insert_ne.
    intros aid. by apply Hto.
  - unfold coherent_at. simpl. rewrite Hs. split; try done; simpl; rewrite lookup_insert_eq.
    + exists sm. split; [done|]. split; simpl; try done. by rewrite lookup_insert_eq.
    + by exists chans.
Qed.

Lemma synced_meta k sid s : coherent k -> sessions k !! sid = Some s ->
  exists sm chans, metas k !! sid = Some sm /\ synced k sid sm /\ channels k !! sid = Some chans /\
    (forall c ch, chans !! c = Some ch -> ch_id ch = c /\ ch_members ch ⊆ s_roster s) /\
    sm_channels sm = saved_channel <$> chans.
Proof.
  intros Hk Hs. destruct (live_session _ _ _ Hk Hs) as [_ _ (sm & Hm & Hsy) _ (chans & Hc & Hch)].
  exists sm, chans. split_and!; try done. destruct Hsy as [_ -> _]. by rewrite Hc.
Qed.

Lemma set_registration_token_coherent sid aid token :
  keeps_coherent (set_registration_token sid aid token).
Proof.
  unfold set_registration_token. apply keeps_require. intros k s Hk Hs.
  apply keeps_roster; [done|]. intros _. rewrite st_bind_unfold. unfold modify at 1.
  destruct (synced_meta _ _ _ Hk Hs) as (sm & chans & Hm & [G1 G2 G3] & Hc & Hch & Hsc).
  unfold _persist_meta, modify. simpl. rewrite Hm. simpl.
  match goal with |- coherent (set_metas (<[sid := ?x]> _) (set_tokens ?t _)) =>
    pose proof (meta_coherent k sid s x chans t) as H end.
  rewrite (insert_id (channels k)) in H by done. apply H; try done.
  - intros sid' aid' Hne. rewrite lookup_insert_ne; [done|congruence].
  - intros aid'. simpl. destruct (decide (aid' = aid)) as [->|Hne]; [by rewrite !lookup_insert_eq|].
    rewrite !lookup_insert_ne by congruence. apply G3.
Qed.

Lemma set_agent_card_coherent py_str sid aid card :
  keeps_coherent (set_agent_card py_str sid aid card).
Proof.
  unfold set_agent_card. apply keeps_require. intros k s Hk Hs.
  apply keeps_roster; [done|]. intros _. rewrite st_bind_unfold. unfold ensure.
  destruct (negb _); [|done].
  destruct (synced_meta _ _ _ Hk Hs) as (sm & chans & Hm & [G1 G2 G3] & Hc & Hch & Hsc).
  unfold _persist_meta, modify. simpl. rewrite Hm. simpl.
  match goal with |- coherent (set_metas (<[sid := ?x]> _) _) =>
    pose proof (meta_coherent k sid s x chans (registration_tokens k)) as H end.
  rewrite (insert_id (channels k)) in H by done. by apply H.
Qed.

Lemma create_channel_coherent sid cid members acl :
  keeps_coherent (create_channel sid cid members acl).
Proof.
  unfold create_channel. apply keeps_require. intros k s Hk Hs.
  rewrite st_bind_unfold. unfold ensure at 1. destruct (forallb _ members) eqn:Hmem; [|done].
  rewrite st_bind_unfold. unfold gets at 1. rewrite st_bind_unfold. unfold ensure.
  destruct (synced_meta _ _ _ Hk Hs) as (sm & chans & Hm & [G1 G2 G3] & Hc & Hch & Hsc).
  rewrite Hc. simpl. case_bool_decide as Hnew; [|done].
  rewrite st_bind_unfold. unfold modify at 1. rewrite st_bind_unfold.
  unfold _persist_channels. rewrite st_bind_unfold. unfold gets, _persist_meta, modify. simpl.
  rewrite Hm, lookup_insert_eq. simpl.
  apply (meta_coherent k sid s _ _ (registration_tokens k)); try done; simpl.
  - intros c ch. destruct (decide (c = cid)) as [->|Hne].
    + rewrite lookup_insert_eq. intros [= <-]. split; [done|]. simpl. intros a Ha.
      rewrite forallb_forall in Hmem. apply list_elem_of_In, Hmem in Ha.
      by apply bool_decide_eq_true in Ha.
    + rewrite lookup_insert_ne by done. apply Hch.
  - rewrite Hsc, <-map_fmap_union. f_equal. apply map_eq. intros c. rewrite lookup_union.
    destruct (decide (c = cid)) as [->|Hne].
    + rewrite lookup_insert_eq. by destruct (chans !! cid).
    + rewrite lookup_insert_ne by done. by destruct (chans !! c).
Qed.

Lemma with_member_in l m : m ∈ with_member l m.
Proof. unfold with_member. case_bool_decide; [done|]. rewrite elem_of_sorted_set. by left. Qed.

(** *** Creating a session *)
Lemma sorted_set_idem l : sorted_set (sorted_set l) = sorted_set l.
Proof. apply sorted_set_ext. intros a. by rewrite elem_of_sorted_set. Qed.

(** The session.json of a new session. *)
Lemma session_init_new sid mg ags acl em rm now ds :
  (forall x, x ∈ sid :: mg :: ags -> validate_agent_id x = Ok tt) -> meta ds = None ->
  exists txt s', session_init sid mg ags acl em rm now ds = (Ok txt, s') /\
  meta s' =
    Some {| m_manager := mg; m_agents := sorted_set ags; m_revision := 1;
            m_created := Some (to_second now); m_acl := acl;
            m_execution_modes := em; m_return_modes := rm |}.
Proof.
  intros Hval Hm. rewrite session_init_eq, Hm by done. unfold MailboxStore.create_session.
  set (m := {| m_manager := mg |}). rewrite st_bind_unfold. unfold modify at 1.
  rewrite st_bind_unfold.
  destruct (ensure_dirs (sorted_set ags) (set_meta m (set_present ds))) as (H1 & _ & H3 & _).
  destruct (st_iter _ensure_agent_dirs _ _) as [r s1]. simpl in H1, H3. subst r.
  eexists _, _. split; [reflexivity|]. done.
Qed.

Lemma validate_empty : validate_agent_id "" <> Ok tt.
Proof. by vm_compute. Qed.

Lemma create_session_coherent sid mg ros acl em rm now :
  keeps_coherent (create_session sid mg ros acl em rm now).
Proof.
  intros k Hk. unfold create_session.
  rewrite st_bind_unfold. unfold lift at 1. destruct (validate_agent_id sid) as [[]|] eqn:V1; [|done].
  rewrite st_bind_unfold. unfold lift at 1. destruct (validate_agent_id mg) as [[]|] eqn:V2; [|done].
  rewrite st_bind_unfold. unfold lift at 1. destruct (res_iter _ ros) as [[]|] eqn:V3; [|done].
  apply res_iter_Ok in V3. rewrite Forall_forall in V3.
  rewrite st_bind_unfold. unfold gets at 1. rewrite st_bind_unfold, ensure_unfold.
  case_bool_decide as Hs; [|done]. destruct (dead_session _ _ Hk Hs) as [Hd Hm Hr Ht Hc].
  set (all := sorted_set (mg :: ros)). set (a := {| authority := _ |}).
  set (s := {| s_manager := mg |}). set (ags := filter _ all).
  rewrite st_bind_unfold. unfold on_session. simpl.
  destruct (session_init_new sid mg ags (Some (VDict (acl_dict a))) (nonempty em) (nonempty rm) now
              (default empty_session (disk k !! sid))) as (txt & ds & -> & Hmeta).
  { intros x. rewrite !elem_of_cons. intros [->|[->|Hx]]; [done..|].
    unfold ags in Hx. apply list_elem_of_filter in Hx as [Hne Hx]. unfold all in Hx.
    rewrite elem_of_sorted_set, elem_of_cons in Hx. destruct Hx; [done|by apply V3]. }
  { by destruct (disk k !! sid). }
  cbn [fst snd]. unfold _persist_meta, modify. rewrite !st_bind_unfold. simpl. rewrite Hm. simpl.
  apply (coherent_but k _ sid Hk).
  { intros sid' Hne. split; try done; simpl; by rewrite lookup_insert_ne. }
  unfold coherent_at. simpl. rewrite lookup_insert_eq. split; simpl.
  - assert (mg ∈ all) by (apply elem_of_sorted_set; by left).
    split; try done; simpl; [split; [symmetry; apply sorted_set_idem|done]|].
    split; apply with_member_in.
  - rewrite lookup_insert_eq. eexists. split; [exact Hmeta|].
    split; simpl; try done; [|by destruct em|by destruct rm].
    intros x. rewrite elem_of_sorted_set. unfold ags. rewrite list_elem_of_filter.
    assert (mg ∈ all) by (apply elem_of_sorted_set; by left).
    destruct (decide (x = mg)); naive_solver.
  - rewrite lookup_insert_eq. eexists. split; [reflexivity|]. split; simpl.
    + intros aid. by rewrite Hr, lookup_empty.
    + rewrite lookup_insert_eq. simpl. symmetry. apply fmap_empty.
    + intros aid. by rewrite Ht, lookup_empty.
  - intros aid loc Hl. congruence.
  - rewrite lookup_insert_eq. exists ∅. split; [done|]. intros c ch. by rewrite lookup_empty.
Qed.

(** *** Sends, acknowledgements and ingestion *)
Lemma on_session_same {A} sid (m : st session A) :
  (forall md, preserves (fun s => meta s = md) m) ->
  forall k sid', same_at k (on_session sid m k).2 sid'.
Proof. intros Hm k sid'. split; try done. by apply on_session_meta. Qed.

Lemma on_agent_same {A} sid aid (m : st agent A) k sid' : same_at k (on_agent sid aid m k).2 sid'.
Proof. apply on_session_same. by intros md s. Qed.

Lemma same_at_refl k sid : same_at k k sid.
Proof. done. Qed.
Lemma same_at_trans k1 k2 k3 sid : same_at k1 k2 sid -> same_at k2 k3 sid -> same_at k1 k3 sid.
Proof.
  intros [] []. split; intros; etrans; eauto.
Qed.
Lemma same_bind {A B} (m : st kernel A) (f : A -> st kernel B) :
  (forall k sid, same_at k (m k).2 sid) -> (forall a k sid, same_at k (f a k).2 sid) ->
  forall k sid, same_at k ((m ≫= f) k).2 sid.
Proof.
  intros Hm Hf k sid. rewrite st_bind_unfold. specialize (Hm k sid).
  destruct (m k) as [[a|e] k1]; simpl in *; [|done]. by eapply same_at_trans.
Qed.
Lemma same_read_only {A} (m : st kernel A) : read_only m -> forall k sid, same_at k (m k).2 sid.
Proof. intros Hm k sid. by rewrite Hm. Qed.

Lemma require_read_only sid : read_only (_require_session sid).
Proof. intros k. rewrite require_session_eq. by destruct (sessions k !! sid). Qed.

Lemma ack_same sid aid mid phase k sid' : same_at k (ack sid aid mid phase k).2 sid'.
Proof.
  revert k sid'. apply same_bind; [apply same_read_only, require_read_only|]. intros _ k sid'.
  repeat (destruct (String.eqb _ _); [apply on_agent_same|]). done.
Qed.

Lemma append_or_skip_same sid msg now k sid' : same_at k (append_or_skip sid msg now k).2 sid'.
Proof.
  unfold append_or_skip.
  pose proof (on_session_same sid (append_history sid msg now)
                (fun md => append_history_meta md sid msg now) k sid') as H.
  destruct (on_session _ _ k) as [[?|e] k']; [done|]. by destruct e.
Qed.

Lemma ingest_same sid msgs now k sid' : same_at k (ingest sid msgs now k).2 sid'.
Proof.
  revert k sid'. apply same_bind; [apply same_read_only, require_read_only|]. intros s.
  induction msgs as [|msg msgs IH]; [done|]. destruct msg; simpl; try exact IH.
  apply same_bind; [done|]. intros ok. destruct (_ || _); [exact IH|].
  apply same_bind; [intros; apply append_or_skip_same|]. intros ?.
  apply same_bind; [exact IH|]. done.
Qed.

Lemma subscribe_same sid aid sub k sid' : same_at k (subscribe sid aid sub k).2 sid'.
Proof.
  revert k sid'. apply same_bind; [apply same_read_only, require_read_only|]. intros _.
  apply same_bind; [done|]. intros _. induction (sub_topics sub) as [|t l IH]; [done|].
  simpl. by apply same_bind.
Qed.

(** The routing decisions only read the tables of [coherent]. *)
Lemma decision_same {A} sid (f : Session -> st kernel A) :
  (forall s k sid', same_at k (f s k).2 sid') ->
  forall k sid', same_at k ((s ← _require_session sid; f s) k).2 sid'.
Proof. intros Hf. apply same_bind; [apply same_read_only, require_read_only|done]. Qed.

Lemma direct_plan_same uuid now sid from to e k sid' :
  same_at k (direct_plan uuid now sid from to e k).2 sid'.
Proof. revert k sid'. apply decision_same. intros s. by apply same_bind. Qed.
Lemma broadcast_plan_same uuid now sid from e k sid' :
  same_at k (broadcast_plan uuid now sid from e k).2 sid'.
Proof. revert k sid'. apply decision_same. intros s. by apply same_bind. Qed.
Lemma channel_plan_same uuid now sid from c e k sid' :
  same_at k (channel_plan uuid now sid from c e k).2 sid'.
Proof.
  revert k sid'. apply decision_same. intros s. apply same_bind; [done|]. intros k0.
  destruct (_ !! c); [|done]. by apply same_bind.
Qed.
Lemma notice_plan_same uuid now sid from topic e k sid' :
  same_at k (notice_plan uuid now sid from topic e k).2 sid'.
Proof.
  revert k sid'. apply decision_same. intros s. apply same_bind; [done|]. intros _.
  apply same_bind; [done|]. intros k0. cbv zeta. case_bool_decide; [done|]. by apply same_bind.
Qed.

Section send_same.
Context {T : Type} `{DeliverySinkLaws T} (uuid : nat -> string) (now : Z).

Definition keeps_tables {A} (m : st (kernel * T) A) : Prop :=
  forall kt sid, same_at kt.1 (m kt).2.1 sid.

Lemma tables_bind {A B} (m : st (kernel * T) A) (f : A -> st (kernel * T) B) :
  keeps_tables m -> (forall a, keeps_tables (f a)) -> keeps_tables (m ≫= f).
Proof.
  intros Hm Hf kt sid. rewrite st_bind_unfold. specialize (Hm kt sid).
  destruct (m kt) as [[a|e] kt1]; simpl in *; [|done].
  eapply same_at_trans; [exact Hm|]. apply Hf.
Qed.
Lemma tables_ret {A} (a : A) : keeps_tables (mret a).
Proof. done. Qed.
Lemma tables_on_kernel {A} (m : st kernel A) :
  (forall k sid, same_at k (m k).2 sid) -> keeps_tables (on_kernel m).
Proof. intros Hm kt sid. apply Hm. Qed.
Lemma tables_deliver sid target e id created from :
  keeps_tables (deliver sid target e id created from).
Proof.
  intros kt sid'. destruct (deliver_frame sid target e id created from kt)
    as (H1 & H2 & H3 & H4 & H5 & H6 & H7 & H8).
  split; intros; [by rewrite H1|apply H8|by rewrite H7|by rewrite H2|by rewrite H6|by rewrite H3].
Qed.
Lemma tables_one sid from p x : keeps_tables (deliver_one sid from p x).
Proof. apply tables_bind; [apply tables_deliver|]. intros. apply tables_ret. Qed.
Lemma tables_all sid from p l : keeps_tables (deliver_all sid from p l).
Proof.
  induction l as [|x l IH]; [apply tables_ret|]. apply tables_bind; [apply tables_one|].
  intros r. apply tables_bind; [exact IH|]. intros. apply tables_ret.
Qed.
Lemma tables_pool sid from p l : keeps_tables (deliver_pool sid from p l).
Proof.
  induction l as [|x l IH]; [apply tables_ret|]. intros kt sid'. simpl.
  eapply same_at_trans; [apply (tables_one sid from p x kt sid')|]. apply IH.
Qed.

Lemma tables_broadcast sid from e : keeps_tables (broadcast uuid now sid from e).
Proof.
  apply tables_bind; [apply tables_on_kernel; intros; apply broadcast_plan_same|]. intros p.
  destruct (Nat.leb _ _); [apply tables_pool|apply tables_all].
Qed.
Lemma tables_channel sid from c e : keeps_tables (channel uuid now sid from c e).
Proof.
  apply tables_bind; [apply tables_on_kernel; intros; apply channel_plan_same|]. intros p.
  apply tables_all.
Qed.
Lemma tables_notice sid from topic e : keeps_tables (notice uuid now sid from topic e).
Proof.
  apply tables_bind; [apply tables_on_kernel; intros; apply notice_plan_same|]. intros p.
  apply tables_all.
Qed.
Lemma tables_send sid from target e : keeps_tables (send uuid now sid from target e).
Proof.
  unfold send. destruct (ad_kind target).
  - apply tables_bind; [apply tables_on_kernel; intros; apply direct_plan_same|]. intros p.
    apply tables_bind; [apply tables_deliver|]. intros. apply tables_ret.
  - apply tables_bind; [apply tables_channel|]. intros. apply tables_ret.
  - apply tables_bind; [apply tables_broadcast|]. intros. apply tables_ret.
  - apply tables_bind; [apply tables_notice|]. intros. apply tables_ret.
Qed.
End send_same.

(** The calls of the kernel that change its state or its files. *)
Inductive kernel_op :=
| KCreate (sid manager : string) (roster : list string) (acl : option ACL)
    (execution_modes return_modes : list (string * string)) (now : Z)
| KRegister (loc : AgentLocation) (sid token : string) (now : Z)
| KUnregister (sid aid : string)
| KToken (sid aid token : string)
| KCard (sid aid : string) (card : pydict)
| KChannel (sid cid : string) (members : list string) (acl : option ACL)
| KSubscribe (sid aid : string) (sub : Subscription)
| KSend (uuid : nat -> string) (now : Z) (sid sender : string) (target : Address) (e : Envelope)
| KAck (sid aid msg_id phase : string)
| KIngest (sid : string) (messages : list pyval) (now : Z).

Definition kernel_step {T} `{DeliverySink T} (py_str : pyval -> string) (op : kernel_op)
    (kt : kernel * T) : kernel * T :=
  match op with
  | KCreate sid mg ros acl em rm now => (on_kernel (create_session sid mg ros acl em rm now) kt).2
  | KRegister loc sid token now => (on_kernel (register loc sid token now) kt).2
  | KUnregister sid aid => (on_kernel (unregister sid aid) kt).2
  | KToken sid aid token => (on_kernel (set_registration_token sid aid token) kt).2
  | KCard sid aid card => (on_kernel (set_agent_card py_str sid aid card) kt).2
  | KChannel sid cid members acl => (on_kernel (create_channel sid cid members acl) kt).2
  | KSubscribe sid aid sub => (on_kernel (subscribe sid aid sub) kt).2
  | KSend uuid now sid from target e => (send uuid now sid from target e kt).2
  | KAck sid aid id phase => (on_kernel (ack sid aid id phase) kt).2
  | KIngest sid msgs now => (on_kernel (ingest sid msgs now) kt).2
  end.

Lemma kernel_step_coherent {T} `{DeliverySinkLaws T} py_str op (kt : kernel * T) :
  coherent kt.1 -> coherent (kernel_step py_str op kt).1.
Proof.
  intros Hk. destruct op; simpl; first
    [ by apply create_session_coherent | by apply register_coherent | by apply unregister_coherent
    | by apply set_registration_token_coherent | by apply set_agent_card_coherent
    | by apply create_channel_coherent
    | apply (coherent_same kt.1); [done|]; intros sid'; first
      [ apply subscribe_same | apply tables_send | apply ack_same | apply ingest_same ] ].
Qed.

Lemma kernel_steps_coherent {T} `{DeliverySinkLaws T} py_str ops (kt : kernel * T) :
  coherent kt.1 -> coherent (foldl (fun kt op => kernel_step py_str op kt) kt ops).1.
Proof.
  revert kt. induction ops as [|op ops IH]; intros kt Hk; [done|]. by apply IH, kernel_step_coherent.
Qed.

(** C7: After any sequence of calls on a fresh kernel, whatever transport
    delivers the messages and whether the calls raise or not, the tables in
    memory agree with the files: every session's metadata, ACL, modes, roster,
    routing table, channels and tokens are what its two files say, the files
    have no session that the kernel does not know, only members of the roster
    are registered or in a channel, and the manager is always a member. *)
Theorem kernel_coherent {T} `{DeliverySinkLaws T} py_str ops (t : T) :
  coherent (foldl (fun kt op => kernel_step py_str op kt) (empty_kernel, t) ops).1.
Proof. apply (kernel_steps_coherent py_str ops (empty_kernel, t)), coherent_empty. Qed.

(** ** Restart *)

(** What the files do not keep. *)
Definition no_capabilities (l : AgentLocation) : AgentLocation :=
  {| l_agent_id := l_agent_id l; l_host_alias := l_host_alias l; l_backend := l_backend l;
     l_capabilities := []; l_execution_mode := l_execution_mode l;
     l_mailbox_root := l_mailbox_root l; l_return_mode := l_return_mode l |}.
Definition no_acl (c : Channel) : Channel :=
  {| ch_id := ch_id c; ch_members := ch_members c; ch_acl := None |}.

(** The kernel after a restart. *)
Definition restarted (k : kernel) : kernel :=
  {| sessions := sessions k;
     routing := @fmap (gmap (string * string)) _ _ _ no_capabilities (routing k);
     channels := @fmap (gmap string) _ _ _ (@fmap (gmap string) _ _ _ no_acl) (channels k);
     subscriptions := @fmap (gmap string) _ Session _ (fun _ => ∅) (sessions k); topic_subscriptions := ∅;
     registration_tokens := registration_tokens k; disk := disk k; metas := metas k |}.

Lemma location_of_entry loc : location_of (l_agent_id loc) (entry_of loc) = Ok (no_capabilities loc).
Proof.
  unfold location_of, entry_of, no_capabilities. simpl.
  destruct loc as [a h b c [[]|] mr [[]|]]; simpl; destruct (String.eqb_spec mr "") as [->|]; done.
Qed.

Lemma load_routing_spec sid (loc : string -> AgentLocation) l c :
  (forall aid r, (aid, r) ∈ l -> location_of aid r = Ok (loc aid)) ->
  exists rt, load_routing sid l c = Ok (set_routing rt c) /\
  forall sid' aid, rt !! (sid', aid) =
    if bool_decide (sid' = sid /\ aid ∈ l.*1) then Some (loc aid) else routing c !! (sid', aid).
Proof.
  revert c. induction l as [|[a r] l IH]; intros c Hl; simpl.
  - exists (routing c). split; [by destruct c|]. intros sid' aid. case_bool_decide; [|done].
    set_solver.
  - rewrite (Hl a r) by (by left). simpl.
    destruct (IH (set_routing (<[(sid, a) := loc a]> (routing c)) c)) as (rt & E & Hrt).
    { intros aid r' Hin. apply (Hl aid r'). by right. }
    exists rt. split; [exact E|]. intros sid' aid. rewrite Hrt. simpl.
    destruct (decide (sid' = sid /\ aid = a)) as [[-> ->]|Hne].
    + rewrite lookup_insert_eq. case_bool_decide; case_bool_decide as H2; try done.
      all: exfalso; apply H2; split; [done|by left].
    + rewrite lookup_insert_ne by naive_solver.
      case_bool_decide as H1; case_bool_decide as H2; try done; exfalso; set_solver.
Qed.

Lemma load_tokens_spec (sid : string) (toks : gmap string string) (t : gmap (string * string) string)
    (sid' aid : string) :
  map_fold (fun aid tok t => <[(sid, aid) := tok]> t) t toks !! (sid', aid) =
  if bool_decide (sid' = sid /\ is_Some (toks !! aid)) then toks !! aid else t !! (sid', aid).
Proof.
  revert toks. apply (map_fold_weak_ind (fun r toks => r !! (sid', aid) =
    if bool_decide (sid' = sid /\ is_Some (toks !! aid)) then toks !! aid else t !! (sid', aid))).
  - rewrite lookup_empty. case_bool_decide as H; [|done]. by destruct H as [_ [? ?]].
  - intros a tok m r Hm IH. destruct (decide (sid' = sid)) as [->|Hne].
    + destruct (decide (aid = a)) as [->|Ha].
      * rewrite !lookup_insert_eq. rewrite bool_decide_eq_true_2; [done|split; [done|by eexists]].
      * rewrite !lookup_insert_ne by congruence. exact IH.
    + rewrite lookup_insert_ne by congruence. rewrite IH.
      rewrite !bool_decide_eq_false_2 by naive_solver. done.
Qed.

Lemma strs_roundtrip l :
  omap (fun x => match x with VStr s => Some s | _ => None end) (map VStr l) = l.
Proof. induction l as [|x l IH]; [done|]. cbn. f_equal. exact IH. Qed.

Lemma acl_roundtrip a mg members : acl_of_pyval (VDict (acl_dict a)) mg members = Some a.
Proof.
  destruct a as [au al ro po].
  transitivity (Some {| authority := au; policy := po;
    allowed_senders := omap (fun x => match x with VStr s => Some s | _ => None end) (map VStr al);
    room_members := omap (fun x => match x with VStr s => Some s | _ => None end) (map VStr ro) |});
    [done|]. by rewrite !strs_roundtrip.
Qed.

(** Loading one session of a coherent kernel. *)
Lemma load_session_spec k sid s m c :
  live k sid s -> disk k !! sid ≫= meta = Some m -> metas c = metas k ->
  exists rt tk chans,
  load_session sid m c = Ok
    {| sessions := <[sid := s]> (sessions c); routing := rt;
       channels := <[sid := no_acl <$> chans]> (channels c);
       subscriptions := <[sid := ∅]> (subscriptions c);
       topic_subscriptions := topic_subscriptions c; registration_tokens := tk;
       disk := disk c; metas := metas c |} /\
  channels k !! sid = Some chans /\
  (forall sid' aid, rt !! (sid', aid) =
     if bool_decide (sid' = sid /\ is_Some (routing k !! (sid, aid)))
     then no_capabilities <$> routing k !! (sid, aid) else routing c !! (sid', aid)) /\
  (forall sid' aid, tk !! (sid', aid) =
     if bool_decide (sid' = sid /\ is_Some (registration_tokens k !! (sid, aid)))
     then registration_tokens k !! (sid, aid) else registration_tokens c !! (sid', aid)).
Proof.
  intros [Hok (m0 & Hm0 & Hp) (sm & Hsm & Hsy) Hr (chans & Hc & Hch)] Hm Hmetas.
  assert (m0 = m) as -> by congruence. destruct Hp as [P1 P2 P3 P4 P5], Hsy as [G1 G2 G3].
  rewrite Hc in G2. simpl in G2.
  set (loc := fun aid => default {| l_agent_id := ""; l_host_alias := ""; l_backend := "";
    l_capabilities := []; l_execution_mode := None; l_mailbox_root := ""; l_return_mode := None |}
    (no_capabilities <$> routing k !! (sid, aid))).
  destruct (load_routing_spec sid loc (map_to_list (sm_routing sm)) c) as (rt & Hload & Hrt).
  { intros aid r Hin%elem_of_map_to_list. rewrite G1 in Hin. unfold loc.
    destruct (routing k !! (sid, aid)) as [l|] eqn:El; [|done]. simpl in *. simplify_eq.
    destruct (Hr _ _ El) as [<- _]. apply location_of_entry. }
  exists rt, (map_fold (fun aid tok t => <[(sid, aid) := tok]> t) (registration_tokens c) (sm_tokens sm)),
    chans.
  split_and!; [|done| |].
  - unfold load_session. rewrite P1, P3, Hmetas, Hsm. cbn [mbind option_bind].
    rewrite acl_roundtrip. cbn [default from_option]. rewrite Hload. simpl.
    assert (Hmem : sorted_set (m_agents m ++
      (if String.eqb (s_manager s) "" then [] else [s_manager s])) = s_roster s).
    { destruct Hok as [_ V [-> Hin] _]. apply sorted_set_ext. intros a.
      destruct (String.eqb_spec (s_manager s) "") as [E|_]; [by rewrite E in V|].
      rewrite elem_of_app, list_elem_of_singleton. symmetry. apply P2. }
    rewrite Hmem, <-P4, <-P5. f_equal. unfold set_subscriptions, set_channels, set_tokens, set_sessions.
    simpl. f_equal.
    + f_equal. by destruct (sm_acl sm), s.
    + f_equal. rewrite G2. apply map_eq. intros cid. rewrite map_lookup_imap, !lookup_fmap.
      destruct (chans !! cid); done.
    + by rewrite Hmetas.
  - intros sid' aid. rewrite Hrt. unfold loc.
    assert (Hiff : aid ∈ (map_to_list (sm_routing sm)).*1 <-> is_Some (routing k !! (sid, aid))).
    { rewrite list_elem_of_fmap. split.
      - intros ([a r] & -> & Hin%elem_of_map_to_list). simpl. rewrite G1 in Hin.
        by destruct (routing k !! (sid, a)).
      - intros [l Hl]. exists (aid, entry_of l). split; [done|].
        apply elem_of_map_to_list. by rewrite G1, Hl. }
    rewrite (bool_decide_ext _ (sid' = sid /\ is_Some (routing k !! (sid, aid)))) by by rewrite Hiff.
    case_bool_decide as H2; [|done]. by destruct H2 as [_ [l ->]].
  - intros sid' aid. rewrite load_tokens_spec. by rewrite G3.
Qed.

(** What has been loaded after the sessions in [loaded]. *)
Record loaded_part (k : kernel) (loaded : list string) (c : kernel) : Prop := {
  lp_sessions : forall sid, sessions c !! sid =
    if bool_decide (sid ∈ loaded) then sessions k !! sid else None;
  lp_routing : forall sid aid, routing c !! (sid, aid) =
    if bool_decide (sid ∈ loaded) then no_capabilities <$> routing k !! (sid, aid) else None;
  lp_channels : forall sid, channels c !! sid =
    if bool_decide (sid ∈ loaded) then fmap no_acl <$> channels k !! sid else None;
  lp_subscriptions : forall sid, subscriptions c !! sid =
    if bool_decide (sid ∈ loaded) then (fun _ => ∅) <$> sessions k !! sid else None;
  lp_topics : topic_subscriptions c = ∅;
  lp_tokens : forall sid aid, registration_tokens c !! (sid, aid) =
    if bool_decide (sid ∈ loaded) then registration_tokens k !! (sid, aid) else None;
  lp_disk : disk c = disk k;
  lp_metas : metas c = metas k }.

Lemma loaded_snoc (sid sid' : string) loaded : sid' <> sid ->
  bool_decide (sid' ∈ loaded ++ [sid]) = bool_decide (sid' ∈ loaded).
Proof. intros Hne. apply bool_decide_ext. set_solver. Qed.
Lemma loaded_last (sid : string) loaded : bool_decide (sid ∈ loaded ++ [sid]) = true.
Proof. apply bool_decide_eq_true. set_solver. Qed.

Lemma if_present {A B} (sid : string) (f : A -> B) (o : option A) :
  (if bool_decide (sid = sid /\ is_Some o) then f <$> o else None) = f <$> o.
Proof. case_bool_decide as H; [done|]. destruct o; [|done]. destruct H. split; [done|by eexists]. Qed.

Lemma load_step k loaded c sid :
  coherent k -> sid ∉ loaded -> loaded_part k loaded c ->
  exists c', match disk k !! sid ≫= meta with
             | Some m => load_session sid m c
             | None => Ok c
             end = Ok c' /\ loaded_part k (loaded ++ [sid]) c'.
Proof.
  intros Hk Hnew [L1 L2 L3 L4 L5 L6 L7 L8].
  assert (Hn : bool_decide (sid ∈ loaded) = false) by by apply bool_decide_eq_false.
  destruct (sessions k !! sid) as [s|] eqn:Hs.
  - pose proof (live_session _ _ _ Hk Hs) as Hl. destruct (lv_disk _ _ _ Hl) as (m & Hm & _).
    destruct (load_session_spec k sid s m c) as (rt & tk & chans & E & Hc & Hrt & Htk); try done.
    rewrite Hm, E. eexists. split; [reflexivity|]. split; simpl; try done.
    + intros sid'. destruct (decide (sid' = sid)) as [->|Hne].
      * by rewrite lookup_insert_eq, loaded_last.
      * by rewrite lookup_insert_ne, loaded_snoc.
    + intros sid' aid. rewrite Hrt, L2. destruct (decide (sid' = sid)) as [->|Hne].
      * rewrite loaded_last, Hn. apply if_present.
      * rewrite bool_decide_eq_false_2 by naive_solver. by rewrite loaded_snoc.
    + intros sid'. destruct (decide (sid' = sid)) as [->|Hne].
      * by rewrite lookup_insert_eq, loaded_last, Hc.
      * by rewrite lookup_insert_ne, loaded_snoc.
    + intros sid'. destruct (decide (sid' = sid)) as [->|Hne].
      * by rewrite lookup_insert_eq, loaded_last, Hs.
      * by rewrite lookup_insert_ne, loaded_snoc.
    + intros sid' aid. rewrite Htk, L6. destruct (decide (sid' = sid)) as [->|Hne].
      * rewrite loaded_last, Hn. pose proof (if_present sid id (registration_tokens k !! (sid, aid))) as H.
        by rewrite !option_fmap_id in H.
      * rewrite bool_decide_eq_false_2 by naive_solver. by rewrite loaded_snoc.
  - destruct (dead_session _ _ Hk Hs) as [-> Hm Hr Ht Hc]. exists c. split; [done|].
    split; try done.
    1, 3, 4: intros sid'; rewrite ?L1, ?L3, ?L4.
    4, 5: intros sid' aid; rewrite ?L2, ?L6.
    all: destruct (decide (sid' = sid)) as [->|Hne]; [|by rewrite loaded_snoc];
      by rewrite loaded_last, Hn, ?Hs, ?Hc, ?Hr, ?Ht.
Qed.

(** C8: Restarting restores the kernel: on the files of a coherent kernel
    [_load_persisted_sessions] succeeds and rebuilds the sessions with their
    rosters, ACLs and modes, the routing table, the channels and the
    registration tokens exactly, except that the locations have lost their
    capabilities, the channels their ACL, and every subscription is gone. *)
Theorem restart_roundtrip k :
  coherent k -> _load_persisted_sessions (disk k) (metas k) = Ok (restarted k).
Proof.
  intros Hk. unfold _load_persisted_sessions. set (k0 := {| sessions := ∅ |}).
  set (sids := sort_strs _).
  assert (Hgen : forall l loaded c, loaded_part k loaded c -> NoDup (loaded ++ l) ->
    exists c', foldl (fun r sid => do k' <- r;
        match disk k !! sid ≫= meta with Some m => load_session sid m k' | None => Ok k' end)
      (Ok c) l = Ok c' /\ loaded_part k (loaded ++ l) c').
  { induction l as [|sid l IH]; intros loaded c Hc Hnd; simpl; [rewrite app_nil_r; eauto|].
    destruct (load_step k loaded c sid) as (c1 & -> & Hc1); try done.
    { apply NoDup_app in Hnd as (_ & Hnd & _). intros Hin. apply (Hnd _ Hin). by left. }
    destruct (IH (loaded ++ [sid]) c1) as (c' & E & Hc'); [done|by rewrite <-app_assoc|].
    exists c'. split; [exact E|]. by rewrite <-app_assoc in Hc'. }
  destruct (Hgen sids [] k0) as (c & -> & [L1 L2 L3 L4 L5 L6 L7 L8]).
  { split; try done; intros; simpl; apply lookup_empty. }
  { simpl. unfold sids, sort_strs. rewrite merge_sort_Permutation. apply NoDup_fst_map_to_list. }
  simpl in *.
  assert (Hout : forall sid, bool_decide (sid ∈ sids) = false -> sessions k !! sid = None).
  { intros sid Hsid%bool_decide_eq_false. destruct (sessions k !! sid) as [s|] eqn:Hs; [|done].
    destruct (lv_disk _ _ _ (live_session _ _ _ Hk Hs)) as (m & Hm & _).
    destruct Hsid. unfold sids. apply elem_of_sort_strs, list_elem_of_fmap.
    destruct (disk k !! sid) as [ds|] eqn:Hd; [|done]. exists (sid, ds).
    split; [done|]. by apply elem_of_map_to_list. }
  f_equal. destruct c. unfold restarted. simpl in *. f_equal; try done.
  all: apply map_eq; try intros [sid aid]; try intros sid;
    rewrite ?lookup_fmap, ?L1, ?L2, ?L3, ?L4, ?L6; destruct (bool_decide (sid ∈ sids)) eqn:E;
    try done; apply Hout in E; rewrite ?E; try done.
  all: destruct (dead_session _ _ Hk E) as [Hd Hm Hr Ht Hc]; by rewrite ?Hr, ?Ht, ?Hc.
Qed.

(** ** Polling page by page *)

#[export] Instance pair_le_refl : Reflexive (fun a b => pair_le a b = true).
Proof. intros a. apply bool_decide_eq_true. by right. Qed.
#[export] Instance pair_le_trans : Transitive (fun a b => pair_le a b = true).
Proof.
  intros [a1 a2] [b1 b2] [c1 c2]. unfold pair_le. rewrite !bool_decide_eq_true. simpl.
  intros [[H1 H2]|[-> H2]] [[G1 G2]|[-> G2]]; [|by left|by left|right; split; [done|by etrans]].
  left. split; [|by etrans]. intros ->. apply H1, (anti_symm String.le); done.
Qed.
Lemma pair_le_total a b : pair_le a b = true \/ pair_le b a = true.
Proof.
  destruct a as [a1 a2], b as [b1 b2]. unfold pair_le. rewrite !bool_decide_eq_true. simpl.
  destruct (decide (a1 = b1)) as [->|Hne].
  - destruct (total String.le a2 b2); tauto.
  - destruct (total String.le a1 b1); [left|right]; left; split; congruence.
Qed.

(** A message whose identifier has no bar, as [_validate_msg_id] requires. *)
Definition plain_id (msg : pydict) : Prop := rsplit1 "|"%char (dstr msg "msg_id") = None.

Lemma parse_cursor_of msg : plain_id msg -> parse_cursor (cursor_of msg) = poll_key msg.
Proof.
  intros H. unfold parse_cursor, cursor_of.
  change ("|" +:+ dstr msg "msg_id") with (String "|"%char (dstr msg "msg_id")).
  by rewrite rsplit1_app.
Qed.
Lemma cursor_of_nonempty msg : String.eqb (cursor_of msg) "" = false.
Proof. unfold cursor_of. by destruct (dstr msg "created_at"). Qed.

(** The messages after a cursor, the bound of a page, and the page. *)
Definition after (cursor : string) (msg : pydict) : Prop :=
  cursor = "" \/ pair_le (poll_key msg) (parse_cursor cursor) = false.
#[export] Instance after_dec cursor msg : Decision (after cursor msg).
Proof. unfold after. apply _. Defined.

Lemma poll_loop_take cursor limit taken msgs :
  poll_loop cursor limit taken msgs = take (Nat.max 1 (limit - taken)) (filter (after cursor) msgs).
Proof.
  revert taken. induction msgs as [|m msgs IH]; intros taken; simpl; [by rewrite filter_nil, take_nil|].
  rewrite filter_cons. destruct (negb _ && _) eqn:E.
  - rewrite decide_False; [apply IH|]. intros [->|H]; [done|]. bool_to_prop. congruence.
  - rewrite decide_True.
    2:{ apply andb_false_iff in E as [E|E]; [left|by right].
        apply negb_false_iff, String.eqb_eq in E. done. }
    destruct (Nat.leb_spec limit (S taken)) as [Hl|Hl].
    + replace (Nat.max 1 (limit - taken)) with 1%nat by lia. done.
    + rewrite IH. replace (Nat.max 1 (limit - taken)) with (S (Nat.max 1 (limit - S taken))) by lia.
      done.
Qed.

(** The pages that a client reads by passing each cursor back, until a page
    is empty. *)
Fixpoint poll_pages (fuel : nat) (files : list (string * file)) (cursor : string) (limit : nat) :
    list (list pydict) :=
  match fuel with
  | O => []
  | S fuel' =>
    let r := poll_list files cursor limit in
    match po_messages r with
    | [] => []
    | page => page :: poll_pages fuel' files (po_cursor r) limit
    end
  end.

Definition key_lt (a b : pydict) : Prop := pair_le (poll_key b) (poll_key a) = false.

(** Reading an inbox page by page, passing each cursor back, returns every
    message exactly once and in order, for any page size, when the listing is
    strictly ordered by (created_at, msg_id) and no identifier has a bar. *)
Theorem poll_pages_complete files limit fuel :
  StronglySorted key_lt (readable files) -> Forall plain_id (readable files) ->
  (length (readable files) <= fuel)%nat ->
  concat (poll_pages fuel files "" limit) = readable files.
Proof.
  intros Hs Hp. set (msgs := readable files) in *.
  assert (Hgen : forall fuel pre suf cursor, pre ++ suf = msgs -> (length suf <= fuel)%nat ->
    filter (after cursor) msgs = suf -> concat (poll_pages fuel files cursor limit) = suf).
  { clear fuel. induction fuel as [|fuel IH]; intros pre suf cursor Hms Hlen Hf; simpl.
    { destruct suf; [done|]. simpl in Hlen. lia. }
    unfold poll_list. simpl. rewrite poll_loop_take. fold msgs. rewrite Hf.
    set (n := Nat.max 1 _). assert (Hn : (1 <= n)%nat) by lia.
    destruct (take n suf) as [|x page] eqn:Et.
    { destruct suf; [done|]. destruct n; [lia|done]. }
    rewrite <-Et. simpl.
    destruct (last (take n suf)) as [m|] eqn:El; [|by rewrite Et in El; apply last_None in El].
    simpl. rewrite (IH (pre ++ take n suf) (drop n suf)).
    - apply take_drop.
    - by rewrite <-app_assoc, take_drop.
    - rewrite length_drop. lia.
    - apply last_Some in El as [page' Hpage].
      assert (Hsplit : msgs = (pre ++ page') ++ m :: drop n suf).
      { rewrite <-Hms. rewrite <-(take_drop n suf) at 1. rewrite Hpage, <-!app_assoc. done. }
      assert (Hm : plain_id m).
      { rewrite Forall_forall in Hp. apply Hp. rewrite Hsplit. set_solver. }
      rewrite Hsplit in Hs |- *. apply StronglySorted_app in Hs as (Hlt & _ & Hs2).
      apply StronglySorted_inv in Hs2 as [_ Hgt].
      rewrite filter_app, filter_cons, decide_False.
      + rewrite (list_filter_all _ (drop n suf)).
        * replace (filter _ (pre ++ page')) with (@nil pydict); [done|]. symmetry.
          apply list_filter_none. intros y Hy [Hc|Hc].
          { pose proof (cursor_of_nonempty m) as H. by rewrite Hc in H. }
          rewrite parse_cursor_of in Hc by done.
          pose proof (Hlt y m Hy ltac:(by left)) as Hym. unfold key_lt in Hym.
          destruct (pair_le_total (poll_key y) (poll_key m)); congruence.
        * intros y Hy. right. rewrite parse_cursor_of by done.
          rewrite Forall_forall in Hgt. by apply Hgt.
      + intros [Hc|Hc].
        { pose proof (cursor_of_nonempty m) as H. by rewrite Hc in H. }
        rewrite parse_cursor_of in Hc by done.
        pose proof (reflexivity (R := fun a b => pair_le a b = true) (poll_key m)). congruence. }
  intros Hlen. apply (Hgen fuel [] msgs ""); [done|done|].
  apply list_filter_all. intros y _. by left.
Qed.

(** The cursor alone does not make polling complete: a message that the
    listing (by modification time) puts after the last of a page although its
    (created_at, msg_id) is not greater is returned by no later page. *)
Theorem poll_skips files cursor limit fuel m m' :
  Forall plain_id (readable files) ->
  last (po_messages (poll_list files cursor limit)) = Some m ->
  pair_le (poll_key m') (poll_key m) = true ->
  m' ∉ concat (poll_pages fuel files (po_cursor (poll_list files cursor limit)) limit).
Proof.
  intros Hp. rewrite Forall_forall in Hp.
  assert (Hin : forall c x, x ∈ po_messages (poll_list files c limit) ->
                  x ∈ readable files /\ after c x).
  { intros c x Hx. unfold poll_list in Hx. simpl in Hx. rewrite poll_loop_take in Hx.
    apply elem_of_take in Hx as (i & Hx & _). apply list_elem_of_lookup_2 in Hx.
    apply list_elem_of_filter in Hx. tauto. }
  assert (Hlast : forall c x, last (po_messages (poll_list files c limit)) = Some x ->
    x ∈ po_messages (poll_list files c limit) /\ po_cursor (poll_list files c limit) = cursor_of x).
  { intros c x Hx. split; [|unfold poll_list in *; simpl in *; by rewrite Hx].
    apply last_Some in Hx as [l ->]. set_solver. }
  revert cursor m. induction fuel as [|fuel IH]; intros cursor m Hm Hle; [by intros []%elem_of_nil|].
  destruct (Hlast _ _ Hm) as [Hmin ->]. destruct (Hin _ _ Hmin) as [Hmr _].
  cbn [poll_pages]. cbv zeta.
  destruct (po_messages (poll_list files (cursor_of m) limit)) as [|x page] eqn:Epage;
    [by intros []%elem_of_nil|].
  rewrite <-Epage in *. cbn [concat]. rewrite elem_of_app. intros [Hx|Hx].
  - apply Hin in Hx as [_ [Hc|Hc]].
    + pose proof (cursor_of_nonempty m) as H. by rewrite Hc in H.
    + rewrite parse_cursor_of in Hc by auto. congruence.
  - destruct (last (po_messages (poll_list files (cursor_of m) limit))) as [m2|] eqn:E2;
      [|apply last_None in E2; congruence].
    revert Hx. apply (IH _ m2 E2).
    destruct (Hlast _ _ E2) as [Hm2 _]. apply Hin in Hm2 as [_ [Hc|Hc]].
    + pose proof (cursor_of_nonempty m) as H. by rewrite Hc in H.
    + rewrite parse_cursor_of in Hc by auto. apply (pair_le_trans _ (poll_key m)); [exact Hle|].
      destruct (pair_le_total (poll_key m2) (poll_key m)); [congruence|done].
Qed.

(** ** Fan-out *)
Section fanout.
Context {T : Type} `{DeliverySinkLaws T} (uuid : nat -> string) (now : Z).

Lemma deliver_one_Ok sid from p x kt r kt' :
  deliver_one sid from p x kt = (Ok r, kt') -> (dr_recipient r, dr_msg_id r) = x.
Proof. intros (a & kt1 & _ & [-> _]%st_ret_Ok)%st_bind_Ok. by destruct x. Qed.

Lemma deliver_all_Ok sid from p l kt rs kt' :
  deliver_all sid from p l kt = (Ok rs, kt') -> map (fun r => (dr_recipient r, dr_msg_id r)) rs = l.
Proof.
  revert kt rs kt'. induction l as [|x l IH]; intros kt rs kt' E; simpl in E.
  - by apply st_ret_Ok in E as [-> _].
  - apply st_bind_Ok in E as (r & kt1 & Hr & E). apply st_bind_Ok in E as (rs' & kt2 & Hrs & E).
    apply st_ret_Ok in E as [-> _]. simpl. by rewrite (deliver_one_Ok _ _ _ _ _ _ _ Hr), (IH _ _ _ Hrs).
Qed.
Lemma deliver_pool_Ok sid from p l kt rs kt' :
  deliver_pool sid from p l kt = (Ok rs, kt') -> map (fun r => (dr_recipient r, dr_msg_id r)) rs = l.
Proof.
  revert kt rs kt'. induction l as [|x l IH]; intros kt rs kt' E; simpl in E.
  - by apply st_ret_Ok in E as [-> _].
  - destruct (deliver_one sid from p x kt) as [[r|e] kt1] eqn:Hr; [|done]. simpl in E.
    destruct (deliver_pool sid from p l kt1) as [[rs'|e] kt2] eqn:Hrs; [|done].
    simpl in E. injection E as <- <-. simpl.
    by rewrite (deliver_one_Ok _ _ _ _ _ _ _ Hr), (IH _ _ _ Hrs).
Qed.

Lemma targets_of_plan e l rs :
  map (fun r => (dr_recipient r, dr_msg_id r)) rs = p_targets (plan_for uuid now e l) ->
  map dr_recipient rs = l /\ map dr_msg_id rs = imap (fun i _ => uuid (S i)) l.
Proof.
  simpl. intros E. split.
  - transitivity (map fst (imap (fun i r => (r, uuid (S i))) l)).
    + rewrite <-E, map_map. by apply map_ext.
    + change (map fst) with (@fmap list _ (string * string) _ fst). rewrite fmap_imap.
      apply list_eq. intros i. rewrite list_lookup_imap. by destruct (l !! i).
  - transitivity (map snd (imap (fun i r => (r, uuid (S i))) l)).
    + rewrite <-E, map_map. by apply map_ext.
    + change (map snd) with (@fmap list _ (string * string) _ snd). by rewrite fmap_imap.
Qed.

Lemma NoDup_ids {A} (l : list A) :
  (forall i j, uuid i = uuid j -> i = j) -> NoDup (imap (fun i _ => uuid (S i)) l).
Proof.
  intros Hinj. apply NoDup_alt. intros i j x Hi Hj.
  apply list_lookup_imap_Some in Hi as (? & _ & ->), Hj as (? & _ & Hj).
  apply Hinj in Hj. lia.
Qed.
End fanout.

Section fanout_spec.
Context {T : Type} `{DeliverySinkLaws T} (uuid : nat -> string) (now : Z).

(** Who may send to an address. *)
Definition may_send (k : kernel) (sid from : string) (target : Address) : Prop :=
  exists s, sessions k !! sid = Some s /\
  match ad_kind target with
  | DIRECT => from ∈ allowed_senders (s_acl s) /\ ad_agent_id target ∈ room_members (s_acl s)
  | CHANNEL => exists c, default ∅ (channels k !! sid) !! ad_channel_id target = Some c /\
                         from ∈ ch_members c
  | BROADCAST => policy (s_acl s) = "open" \/ from = authority (s_acl s)
  | NOTICE => from ∈ allowed_senders (s_acl s)
  end.

Lemma direct_plan_Ok sid from to e k p k' :
  direct_plan uuid now sid from to e k = (Ok p, k') ->
  k' = k /\ p = plan_for uuid now e [to] /\
  may_send k sid from {| ad_kind := DIRECT; ad_agent_id := to; ad_channel_id := ""; ad_topic := "" |}.
Proof.
  unfold direct_plan. intros (s & ? & [-> Hs]%require_session_Ok & E)%st_bind_Ok. st_inv.
  split_and!; try done. exists s. split; [done|]. unfold _check_direct in *. simpl.
  repeat case_bool_decide; simpl in *; try done.
Qed.
Lemma broadcast_plan_Ok sid from e k p k' :
  broadcast_plan uuid now sid from e k = (Ok p, k') ->
  k' = k /\ exists s, sessions k !! sid = Some s /\
    p = plan_for uuid now e (without (s_roster s) from) /\
    (policy (s_acl s) = "open" \/ from = authority (s_acl s)).
Proof.
  unfold broadcast_plan. intros (s & ? & [-> Hs]%require_session_Ok & E)%st_bind_Ok. st_inv.
  split; [done|]. exists s. split_and!; try done. unfold _check_broadcast in *.
  destruct (String.eqb_spec (policy (s_acl s)) "open"); [by left|].
  destruct (String.eqb_spec from (authority (s_acl s))); [by right|done].
Qed.
Lemma channel_plan_Ok sid from cid e k p k' :
  channel_plan uuid now sid from cid e k = (Ok p, k') ->
  k' = k /\ exists s c, sessions k !! sid = Some s /\
    default ∅ (channels k !! sid) !! cid = Some c /\ from ∈ ch_members c /\
    p = plan_for uuid now e (without (ch_members c) from).
Proof.
  unfold channel_plan. intros (s & ? & [-> Hs]%require_session_Ok & E)%st_bind_Ok.
  apply st_bind_Ok in E as (? & ? & [-> ->]%gets_Ok & E).
  destruct (_ !! cid) as [c|] eqn:Hc; [|done]. st_inv.
  split; [done|]. exists s, c. split_and!; try done. unfold _check_channel in *.
  by case_bool_decide.
Qed.
Lemma notice_plan_Ok sid from topic e k p k' :
  notice_plan uuid now sid from topic e k = (Ok p, k') ->
  exists s, sessions k !! sid = Some s /\ from ∈ allowed_senders (s_acl s) /\
  if decide (topic_members k sid topic = ∅) then
    k' = k /\ p = plan_for uuid now e (sorted_set (without (room_members (s_acl s)) from))
  else
    p = plan_for uuid now e (sort_strs (elements (topic_members k sid topic ∖ {[from]}))) /\
    k' = set_topics (<[sid := <[topic := topic_members k sid topic ∖ {[from]}]>
                       (default ∅ (topic_subscriptions k !! sid))]> (topic_subscriptions k)) k.
Proof.
  unfold notice_plan. intros (s & ? & [-> Hs]%require_session_Ok & E)%st_bind_Ok.
  apply st_bind_Ok in E as ([] & ? & [Hn ->]%lift_Ok & E).
  apply st_bind_Ok in E as (? & ? & [-> ->]%gets_Ok & E). cbv zeta in E.
  exists s. split; [done|]. split.
  { unfold _check_notice in Hn. clear E. by case_bool_decide. }
  case_bool_decide as Hm; [rewrite decide_True by done|rewrite decide_False by done].
  - by apply st_ret_Ok in E as [-> ->].
  - apply st_bind_Ok in E as ([] & ? & ->%modify_Ok & E). by apply st_ret_Ok in E as [-> ->].
Qed.

Lemma on_kernel_Ok {A} (m : st kernel A) (kt kt' : kernel * T) a :
  on_kernel m kt = (Ok a, kt') <-> m kt.1 = (Ok a, kt'.1) /\ kt'.2 = kt.2.
Proof.
  unfold on_kernel. destruct (m kt.1) as [r k'], kt', kt. simpl. naive_solver.
Qed.

(** C9: Access control: a send that does not raise was allowed.  A direct
    message needs an allowed sender and a recipient of the room, a channel
    message a sender among the members, a broadcast the open policy or the
    authority, a notice an allowed sender; and the session exists. *)
Theorem send_authorized sid from target e (kt kt' : kernel * T) r :
  send uuid now sid from target e kt = (Ok r, kt') -> may_send kt.1 sid from target.
Proof.
  unfold send, may_send. destruct (ad_kind target) eqn:Ek.
  - intros (p & kt1 & Hp & _)%st_bind_Ok. apply on_kernel_Ok in Hp as [Hp _].
    by apply direct_plan_Ok in Hp as (_ & _ & Hp).
  - intros (rs & kt1 & (p & kt2 & Hp & _)%st_bind_Ok & _)%st_bind_Ok.
    apply on_kernel_Ok in Hp as [Hp _]. apply channel_plan_Ok in Hp as (_ & s & c & Hs & Hc & Hin & _).
    by exists s; split; [|exists c].
  - intros (rs & kt1 & (p & kt2 & Hp & _)%st_bind_Ok & _)%st_bind_Ok.
    apply on_kernel_Ok in Hp as [Hp _]. apply broadcast_plan_Ok in Hp as (_ & s & Hs & _ & Hc).
    by exists s.
  - intros (rs & kt1 & (p & kt2 & Hp & _)%st_bind_Ok & _)%st_bind_Ok.
    apply on_kernel_Ok in Hp as [Hp _]. apply notice_plan_Ok in Hp as (s & Hs & Hin & _).
    by exists s.
Qed.

Lemma without_spec l a b : b ∈ without l a <-> b ∈ l /\ b <> a.
Proof. unfold without. rewrite list_elem_of_filter. tauto. Qed.

Lemma broadcast_Ok sid from e kt rs kt' :
  broadcast uuid now sid from e kt = (Ok rs, kt') ->
  exists s, sessions kt.1 !! sid = Some s /\ map dr_recipient rs = without (s_roster s) from /\
    map dr_msg_id rs = imap (fun i _ => uuid (S i)) (without (s_roster s) from).
Proof.
  intros (p & kt1 & Hp & E)%st_bind_Ok. apply on_kernel_Ok in Hp as [Hp _].
  apply broadcast_plan_Ok in Hp as (_ & s & Hs & -> & _). exists s. split; [done|].
  apply (targets_of_plan uuid now e).
  destruct (Nat.leb _ _); [by apply deliver_pool_Ok in E|by apply deliver_all_Ok in E].
Qed.

(** A broadcast that does not raise delivers one message to each member of
    the roster but the sender, no one twice, each under an identifier of its
    own (the identifiers being distinct): serially or in the thread pool. *)
Theorem broadcast_reaches_roster sid from e (kt kt' : kernel * T) rs :
  coherent kt.1 -> (forall i j, uuid i = uuid j -> i = j) ->
  broadcast uuid now sid from e kt = (Ok rs, kt') ->
  exists s, sessions kt.1 !! sid = Some s /\
    (forall a, a ∈ map dr_recipient rs <-> a ∈ s_roster s /\ a <> from) /\
    NoDup (map dr_recipient rs) /\ NoDup (map dr_msg_id rs).
Proof.
  intros Hk Hinj E. apply broadcast_Ok in E as (s & Hs & -> & ->). exists s. split; [done|].
  split_and!; [intros a; apply without_spec| |by apply NoDup_ids].
  apply list.NoDup_filter. destruct (lv_ok _ _ _ (live_session _ _ _ Hk Hs)) as [_ _ [-> _] _].
  apply NoDup_sorted_set.
Qed.
End fanout_spec.

(** ** Ingestion *)

(** What [ingest] accepts from a remote mailbox. *)
Definition accepted (sid : string) (s : Session) (msg : pydict) : Prop :=
  validate_message (VDict msg) (Some sid) None None = Ok Valid /\
  (dstr msg "from" = "" \/ dstr msg "from" ∈ s_roster s) /\
  (dstr msg "to" = "" \/ dstr msg "to" = s_manager s).
#[export] Instance accepted_dec sid s msg : Decision (accepted sid s msg).
Proof. unfold accepted. apply _. Defined.

(** Why the history refuses a message: it has been recorded, or a torn
    temporary file is in its place, or its identifier is not valid. *)
Definition refused (ds : session) (msg : pydict) : Prop :=
  present ds = false \/ _validate_msg_id (dstr msg "msg_id") <> Ok tt \/
  is_Some (history ds !! dstr msg "msg_id") \/ is_Some (history ds !! tmp_name (dstr msg "msg_id")).

Definition with_record (msg : pydict) (now : Z) (ds : session) : session :=
  set_history (<[dstr msg "msg_id" := {| content := Some (VDict msg); mtime := now |}]> (history ds)) ds.

Lemma id_not_tmp id id' : _validate_msg_id id = Ok tt -> id <> tmp_name id'.
Proof. intros Hv ->. unfold tmp_name in Hv. by vm_compute in Hv. Qed.

Lemma refused_steps sid msg now ds :
  validate_agent_id sid = Ok tt ->
  validate_message (VDict msg) (Some sid) None None = Ok Valid -> refused ds msg ->
  exists what, run_steps (history_steps sid msg now) ds = (Raise (ValueError what), ds).
Proof.
  intros Hs Hv Hr. unfold run_steps, history_steps. cbn [st_iter]. rewrite st_bind_unfold.
  unfold history_check, history_create.
  destruct (present ds) eqn:Hp;
    [|repeat (rewrite st_bind_unfold; unfold lift, gets, ensure; rewrite ?Hs, ?Hp; cbn); by eexists].
  destruct (_validate_msg_id (dstr msg "msg_id")) as [[]|e] eqn:Hi.
  2:{ assert (exists what, e = ValueError what) as [what ->].
      { unfold _validate_msg_id in Hi. case_match; [done|]. injection Hi as <-. by eexists. }
      repeat (rewrite st_bind_unfold; unfold lift, gets, ensure; rewrite ?Hs, ?Hp, ?Hv, ?Hi; cbn).
      by eexists. }
  destruct (history ds !! dstr msg "msg_id") as [f|] eqn:Hh.
  { repeat (rewrite st_bind_unfold; unfold lift, gets, ensure; rewrite ?Hs, ?Hp, ?Hv, ?Hi, ?Hh; cbn).
    by eexists. }
  destruct Hr as [?|[?|[[? ?]|[f Ht]]]]; [congruence|congruence|congruence|].
  repeat (rewrite st_bind_unfold; unfold lift, gets, ensure; rewrite ?Hs, ?Hp, ?Hv, ?Hi, ?Hh, ?Ht; cbn).
  by eexists.
Qed.

Lemma accepted_steps sid msg now ds :
  validate_agent_id sid = Ok tt ->
  validate_message (VDict msg) (Some sid) None None = Ok Valid -> ~ refused ds msg ->
  run_steps (history_steps sid msg now) ds = (Ok tt, with_record msg now ds).
Proof.
  intros Hs Hv Hr. unfold refused in Hr. apply validate_wf in Hv.
  destruct (wf_msg_id _ _ _ _ Hv) as (id & Hid & _).
  unfold with_record. rewrite (dstr_Some _ _ _ Hid) in *.
  apply run_history; try done.
  - destruct (present ds); [done|tauto].
  - destruct (decide (_validate_msg_id id = Ok tt)); tauto.
  - apply eq_None_not_Some. tauto.
  - apply eq_None_not_Some. tauto.
Qed.

#[export] Instance refused_dec ds msg : Decision (refused ds msg).
Proof. unfold refused. apply _. Defined.

Lemma append_or_skip_eq sid msg now k ds :
  validate_agent_id sid = Ok tt ->
  validate_message (VDict msg) (Some sid) None None = Ok Valid -> disk k !! sid = Some ds ->
  append_or_skip sid msg now k =
  if decide (refused ds msg) then (Ok false, k)
  else (Ok true, set_disk (<[sid := with_record msg now ds]> (disk k)) k).
Proof.
  intros Hs Hv Hd. unfold append_or_skip, on_session, append_history. rewrite Hd. simpl.
  rewrite st_bind_unfold. case_decide as Hr.
  - destruct (refused_steps sid msg now ds) as [what ->]; try done. simpl.
    rewrite insert_id by done. by destruct k.
  - by rewrite accepted_steps.
Qed.

(** What [ingest] has done to the files of the session. *)
Record ingested (sid : string) (s : Session) (messages : list pyval) (now : Z)
    (ds ds' : session) (ids : list string) : Prop := {
  ig_frame : set_history (history ds) ds' = ds;
  ig_kept : forall id f, history ds !! id = Some f -> history ds' !! id = Some f;
  ig_only : forall id f, history ds' !! id = Some f -> history ds !! id = Some f \/ id ∈ ids;
  ig_new : forall id, id ∈ ids -> exists msg, VDict msg ∈ messages /\ dstr msg "msg_id" = id /\
    accepted sid s msg /\ history ds !! id = None /\
    history ds' !! id = Some {| content := Some (VDict msg); mtime := now |};
  ig_ids : NoDup ids;
  ig_done : forall msg, VDict msg ∈ messages -> accepted sid s msg -> refused ds' msg }.

(** The condition of the loop. *)
Lemma skip_condition sid s msg ok :
  validate_message (VDict msg) (Some sid) None None = Ok ok ->
  bool_decide (ok <> Valid)
  || negb (String.eqb (dstr msg "from") "") && bool_decide (dstr msg "from" ∉ s_roster s)
  || negb (String.eqb (dstr msg "to") "") && negb (String.eqb (dstr msg "to") (s_manager s))
  = negb (bool_decide (accepted sid s msg)).
Proof.
  intros Hok. apply Bool.eq_iff_eq_true. rewrite negb_true_iff, bool_decide_eq_false.
  unfold accepted. rewrite Hok, !orb_true_iff, !andb_true_iff, !negb_true_iff, !bool_decide_eq_true,
    !String.eqb_neq.
  assert (Ok ok = Ok Valid <-> ok = Valid) as -> by (split; congruence).
  destruct (decide (ok = Valid)), (decide (dstr msg "from" = "")), (decide (dstr msg "to" = "")),
    (decide (dstr msg "from" ∈ s_roster s)), (decide (dstr msg "to" = s_manager s)); tauto.
Qed.

Lemma ingest_loop_cons sid s msg messages now k ds ok :
  validate_agent_id sid = Ok tt -> disk k !! sid = Some ds ->
  validate_message (VDict msg) (Some sid) None None = Ok ok ->
  ingest_loop sid s (VDict msg :: messages) now k =
  if decide (accepted sid s msg /\ ~ refused ds msg) then
    ((fun ids => dstr msg "msg_id" :: ids) <$> ingest_loop sid s messages now)
      (set_disk (<[sid := with_record msg now ds]> (disk k)) k)
  else ingest_loop sid s messages now k.
Proof.
  intros Hs Hd Hok. cbn [ingest_loop]. rewrite st_bind_unfold. unfold lift at 1. rewrite Hok.
  rewrite (skip_condition sid) by done. destruct (decide (accepted sid s msg)) as [Ha|Ha].
  2:{ rewrite (bool_decide_eq_false_2 _ Ha), decide_False by tauto. done. }
  rewrite (bool_decide_eq_true_2 _ Ha). simpl.
  rewrite st_bind_unfold, (append_or_skip_eq _ _ _ _ ds) by (try done; apply Ha).
  destruct (decide (refused ds msg)) as [Hr|Hr].
  - rewrite decide_False by tauto. rewrite st_bind_unfold.
    by destruct (ingest_loop sid s messages now k) as [[]].
  - rewrite decide_True by tauto. rewrite st_bind_unfold. unfold fmap, st_fmap. done.
Qed.

Lemma ingest_loop_skip sid s v messages now k :
  (forall d, v <> VDict d) -> ingest_loop sid s (v :: messages) now k = ingest_loop sid s messages now k.
Proof. intros Hv. by destruct v; try (by edestruct Hv). Qed.

Lemma set_disk_twice sid ds1 ds2 k :
  set_disk (<[sid := ds2]> (disk (set_disk (<[sid := ds1]> (disk k)) k)))
    (set_disk (<[sid := ds1]> (disk k)) k) = set_disk (<[sid := ds2]> (disk k)) k.
Proof. unfold set_disk. simpl. by rewrite insert_insert_eq. Qed.

Lemma ingested_refused sid s messages now ds ds' ids msg :
  ingested sid s messages now ds ds' ids -> refused ds msg -> refused ds' msg.
Proof.
  intros [Hf Hk _ _ _ _] Hr.
  assert (Hp : present ds' = present ds) by by rewrite <-Hf.
  unfold refused in *. rewrite Hp. destruct Hr as [?|[?|[[f ?]|[f ?]]]]; eauto 10.
Qed.

Lemma ingested_skip sid s v messages now ds ds' ids :
  (forall msg, v = VDict msg -> accepted sid s msg -> refused ds msg) ->
  ingested sid s messages now ds ds' ids -> ingested sid s (v :: messages) now ds ds' ids.
Proof.
  intros Hv Hi. pose proof Hi as [Hf Hk Ho Hn Hd Hdone]. split; try done.
  - intros id Hid. destruct (Hn id Hid) as (msg & Hin & Hmsg). exists msg. split; [by right|done].
  - intros msg [<-|Hin]%elem_of_cons Ha; [|by apply Hdone].
    eapply ingested_refused; [done|]. by apply Hv.
Qed.

Lemma ingested_cons sid s msg messages now ds ds' ids :
  accepted sid s msg -> ~ refused ds msg ->
  ingested sid s messages now (with_record msg now ds) ds' ids ->
  ingested sid s (VDict msg :: messages) now ds ds' (dstr msg "msg_id" :: ids).
Proof.
  intros Ha Hr Hi. pose proof Hi as [Hf Hk Ho Hn Hd Hdone].
  assert (Hnew : history ds !! dstr msg "msg_id" = None).
  { apply eq_None_not_Some. unfold refused in Hr. tauto. }
  unfold with_record in *. simpl in *. set (id := dstr msg "msg_id") in *.
  assert (Hid : history ds' !! id = Some {| content := Some (VDict msg); mtime := now |}).
  { apply Hk, lookup_insert_eq. }
  split.
  - transitivity (set_history (history ds) (set_history (<[id:={| content := Some (VDict msg);
      mtime := now |}]> (history ds)) ds')); [done|]. rewrite Hf. by destruct ds.
  - intros i f Hi'. apply Hk. rewrite lookup_insert_ne; [done|]. congruence.
  - intros i f Hi'. destruct (decide (i = id)) as [->|Hne]; [right; by left|].
    destruct (Ho _ _ Hi') as [Hin|Hin]; [|right; by right].
    rewrite lookup_insert_ne in Hin by done. by left.
  - intros i [->|Hin]%elem_of_cons.
    + exists msg. split_and!; try done; [by left|apply Ha..].
    + destruct (Hn i Hin) as (m & Hm & E & Hacc & Hnone & Hs). exists m.
      apply lookup_insert_None in Hnone as [? _]. split_and!; try done; [by right|apply Hacc..].
  - constructor; [|done]. intros Hin. destruct (Hn _ Hin) as (m & _ & _ & _ & Hnone & _).
    by rewrite lookup_insert_eq in Hnone.
  - intros m [[= ->]|Hin]%elem_of_cons Hacc; [|by apply Hdone].
    right; right; left. fold id. by rewrite Hid.
Qed.

Lemma ingest_loop_spec sid s messages now k ds ids k' :
  validate_agent_id sid = Ok tt -> disk k !! sid = Some ds ->
  ingest_loop sid s messages now k = (Ok ids, k') ->
  (exists ds', k' = set_disk (<[sid := ds']> (disk k)) k /\ ingested sid s messages now ds ds' ids) /\
  (forall msg, VDict msg ∈ messages -> exists ok, validate_message (VDict msg) (Some sid) None None = Ok ok).
Proof.
  intros Hs. revert k ds ids k'. induction messages as [|v messages IH]; intros k ds ids k' Hd E.
  - apply st_ret_Ok in E as [-> ->]. split; [|by intros ? ?%elem_of_nil].
    exists ds. split; [rewrite insert_id by done; by destruct k|].
    split; try done; [by destruct ds|intros; by left|set_solver|constructor|set_solver].
  - assert ((exists d, v = VDict d) \/ forall d, v <> VDict d) as [[msg ->]|Hv].
    { destruct v; try (by right); left; by eexists. }
    2:{ rewrite ingest_loop_skip in E by done.
        destruct (IH _ _ _ _ Hd E) as [(ds' & -> & Hi) Hval]. split.
        - exists ds'. split; [done|]. apply ingested_skip; [|done]. intros msg ->. by edestruct Hv.
        - intros msg [<-|Hin]%elem_of_cons; [by edestruct Hv|by apply Hval]. }
    destruct (validate_message (VDict msg) (Some sid) None None) as [ok|e] eqn:Hok.
    2:{ cbn [ingest_loop] in E. rewrite st_bind_unfold in E. unfold lift in E. by rewrite Hok in E. }
    rewrite (ingest_loop_cons _ _ _ _ _ _ ds ok) in E by done. case_decide as Hc.
    + destruct Hc as [Ha Hr]. apply st_fmap_Ok in E as (ids' & E & ->).
      destruct (IH _ (with_record msg now ds) _ _ (lookup_insert_eq (disk k) sid _) E)
        as [(ds' & -> & Hi) Hval].
      split; [exists ds'; split; [apply set_disk_twice|by apply ingested_cons]|].
      intros m [[= ->]|Hin]%elem_of_cons; [by exists ok|by apply Hval].
    + destruct (IH _ _ _ _ Hd E) as [(ds' & -> & Hi) Hval]. split.
      * exists ds'. split; [done|]. apply ingested_skip; [|done]. intros m [= <-] Ha.
        destruct (decide (refused ds msg)); tauto.
      * intros m [[= ->]|Hin]%elem_of_cons; [by exists ok|by apply Hval].
Qed.

Lemma ingest_loop_again sid s messages now k ds :
  validate_agent_id sid = Ok tt -> disk k !! sid = Some ds ->
  (forall msg, VDict msg ∈ messages -> accepted sid s msg -> refused ds msg) ->
  (forall msg, VDict msg ∈ messages -> exists ok, validate_message (VDict msg) (Some sid) None None = Ok ok) ->
  ingest_loop sid s messages now k = (Ok [], k).
Proof.
  intros Hs Hd. induction messages as [|v messages IH]; intros Hr Hval; [done|].
  assert (Hrest : ingest_loop sid s messages now k = (Ok [], k)).
  { apply IH; intros msg Hin; [apply Hr|apply Hval]; by right. }
  assert ((exists d, v = VDict d) \/ forall d, v <> VDict d) as [[msg ->]|Hv].
  { destruct v; try (by right); left; by eexists. }
  2:{ by rewrite ingest_loop_skip. }
  destruct (Hval msg) as [ok Hok]; [by left|].
  rewrite (ingest_loop_cons _ _ _ _ _ _ ds ok) by done. rewrite decide_False; [done|].
  intros [Ha Hn]. apply Hn, Hr; [by left|done].
Qed.

(** C10: Ingesting a batch of remote messages, when it does not raise, records
    in the history of the session exactly the messages that validate, come
    from the roster and go to the manager and whose identifier is new, each
    once and under its own identifier, and nothing else changes in the kernel
    or in its files; whatever was recorded stays.  Ingesting the same batch
    again records nothing. *)
Theorem ingest_spec sid messages now k ids k' :
  coherent k -> ingest sid messages now k = (Ok ids, k') ->
  exists s ds ds', sessions k !! sid = Some s /\ disk k !! sid = Some ds /\
    k' = set_disk (<[sid := ds']> (disk k)) k /\ ingested sid s messages now ds ds' ids /\
    forall now', ingest sid messages now' k' = (Ok [], k').
Proof.
  intros Hk (s & ? & [-> Hs]%require_session_Ok & E)%st_bind_Ok.
  destruct (live_session _ _ _ Hk Hs) as [Hok (m & Hm & _) _ _ _].
  destruct (disk k !! sid) as [ds|] eqn:Hd; [|done]. clear m Hm.
  destruct (ingest_loop_spec _ _ _ _ _ _ _ _ (so_sid _ _ Hok) Hd E) as [(ds' & -> & Hi) Hval].
  exists s, ds, ds'. split_and!; try done. intros now'. unfold ingest. rewrite st_bind_unfold, require_session_eq.
  simpl. rewrite Hs. apply (ingest_loop_again _ _ _ _ _ ds'); [apply Hok|apply lookup_insert_eq| |done].
  intros msg Hin Ha. by apply (ig_done _ _ _ _ _ _ _ Hi).
Qed.

(** ** Notices, registration, remote batches *)
Section notices.
Context {T : Type} `{DeliverySinkLaws T}.

Lemma deliver_all_topics sid from p l (kt : kernel * T) :
  topic_subscriptions (deliver_all sid from p l kt).2.1 = topic_subscriptions kt.1 /\
  sessions (deliver_all sid from p l kt).2.1 = sessions kt.1.
Proof.
  revert kt. induction l as [|x l IH]; intros kt; [done|]. simpl. rewrite st_bind_unfold.
  assert (Hone : topic_subscriptions (deliver_one sid from p x kt).2.1 = topic_subscriptions kt.1 /\
                 sessions (deliver_one sid from p x kt).2.1 = sessions kt.1).
  { unfold deliver_one. rewrite st_bind_unfold.
    destruct (deliver_frame sid x.1 (p_envelope p) x.2 (p_created_at p) from kt)
      as (H1 & H2 & H3 & H4 & _).
    by destruct (deliver _ _ _ _ _ _ kt) as [[]]. }
  destruct (deliver_one sid from p x kt) as [[r|e] kt1]; simpl in *; [|done].
  rewrite st_bind_unfold. specialize (IH kt1).
  destruct (deliver_all sid from p l kt1) as [[rs|e] kt2]; simpl in *; destruct IH, Hone;
    split; congruence.
Qed.

Lemma notice_Ok uuid now sid from topic e (kt kt' : kernel * T) rs :
  notice uuid now sid from topic e kt = (Ok rs, kt') ->
  exists p k1, notice_plan uuid now sid from topic e kt.1 = (Ok p, k1) /\
    map (fun r => (dr_recipient r, dr_msg_id r)) rs = p_targets p /\
    topic_subscriptions kt'.1 = topic_subscriptions k1 /\ sessions kt'.1 = sessions k1.
Proof.
  intros (p & kt1 & Hp & E)%st_bind_Ok. apply on_kernel_Ok in Hp as [Hp _].
  exists p, kt1.1. pose proof (deliver_all_topics sid from p (p_targets p) kt1) as Ht.
  rewrite E in Ht. apply deliver_all_Ok in E. split_and!; try done; apply Ht.
Qed.

(** A notice to a topic with subscribers goes to them but not to its
    sender, and unsubscribes the sender from the topic: the set that is
    narrowed to the recipients is the registered set itself.  When the sender
    was the only subscriber the topic has none left, and the next notice, by
    anyone, goes to all the members of the room instead. *)
Theorem notice_unsubscribes uuid now sid from topic e (kt kt' : kernel * T) rs :
  topic_members kt.1 sid topic <> ∅ ->
  notice uuid now sid from topic e kt = (Ok rs, kt') ->
  (forall a, a ∈ map dr_recipient rs <-> a ∈ topic_members kt.1 sid topic /\ a <> from) /\
  topic_members kt'.1 sid topic = topic_members kt.1 sid topic ∖ {[from]} /\
  (topic_members kt.1 sid topic = {[from]} ->
   forall uuid' now' from' e' kt'' rs', notice uuid' now' sid from' topic e' kt' = (Ok rs', kt'') ->
   exists s, sessions kt.1 !! sid = Some s /\
   forall a, a ∈ map dr_recipient rs' <-> a ∈ room_members (s_acl s) /\ a <> from').
Proof.
  intros Hne (p & k1 & Hp & Hrs & Ht & Hse)%notice_Ok.
  apply notice_plan_Ok in Hp as (s & Hs & _ & Hp). rewrite decide_False in Hp by done.
  destruct Hp as [-> ->]. simpl in Ht, Hse.
  assert (Htm : topic_members kt'.1 sid topic = topic_members kt.1 sid topic ∖ {[from]}).
  { unfold topic_members at 1. rewrite Ht, lookup_insert_eq. simpl. by rewrite lookup_insert_eq. }
  destruct (targets_of_plan uuid now e _ _ Hrs) as [Hr _].
  split_and!; [|done|].
  - intros a. rewrite Hr, elem_of_sort_strs, elem_of_elements. set_solver.
  - intros Hsole uuid' now' from' e' kt'' rs' (p' & k2 & Hp' & Hrs' & _)%notice_Ok.
    apply notice_plan_Ok in Hp' as (s' & Hs' & _ & Hp'). rewrite decide_True in Hp' by set_solver.
    destruct Hp' as [_ ->]. destruct (targets_of_plan uuid' now' e' _ _ Hrs') as [Hr' _].
    exists s'. rewrite Hse in Hs'. split; [done|].
    intros a. by rewrite Hr', elem_of_sorted_set, without_spec.
Qed.

(** The state after each of some deliveries was attempted. *)
Definition attempted (sid from : string) (p : plan) (l : list (string * string)) (kt : kernel * T) :
    kernel * T :=
  foldl (fun kt x => (deliver_one sid from p x kt).2) kt l.

(** How many deliveries a serial fan-out attempts: all, or up to the first
    that raises. *)
Lemma deliver_all_attempts sid from p l (kt : kernel * T) :
  exists n, (deliver_all sid from p l kt).2 = attempted sid from p (take n l) kt /\
    (n <= length l)%nat /\
    if is_ok (deliver_all sid from p l kt).1 then n = length l
    else exists i x, n = S i /\ l !! i = Some x /\
           is_ok (deliver_one sid from p x (attempted sid from p (take i l) kt)).1 = false.
Proof.
  revert kt. induction l as [|x l IH]; intros kt; simpl; [by exists 0%nat|].
  rewrite st_bind_unfold. destruct (deliver_one sid from p x kt) as [[r|e'] kt1] eqn:Hx.
  - destruct (IH kt1) as (n & Hn & Hle & Hok). exists (S n). rewrite st_bind_unfold. simpl. rewrite Hx.
    destruct (deliver_all sid from p l kt1) as [[rs|e2] kt2]; simpl in *.
    + split_and!; [done|lia|by f_equal].
    + split_and!; [done|lia|]. destruct Hok as (i & y & -> & Hy & Hf).
      exists (S i), y. simpl. by rewrite Hx.
  - exists 1%nat. simpl. rewrite Hx. split_and!; [done|lia|].
    exists 0%nat, x. simpl. by rewrite Hx.
Qed.
Lemma deliver_pool_attempts sid from p l (kt : kernel * T) :
  (deliver_pool sid from p l kt).2 = attempted sid from p l kt.
Proof. revert kt. induction l as [|x l IH]; intros kt; simpl; [done|]. apply IH. Qed.

(** A broadcast to at least [_BROADCAST_PARALLEL_MIN] recipients attempts
    every delivery even when some raise; a smaller one stops at the first
    recipient whose delivery raises, and the ones after it get nothing. *)
Theorem broadcast_attempts uuid now sid from e (kt : kernel * T) p :
  broadcast_plan uuid now sid from e kt.1 = (Ok p, kt.1) ->
  let r := broadcast uuid now sid from e kt in
  let targets := p_targets p in
  if Nat.leb _BROADCAST_PARALLEL_MIN (length targets)
  then r.2 = attempted sid from p targets kt
  else exists n, r.2 = attempted sid from p (take n targets) kt /\ (n <= length targets)%nat /\
    if is_ok r.1 then n = length targets
    else exists i x, n = S i /\ targets !! i = Some x /\
           is_ok (deliver_one sid from p x (attempted sid from p (take i targets) kt)).1 = false.
Proof.
  intros Hp. cbv zeta. unfold broadcast. rewrite st_bind_unfold. unfold on_kernel. rewrite Hp. cbn [fst snd].
  replace (kt.1, kt.2) with kt by by destruct kt.
  destruct (Nat.leb _ _); [apply deliver_pool_attempts|apply deliver_all_attempts].
Qed.
End notices.

(** Registration on every branch: it needs the session, an agent of its
    roster, and, when a token has been set for the agent, that token;
    otherwise it raises and changes nothing.  When it succeeds the routing
    table gains exactly this location, and tokens, channels and other
    sessions stay as they were. *)
Theorem register_spec loc sid token now k :
  coherent k ->
  let key := (sid, l_agent_id loc) in
  let r := register loc sid token now k in
  match sessions k !! sid with
  | None => r = (Raise (ValueError "session not found"), k)
  | Some s =>
    if bool_decide (l_agent_id loc ∈ s_roster s) then
      if bool_decide (token_mismatch k key token)
      then r = (Raise (PermissionError "registration token mismatch"), k)
      else r.1 = Ok loc /\ routing r.2 = <[key := loc]> (routing k) /\
        registration_tokens r.2 = registration_tokens k /\ channels r.2 = channels k /\
        (forall sid', sid' <> sid -> sessions r.2 !! sid' = sessions k !! sid' /\
                                     metas r.2 !! sid' = metas k !! sid' /\
                                     disk r.2 !! sid' = disk k !! sid')
    else r = (Raise (ValueError "agent not in roster"), k)
  end.
Proof.
  intros Hk. cbv zeta. rewrite register_eq. destruct (sessions k !! sid) as [s|] eqn:Hs; [|done].
  case_bool_decide as Hin; [|done]. case_bool_decide as Ht; [done|].
  pose proof (routed_live loc sid s k Hk Hs Hin) as Hk2.
  destruct (register_modes_frame sid s loc now _ (live_session _ _ _ Hk2 Hs))
    as (k3 & E & H2 & H3 & H4 & H5 & H6).
  rewrite st_bind_unfold, E. simpl.
  split_and!; [done|by rewrite H2|by rewrite H3|by rewrite H4|].
  intros sid' Hne. destruct (H6 sid' Hne) as [-> ->]. rewrite H5. split_and!; try done.
  simpl. by rewrite lookup_insert_ne.
Qed.

(** [batch_release_remote] reports for every message of a batch the status
    of the last command of the remote line: when the last release succeeds all
    are reported released, whatever became of the others, and when it fails
    none is, although the others may have been released. *)
Theorem batch_reports_last run msg_ids id x :
  dget (batch_release_remote run (msg_ids ++ [id])) x =
  if decide (x ∈ msg_ids ++ [id]) then Some (run id =? 0) else None.
Proof.
  unfold batch_release_remote. assert (batch_ok run (msg_ids ++ [id]) = (run id =? 0)) as ->.
  { unfold batch_ok. by rewrite last_snoc. }
  generalize (run id =? 0). intros ok. induction (msg_ids ++ [id]) as [|y l IH] using rev_ind; [done|].
  rewrite foldl_app. simpl. rewrite dget_dset, IH.
  destruct (decide (y = x)) as [->|Hne]; [rewrite decide_True by set_solver; done|].
  destruct (decide (x ∈ l)); [rewrite decide_True by set_solver|rewrite decide_False by set_solver]; done.
Qed.

(** *** The groups of a pull *)
Lemma foldl_groups (l : list (string * AgentLocation)) g :
  dict_wf g ->
  let g' := foldl (fun groups (x : string * AgentLocation) => dset groups (l_mailbox_root x.2)
                     (default [] (dget groups (l_mailbox_root x.2)) ++ [x.1])) g l in
  dict_wf g' /\
  forall root, default [] (dget g' root) =
    default [] (dget g root) ++ map fst (List.filter (fun x => String.eqb (l_mailbox_root x.2) root) l).
Proof.
  revert g. induction l as [|[a loc] l IH]; intros g Hg; simpl.
  - split; [done|]. intros root. by rewrite app_nil_r.
  - destruct (IH (dset g (l_mailbox_root loc) (default [] (dget g (l_mailbox_root loc)) ++ [a])))
      as [H1 H2]; [by apply dset_wf|].
    split; [exact H1|]. intros root. rewrite H2, dget_dset.
    destruct (decide (l_mailbox_root loc = root)) as [->|Hne].
    + rewrite String.eqb_refl. simpl. by rewrite <-app_assoc.
    + by destruct (String.eqb_spec (l_mailbox_root loc) root).
Qed.

(** [pull_remote] reads each mailbox root of a host once, on behalf of
    exactly the agents of that host and root that the manager pulls from. *)
Theorem pull_groups_spec k sid s from_host :
  let groups := pull_groups k sid s from_host in
  NoDup groups.*1 /\
  forall root aid, aid ∈ default [] (dget groups root) <->
    exists loc, routing k !! (sid, aid) = Some loc /\ l_mailbox_root loc = root /\
      l_host_alias loc = from_host /\
      (l_return_mode loc = Some MANAGER_PULL \/
       l_return_mode loc = None /\ dget (s_return_modes s) aid = Some "manager-pull").
Proof.
  cbv zeta. unfold pull_groups.
  destruct (foldl_groups (List.filter (fun x : string * AgentLocation =>
    is_pull_agent k s x.1 x.2 from_host) (session_routing sid k)) []) as [H1 H2]; [constructor|].
  split; [exact H1|]. intros root aid. rewrite H2. simpl.
  assert (Hp : forall loc, is_pull_agent k s aid loc from_host = true <->
    l_host_alias loc = from_host /\
    (l_return_mode loc = Some MANAGER_PULL \/
     l_return_mode loc = None /\ dget (s_return_modes s) aid = Some "manager-pull")).
  { intros loc. unfold is_pull_agent. rewrite andb_true_iff, String.eqb_eq.
    destruct (l_return_mode loc) as [[]|]; simpl; [naive_solver..|].
    destruct (dget (s_return_modes s) aid) as [v|]; [rewrite String.eqb_eq|]; naive_solver. }
  rewrite (list_elem_of_fmap fst). split.
  - intros ([a loc] & -> & Hin%list_elem_of_In). apply filter_In in Hin as [Hin Hr].
    apply filter_In in Hin as [Hin Hpull]. apply list_elem_of_In, session_routing_elem in Hin.
    exists loc. simpl in *. apply String.eqb_eq in Hr. apply Hp in Hpull. tauto.
  - intros (loc & Hr & Hroot & Hl). exists (aid, loc). split; [done|]. apply list_elem_of_In.
    apply filter_In. split; [|simpl; by apply String.eqb_eq]. apply filter_In.
    split; [by apply list_elem_of_In, session_routing_elem|]. by apply Hp.
Qed.

(** ** The hypotheses at work *)
Definition demo_uuid (i : nat) : string := "m" +:+ pretty i.
Lemma demo_uuid_inj i j : demo_uuid i = demo_uuid j -> i = j.
Proof. unfold demo_uuid. intros E%string_app_inj_l. by apply pretty_nat_inj in E. Qed.

Definition demo_location : AgentLocation :=
  {| l_agent_id := "w1"; l_host_alias := "host1"; l_backend := "cli"; l_capabilities := ["code"];
     l_execution_mode := Some MAILBOX_WORKER; l_mailbox_root := "";
     l_return_mode := Some MANAGER_PULL |}.
Definition demo_envelope : Envelope :=
  {| e_subject := "hello"; e_body := "text"; e_kind := "NOTICE"; e_attachments := [];
     e_reply_to := ""; e_run_id := ""; e_request_id := ""; e_trace_id := ""; e_causation_id := "";
     e_require_ack := false; e_receipt_type := "" |}.
Definition demo_ops : list kernel_op :=
  [KCreate "s1" "mgr" ["w1"; "w2"] None [] [] 5000;
   KToken "s1" "w1" "secret"; KRegister demo_location "s1" "secret" 6000;
   KChannel "s1" "dev" ["w1"; "mgr"] None;
   KSubscribe "s1" "w1" {| sub_channels := []; sub_kinds := []; sub_topics := ["news"] |};
   KUnregister "s1" "w2"; KRegister demo_location "s1" "wrong" 7000].
#[export] Instance demo_sink : DeliverySink unit := LocalDeliverySink demo_repr 8000.
#[export] Instance demo_sink_laws : DeliverySinkLaws unit := LocalDeliverySink_laws demo_repr 8000.
Definition demo_state : kernel * unit :=
  foldl (fun kt op => kernel_step demo_repr op kt) (empty_kernel, tt) demo_ops.

Lemma demo_coherent : coherent demo_state.1.
Proof. apply (kernel_steps_coherent demo_repr demo_ops (empty_kernel, tt)), coherent_empty. Qed.

Lemma kernel_coherent_witness : coherent demo_state.1.
Proof. apply (kernel_coherent demo_repr demo_ops tt). Defined.

Lemma restart_roundtrip_witness :
  base.size (sessions demo_state.1) = 1%nat /\ base.size (routing demo_state.1) = 1%nat /\
  _load_persisted_sessions (disk demo_state.1) (metas demo_state.1) = Ok (restarted demo_state.1).
Proof.
  split; [by vm_compute|]. split; [by vm_compute|]. apply restart_roundtrip, demo_coherent.
Defined.

(** Two inbox files; the second was created first but is listed last. *)
Definition demo_file (id created : string) (at_ : Z) : string * file :=
  (id, {| content := Some (VDict [("msg_id", VStr id); ("created_at", VStr created)]); mtime := at_ |}).
Definition demo_listing : list (string * file) :=
  [demo_file "a" "2026-01-01T00:00:01" 1; demo_file "b" "2026-01-01T00:00:02" 2;
   demo_file "c" "2026-01-01T00:00:02" 3].
Definition demo_disorder : list (string * file) :=
  [demo_file "a" "2026-01-01T00:00:02" 1; demo_file "b" "2026-01-01T00:00:01" 2].

Lemma poll_pages_complete_witness :
  poll_pages 3 demo_listing "" 2 =
    [take 2 (readable demo_listing); drop 2 (readable demo_listing)] /\
  concat (poll_pages 3 demo_listing "" 2) = readable demo_listing.
Proof.
  split; [vm_compute; reflexivity|]. apply poll_pages_complete.
  - cbn. repeat constructor.
  - cbn. repeat constructor.
  - vm_compute. lia.
Defined.

Lemma poll_skips_witness :
  let m := nth 0 (readable demo_disorder) ([] : pydict) in
  let m' := nth 1 (readable demo_disorder) ([] : pydict) in
  m' ∈ readable demo_disorder /\
  po_messages (poll_list demo_disorder "" 1) = [m] /\
  m' ∉ concat (poll_pages 10 demo_disorder (po_cursor (poll_list demo_disorder "" 1)) 1).
Proof.
  cbv zeta. split; [cbn; right; left|]. split; [vm_compute; reflexivity|].
  apply (poll_skips demo_disorder "" 1 10 (nth 0 (readable demo_disorder) ([] : pydict))).
  - cbn. repeat constructor.
  - vm_compute. reflexivity.
  - vm_compute. reflexivity.
Defined.

Definition demo_target (kind : AddressKind) : Address :=
  {| ad_kind := kind; ad_agent_id := "w1"; ad_channel_id := "dev"; ad_topic := "news" |}.

Lemma send_authorized_witness : may_send demo_state.1 "s1" "mgr" (demo_target DIRECT).
Proof.
  apply (send_authorized demo_uuid 8000 "s1" "mgr" (demo_target DIRECT) demo_envelope demo_state
           (send demo_uuid 8000 "s1" "mgr" (demo_target DIRECT) demo_envelope demo_state).2
           {| sr_msg_id := "m1"; sr_status := "delivered"; sr_target := "w1"; sr_queued := false |}).
  vm_compute. reflexivity.
Defined.

Definition demo_receipt (i : nat) (a : string) : DeliveryReceipt :=
  {| dr_msg_id := demo_uuid i; dr_recipient := a; dr_status := "delivered"; dr_error := "" |}.

Lemma broadcast_reaches_roster_witness :
  let rs := [demo_receipt 1 "w1"; demo_receipt 2 "w2"] in
  exists s, sessions demo_state.1 !! "s1" = Some s /\
  (forall a, a ∈ map dr_recipient rs <-> a ∈ s_roster s /\ a <> "mgr") /\
  NoDup (map dr_recipient rs) /\ NoDup (map dr_msg_id rs).
Proof.
  apply (broadcast_reaches_roster demo_uuid 8000 "s1" "mgr" demo_envelope demo_state
           (broadcast demo_uuid 8000 "s1" "mgr" demo_envelope demo_state).2).
  - apply demo_coherent.
  - apply demo_uuid_inj.
  - vm_compute. reflexivity.
Defined.

Lemma notice_unsubscribes_witness :
  let kt' := (notice demo_uuid 8000 "s1" "w1" "news" demo_envelope demo_state).2 in
  topic_members demo_state.1 "s1" "news" = {["w1"]} /\
  topic_members kt'.1 "s1" "news" = topic_members demo_state.1 "s1" "news" ∖ {["w1"]}.
Proof.
  split; [vm_compute; reflexivity|].
  eapply (notice_unsubscribes demo_uuid 8000 "s1" "w1" "news" demo_envelope demo_state _ []).
  - vm_compute. discriminate.
  - vm_compute. reflexivity.
Defined.

Lemma broadcast_attempts_witness :
  let r := broadcast demo_uuid 8000 "s1" "mgr" demo_envelope demo_state in
  exists n, r.2 = attempted "s1" "mgr" (plan_for demo_uuid 8000 demo_envelope ["w1"; "w2"])
                    (take n [("w1", "m1"); ("w2", "m2")]) demo_state /\ (n <= 2)%nat.
Proof.
  pose proof (broadcast_attempts demo_uuid 8000 "s1" "mgr" demo_envelope demo_state
    (plan_for demo_uuid 8000 demo_envelope ["w1"; "w2"]) ltac:(vm_compute; reflexivity)) as (n & H1 & H2 & _).
  exists n. split; [exact H1|exact H2].
Defined.

Definition demo_message (id : string) : pydict :=
  Message.to_dict
    (MailboxStore.message_of "s1" (local_draft "mgr" demo_envelope "w1") [] id 9000).

Lemma ingest_spec_witness :
  exists s ds ds', sessions demo_state.1 !! "s1" = Some s /\ disk demo_state.1 !! "s1" = Some ds /\
  ingested "s1" s [VDict (demo_message "x1"); VNone; VDict (demo_message "x1")] 9000 ds ds' ["x1"].
Proof.
  destruct (ingest_spec "s1" [VDict (demo_message "x1"); VNone; VDict (demo_message "x1")] 9000
    demo_state.1 ["x1"]
    (ingest "s1" [VDict (demo_message "x1"); VNone; VDict (demo_message "x1")] 9000 demo_state.1).2
    demo_coherent ltac:(vm_compute; reflexivity)) as (s & ds & ds' & H1 & H2 & _ & H3 & _).
  exists s, ds, ds'. split; [exact H1|split; [exact H2|exact H3]].
Defined.

Lemma register_spec_witness :
  register demo_location "s1" "wrong" 9000 demo_state.1
  = (Raise (PermissionError "registration token mismatch"), demo_state.1).
Proof. apply (register_spec demo_location "s1" "wrong" 9000 demo_state.1 demo_coherent). Defined.
