(* ===== verification/MailboxService.v ===== *)
(** * Mailbox service and command line
      (src/src/codeagent/mailbox/service.py, the send branch of mailbox/cli.py,
      LocalTransport.mailbox of transport/local.py)

    The service adds the acknowledgement discipline to the store: a message
    that demands a receipt is consumed only when its sender can be reached,
    and is parked otherwise.  Receipts go through the delivery sink of the
    kernel when there is one, and into the local store otherwise. *)
From S2P Require Import Prelude MailboxProtocol MailboxStore MailboxClaims SwarmKernel.

(** ** Sending *)
Record SvcReceipt := { v_status : string; v_msg_id : string; v_error : string; v_queued : bool;
                       v_detail : string }.

(** [send]: [suffix] is the random part of the identifier it generates. *)
Definition svc_send (py_repr : pyval -> string) (session_id : string) (d : draft)
    (msg_id : option string) (suffix : string) (now : Z) : st session SvcReceipt := fun s =>
  let mid := match msg_id with
             | Some id => if String.eqb id "" then gen_msg_id (d_from d) suffix now else id
             | None => gen_msg_id (d_from d) suffix now
             end in
  match MailboxStore.send py_repr session_id d (Some mid) [] now s with
  | (Ok detail, s') => (Ok {| v_status := "delivered"; v_msg_id := mid; v_error := "";
                              v_queued := false; v_detail := default "" detail |}, s')
  | (Raise (ValueError what), s') =>
    (Ok {| v_status := "failed"; v_msg_id := mid; v_error := what; v_queued := false;
           v_detail := "" |}, s')
  | (Raise e, s') => (Raise e, s')
  end.

(** ** The command line of [send] *)
Definition SEND_OPTIONS : list string :=
  ["--session"; "--from"; "--to"; "--subject"; "--body"; "--kind"; "--reply-to"; "--run-id";
   "--request-id"; "--causation-id"; "--trace-id"; "--msg-id"; "--receipt-type"; "--attachment"].

Section cli.
(** What argparse takes for an option and not for a value (a text that starts
    with a dash, with exceptions), [json.loads] and [repr]. *)
Context (option_like : string -> bool) (json_loads : string -> option pyval).
Context (py_repr : pyval -> string).

(** The options with their values, for command lines that spell every option
    out; [None] is argparse's exit with status 2. *)
Fixpoint parse_options (args : list string) : option (list (string * string)) :=
  match args with
  | [] => Some []
  | opt :: args' =>
    if String.eqb opt "--require-ack" then ((opt, "") ::.) <$> parse_options args'
    else match args' with
         | v :: args'' =>
           if bool_decide (opt ∈ SEND_OPTIONS) && negb (option_like v)
           then ((opt, v) ::.) <$> parse_options args'' else None
         | [] => None
         end
  end.

(** The last value of an option. *)
Definition opt_value (o : list (string * string)) (name dflt : string) : string :=
  match last (List.filter (fun x => String.eqb (fst x) name) o) with
  | Some x => x.2
  | None => dflt
  end.
Definition opt_values (o : list (string * string)) (name : string) : list string :=
  map snd (List.filter (fun x => String.eqb (fst x) name) o).

Definition _parse_attachment_args (raw : list string) : res (list AttachmentRef) :=
  res_map (fun item =>
    match json_loads item with
    | Some (VDict d) => AttachmentRef.from_dict d
    | Some _ => Raise (ValueError "--attachment must be a JSON object")
    | None => Raise (ValueError "--attachment is not valid JSON")
    end) raw.

Definition cli_draft (o : list (string * string)) (refs : list AttachmentRef) : draft :=
  let v name := opt_value o name "" in
  {| d_from := v "--from"; d_to := v "--to"; d_subject := v "--subject"; d_body := v "--body";
     d_kind := opt_value o "--kind" "TASK"; d_reply_to := v "--reply-to"; d_run_id := v "--run-id";
     d_request_id := v "--request-id"; d_command_id := ""; d_trace_id := v "--trace-id";
     d_causation_id := v "--causation-id";
     d_attachments := match refs with
                      | [] => None
                      | l => Some (VList (map (fun a => VDict (AttachmentRef.to_dict a)) l))
                      end;
     d_require_ack := bool_decide ("--require-ack" ∈ o.*1);
     d_receipt_type := v "--receipt-type" |}.

(** The text of an exception. *)
Definition exn_text (e : pyexn) : string :=
  match e with
  | ValueError w | PermissionError w | KeyError w | IndexError w | TypeError w | RuntimeError w
  | TimeoutError w | AttributeError w | OSError w | AppError _ w | GatewayError w => w
  end.

(** The [send] branch of [main]; a [ValueError] exits with status 2 and any
    other exception with 1. *)
Definition send_branch (o : list (string * string)) (suffix : string) (now : Z) :
    st session unit :=
  let required := ["--session"; "--from"; "--to"; "--subject"; "--body"] in
  _ ← ensure (forallb (fun n => negb (String.eqb (opt_value o n "") "")) required)
        (ValueError "send requires");
  refs ← lift (_parse_attachment_args (opt_values o "--attachment"));
  r ← svc_send py_repr (opt_value o "--session" "") (cli_draft o refs)
        (match last (opt_values o "--msg-id") with Some id => Some id | None => None end) suffix now;
  ensure (negb (String.eqb (v_status r) "failed"))
    (ValueError (if String.eqb (v_error r) "" then "send failed" else v_error r)).

(** The exit status and the error output of a command on one session. *)
Definition exit_of (r : res unit) : Z * string :=
  match r with
  | Ok _ => (0, "")
  | Raise (ValueError w) => (2, w)
  | Raise e => (1, "error: " +:+ exn_text e)
  end.

(** [LocalTransport.mailbox] on the arguments of a [send]: the exit status
    and the error output. *)
Definition cli_send (args : list string) (suffix : string) (now : Z) :
    st (gmap string session) (Z * string) := fun disk =>
  match args with
  | cmd :: opts =>
    match (if String.eqb cmd "send" then parse_options opts else None) with
    | Some o =>
      if bool_decide (opt_value o "--kind" "TASK" ∉ VALID_KINDS)
      then (Ok (2, "invalid choice"), disk) else
      let sid := opt_value o "--session" "" in
      let r := send_branch o suffix now (default empty_session (disk !! sid)) in
      (Ok (exit_of r.1), <[sid := r.2]> disk)
    | None => (Ok (2, "usage"), disk)
    end
  | [] => (Ok (0, ""), disk)
  end.

(** The [session-init] command, for the command lines that deliveries build:
    the options in this order, [--acl] last or absent. *)
Definition init_branch (session_id manager agents : string) (acl : option string) (now : Z) :
    st session unit :=
  a ← (match acl with
       | Some j => if String.eqb j "" then mret None
                   else match json_loads j with
                        | Some v => mret (match v with VNone => None | v => Some v end)
                        | None => raise (ValueError "not JSON")
                        end
       | None => mret None
       end);
  _ ← session_init session_id manager (split_all ","%char agents) a None None now;
  mret tt.
Definition init_line (args : list string) : option (string * string * string * option string) :=
  match args with
  | ["--session"; s; "--manager"; m; "--agents"; a] =>
    if option_like s || option_like m || option_like a then None else Some (s, m, a, None)
  | ["--session"; s; "--manager"; m; "--agents"; a; "--acl"; j] =>
    if option_like s || option_like m || option_like a || option_like j then None
    else Some (s, m, a, Some j)
  | _ => None
  end.
Definition cli_session_init (args : list string) (now : Z) : st (gmap string session) (Z * string) :=
  fun disk =>
  match init_line args with
  | Some (sid, manager, agents, acl) =>
    let r := init_branch sid manager agents acl now (default empty_session (disk !! sid)) in
    (Ok (exit_of r.1), <[sid := r.2]> disk)
  | None => (Ok (2, "usage"), disk)
  end.

(** The commands a delivery runs on another host. *)
Definition cli_mailbox (args : list string) (suffix : string) (now : Z) :
    st (gmap string session) (Z * string) :=
  match args with
  | "session-init" :: opts => cli_session_init opts now
  | _ => cli_send args suffix now
  end.
End cli.

(** ** Reading with the acknowledgement discipline *)

(** The markers of one agent's parked messages: the identifier and the
    [from] that the marker recorded. *)
Notation marks := (gmap string pyval).

(** Outcome of a read; [o_receipt] is [None] when no receipt was due. *)
Record ReadOutcome := { o_message : option pydict; o_status : string;
                        o_receipt : option SvcReceipt; o_error : string }.
Definition ACK_ROUTE_UNRESOLVED : string := "ack_route_unresolved".

Definition _sender_resolvable (m : option session_meta) (sender : pyval) : res bool :=
  if negb (truthy sender) then Ok false else
  match m with
  | None => Ok false
  | Some m => if unhashable sender then Raise (TypeError "unhashable type")
              else Ok (existsb (eq_str sender) (roster m))
  end.

(** The message asks for a receipt and is none itself. *)
Definition wants_receipt (msg : pydict) : bool :=
  truthy (dgetd msg "require_ack" VNone) && negb (eq_str (dgetd msg "kind" VNone) "RECEIPT").

(** What the section under the lock ends with: there is nothing to claim, the
    message has no route for its receipt, or it may be claimed. *)
Inductive inspection :=
| Nothing
| Unresolved (stem : string) (msg : pydict)
| Claim (stem : string).
(** ... and, after the claim. *)
Inductive locked_result :=
| NothingRead
| NoRoute (msg : pydict)
| Taken (msg : pydict).

Section inspect.
Context (m : option session_meta).

(** Markers whose sender has joined the roster are removed. *)
Definition unpark_resolved : st marks unit := fun ps =>
  st_iter (fun x =>
    r ← lift (_sender_resolvable m (snd x));
    if r : bool then modify (fun ps : marks => delete (fst x) ps) else mret tt) (map_to_list ps) ps.

(** The message file the caller asked for, or the oldest that is not parked. *)
Definition first_file (msg_id : string) (ps : marks) (files : list (string * file)) :
    option (string * file) :=
  if String.eqb msg_id "" then List.find (fun f => bool_decide (ps !! fst f = None)) files
  else List.find (fun f => String.eqb (fst f) msg_id) files.

(** An unreadable file counts as an empty object. *)
Definition first_dict (f : file) : res pydict :=
  match content f with
  | None => Ok []
  | Some (VDict d) => Ok d
  | Some _ => Raise (AttributeError "get")
  end.

Definition _park_ack_unresolved (stem : string) (msg : pydict) : st marks unit :=
  modify (fun ps => <[stem := dgetd msg "from" (VStr "")]> ps).

Definition inspect (msg_id : string) (files : list (string * file)) : st marks inspection :=
  match files with
  | [] => mret Nothing
  | _ =>
    _ ← unpark_resolved;
    ps ← gets (fun ps => ps);
    match first_file msg_id ps files with
    | None => mret Nothing
    | Some (stem, f) =>
      first ← lift (first_dict f);
      r ← (if wants_receipt first
           then lift (_sender_resolvable m (dgetd first "from" (VStr ""))) else mret true);
      if r : bool then mret (Claim stem)
      else _ ← _park_ack_unresolved stem first; mret (Unresolved stem first)
    end
  end.

(** The section under the lock, on one agent's directory and markers: the
    inspection, then the claim of exactly the inspected message.  [None]: the
    rounds of the claim have used up [fuel]. *)
Definition locked_read (session_id agent_id owner msg_id : string) (fuel : nat)
    (nonce : nat -> string) (now : Z) (x : agent * marks) :
    option (res locked_result * (agent * marks)) :=
  match inspect msg_id (list_messages (inbox x.1)) x.2 with
  | (Raise e, ps) => Some (Raise e, (x.1, ps))
  | (Ok Nothing, ps) => Some (Ok NothingRead, (x.1, ps))
  | (Ok (Unresolved _ first), ps) => Some (Ok (NoRoute first), (x.1, ps))
  | (Ok (Claim stem), ps) =>
    match MailboxClaims.read m session_id agent_id owner (dom ps) (Some stem) fuel nonce now x.1 with
    | None => None
    | Some (Raise e, a) => Some (Raise e, (a, ps))
    | Some (Ok None, a) => Some (Ok NothingRead, (a, ps))
    | Some (Ok (Some msg), a) => Some (Ok (Taken msg), (a, ps))
    end
  end.
End inspect.

Section service.
Context {T : Type} `{DeliverySink T}.
(** The values of the interpreter and its libraries: [repr], the UUIDv5 of a
    name, [json.dumps] of the receipt's body. *)
Context (py_repr : pyval -> string) (uuid5 : string -> string).
Context (receipt_body : string -> string -> string).
(** Whether a kernel was given, and with it a sink. *)
Context (wired : bool).

Notation state := ((kernel * T) * gmap (string * string) marks)%type.

Definition receipt_id (session_id reply_to agent_id : string) : string :=
  uuid5 (session_id +:+ ":" +:+ reply_to +:+ ":" +:+ agent_id +:+ ":READ").

Definition receipt_envelope (agent_id : string) (original : pydict) : Envelope :=
  let reply_to := dstr original "msg_id" in
  {| e_subject := "READ " +:+ reply_to; e_body := receipt_body reply_to agent_id;
     e_kind := "RECEIPT"; e_attachments := []; e_reply_to := reply_to;
     e_run_id := dstr original "run_id"; e_request_id := dstr original "request_id";
     e_trace_id := dstr original "trace_id"; e_causation_id := ""; e_require_ack := false;
     e_receipt_type := "READ" |}.
(** The same message for the store. *)
Definition receipt_draft (agent_id : string) (original : pydict) : draft :=
  let e := receipt_envelope agent_id original in
  {| d_from := agent_id; d_to := dstr original "from"; d_subject := e_subject e;
     d_body := e_body e; d_kind := "RECEIPT"; d_reply_to := e_reply_to e;
     d_run_id := e_run_id e; d_request_id := e_request_id e; d_command_id := "";
     d_trace_id := e_trace_id e; d_causation_id := ""; d_attachments := None;
     d_require_ack := false; d_receipt_type := "READ" |}.

(** The fallback: the receipt goes into the local store. *)
Definition store_receipt (session_id agent_id : string) (original : pydict) (rid : string)
    (now : Z) : st kernel SvcReceipt := fun k =>
  match on_session session_id
          (MailboxStore.send py_repr session_id (receipt_draft agent_id original) (Some rid) [] now) k
  with
  | (Ok _, k') => (Ok {| v_status := "delivered"; v_msg_id := rid; v_error := "";
                         v_queued := false; v_detail := "" |}, k')
  | (Raise (ValueError w), k') =>
    (Ok {| v_status := "failed"; v_msg_id := rid; v_error := w; v_queued := false;
           v_detail := "" |}, k')
  | (Raise e, k') => (Raise e, k')
  end.

Definition _emit_read_receipt (session_id agent_id : string) (original : pydict) (now : Z) :
    st (kernel * T) (option SvcReceipt) := fun kt =>
  let reply_to := dstr original "msg_id" in
  if String.eqb reply_to "" then (Ok None, kt) else
  let rid := receipt_id session_id reply_to agent_id in
  if wired then
    match SwarmKernel.deliver session_id (dstr original "from") (receipt_envelope agent_id original) rid
            (iso_timestamp now) agent_id kt with
    | (Ok r, kt') => (Ok (Some {| v_status := r_status r; v_msg_id := rid; v_error := "";
                                  v_queued := r_queued r; v_detail := "" |}), kt')
    | (Raise _, kt') => (Some <$> on_kernel (store_receipt session_id agent_id original rid now)) kt'
    end
  else (Some <$> on_kernel (store_receipt session_id agent_id original rid now)) kt.

Definition unresolved_text (first : pydict) : string :=
  "require_ack message " +:+ py_str py_repr (dgetd first "msg_id" (VStr "?"))
  +:+ " from " +:+ py_repr (dgetd first "from" (VStr "?"))
  +:+ " cannot be acked: sender not in authoritative roster".

(** [read]: the locked section as one step, then the receipt. *)
Definition svc_read (session_id agent_id owner msg_id : string) (fuel : nat)
    (nonce : nat -> string) (now : Z) (s : state) : option (res ReadOutcome * state) :=
  match (do _ <- validate_agent_id agent_id; do _ <- validate_agent_id owner;
         check_names session_id agent_id) with
  | Raise e => Some (Raise e, s)
  | Ok _ =>
    let ds := default empty_session (disk s.1.1 !! session_id) in
    let key := (session_id, agent_id) in
    match locked_read (meta ds) session_id agent_id owner msg_id fuel nonce now
            (default empty_agent (agents ds !! agent_id), default ∅ (s.2 !! key)) with
    | None => None
    | Some (r, (a, ps)) =>
      let k := (on_agent session_id agent_id (fun _ => (Ok tt, a)) s.1.1).2 in
      let s := ((k, s.1.2), <[key := ps]> s.2) in
      match r with
      | Raise e => Some (Raise e, s)
      | Ok NothingRead =>
        Some (Ok {| o_message := None; o_status := "empty"; o_receipt := None; o_error := "" |}, s)
      | Ok (NoRoute first) =>
        Some (Ok {| o_message := Some first; o_status := ACK_ROUTE_UNRESOLVED; o_receipt := None;
                    o_error := unresolved_text first |}, s)
      | Ok (Taken msg) =>
        let ok rc := {| o_message := Some msg; o_status := "ok"; o_receipt := rc; o_error := "" |} in
        if wants_receipt msg then
          let '(rc, kt) := _emit_read_receipt session_id agent_id msg now s.1 in
          Some (do rc <- rc; Ok (ok rc), (kt, s.2))
        else Some (Ok (ok None), s)
      end
    end
  end.
End service.

(** ** The claim of the inspected message *)

Lemma target_of_given skip t cont a f :
  t <> "" -> visible t = true -> inbox a !! t = Some f ->
  target_of skip (Some t) cont (list_messages (inbox a)) = Some (t, f).
Proof.
  intros Hne Hvis Hf. unfold target_of. destruct (String.eqb_spec t "") as [|_]; [done|].
  assert (Hin : (t, f) ∈ list_messages (inbox a)) by (by apply list_messages_elem).
  destruct (List.find _ _) as [[t' f']|] eqn:E.
  - apply List.find_some in E as [Hin' Heq]. simpl in Heq. apply String.eqb_eq in Heq as ->.
    apply list_elem_of_In, list_messages_elem in Hin' as [? _]. congruence.
  - rewrite find_None in E. specialize (E _ Hin). simpl in E. by rewrite String.eqb_refl in E.
Qed.

Lemma target_of_gone skip t cont a :
  t <> "" -> inbox a !! t = None -> target_of skip (Some t) cont (list_messages (inbox a)) = None.
Proof.
  intros Hne Hf. destruct (target_of _ _ _ _) as [[t' f]|] eqn:E; [|done].
  pose proof (target_of_inbox _ _ _ _ _ _ E) as Hin. unfold target_of in E.
  destruct (String.eqb_spec t "") as [|_]; [done|].
  apply List.find_some in E as [_ Heq]. simpl in Heq. apply String.eqb_eq in Heq as ->. congruence.
Qed.

Lemma reap_inbox key now a t f :
  one_place a -> inbox a !! t = Some f -> inbox (_reap_expired_claim key now a).2 !! t = Some f.
Proof.
  intros Ho Hf. unfold _reap_expired_claim, reap_locked. repeat case_match; simpl; try done.
  unfold move. destruct (replace_file Processing Inbox _ a) as [a1|] eqn:E; [|done]. simpl.
  pose proof (replace_file_lookup Processing Inbox _ _ _ Inbox t ltac:(done) E) as Hl.
  simpl in Hl. rewrite Hl. case_decide as Ht; [subst t|done]. simpl.
  unfold replace_file in E. apply bind_Some in E as (g & Hg & _).
  by specialize (Ho _ Inbox Processing f g Hf Hg).
Qed.

(** What a read with a target leaves, when the target is in the inbox. *)
Definition targeted_outcome (m : option session_meta) (sid aid t : string) (f : file)
    (r : res (option pydict)) (a' : agent) : Prop :=
  match r with
  | Ok (Some msg) => content f = Some (VDict msg) /\
      validate_message (VDict msg) (Some sid) (Some aid) (Some (t +:+ ".json")) = Ok Valid /\
      in_roster m (dstr msg "from") = true /\ processing a' !! t = Some f /\ inbox a' !! t = None
  | Ok None => dir_of Corrupt a' !! t = Some f /\ inbox a' !! t = None
  | Raise e => inbox a' !! t = Some f
  end.

Lemma quarantined_outcome m sid aid owner skip t f fuel cont nonce now a r a' :
  t <> "" -> inbox a !! t = Some f ->
  read_loop m sid aid owner skip (Some t) fuel cont nonce now (move Inbox Corrupt t a) = Some (r, a') ->
  targeted_outcome m sid aid t f r a'.
Proof.
  intros Hne Hf. destruct fuel as [|fuel]; [done|].
  assert (inbox (move Inbox Corrupt t a) !! t = None /\
               dir_of Corrupt (move Inbox Corrupt t a) !! t = Some f) as [Hi Hc].
  { unfold move, replace_file. simpl. rewrite Hf. split; [apply lookup_delete_eq|apply lookup_insert_eq]. }
  cbn [read_loop]. unfold read_round. rewrite target_of_gone by done. by intros [= <- <-].
Qed.

Lemma targeted_loop m sid aid owner skip t f fuel cont nonce now a r a' :
  t <> "" -> visible t = true -> one_place a -> inbox a !! t = Some f ->
  read_loop m sid aid owner skip (Some t) fuel cont nonce now a = Some (r, a') ->
  targeted_outcome m sid aid t f r a'.
Proof.
  intros Hne Hvis. revert cont a. induction fuel as [|fuel IH]; intros cont a Ho Hf; [done|].
  cbn [read_loop]. unfold read_round. rewrite (target_of_given _ _ _ _ f) by done.
  assert (Hq : forall c', read_loop m sid aid owner skip (Some t) fuel c' nonce now
                            (move Inbox Corrupt t a) = Some (r, a') ->
                          targeted_outcome m sid aid t f r a').
  { intros c'. by apply quarantined_outcome. }
  destruct (content f) as [v|] eqn:Hv; [|apply Hq].
  destruct (validate_message v _ _ _) as [[]|e] eqn:Hval; [|destruct v; apply Hq|by intros [= <- <-]].
  destruct v as [| | | | | |msg]; try apply Hq.
  destruct (in_roster m (dstr msg "from")) eqn:Hro; [|apply Hq].
  unfold claim_round. pose proof (keeps_publish t owner (nonce fuel) now a) as Hk.
  unfold publish_claim in *. destruct (tmp_claims a !! _) as [x|].
  { apply IH; [by apply Hk|done]. }
  destruct (claims a !! claim_key t owner) as [c|] eqn:Hcl.
  - pose proof (reap_inbox (claim_key t owner) now a t f Ho Hf) as Hr.
    pose proof (keeps_reap (claim_key t owner) now a Ho) as [Ho' _].
    by destruct (_reap_expired_claim _ _ a) as [[] a1]; apply IH.
  - unfold move_claimed, replace_file. simpl. rewrite Hf. simpl. intros [= <- <-].
    split; [done|]. split; [done|]. split; [done|].
    split; [apply lookup_insert_eq|apply lookup_delete_eq].
Qed.

(** ** Parking *)

(** The marker of [id] names a sender that has no route. *)
Definition stuck (m : option session_meta) (ps : marks) (id : string) : Prop :=
  exists v, ps !! id = Some v /\ _sender_resolvable m v = Ok false.
#[export] Instance stuck_dec m ps id : Decision (stuck m ps id).
Proof.
  unfold stuck. destruct (ps !! id) as [v|]; [|right; naive_solver].
  destruct (decide (_sender_resolvable m v = Ok false)); [left; eauto|right; naive_solver].
Defined.

(** Drops the head of a list from the test of an existential that fails on it. *)
Ltac skip_head := repeat case_bool_decide; try done; exfalso;
  match goal with H : ~ Exists _ _ |- _ => apply H end;
  match goal with H : Exists _ _ |- _ => apply Exists_cons in H as [[? ?]|?] || apply Exists_cons_tl end;
  simpl in *; solve [done | congruence].

Lemma unpark_iter m (l : list (string * pyval)) (ps ps' : marks) u :
  st_iter (fun x => r ← lift (_sender_resolvable m (snd x));
    if r : bool then modify (fun ps : marks => delete (fst x) ps) else mret tt) l ps = (Ok u, ps') ->
  (forall x, x ∈ l -> exists b, _sender_resolvable m x.2 = Ok b) /\
  forall id, ps' !! id =
    if bool_decide (Exists (fun x => x.1 = id /\ _sender_resolvable m x.2 = Ok true) l)
    then None else ps !! id.
Proof.
  revert ps. induction l as [|[k v] l IH]; intros ps; simpl.
  - intros [= _ <-]. split; [intros x []%not_elem_of_nil|done].
  - intros H. apply st_bind_Ok in H as (u1 & ps1 & H1 & [Hl Hp]%IH).
    apply st_bind_Ok in H1 as (b & ps2 & [Hb ->]%lift_Ok & H1). simpl in Hb.
    split. { intros x [->|Hx]%elem_of_cons; eauto. }
    intros id. rewrite Hp. destruct b.
    + apply modify_Ok in H1 as ->. simpl. destruct (decide (id = k)) as [->|Hk].
      * rewrite lookup_delete_eq. rewrite (bool_decide_eq_true_2 (Exists _ (_ :: _)));
          [by case_bool_decide|]. by left.
      * rewrite lookup_delete_ne by done.
        skip_head.
    + apply st_ret_Ok in H1 as [_ ->].
      skip_head.
Qed.

(** After the markers were reviewed, those without a route are left. *)
Lemma unpark_spec m (ps ps' : marks) u :
  unpark_resolved m ps = (Ok u, ps') ->
  forall id v, ps' !! id = Some v <-> ps !! id = Some v /\ stuck m ps id.
Proof.
  intros [Hl Hp]%unpark_iter id v. rewrite Hp.
  case_bool_decide as He.
  - split; [done|]. intros [_ (w & Hw & Hr)]. apply Exists_exists in He as ([k x] & Hx & Hk & Hx').
    simpl in *. subst. apply elem_of_map_to_list in Hx. congruence.
  - split; [|tauto]. intros Hv. split; [done|]. exists v. split; [done|].
    destruct (Hl (id, v)) as [[] Hb]; [by apply elem_of_map_to_list| |done].
    exfalso. apply He, Exists_exists. exists (id, v). by rewrite elem_of_map_to_list.
Qed.

Lemma stuck_unparked m ps ps' u id :
  unpark_resolved m ps = (Ok u, ps') -> stuck m ps' id <-> stuck m ps id.
Proof.
  intros H. unfold stuck at 1. setoid_rewrite (unpark_spec _ _ _ _ H). unfold stuck. naive_solver.
Qed.

(** The inspection, taken apart. *)
Definition inspected (m : option session_meta) (msg_id : string) (a : agent) (ps ps' : marks)
    (i : inspection) : Prop :=
  match i with
  | Nothing => (forall id f, inbox a !! id = Some f -> visible id = true ->
                  if decide (msg_id = "") then stuck m ps id else id <> msg_id)
  | Unresolved stem msg => exists f,
      inbox a !! stem = Some f /\ visible stem = true /\ first_dict f = Ok msg /\
      (if decide (msg_id = "") then ~ stuck m ps stem else stem = msg_id) /\
      wants_receipt msg = true /\
      _sender_resolvable m (dgetd msg "from" (VStr "")) = Ok false /\ stuck m ps' stem /\
      forall id, id <> stem -> (stuck m ps' id <-> stuck m ps id)
  | Claim stem => exists f msg,
      inbox a !! stem = Some f /\ visible stem = true /\ first_dict f = Ok msg /\
      (if decide (msg_id = "") then ~ stuck m ps stem else stem = msg_id) /\
      (wants_receipt msg = true -> _sender_resolvable m (dgetd msg "from" (VStr "")) = Ok true) /\
      forall id, stuck m ps' id <-> stuck m ps id
  end.

Lemma first_file_Some msg_id (ps : marks) a stem f :
  first_file msg_id ps (list_messages (inbox a)) = Some (stem, f) ->
  inbox a !! stem = Some f /\ visible stem = true /\
  if decide (msg_id = "") then ps !! stem = None else stem = msg_id.
Proof.
  unfold first_file. intros H.
  destruct (String.eqb_spec msg_id "") as [->|Hne].
  - apply List.find_some in H as [Hin Hp]. apply list_elem_of_In, list_messages_elem in Hin as [? ?].
    simpl in Hp. bool_to_prop. by rewrite decide_True.
  - apply List.find_some in H as [Hin Hp]. apply list_elem_of_In, list_messages_elem in Hin as [? ?].
    simpl in Hp. apply String.eqb_eq in Hp. by rewrite decide_False.
Qed.

Lemma first_file_None msg_id (ps : marks) a id f :
  first_file msg_id ps (list_messages (inbox a)) = None ->
  inbox a !! id = Some f -> visible id = true ->
  if decide (msg_id = "") then is_Some (ps !! id) else id <> msg_id.
Proof.
  unfold first_file. intros H Hf Hvis.
  assert (Hin : (id, f) ∈ list_messages (inbox a)) by (by apply list_messages_elem).
  destruct (String.eqb_spec msg_id "") as [->|Hne]; rewrite find_None in H; specialize (H _ Hin).
  - rewrite decide_True by done. simpl in H. bool_to_prop. by apply not_eq_None_Some.
  - rewrite decide_False by done. simpl in H. by apply String.eqb_neq in H.
Qed.

Lemma inspect_spec m msg_id a ps i ps' :
  inspect m msg_id (list_messages (inbox a)) ps = (Ok i, ps') -> inspected m msg_id a ps ps' i.
Proof.
  unfold inspect. destruct (list_messages (inbox a)) as [|x files] eqn:Hl.
  { intros [= <- <-] id f Hf Hvis.
    assert (Hin : (id, f) ∈ list_messages (inbox a)) by (by apply list_messages_elem).
    rewrite Hl in Hin. by apply not_elem_of_nil in Hin. }
  rewrite <-Hl. clear x files Hl. intros H. apply st_bind_Ok in H as (u & ps1 & Hu & H).
  pose proof (unpark_spec _ _ _ _ Hu) as Hs.
  assert (Hst : forall id, ps1 !! id = None <-> ~ stuck m ps id).
  { intros id. rewrite <-(stuck_unparked _ _ _ _ _ Hu). split.
    - intros E (v & E' & _). congruence.
    - intros Hn. destruct (ps1 !! id) as [v|] eqn:E; [|done]. destruct Hn.
      apply (stuck_unparked _ _ _ _ _ Hu). by apply Hs in E as [_ ?]. }
  apply st_bind_Ok in H as (ps2 & ps3 & [-> ->]%gets_Ok & H).
  destruct (first_file msg_id ps1 _) as [[stem f]|] eqn:Hff.
  2:{ apply st_ret_Ok in H as [-> ->]. intros id f Hf Hvis.
      pose proof (first_file_None _ _ _ _ _ Hff Hf Hvis) as Hn. case_decide; [|done].
      destruct (decide (stuck m ps id)) as [|Hn']; [done|]. apply Hst in Hn'.
      rewrite Hn' in Hn. by destruct Hn. }
  pose proof (first_file_Some _ _ _ _ _ Hff) as (Hf & Hvis & Hst0).
  assert (Hst1 : if decide (msg_id = "") then ~ stuck m ps stem else stem = msg_id).
  { case_decide; [by apply Hst|done]. }
  apply st_bind_Ok in H as (msg & ps4 & [Hd ->]%lift_Ok & H).
  apply st_bind_Ok in H as (b & ps5 & Hb & H).
  destruct (wants_receipt msg) eqn:Hw.
  - apply lift_Ok in Hb as [Hb ->]. destruct b.
    + apply st_ret_Ok in H as [-> ->]. exists f, msg. repeat (split; [done|]).
      intros id. by rewrite (stuck_unparked _ _ _ _ _ Hu).
    + st_inv. subst. unfold _park_ack_unresolved in *. st_inv. subst.
      exists f. repeat (split; [done|]). split.
      * eexists. by rewrite lookup_insert_eq.
      * intros id Hid. rewrite <-(stuck_unparked _ _ _ _ id Hu). unfold stuck.
        by rewrite lookup_insert_ne by done.
  - apply st_ret_Ok in Hb as [-> ->]. apply st_ret_Ok in H as [-> ->]. exists f, msg.
    do 4 (split; [done|]). split; [congruence|]. intros id. by rewrite (stuck_unparked _ _ _ _ _ Hu).
Qed.

(** ** The discipline *)

Lemma first_dict_content f msg msg' :
  first_dict f = Ok msg -> content f = Some (VDict msg') -> msg = msg'.
Proof. unfold first_dict. intros H E. rewrite E in H. congruence. Qed.

(** C39: the acknowledgement discipline of [read], with or without a target.  A
    message is taken only when it is a valid message of a roster member, the
    one that was inspected (the target, or one that is not parked), and it is
    then in processing/ and out of the inbox.  A message that wants a receipt
    and whose sender has no route is not taken: no file changes and the
    message is parked.  When nothing is taken, the inbox has nothing to offer
    or one unusable message went to quarantine. *)
Theorem ack_discipline m sid aid owner mid fuel nonce now a ps r a' ps' :
  check_names sid aid = Ok tt -> one_place a -> inbox a !! "" = None ->
  locked_read m sid aid owner mid fuel nonce now (a, ps) = Some (Ok r, (a', ps')) ->
  match r with
  | NothingRead =>
    a' = a /\ (forall id f, inbox a !! id = Some f -> visible id = true ->
                 if decide (mid = "") then stuck m ps id else id <> mid) \/
    exists id f, inbox a !! id = Some f /\ inbox a' !! id = None /\ dir_of Corrupt a' !! id = Some f
  | NoRoute msg =>
    a' = a /\ exists id f, inbox a !! id = Some f /\ first_dict f = Ok msg /\
      wants_receipt msg = true /\ _sender_resolvable m (dgetd msg "from" (VStr "")) = Ok false /\
      stuck m ps' id
  | Taken msg => exists id f,
      inbox a !! id = Some f /\ content f = Some (VDict msg) /\
      validate_message (VDict msg) (Some sid) (Some aid) (Some (id +:+ ".json")) = Ok Valid /\
      (exists mm, m = Some mm /\ dstr msg "from" ∈ roster mm) /\
      processing a' !! id = Some f /\ inbox a' !! id = None /\
      if decide (mid = "") then ~ stuck m ps id else id = mid
  end.
Proof.
  intros Hn Ho He. unfold locked_read. simpl.
  destruct (inspect m mid _ ps) as [[[|stem first|stem]|e] ps1] eqn:Hi; try done.
  - apply inspect_spec in Hi. intros [= <- <- <-]. left. done.
  - apply inspect_spec in Hi as (f & Hf & _ & Hd & _ & Hw & Hr & Hs & _). intros [= <- <- <-].
    split; [done|]. by exists stem, f.
  - apply inspect_spec in Hi as (f & first & Hf & Hvis & _ & Hm & _).
    assert (Hne : stem <> "") by congruence.
    unfold MailboxClaims.read. rewrite Hn.
    destruct (read_loop _ _ _ _ _ _ _ _ _ _ a) as [[r1 a1]|] eqn:E; [|done].
    apply (targeted_loop _ _ _ _ _ _ f) in E; [|done..].
    destruct r1 as [[msg|]|e]; [| |done]; simpl in E; intros [= <- <- <-].
    + destruct E as (Hc & Hval & Hro & Hp & Hin). exists stem, f. do 3 (split; [done|]).
      split; [|done]. unfold in_roster in Hro. destruct m as [mm|]; [|done]. bool_to_prop. eauto.
    + right. exists stem, f. naive_solver.
Qed.

(** *** No message blocks the ones behind it *)

(** Reading until the answer is not a message without route. *)
Fixpoint read_until (tries : nat) (m : option session_meta) (sid aid owner : string) (fuel : nat)
    (nonce : nat -> string) (now : Z) (x : agent * marks) :
    option (res locked_result * (agent * marks)) :=
  match tries with
  | O => None
  | S tries' =>
    match locked_read m sid aid owner "" fuel nonce now x with
    | Some (Ok (NoRoute _), x') => read_until tries' m sid aid owner fuel nonce now x'
    | r => r
    end
  end.

(** Every visible message is valid, and it is of a roster member or wants a
    receipt (the others would go to quarantine); no claim is under way. *)
Record fit (mm : session_meta) (sid aid : string) (a : agent) : Prop := {
  fit_messages : forall id f, inbox a !! id = Some f -> visible id = true ->
    exists msg, content f = Some (VDict msg) /\
      validate_message (VDict msg) (Some sid) (Some aid) (Some (id +:+ ".json")) = Ok Valid /\
      (dstr msg "from" ∈ roster mm \/ wants_receipt msg = true);
  fit_roster : "" ∉ roster mm;
  fit_empty : inbox a !! "" = None;
  fit_claims : claims a = ∅;
  fit_tmp : tmp_claims a = ∅ }.
(** The markers are those of messages in the inbox. *)
Definition marked (a : agent) (ps : marks) : Prop :=
  forall id v, ps !! id = Some v -> exists f msg,
    inbox a !! id = Some f /\ visible id = true /\ content f = Some (VDict msg) /\
    v = dgetd msg "from" (VStr "").

Section progress.
Context (mm : session_meta) (sid aid owner : string) (fuel : nat) (nonce : nat -> string) (now : Z).
Context (a : agent) (Ha : fit mm sid aid a) (Hn : check_names sid aid = Ok tt).
Notation m := (Some mm).

Lemma fit_resolvable id f msg :
  inbox a !! id = Some f -> visible id = true -> content f = Some (VDict msg) ->
  _sender_resolvable m (dgetd msg "from" (VStr "")) = Ok (bool_decide (dstr msg "from" ∈ roster mm)).
Proof.
  intros Hf Hvis Hc. destruct (fit_messages _ _ _ _ Ha id f Hf Hvis) as (msg' & Hc' & Hval & _).
  assert (msg' = msg) as -> by congruence. apply validate_message_spec in Hval.
  destruct (wf_strings _ _ _ _ Hval "from") as (s & Hs & _); [in_list|].
  rewrite (dgetd_Some _ _ _ _ Hs), (dstr_Some _ _ _ Hs). unfold _sender_resolvable. simpl.
  destruct (String.eqb_spec s "") as [->|Hne]; simpl.
  - by rewrite bool_decide_eq_false_2 by apply (fit_roster _ _ _ _ Ha).
  - f_equal. apply eq_true_iff_eq. rewrite bool_decide_eq_true.
    change ((s =? m_manager mm)%string || existsb (eq_str (VStr s)) (m_agents mm))
      with (existsb (eq_str (VStr s)) (roster mm)).
    rewrite existsb_exists. setoid_rewrite <-list_elem_of_In. setoid_rewrite eq_str_true. naive_solver.
Qed.

Lemma unpark_total (ps : marks) :
  (forall id v, ps !! id = Some v -> exists b, _sender_resolvable m v = Ok b) ->
  exists ps', unpark_resolved m ps = (Ok tt, ps').
Proof.
  intros H. unfold unpark_resolved.
  assert (Hl : forall x, x ∈ map_to_list ps -> exists b, _sender_resolvable m x.2 = Ok b).
  { intros [k v] Hx%elem_of_map_to_list. eauto. }
  revert Hl. generalize (map_to_list ps). intros l. clear H. revert ps.
  induction l as [|x l IH]; intros ps Hl; [by exists ps|].
  destruct (Hl x) as [b Hb]; [by left|]. cbn [st_iter]. rewrite !st_bind_unfold.
  unfold lift. rewrite Hb. destruct b; simpl; apply IH; intros y Hy; apply Hl; by right.
Qed.

Definition waiting (ps : marks) : list (string * file) :=
  filter (fun x => ~ stuck m ps x.1) (list_messages (inbox a)).

(** One read: the first message without route is parked, or one is taken, or
    all of them are parked. *)
Lemma fit_read ps :
  (0 < fuel)%nat -> marked a ps ->
  exists r a' ps', locked_read m sid aid owner "" fuel nonce now (a, ps) = Some (Ok r, (a', ps')) /\
  match r with
  | NoRoute _ => a' = a /\ marked a ps' /\ (length (waiting ps') < length (waiting ps))%nat /\
      forall id f msg, inbox a !! id = Some f -> content f = Some (VDict msg) ->
        dstr msg "from" ∈ roster mm -> stuck m ps' id -> stuck m ps id
  | NothingRead => forall id f, inbox a !! id = Some f -> visible id = true -> stuck m ps id
  | Taken msg => dstr msg "from" ∈ roster mm
  end.
Proof.
  intros Hfu Hmk. unfold locked_read. cbn [fst snd].
  assert (Hu : exists ps1, unpark_resolved m ps = (Ok tt, ps1)).
  { apply unpark_total. intros id v Hv. destruct (Hmk id v Hv) as (f & msg & Hf & Hvis & Hc & ->).
    eexists. by apply (fit_resolvable id f). }
  destruct Hu as [ps1 Hu].
  assert (Hmk1 : marked a ps1).
  { intros id v Hv. apply (unpark_spec _ _ _ _ Hu) in Hv as [Hv _]. by apply Hmk. }
  assert (Hi : exists i ps', inspect m "" (list_messages (inbox a)) ps = (Ok i, ps') /\
    (marked a ps' /\ match i with
                     | Unresolved stem first => exists f, inbox a !! stem = Some f /\
                        content f = Some (VDict first)
                     | _ => True end)).
  { unfold inspect. destruct (list_messages (inbox a)) as [|x files] eqn:Hl; [by exists Nothing, ps|].
    rewrite <-Hl. rewrite st_bind_unfold, Hu, st_bind_unfold. unfold gets.
    destruct (first_file "" ps1 _) as [[stem f]|] eqn:Hff; [|by exists Nothing, ps1].
    pose proof (first_file_Some _ _ _ _ _ Hff) as (Hf & Hvis & _).
    destruct (fit_messages _ _ _ _ Ha stem f Hf Hvis) as (msg & Hc & Hval & Hor).
    rewrite st_bind_unfold. unfold lift at 1, first_dict. rewrite Hc. rewrite st_bind_unfold.
    pose proof (fit_resolvable stem f msg Hf Hvis Hc) as Hr.
    destruct (wants_receipt msg).
    - unfold lift. rewrite Hr. case_bool_decide; [by exists (Claim stem), ps1|].
      unfold _park_ack_unresolved, modify. eexists (Unresolved stem msg), _. split; [done|].
      split; [|by exists f]. intros id v. destruct (decide (id = stem)) as [->|Hne].
      + rewrite lookup_insert_eq. intros [= <-]. by exists f, msg.
      + rewrite lookup_insert_ne by done. apply Hmk1.
    - by exists (Claim stem), ps1. }
  destruct Hi as (i & ps' & Hi & Hmk' & Hun). rewrite Hi. pose proof (inspect_spec _ _ _ _ _ _ Hi) as Hs.
  destruct i as [|stem first|stem].
  - exists NothingRead, a, ps'. split; [done|]. exact Hs.
  - exists (NoRoute first), a, ps'. split; [done|]. split; [done|]. split; [done|].
    destruct Hs as (f & Hf & Hvis & Hd & Hns & Hw & Hr & Hst & Hoth). simpl in Hns.
    assert (Hmono : forall id, stuck m ps id -> stuck m ps' id).
    { intros id Hid. destruct (decide (id = stem)) as [->|]; [done|]. by apply Hoth. }
    split.
    + assert (waiting ps' = filter (fun x => ~ stuck m ps' x.1) (waiting ps)) as ->.
      { unfold waiting. rewrite list_filter_filter. apply list_filter_iff. naive_solver. }
      apply (length_filter_lt _ _ (stem, f)); [|by intros []].
      apply list_elem_of_filter. split; [done|]. by apply list_messages_elem.
    + intros id g msg Hg Hc Hro Hid. destruct (decide (id = stem)) as [->|]; [|by apply Hoth].
      destruct Hun as (f' & Hf' & Hc'). assert (msg = first) as -> by congruence.
      rewrite (fit_resolvable stem f' first) in Hr by done.
      by rewrite bool_decide_eq_true_2 in Hr.
  - destruct Hs as (f & first & Hf & Hvis & Hd & Hns & Hw & _).
    destruct (fit_messages _ _ _ _ Ha stem f Hf Hvis) as (msg & Hc & Hval & Hor).
    pose proof (first_dict_content _ _ _ Hd Hc) as ->.
    assert (Hro : dstr msg "from" ∈ roster mm).
    { destruct Hor as [|Hor]; [done|]. specialize (Hw Hor). rewrite (fit_resolvable stem f msg) in Hw by done.
      injection Hw as Hw. by apply bool_decide_eq_true in Hw. }
    unfold MailboxClaims.read. rewrite Hn. destruct fuel as [|fl]; [lia|]. cbn [read_loop].
    unfold read_round. rewrite (target_of_given _ _ _ _ f) by (done || intros ->;
      by rewrite (fit_empty _ _ _ _ Ha) in Hf).
    rewrite Hc, Hval. simpl. rewrite bool_decide_eq_true_2 by done.
    unfold claim_round, publish_claim. rewrite (fit_tmp _ _ _ _ Ha), (fit_claims _ _ _ _ Ha), !lookup_empty.
    unfold move_claimed, replace_file. simpl. rewrite Hf. simpl. by eexists (Taken msg), _, _.
Qed.
End progress.

(** no head-of-line blocking.  In an inbox of valid messages without claims
    under way, a message of a roster member that is not parked is not kept
    waiting for ever by messages in front of it that cannot be acknowledged:
    repeated reads answer "no route" at most once per message of the inbox,
    and then take a message of a roster member. *)
Theorem no_head_blocking mm sid aid owner fuel nonce now a ps tries id f msg :
  fit mm sid aid a -> check_names sid aid = Ok tt -> (0 < fuel)%nat -> marked a ps ->
  inbox a !! id = Some f -> visible id = true -> content f = Some (VDict msg) ->
  dstr msg "from" ∈ roster mm -> ~ stuck (Some mm) ps id ->
  (length (list_messages (inbox a)) < tries)%nat ->
  exists msg' x', read_until tries (Some mm) sid aid owner fuel nonce now (a, ps)
    = Some (Ok (Taken msg'), x') /\ dstr msg' "from" ∈ roster mm.
Proof.
  intros Ha Hn Hfu Hmk Hf Hvis Hc Hro Hns Ht.
  assert (Hw : (length (waiting mm a ps) < tries)%nat).
  { eapply Nat.le_lt_trans; [apply length_filter|done]. }
  clear Ht. revert ps Hmk Hns Hw.
  induction tries as [|tries IH]; intros ps Hmk Hns Hw; [lia|].
  destruct (fit_read mm sid aid owner fuel nonce now a Ha Hn ps Hfu Hmk)
    as ([|first|msg'] & a' & ps' & E & Hr); cbn [read_until]; rewrite E.
  - destruct Hns. eauto.
  - destruct Hr as (-> & Hmk' & Hlt & Hk). apply IH; [done| |lia]. intros Hs. eauto.
  - eauto.
Qed.

(** ** Lost receipts *)

Lemma validate_agent_id_error aid e : validate_agent_id aid = Raise e -> value_error e.
Proof. unfold validate_agent_id. case_match; [done|]. intros [= <-]. by eexists. Qed.

Lemma validate_msg_id_error id e : _validate_msg_id id = Raise e -> value_error e.
Proof. unfold _validate_msg_id. case_match; [done|]. intros [= <-]. by eexists. Qed.

(** Every refusal before the message's identifier is looked up is a
    [ValueError]; a draft without attachments cannot be refused otherwise. *)
Lemma send_checks_error d : d_attachments d = None -> raises value_error (send_checks d).
Proof.
  intros Hd. unfold send_checks, check_agent. rewrite Hd. raising; try done.
  by apply validate_agent_id_error.
Qed.

Lemma to_dict_kind session_id d refs id now :
  validate_message (VDict (Message.to_dict (message_of session_id d refs id now)))
    (Some session_id) None None <> Raise (TypeError "unhashable type").
Proof.
  intros H. apply validate_message_raises in H as (d' & [= <-] & _ & Hu & _).
  destruct (to_dict_mandatory (message_of session_id d refs id now)) as (_&_&_&_&_&Hk&_).
  by rewrite (dgetd_Some _ _ _ _ Hk) in Hu.
Qed.

(** A receipt without run or request is not a valid message. *)
Lemma receipt_invalid sid d refs id now :
  d_kind d = "RECEIPT" -> blank (d_run_id d) = true \/ blank (d_request_id d) = true ->
  exists why, validate_message (VDict (Message.to_dict (message_of sid d refs id now)))
                (Some sid) None None = Ok (Invalid why).
Proof.
  intros Hk Hb. destruct (validate_message _ _ _ _) as [[]|e] eqn:E; [|eauto|].
  - exfalso. apply validate_message_spec in E.
    destruct (to_dict_mandatory (message_of sid d refs id now)) as (_&_&_&_&_&Hkd&_).
    destruct (to_dict_optional (message_of sid d refs id now)) as (_&_&Hrun&Hreq&_).
    simpl in *. rewrite Hk in Hkd.
    assert (Hf : forall f s, f ∈ ["run_id"; "request_id"] ->
      dget (Message.to_dict (message_of sid d refs id now)) f = opt_of (VStr s) -> blank s = false).
    { intros f s Hf Hg.
      destruct (wf_extras _ _ _ _ E "RECEIPT" f Hkd) as (s' & Hs' & Hn).
      - revert Hf. rewrite !elem_of_cons. intros [->|[->|[]%not_elem_of_nil]]; in_list.
      - rewrite Hg in Hs'. unfold opt_of in Hs'. simpl in Hs'.
        destruct (String.eqb_spec s ""); simpl in *; congruence. }
    destruct Hb as [Hb|Hb].
    + rewrite (Hf "run_id" (d_run_id d)) in Hb; [done|in_list|done].
    + rewrite (Hf "request_id" (d_request_id d)) in Hb; [done|in_list|done].
  - exfalso. pose proof E as E'. apply validate_message_raises in E as (? & _ & _ & _ & ->).
    by apply to_dict_kind in E'.
Qed.

(** a message without run or request identifier that asks for a receipt
    is consumed, but its receipt never leaves: the store refuses it, since a
    RECEIPT must carry both, whatever the state; nothing is written and the
    outcome of the read still is "ok". *)
Theorem receipt_needs_run {T} `{DeliverySink T} py_repr uuid5 body sid aid original now (kt : kernel * T) :
  let s := default empty_session (disk kt.1 !! sid) in
  let rid := receipt_id uuid5 sid (dstr original "msg_id") aid in
  dstr original "msg_id" <> "" ->
  blank (dstr original "run_id") = true \/ blank (dstr original "request_id") = true ->
  (forall rids, existing_copy s rids rid = None) ->
  exists rc, _emit_read_receipt py_repr uuid5 body false sid aid original now kt
    = (Ok (Some rc), (set_disk (<[sid := s]> (disk kt.1)) kt.1, kt.2)) /\
    v_status rc = "failed" /\ v_queued rc = false.
Proof.
  intros s rid Hid Hb Hex. unfold _emit_read_receipt.
  destruct (String.eqb_spec (dstr original "msg_id") "") as [|_]; [done|]. fold rid.
  unfold fmap, st_fmap, on_kernel, store_receipt, on_session. fold s.
  set (d := receipt_draft body aid original).
  assert (Hs : exists w, MailboxStore.send py_repr sid d (Some rid) [] now s = (Raise (ValueError w), s)).
  { unfold MailboxStore.send. rewrite st_bind_unfold. unfold lift at 1.
    destruct (validate_agent_id sid) as [|e] eqn:E; [|destruct (validate_agent_id_error _ _ E) as [w ->]; eauto].
    rewrite st_bind_unfold. pose proof (send_checks_error d eq_refl s) as He.
    pose proof (send_checks_read_only d s) as Hro.
    destruct (send_checks d s) as [[[refs rids]|e] s1]; simpl in He, Hro; subst s1;
      [|destruct (He e eq_refl) as [w ->]; eauto].
    rewrite st_bind_unfold. unfold lift at 1.
    destruct (_validate_msg_id rid) as [|e] eqn:E'; [|destruct (validate_msg_id_error _ _ E') as [w ->]; eauto].
    rewrite st_bind_unfold. unfold gets at 1. rewrite Hex.
    unfold fmap, st_fmap, MailboxStore.deliver. cbv zeta. rewrite st_bind_unfold. unfold lift at 1.
    destruct (receipt_invalid sid d refs rid now eq_refl Hb) as [why ->]. simpl. eauto. }
  destruct Hs as [w ->]. by eexists.
Qed.

(** ** The hypotheses at work *)

(** [w2] and the manager have written to [w1], both want a receipt, and [w2]
    has left the session since. *)
Definition ack_draft (from : string) : draft :=
  {| d_from := from; d_to := "w1"; d_subject := "hello"; d_body := "body"; d_kind := "NOTICE";
     d_reply_to := ""; d_run_id := ""; d_request_id := ""; d_command_id := "";
     d_trace_id := "t1"; d_causation_id := ""; d_attachments := None;
     d_require_ack := true; d_receipt_type := "" |}.
Definition ack_demo : session :=
  (MailboxStore.send demo_repr "s1" (ack_draft "mgr") (Some "m2") [] 1700000006000
    (MailboxStore.send demo_repr "s1" (ack_draft "w2") (Some "m1") [] 1700000005000 demo).2).2.
Definition ack_agent : agent := default empty_agent (agents ack_demo !! "w1").
Definition left_meta : session_meta :=
  {| m_manager := "mgr"; m_agents := ["w1"]; m_revision := 2; m_created := None; m_acl := None;
     m_execution_modes := None; m_return_modes := None |}.
Definition ack_file (id : string) : file := default {| content := None; mtime := 0 |} (inbox ack_agent !! id).
Definition ack_msg (id : string) : pydict :=
  match content (ack_file id) with Some (VDict d) => d | _ => [] end.

(** [fit_messages] as a test. *)
Definition fit_file (mm : session_meta) (sid aid id : string) (f : file) : bool :=
  negb (visible id) ||
  match content f with
  | Some (VDict msg) =>
    bool_decide (validate_message (VDict msg) (Some sid) (Some aid) (Some (id +:+ ".json")) = Ok Valid)
    && (bool_decide (dstr msg "from" ∈ roster mm) || wants_receipt msg)
  | _ => false
  end.

Lemma ack_fit : fit left_meta "s1" "w1" ack_agent.
Proof.
  split; [|refine (bool_decide_unpack _ _); vm_compute; exact I|vm_compute; reflexivity..].
  assert (H : map_Forall (fun id f => fit_file left_meta "s1" "w1" id f = true) (inbox ack_agent)).
  { refine (bool_decide_unpack _ _). vm_compute. exact I. }
  intros id f Hf Hvis. specialize (H id f Hf). unfold fit_file in H. rewrite Hvis in H. simpl in H.
  destruct (content f) as [[| | | | | |msg]|]; try discriminate H. exists msg. split; [done|].
  apply andb_true_iff in H as [Hv Ho]. apply bool_decide_eq_true in Hv. split; [done|].
  apply orb_true_iff in Ho as [Ho|Ho]; [left; by apply bool_decide_eq_true in Ho|by right].
Qed.

Lemma ack_discipline_witness :
  let r := locked_read (Some left_meta) "s1" "w1" "w1" "" 3 demo_nonce 1700000007000 (ack_agent, ∅) in
  r = Some (Ok (NoRoute (ack_msg "m1")), (ack_agent, {["m1" := VStr "w2"]})) /\
  ack_agent = ack_agent /\ exists id f, inbox ack_agent !! id = Some f /\
    first_dict f = Ok (ack_msg "m1") /\ wants_receipt (ack_msg "m1") = true /\
    _sender_resolvable (Some left_meta) (dgetd (ack_msg "m1") "from" (VStr "")) = Ok false /\
    stuck (Some left_meta) {["m1" := VStr "w2"]} id.
Proof.
  cbv zeta.
  assert (E : locked_read (Some left_meta) "s1" "w1" "w1" "" 3 demo_nonce 1700000007000 (ack_agent, ∅)
    = Some (Ok (NoRoute (ack_msg "m1")), (ack_agent, {["m1" := VStr "w2"]}))) by (vm_compute; reflexivity).
  split; [exact E|].
  apply (ack_discipline (Some left_meta) "s1" "w1" "w1" "" 3 demo_nonce 1700000007000 ack_agent ∅
           (NoRoute (ack_msg "m1")) ack_agent {["m1" := VStr "w2"]}).
  - vm_compute; reflexivity.
  - apply one_place_inbox; vm_compute; reflexivity.
  - vm_compute; reflexivity.
  - exact E.
Defined.

Lemma no_head_blocking_witness :
  exists msg' x', read_until 3 (Some left_meta) "s1" "w1" "w1" 3 demo_nonce 1700000007000 (ack_agent, ∅)
    = Some (Ok (Taken msg'), x') /\ dstr msg' "from" ∈ roster left_meta.
Proof.
  apply (no_head_blocking left_meta "s1" "w1" "w1" 3 demo_nonce 1700000007000 ack_agent ∅ 3
           "m2" (ack_file "m2") (ack_msg "m2")).
  - apply ack_fit.
  - vm_compute; reflexivity.
  - vm_compute; lia.
  - intros id v Hv. by rewrite lookup_empty in Hv.
  - vm_compute; reflexivity.
  - vm_compute; reflexivity.
  - vm_compute; reflexivity.
  - in_list.
  - intros (v & Hv & _). by rewrite lookup_empty in Hv.
  - vm_compute; lia.
Defined.

(** The manager's message, taken by [w1], had no run. *)
Lemma receipt_needs_run_witness :
  let s := default empty_session (disk demo_state.1 !! "s1") in
  exists rc, _emit_read_receipt demo_repr (fun n => "r1") (fun _ _ => "{}") false "s1" "w1"
      (ack_msg "m2") 1700000007000 demo_state
    = (Ok (Some rc), (set_disk (<["s1" := s]> (disk demo_state.1)) demo_state.1, demo_state.2)) /\
    v_status rc = "failed" /\ v_queued rc = false.
Proof.
  apply (receipt_needs_run demo_repr (fun n => "r1") (fun _ _ => "{}") "s1" "w1" (ack_msg "m2")).
  - vm_compute. discriminate.
  - left. vm_compute. reflexivity.
  - intros rids. apply existing_copy_new.
    assert (Hh : history (default empty_session (disk demo_state.1 !! "s1")) = ∅) by (vm_compute; reflexivity).
    split; [by rewrite Hh, lookup_empty|]. split; [by rewrite Hh, lookup_empty|].
    intros rid _. unfold inbox_of.
    assert (Hall : map_Forall (fun _ a => length (map_to_list (inbox a)) = 0%nat)
      (agents (default empty_session (disk demo_state.1 !! "s1")))).
    { refine (bool_decide_unpack _ _). vm_compute. exact I. }
    destruct (agents _ !! rid) as [a|] eqn:E; [|exact (lookup_empty _)].
    apply Hall, nil_length_inv, map_to_list_empty_iff in E. simpl. by rewrite E, lookup_empty.
Defined.
