(* ===== verification/Outbox.v ===== *)
(** * Outbox and dead letters
      (the directories and the retry state machine of
      src/src/codeagent/swarm/delivery.py)

    The files under [_outbox/<session>] and [_dead_letter/<session>]: the
    envelopes, the markers of delivered messages, the status directories with
    the attempts made so far, and the operations on them.  Times are in
    milliseconds.  The engine that drives them is in Delivery.v. *)
From S2P Require Import Prelude MailboxProtocol MailboxStore.

(** ** The files *)

(** [meta.json] of a status directory; an absent key is [None], [0] or
    [false], as the reads take it. *)
Record attempts := {
  a_count : Z; a_first_accepted : option Z; a_last_attempt : option Z; a_error : string;
  a_terminal : bool; a_next : option Z;
  a_paused : bool; a_pause_reason : option string; a_paused_at : option Z; a_reprobe : option Z }.
Definition no_attempts : attempts :=
  {| a_count := 0; a_first_accepted := None; a_last_attempt := None; a_error := "";
     a_terminal := false; a_next := None; a_paused := false; a_pause_reason := None;
     a_paused_at := None; a_reprobe := None |}.

(** A directory [.status-<id>]: the files [phase] and [kind], [meta.json]
    ([Some None] when it cannot be read), and the times of the directory and
    of [meta.json]. *)
Record status := { s_phase : option string; s_kind : option string;
                   s_meta : option (option attempts); s_mtime : Z; s_meta_mtime : Z }.

(** [_outbox/<session>]: the envelopes by the stem of their file (an
    unreadable one is [None]; a temporary file [.tmp-<id>.json] has a stem
    too), the times of the [.delivered-<id>] markers, the status directories. *)
Record obox := { o_entries : gmap string (option pydict); o_delivered : gmap string Z;
                 o_status : gmap string status }.
Definition empty_obox : obox := {| o_entries := ∅; o_delivered := ∅; o_status := ∅ |}.
(** [_dead_letter/<session>]: the status directories as they were moved (with
    [true], a second one was moved into the first). *)
Record dbox := { x_entries : gmap string (option pydict); x_status : gmap string (status * bool);
                 x_reason : gmap string string }.
Definition empty_dbox : dbox := {| x_entries := ∅; x_status := ∅; x_reason := ∅ |}.
Record outbox := { b_live : gmap string obox; b_dead : gmap string dbox }.
Definition empty_outbox : outbox := {| b_live := ∅; b_dead := ∅ |}.

Definition live (b : outbox) (sid : string) : obox := default empty_obox (b_live b !! sid).
Definition dead (b : outbox) (sid : string) : dbox := default empty_dbox (b_dead b !! sid).
Definition on_live (sid : string) (f : obox -> obox) (b : outbox) : outbox :=
  {| b_live := <[sid := f (live b sid)]> (b_live b); b_dead := b_dead b |}.
Definition on_dead (sid : string) (f : dbox -> dbox) (b : outbox) : outbox :=
  {| b_live := b_live b; b_dead := <[sid := f (dead b sid)]> (b_dead b) |}.
Definition set_entries x o : obox :=
  {| o_entries := x; o_delivered := o_delivered o; o_status := o_status o |}.
Definition set_delivered x o : obox :=
  {| o_entries := o_entries o; o_delivered := x; o_status := o_status o |}.
Definition set_status x o : obox :=
  {| o_entries := o_entries o; o_delivered := o_delivered o; o_status := x |}.

Definition entry (b : outbox) (sid id : string) : option (option pydict) := o_entries (live b sid) !! id.
Definition is_delivered (b : outbox) (sid id : string) : bool :=
  bool_decide (is_Some (o_delivered (live b sid) !! id)).
Definition meta_of (b : outbox) (sid id : string) : option (option attempts) :=
  o_status (live b sid) !! id ≫= s_meta.

(** The session directories, hidden ones apart, and the envelope files of one,
    in the order of their names. *)
Definition _list_sessions (b : outbox) : list string :=
  List.filter (fun d => negb (String.prefix "." d)) (sort_strs (map_to_list (b_live b)).*1).
Definition file_le (a b : string) : Prop := String.le (a +:+ ".json") (b +:+ ".json").
#[export] Instance file_le_dec a b : Decision (file_le a b).
Proof. unfold file_le. apply _. Defined.
Definition envelope_files (b : outbox) (sid : string) : list string :=
  merge_sort file_le (map_to_list (o_entries (live b sid))).*1.

(** ** Durable writes *)

(** The writes of [path] through its temporary file, one step at a time: the
    file opened, written, renamed. *)
Definition replace_steps (sid id : string) (envelope : pydict) : list (outbox -> outbox) :=
  [on_live sid (fun o => set_entries (<[tmp_name id := None]> (o_entries o)) o);
   on_live sid (fun o => set_entries (<[tmp_name id := Some envelope]> (o_entries o)) o);
   on_live sid (fun o => set_entries (<[id := Some envelope]> (delete (tmp_name id) (o_entries o))) o)].
Definition run (steps : list (outbox -> outbox)) (b : outbox) : outbox := foldl (fun b f => f b) b steps.

Definition _write_outbox (sid id : string) (envelope : pydict) (b : outbox) : outbox :=
  match entry b sid id with
  | Some _ => b
  | None => run (replace_steps sid id envelope) b
  end.

Definition _stamp_outbox_target_host (sid id : string) (b : outbox) : outbox :=
  match entry b sid id with
  | Some (Some e) =>
    if truthy (dgetd e "_target_host" VNone) then b
    else run (replace_steps sid id (dset e "_target_host" (VStr "__local__"))) b
  | _ => b
  end.

(** ** Status markers *)
Definition _mark_delivered (sid id : string) (now : Z) : outbox -> outbox :=
  on_live sid (fun o => set_delivered (<[id := now]> (o_delivered o)) o).

(** Creating a file in a directory touches the directory, rewriting one does
    not. *)
Definition _write_status (sid id kind detail : string) (now : Z) : outbox -> outbox :=
  on_live sid (fun o => set_status (<[id :=
    match o_status o !! id with
    | Some s => {| s_phase := Some detail; s_kind := Some kind; s_meta := s_meta s;
                   s_mtime := if is_none (s_phase s) then now else s_mtime s;
                   s_meta_mtime := s_meta_mtime s |}
    | None => {| s_phase := Some detail; s_kind := Some kind; s_meta := None; s_mtime := now;
                 s_meta_mtime := 0 |}
    end]> (o_status o)) o).

(** [meta.json] replaced through its temporary file, which touches the
    directory. *)
Definition write_meta (sid id : string) (m : attempts) (now : Z) : outbox -> outbox :=
  on_live sid (fun o => set_status (<[id :=
    match o_status o !! id with
    | Some s => {| s_phase := s_phase s; s_kind := s_kind s; s_meta := Some (Some m);
                   s_mtime := now; s_meta_mtime := now |}
    | None => {| s_phase := None; s_kind := None; s_meta := Some (Some m); s_mtime := now;
                 s_meta_mtime := now |}
    end]> (o_status o)) o).
(** [meta] as the updates read it: an absent or unreadable file is empty. *)
Definition read_meta (b : outbox) (sid id : string) : attempts :=
  match meta_of b sid id with Some (Some m) => m | _ => no_attempts end.

(** ** The retry state machine *)
Definition _max_attempts : Z := 5.
Definition _backoff_base_ms : Z := 5 * 1000.
Definition _REPROBE_INTERVAL_MS : Z := 600 * 1000.

Definition TERMINAL_MARKERS : list string :=
  ["not in roster"; "not in channel"; "lacks 'mailbox' capability"; "different payload";
   "invalid kind"; "body exceeds"; "invalid attachment"; "sender not in allowed_senders";
   "wire version mismatch"].
Definition _is_terminal_error (msg : string) : bool :=
  contains "mailbox send failed (exit 2)" msg || existsb (fun m => contains m msg) TERMINAL_MARKERS.

Definition attempted (m : attempts) (error : string) (terminal : bool) (now : Z) : attempts :=
  let n := a_count m + 1 in
  {| a_count := n;
     a_first_accepted := Some (default now (a_first_accepted m));
     a_last_attempt := Some now; a_error := str_take 500 error; a_terminal := terminal;
     a_next := if terminal then a_next m else Some (now + _backoff_base_ms * 2 ^ (n - 1));
     a_paused := a_paused m; a_pause_reason := a_pause_reason m; a_paused_at := a_paused_at m;
     a_reprobe := a_reprobe m |}.
Definition _record_attempt (sid id error : string) (terminal : bool) (now : Z) (b : outbox) :
    Z * outbox :=
  let m := attempted (read_meta b sid id) error terminal now in
  (a_count m, write_meta sid id m now b).

(** The move of an envelope to the dead letters; [shutil.move] puts a status
    directory into one that is already there, and refuses the third. *)
Definition _dead_letter (sid id reason : string) : st outbox unit := fun b =>
  let b := on_dead sid (fun x => x) b in
  match entry b sid id with
  | None => (Ok tt, b)
  | Some e =>
    let b := on_live sid (fun o => set_entries (delete id (o_entries o)) o) b in
    let b := on_dead sid (fun x => {| x_entries := <[id := e]> (x_entries x);
                                      x_status := x_status x; x_reason := x_reason x |}) b in
    let explain := on_dead sid (fun x => {| x_entries := x_entries x; x_status := x_status x;
                                            x_reason := <[id := reason]> (x_reason x) |}) in
    let drop_status := on_live sid (fun o => set_status (delete id (o_status o)) o) in
    let keep s := on_dead sid (fun x => {| x_entries := x_entries x;
                                           x_status := <[id := s]> (x_status x);
                                           x_reason := x_reason x |}) in
    match o_status (live b sid) !! id with
    | None => (Ok tt, explain b)
    | Some s =>
      match x_status (dead b sid) !! id with
      | None => (Ok tt, explain (keep (s, false) (drop_status b)))
      | Some (s', false) => (Ok tt, explain (keep (s', true) (drop_status b)))
      | Some (_, true) => (Raise (OSError "Destination path already exists"), b)
      end
    end
  end.

Definition _attempt_due (sid id : string) (now : Z) (b : outbox) : bool :=
  match meta_of b sid id with
  | Some (Some m) =>
    if a_terminal m then false
    else match a_next m with None => true | Some t => t <=? now end
  | _ => true
  end.

Definition _pause_for_upgrade (sid id reason : string) (now : Z) (b : outbox) : outbox :=
  let m := read_meta b sid id in
  write_meta sid id
    {| a_count := a_count m; a_first_accepted := a_first_accepted m;
       a_last_attempt := a_last_attempt m; a_error := a_error m; a_terminal := false;
       a_next := a_next m; a_paused := true; a_pause_reason := Some (str_take 300 reason);
       a_paused_at := Some now; a_reprobe := Some (now + _REPROBE_INTERVAL_MS) |} now b.

Definition _is_paused (sid id : string) (b : outbox) : bool :=
  match meta_of b sid id with Some (Some m) => a_paused m | _ => false end.

Definition _reprobe_paused (sid id : string) (now : Z) (b : outbox) : bool * outbox :=
  match meta_of b sid id with
  | Some (Some m) =>
    if negb (a_paused m) then (false, b)
    else if match a_reprobe m with Some t => now <? t | None => false end then (false, b)
    else (true, write_meta sid id
                  {| a_count := a_count m; a_first_accepted := a_first_accepted m;
                     a_last_attempt := a_last_attempt m; a_error := a_error m;
                     a_terminal := a_terminal m; a_next := a_next m; a_paused := false;
                     a_pause_reason := None; a_paused_at := None; a_reprobe := None |} now b)
  | _ => (false, b)
  end.

(** The outcome of a failed attempt. *)
Definition _handle_flush_failure (sid id error : string) (now : Z) : st outbox unit := fun b =>
  let terminal := _is_terminal_error error in
  if terminal && contains "wire version mismatch" error
  then (Ok tt, _pause_for_upgrade sid id error now b)
  else
    let '(n, b) := _record_attempt sid id error terminal now b in
    if terminal then _dead_letter sid id (str_take 300 ("terminal: " +:+ error)) b
    else if _max_attempts <=? n
    then _dead_letter sid id
           (str_take 300 ("max attempts (" +:+ pretty _max_attempts +:+ ") exceeded: " +:+ error)) b
    else (Ok tt, b).

(** ** Dead letters *)
Record dead_item := { di_session : string; di_msg_id : string; di_to : pyval; di_subject : pyval;
                      di_reason : string }.
(** The sessions an operation covers: the given one, or all of the directory. *)
Definition sessions_of (session_id : option string) (all : list string) : list string :=
  match session_id with
  | Some sid => if String.eqb sid "" then all else [sid]
  | None => all
  end.
Definition dead_sessions (b : outbox) : list string := sort_strs (map_to_list (b_dead b)).*1.
Definition dead_item_of (sid : string) (x : dbox) (mid : string) (e : option pydict) : dead_item :=
  let env := default [] e in
  {| di_session := sid; di_msg_id := mid; di_to := dgetd env "to" (VStr "");
     di_subject := dgetd env "subject" (VStr ""); di_reason := default "" (x_reason x !! mid) |}.
Definition dead_letter_list (session_id : option string) (b : outbox) : list dead_item :=
  concat (map (fun sid =>
    let x := dead b sid in
    omap (fun mid => dead_item_of sid x mid <$> x_entries x !! mid)
         (merge_sort file_le (map_to_list (x_entries x)).*1))
    (sessions_of session_id (dead_sessions b))).

Definition requeued (m : attempts) : attempts :=
  {| a_count := 0; a_first_accepted := a_first_accepted m; a_last_attempt := a_last_attempt m;
     a_error := a_error m; a_terminal := false; a_next := None; a_paused := a_paused m;
     a_pause_reason := a_pause_reason m; a_paused_at := a_paused_at m; a_reprobe := a_reprobe m |}.
(** [meta.json] rewritten in place: the directory is touched when the file
    or the directory is new. *)
Definition rewrite_meta (sid id : string) (m : attempts) (now : Z) : outbox -> outbox :=
  on_live sid (fun o => set_status (<[id :=
    match o_status o !! id with
    | Some s => {| s_phase := s_phase s; s_kind := s_kind s; s_meta := Some (Some m);
                   s_mtime := if is_none (s_meta s) then now else s_mtime s;
                   s_meta_mtime := now |}
    | None => {| s_phase := None; s_kind := None; s_meta := Some (Some m); s_mtime := now;
                 s_meta_mtime := now |}
    end]> (o_status o)) o).
Definition dead_letter_requeue (sid id : string) (now : Z) (b : outbox) : bool * outbox :=
  match x_entries (dead b sid) !! id with
  | None => (false, b)
  | Some e =>
    let b := on_dead sid (fun x => {| x_entries := delete id (x_entries x);
                                      x_status := delete id (x_status x);
                                      x_reason := delete id (x_reason x) |}) b in
    let b := on_live sid (fun o => set_entries (<[id := e]> (o_entries o)) o) b in
    (true, rewrite_meta sid id (requeued (read_meta b sid id)) now b)
  end.

(** [removed] counts envelopes, reasons and status directories. *)
Definition dead_letter_purge (session_id : option string) (b : outbox) : nat * outbox :=
  foldl (fun '(n, b) sid =>
    match b_dead b !! sid with
    | None => (n, b)
    | Some x => ((n + base.size (x_entries x) + base.size (x_status x) + base.size (x_reason x))%nat,
                 on_dead sid (fun _ => empty_dbox) b)
    end) (0%nat, b) (sessions_of session_id (dead_sessions b)).

(** ** Queries, acknowledgement, retention *)
Definition pending (session_id : option string) (b : outbox) : list pydict :=
  concat (map (fun sid => omap (fun mid =>
      if is_delivered b sid mid then None else entry b sid mid ≫= fun e => e) (envelope_files b sid))
    (sessions_of session_id (_list_sessions b))).
Definition outbox_stats (session_id : option string) (b : outbox) : nat * nat :=
  (length (pending session_id b),
   foldr Nat.add 0%nat (map (fun sid => base.size (o_delivered (live b sid)))
                          (sessions_of session_id (_list_sessions b)))).

Definition ack_checks (sid id : string) : st outbox unit :=
  _ ← ensure (negb (String.eqb id "" || has_char "/"%char id || has_char "\"%char id
                    || contains ".." id)) (ValueError "invalid msg_id");
  b ← gets (fun b => b);
  ensure (bool_decide (is_Some (entry b sid id))) (ValueError "outbox entry not found").
Definition ack (sid id ph : string) (now : Z) : st outbox unit :=
  _ ← ack_checks sid id;
  modify (_write_status sid id "ack" ph now).

Definition status_age (s : status) : Z :=
  match s_meta s with Some _ => Z.max (s_mtime s) (s_meta_mtime s) | None => s_mtime s end.
(** The envelopes of expired markers go with them, then the old status
    directories go. *)
Definition sweep_box (cutoff : Z) (o : obox) : nat * obox :=
  let expired := filter (fun x : string * Z => x.2 < cutoff) (o_delivered o) in
  let gone := filter (fun x : string * option pydict => is_Some (expired !! x.1)) (o_entries o) in
  let stale := filter (fun x : string * status => status_age x.2 < cutoff) (o_status o) in
  ((base.size expired + base.size gone + base.size stale)%nat,
   {| o_entries := o_entries o ∖ gone; o_delivered := o_delivered o ∖ expired;
      o_status := o_status o ∖ stale |}).
Definition box_empty (o : obox) : bool :=
  bool_decide (o_entries o = ∅ /\ o_delivered o = ∅ /\ o_status o = ∅).
Definition sweep (retention_days now : Z) (b : outbox) : nat * outbox :=
  let cutoff := now - retention_days * 86400 * 1000 in
  foldl (fun '(n, b) sid =>
    let '(k, o) := sweep_box cutoff (live b sid) in
    ((n + k)%nat, {| b_live := if box_empty o then delete sid (b_live b) else <[sid := o]> (b_live b);
                     b_dead := b_dead b |})) (0%nat, b) (_list_sessions b).

(** ** Auxiliary facts *)

Lemma live_on_live sid sid' f b :
  live (on_live sid f b) sid' = if decide (sid = sid') then f (live b sid') else live b sid'.
Proof.
  unfold live at 1, on_live. simpl. case_decide as E; [subst; by rewrite lookup_insert_eq|].
  by rewrite lookup_insert_ne.
Qed.
Lemma dead_on_live sid sid' f b : dead (on_live sid f b) sid' = dead b sid'.
Proof. done. Qed.
Lemma live_on_dead sid sid' f b : live (on_dead sid f b) sid' = live b sid'.
Proof. done. Qed.
Lemma dead_on_dead sid sid' f b :
  dead (on_dead sid f b) sid' = if decide (sid = sid') then f (dead b sid') else dead b sid'.
Proof.
  unfold dead at 1, on_dead. simpl. case_decide as E; [subst; by rewrite lookup_insert_eq|].
  by rewrite lookup_insert_ne.
Qed.

(** The envelope under an identifier, in the outbox and in the dead letters. *)
Definition dead_entry (b : outbox) (sid id : string) : option (option pydict) :=
  x_entries (dead b sid) !! id.
(** [f] changes no envelope of [sid], [id]. *)
Definition spares (sid id : string) (f : outbox -> outbox) : Prop :=
  forall b, entry (f b) sid id = entry b sid id /\ dead_entry (f b) sid id = dead_entry b sid id.

Lemma entry_on_live sid sid' f b id :
  entry (on_live sid' f b) sid id =
    if decide (sid' = sid) then o_entries (f (live b sid)) !! id else entry b sid id.
Proof. unfold entry. rewrite live_on_live. by case_decide. Qed.

Lemma spares_live sid id sid' f :
  (forall o, o_entries (f o) !! id = o_entries o !! id) -> spares sid id (on_live sid' f).
Proof.
  intros Hf b. split; [|done]. rewrite entry_on_live. case_decide; [|done]. by rewrite Hf.
Qed.
Lemma spares_dead sid id sid' f :
  (forall x, x_entries (f x) !! id = x_entries x !! id) -> spares sid id (on_dead sid' f).
Proof.
  intros Hf b. split; [done|]. unfold dead_entry. rewrite dead_on_dead. case_decide; [|done].
  by rewrite Hf.
Qed.
Lemma spares_comp sid id f g :
  spares sid id f -> spares sid id g -> spares sid id (fun b => g (f b)).
Proof. intros Hf Hg b. destruct (Hf b), (Hg (f b)). split; congruence. Qed.

Lemma spares_mark sid id sid' id' now : spares sid id (_mark_delivered sid' id' now).
Proof. by apply spares_live. Qed.
Lemma spares_write_status sid id sid' id' kd d now : spares sid id (_write_status sid' id' kd d now).
Proof. by apply spares_live. Qed.
Lemma spares_write_meta sid id sid' id' m now : spares sid id (write_meta sid' id' m now).
Proof. by apply spares_live. Qed.
Lemma spares_rewrite_meta sid id sid' id' m now : spares sid id (rewrite_meta sid' id' m now).
Proof. by apply spares_live. Qed.
Lemma spares_pause sid id sid' id' why now : spares sid id (_pause_for_upgrade sid' id' why now).
Proof. intros b. apply spares_write_meta. Qed.
Lemma spares_reprobe sid id sid' id' now : spares sid id (fun b => (_reprobe_paused sid' id' now b).2).
Proof. intros b. unfold _reprobe_paused. repeat case_match; first [done | apply spares_write_meta]. Qed.
Lemma spares_record sid id sid' id' err t now :
  spares sid id (fun b => (_record_attempt sid' id' err t now b).2).
Proof. intros b. apply spares_write_meta. Qed.
#[export] Hint Resolve spares_mark spares_write_status spares_write_meta spares_rewrite_meta
  spares_pause spares_reprobe spares_record : s2p.

Lemma tmp_name_visible id id' : visible id = true -> tmp_name id' <> id.
Proof.
  intros Hv <-. unfold visible, tmp_name in Hv. rewrite prefix_app in Hv.
  by rewrite orb_true_r in Hv.
Qed.

Lemma ack_state sid id ph now b :
  (ack sid id ph now b).2 = b \/ (ack sid id ph now b).2 = _write_status sid id "ack" ph now b.
Proof.
  unfold ack, ack_checks. rewrite !st_bind_unfold. unfold ensure, gets.
  destruct (negb _); simpl; [|by left]. rewrite st_bind_unfold.
  destruct (bool_decide _); simpl; [by right|by left].
Qed.

(** The writes of another file spare [id], however many of them are made. *)
Lemma spares_steps sid id sid' id' e n :
  visible id = true -> (sid', id') <> (sid, id) -> spares sid id (run (take n (replace_steps sid' id' e))).
Proof.
  intros Hv Hne.
  assert (Hs : Forall (spares sid id) (replace_steps sid' id' e)).
  { destruct (decide (sid' = sid)) as [->|Hd].
    - assert (id' <> id) by congruence. pose proof (tmp_name_visible id id' Hv).
      unfold replace_steps. repeat (apply Forall_cons; split); [..|by apply Forall_nil];
        apply spares_live; intros o; simpl; rewrite lookup_insert_ne by done; try done.
      by rewrite lookup_delete_ne.
    - unfold replace_steps. repeat (apply Forall_cons; split); [..|by apply Forall_nil];
        intros b; (split; [|done]); by rewrite entry_on_live, decide_False. }
  apply (Forall_take _ n) in Hs. revert Hs. generalize (take n (replace_steps sid' id' e)).
  intros l Hl. induction Hl as [|f l Hf _ IH]; [by intros b|]. intros b. change (run (f :: l) b) with (run l (f b)).
  destruct (IH (f b)) as [-> ->]. apply Hf.
Qed.

Lemma run_replace sid id e b :
  entry (run (replace_steps sid id e) b) sid id = Some (Some e) /\
  dead_entry (run (replace_steps sid id e) b) sid id = dead_entry b sid id.
Proof.
  split; [|done]. unfold run. simpl. rewrite entry_on_live, decide_True by done. simpl.
  apply lookup_insert_eq.
Qed.

(** ** Custody *)

(** The same message: only the routing stamp may differ. *)
Definition same_message (e e' : pydict) : Prop :=
  forall k, k <> "_target_host" -> dget e' k = dget e k.
#[export] Instance same_message_preorder : PreOrder same_message.
Proof. split; [by intros e k|]. intros e1 e2 e3 H1 H2 k Hk. by rewrite H2, H1. Qed.

Definition copy (b : outbox) (sid id : string) (x : option pydict) : Prop :=
  entry b sid id = Some x \/ dead_entry b sid id = Some x.
(** The message [e] is kept under [id]: it is in the outbox or among the dead
    letters, and no other message is there in its place. *)
Record custody (sid id : string) (e : pydict) (b : outbox) : Prop := {
  cu_some : exists x, copy b sid id x;
  cu_all : forall x, copy b sid id x -> exists d, x = Some d /\ same_message e d }.

Section custody.
Context (sid id : string) (e : pydict).
Notation kept := (custody sid id e).

Lemma custody_spares f b : spares sid id f -> kept b -> kept (f b).
Proof.
  intros Hf [[x Hx] Ha]. destruct (Hf b) as [He Hd].
  split; [exists x|intros y]; unfold copy in *; rewrite He, Hd; auto.
Qed.

(** [f] puts the message into the outbox, or moves it. *)
Lemma custody_live b d :
  same_message e d -> entry b sid id = Some (Some d) ->
  (forall x, dead_entry b sid id = Some x -> exists d, x = Some d /\ same_message e d) -> kept b.
Proof.
  intros Hd He Hdead. split; [exists (Some d); by left|]. intros x [Hx|Hx]; [|by apply Hdead].
  rewrite He in Hx. injection Hx as <-. eauto.
Qed.
Lemma custody_dead b d :
  same_message e d -> dead_entry b sid id = Some (Some d) ->
  (forall x, entry b sid id = Some x -> exists d, x = Some d /\ same_message e d) -> kept b.
Proof.
  intros Hd He Hlive. split; [exists (Some d); by right|]. intros x [Hx|Hx]; [by apply Hlive|].
  rewrite He in Hx. injection Hx as <-. eauto.
Qed.

Lemma custody_stamp sid' id' b :
  visible id = true -> kept b -> kept (_stamp_outbox_target_host sid' id' b).
Proof.
  intros Hv Hk. unfold _stamp_outbox_target_host.
  destruct (entry b sid' id') as [[d|]|] eqn:Hd; try done. case_match; [done|].
  destruct (decide ((sid', id') = (sid, id))) as [[= -> ->]|Hne].
  - destruct (run_replace sid id (dset d "_target_host" (VStr "__local__")) b) as [He Hx].
    eapply custody_live; [|exact He|].
    + destruct (cu_all _ _ _ _ Hk (Some d)) as (d' & [= <-] & Hs); [by left|].
      intros k Hne. rewrite dget_dset_ne by done. by apply Hs.
    + intros x. rewrite Hx. intros ?. apply (cu_all _ _ _ _ Hk). by right.
  - apply custody_spares; [by apply (spares_steps sid id sid' id' _ 3)|done].
Qed.

(** Another write of the same message, or one of another. *)
Lemma custody_write sid' id' env b :
  visible id = true -> ((sid', id') = (sid, id) -> same_message e env) -> kept b ->
  kept (_write_outbox sid' id' env b).
Proof.
  intros Hv Hs Hk. unfold _write_outbox. destruct (entry b sid' id') eqn:Hd; [done|].
  destruct (decide ((sid', id') = (sid, id))) as [E|Hne].
  - specialize (Hs E). injection E as -> ->. destruct (run_replace sid id env b) as [He Hx].
    eapply custody_live; [exact Hs|exact He|]. intros x. rewrite Hx. intros ?.
    apply (cu_all _ _ _ _ Hk). by right.
  - apply custody_spares; [by apply (spares_steps sid id sid' id' _ 3)|done].
Qed.

(** A write interrupted before the rename leaves the envelopes as they were. *)
Lemma spares_interrupted sid' id' env n :
  visible id = true -> (n <= 2)%nat -> spares sid id (run (take n (replace_steps sid' id' env))).
Proof.
  intros Hv Hn. destruct (decide ((sid', id') = (sid, id))) as [[= -> ->]|]; [|by apply spares_steps].
  pose proof (tmp_name_visible id id Hv) as Ht. intros b.
  destruct n as [|[|[|n]]]; [done| | |lia]; (split; [|done]); unfold run; simpl;
    rewrite !entry_on_live, !decide_True by done; simpl; rewrite ?live_on_live, ?decide_True by done;
    simpl; by rewrite !lookup_insert_ne.
Qed.

End custody.

Lemma entry_on_dead sid sid' f b id : entry (on_dead sid' f b) sid id = entry b sid id.
Proof. done. Qed.
Lemma dead_entry_on_live sid sid' f b id : dead_entry (on_live sid' f b) sid id = dead_entry b sid id.
Proof. done. Qed.
Lemma dead_entry_on_dead sid sid' f b id :
  dead_entry (on_dead sid' f b) sid id =
    if decide (sid' = sid) then x_entries (f (dead b sid)) !! id else dead_entry b sid id.
Proof. unfold dead_entry. rewrite dead_on_dead. by case_decide. Qed.
#[export] Hint Rewrite entry_on_dead entry_on_live dead_entry_on_live dead_entry_on_dead
  live_on_live live_on_dead dead_on_live dead_on_dead : outbox.

(** Moving an envelope to the dead letters. *)
Lemma dead_letter_entry sid id reason b s i :
  entry (_dead_letter sid id reason b).2 s i
    = (if decide ((s, i) = (sid, id)) then None else entry b s i) /\
  dead_entry (_dead_letter sid id reason b).2 s i
    = (if decide ((s, i) = (sid, id))
       then match entry b sid id with Some x => Some x | None => dead_entry b sid id end
       else dead_entry b s i).
Proof.
  assert (Hi : forall o : obox, (s, i) <> (sid, id) -> sid = s ->
            delete id (o_entries o) !! i = o_entries o !! i).
  { intros o Hne ->. apply lookup_delete_ne. congruence. }
  assert (Hj : forall x (m : gmap string (option pydict)), (s, i) <> (sid, id) -> sid = s ->
            <[id := x]> m !! i = m !! i).
  { intros x m Hne ->. apply lookup_insert_ne. congruence. }
  unfold _dead_letter. cbv zeta. rewrite entry_on_dead.
  destruct (entry b sid id) as [x|] eqn:Hx.
  - destruct (o_status _ !! id) as [st|]; [destruct (x_status _ !! id) as [[s' []]|]|]; simpl;
      repeat (rewrite ?entry_on_dead, ?entry_on_live, ?dead_entry_on_live, ?dead_entry_on_dead,
                ?live_on_live, ?live_on_dead, ?dead_on_live, ?dead_on_dead; simpl);
      (destruct (decide ((s, i) = (sid, id))) as [[= -> ->]|Hne];
       [rewrite !decide_True by done; simpl; by rewrite ?lookup_delete_eq, ?lookup_insert_eq
       |destruct (decide (sid = s)) as [->|]; simpl; rewrite ?Hi, ?Hj by done; done]).
  - simpl. rewrite entry_on_dead, dead_entry_on_dead.
    destruct (decide ((s, i) = (sid, id))) as [[= -> ->]|]; [by rewrite decide_True|].
    destruct (decide (sid = s)) as [->|]; done.
Qed.

Lemma custody_dead_letter sid id e sid' id' reason b :
  custody sid id e b -> custody sid id e (_dead_letter sid' id' reason b).2.
Proof.
  intros Hk. pose proof (dead_letter_entry sid' id' reason b sid id) as [He Hd].
  destruct (decide ((sid, id) = (sid', id'))) as [[= <- <-]|Hne].
  - destruct (entry b sid id) as [x|] eqn:Hx.
    + destruct (cu_all _ _ _ _ Hk x) as (d & -> & Hs); [by left|].
      eapply custody_dead; [exact Hs|exact Hd|]. intros y. by rewrite He.
    + destruct Hk as [[x [Hc|Hc]] Ha]; [congruence|]. split; [exists x; right; congruence|].
      intros y [Hy|Hy]; [congruence|]. apply Ha. right. congruence.
  - destruct Hk as [[x Hx] Ha].
    split; [exists x|intros y]; unfold copy in *; rewrite He, Hd; auto.
Qed.

Lemma custody_requeue sid id e sid' id' now b :
  custody sid id e b -> custody sid id e (dead_letter_requeue sid' id' now b).2.
Proof.
  intros Hk. unfold dead_letter_requeue. destruct (x_entries (dead b sid') !! id') as [x|] eqn:Hx; [|done].
  cbn [snd]. apply custody_spares; [auto with s2p|].
  assert (Hc : forall y, copy b sid id y -> exists d, y = Some d /\ same_message e d) by apply Hk.
  destruct (decide ((sid, id) = (sid', id'))) as [[= <- <-]|Hne].
  - destruct (Hc x) as (d & -> & Hs); [by right|].
    eapply custody_live; [exact Hs| |].
    + rewrite entry_on_live, decide_True by done. apply lookup_insert_eq.
    + intros y. rewrite dead_entry_on_live, dead_entry_on_dead, decide_True by done. simpl.
      by rewrite lookup_delete_eq.
  - apply custody_spares.
    { intros b1. split; [|done]. rewrite entry_on_live. case_decide as E; [subst|done].
      simpl. apply lookup_insert_ne. congruence. }
    apply custody_spares; [|done].
    intros b1. split; [done|]. rewrite dead_entry_on_dead. case_decide as E; [subst|done].
    simpl. apply lookup_delete_ne. congruence.
Qed.

Lemma custody_failure sid id e sid' id' err now b :
  custody sid id e b -> custody sid id e (_handle_flush_failure sid' id' err now b).2.
Proof.
  intros Hk. unfold _handle_flush_failure. case_match.
  { apply custody_spares; [auto with s2p|done]. }
  assert (Hr : custody sid id e (_record_attempt sid' id' err (_is_terminal_error err) now b).2).
  { pose proof (spares_record sid id sid' id' err (_is_terminal_error err) now) as Hs.
    by apply (custody_spares _ _ _ _ _ Hs). }
  destruct (_record_attempt _ _ _ _ _ b) as [n b1]. simpl in Hr.
  repeat case_match; [by apply custody_dead_letter..|done].
Qed.

(** The sweep removes what has been delivered only. *)
Lemma sweep_box_entry cutoff o id :
  o_delivered o !! id = None ->
  o_entries (sweep_box cutoff o).2 !! id = o_entries o !! id /\
  o_delivered (sweep_box cutoff o).2 !! id = None.
Proof.
  intros Hm. unfold sweep_box. simpl.
  set (expired := filter (fun x : string * Z => x.2 < cutoff) (o_delivered o)).
  assert (He : expired !! id = None) by (apply map_lookup_filter_None; by left).
  split; [|apply lookup_difference_None; by left].
  destruct (o_entries o !! id) as [x|] eqn:Hx; [|by apply lookup_difference_None; left].
  apply lookup_difference_Some. split; [done|]. apply map_lookup_filter_None. right.
  intros y Hy [z Hz]. simpl in Hz. congruence.
Qed.

Lemma sweep_entry days now b sid id :
  o_delivered (live b sid) !! id = None ->
  entry (sweep days now b).2 sid id = entry b sid id /\
  dead_entry (sweep days now b).2 sid id = dead_entry b sid id.
Proof.
  unfold sweep. cbv zeta. generalize (_list_sessions b). intros l Hm. generalize 0%nat.
  revert b Hm. induction l as [|s l IH]; intros b Hm n; [done|]. cbn [foldl].
  destruct (sweep_box (now - days * 86400 * 1000) (live b s)) as [k o] eqn:Ho.
  assert (Hl : exists o', live {| b_live := if box_empty o then delete s (b_live b) else <[s:=o]> (b_live b);
                     b_dead := b_dead b |} sid = (if decide (s = sid) then o' else live b sid) /\
            o_entries o' = o_entries o /\ o_delivered o' = o_delivered o).
  { unfold live at 1. simpl. destruct (box_empty o) eqn:Eb.
    - exists empty_obox. unfold box_empty in Eb. apply bool_decide_eq_true in Eb as (-> & -> & _).
      split; [|done]. case_decide; [subst; by rewrite lookup_delete_eq|by rewrite lookup_delete_ne].
    - exists o. split; [|done]. case_decide; [subst; by rewrite lookup_insert_eq|by rewrite lookup_insert_ne]. }
  destruct Hl as (o' & Hl & He & Hd).
  edestruct IH as [-> ->].
  - rewrite Hl. case_decide; [|done]. subst s. rewrite Hd.
    pose proof (sweep_box_entry (now - days * 86400 * 1000) _ _ Hm) as [_ Hs]. by rewrite Ho in Hs.
  - split; [|done]. unfold entry. rewrite Hl. case_decide; [|done]. subst s. rewrite He.
    pose proof (sweep_box_entry (now - days * 86400 * 1000) _ _ Hm) as [Hs _]. by rewrite Ho in Hs.
Qed.

(** ** Retries *)

Lemma meta_write_meta sid id m now b : meta_of (write_meta sid id m now b) sid id = Some (Some m).
Proof.
  unfold meta_of, write_meta. rewrite live_on_live, decide_True by done. simpl.
  rewrite lookup_insert_eq. by destruct (o_status (live b sid) !! id).
Qed.

Lemma meta_rewrite_meta sid id m now b : meta_of (rewrite_meta sid id m now b) sid id = Some (Some m).
Proof.
  unfold meta_of, rewrite_meta. rewrite live_on_live, decide_True by done. simpl.
  rewrite lookup_insert_eq. by destruct (o_status (live b sid) !! id).
Qed.

(** Reads the boxes of one session after a sequence of changes to it. *)
Ltac boxes := repeat first
  [ rewrite live_on_dead | rewrite live_on_live | rewrite dead_on_live | rewrite dead_on_dead
  | rewrite decide_True by done | progress cbn [set_entries set_status set_delivered o_entries
      o_status o_delivered x_entries x_status x_reason fst snd] ].

(** The wait after the [n]-th failed attempt. *)
Definition backoff (n : Z) : Z := _backoff_base_ms * 2 ^ (n - 1).

(** A failure that may be retried, with attempts left. *)
Lemma failure_retry sid id err now b :
  _is_terminal_error err = false -> a_count (read_meta b sid id) + 1 < _max_attempts ->
  let b' := (_handle_flush_failure sid id err now b).2 in
  (_handle_flush_failure sid id err now b).1 = Ok tt /\
  meta_of b' sid id = Some (Some (attempted (read_meta b sid id) err false now)) /\
  entry b' sid id = entry b sid id /\ dead b' = dead b /\ o_delivered (live b' sid) = o_delivered (live b sid).
Proof.
  intros Ht Hn. unfold _handle_flush_failure. rewrite Ht. cbn [andb].
  unfold _record_attempt. cbn [a_count attempted].
  assert ((_max_attempts <=? a_count (read_meta b sid id) + 1) = false) as -> by lia.
  cbn [fst snd]. split; [done|]. split; [apply meta_write_meta|]. split; [by apply spares_write_meta|].
  split; [done|]. unfold write_meta. by rewrite live_on_live, decide_True.
Qed.

(** The last one. *)
Lemma failure_exhausted sid id err now b e :
  _is_terminal_error err = false -> _max_attempts <= a_count (read_meta b sid id) + 1 ->
  entry b sid id = Some e -> x_status (dead b sid) !! id = None ->
  let b' := (_handle_flush_failure sid id err now b).2 in
  (_handle_flush_failure sid id err now b).1 = Ok tt /\
  entry b' sid id = None /\ dead_entry b' sid id = Some e /\
  o_status (live b' sid) !! id = None /\
  exists reason, x_reason (dead b' sid) !! id = Some reason.
Proof.
  intros Ht Hn He Hx. cbv zeta. unfold _handle_flush_failure. rewrite Ht. cbn [andb].
  unfold _record_attempt. cbn [a_count attempted].
  assert ((_max_attempts <=? a_count (read_meta b sid id) + 1) = true) as -> by lia.
  set (b1 := write_meta _ _ _ _ _).
  assert (He1 : entry b1 sid id = Some e) by (rewrite <-He; apply spares_write_meta).
  assert (Hm1 : is_Some (o_status (live b1 sid) !! id)).
  { pose proof (meta_write_meta sid id (attempted (read_meta b sid id) err false now) now b) as Hm.
    unfold meta_of in Hm. apply bind_Some in Hm as (s & Hs & _). by exists s. }
  assert (Hx1 : x_status (dead b1 sid) !! id = None) by done. clearbody b1.
  set (reason := str_take 300 _).
  pose proof (dead_letter_entry sid id reason b1 sid id) as [Hl Hd].
  rewrite decide_True in Hl, Hd by done. rewrite He1 in Hd. split; [|split; [done|split; [done|]]].
  - unfold _dead_letter. cbv zeta. rewrite entry_on_dead, He1.
    repeat (case_match; simpl; try done).
    all: repeat match goal with H : context [dead (on_dead _ _ _) _] |- _ =>
           rewrite dead_on_dead, decide_True in H by done; simpl in H
         | H : context [dead (on_live _ _ _) _] |- _ => rewrite dead_on_live in H end; congruence.
  - unfold _dead_letter. cbv zeta. rewrite entry_on_dead, He1.
    destruct Hm1 as [s Hs].
    boxes. rewrite Hs. boxes. rewrite Hx1. boxes.
    split; [apply lookup_delete_eq|]. eexists. apply lookup_insert_eq.
Qed.

(** a dead letter put back comes back as it went: the envelope is in the
    outbox again and no longer a dead letter, the attempts made are forgotten
    and it is due at once, whatever the reason it went for. *)
Theorem requeue_restores sid id e reason now t b :
  entry b sid id = Some e -> x_status (dead b sid) !! id = None ->
  exists b1 b2, _dead_letter sid id reason b = (Ok tt, b1) /\
    entry b1 sid id = None /\ dead_entry b1 sid id = Some e /\
    dead_letter_requeue sid id now b1 = (true, b2) /\
    entry b2 sid id = Some e /\ dead_entry b2 sid id = None /\
    read_meta b2 sid id = requeued no_attempts /\ _attempt_due sid id t b2 = true /\
    _is_paused sid id b2 = false.
Proof.
  intros He Hx. pose proof (dead_letter_entry sid id reason b sid id) as [Hl Hd].
  rewrite decide_True in Hl, Hd by done. rewrite He in Hd.
  assert (H1 : (_dead_letter sid id reason b).1 = Ok tt /\
               meta_of (_dead_letter sid id reason b).2 sid id = None).
  { unfold _dead_letter. cbv zeta. rewrite entry_on_dead, He.
    boxes. rewrite Hx. unfold meta_of.
    destruct (o_status (live b sid) !! id) as [s|] eqn:Es; boxes; (split; [done|]).
    - by rewrite lookup_delete_eq.
    - by rewrite Es. }
  destruct H1 as [H1 Hm]. destruct (_dead_letter sid id reason b) as [r b1]. simpl in *. subst r.
  exists b1. unfold dead_letter_requeue. unfold dead_entry in Hd. rewrite Hd. eexists.
  split; [done|]. split; [done|]. split; [done|]. split; [reflexivity|].
  set (b2 := on_live sid _ (on_dead sid _ b1)).
  assert (Hr : read_meta b2 sid id = no_attempts).
  { unfold read_meta, meta_of, b2. rewrite live_on_live, decide_True by done. cbn [set_entries o_status].
    rewrite live_on_dead. unfold meta_of in Hm. by rewrite Hm. }
  rewrite Hr. set (b3 := rewrite_meta _ _ _ _ _).
  assert (Hm3 : meta_of b3 sid id = Some (Some (requeued no_attempts))) by apply meta_rewrite_meta.
  destruct (spares_rewrite_meta sid id sid id (requeued no_attempts) now b2) as [He3 Hd3].
  fold b3 in He3, Hd3. rewrite He3, Hd3. unfold b2 at 1 2.
  rewrite entry_on_live, decide_True by done. cbn [set_entries o_entries].
  rewrite lookup_insert_eq, dead_entry_on_live, dead_entry_on_dead, decide_True by done.
  cbn [x_entries]. rewrite lookup_delete_eq. unfold read_meta, _attempt_due, _is_paused. by rewrite Hm3.
Qed.
