(* ===== verification/Delivery.v ===== *)
(** * Delivery engine
      (src/src/codeagent/swarm/delivery.py; HostSpec and resolve_is_local of
      domain/__init__.py)

    The engine writes a message into the durable outbox, tries to send it to
    its host, and retries from the outbox.  A message to this machine goes
    through the mailbox command line (MailboxService.v), one to another host
    through a transport.  [EngineDeliverySink] is the instance of the kernel's
    sink interface. *)
From S2P Require Import Prelude MailboxProtocol MailboxStore SwarmKernel MailboxService Outbox.

(** ** Hosts *)
Record HostSpec := { h_name : string; h_ssh_alias : string; h_hostnames : list string;
                     h_shell_prefix : string; h_transport : string; h_fallback : string }.
Definition adhoc_host (alias : string) (hostnames : list string) : HostSpec :=
  {| h_name := alias; h_ssh_alias := alias; h_hostnames := hostnames; h_shell_prefix := "";
     h_transport := "ssh"; h_fallback := "" |}.
(** The copy the engine makes of a host of the repository map: the transport
    is not copied. *)
Definition rebuilt (spec : HostSpec) : HostSpec :=
  {| h_name := h_name spec; h_ssh_alias := h_ssh_alias spec; h_hostnames := h_hostnames spec;
     h_shell_prefix := h_shell_prefix spec; h_transport := "ssh"; h_fallback := h_fallback spec |}.

Definition resolve_is_local (hostname : string) (host : HostSpec) : bool :=
  let actual := lower hostname in
  existsb (fun candidate =>
    let c := lower candidate in
    negb (String.eqb c "")
    && (String.eqb c actual || String.eqb (before "."%char c) (before "."%char actual)))
    (h_hostnames host).

(** ** Receipts *)
Record Receipt := { rc_status : string; rc_msg_id : string; rc_error : string; rc_queued : bool }.
Definition accepted (id : string) : Receipt :=
  {| rc_status := "accepted"; rc_msg_id := id; rc_error := ""; rc_queued := true |}.
Definition delivered (id : string) : Receipt :=
  {| rc_status := "delivered"; rc_msg_id := id; rc_error := ""; rc_queued := false |}.
Definition failed (error : string) : Receipt :=
  {| rc_status := "failed"; rc_msg_id := ""; rc_error := error; rc_queued := false |}.
Module Receipt.
Definition to_dict (r : Receipt) : pydict :=
  [("status", VStr (rc_status r)); ("msg_id", VStr (rc_msg_id r)); ("error", VStr (rc_error r));
   ("queued", VBool (rc_queued r))].
Definition from_dict (d : pydict) : pyval * pyval * pyval * pyval :=
  (dgetd d "status" (VStr "accepted"), dgetd d "msg_id" (VStr ""), dgetd d "error" (VStr ""),
   dgetd d "queued" (VBool false)).
End Receipt.

(** ** The engine *)

(** The files ([boxes]) and the caches of the process; [rosters] and
    [ensured] carry the time of the entry. *)
Record engine := {
  boxes : outbox;
  cache : gmap string Receipt;
  host_cache : gmap string HostSpec;
  ensured : gmap (string * string) Z;
  rosters : gmap string (Z * list string);
  capabilities : gmap string (list string);
  last_sweep : Z }.
Definition set_boxes x e := {| boxes := x; cache := cache e; host_cache := host_cache e;
  ensured := ensured e; rosters := rosters e; capabilities := capabilities e;
  last_sweep := last_sweep e |}.
Definition set_cache x e := {| boxes := boxes e; cache := x; host_cache := host_cache e;
  ensured := ensured e; rosters := rosters e; capabilities := capabilities e;
  last_sweep := last_sweep e |}.
Definition set_host_cache x e := {| boxes := boxes e; cache := cache e; host_cache := x;
  ensured := ensured e; rosters := rosters e; capabilities := capabilities e;
  last_sweep := last_sweep e |}.
Definition set_ensured x e := {| boxes := boxes e; cache := cache e; host_cache := host_cache e;
  ensured := x; rosters := rosters e; capabilities := capabilities e; last_sweep := last_sweep e |}.
Definition set_rosters x e := {| boxes := boxes e; cache := cache e; host_cache := host_cache e;
  ensured := ensured e; rosters := x; capabilities := capabilities e; last_sweep := last_sweep e |}.
Definition set_capabilities x e := {| boxes := boxes e; cache := cache e;
  host_cache := host_cache e; ensured := ensured e; rosters := rosters e; capabilities := x;
  last_sweep := last_sweep e |}.
Definition set_last_sweep x e := {| boxes := boxes e; cache := cache e; host_cache := host_cache e;
  ensured := ensured e; rosters := rosters e; capabilities := capabilities e; last_sweep := x |}.
(** A new process: the files stay, the caches are empty. *)
Definition start (b : outbox) : engine :=
  {| boxes := b; cache := ∅; host_cache := ∅; ensured := ∅; rosters := ∅; capabilities := ∅;
     last_sweep := 0 |}.

Definition _retention_days : Z := 7.
Definition _sweep_interval_ms : Z := 3600 * 1000.
Definition _roster_ttl_ms : Z := 300 * 1000.
Definition _ensure_ttl_ms : Z := 300 * 1000.

Definition _history_entry (envelope : pydict) (id : string) : res pydict :=
  do m <- Message.from_dict
            (dset (dset envelope "msg_id" (VStr id)) "protocol_version"
               (dgetd envelope "protocol_version" (VInt PROTOCOL_VERSION)));
  Ok (Message.to_dict m).

(** What the engine calls and the repository does not define here: the
    network with the mailboxes of the other hosts (its state is [W]), the
    router, the repository map, argparse, json and the interpreter's [repr]. *)
Class Network (W : Type) := {
  (** [transport.mailbox]: exit status, output and error output. *)
  remote_mailbox : HostSpec -> list string -> st W (Z * (string * string));
  (** [router.get] finds a transport. *)
  has_transport : HostSpec -> res bool;
  (** [router.capabilities]; [None] when there is no router. *)
  router_capabilities : option (HostSpec -> res (list string));
  repo_hosts : string -> option HostSpec;
  hostname : string;
  option_like : string -> bool;
  json_loads : string -> option pyval;
  json_dumps : pyval -> string;
  py_repr : pyval -> string }.

(** The state of a delivery: the engine, the mailboxes of this machine, the
    network. *)
Record world (W : Type) := { eng : engine; mail : gmap string session; net : W }.
Arguments eng {W}.
Arguments mail {W}.
Arguments net {W}.

Section engine.
Context {W : Type} `{Network W}.
Notation M := (st (world W)).

Definition on_engine {A} (m : st engine A) : M A := fun w =>
  let r := m (eng w) in (r.1, {| eng := r.2; mail := mail w; net := net w |}).
Definition on_boxes {A} (m : st outbox A) : M A := fun w =>
  let r := m (boxes (eng w)) in
  (r.1, {| eng := set_boxes r.2 (eng w); mail := mail w; net := net w |}).
Definition upd_boxes (f : outbox -> outbox) : M unit := on_boxes (modify f).
Definition put_cache (id : string) (r : Receipt) : M unit :=
  on_engine (modify (fun e => set_cache (<[id := r]> (cache e)) e)).
Definition on_mail {A} (m : st (gmap string session) A) : M A := fun w =>
  let r := m (mail w) in (r.1, {| eng := eng w; mail := r.2; net := net w |}).
Definition on_net {A} (m : st W A) : M A := fun w =>
  let r := m (net w) in (r.1, {| eng := eng w; mail := mail w; net := r.2 |}).

(** [try: m except Exception as exc: text]: [None] when [m] succeeded. *)
Definition attempt (m : M unit) : M (option string) := fun w =>
  match m w with
  | (Ok _, w') => (Ok None, w')
  | (Raise e, w') => (Ok (Some (exn_text e)), w')
  end.

(** *** Caches *)
Definition cache_host (agent_id : string) (host : HostSpec) : M unit :=
  on_engine (modify (fun e => set_host_cache (<[agent_id := host]> (host_cache e)) e)).
Definition _invalidate_ensured (session_id : string) : M unit :=
  on_engine (modify (fun e =>
    set_ensured (filter (fun x => x.1.1 <> session_id) (ensured e)) e)).
Definition cache_roster (session_id : string) (roster : list string) (now : Z) : M unit :=
  let new_roster := sorted_set roster in
  prev ← gets (fun w => rosters (eng w) !! session_id);
  _ ← match prev with
      | Some p => if bool_decide (p.2 = new_roster) then mret tt else _invalidate_ensured session_id
      | None => mret tt
      end;
  on_engine (modify (fun e => set_rosters (<[session_id := (now, new_roster)]> (rosters e)) e)).

(** The alias under which a host is cached. *)
Definition host_alias (host : HostSpec) : string :=
  if String.eqb (h_ssh_alias host) "" then h_name host else h_ssh_alias host.

Definition _check_capability (host : HostSpec) : M unit :=
  match router_capabilities with
  | None => mret tt
  | Some probe =>
    let alias := host_alias host in
    if String.eqb alias "" then mret tt else
    known ← gets (fun w => capabilities (eng w) !! alias);
    caps ← match known with
           | Some caps => mret caps
           | None =>
             match probe host with
             | Raise e => raise (RuntimeError ("cannot verify 'mailbox' capability for host '"
                                               +:+ alias +:+ "': " +:+ exn_text e))
             | Ok caps =>
               _ ← on_engine (modify (fun e => set_capabilities (<[alias := caps]> (capabilities e)) e));
               mret caps
             end
           end;
    ensure (bool_decide ("mailbox" ∈ caps))
      (RuntimeError ("host '" +:+ alias +:+ "' transport lacks 'mailbox' capability"))
  end.

(** *** Sessions on the other host *)
Definition join (l : list string) : string := String.concat "," l.
(** [err or out] *)
Definition output (oe : string * string) : string := if String.eqb oe.2 "" then oe.1 else oe.2.

Definition _local_session_acl (session_id : string) (w : world W) : option pyval :=
  (mail w !! session_id ≫= meta) ≫= m_acl.

Definition init_args (session_id manager : string) (roster : list string) (acl : option pyval) :
    list string :=
  ["session-init"; "--session"; session_id; "--manager"; manager; "--agents";
   join (sorted_set roster)] ++
  match acl with Some a => ["--acl"; json_dumps a] | None => [] end.

Definition _ensure_remote_session (session_id : string) (host : HostSpec) (manager : string)
    (roster : list string) (now : Z) : M unit :=
  let key := (session_id, host_alias host) in
  known ← gets (fun w => ensured (eng w) !! key);
  if match known with Some t => now - t <? _ensure_ttl_ms | None => false end then mret tt else
  acl ← gets (_local_session_acl session_id);
  '(code, oe) ← on_net (remote_mailbox host (init_args session_id manager roster acl));
  _ ← ensure ((code =? 0) || contains "already exists" (output oe))
        (RuntimeError ("remote session-init failed (exit " +:+ pretty code +:+ "): " +:+ output oe));
  on_engine (modify (fun e => set_ensured (<[key := now]> (ensured e)) e)).

(** The roster and manager for the session on the other host: a fresh cached
    roster with the sender as manager, or the session's own, or a roster of
    sender and recipient. *)
Definition remote_roster (envelope : pydict) (now : Z) : M (string * list string) :=
  let sid := dstr envelope "session_id" in
  let from := dstr envelope "from" in
  cached ← gets (fun w => rosters (eng w) !! sid);
  match (match cached with
         | Some c => if now - c.1 <? _roster_ttl_ms then Some c.2 else None
         | None => None
         end) with
  | Some roster => mret (from, roster)
  | None =>
    m ← gets (fun w => mail w !! sid ≫= meta);
    match m with
    | Some m =>
      match m_agents m with
      | [] => mret (from, sorted_set [from; dstr envelope "to"])
      | agents =>
        let roster := sorted_set agents in
        _ ← on_engine (modify (fun e => set_rosters (<[sid := (now, roster)]> (rosters e)) e));
        mret (if String.eqb (m_manager m) "" then from else m_manager m, roster)
      end
    | None => mret (from, sorted_set [from; dstr envelope "to"])
    end
  end.

(** *** Sending *)
Definition opt_arg (flag value : string) : list string :=
  if String.eqb value "" then [] else [flag; value].
(** [envelope.get("attachments") or []], of a list. *)
Definition envelope_attachments (envelope : pydict) : list pyval :=
  match dgetd envelope "attachments" VNone with VList l => l | _ => [] end.
Definition _build_mailbox_args (envelope : pydict) : list string :=
  let v k := dstr envelope k in
  ["send"; "--session"; v "session_id"; "--from"; v "from"; "--to"; v "to";
   "--subject"; v "subject"; "--body"; v "body";
   "--kind"; (if dmem envelope "kind" then v "kind" else "TASK"); "--msg-id"; v "msg_id"] ++
  (if truthy (dgetd envelope "require_ack" (VBool false)) then ["--require-ack"] else []) ++
  opt_arg "--receipt-type" (v "receipt_type") ++
  concat (map (fun att => ["--attachment"; json_dumps att]) (envelope_attachments envelope)) ++
  opt_arg "--reply-to" (v "reply_to") ++ opt_arg "--run-id" (v "run_id") ++
  opt_arg "--request-id" (v "request_id") ++ opt_arg "--trace-id" (v "trace_id") ++
  opt_arg "--causation-id" (v "causation_id").

(** [LocalTransport.mailbox] on the message; the identifier is given, so none
    is drawn. *)
Definition local_send (envelope : pydict) (id : string) (now : Z) : M unit :=
  '(code, err) ← on_mail (cli_send option_like json_loads py_repr
                    (_build_mailbox_args (dset envelope "msg_id" (VStr id))) "" now);
  ensure (code =? 0)
    (RuntimeError ("local mailbox send failed (exit " +:+ pretty code +:+ "): " +:+ err)).

Definition _remote_send (host : HostSpec) (envelope : pydict) (now : Z) : M unit :=
  there ← lift (has_transport host);
  _ ← ensure there (ValueError ("no transport for host '" +:+ h_name host +:+ "'"));
  _ ← _check_capability host;
  '(manager, roster) ← remote_roster envelope now;
  _ ← _ensure_remote_session (dstr envelope "session_id") host manager roster now;
  '(code, oe) ← on_net (remote_mailbox host (_build_mailbox_args envelope));
  ensure (code =? 0)
    (RuntimeError ("remote mailbox send failed (exit " +:+ pretty code +:+ "): " +:+ output oe)).

Definition _resolve_target (alias : string) (e : engine) : HostSpec :=
  match host_cache e !! alias with
  | Some h => h
  | None => match repo_hosts alias with
            | Some spec => rebuilt spec
            | None => adhoc_host alias []
            end
  end.

(** The canonical history record of a message sent to another host; a
    failure is logged only. *)
Definition record_history (sid : string) (envelope : pydict) (id : string) (now : Z) : M unit :=
  _ ← attempt (m ← lift (_history_entry envelope id);
               on_mail (fun disk =>
                 let r := append_history sid m now (default empty_session (disk !! sid)) in
                 (do _ <- r.1; Ok tt, <[sid := r.2]> disk)));
  mret tt.

Definition _check_idempotency (sid id : string) : M (option Receipt) :=
  e ← gets eng;
  match cache e !! id with
  | Some r => mret (Some r)
  | None =>
    match entry (boxes e) sid id with
    | None => mret None
    | Some _ =>
      let r := if is_delivered (boxes e) sid id then delivered id else accepted id in
      _ ← put_cache id r; mret (Some r)
    end
  end.

(** [envelope.setdefault(k, v)] *)
Definition setdefault (d : pydict) (k : string) (v : pyval) : pydict :=
  if dmem d k then d else dset d k v.

(** The second half of [deliver]: the transport, or the mailbox of this
    machine, and what is written about the outcome. *)
Definition route (sid id : string) (host : option HostSpec) (envelope : pydict) (now : Z) :
    M Receipt :=
  failure ← attempt match host with
                    | Some h => _remote_send h envelope now
                    | None => local_send envelope id now
                    end;
  match failure with
  | Some why =>
    _ ← upd_boxes (_write_status sid id
          (if host then "transport_failed" else "local_delivery_failed") why now);
    _ ← (if host then mret tt else upd_boxes (_stamp_outbox_target_host sid id));
    mret (accepted id)
  | None =>
    _ ← upd_boxes (_mark_delivered sid id now);
    _ ← (if host then record_history sid envelope id now else mret tt);
    _ ← put_cache id (delivered id);
    mret (delivered id)
  end.

(** The host to send to over a transport; [None]: this machine. *)
Definition remote_target (target : option HostSpec) : option HostSpec :=
  match target with
  | Some h => if String.eqb (h_ssh_alias h) "" || resolve_is_local hostname h then None else Some h
  | None => None
  end.

(** [deliver]: [target] is a host, or [None] for an agent without one. *)
Definition deliver (session_id : string) (target : option HostSpec) (envelope : pydict) (now : Z) :
    M Receipt :=
  let id := dstr envelope "msg_id" in
  let sid := if dmem envelope "session_id" then dstr envelope "session_id" else session_id in
  if String.eqb id "" then mret (failed "envelope missing msg_id") else
  let host := remote_target target in
  let envelope := if host then envelope
                  else setdefault envelope "_target_host" (VStr "__local__") in
  known ← _check_idempotency sid id;
  match known with
  | Some r =>
    _ ← (if eq_str (dgetd envelope "_target_host" VNone) "__local__"
         then upd_boxes (_stamp_outbox_target_host sid id) else mret tt);
    mret r
  | None =>
    _ ← upd_boxes (_write_outbox sid id envelope);
    _ ← put_cache id (accepted id);
    route sid id host envelope now
  end.

(** *** Retrying *)
Definition _sweep_ttl_lazy (now : Z) : M unit :=
  e ← gets eng;
  if now - last_sweep e <? _sweep_interval_ms then mret tt else
  _ ← on_engine (modify (set_last_sweep now));
  upd_boxes (fun b => (sweep _retention_days now b).2).

(** The skips of the loop over the envelope files: delivered, consumed, paused
    (re-probed first), not due. *)
Definition is_consumed (b : outbox) (sid id : string) : bool :=
  match o_status (live b sid) !! id with
  | Some s => match s_phase s with Some ph => String.eqb (strip ph) "consumed" | None => false end
  | None => false
  end.
Definition retry_due (sid id : string) (now : Z) : M bool :=
  b ← gets (fun w => boxes (eng w));
  if is_delivered b sid id || is_consumed b sid id then mret false else
  _ ← (if _is_paused sid id b then upd_boxes (fun b => (_reprobe_paused sid id now b).2) else mret tt);
  b ← gets (fun w => boxes (eng w));
  mret (negb (_is_paused sid id b) && _attempt_due sid id now b).

(** The body of the loop: whether the message was delivered. *)
Definition flush_entry (sid id : string) (now : Z) : M bool :=
  due ← retry_due sid id now;
  b ← gets (fun w => boxes (eng w));
  match (if due : bool then entry b sid id else None) with
  | Some (Some envelope) =>
    let alias := dgetd envelope "_target_host" (VStr "") in
    if negb (truthy alias) then mret false else
    e ← gets eng;
    let alias := dstr envelope "_target_host" in
    let target := _resolve_target alias e in
    let here := String.eqb alias "__local__" || resolve_is_local hostname target in
    failure ← attempt (if here then local_send envelope id now else _remote_send target envelope now);
    match failure with
    | Some why => _ ← on_boxes (_handle_flush_failure sid id why now); mret false
    | None =>
      _ ← upd_boxes (_mark_delivered sid id now);
      recorded ← gets (fun w => bool_decide
                        (is_Some (history (default empty_session (mail w !! sid)) !! id)));
      _ ← (if here && recorded then mret tt else record_history sid envelope id now);
      _ ← put_cache id (delivered id);
      mret true
    end
  | _ => mret false
  end.

Fixpoint flush_entries (sid : string) (ids : list string) (now : Z) : M nat :=
  match ids with
  | [] => mret 0%nat
  | id :: ids' =>
    r ← flush_entry sid id now;
    n ← flush_entries sid ids' now;
    mret ((if r : bool then 1 else 0) + n)%nat
  end.
Fixpoint flush_sessions (sids : list string) (now : Z) : M nat :=
  match sids with
  | [] => mret 0%nat
  | sid :: sids' =>
    ids ← gets (fun w => envelope_files (boxes (eng w)) sid);
    n ← flush_entries sid ids now;
    m ← flush_sessions sids' now;
    mret (n + m)%nat
  end.
Definition flush (session_id : option string) (now : Z) : M nat :=
  _ ← _sweep_ttl_lazy now;
  sids ← gets (fun w => sessions_of session_id (_list_sessions (boxes (eng w))));
  flush_sessions sids now.

Definition engine_ack (sid id ph : string) (now : Z) : M unit :=
  _ ← on_boxes (ack sid id ph now);
  if String.eqb ph "consumed" then put_cache id (delivered id) else mret tt.

(** *** The sink *)
Definition sink_envelope (session_id target_agent : string) (e : Envelope)
    (id created_at from_id : string) : pydict :=
  let d := [("session_id", VStr session_id); ("from", VStr from_id); ("to", VStr target_agent);
            ("subject", VStr (e_subject e)); ("body", VStr (e_body e)); ("kind", VStr (e_kind e));
            ("reply_to", VStr (e_reply_to e)); ("run_id", VStr (e_run_id e));
            ("request_id", VStr (e_request_id e)); ("trace_id", VStr (e_trace_id e));
            ("causation_id", VStr (e_causation_id e)); ("require_ack", VBool (e_require_ack e));
            ("receipt_type", VStr (e_receipt_type e)); ("msg_id", VStr id);
            ("created_at", VStr created_at); ("_target_agent", VStr target_agent)] in
  match e_attachments e with
  | [] => d
  | l => dset d "attachments" (VList (map (fun a => VDict (AttachmentRef.to_dict a)) l))
  end.

Definition deliver_sink (session_id target_agent : string) (e : Envelope)
    (id created_at from_id : string) (now : Z) : M Receipt :=
  let d := sink_envelope session_id target_agent e id created_at from_id in
  host ← gets (fun w => host_cache (eng w) !! target_agent);
  match host with
  | Some h => deliver session_id (Some h) (dset d "_target_host" (VStr (h_ssh_alias h))) now
  | None => deliver session_id None d now
  end.

(** The host the sink caches for an agent registered at [alias]. *)
Definition sink_host (alias : string) : option HostSpec :=
  if String.eqb alias "" || String.eqb alias "__local__" then None else
  match repo_hosts alias with
  | Some spec => if resolve_is_local hostname spec then None else Some (rebuilt spec)
  | None => Some (adhoc_host alias [alias])
  end.
End engine.

(** [EngineDeliverySink]: the kernel gives the location of the agent, its
    store is the one of this machine. *)
Definition engine_deliver {W} `{Network W} (now : Z) (session_id target_agent : string)
    (e : Envelope) (id created_at from_id : string) : st (kernel * (engine * W)) receipt := fun kt =>
  let k := kt.1 in
  let m : st (world W) Receipt :=
    _ ← match routing k !! (session_id, target_agent) ≫= fun loc => sink_host (l_host_alias loc) with
        | Some h => cache_host target_agent h
        | None => mret tt
        end;
    deliver_sink session_id target_agent e id created_at from_id now in
  let r := m {| eng := kt.2.1; mail := disk k; net := kt.2.2 |} in
  (do x <- r.1; Ok {| r_status := rc_status x; r_queued := rc_queued x; r_error := rc_error x |},
   (set_disk (mail r.2) k, (eng r.2, net r.2))).

(** ** What every operation keeps *)

Section stable.
Context {W : Type} `{Network W}.
Notation M := (st (world W)).
Implicit Types w : world W.

Definition with_eng (e : engine) w : world W := {| eng := e; mail := mail w; net := net w |}.
Definition with_boxes (f : outbox -> outbox) w : world W :=
  with_eng (set_boxes (f (boxes (eng w))) (eng w)) w.

Lemma upd_bind {A} f (k : unit -> M A) w : (upd_boxes f ≫= k) w = k tt (with_boxes f w).
Proof. done. Qed.
Lemma put_cache_bind {A} id r (k : unit -> M A) w :
  (put_cache id r ≫= k) w = k tt (with_eng (set_cache (<[id := r]> (cache (eng w))) (eng w)) w).
Proof. done. Qed.
Lemma attempt_ok (m : M unit) w : exists r w', attempt m w = (Ok r, w').
Proof. unfold attempt. destruct (m w) as [[]]; eauto. Qed.
Lemma record_history_ok sid e id now w : exists w', record_history sid e id now w = (Ok tt, w').
Proof.
  unfold record_history. rewrite st_bind_unfold.
  match goal with |- context [attempt ?m w] => destruct (attempt_ok m w) as (r & w' & ->) end.
  by eexists.
Qed.

(** A property of the worlds that depends neither on the caches nor on the
    network, and survives the single changes of files that deliveries make. *)
Record stable (P : world W -> Prop) : Prop := {
  sta_eng : forall w e, boxes e = boxes (eng w) -> P w -> P (with_eng e w);
  sta_net : forall w n, P w -> P {| eng := eng w; mail := mail w; net := n |};
  sta_status : forall sid id k d now w, P w -> P (with_boxes (_write_status sid id k d now) w);
  sta_mark : forall sid id now w, P w -> P (with_boxes (_mark_delivered sid id now) w);
  sta_reprobe : forall sid id now w, P w -> P (with_boxes (fun b => (_reprobe_paused sid id now b).2) w);
  sta_stamp : forall sid id w, P w -> P (with_boxes (_stamp_outbox_target_host sid id) w);
  sta_failure : forall sid id err now w, P w ->
    P (with_boxes (fun b => (_handle_flush_failure sid id err now b).2) w);
  sta_history : forall sid m now w, P w ->
    let r := append_history sid m now (default empty_session (mail w !! sid)) in
    P {| eng := eng w; mail := <[sid := r.2]> (mail w); net := net w |};
  sta_cli : forall args now w, P w ->
    P {| eng := eng w; mail := (cli_send option_like json_loads py_repr args "" now (mail w)).2;
         net := net w |} }.

Context (P : world W -> Prop) (HP : stable P).
Notation keeps := (preserves P).

Lemma keeps_upd f : (forall w, P w -> P (with_boxes f w)) -> keeps (upd_boxes f).
Proof. intros Hf w Hw. by apply Hf. Qed.
Lemma keeps_put_cache id r : keeps (put_cache id r).
Proof. intros w Hw. by apply (sta_eng _ HP). Qed.
Lemma keeps_on_engine f : (forall e, boxes (f e) = boxes e) -> keeps (on_engine (modify f)).
Proof. intros Hf w Hw. apply (sta_eng _ HP w); [apply Hf|done]. Qed.
Lemma keeps_on_net {A} (m : st W A) : keeps (on_net m).
Proof. intros w Hw. by apply (sta_net _ HP). Qed.
Lemma keeps_attempt (m : M unit) : keeps m -> keeps (attempt m).
Proof. intros Hm w Hw. unfold attempt. specialize (Hm w Hw). by destruct (m w) as [[] w']. Qed.

Lemma keeps_cache_host a h : keeps (cache_host a h).
Proof. by apply keeps_on_engine. Qed.
Lemma keeps_cache_roster sid l now : keeps (cache_roster sid l now).
Proof. unfold cache_roster, _invalidate_ensured. preserving; by apply keeps_on_engine. Qed.
Lemma keeps_capability h : keeps (_check_capability h).
Proof. unfold _check_capability. preserving. by apply keeps_on_engine. Qed.
Lemma keeps_ensure_session sid h mg l now : keeps (_ensure_remote_session sid h mg l now).
Proof.
  unfold _ensure_remote_session. preserving; [apply keeps_on_net|by apply keeps_on_engine].
Qed.
Lemma keeps_remote_roster e now : keeps (remote_roster e now).
Proof. unfold remote_roster. preserving. by apply keeps_on_engine. Qed.
Lemma keeps_remote_send h e now : keeps (_remote_send h e now).
Proof.
  unfold _remote_send. preserving; first [apply keeps_capability | apply keeps_remote_roster
    | apply keeps_ensure_session | apply keeps_on_net].
Qed.
Lemma keeps_local_send e id now : keeps (local_send e id now).
Proof. unfold local_send. preserving. intros w Hw. by apply (sta_cli _ HP). Qed.
Lemma keeps_history sid e id now : keeps (record_history sid e id now).
Proof.
  unfold record_history. preserving. apply keeps_attempt. preserving.
  intros w Hw. by apply (sta_history _ HP).
Qed.
Lemma keeps_idempotency sid id : keeps (_check_idempotency sid id).
Proof. unfold _check_idempotency. preserving. apply keeps_put_cache. Qed.

Lemma keeps_route sid id host e now : keeps (route sid id host e now).
Proof.
  unfold route. preserving; try apply keeps_put_cache; try apply keeps_history;
    try (apply keeps_attempt; preserving; first [apply keeps_remote_send | apply keeps_local_send]);
    apply keeps_upd; intros w Pw;
    first [by apply (sta_status _ HP) | by apply (sta_stamp _ HP) | by apply (sta_mark _ HP)].
Qed.

(** A delivery keeps [P] when the write of its envelope does. *)
Lemma keeps_deliver session_id target envelope now :
  (forall envelope' w, (envelope' = envelope \/
        envelope' = setdefault envelope "_target_host" (VStr "__local__")) -> P w ->
     P (with_boxes (_write_outbox
          (if dmem envelope "session_id" then dstr envelope "session_id" else session_id)
          (dstr envelope "msg_id") envelope') w)) ->
  keeps (deliver session_id target envelope now).
Proof.
  intros Hw. unfold deliver. cbv zeta.
  set (sid := if dmem envelope "session_id" then _ else session_id) in *.
  destruct (String.eqb _ ""); [apply preserves_ret|]. apply preserves_bind; [apply keeps_idempotency|].
  intros [r|]; apply preserves_bind.
  - preserving. apply keeps_upd. intros w Pw. by apply (sta_stamp _ HP).
  - intros _. apply preserves_ret.
  - apply keeps_upd. intros w Pw. apply Hw; [|done]. destruct (remote_target target); auto.
  - intros _. apply preserves_bind; [apply keeps_put_cache|]. intros _. apply keeps_route.
Qed.

(** What [route] answers. *)
Lemma route_answer sid id host e now w :
  exists r w', route sid id host e now w = (Ok r, w') /\ (r = accepted id \/ r = delivered id).
Proof.
  unfold route. rewrite st_bind_unfold.
  match goal with |- context [attempt ?m w] => destruct (attempt_ok m w) as ([why|] & w1 & ->) end.
  { rewrite upd_bind. destruct host; eexists _, _; (split; [reflexivity|by left]). }
  - rewrite upd_bind, st_bind_unfold. set (w2 := with_boxes _ w1).
    assert (Hh : exists w', (if host then record_history sid e id now else mret tt) w2 = (Ok tt, w')).
    { destruct host; [apply record_history_ok|by eexists]. }
    destruct Hh as [w3 ->]. rewrite put_cache_bind. eexists _, _. split; [reflexivity|by right].
Qed.

Lemma keeps_retry_due sid id now : keeps (retry_due sid id now).
Proof.
  unfold retry_due. preserving. apply keeps_upd. intros w Hw. by apply (sta_reprobe _ HP).
Qed.
Lemma keeps_flush_entry sid id now : keeps (flush_entry sid id now).
Proof.
  unfold flush_entry. preserving; try apply keeps_retry_due; try apply keeps_put_cache;
    try apply keeps_history;
    try (apply keeps_attempt; preserving; first [apply keeps_remote_send | apply keeps_local_send]).
  - intros w Hw. by apply (sta_failure _ HP).
  - apply keeps_upd. intros w Hw. by apply (sta_mark _ HP).
Qed.
Lemma keeps_flush_entries sid ids now : keeps (flush_entries sid ids now).
Proof. induction ids; simpl; preserving; [apply keeps_flush_entry|done]. Qed.
Lemma keeps_flush_sessions sids now : keeps (flush_sessions sids now).
Proof. induction sids; simpl; preserving; [apply keeps_flush_entries|done]. Qed.

Lemma keeps_engine_ack sid id ph now : keeps (engine_ack sid id ph now).
Proof.
  unfold engine_ack. preserving; [|apply keeps_put_cache].
  intros w Hw. unfold on_boxes. simpl.
  destruct (ack_state sid id ph now (boxes (eng w))) as [-> | ->];
    [by apply (sta_eng _ HP)|by apply (sta_status _ HP)].
Qed.
End stable.

(** ** The sink and the kernel *)

Lemma svc_send_meta py_repr sid d id sfx now m :
  preserves (fun s : session => meta s = m) (svc_send py_repr sid d id sfx now).
Proof.
  intros s Hs. unfold svc_send. cbv zeta.
  set (mid := match id with Some _ => _ | None => _ end).
  pose proof (store_send_meta m py_repr sid d (Some mid) [] now s Hs) as Hm.
  destruct (MailboxStore.send _ _ _ _ _ _ s) as [[t|e] s']; [|destruct e]; done.
Qed.

Lemma cli_send_meta ol jl py_repr args sfx now (disk : gmap string session) sid :
  (cli_send ol jl py_repr args sfx now disk).2 !! sid ≫= meta = disk !! sid ≫= meta.
Proof.
  unfold cli_send. destruct args as [|cmd opts]; [done|].
  destruct (if String.eqb cmd "send" then _ else None) as [o|]; [|done]. case_match; [done|].
  cbv zeta. cbn [snd]. set (sid' := opt_value o "--session" "").
  assert (Hm : preserves (fun s : session => meta s = meta (default empty_session (disk !! sid')))
                 (send_branch jl py_repr o sfx now)).
  { unfold send_branch. preserving. apply svc_send_meta. }
  destruct (decide (sid = sid')) as [->|Hne]; [|by rewrite lookup_insert_ne].
  rewrite lookup_insert_eq. simpl. rewrite (Hm _ eq_refl). by destruct (disk !! sid').
Qed.

Section laws.
Context {W : Type} `{Network W}.

(** The metadata of the sessions are those of [disk]. *)
Definition same_metas (disk : gmap string session) (w : world W) : Prop :=
  forall sid, mail w !! sid ≫= meta = disk !! sid ≫= meta.

Lemma same_metas_stable disk : stable (same_metas disk).
Proof.
  split; unfold same_metas; try done.
  - intros sid m now w Hw sid'. cbv zeta. cbn [mail]. rewrite <-Hw.
    destruct (decide (sid' = sid)) as [->|Hne]; [|by rewrite lookup_insert_ne].
    rewrite lookup_insert_eq. simpl. rewrite (append_history_meta _ sid m now _ eq_refl).
    by destruct (mail w !! sid).
  - intros args now w Hw sid. cbn [mail]. by rewrite cli_send_meta.
Qed.

(** A delivery of the engine leaves the tables of the kernel and the metadata
    of the sessions alone. *)
#[export] Instance EngineDeliverySink now : DeliverySink (engine * W) := engine_deliver now.
#[export] Instance EngineDeliverySink_laws now : @DeliverySinkLaws (engine * W) (EngineDeliverySink now).
Proof.
  intros sid target e id created from [k [en n]]. cbv zeta.
  unfold SwarmKernel.deliver, EngineDeliverySink, engine_deliver. cbv zeta. cbn [fst snd].
  split_and!; try done. cbn [disk set_disk].
  set (m := (_ ← _; _) : st (world W) Receipt).
  assert (Hm : preserves (same_metas (disk k)) m); [|by apply (Hm {| eng := en; mail := disk k; net := n |})].
  unfold m, deliver_sink. pose proof (same_metas_stable (disk k)) as HP. preserving.
  - by apply (keeps_cache_host _ HP).
  - by apply keeps_deliver.
  - by apply keeps_deliver.
Qed.
End laws.

(** the kernel stays coherent whatever is sent through the delivery engine:
    after any sequence of kernel operations, sends to local and remote agents
    included and with any behaviour of the network, the tables in memory and
    the files agree. *)
Theorem engine_kernel_coherent {W} `{Network W} py_str now ops (t : engine * W) :
  coherent (foldl (fun kt op => kernel_step (H := EngineDeliverySink now) py_str op kt)
              (empty_kernel, t) ops).1.
Proof. apply (kernel_steps_coherent py_str), coherent_empty. Qed.

(** ** Custody *)
Section custody.
Context {W : Type} `{Network W}.
Implicit Types w : world W.

(** What can happen to the engine; what is asked for to delete apart: a purge of the
    dead letters, and [clean_older_than] (MailboxAdmin.v), which removes an old
    session with its outbox and its dead letters.  A process may die in a write of the outbox or
    between the record of an attempt and the move to the dead letters. *)
Inductive engine_op :=
| ODeliver (session_id : string) (target : option HostSpec) (envelope : pydict)
| OFlush (session_id : option string)
| OAck (sid id ph : string)
| OSweep (days : Z)
| ORequeue (sid id : string)
| OCacheHost (agent : string) (host : HostSpec)
| OCacheRoster (sid : string) (roster : list string)
| ORestart
| OCrashWrite (sid id : string) (envelope : pydict) (step : bool)
| OCrashAttempt (sid id err : string) (terminal : bool).

Definition engine_step (op : engine_op * Z) w : world W :=
  let now := op.2 in
  match op.1 with
  | ODeliver sid target e => (deliver sid target e now w).2
  | OFlush sid => (flush sid now w).2
  | OAck sid id ph => (engine_ack sid id ph now w).2
  | OSweep days => with_boxes (fun b => (sweep days now b).2) w
  | ORequeue sid id => with_boxes (fun b => (dead_letter_requeue sid id now b).2) w
  | OCacheHost a h => (cache_host a h w).2
  | OCacheRoster sid l => (cache_roster sid l now w).2
  | ORestart => with_eng (start (boxes (eng w))) w
  | OCrashWrite sid id e step =>
    with_eng (start (run (take (if step then 2 else 1) (replace_steps sid id e)) (boxes (eng w)))) w
  | OCrashAttempt sid id err t =>
    with_eng (start (_record_attempt sid id err t now (boxes (eng w))).2) w
  end.
Definition engine_run (ops : list (engine_op * Z)) w : world W := foldl (fun w op => engine_step op w) w ops.

(** The session of an envelope. *)
Definition session_of (session_id : string) (e : pydict) : string :=
  if dmem e "session_id" then dstr e "session_id" else session_id.
(** An identifier is given to one message only. *)
Definition same_id_same_message (sid id : string) (e : pydict) (op : engine_op) : Prop :=
  match op with
  | ODeliver s _ e' =>
    session_of s e' = sid -> dstr e' "msg_id" = id -> same_message e e'
  | _ => True
  end.

Definition in_custody (sid id : string) (e : pydict) w : Prop := custody sid id e (boxes (eng w)).
Definition marked_delivered (sid id : string) w : Prop :=
  is_Some (o_delivered (live (boxes (eng w)) sid) !! id).

Lemma custody_stable sid id e : visible id = true -> stable (in_custody sid id e).
Proof.
  intros Hv. split; unfold in_custody; cbn [eng with_boxes with_eng boxes set_boxes]; try done.
  - intros w en ->. done.
  - intros. by apply custody_spares; [auto with s2p|].
  - intros. by apply custody_spares; [auto with s2p|].
  - intros sid' id' now w. apply (custody_spares _ _ _ (fun b => (_reprobe_paused sid' id' now b).2)).
    auto with s2p.
  - intros. by apply custody_stamp.
  - intros. by apply custody_failure.
Qed.

Lemma same_message_setdefault e e' v :
  same_message e e' -> same_message e (setdefault e' "_target_host" v).
Proof.
  intros Hs k Hk. unfold setdefault. case_match; [by apply Hs|].
  rewrite dget_dset_ne by done. by apply Hs.
Qed.

Lemma custody_sweep sid id e days now (b : outbox) :
  o_delivered (live b sid) !! id = None -> custody sid id e b -> custody sid id e (sweep days now b).2.
Proof.
  intros Hm [[x Hx] Ha]. destruct (sweep_entry days now b sid id Hm) as [He Hd].
  split; [exists x|intros y]; unfold copy in *; rewrite He, Hd; auto.
Qed.

(** One operation keeps a message that has not been delivered. *)
Lemma step_custody sid id e op w :
  visible id = true -> same_id_same_message sid id e op.1 ->
  in_custody sid id e w -> ~ marked_delivered sid id w -> in_custody sid id e (engine_step op w).
Proof.
  intros Hv Hs Hk Hm. pose proof (custody_stable sid id e Hv) as HP.
  assert (Hn : o_delivered (live (boxes (eng w)) sid) !! id = None) by (by apply eq_None_not_Some).
  destruct op as [op now]. destruct op; simpl in Hs; unfold engine_step; cbn [fst snd].
  - apply (keeps_deliver _ HP); [|done]. intros e' w' He' Hw'. unfold in_custody.
    cbn [eng with_boxes with_eng boxes set_boxes]. apply custody_write; [done| |done].
    intros [= E1 E2]. destruct He' as [-> | ->]; [by apply Hs|].
    apply same_message_setdefault. by apply Hs.
  - unfold flush. rewrite st_bind_unfold.
    assert (Hsw : in_custody sid id e (_sweep_ttl_lazy now w).2 /\ is_ok (_sweep_ttl_lazy now w).1 = true).
    { unfold _sweep_ttl_lazy. rewrite st_bind_unfold. unfold gets. case_match; [done|].
      split; [|done]. by apply custody_sweep. }
    destruct (_sweep_ttl_lazy now w) as [[u|er] w1]; [|by destruct Hsw]. destruct Hsw as [Hsw _].
    rewrite st_bind_unfold. unfold gets. by apply (keeps_flush_sessions _ HP).
  - by apply (keeps_engine_ack _ HP).
  - by apply custody_sweep.
  - by apply custody_requeue.
  - by apply (keeps_cache_host _ HP).
  - by apply (keeps_cache_roster _ HP).
  - done.
  - unfold in_custody. cbn [eng with_eng boxes start]. apply custody_spares; [|done].
    apply spares_interrupted; [done|]. destruct step; lia.
  - unfold in_custody. cbn [eng with_eng boxes start].
    apply (custody_spares _ _ _ _ _ (spares_record sid id sid0 id0 err terminal now)), Hk.
Qed.

Lemma run_custody sid id e ops w :
  visible id = true -> Forall (fun op => same_id_same_message sid id e op.1) ops ->
  in_custody sid id e w ->
  in_custody sid id e (engine_run ops w) \/
  exists n, marked_delivered sid id (engine_run (take n ops) w).
Proof.
  intros Hv Hops. revert w. induction Hops as [|op ops Hop _ IH]; intros w Hk; [by left|].
  destruct (decide (is_Some (o_delivered (live (boxes (eng w)) sid) !! id))) as [Hm|Hm].
  { right. by exists 0%nat. }
  destruct (IH (engine_step op w)) as [Hc|[n Hc]]; [by apply step_custody|by left|].
  right. by exists (S n).
Qed.
End custody.

(** C5: no accepted message is lost.  A message given to the engine under a new
    identifier is answered "accepted" or "delivered" and is on disk; from then
    on, whatever happens (other deliveries, retries, failures of the network,
    acknowledgements, sweeps, requeues, restarts, processes that die between
    two writes), the message is in the outbox or among the dead letters, its
    content unchanged, unless at some moment it was marked as delivered.  A purge of
    the dead letters and the cleaning of old sessions are not among these
    operations: they delete what they are asked to. *)
Theorem accepted_not_lost {W} `{Network W} session_id target e now ops (w : world W) :
  let id := dstr e "msg_id" in
  let sid := session_of session_id e in
  id <> "" -> visible id = true ->
  cache (eng w) !! id = None ->
  entry (boxes (eng w)) sid id = None -> dead_entry (boxes (eng w)) sid id = None ->
  Forall (fun op => same_id_same_message sid id e op.1) ops ->
  exists r w1, deliver session_id target e now w = (Ok r, w1) /\ rc_msg_id r = id /\
    (rc_status r = "accepted" \/ rc_status r = "delivered") /\
    (in_custody sid id e (engine_run ops w1) \/
     exists n, marked_delivered sid id (engine_run (take n ops) w1)).
Proof.
  cbv zeta. set (id := dstr e "msg_id"). set (sid := session_of session_id e).
  intros Hid Hv Hc He Hd Hops.
  pose proof (custody_stable (W := W) sid id e Hv) as HP.
  enough (Hr : exists r w1, deliver session_id target e now w = (Ok r, w1) /\ rc_msg_id r = id /\
    (rc_status r = "accepted" \/ rc_status r = "delivered") /\ in_custody sid id e w1).
  { destruct Hr as (r & w1 & E & Hrid & Hst & Hk). exists r, w1. do 3 (split; [done|]).
    by apply run_custody. }
  unfold deliver. cbv zeta. fold id. rewrite (proj2 (String.eqb_neq id "")) by done.
  fold (session_of session_id e). fold sid.
  set (host := remote_target target). set (e' := if host then _ else _).
  assert (He' : same_message e e').
  { unfold e'. destruct host; [done|by apply same_message_setdefault]. }
  unfold _check_idempotency. rewrite st_bind_unfold, st_bind_unfold. unfold gets at 1. rewrite Hc, He.
  unfold mret at 1, st_ret at 1. rewrite st_bind_unfold.
  assert (Hk : in_custody sid id e (upd_boxes (_write_outbox sid id e') w).2).
  { unfold in_custody. cbn. unfold _write_outbox. rewrite He.
    destruct (run_replace sid id e' (boxes (eng w))) as [H1 H2].
    eapply custody_live; [exact He'|exact H1|]. intros x. rewrite H2, Hd. done. }
  destruct (upd_boxes _ w) as [[u|er] w1] eqn:E; [|by inversion E]. rewrite st_bind_unfold.
  cbn [snd] in Hk. apply (keeps_put_cache _ HP id (accepted id)) in Hk.
  destruct (put_cache id (accepted id) w1) as [[u'|er] w2] eqn:E'; [|by inversion E'].
  destruct (route_answer sid id host e' now w2) as (r & w3 & Hr & Hor).
  exists r, w3. split; [done|]. split; [by destruct Hor as [-> | ->]|].
  split; [by destruct Hor as [-> | ->]; [left|right]|].
  pose proof (keeps_route _ HP sid id host e' now w2) as Hkr. rewrite Hr in Hkr. by apply Hkr.
Qed.

(** ** Retries *)

Lemma attempt_due_read sid id now b :
  _attempt_due sid id now b =
    negb (a_terminal (read_meta b sid id)) &&
    match a_next (read_meta b sid id) with None => true | Some t => t <=? now end.
Proof. unfold _attempt_due, read_meta. destruct (meta_of b sid id) as [[m|]|]; [|done..]. by case_match. Qed.

Lemma is_paused_read sid id b : _is_paused sid id b = a_paused (read_meta b sid id).
Proof. unfold _is_paused, read_meta. by destruct (meta_of b sid id) as [[m|]|]. Qed.

Section unreachable.
Context {W : Type} `{Network W}.
Implicit Types w : world W.
(** A message whose host does not answer: every send fails with [why], which
    is an error that a retry may cure. *)
Context (sid id : string) (envelope : pydict) (host : HostSpec) (why : string).
Hypothesis down : forall now w, exists e w',
  _remote_send host envelope now w = (Raise e, w') /\ exn_text e = why /\
  boxes (eng w') = boxes (eng w) /\ host_cache (eng w') = host_cache (eng w).
Hypothesis retryable : _is_terminal_error why = false.
Hypothesis addressed : dstr envelope "_target_host" <> "" /\ dstr envelope "_target_host" <> "__local__".
Hypothesis elsewhere : resolve_is_local hostname host = false.

(** [k] attempts have failed and the next one is due at [due]. *)
Record waiting (k : Z) (due : option Z) w : Prop := {
  wt_entry : entry (boxes (eng w)) sid id = Some (Some envelope);
  wt_target : _resolve_target (dstr envelope "_target_host") (eng w) = host;
  wt_delivered : o_delivered (live (boxes (eng w)) sid) !! id = None;
  wt_consumed : is_consumed (boxes (eng w)) sid id = false;
  wt_dead : x_status (dead (boxes (eng w)) sid) !! id = None;
  wt_count : a_count (read_meta (boxes (eng w)) sid id) = k;
  wt_terminal : a_terminal (read_meta (boxes (eng w)) sid id) = false;
  wt_paused : a_paused (read_meta (boxes (eng w)) sid id) = false;
  wt_next : a_next (read_meta (boxes (eng w)) sid id) = due }.

Definition due_at (due : option Z) (now : Z) : bool := match due with None => true | Some t => t <=? now end.

Lemma waiting_due k due w now :
  waiting k due w -> retry_due sid id now w = (Ok (due_at due now), w).
Proof.
  intros [He _ Hd Hc _ _ Ht Hp Hn]. unfold retry_due. rewrite st_bind_unfold. unfold gets at 1.
  unfold is_delivered. rewrite bool_decide_eq_false_2 by (rewrite Hd; by intros []).
  rewrite Hc, is_paused_read, Hp. cbn [orb]. unfold mret, st_ret. rewrite st_bind_unfold.
  unfold gets. rewrite st_bind_unfold. rewrite is_paused_read, Hp, attempt_due_read, Ht, Hn.
  unfold due_at. by destruct due.
Qed.

Lemma flush_failing k due w now :
  waiting k due w -> due_at due now = true ->
  exists w1, boxes (eng w1) = boxes (eng w) /\ host_cache (eng w1) = host_cache (eng w) /\
    (forall r b, _handle_flush_failure sid id why now (boxes (eng w)) = (Ok r, b) ->
       flush_entry sid id now w = (Ok false, with_boxes (fun _ => b) w1)).
Proof.
  intros Hw Hdue. destruct (down now w) as (e & w1 & Hs & He & Hb & Hh).
  exists w1. do 2 (split; [done|]). intros r b Hf. unfold flush_entry.
  rewrite st_bind_unfold, (waiting_due k due w now Hw), Hdue.
  rewrite st_bind_unfold. unfold gets at 1. rewrite (wt_entry _ _ _ Hw).
  destruct addressed as [Ha1 Ha2].
  assert (Htr : truthy (dgetd envelope "_target_host" (VStr "")) = true).
  { revert Ha1. unfold dstr, dgetd. destruct (dget envelope "_target_host") as [[]|]; try done.
    simpl. by destruct (String.eqb_spec s ""). }
  rewrite Htr. cbn [negb]. rewrite st_bind_unfold. unfold gets at 1. cbv zeta.
  rewrite (wt_target _ _ _ Hw), elsewhere, orb_false_r, (proj2 (String.eqb_neq _ _) Ha2).
  rewrite st_bind_unfold. unfold attempt at 1. rewrite Hs, st_bind_unfold. unfold on_boxes.
  rewrite He, Hb, Hf. done.
Qed.

(** A retry that is not due changes nothing; one that is due and fails is
    counted and puts the next one off, twice as long as the last time; the
    fifth failure ends it. *)
Lemma waiting_early k due w now :
  waiting k due w -> due_at due now = false -> flush_entry sid id now w = (Ok false, w).
Proof.
  intros Hw Hd. unfold flush_entry. by rewrite st_bind_unfold, (waiting_due k due w now Hw), Hd.
Qed.

Lemma waiting_retry k due w now :
  waiting k due w -> due_at due now = true -> k + 1 < _max_attempts ->
  exists w', flush_entry sid id now w = (Ok false, w') /\
    waiting (k + 1) (Some (now + backoff (k + 1))) w'.
Proof.
  intros Hw Hdue Hk. destruct (flush_failing k due w now Hw Hdue) as (w1 & Hb & Hh & Hf).
  pose proof (wt_count _ _ _ Hw) as Hcount.
  destruct (failure_retry sid id why now (boxes (eng w)) retryable) as (Hok & Hm & He & Hx & Hdel);
    [lia|].
  assert (Hcs : is_consumed (_handle_flush_failure sid id why now (boxes (eng w))).2 sid id = false).
  { pose proof (wt_consumed _ _ _ Hw) as Hc. unfold is_consumed in *.
    unfold _handle_flush_failure. rewrite retryable. cbn [andb]. unfold _record_attempt.
    cbn [a_count attempted]. rewrite Hcount.
    assert ((_max_attempts <=? k + 1) = false) as -> by lia. cbn [snd]. unfold write_meta.
    rewrite live_on_live, decide_True by done. cbn [set_status o_status]. rewrite lookup_insert_eq.
    by destruct (o_status (live (boxes (eng w)) sid) !! id). }
  destruct (_handle_flush_failure _ _ _ _ _) as [r b]. simpl in *. subst r.
  eexists. split; [by eapply Hf|].
  destruct Hw as [He0 Ht0 Hd0 Hc0 Hx0 Hn0 Htm0 Hp0 Hnx0].
  split; cbn [eng with_boxes with_eng boxes set_boxes].
  - congruence.
  - unfold _resolve_target in *. cbn [host_cache set_boxes]. by rewrite Hh.
  - congruence.
  - done.
  - by rewrite Hx.
  - unfold read_meta. rewrite Hm. cbn. lia.
  - unfold read_meta. by rewrite Hm.
  - unfold read_meta. rewrite Hm. done.
  - unfold read_meta. rewrite Hm. cbn. by rewrite Hcount.
Qed.

Lemma waiting_last k due w now :
  waiting k due w -> due_at due now = true -> _max_attempts <= k + 1 ->
  exists w', flush_entry sid id now w = (Ok false, w') /\
    entry (boxes (eng w')) sid id = None /\ dead_entry (boxes (eng w')) sid id = Some (Some envelope) /\
    exists reason, x_reason (dead (boxes (eng w')) sid) !! id = Some reason.
Proof.
  intros Hw Hdue Hk. destruct (flush_failing k due w now Hw Hdue) as (w1 & Hb & Hh & Hf).
  pose proof (wt_count _ _ _ Hw) as Hcount.
  destruct (failure_exhausted sid id why now (boxes (eng w)) (Some envelope) retryable)
    as (Hok & He & Hd & _ & Hx).
  - lia.
  - apply Hw.
  - apply Hw.
  - destruct (_handle_flush_failure _ _ _ _ _) as [r b]. simpl in *. subst r.
    eexists. split; [by eapply Hf|]. cbn [eng with_boxes with_eng boxes set_boxes]. done.
Qed.

(** The flushes at the times [ts]. *)
Definition flushes (ts : list Z) w : world W := foldl (fun w t => (flush_entry sid id t w).2) w ts.
(** Each flush comes when the retry is due. *)
Fixpoint spaced (k : Z) (due : option Z) (ts : list Z) : bool :=
  match ts with
  | [] => true
  | t :: ts' => due_at due t && spaced (k + 1) (Some (t + backoff (k + 1))) ts'
  end.
Fixpoint next_due (k : Z) (due : option Z) (ts : list Z) : option Z :=
  match ts with [] => due | t :: ts' => next_due (k + 1) (Some (t + backoff (k + 1))) ts' end.

Lemma flushes_waiting ts : forall k due w,
  waiting k due w -> spaced k due ts = true -> k + Z.of_nat (length ts) < _max_attempts ->
  waiting (k + Z.of_nat (length ts)) (next_due k due ts) (flushes ts w).
Proof.
  induction ts as [|t ts IH]; intros k due w Hw Hs Hl; simpl in *.
  - by rewrite Z.add_0_r.
  - apply andb_true_iff in Hs as [Hd Hs].
    destruct (waiting_retry k due w t Hw Hd) as (w' & E & Hw'); [lia|]. unfold flushes. simpl. rewrite E.
    specialize (IH (k + 1) _ w' Hw' Hs ltac:(lia)).
    by replace (k + Z.of_nat (S (length ts))) with (k + 1 + Z.of_nat (length ts)) by lia.
Qed.
End unreachable.

(** C6: retries end.  A message whose host does not answer is not retried for
    ever: with a flush each time a retry is due, the first four failures are
    counted and put the next retry off by 5, 10, 20 and 40 seconds, a flush
    before that time changes nothing, and the fifth moves the message to the
    dead letters with the reason. *)
Theorem retries_end {W} `{Network W} sid id envelope host why (w : world W) t0 t1 t2 t3 t4 :
  (forall now w, exists e w', _remote_send host envelope now w = (Raise e, w') /\ exn_text e = why /\
     boxes (eng w') = boxes (eng w) /\ host_cache (eng w') = host_cache (eng w)) ->
  _is_terminal_error why = false ->
  dstr envelope "_target_host" <> "" -> dstr envelope "_target_host" <> "__local__" ->
  resolve_is_local hostname host = false ->
  waiting sid id envelope host 0 None w ->
  t0 + 5000 <= t1 -> t1 + 10000 <= t2 -> t2 + 20000 <= t3 -> t3 + 40000 <= t4 ->
  (forall n t, (0 < n < 5)%nat -> t < nth (n - 1) [t0; t1; t2; t3] 0 + 5000 * 2 ^ (Z.of_nat n - 1) ->
     let w' := flushes sid id (take n [t0; t1; t2; t3; t4]) w in
     entry (boxes (eng w')) sid id = Some (Some envelope) /\
     a_count (read_meta (boxes (eng w')) sid id) = Z.of_nat n /\
     flush_entry sid id t w' = (Ok false, w')) /\
  let w' := flushes sid id [t0; t1; t2; t3; t4] w in
  entry (boxes (eng w')) sid id = None /\ dead_entry (boxes (eng w')) sid id = Some (Some envelope) /\
  exists reason, x_reason (dead (boxes (eng w')) sid) !! id = Some reason.
Proof.
  intros Hdown Hr Ha1 Ha2 Hel Hw H1 H2 H3 H4.
  set (ts := [t0; t1; t2; t3]).
  assert (Hwait : forall n, (n < 5)%nat -> waiting sid id envelope host (Z.of_nat n)
            (next_due 0 None (take n ts)) (flushes sid id (take n ts) w)).
  { intros n Hn.
    assert (Hlen : length (take n ts) = n) by (rewrite length_take; simpl; lia).
    pose proof (flushes_waiting sid id envelope host why Hdown Hr (conj Ha1 Ha2) Hel (take n ts)
                  0 None w Hw) as Hf.
    rewrite Hlen in Hf. apply Hf; [|unfold _max_attempts; lia].
    do 5 (destruct n as [|n]; [cbn; unfold backoff, _backoff_base_ms; cbn;
      repeat (apply andb_true_iff; split); lia || done|]). lia. }
  split.
  - intros n t Hn Ht. cbv zeta.
    replace (take n [t0; t1; t2; t3; t4]) with (take n ts)
      by (do 5 (destruct n as [|n]; [done|]); lia).
    pose proof (Hwait n ltac:(lia)) as Hwn. split; [apply Hwn|]. split; [apply Hwn|].
    apply (waiting_early _ _ _ _ _ _ _ _ Hwn).
    do 5 (destruct n as [|n]; [try lia; cbn in Ht |- *; unfold backoff, _backoff_base_ms; cbn; lia|]). lia.
  - cbv zeta. change [t0; t1; t2; t3; t4] with (ts ++ [t4]). unfold flushes. rewrite foldl_app.
    pose proof (Hwait 4%nat ltac:(lia)) as Hw4. change (take 4 ts) with ts in Hw4. unfold flushes in Hw4.
    set (w4 := foldl _ w ts) in *. clearbody w4.
    destruct (waiting_last sid id envelope host why Hdown Hr (conj Ha1 Ha2) Hel _ _ w4 t4 Hw4)
      as (w' & E & Hd); [|unfold _max_attempts; lia|].
    + cbn. unfold backoff, _backoff_base_ms. cbn. lia.
    + cbn [foldl]. by rewrite E.
Qed.

(** ** Where the engine goes wrong *)
Section defects.
Context {W : Type} `{Network W}.
Implicit Types w : world W.

Lemma cached_manager sid t roster envelope now w :
  dstr envelope "session_id" = sid -> rosters (eng w) !! sid = Some (t, roster) ->
  now - t < _roster_ttl_ms ->
  remote_roster envelope now w = (Ok (dstr envelope "from", roster), w).
Proof.
  intros <- Hr Ht. unfold remote_roster. rewrite st_bind_unfold. unfold gets. rewrite Hr. cbn [fst snd].
  by rewrite (proj2 (Z.ltb_lt _ _) Ht).
Qed.

Lemma capability_unchecked host w : router_capabilities (W := W) = None ->
  _check_capability host w = (Ok tt, w).
Proof. intros Hc. unfold _check_capability. by rewrite Hc. Qed.
End defects.

(** *** A network of mailboxes *)

(** Hosts that are reached and run the mailbox command line: what a working
    SSH transport does.  A host's mailboxes are under its name. *)
Section mirror.
Context (ol : string -> bool) (jl : string -> option pyval) (jd : pyval -> string).
Context (pr : pyval -> string) (map_hosts : string -> option HostSpec) (here : string) (now : Z).

Definition mirror_mailbox (host : HostSpec) (args : list string) :
    st (gmap string (gmap string session)) (Z * (string * string)) := fun n =>
  let r := cli_mailbox ol jl pr args "" now (default ∅ (n !! h_name host)) in
  (do x <- r.1; Ok (x.1, ("", x.2)), <[h_name host := r.2]> n).

Definition mirror : Network (gmap string (gmap string session)) :=
  {| remote_mailbox := mirror_mailbox; has_transport := fun _ => Ok true;
     router_capabilities := None; repo_hosts := map_hosts; hostname := here; option_like := ol;
     json_loads := jl; json_dumps := jd; py_repr := pr |}.

(** A session keeps its manager: [session-init] with another one changes
    nothing and ends with status 2. *)
Lemma init_refused sid manager agents acl now' s m :
  present s = true -> meta s = Some m -> m_manager m <> "" -> manager <> m_manager m ->
  exists why, init_branch jl sid manager agents acl now' s = (Raise (ValueError why), s) /\
    why ∈ ["not JSON"; "invalid agent id"; "session already has manager"].
Proof.
  intros Hp Hm Hne Hmg.
  assert (Hr : forall a, exists why, session_init sid manager (split_all ","%char agents) a None None now' s
            = (Raise (ValueError why), s) /\ why ∈ ["not JSON"; "invalid agent id"; "session already has manager"]).
  { intros a. unfold session_init. rewrite !st_bind_unfold. unfold lift.
    unfold validate_agent_id at 1. destruct (AGENT_ID_RE sid); [|eexists; split; [done|in_list]].
    rewrite st_bind_unfold. unfold validate_agent_id at 1.
    destruct (AGENT_ID_RE manager); [|eexists; split; [done|in_list]].
    rewrite st_bind_unfold. destruct (res_iter _ _) as [|x] eqn:E.
    2:{ clear -E. revert E. generalize (split_all ","%char agents). intros l. induction l as [|b l IH]; [done|].
        simpl. unfold validate_agent_id at 1. destruct (AGENT_ID_RE b); [exact IH|].
        intros [= <-]. eexists. split; [done|in_list]. }
    rewrite st_bind_unfold. unfold modify at 1.
    assert (set_present s = s) as -> by (destruct s; simpl in *; by subst).
    rewrite st_bind_unfold. unfold gets. rewrite Hm. unfold merge_session. cbv zeta.
    rewrite st_bind_unfold. unfold ensure. rewrite (proj2 (String.eqb_neq _ _) Hne).
    rewrite (proj2 (String.eqb_neq (m_manager m) manager)) by done. eexists. split; [done|in_list]. }
  unfold init_branch. rewrite st_bind_unfold.
  destruct acl as [j|]; [destruct (String.eqb j ""); [|destruct (jl j) as [v|]]|].
  all: unfold mret, st_ret, raise.
  4: { destruct (Hr None) as (why & E & Hw). exists why. split; [|done]. by rewrite st_bind_unfold, E. }
  3: { eexists. split; [done|in_list]. }
  2: { destruct (Hr (match v with VNone => None | v => Some v end)) as (why & E & Hw). exists why.
       split; [|done]. by rewrite st_bind_unfold, E. }
  destruct (Hr None) as (why & E & Hw). exists why. split; [|done]. by rewrite st_bind_unfold, E.
Qed.

Lemma mirror_refuses host sid manager roster acl n d s m :
  n !! h_name host = Some d -> d !! sid = Some s ->
  present s = true -> meta s = Some m -> m_manager m <> "" -> manager <> m_manager m ->
  exists why, mirror_mailbox host (init_args (H := mirror) sid manager roster acl) n = (Ok (2, ("", why)), n) /\
    why <> "" /\ contains "already exists" why = false.
Proof.
  intros Hn Hd Hp Hm Hne Hmg. unfold mirror_mailbox. rewrite Hn. change (default ∅ (Some d)) with d.
  assert (Hc : exists why, cli_mailbox ol jl pr (init_args (H := mirror) sid manager roster acl) "" now d
            = (Ok (2, why), d) /\ why <> "" /\ contains "already exists" why = false).
  { unfold init_args. cbn [app cli_mailbox]. unfold cli_session_init.
    destruct (init_line _ _) as [[[[sid' mg'] ag] a]|] eqn:E; [|by eexists].
    assert (sid' = sid /\ mg' = manager) as [-> ->].
    { destruct acl; cbn in E; repeat case_match; by simplify_eq. }
    cbv zeta. rewrite Hd. cbn [default from_option id]. destruct (init_refused sid manager ag a now s m) as (why & -> & Hw); [done..|].
    exists why. cbn. rewrite insert_id by done. split; [done|].
    rewrite !elem_of_cons in Hw. by destruct Hw as [-> | [-> | [-> | []%not_elem_of_nil]]]. }
  destruct Hc as (why & -> & Hw). exists why. cbn. by rewrite insert_id.
Qed.
End mirror.

(** once the roster of a session is cached, the engine announces the sender
    of each message as the session's manager.  A reachable host that knows the
    session under its real manager refuses that, so the message of anyone but
    the manager is not sent, and nothing changes on either side. *)
Theorem sender_as_manager ol jl jd pr map_hosts here clock host envelope roster t now
    (w : world (gmap string (gmap string session))) d s m :
  let sid := dstr envelope "session_id" in
  net w !! h_name host = Some d -> d !! sid = Some s -> present s = true -> meta s = Some m ->
  m_manager m <> "" -> dstr envelope "from" <> m_manager m ->
  rosters (eng w) !! sid = Some (t, roster) -> now - t < _roster_ttl_ms ->
  ensured (eng w) !! (sid, host_alias host) = None ->
  exists why, _remote_send (H := mirror ol jl jd pr map_hosts here clock) host envelope now w
    = (Raise (RuntimeError ("remote session-init failed (exit 2): " +:+ why)), w).
Proof.
  cbv zeta. intros Hn Hd Hp Hm Hne Hfrom Hr Hnow He.
  set (N := mirror ol jl jd pr map_hosts here clock).
  destruct (mirror_refuses ol jl jd pr map_hosts here clock host (dstr envelope "session_id")
    (dstr envelope "from") roster (_local_session_acl (dstr envelope "session_id") w) (net w) d s m)
    as (why & Hx & Hwne & Hex); [done..|].
  exists why. unfold _remote_send. rewrite st_bind_unfold. unfold lift. cbn [has_transport N mirror].
  rewrite st_bind_unfold. unfold ensure at 1. rewrite st_bind_unfold, capability_unchecked by done.
  rewrite st_bind_unfold, (cached_manager _ t roster) by done.
  rewrite st_bind_unfold. unfold _ensure_remote_session. rewrite st_bind_unfold. unfold gets at 1.
  rewrite He, st_bind_unfold. unfold gets. rewrite st_bind_unfold. unfold on_net.
  change (remote_mailbox (W := gmap string (gmap string session))) with (mirror_mailbox ol jl pr clock).
  fold N in Hx. rewrite Hx. cbn [fst snd].
  rewrite st_bind_unfold. unfold ensure, output. cbn [snd fst].
  rewrite (proj2 (String.eqb_neq why "") Hwne), Hex. cbn. by destruct w.
Qed.

(** a process that dies between the record of a terminal failure and the
    move to the dead letters strands the message: it stays in the outbox, no
    flush touches it, and it is not among the dead letters. *)
Theorem terminal_crash_strands {W} `{Network W} sid id err now t e (w : world W) :
  entry (boxes (eng w)) sid id = Some e -> dead_entry (boxes (eng w)) sid id = None ->
  a_paused (read_meta (boxes (eng w)) sid id) = false ->
  let w' := engine_step (OCrashAttempt sid id err true, now) w in
  flush_entry sid id t w' = (Ok false, w') /\
  entry (boxes (eng w')) sid id = Some e /\ dead_entry (boxes (eng w')) sid id = None.
Proof.
  intros He Hd Hp. cbv zeta. set (w' := engine_step _ w).
  assert (Hm : read_meta (boxes (eng w')) sid id = attempted (read_meta (boxes (eng w)) sid id) err true now).
  { unfold w', engine_step. cbn [fst snd eng with_eng boxes start _record_attempt].
    unfold read_meta at 1. by rewrite meta_write_meta. }
  split; [|by destruct (spares_record sid id sid id err true now (boxes (eng w))) as [E1 E2];
            split; [rewrite <-He; apply E1|rewrite <-Hd; apply E2]].
  unfold flush_entry. rewrite st_bind_unfold. unfold retry_due.
  rewrite st_bind_unfold. unfold gets at 1. destruct (is_delivered _ sid id || _); [done|].
  rewrite st_bind_unfold, is_paused_read, Hm. cbn [a_paused attempted]. rewrite Hp.
  unfold mret, st_ret. rewrite st_bind_unfold. unfold gets.
  rewrite is_paused_read, attempt_due_read, Hm. cbn [a_paused a_terminal attempted]. by rewrite Hp.
Qed.

(** identifiers are looked up in the cache without their session: a message
    under an identifier that any session has used in this process is answered
    with the other message's receipt; it is not written to the outbox, not
    sent, and not kept anywhere. *)
Theorem cache_crosses_sessions {W} `{Network W} session_id target e now r (w : world W) :
  dstr e "msg_id" <> "" -> cache (eng w) !! dstr e "msg_id" = Some r ->
  entry (boxes (eng w)) (session_of session_id e) (dstr e "msg_id") = None ->
  exists w', deliver session_id target e now w = (Ok r, w') /\
    boxes (eng w') = boxes (eng w) /\ mail w' = mail w /\ net w' = net w.
Proof.
  intros Hid Hc He. unfold deliver. cbv zeta. rewrite (proj2 (String.eqb_neq _ _) Hid).
  fold (session_of session_id e). unfold _check_idempotency.
  rewrite !st_bind_unfold. unfold gets. rewrite Hc. unfold mret, st_ret.
  destruct (eq_str _ _); [|by exists w]. rewrite st_bind_unfold.
  unfold upd_boxes, on_boxes, modify. cbn [fst snd]. eexists. split; [reflexivity|].
  cbn. unfold _stamp_outbox_target_host. by rewrite He.
Qed.

(** ** One path for local and remote messages *)

(** The options of a message with their values. *)
Definition opt_pair (flag value : string) : list (string * string) :=
  if String.eqb value "" then [] else [(flag, value)].
Definition envelope_options {W} `{Network W} (e : pydict) : list (string * string) :=
  let v k := dstr e k in
  [("--session", v "session_id"); ("--from", v "from"); ("--to", v "to"); ("--subject", v "subject");
   ("--body", v "body"); ("--kind", if dmem e "kind" then v "kind" else "TASK"); ("--msg-id", v "msg_id")] ++
  (if truthy (dgetd e "require_ack" (VBool false)) then [("--require-ack", "")] else []) ++
  opt_pair "--receipt-type" (v "receipt_type") ++
  map (fun att => ("--attachment", json_dumps att)) (envelope_attachments e) ++
  opt_pair "--reply-to" (v "reply_to") ++ opt_pair "--run-id" (v "run_id") ++
  opt_pair "--request-id" (v "request_id") ++ opt_pair "--trace-id" (v "trace_id") ++
  opt_pair "--causation-id" (v "causation_id").
Definition spell (o : list (string * string)) : list string :=
  concat (map (fun x => if String.eqb (fst x) "--require-ack" then [fst x] else [fst x; snd x]) o).

Lemma spell_app o1 o2 : spell (o1 ++ o2) = spell o1 ++ spell o2.
Proof. unfold spell. by rewrite map_app, concat_app. Qed.
Lemma spell_opt_pair flag v : flag <> "--require-ack" -> spell (opt_pair flag v) = opt_arg flag v.
Proof.
  intros Hf. unfold opt_pair, opt_arg. destruct (String.eqb v ""); [done|]. unfold spell. simpl.
  by rewrite (proj2 (String.eqb_neq _ _) Hf).
Qed.

Lemma build_args_spell {W} `{Network W} e : _build_mailbox_args e = "send" :: spell (envelope_options e).
Proof.
  unfold _build_mailbox_args, envelope_options. cbv zeta. rewrite !spell_app.
  rewrite !spell_opt_pair by done.
  assert (spell (if truthy (dgetd e "require_ack" (VBool false)) then [("--require-ack", "")] else [])
          = (if truthy (dgetd e "require_ack" (VBool false)) then ["--require-ack"] else [])) as ->
    by (by case_match).
  assert (spell (map (fun att => ("--attachment", json_dumps att)) (envelope_attachments e))
          = concat (map (fun att => ["--attachment"; json_dumps att]) (envelope_attachments e))) as ->
    by (unfold spell; by rewrite map_map).
  done.
Qed.

Lemma parse_spell ol o :
  (forall x, x ∈ o -> x.1 = "--require-ack" /\ x.2 = "" \/ x.1 ∈ SEND_OPTIONS /\ ol x.2 = false) ->
  parse_options ol (spell o) = Some o.
Proof.
  induction o as [|[f v] o IH]; intros Ho; [done|].
  assert (Hd : "--require-ack" ∉ SEND_OPTIONS) by (apply (bool_decide_unpack _); vm_compute; exact I).
  specialize (IH (fun x Hx => Ho x (list_elem_of_further x _ o Hx))).
  destruct (Ho (f, v) (list_elem_of_here _ _)) as [[E1 E2]|[E1 E2]]; simpl in E1, E2; subst; unfold spell; simpl.
  - fold (spell o). by rewrite IH.
  - destruct (String.eqb_spec f "--require-ack") as [->|Hne]; [done|]. simpl. fold (spell o).
    rewrite (proj2 (String.eqb_neq _ _) Hne), E2, bool_decide_eq_true_2 by done. simpl. by rewrite IH.
Qed.

Section same_path.
Context {W : Type} `{Network W}.
Context (e : pydict) (refs : list AttachmentRef).

(** What the command line can carry: the mandatory texts are not empty, no
    text looks like an option, and the attachments are objects of the
    repository that survive their JSON text. *)
Record sayable : Prop := {
  say_texts : forall k, k ∈ ["session_id"; "from"; "to"; "subject"; "body"; "msg_id"] -> dstr e k <> "";
  say_kind : (if dmem e "kind" then dstr e "kind" else "TASK") ∈ VALID_KINDS;
  say_values : forall k, option_like (dstr e k) = false;
  say_task : option_like "TASK" = false;
  say_refs : envelope_attachments e = map (fun a => VDict (AttachmentRef.to_dict a)) refs;
  say_json : forall a, a ∈ refs -> let v := VDict (AttachmentRef.to_dict a) in
    json_loads (json_dumps v) = Some v /\ option_like (json_dumps v) = false }.

(** The same message for the store. *)
Definition envelope_draft : draft :=
  let v k := dstr e k in
  {| d_from := v "from"; d_to := v "to"; d_subject := v "subject"; d_body := v "body";
     d_kind := if dmem e "kind" then v "kind" else "TASK"; d_reply_to := v "reply_to";
     d_run_id := v "run_id"; d_request_id := v "request_id"; d_command_id := "";
     d_trace_id := v "trace_id"; d_causation_id := v "causation_id";
     d_attachments := match refs with
                      | [] => None
                      | l => Some (VList (map (fun a => VDict (AttachmentRef.to_dict a)) l))
                      end;
     d_require_ack := truthy (dgetd e "require_ack" (VBool false));
     d_receipt_type := v "receipt_type" |}.

Notation picked n o := (List.filter (fun x => String.eqb (fst x) n) o).
Lemma picked_opt_pair n flag v :
  picked n (opt_pair flag v) = if String.eqb flag n then opt_pair flag v else [].
Proof. unfold opt_pair. destruct (String.eqb v ""); cbn [List.filter fst]; by destruct (String.eqb flag n). Qed.
Lemma picked_ack n :
  picked n (if truthy (dgetd e "require_ack" (VBool false)) then [("--require-ack", "")] else [])
  = if String.eqb "--require-ack" n && truthy (dgetd e "require_ack" (VBool false))
    then [("--require-ack", "")] else [].
Proof.
  destruct (truthy _); cbn [List.filter fst]; [|by rewrite andb_false_r].
  by destruct (String.eqb "--require-ack" n).
Qed.
Lemma picked_attachments n l :
  picked n (map (fun att => ("--attachment", json_dumps att)) l)
  = if String.eqb "--attachment" n then map (fun att => ("--attachment", json_dumps att)) l else [].
Proof.
  induction l as [|a l IH]; cbn [map List.filter fst]; [by destruct (String.eqb "--attachment" n)|].
  rewrite IH. by destruct (String.eqb "--attachment" n).
Qed.

(** The value of every option of the message. *)
Lemma envelope_option n d :
  opt_value (envelope_options e) n d =
    match last (picked n (envelope_options e)) with Some x => x.2 | None => d end.
Proof. done. Qed.
Ltac pick := unfold opt_value, opt_values, envelope_options; cbv zeta;
  rewrite !List.filter_app, picked_ack, picked_attachments, !picked_opt_pair; cbn [List.filter fst];
  repeat match goal with |- context [String.eqb ?a ?b] =>
    let r := eval vm_compute in (String.eqb a b) in
    match r with true => change (String.eqb a b) with true | false => change (String.eqb a b) with false end
  end; cbn [List.filter andb app]; rewrite ?app_nil_r.

Lemma opt_pair_value flag v : match last (opt_pair flag v) with Some x => x.2 | None => "" end = v.
Proof. unfold opt_pair. by destruct (String.eqb_spec v "") as [->|]. Qed.

Lemma require_ack_option :
  bool_decide ("--require-ack" ∈ (envelope_options e).*1) = truthy (dgetd e "require_ack" (VBool false)).
Proof.
  apply eq_true_iff_eq. rewrite bool_decide_eq_true, list_elem_of_fmap. split.
  - intros ([f v] & Hf & Hin). simpl in Hf. subst f.
    apply list_elem_of_In in Hin.
    assert (Hp : In ("--require-ack", v) (picked "--require-ack" (envelope_options e)))
      by (apply filter_In; by split).
    revert Hp. pick. by destruct (truthy _).
  - intros Ht. exists ("--require-ack", ""). split; [done|]. unfold envelope_options. rewrite Ht. set_solver.
Qed.

Lemma cli_draft_envelope : cli_draft (envelope_options e) refs = envelope_draft.
Proof.
  unfold cli_draft, envelope_draft. rewrite require_ack_option. cbv zeta.
  f_equal; pick; try done; apply opt_pair_value.
Qed.

Lemma option_session : opt_value (envelope_options e) "--session" "" = dstr e "session_id".
Proof. by pick. Qed.
Lemma option_kind : opt_value (envelope_options e) "--kind" "TASK"
  = if dmem e "kind" then dstr e "kind" else "TASK".
Proof. by pick. Qed.
Lemma option_msg_id : opt_values (envelope_options e) "--msg-id" = [dstr e "msg_id"].
Proof. by pick. Qed.
Lemma options_given : sayable ->
  forallb (fun n => negb (String.eqb (opt_value (envelope_options e) n "") ""))
    ["--session"; "--from"; "--to"; "--subject"; "--body"] = true.
Proof.
  intros Hs. apply forallb_forall. intros n Hn. apply negb_true_iff, String.eqb_neq.
  pose proof (say_texts Hs) as Ht.
  repeat (destruct Hn as [<-|Hn]; [pick; apply Ht; in_list|]). done.
Qed.

Lemma parse_attachments :
  sayable -> _parse_attachment_args json_loads (opt_values (envelope_options e) "--attachment") = Ok refs.
Proof.
  intros Hs. pick. rewrite (say_refs Hs). unfold _parse_attachment_args.
  pose proof (say_json Hs) as Hj. clear Hs. induction refs as [|a l IH]; [done|]. cbn [map res_map snd].
  destruct (Hj a (list_elem_of_here _ _)) as [-> _]. rewrite AttachmentRef_roundtrip. simpl.
  rewrite IH; [done|]. intros b Hb. apply Hj. by right.
Qed.

Lemma parse_envelope :
  sayable -> parse_options option_like (spell (envelope_options e)) = Some (envelope_options e).
Proof.
  intros Hs. apply parse_spell. intros x Hx. unfold envelope_options in Hx. cbv zeta in Hx.
  pose proof (say_values Hs) as Hv.
  assert (Hp : forall f k, x ∈ opt_pair f (dstr e k) -> f ∈ SEND_OPTIONS ->
            x.1 = "--require-ack" /\ x.2 = "" \/ x.1 ∈ SEND_OPTIONS /\ option_like x.2 = false).
  { intros f k Hin Hf. unfold opt_pair in Hin. case_match; [by apply not_elem_of_nil in Hin|].
    apply list_elem_of_singleton in Hin as ->. right. split; [done|]. apply Hv. }
  rewrite !elem_of_app in Hx. destruct Hx as [Hx|[Hx|[Hx|[Hx|[Hx|[Hx|[Hx|[Hx|Hx]]]]]]]].
  - right. rewrite !elem_of_cons in Hx.
    destruct Hx as [->|[->|[->|[->|[->|[->|[->|[]%not_elem_of_nil]]]]]]]; (split; [in_list|]);
      cbn [snd]; try apply Hv. case_match; [apply Hv|apply (say_task Hs)].
  - case_match; [|by apply not_elem_of_nil in Hx]. apply list_elem_of_singleton in Hx as ->. by left.
  - apply (Hp _ _ Hx). in_list.
  - right. apply list_elem_of_fmap in Hx as (v & -> & Hx). rewrite (say_refs Hs) in Hx.
    apply list_elem_of_fmap in Hx as (a & -> & Hx). split; [in_list|]. by apply (say_json Hs).
  - apply (Hp _ _ Hx). in_list.
  - apply (Hp _ _ Hx). in_list.
  - apply (Hp _ _ Hx). in_list.
  - apply (Hp _ _ Hx). in_list.
  - apply (Hp _ _ Hx). in_list.
Qed.
End same_path.


(** ** The hypotheses at work *)

(** A network of mailboxes without a repository map; texts that start with a
    dash are options. *)
Definition demo_network : Network (gmap string (gmap string session)) :=
  mirror (String.prefix "-") (fun _ => None) (fun _ => "{}") demo_repr (fun _ => None) "here" 1700000009000.
(** ... and one on which no host answers. *)
Definition dead_network : Network unit :=
  {| remote_mailbox := fun _ _ => raise (OSError "unreachable");
     has_transport := fun _ => Raise (OSError "unreachable"); router_capabilities := None;
     repo_hosts := fun _ => None; hostname := "here"; option_like := String.prefix "-";
     json_loads := fun _ => None; json_dumps := fun _ => "{}"; py_repr := demo_repr |}.

Definition host_b : HostSpec := adhoc_host "hostb" ["hostb"].
Definition note (from : string) : pydict :=
  [("session_id", VStr "s1"); ("from", VStr from); ("to", VStr "w1"); ("subject", VStr "hello");
   ("body", VStr "text"); ("kind", VStr "NOTICE"); ("msg_id", VStr "n1")].
(** The session [s1] of MailboxStore.v here and on the other host. *)
Definition demo_world : world (gmap string (gmap string session)) :=
  {| eng := start empty_outbox; mail := {["s1" := demo]}; net := {["hostb" := {["s1" := demo]}]} |}.

Lemma engine_kernel_coherent_witness :
  coherent (foldl (fun kt op => kernel_step (H := EngineDeliverySink (H := demo_network) 8000) demo_repr op kt)
              (empty_kernel, (start empty_outbox, ∅)) demo_ops).1.
Proof. apply (engine_kernel_coherent (H := demo_network) demo_repr 8000 demo_ops). Defined.

Lemma accepted_not_lost_witness :
  let ops := [(OFlush None, 1700000010000); (OCrashWrite "s1" "n2" (note "mgr") true, 1700000011000);
              (ORestart, 1700000012000); (OFlush (Some "s1"), 1700000013000)] in
  exists r w1, deliver (H := demo_network) "s1" None (note "mgr") 1700000009000 demo_world = (Ok r, w1) /\
    rc_msg_id r = "n1" /\ (rc_status r = "accepted" \/ rc_status r = "delivered") /\
    (in_custody "s1" "n1" (note "mgr") (engine_run (H := demo_network) ops w1) \/
     exists n, marked_delivered "s1" "n1" (engine_run (H := demo_network) (take n ops) w1)).
Proof.
  cbv zeta.
  apply (accepted_not_lost (H := demo_network) "s1" None (note "mgr") 1700000009000
    [(OFlush None, 1700000010000); (OCrashWrite "s1" "n2" (note "mgr") true, 1700000011000);
     (ORestart, 1700000012000); (OFlush (Some "s1"), 1700000013000)] demo_world).
  - discriminate.
  - reflexivity.
  - reflexivity.
  - reflexivity.
  - reflexivity.
  - repeat constructor.
Defined.

Lemma requeue_restores_witness :
  let b := _write_outbox "s1" "n1" (note "mgr") empty_outbox in
  exists b1 b2, _dead_letter "s1" "n1" "why" b = (Ok tt, b1) /\
    entry b1 "s1" "n1" = None /\ dead_entry b1 "s1" "n1" = Some (Some (note "mgr")) /\
    dead_letter_requeue "s1" "n1" 5000 b1 = (true, b2) /\
    entry b2 "s1" "n1" = Some (Some (note "mgr")) /\ dead_entry b2 "s1" "n1" = None /\
    read_meta b2 "s1" "n1" = requeued no_attempts /\ _attempt_due "s1" "n1" 0 b2 = true /\
    _is_paused "s1" "n1" b2 = false.
Proof.
  cbv zeta. apply (requeue_restores "s1" "n1" (Some (note "mgr")) "why" 5000 0
                     (_write_outbox "s1" "n1" (note "mgr") empty_outbox)); vm_compute; reflexivity.
Defined.

(** A message for [host_b] in the outbox of a machine without network. *)
Definition far_note : pydict := dset (note "mgr") "_target_host" (VStr "hostb").
Definition far_host : HostSpec := adhoc_host "hostb" [].
Definition far_world : world unit :=
  {| eng := start (_write_outbox "s1" "n1" far_note empty_outbox); mail := ∅; net := tt |}.

Lemma retries_end_witness :
  let w' := flushes (H := dead_network) "s1" "n1" [0; 5000; 15000; 35000; 75000] far_world in
  entry (boxes (eng w')) "s1" "n1" = None /\
  dead_entry (boxes (eng w')) "s1" "n1" = Some (Some far_note) /\
  exists reason, x_reason (dead (boxes (eng w')) "s1") !! "n1" = Some reason.
Proof.
  apply (retries_end (H := dead_network) "s1" "n1" far_note far_host "unreachable" far_world
           0 5000 15000 35000 75000); try lia; try discriminate.
  - intros now w. exists (OSError "unreachable"), w. done.
  - reflexivity.
  - reflexivity.
  - split; reflexivity.
Defined.

Lemma sender_as_manager_witness :
  let w := {| eng := set_rosters {["s1" := (1700000008000, ["w1"; "w2"])]} (start empty_outbox);
              mail := mail demo_world; net := net demo_world |} in
  exists why, _remote_send (H := demo_network) host_b (note "w2") 1700000009000 w
    = (Raise (RuntimeError ("remote session-init failed (exit 2): " +:+ why)), w).
Proof.
  apply (sender_as_manager (String.prefix "-") (fun _ => None) (fun _ => "{}") demo_repr (fun _ => None)
    "here" 1700000009000 host_b (note "w2") ["w1"; "w2"] 1700000008000 1700000009000
    {| eng := set_rosters {["s1" := (1700000008000, ["w1"; "w2"])]} (start empty_outbox);
       mail := mail demo_world; net := net demo_world |} {["s1" := demo]} demo demo_meta).
  - reflexivity.
  - reflexivity.
  - vm_compute. reflexivity.
  - vm_compute. reflexivity.
  - vm_compute. discriminate.
  - vm_compute. discriminate.
  - reflexivity.
  - vm_compute. reflexivity.
  - reflexivity.
Defined.

Lemma terminal_crash_strands_witness :
  let w' := engine_step (H := dead_network) (OCrashAttempt "s1" "n1" "exit 2" true, 5000) far_world in
  flush_entry (H := dead_network) "s1" "n1" 1700000000000 w' = (Ok false, w') /\
  entry (boxes (eng w')) "s1" "n1" = Some (Some far_note) /\
  dead_entry (boxes (eng w')) "s1" "n1" = None.
Proof.
  apply (terminal_crash_strands (H := dead_network) "s1" "n1" "exit 2" 5000 1700000000000
           (Some far_note) far_world); vm_compute; reflexivity.
Defined.

Lemma cache_crosses_sessions_witness :
  let w := {| eng := set_cache {["n1" := delivered "n1"]} (start empty_outbox); mail := ∅; net := tt |} in
  exists w', deliver (H := dead_network) "s2" None (dset (note "mgr") "session_id" (VStr "s2")) 5000 w
      = (Ok (delivered "n1"), w') /\
    boxes (eng w') = boxes (eng w) /\ mail w' = mail w /\ net w' = net w.
Proof.
  apply (cache_crosses_sessions (H := dead_network) "s2" None (dset (note "mgr") "session_id" (VStr "s2"))
    5000 (delivered "n1")
    {| eng := set_cache {["n1" := delivered "n1"]} (start empty_outbox); mail := ∅; net := tt |}).
  - discriminate.
  - reflexivity.
  - reflexivity.
Defined.

