(* ===== verification/GatewayStores.v ===== *)
(** * Stores of the gateway
      (src/src/codeagent/gateway/model.py, events.py, control_store.py)

    The event log numbers events per producer and hands them out after a
    cursor; the control store keeps reviews, generations of runtimes and
    commands.  Both are tables of a database; a transaction is one step. *)
From S2P Require Import Prelude MailboxProtocol MailboxStore.

(** ** Requests and events *)
Definition EVENT_KINDS : list string :=
  ["RUNTIME_STATE"; "MESSAGE_DELIVERED"; "MESSAGE_READ"; "TURN_STARTED"; "ASSISTANT_PROGRESS";
   "TOOL_STARTED"; "TOOL_UPDATED"; "TOOL_FINISHED"; "USAGE"; "TASK_STATE"; "ERROR"; "AGENT_STATUS"].
Definition EVENT_KIND_TOOL_UPDATE : list string := ["TOOL_UPDATED"].
Definition EVENT_KIND_TERMINAL : list string := ["TASK_STATE"; "MESSAGE_READ"; "ERROR"].

Record GatewayRequest := { gr_v : Z; gr_id : string; gr_method : string; gr_params : pydict }.
Module GatewayRequest.
Definition from_dict (v : pyval) : res GatewayRequest :=
  match v with
  | VDict d =>
    match dget d "v" with
    | Some (VInt ver) =>
      guard 1 <=? ver orelse GatewayError "PROTOCOL";
      match dget d "id" with
      | Some (VStr rid) =>
        guard negb (String.eqb rid "") orelse GatewayError "PROTOCOL";
        match dget d "method" with
        | Some (VStr m) =>
          guard negb (String.eqb m "") orelse GatewayError "PROTOCOL";
          match dgetd d "params" (VDict []) with
          | VDict ps => Ok {| gr_v := ver; gr_id := rid; gr_method := m; gr_params := ps |}
          | _ => Raise (GatewayError "PROTOCOL")
          end
        | _ => Raise (GatewayError "PROTOCOL")
        end
      | _ => Raise (GatewayError "PROTOCOL")
      end
    | _ => Raise (GatewayError "PROTOCOL")
    end
  | _ => Raise (GatewayError "PROTOCOL")
  end.
Definition to_dict (r : GatewayRequest) : pydict :=
  [("v", VInt (gr_v r)); ("id", VStr (gr_id r)); ("method", VStr (gr_method r));
   ("params", VDict (gr_params r))].
End GatewayRequest.

Record RuntimeEventDraft := {
  ed_runtime : string; ed_generation : Z; ed_session : string; ed_agent : string;
  ed_request : string; ed_run : string; ed_kind : string; ed_created : string;
  ed_payload : pydict }.
Definition validate_draft (d : RuntimeEventDraft) : res unit :=
  guard negb (String.eqb (ed_runtime d) "" || String.eqb (ed_session d) "")
    orelse GatewayError "PROTOCOL";
  guard bool_decide (ed_kind d ∈ EVENT_KINDS) orelse GatewayError "PROTOCOL"; Ok tt.

Record RuntimeEvent := {
  ev_id : Z; ev_host : string; ev_runtime : string; ev_generation : Z; ev_sequence : Z;
  ev_session : string; ev_agent : string; ev_request : string; ev_run : string; ev_kind : string;
  ev_created : string; ev_payload : pydict }.
Definition numbered (host : string) (seq id : Z) (d : RuntimeEventDraft) : RuntimeEvent :=
  {| ev_id := id; ev_host := host; ev_runtime := ed_runtime d; ev_generation := ed_generation d;
     ev_sequence := seq; ev_session := ed_session d; ev_agent := ed_agent d;
     ev_request := ed_request d; ev_run := ed_run d; ev_kind := ed_kind d;
     ev_created := ed_created d; ev_payload := ed_payload d |}.
Definition with_id (id : Z) (e : RuntimeEvent) : RuntimeEvent :=
  {| ev_id := id; ev_host := ev_host e; ev_runtime := ev_runtime e;
     ev_generation := ev_generation e; ev_sequence := ev_sequence e; ev_session := ev_session e;
     ev_agent := ev_agent e; ev_request := ev_request e; ev_run := ev_run e; ev_kind := ev_kind e;
     ev_created := ev_created e; ev_payload := ev_payload e |}.

(** ** The event log *)

(** The rows in the order of their identifiers, and the last identifier that
    was given out (an AUTOINCREMENT key is not given twice). *)
Record events := { rows : list RuntimeEvent; last_id : Z }.
Definition empty_events : events := {| rows := []; last_id := 0 |}.

(** The key of the UNIQUE constraint. *)
Definition source_of (e : RuntimeEvent) : string * string * Z := (ev_host e, ev_runtime e, ev_generation e).
Definition key_of (e : RuntimeEvent) : string * string * Z * Z := (source_of e, ev_sequence e).
Definition of_source (src : string * string * Z) (e : RuntimeEvent) : bool := bool_decide (source_of e = src).
Definition max_sequence (src : string * string * Z) (l : list RuntimeEvent) : Z :=
  foldr Z.max 0 (map ev_sequence (List.filter (of_source src) l)).
Definition append_row (e : RuntimeEvent) (t : events) : events :=
  {| rows := rows t ++ [with_id (last_id t + 1) e]; last_id := last_id t + 1 |}.

Definition append_local (source_host : string) (d : RuntimeEventDraft) : st events RuntimeEvent :=
  _ ← lift (validate_draft d);
  t ← gets (fun t => t);
  let seq := max_sequence (source_host, ed_runtime d, ed_generation d) (rows t) + 1 in
  let e := numbered source_host seq (last_id t + 1) d in
  _ ← modify (append_row e);
  mret e.

(** [event] is the event as its producer serialized it; its identifier there
    is not used. *)
Definition ingest_remote (event : RuntimeEvent) : st events (option RuntimeEvent) :=
  _ ← ensure (negb (String.eqb (ev_host event) "" || String.eqb (ev_runtime event) ""))
        (ValueError "ingest_remote requires source_host + runtime_id");
  _ ← ensure (0 <? ev_sequence event) (ValueError "ingest_remote requires source_sequence > 0");
  if bool_decide (ev_kind event ∉ EVENT_KINDS) then mret None else
  t ← gets (fun t => t);
  match List.find (fun e => bool_decide (key_of e = key_of event)) (rows t) with
  | Some e => mret (Some (with_id (ev_id e) event))
  | None => _ ← modify (append_row event); mret (Some (with_id (last_id t + 1) event))
  end.

(** [list_after] *)
Definition matches (filters : option (list string)) (session_id runtime_id : string)
    (e : RuntimeEvent) : bool :=
  match filters with
  | None | Some [] => true
  | Some l => bool_decide (ev_kind e ∈ l)
  end
  && (String.eqb session_id "" || String.eqb (ev_session e) session_id)
  && (String.eqb runtime_id "" || String.eqb (ev_runtime e) runtime_id).
Definition page_size (limit : Z) : nat := Z.to_nat (Z.max 1 (Z.min limit 1000)).
Definition page (cursor : Z) (limit : Z) (keep : RuntimeEvent -> bool) (t : events) : list RuntimeEvent :=
  take (page_size limit) (List.filter (fun e => (cursor <? ev_id e) && keep e) (rows t)).
Definition next_cursor (cursor : Z) (l : list RuntimeEvent) : Z :=
  match last l with Some e => ev_id e | None => cursor end.
Definition list_after (cursor : Z) (filters : option (list string)) (limit : Z)
    (session_id runtime_id : string) (t : events) : res (list RuntimeEvent * Z) :=
  guard forallb (fun k => bool_decide (k ∈ EVENT_KINDS)) (default [] filters)
    orelse ValueError "invalid event kind filter";
  let l := page cursor limit (matches filters session_id runtime_id) t in
  Ok (l, next_cursor cursor l).

(** The rows of a runtime, of one generation or all. *)
Definition of_runtime (runtime_id : string) (generation : option Z) (t : events) : list RuntimeEvent :=
  List.filter (fun e => String.eqb (ev_runtime e) runtime_id &&
    match generation with Some g => ev_generation e =? g | None => true end) (rows t).
Definition count_kind (k : string) (l : list RuntimeEvent) : nat :=
  length (List.filter (fun e => String.eqb (ev_kind e) k) l).
Record aggregation := { g_tools : nat; g_errors : nat; g_first_at : string; g_last_id : Z;
                        g_last_kind : string; g_last_at : string; g_last_payload : pydict }.
Definition aggregate (runtime_id : string) (generation : option Z) (t : events) : aggregation :=
  let l := of_runtime runtime_id generation t in
  {| g_tools := count_kind "TOOL_STARTED" l; g_errors := count_kind "ERROR" l;
     g_first_at := from_option ev_created "" (head l);
     g_last_id := from_option ev_id 0 (last l); g_last_kind := from_option ev_kind "" (last l);
     g_last_at := from_option ev_created "" (last l);
     g_last_payload := from_option ev_payload [] (last l) |}.
(** Count and time of the newest event, by kind. *)
Definition kind_stats (runtime_id : string) (generation : option Z) (t : events) :
    gmap string (nat * string) :=
  foldl (fun m e => <[ev_kind e := (S (from_option fst 0%nat (m !! ev_kind e)), ev_created e)]> m) ∅
    (of_runtime runtime_id generation t).

(** *** Retention *)
Definition TOOL_UPDATE_RETENTION_DAYS : Z := 7.
Definition TERMINAL_RETENTION_DAYS : Z := 90.
Definition MAX_TOTAL_EVENTS : Z := 100000.
Definition expired (now : Z) (e : RuntimeEvent) : bool :=
  bool_decide (ev_kind e ∈ EVENT_KIND_TOOL_UPDATE)
    && str_lt (ev_created e) (iso_timestamp (now - TOOL_UPDATE_RETENTION_DAYS * 86400 * 1000))
  || bool_decide (ev_kind e ∈ EVENT_KIND_TERMINAL)
    && str_lt (ev_created e) (iso_timestamp (now - TERMINAL_RETENTION_DAYS * 86400 * 1000)).
Definition sweep_events (now : Z) : st events nat := fun t =>
  let kept := List.filter (fun e => negb (expired now e)) (rows t) in
  let capped := drop (Z.to_nat (Z.of_nat (length kept) - MAX_TOTAL_EVENTS)) kept in
  (Ok (length (rows t) - length capped)%nat, {| rows := capped; last_id := last_id t |}).

(** ** The control store *)
Record review := { rv_session : string; rv_runtime : string; rv_profile : string;
                   rv_agent : string; rv_created : string; rv_updated : string }.
Record generation := {
  gn_current : Z; gn_nonce : string; gn_presence : string; gn_binding : string;
  gn_backend : string; gn_epoch : Z; gn_agent_state : string; gn_seq : Z; gn_updated : string;
  gn_context : string }.
Record command := {
  cm_command : string; cm_msg : string; cm_turn : string; cm_runtime : string; cm_generation : Z;
  cm_hash : string; cm_state : string; cm_epoch : Z; cm_backend : string; cm_created : string;
  cm_updated : string; cm_detail : pydict }.
Record control := { reviews : gmap string review; generations : gmap string generation;
                    commands : gmap string command }.
Definition empty_control : control := {| reviews := ∅; generations := ∅; commands := ∅ |}.

(** The unique session of a review: the upsert of one that another review has
    fails as a whole and is only logged. *)
Definition claimed_elsewhere (key session_id : string) (r : gmap string review) : bool :=
  existsb (fun x => negb (String.eqb (fst x) key) && String.eqb (rv_session (snd x)) session_id)
    (map_to_list r).
Definition upsert_review (key session_id runtime_id profile_id agent_id : string) (now : Z)
    (c : control) : control :=
  if claimed_elsewhere key session_id (reviews c) then c else
  let row := {| rv_session := session_id; rv_runtime := runtime_id; rv_profile := profile_id;
                rv_agent := agent_id;
                rv_created := from_option rv_created (iso_timestamp now) (reviews c !! key);
                rv_updated := iso_timestamp now |} in
  {| reviews := <[key := row]> (reviews c); generations := generations c; commands := commands c |}.
Definition get_review (key : string) (c : control) : option review := reviews c !! key.
Definition get_review_by_session (session_id : string) (c : control) : option (string * review) :=
  List.find (fun x => String.eqb (rv_session (snd x)) session_id) (map_to_list (reviews c)).

Definition upsert_generation (runtime_id : string) (current : Z) (nonce presence binding backend : string)
    (epoch : Z) (agent_state context : string) (now : Z) (c : control) : control :=
  let old := generations c !! runtime_id in
  let row := {| gn_current := current; gn_nonce := nonce; gn_presence := presence;
                gn_binding := binding; gn_backend := backend; gn_epoch := epoch;
                gn_agent_state := agent_state;
                gn_seq := from_option gn_seq 0 old + 1; gn_updated := iso_timestamp now;
                gn_context := if String.eqb context "" then from_option gn_context "{}" old
                              else context |} in
  {| reviews := reviews c; generations := <[runtime_id := row]> (generations c); commands := commands c |}.
Definition delete_generation (runtime_id : string) (c : control) : bool * control :=
  (bool_decide (is_Some (generations c !! runtime_id)),
   {| reviews := reviews c; generations := delete runtime_id (generations c); commands := commands c |}).

Definition enqueue_command (request_id command_id runtime_id : string) (gen : Z)
    (payload_hash state : string) (epoch : Z) (backend msg_id created_at : string) (detail : pydict)
    (now : Z) (c : control) : bool * control :=
  match commands c !! request_id with
  | Some _ => (false, c)
  | None =>
    let at_ := if String.eqb created_at "" then iso_timestamp now else created_at in
    (true, {| reviews := reviews c; generations := generations c;
              commands := <[request_id :=
                {| cm_command := command_id; cm_msg := msg_id; cm_turn := "";
                   cm_runtime := runtime_id; cm_generation := gen; cm_hash := payload_hash;
                   cm_state := state; cm_epoch := epoch; cm_backend := backend;
                   cm_created := at_; cm_updated := at_; cm_detail := detail |}]> (commands c) |})
  end.
(** [None] leaves a field as it is; without any field nothing is written. *)
Record command_update := { up_state : option string; up_msg : option string;
                           up_turn : option string; up_epoch : option Z;
                           up_backend : option string; up_detail : option pydict }.
Definition no_update (u : command_update) : bool :=
  is_none (up_state u) && is_none (up_msg u) && is_none (up_turn u) && is_none (up_epoch u)
  && is_none (up_backend u) && is_none (up_detail u).
Definition updated (u : command_update) (now : Z) (r : command) : command :=
  {| cm_command := cm_command r; cm_msg := default (cm_msg r) (up_msg u);
     cm_turn := default (cm_turn r) (up_turn u); cm_runtime := cm_runtime r;
     cm_generation := cm_generation r; cm_hash := cm_hash r;
     cm_state := default (cm_state r) (up_state u); cm_epoch := default (cm_epoch r) (up_epoch u);
     cm_backend := default (cm_backend r) (up_backend u); cm_created := cm_created r;
     cm_updated := iso_timestamp now; cm_detail := default (cm_detail r) (up_detail u) |}.
Definition update_command (request_id : string) (u : command_update) (now : Z) (c : control) :
    option command * control :=
  let c' := if no_update u then c else
    {| reviews := reviews c; generations := generations c;
       commands := alter (updated u now) request_id (commands c) |} in
  (commands c' !! request_id, c').

(** Newest first, by request on equal times. *)
Definition newer (a b : string * command) : Prop :=
  str_lt (cm_created b.2) (cm_created a.2) = true \/
  cm_created a.2 = cm_created b.2 /\ String.le b.1 a.1.
#[export] Instance newer_dec a b : Decision (newer a b).
Proof. unfold newer. apply _. Defined.
Definition list_commands (runtime_id : string) (state : option string) (limit offset : Z) (c : control) :
    list (string * command) :=
  take (page_size limit) (drop (Z.to_nat offset)
    (merge_sort newer (List.filter (fun x =>
       (String.eqb runtime_id "" || String.eqb (cm_runtime (snd x)) runtime_id)
       && match state with Some s => String.eqb (cm_state (snd x)) s | None => true end)
      (map_to_list (commands c))))).

(** ** The log is well formed *)
Record log_ok (t : events) : Prop := {
  lo_sorted : StronglySorted Z.lt (map ev_id (rows t));
  lo_bound : Forall (fun e => 0 < ev_id e <= last_id t) (rows t);
  lo_keys : NoDup (map key_of (rows t));
  lo_pos : Forall (fun e => 0 < ev_sequence e) (rows t);
  lo_kinds : Forall (fun e => ev_kind e ∈ EVENT_KINDS) (rows t);
  lo_last : 0 <= last_id t }.

(** Removing rows keeps a log well formed. *)
Lemma log_ok_sublist t l : log_ok t -> l `sublist_of` rows t -> log_ok {| rows := l; last_id := last_id t |}.
Proof.
  intros [] Hl.
  pose proof (map_sublist ev_id _ _ Hl). pose proof (map_sublist key_of _ _ Hl).
  split; simpl.
  - by apply (StronglySorted_sublist _ _ (map ev_id (rows t))).
  - by apply (Forall_sublist _ _ (rows t)).
  - by apply (sublist_NoDup _ (map key_of (rows t))).
  - by apply (Forall_sublist _ _ (rows t)).
  - by apply (Forall_sublist _ _ (rows t)).
  - done.
Qed.
Lemma key_of_with_id i e : key_of (with_id i e) = key_of e.
Proof. done. Qed.
(** A row with a fresh key goes behind all others. *)
Lemma log_ok_append e t :
  log_ok t -> 0 < ev_sequence e -> ev_kind e ∈ EVENT_KINDS -> key_of e ∉ map key_of (rows t) ->
  log_ok (append_row e t).
Proof.
  intros [] Hpos Hk Hf. split; simpl.
  - rewrite map_app. apply StronglySorted_app_2; [|done|by repeat constructor].
    intros x1 x2 (e1 & -> & H1)%list_elem_of_fmap Hx2. apply list_elem_of_singleton in Hx2 as ->. simpl.
    rewrite Forall_forall in lo_bound0. specialize (lo_bound0 _ H1). lia.
  - apply Forall_app. split; [|repeat constructor; simpl; lia].
    eapply Forall_impl; [exact lo_bound0|]. simpl. lia.
  - rewrite map_app. apply NoDup_app. split_and!; [done| |apply NoDup_singleton].
    intros x Hx Hx2. apply list_elem_of_singleton in Hx2 as ->. by rewrite key_of_with_id in Hx.
  - apply Forall_app. split; [done|by apply Forall_singleton].
  - apply Forall_app. split; [done|by apply Forall_singleton].
  - lia.
Qed.

Lemma max_sequence_bound src l e : e ∈ l -> source_of e = src -> ev_sequence e <= max_sequence src l.
Proof.
  intros He Hs. unfold max_sequence.
  assert (Hin : ev_sequence e ∈ map ev_sequence (List.filter (of_source src) l)).
  { apply list_elem_of_fmap. exists e. split; [done|].
    apply elem_of_List_filter. split; [done|]. by apply bool_decide_eq_true. }
  revert Hin. generalize (map ev_sequence (List.filter (of_source src) l)). intros zs.
  induction zs as [|z zs IH]; intros Hin; [by apply elem_of_nil in Hin|].
  apply elem_of_cons in Hin as [->|Hin]; simpl; [lia|]. specialize (IH Hin). lia.
Qed.
Lemma max_sequence_nonneg src l : 0 <= max_sequence src l.
Proof. unfold max_sequence. induction (map ev_sequence _); simpl; lia. Qed.
Lemma next_key_fresh l e :
  max_sequence (source_of e) l < ev_sequence e -> key_of e ∉ map key_of l.
Proof.
  intros Hlt (e' & Hk & He')%list_elem_of_fmap. 
  pose proof (f_equal fst Hk : source_of e = source_of e') as Hs.
  pose proof (f_equal snd Hk : ev_sequence e = ev_sequence e') as Hq.
  pose proof (max_sequence_bound (source_of e) l e' He' (eq_sym Hs)). lia.
Qed.
Lemma find_key_fresh e l :
  List.find (fun e' => bool_decide (key_of e' = key_of e)) l = None -> key_of e ∉ map key_of l.
Proof.
  intros Hn (e' & Hk & He')%list_elem_of_fmap. apply list_elem_of_In in He'.
  pose proof (List.find_none _ _ Hn _ He') as Hb. apply bool_decide_eq_false in Hb. congruence.
Qed.

(** What the operations do to the log: one row with a fresh key, or fewer rows. *)
Inductive log_step (t : events) : events -> Prop :=
| step_append e : 0 < ev_sequence e -> ev_kind e ∈ EVENT_KINDS ->
    key_of e ∉ map key_of (rows t) -> log_step t (append_row e t)
| step_remove l : l `sublist_of` rows t -> log_step t {| rows := l; last_id := last_id t |}.
Lemma log_step_refl t : log_step t t.
Proof. destruct t as [r n]. by apply (step_remove {| rows := r; last_id := n |}). Qed.
#[local] Hint Resolve log_step_refl : core.
Lemma append_local_step h d t : log_step t (append_local h d t).2.
Proof.
  unfold append_local. rewrite st_bind_unfold. simpl. unfold validate_draft.
  case_match eqn:Hv; [|done]. simpl.
  destruct (negb _); [|done]. case_bool_decide as Hk; [|done]. simpl.
  apply step_append; [|done|]; simpl.
  - pose proof (max_sequence_nonneg (h, ed_runtime d, ed_generation d) (rows t)). lia.
  - apply next_key_fresh. simpl. unfold source_of. simpl. lia.
Qed.
Lemma ingest_remote_step e t : log_step t (ingest_remote e t).2.
Proof.
  unfold ingest_remote. rewrite st_bind_unfold. unfold ensure.
  destruct (negb _); [|done]. rewrite st_bind_unfold.
  destruct (0 <? ev_sequence e) eqn:Hpos; [|done]. bool_to_prop.
  case_bool_decide as Hk; [done|]. rewrite st_bind_unfold. simpl.
  destruct (List.find _ _) eqn:Hf; [done|]. simpl.
  apply step_append; [done| |by apply find_key_fresh].
  by destruct (decide (ev_kind e ∈ EVENT_KINDS)).
Qed.
Lemma sweep_events_step now t : log_step t (sweep_events now t).2.
Proof. apply step_remove. etrans; [apply sublist_drop|apply List_filter_sublist]. Qed.
Lemma log_step_ok t t' : log_ok t -> log_step t t' -> log_ok t'.
Proof. intros Ht [e|l]; [by apply log_ok_append|by apply log_ok_sublist]. Qed.

(** Everything that writes to the log. *)
Inductive log_op := Append (host : string) (d : RuntimeEventDraft) | Ingest (e : RuntimeEvent)
                  | Sweep (now : Z).
Definition run_log_op (o : log_op) (t : events) : events :=
  match o with
  | Append h d => (append_local h d t).2
  | Ingest e => (ingest_remote e t).2
  | Sweep now => (sweep_events now t).2
  end.
Lemma run_log_op_step o t : log_step t (run_log_op o t).
Proof. destruct o; simpl; [apply append_local_step|apply ingest_remote_step|apply sweep_events_step]. Qed.
Lemma empty_events_ok : log_ok empty_events.
Proof. split; simpl; [constructor|by constructor..|done]. Qed.

(** Over every sequence of local appends, ingested events and sweeps the
    event log keeps its identifiers positive, strictly increasing and within
    the last one given out, never holds two events with the same host, runtime,
    generation and sequence, and holds only positive sequences and known
    kinds. *)
Theorem events_log_ok ops : log_ok (foldl (fun t o => run_log_op o t) empty_events ops).
Proof.
  generalize empty_events_ok. generalize empty_events.
  induction ops as [|o ops IH]; intros t Ht; simpl; [done|]. apply IH.
  by eapply log_step_ok; [|apply run_log_op_step].
Qed.

(** ** Reading the log with a cursor *)
Definition pending (cursor : Z) (keep : RuntimeEvent -> bool) (l : list RuntimeEvent) : list RuntimeEvent :=
  List.filter (fun e => (cursor <? ev_id e) && keep e) l.
Lemma page_size_pos k : (0 < page_size k)%nat.
Proof. unfold page_size. lia. Qed.
Lemma pending_further c c' keep l : c <= c' ->
  pending c' keep l = List.filter (fun e => c' <? ev_id e) (pending c keep l).
Proof.
  intros Hc. induction l as [|e l IH]; simpl; [done|].
  destruct (keep e) eqn:He; rewrite ?andb_false_r, ?andb_true_r; [|done].
  destruct (c <? ev_id e) eqn:H1; simpl; [by rewrite <- IH|].
  bool_to_prop. by replace (c' <? ev_id e) with false by lia.
Qed.
Lemma pending_sorted c keep l :
  StronglySorted Z.lt (map ev_id l) -> StronglySorted Z.lt (map ev_id (pending c keep l)).
Proof.
  intros Hl. eapply StronglySorted_sublist; [|done].
  by apply map_sublist, List_filter_sublist.
Qed.
Lemma filter_above c l :
  Forall (fun e => ev_id e <= c) l -> List.filter (fun e => c <? ev_id e) l = [].
Proof.
  induction 1 as [|e l He _ IH]; simpl; [done|]. by replace (c <? ev_id e) with false by lia.
Qed.
Lemma filter_below c l :
  Forall (fun e => c < ev_id e) l -> List.filter (fun e => c <? ev_id e) l = l.
Proof.
  induction 1 as [|e l He _ IH]; simpl; [done|]. replace (c <? ev_id e) with true by lia. by rewrite IH.
Qed.
Lemma sorted_split_last l1 l2 d :
  StronglySorted Z.lt (map ev_id (l1 ++ l2)) -> l1 <> [] ->
  Forall (fun e => ev_id e <= next_cursor d l1) l1 /\ Forall (fun e => next_cursor d l1 < ev_id e) l2.
Proof.
  intros Hs Hne. destruct l1 as [|x l1 _] using rev_ind; [done|]. clear Hne.
  unfold next_cursor. rewrite last_snoc. rewrite !map_app in Hs. simpl in Hs.
  apply StronglySorted_app in Hs as (H12 & H1 & _).
  apply StronglySorted_app in H1 as (H1 & _ & _). split; [apply Forall_app; split|].
  - apply Forall_forall. intros e He. apply Z.lt_le_incl, H1; [by apply list_elem_of_fmap_2|by left].
  - by apply Forall_singleton.
  - apply Forall_forall. intros e He. apply H12; [|by apply list_elem_of_fmap_2].
    apply elem_of_app. right. by left.
Qed.
Lemma elem_of_pending c keep l e : e ∈ pending c keep l <-> e ∈ l /\ c < ev_id e /\ keep e = true.
Proof. unfold pending. rewrite elem_of_List_filter, andb_true_iff, Z.ltb_lt. done. Qed.
(** A page is what its cursor moves over. *)
Lemma page_moves c k keep t : let l := page c k keep t in let c' := next_cursor c l in
  StronglySorted Z.lt (map ev_id (rows t)) ->
  c <= c' /\ pending c keep (rows t) = l ++ pending c' keep (rows t) /\
  Forall (fun e => c < ev_id e <= c') l /\ l = take (page_size k) (pending c keep (rows t)).
Proof.
  intros l c' Hs. assert (Hl : l = take (page_size k) (pending c keep (rows t))) by done.
  assert (Hc' : c' = next_cursor c l) by done. clearbody c' l. subst c'.
  pose proof (pending_sorted c keep _ Hs) as Hp.
  pose proof (take_drop (page_size k) (pending c keep (rows t))) as Hsplit. rewrite <- Hl in Hsplit.
  destruct (decide (l = [])) as [Hn|Hne].
  - rewrite Hn in Hsplit, Hl |- *. change (next_cursor c []) with c. split_and!; [lia|done|constructor|done].
  - rewrite <- Hsplit in Hp. destruct (sorted_split_last _ _ c Hp Hne) as [H1 H2].
    assert (Hgt : Forall (fun e => c < ev_id e) l).
    { apply Forall_forall. intros e He. apply (elem_of_pending c keep (rows t)).
      rewrite <- Hsplit. apply elem_of_app. by left. }
    assert (Hc : c <= next_cursor c l).
    { destruct l as [|e l']; [done|]. apply Forall_cons in H1 as [H1 _].
      apply Forall_cons in Hgt as [Hgt _]. lia. }
    split_and!; [done| |by apply Forall_and|done].
    rewrite (pending_further c _ keep _ Hc), <- Hsplit.
    rewrite List.filter_app, filter_above, filter_below; done.
Qed.

(** A reader keeps the cursor of its last call and what it was given. *)
Record reader := { rd_cursor : Z; rd_seen : list RuntimeEvent }.
Definition new_reader : reader := {| rd_cursor := 0; rd_seen := [] |}.
Section reader.
Context (filters : option (list string)) (session_id runtime_id : string).
Let keep := matches filters session_id runtime_id.

Definition poll (limit : Z) (t : events) (r : reader) : reader :=
  match list_after (rd_cursor r) filters limit session_id runtime_id t with
  | Ok (l, c) => {| rd_cursor := c; rd_seen := rd_seen r ++ l |}
  | Raise _ => r
  end.
(** What happens between the start and now: writes, and calls of the reader. *)
Inductive log_action := Writes (o : log_op) | Polls (limit : Z).
Definition act (x : events * reader) (a : log_action) : events * reader :=
  match a with
  | Writes o => (run_log_op o x.1, x.2)
  | Polls limit => (x.1, poll limit x.1 x.2)
  end.
Definition acts (l : list log_action) : events * reader := foldl act (empty_events, new_reader) l.

Record reader_ok (t : events) (r : reader) : Prop := {
  ro_log : log_ok t;
  ro_bound : 0 <= rd_cursor r <= last_id t;
  ro_sorted : StronglySorted Z.lt (map ev_id (rd_seen r));
  ro_below : Forall (fun e => ev_id e <= rd_cursor r) (rd_seen r);
  ro_kept : Forall (fun e => keep e = true) (rd_seen r);
  ro_seen : forall e, e ∈ rows t -> keep e = true -> ev_id e <= rd_cursor r -> e ∈ rd_seen r }.

Lemma reader_write t t' r : reader_ok t r -> log_step t t' -> reader_ok t' r.
Proof.
  intros [Hlog Hb Hs Hbl Hk Hseen] Hstep.
  pose proof (log_step_ok _ _ Hlog Hstep) as Hlog'.
  inversion Hstep as [e Hp Hkd Hf|l Hl]; subst t'; split; try done; simpl in *.
  - lia.
  - intros e' [He| ->%list_elem_of_singleton]%elem_of_app; [by apply Hseen|simpl; lia].
  - intros e He. apply Hseen. by eapply elem_of_submseteq, sublist_submseteq.
Qed.
Lemma poll_spec limit t r : reader_ok t r ->
  reader_ok t (poll limit t r) /\
  (forallb (fun k => bool_decide (k ∈ EVENT_KINDS)) (default [] filters) = true ->
   pending (rd_cursor (poll limit t r)) keep (rows t)
   = drop (page_size limit) (pending (rd_cursor r) keep (rows t))).
Proof.
  intros [Hlog Hb Hs Hbl Hk Hseen]. unfold poll, list_after.
  destruct (forallb _ _) eqn:Hf; simpl; [|split; [by split|done]]. fold keep.
  pose proof (page_moves (rd_cursor r) limit keep t (lo_sorted _ Hlog)) as (Hc & Hp & Hin & Hl).
  set (l := page _ _ _ _) in *. set (c := next_cursor _ _) in *.
  assert (Hmem : forall e, e ∈ l -> e ∈ rows t /\ keep e = true).
  { intros e He. assert (e ∈ pending (rd_cursor r) keep (rows t)) as Hpe
      by (rewrite Hp; apply elem_of_app; by left). apply elem_of_pending in Hpe. tauto. }
  rewrite Forall_forall in Hin. split; [split; simpl|].
  - done.
  - split; [lia|]. unfold c, next_cursor. destruct (last l) as [e|] eqn:He; [|lia].
    apply last_Some_elem_of in He. apply Hmem in He as [He _].
    pose proof (lo_bound _ Hlog) as Hbd. rewrite Forall_forall in Hbd. by apply Hbd.
  - rewrite map_app. apply StronglySorted_app_2; [|done|].
    + intros x y (e1 & -> & H1)%list_elem_of_fmap (e2 & -> & H2)%list_elem_of_fmap.
      rewrite Forall_forall in Hbl. specialize (Hbl _ H1). specialize (Hin _ H2). lia.
    + eapply StronglySorted_sublist; [|exact (lo_sorted _ Hlog)]. apply map_sublist.
      etrans; [rewrite Hl; apply sublist_take|apply List_filter_sublist].
  - apply Forall_app. split; [eapply Forall_impl; [exact Hbl|simpl; lia]|].
    apply Forall_forall. intros e He. by apply Hin.
  - apply Forall_app. split; [done|]. apply Forall_forall. intros e He. by apply Hmem.
  - intros e He Hke Hle. apply elem_of_app.
    destruct (decide (ev_id e <= rd_cursor r)); [left; by apply Hseen|right].
    assert (e ∈ pending (rd_cursor r) keep (rows t)) as Hpe
      by (apply elem_of_pending; split_and!; [done|lia|done]).
    rewrite Hp in Hpe. apply elem_of_app in Hpe as [|Hpe]; [done|].
    apply elem_of_pending in Hpe as (_ & ? & _). lia.
  - intros _. pose proof (take_drop (page_size limit) (pending (rd_cursor r) keep (rows t))) as Htd.
    rewrite <- Hl in Htd. apply (app_inv_head l). by rewrite <- Hp, Htd.
Qed.

Lemma reader_ok_start : reader_ok empty_events new_reader.
Proof.
  split; simpl; [apply empty_events_ok|done|constructor|by constructor..|].
  intros e He. by apply elem_of_nil in He.
Qed.
Lemma acts_ok l : reader_ok (acts l).1 (acts l).2.
Proof.
  unfold acts. induction l as [|a l IH] using rev_ind; [apply reader_ok_start|].
  rewrite foldl_app. simpl. destruct a; simpl; [|by apply poll_spec].
  by eapply reader_write; [|apply run_log_op_step].
Qed.
Lemma polls_pending n limit t r : reader_ok t r ->
  forallb (fun k => bool_decide (k ∈ EVENT_KINDS)) (default [] filters) = true ->
  let x := foldl act (t, r) (replicate n (Polls limit)) in
  x.1 = t /\ pending (rd_cursor x.2) keep (rows t)
             = drop (n * page_size limit) (pending (rd_cursor r) keep (rows t)).
Proof.
  intros Hr Hf. revert r Hr. induction n as [|n IH]; intros r Hr; simpl; [done|].
  destruct (poll_spec limit t r Hr) as [Hr' Hp]. destruct (IH _ Hr') as [Ht He].
  split; [done|]. rewrite He, (Hp Hf), drop_drop. done.
Qed.
End reader.

(** C15: A reader of the event log that follows its cursor, with any filter and
    page size, while others append, ingest and sweep, is never given an event
    twice or out of order nor one the filter excludes, and every event of the
    log that the filter keeps was given to it or is still ahead of its cursor.
    Enough calls in a row, as many as the log has pages, leave it with every
    such event. *)
Theorem reader_misses_nothing filters session_id runtime_id l n limit
  (Hvalid : forallb (fun k => bool_decide (k ∈ EVENT_KINDS)) (default [] filters) = true) :
  let run := acts filters session_id runtime_id in
  let keep := matches filters session_id runtime_id in
  let t := (run l).1 in let r := (run l).2 in
  StronglySorted Z.lt (map ev_id (rd_seen r)) /\
  Forall (fun e => keep e = true) (rd_seen r) /\
  (forall e, e ∈ rows t -> keep e = true -> e ∈ rd_seen r \/ rd_cursor r < ev_id e) /\
  ((length (rows t) <= n * page_size limit)%nat ->
   forall e, e ∈ rows t -> keep e = true ->
   e ∈ rd_seen (run (l ++ replicate n (Polls limit))).2).
Proof.
  intros run keep t r. destruct (acts_ok filters session_id runtime_id l) as [Hlog ? ? ? ? Hseen].
  split_and!; [done|done| |].
  - intros e He Hk. destruct (decide (ev_id e <= rd_cursor r)); [left; by apply Hseen|right; lia].
  - intros Hn e He Hk.
    pose proof (acts_ok filters session_id runtime_id (l ++ replicate n (Polls limit))) as Hok.
    fold run in Hok. unfold run, acts in Hok |- *. rewrite foldl_app in Hok |- *.
    change (foldl _ _ l) with (run l) in Hok |- *. rewrite (surjective_pairing (run l)) in Hok |- *.
    fold t r in Hok |- *.
    pose proof (polls_pending filters session_id runtime_id n limit t r
      (acts_ok filters session_id runtime_id l) Hvalid) as [Ht Hp].
    apply (ro_seen _ _ _ _ _ Hok); [by rewrite Ht|done|].
    destruct (Z.le_gt_cases (ev_id e) (rd_cursor (foldl (act filters session_id runtime_id) (t, r)
      (replicate n (Polls limit))).2)) as [|Hgt]; [done|]. exfalso.
    apply (not_elem_of_nil e). rewrite <- (drop_ge (pending (rd_cursor r) keep (rows t))
      (n * page_size limit)).
    + fold keep in Hp. rewrite <- Hp. by apply elem_of_pending.
    + etrans; [|exact Hn]. apply sublist_length, List_filter_sublist.
Qed.

(** ** Mirroring the log of another host *)
Lemma find_key_unique e l : NoDup (map key_of l) -> e ∈ l ->
  List.find (fun x => bool_decide (key_of x = key_of e)) l = Some e.
Proof.
  induction l as [|x l IH]; intros Hn He; [by apply elem_of_nil in He|]. simpl in *.
  apply NoDup_cons in Hn as [Hx Hn]. apply elem_of_cons in He as [->|He].
  - by rewrite bool_decide_true.
  - rewrite bool_decide_false; [by apply IH|]. intros Heq. apply Hx. rewrite Heq.
    by apply list_elem_of_fmap_2.
Qed.
(** The events that are stored, and what storing one does. *)
Definition ingestible (e : RuntimeEvent) : Prop :=
  ev_host e <> "" /\ ev_runtime e <> "" /\ 0 < ev_sequence e /\ ev_kind e ∈ EVENT_KINDS.
Lemma ingest_remote_eq e t : ingestible e ->
  ingest_remote e t =
  match List.find (fun x => bool_decide (key_of x = key_of e)) (rows t) with
  | Some row => (Ok (Some (with_id (ev_id row) e)), t)
  | None => (Ok (Some (with_id (last_id t + 1) e)), append_row e t)
  end.
Proof.
  intros (Hh & Hr & Hs & Hk). unfold ingest_remote. rewrite !st_bind_unfold. unfold ensure.
  apply String.eqb_neq in Hh, Hr. apply Z.ltb_lt in Hs. rewrite Hh, Hr, Hs.
  rewrite bool_decide_false by naive_solver.
  change (negb (false || false)) with true. cbv iota. rewrite !st_bind_unfold. unfold gets.
  by destruct (List.find _ _).
Qed.
Lemma ingest_remote_ingestible e t r t' : ingest_remote e t = (Ok (Some r), t') -> ingestible e.
Proof.
  unfold ingest_remote. rewrite !st_bind_unfold. unfold ensure.
  destruct (negb _) eqn:H1; [|done]. rewrite st_bind_unfold.
  destruct (0 <? _) eqn:H2; [|done]. case_bool_decide as H3; [done|]. intros _.
  bool_to_prop. split_and!; [done..|]. by destruct (decide (ev_kind e ∈ EVENT_KINDS)).
Qed.
Lemma ingest_remote_row e t r t' : log_ok t -> ingest_remote e t = (Ok (Some r), t') ->
  log_ok t' /\ exists row, row ∈ rows t' /\ key_of row = key_of e /\ r = with_id (ev_id row) e.
Proof.
  intros Ht H. pose proof (ingest_remote_step e t) as Hs. rewrite H in Hs.
  split; [by eapply log_step_ok|]. pose proof (ingest_remote_ingestible _ _ _ _ H) as Hi.
  rewrite (ingest_remote_eq _ _ Hi) in H.
  destruct (List.find _ _) as [row|] eqn:Hf; simplify_eq.
  - apply List.find_some in Hf as [Hin Hk]. apply bool_decide_eq_true in Hk.
    exists row. rewrite list_elem_of_In. auto.
  - exists (with_id (last_id t + 1) e). split; [apply elem_of_app; right; by left|done].
Qed.
Lemma ingest_remote_again e t row : ingestible e -> log_ok t -> row ∈ rows t -> key_of row = key_of e ->
  ingest_remote e t = (Ok (Some (with_id (ev_id row) e)), t).
Proof.
  intros Hi Ht Hin Hk. rewrite (ingest_remote_eq _ _ Hi), <- Hk.
  by rewrite (find_key_unique row _ (lo_keys _ Ht) Hin).
Qed.

(** An event that arrives twice is stored once: ingesting it again gives the
    same answer and leaves the log as it is, whatever was appended, ingested
    or swept away in between, as long as the row is still there. *)
Theorem ingest_idempotent e t r t1 t2
  (Hok : log_ok t) (Hfirst : ingest_remote e t = (Ok (Some r), t1))
  (Hlater : log_ok t2) (Hthere : exists row, row ∈ rows t1 /\ key_of row = key_of e /\ row ∈ rows t2) :
  ingest_remote e t2 = (Ok (Some r), t2).
Proof.
  destruct Hthere as (row & H1 & Hk & H2).
  destruct (ingest_remote_row _ _ _ _ Hok Hfirst) as (Hok1 & row' & Hin & Hk' & ->).
  pose proof (ingest_remote_ingestible _ _ _ _ Hfirst) as Hi.
  rewrite (ingest_remote_again e t2 row); [|done..].
  pose proof (ingest_remote_again e t1 row Hi Hok1 H1 Hk).
  pose proof (ingest_remote_again e t1 row' Hi Hok1 Hin Hk'). congruence.
Qed.

(** The producer's sweep can remove its newest row; the next event then takes
    over its sequence, and a mirror that has the old event drops the new one. *)
Section swept_sequence.
Context (host : string) (d1 d2 : RuntimeEventDraft) (t : events) (now : Z).
Let src := (host, ed_runtime d1, ed_generation d1).
Let first := numbered host (max_sequence src (rows t) + 1) (last_id t + 1) d1.
Let second := numbered host (max_sequence src (rows t) + 1) (last_id t + 1 + 1) d2.
Hypothesis Hsame : ed_runtime d2 = ed_runtime d1 /\ ed_generation d2 = ed_generation d1.
Hypothesis Hvalid : validate_draft d1 = Ok tt /\ validate_draft d2 = Ok tt.
Hypothesis Hexpired : expired now first = true.
Hypothesis Hrest : Forall (fun e => expired now e = false) (rows t).
Hypothesis Hlen : Z.of_nat (length (rows t)) <= MAX_TOTAL_EVENTS.

Lemma sweep_keeps l :
  Forall (fun e => expired now e = false) l -> List.filter (fun e => negb (expired now e)) l = l.
Proof. induction 1 as [|e l He _ IH]; simpl; [done|]. by rewrite He, IH. Qed.
Lemma swept_sequence_lost m r mirror :
  log_ok m -> ingest_remote first m = (Ok (Some r), mirror) ->
  (append_local host d1 t).1 = Ok first /\
  (append_local host d2 (sweep_events now (append_local host d1 t).2).2).1 = Ok second /\
  exists id, ingest_remote second mirror = (Ok (Some (with_id id second)), mirror).
Proof using Hsame Hvalid Hexpired Hrest Hlen.
  destruct Hsame as [Hr Hg], Hvalid as [Hv1 Hv2]. intros Hm Hmirror.
  assert (Happ : append_local host d1 t = (Ok first, append_row first t)).
  { unfold append_local. rewrite st_bind_unfold. unfold lift. by rewrite Hv1. }
  assert (Hsw : (sweep_events now (append_row first t)).2 = {| rows := rows t; last_id := last_id t + 1 |}).
  { unfold sweep_events, append_row. simpl. f_equal.
    rewrite List.filter_app, (sweep_keeps _ Hrest). simpl.
    change (expired now (with_id _ first)) with (expired now first). rewrite Hexpired. simpl.
    rewrite app_nil_r. by replace (Z.to_nat _) with 0%nat by lia. }
  rewrite Happ. cbn [fst snd]. rewrite Hsw. split_and!; [done| |].
  - unfold append_local. rewrite st_bind_unfold. unfold lift. rewrite Hv2. simpl.
    by rewrite Hr, Hg.
  - destruct (ingest_remote_row _ _ _ _ Hm Hmirror) as (Hok & row & Hin & Hk & _).
    exists (ev_id row). pose proof (ingest_remote_ingestible _ _ _ _ Hmirror) as (H1 & H2 & H3 & H4).
    assert (Hkey : key_of second = key_of first).
    { unfold key_of, source_of, second, first. simpl. by rewrite Hr, Hg. }
    apply ingest_remote_again; [|done|done|by rewrite Hkey].
    split_and!; simpl in *; [done|by rewrite Hr|done|].
    unfold validate_draft in Hv2. destruct (negb _); [|done]. by case_bool_decide.
Qed.
End swept_sequence.

(** ** The control store over its operations *)
Inductive control_op :=
| UpsertReview (key session_id runtime_id profile_id agent_id : string) (now : Z)
| UpsertGeneration (runtime_id : string) (current : Z) (nonce presence binding backend : string)
    (epoch : Z) (agent_state context : string) (now : Z)
| DeleteGeneration (runtime_id : string)
| EnqueueCommand (request_id command_id runtime_id : string) (gen : Z) (payload_hash state : string)
    (epoch : Z) (backend msg_id created_at : string) (detail : pydict) (now : Z)
| UpdateCommand (request_id : string) (u : command_update) (now : Z).
Definition run_control_op (c : control) (o : control_op) : control :=
  match o with
  | UpsertReview k s r p a now => upsert_review k s r p a now c
  | UpsertGeneration r g n p b be ep a ctx now => upsert_generation r g n p b be ep a ctx now c
  | DeleteGeneration r => (delete_generation r c).2
  | EnqueueCommand q cid r g h s ep be m cr d now => (enqueue_command q cid r g h s ep be m cr d now c).2
  | UpdateCommand q u now => (update_command q u now c).2
  end.
Definition run_control (ops : list control_op) (c : control) : control := foldl run_control_op c ops.

(** One review at most has a session. *)
Definition sessions_unique (c : control) : Prop := forall k1 k2 r1 r2,
  reviews c !! k1 = Some r1 -> reviews c !! k2 = Some r2 -> rv_session r1 = rv_session r2 -> k1 = k2.
Lemma claimed_elsewhere_false key s r : claimed_elsewhere key s r = false <->
  forall k x, r !! k = Some x -> rv_session x = s -> k = key.
Proof.
  unfold claimed_elsewhere. rewrite <- not_true_iff_false, List.existsb_exists. split.
  - intros Hn k x Hk Hs. destruct (decide (k = key)) as [|Hne]; [done|]. exfalso. apply Hn.
    exists (k, x). apply String.eqb_neq in Hne. apply String.eqb_eq in Hs. simpl.
    rewrite <- list_elem_of_In, elem_of_map_to_list, Hne, Hs. done.
  - intros H ([k x] & Hin & Hb). simpl in Hb. bool_to_prop.
    rewrite <- list_elem_of_In, elem_of_map_to_list in Hin. by eapply H0, H.
Qed.
Lemma upsert_review_unique k s r p a now c :
  sessions_unique c -> sessions_unique (upsert_review k s r p a now c).
Proof.
  intros Hu. unfold upsert_review. destruct (claimed_elsewhere _ _ _) eqn:Hc; [done|].
  rewrite claimed_elsewhere_false in Hc. intros k1 k2 r1 r2. simpl. rewrite !lookup_insert_Some.
  intros [[<- <-]|[H1 H1']] [[<- <-]|[H2 H2']]; simpl; intros Heq; [done| | |by eapply Hu].
  - symmetry. by eapply Hc.
  - by eapply Hc.
Qed.
Lemma reviews_run_control_op c o :
  (exists k s r p a now, run_control_op c o = upsert_review k s r p a now c) \/
  reviews (run_control_op c o) = reviews c.
Proof.
  destruct o; simpl; [left; eauto 10|right..]; try done.
  - unfold enqueue_command. by case_match.
  - unfold update_command. by destruct (no_update u).
Qed.
Lemma run_control_unique ops c : sessions_unique c -> sessions_unique (run_control ops c).
Proof.
  revert c. induction ops as [|o ops IH]; intros c Hc; simpl; [done|]. apply IH.
  destruct (reviews_run_control_op c o) as [(?&?&?&?&?&?&->)|He]; [by apply upsert_review_unique|].
  intros k1 k2 r1 r2. rewrite He. apply Hc.
Qed.
(** Whatever was written, a session belongs to at most one review of the
    control store, and the lookup by session answers with that review or, when
    no review has the session, with none. *)
Theorem review_of_session ops s :
  let c := run_control ops empty_control in
  sessions_unique c /\
  forall k x, get_review_by_session s c = Some (k, x) <-> get_review k c = Some x /\ rv_session x = s.
Proof.
  intros c. assert (Hu : sessions_unique c).
  { apply run_control_unique. intros k1 k2 r1 r2 H. simpl in H. by rewrite lookup_empty in H. }
  split; [done|]. intros k x. unfold get_review_by_session, get_review. split.
  - intros Hf%List.find_some. simpl in Hf. rewrite <- list_elem_of_In, elem_of_map_to_list in Hf.
    by rewrite String.eqb_eq in Hf.
  - intros [Hk Hs]. destruct (List.find _ _) as [[k' x']|] eqn:Hf.
    + apply List.find_some in Hf. simpl in Hf.
      rewrite <- list_elem_of_In, elem_of_map_to_list, String.eqb_eq in Hf. destruct Hf as [Hk' Hs'].
      assert (k' = k) as -> by (eapply Hu; [done..|congruence]). congruence.
    + exfalso. eapply List.find_none in Hf; [|by apply list_elem_of_In, elem_of_map_to_list].
      simpl in Hf. by rewrite String.eqb_neq in Hf.
Qed.

(** What no operation changes in a command. *)
Definition same_identity (r r' : command) : Prop :=
  cm_command r' = cm_command r /\ cm_runtime r' = cm_runtime r /\ cm_generation r' = cm_generation r /\
  cm_hash r' = cm_hash r /\ cm_created r' = cm_created r.
#[export] Instance same_identity_preorder : PreOrder same_identity.
Proof. split; [by intros ?|]. unfold same_identity. intros ? ? ? ? ?. intuition congruence. Qed.
Lemma run_control_op_command c o rid r :
  commands c !! rid = Some r -> exists r', commands (run_control_op c o) !! rid = Some r' /\ same_identity r r'.
Proof.
  intros Hr. destruct o; simpl; try by exists r.
  - exists r. unfold upsert_review. by destruct (claimed_elsewhere _ _ _).
  - unfold enqueue_command. case_match eqn:Hq; simpl; [by exists r|].
    exists r. by rewrite lookup_insert_ne by congruence.
  - unfold update_command. destruct (no_update u); simpl; [by exists r|].
    destruct (decide (request_id = rid)) as [->|Hne].
    + rewrite lookup_alter, decide_True by done. rewrite Hr. simpl. by eexists.
    + rewrite lookup_alter_ne by done. by exists r.
Qed.
(** The first command enqueued under a request keeps its command, runtime,
    generation, payload hash and creation time through everything that is
    written later, and every later enqueue under the request reports that
    nothing was created and changes nothing. *)
Theorem first_enqueue_wins ops c rid cid rt g h s ep be m cr d now
  (Hfresh : commands c !! rid = None) :
  let x := enqueue_command rid cid rt g h s ep be m cr d now c in
  let c' := run_control ops x.2 in
  x.1 = true /\
  (exists r, commands c' !! rid = Some r /\ cm_command r = cid /\ cm_runtime r = rt /\
     cm_generation r = g /\ cm_hash r = h /\
     cm_created r = (if String.eqb cr "" then iso_timestamp now else cr)) /\
  forall cid' rt' g' h' s' ep' be' m' cr' d' now',
    enqueue_command rid cid' rt' g' h' s' ep' be' m' cr' d' now' c' = (false, c').
Proof.
  intros x c'.
  assert (Hrun : forall c0 r, commands c0 !! rid = Some r ->
    exists r', commands (run_control ops c0) !! rid = Some r' /\ same_identity r r').
  { clear. induction ops as [|o l IH]; intros c0 r Hr; simpl; [by exists r|].
    destruct (run_control_op_command c0 o rid r Hr) as (r1 & H1 & Hs1).
    destruct (IH _ _ H1) as (r2 & H2 & Hs2). exists r2. split; [done|]. by etrans. }
  assert (Hagain : forall r, commands c' !! rid = Some r ->
    forall cid' rt' g' h' s' ep' be' m' cr' d' now',
    enqueue_command rid cid' rt' g' h' s' ep' be' m' cr' d' now' c' = (false, c')).
  { intros r Hr. intros. unfold enqueue_command. by rewrite Hr. }
  specialize (Hrun x.2). fold c' in Hrun. clearbody c'. subst x.
  unfold enqueue_command in Hrun |- *. rewrite Hfresh in Hrun |- *. simpl in Hrun |- *.
  destruct (Hrun _ (lookup_insert_eq _ _ _)) as (r & Hr & H1 & H2 & H3 & H4 & H5).
  split_and!; [done|by exists r|by eapply Hagain].
Qed.

(** ** Examples *)
Definition demo_draft (seq : Z) : RuntimeEventDraft := {|
  ed_runtime := "rt1"; ed_generation := 1; ed_session := "s1"; ed_agent := "w1"; ed_request := "";
  ed_run := ""; ed_kind := "TOOL_UPDATED"; ed_created := iso_timestamp (1700000000000 + seq);
  ed_payload := [] |}.
Definition demo_event (seq : Z) : RuntimeEvent := numbered "far" seq seq (demo_draft seq).

Lemma reader_misses_nothing_witness :
  let l := [Writes (Append "here" (demo_draft 1)); Writes (Ingest (demo_event 4)); Polls 1;
            Writes (Append "here" (demo_draft 2)); Polls 1; Writes (Sweep 1700000005000)] in
  let run := acts (Some ["TOOL_UPDATED"]) "" "" in
  map ev_id (rd_seen (run l).2) = [1; 2] /\
  forall e, e ∈ rows (run l).1 -> matches (Some ["TOOL_UPDATED"]) "" "" e = true ->
  e ∈ rd_seen (run (l ++ replicate 3 (Polls 1))).2.
Proof.
  cbv zeta. split; [vm_compute; reflexivity|].
  eapply (reader_misses_nothing (Some ["TOOL_UPDATED"]) "" "" _ 3 1).
  - reflexivity.
  - vm_compute. lia.
Defined.

Lemma ingest_idempotent_witness : exists r t1,
  ingest_remote (demo_event 4) empty_events = (Ok (Some r), t1) /\
  let t2 := (append_local "here" (demo_draft 1) t1).2 in
  length (rows t2) = 2%nat /\ ingest_remote (demo_event 4) t2 = (Ok (Some r), t2).
Proof.
  eexists _, _. split; [vm_compute; reflexivity|]. cbv zeta. split; [vm_compute; reflexivity|].
  eapply (ingest_idempotent (demo_event 4) empty_events).
  - exact empty_events_ok.
  - vm_compute. reflexivity.
  - apply (log_step_ok (ingest_remote (demo_event 4) empty_events).2); [|vm_compute (ingest_remote _ _).2; apply append_local_step].
    apply (log_step_ok empty_events); [exact empty_events_ok|apply ingest_remote_step].
  - eexists. split; [left|split; [reflexivity|vm_compute; left]].
Defined.

Lemma first_enqueue_wins_witness :
  let x := enqueue_command "q1" "c1" "rt1" 1 "h" "QUEUED" 0 "" "" "" [] 1700000000000 empty_control in
  x.1 = true /\
  forall now', enqueue_command "q1" "c2" "rt1" 1 "h2" "QUEUED" 0 "" "" "" [] now' (run_control [] x.2)
    = (false, run_control [] x.2).
Proof.
  cbv zeta. destruct (first_enqueue_wins [] empty_control "q1" "c1" "rt1" 1 "h" "QUEUED" 0 "" "" "" [] 1700000000000)
    as (H1 & _ & H3).
  - reflexivity.
  - split; [exact H1|]. intros now'. apply H3.
Defined.
