(* ===== verification/GatewayService.v ===== *)
(** * The gateway (src/src/codeagent/gateway/service.py)

    The gateway of a machine knows the runtimes of agents that registered
    here, delivers commands to them, keeps exclusive roles and the records of
    merged writes.  What a handler does to the runtimes and their rows it does
    under one lock, in one step.  [runtime_send], [runtime_register],
    [runtime_stop] and [runtime_context_set] go on without the lock: each is a
    sequence of steps ([send_phase], [call_phase]), between which other requests
    run.  Requests are typed; times are in milliseconds. *)
From S2P Require Import Prelude MailboxProtocol RequestLedger MailboxStore MailboxClaims.
From S2P Require Import MailboxService GatewayStores.

(** ** The states of a runtime and of a command *)
Definition PRESENCE_ALIVE : string := "alive".
Definition PRESENCE_STALE : string := "stale".
Definition PRESENCE_DEAD : string := "dead".
Definition BINDING_PENDING : string := "pending".
Definition BINDING_BOUND : string := "bound".
Definition BINDING_LOST : string := "lost".
Definition AGENT_RUNNING : string := "agent_running".
Definition AGENT_IDLE : string := "idle".
Definition AGENT_ENDED : string := "ended".
Definition LIFECYCLE_EVENTS : list string :=
  ["session_ready"; "agent_start"; "turn_start"; "turn_end"; "agent_end"; "session_shutdown";
   "registry_parked"; "registry_removed"; "process_exit"; "heartbeat"].

Definition CMD_QUEUED : string := "QUEUED".
Definition CMD_CLAIMED : string := "CLAIMED".
Definition CMD_REVIVING : string := "REVIVING".
Definition CMD_TRIGGERING : string := "TRIGGERING".
Definition CMD_TURN_TRIGGERED : string := "TURN_TRIGGERED".
Definition CMD_FAILED_SAFE : string := "FAILED_SAFE".
Definition CMD_AMBIGUOUS : string := "AMBIGUOUS".
Definition CMD_TRIGGER_UNKNOWN : string := "TRIGGER_UNKNOWN".
Definition CMD_STATES : list string :=
  [CMD_QUEUED; CMD_CLAIMED; CMD_REVIVING; CMD_TRIGGERING; CMD_TURN_TRIGGERED; CMD_FAILED_SAFE;
   CMD_AMBIGUOUS; CMD_TRIGGER_UNKNOWN].
(** A state that is not in the table has no transition. *)
Definition CMD_TRANSITIONS (s : string) : list string :=
  if String.eqb s CMD_QUEUED then [CMD_CLAIMED; CMD_FAILED_SAFE; CMD_AMBIGUOUS]
  else if String.eqb s CMD_CLAIMED then [CMD_REVIVING; CMD_TRIGGERING; CMD_FAILED_SAFE; CMD_AMBIGUOUS]
  else if String.eqb s CMD_REVIVING then [CMD_TRIGGERING; CMD_FAILED_SAFE; CMD_AMBIGUOUS]
  else if String.eqb s CMD_TRIGGERING then [CMD_TURN_TRIGGERED; CMD_AMBIGUOUS; CMD_TRIGGER_UNKNOWN]
  else [].
Definition CMD_STATUS_BY_STATE (s : string) : string :=
  if String.eqb s CMD_QUEUED then "mailbox_persisted"
  else if String.eqb s CMD_CLAIMED then "claimed"
  else if String.eqb s CMD_REVIVING then "session_live"
  else if String.eqb s CMD_TRIGGERING then "ambiguous"
  else if String.eqb s CMD_TURN_TRIGGERED then "turn_triggered"
  else if String.eqb s CMD_FAILED_SAFE then "failed_safe"
  else if String.eqb s CMD_AMBIGUOUS then "ambiguous"
  else if String.eqb s CMD_TRIGGER_UNKNOWN then "ambiguous"
  else "mailbox_persisted".

Definition CMD_ACK_CHAIN : list string :=
  [CMD_QUEUED; CMD_CLAIMED; CMD_REVIVING; CMD_TRIGGERING; CMD_TURN_TRIGGERED].
Fixpoint index_of (s : string) (l : list string) : option nat :=
  match l with
  | [] => None
  | x :: l' => if String.eqb x s then Some 0%nat else S <$> index_of s l'
  end.
(** The hops from [src] on, checked against the table; those before the
    target are collected. *)
Fixpoint hops (src target : string) (l : list string) : option (list string) :=
  match l with
  | [] => Some []
  | hop :: l' =>
    if bool_decide (hop ∈ CMD_TRANSITIONS src)
    then (fun r => if String.eqb hop target then r else hop :: r) <$> hops hop target l'
    else None
  end.
Definition _advance_ack_chain (current target : string) : option (string * list string) :=
  match index_of current CMD_ACK_CHAIN, index_of target CMD_ACK_CHAIN with
  | Some i, Some j =>
    if (j <=? i)%nat then None
    else pair target <$> hops current target (take (j - i) (drop (S i) CMD_ACK_CHAIN))
  | _, _ => None
  end.

(** ** Capabilities *)
Definition HOT_REQUIRED_CAPABILITIES : list string := ["park_revive"; "correlated_turn_ack"].
Definition _normalize_capability (name : string) : string :=
  match rsplit1 "_"%char name with
  | Some (base, String "v"%char ver) => if negb (String.eqb ver "") && all_chars is_digit ver then base else name
  | _ => name
  end.

(** ** Runtimes *)

(** What a record keeps from its creation on. *)
Record identity := {
  id_runtime : string; id_session : string; id_agent : string; id_generation : Z;
  id_review : string; id_backend : string; id_host : string; id_kind : string;
  id_owner_pid : Z; id_nonce : string; id_created : option Z; id_started : Z; id_epoch : Z;
  id_caps : list string }.
Record RuntimeRecord := {
  rr_id : identity; rr_status : string; rr_last : Z; rr_presence : string; rr_binding : string;
  rr_agent_state : string; rr_context : pydict; rr_task : pyval }.
(** The record with its three dimensions, its status and its last activity. *)
Definition placed (status presence binding agent_state : string) (last : Z) (r : RuntimeRecord) : RuntimeRecord :=
  {| rr_id := rr_id r; rr_status := status; rr_last := last; rr_presence := presence;
     rr_binding := binding; rr_agent_state := agent_state; rr_context := rr_context r; rr_task := rr_task r |}.
Definition set_status (s : string) (r : RuntimeRecord) : RuntimeRecord :=
  placed s (rr_presence r) (rr_binding r) (rr_agent_state r) (rr_last r) r.
Definition set_presence (p : string) (r : RuntimeRecord) : RuntimeRecord :=
  placed (rr_status r) p (rr_binding r) (rr_agent_state r) (rr_last r) r.
Definition set_binding (b : string) (r : RuntimeRecord) : RuntimeRecord :=
  placed (rr_status r) (rr_presence r) b (rr_agent_state r) (rr_last r) r.
Definition set_agent_state (a : string) (r : RuntimeRecord) : RuntimeRecord :=
  placed (rr_status r) (rr_presence r) (rr_binding r) a (rr_last r) r.
Definition set_last (t : Z) (r : RuntimeRecord) : RuntimeRecord :=
  placed (rr_status r) (rr_presence r) (rr_binding r) (rr_agent_state r) t r.
Definition set_context (c : pydict) (r : RuntimeRecord) : RuntimeRecord :=
  {| rr_id := rr_id r; rr_status := rr_status r; rr_last := rr_last r; rr_presence := rr_presence r;
     rr_binding := rr_binding r; rr_agent_state := rr_agent_state r; rr_context := c; rr_task := rr_task r |}.
Definition set_task (t : pyval) (r : RuntimeRecord) : RuntimeRecord :=
  {| rr_id := rr_id r; rr_status := rr_status r; rr_last := rr_last r; rr_presence := rr_presence r;
     rr_binding := rr_binding r; rr_agent_state := rr_agent_state r; rr_context := rr_context r; rr_task := t |}.

Definition _reduce_lifecycle (r : RuntimeRecord) (event : string) : RuntimeRecord :=
  if String.eqb event "heartbeat" then set_presence PRESENCE_ALIVE r
  else if String.eqb event "session_ready" then set_agent_state AGENT_IDLE (set_presence PRESENCE_ALIVE r)
  else if bool_decide (event ∈ ["agent_start"; "turn_start"]) then set_agent_state AGENT_RUNNING r
  else if bool_decide (event ∈ ["turn_end"; "agent_end"]) then set_agent_state AGENT_IDLE r
  else if bool_decide (event ∈ ["session_shutdown"; "registry_parked"; "registry_removed"; "process_exit"])
  then set_agent_state AGENT_ENDED r
  else r.

Definition _is_hot (r : RuntimeRecord) : bool :=
  if negb (String.eqb (rr_presence r) PRESENCE_ALIVE && String.eqb (rr_binding r) BINDING_BOUND
           && bool_decide (rr_agent_state r ∈ [AGENT_RUNNING; AGENT_IDLE; AGENT_ENDED])) then false
  else if bool_decide (id_kind (rr_id r) ∉ [""; "omp"]) then false
  else let caps := map _normalize_capability (id_caps (rr_id r)) in
  match caps with
  | [] => true
  | _ => forallb (fun c => bool_decide (c ∈ caps)) HOT_REQUIRED_CAPABILITIES
  end.

(** ** The state of the gateway

    [g_merges_file] and [g_peers_file] are what the two JSON files hold. *)
Record role_claim := { rc_owner : string; rc_claimed : Z; rc_expires : Z }.
Record peer := { pe_id : string; pe_session : string; pe_agent : string; pe_host : string;
                 pe_root : string; pe_status : string; pe_registered : Z }.
Record hub := {
  h_claims : list (string * role_claim);
  h_merges : gmap (string * string) string; h_merges_file : list (string * string * string);
  h_peers : list (string * peer); h_peers_file : list peer; h_swept : Z }.
Record gateway := {
  g_runtimes : list (string * RuntimeRecord); g_ctl : control; g_events : events;
  g_mail : gmap string session; g_ledgers : gmap (string * string) ledger; g_hub : hub }.
Definition set_runtimes (x : list (string * RuntimeRecord)) (g : gateway) : gateway :=
  {| g_runtimes := x; g_ctl := g_ctl g; g_events := g_events g; g_mail := g_mail g;
     g_ledgers := g_ledgers g; g_hub := g_hub g |}.
Definition set_ctl (x : control) (g : gateway) : gateway :=
  {| g_runtimes := g_runtimes g; g_ctl := x; g_events := g_events g; g_mail := g_mail g;
     g_ledgers := g_ledgers g; g_hub := g_hub g |}.
Definition set_events (x : events) (g : gateway) : gateway :=
  {| g_runtimes := g_runtimes g; g_ctl := g_ctl g; g_events := x; g_mail := g_mail g;
     g_ledgers := g_ledgers g; g_hub := g_hub g |}.
Definition set_mail (x : gmap string session) (g : gateway) : gateway :=
  {| g_runtimes := g_runtimes g; g_ctl := g_ctl g; g_events := g_events g; g_mail := x;
     g_ledgers := g_ledgers g; g_hub := g_hub g |}.
Definition set_ledgers (x : gmap (string * string) ledger) (g : gateway) : gateway :=
  {| g_runtimes := g_runtimes g; g_ctl := g_ctl g; g_events := g_events g; g_mail := g_mail g;
     g_ledgers := x; g_hub := g_hub g |}.
Definition set_hub (x : hub) (g : gateway) : gateway :=
  {| g_runtimes := g_runtimes g; g_ctl := g_ctl g; g_events := g_events g; g_mail := g_mail g;
     g_ledgers := g_ledgers g; g_hub := x |}.

(** What the gateway uses of the park registry, the runtime drivers and the
    libraries. *)
Record handle := { hd_runtime : string; hd_generation : Z; hd_backend : string; hd_host : string }.
Class Backends (W : Type) := {
  (** The swarm session of a review, when the park registry has it. *)
  park_session : string -> st W (option string);
  park_renew : string -> st W unit;
  (** The manifest of a review that is parked hot, and writing it back with a
      backend session. *)
  hot_manifest : Type;
  park_hot : string -> st W (option hot_manifest);
  park_rebind : string -> string -> hot_manifest -> st W unit;
  (** [park_revive]: success and method. *)
  park_revive : string -> string -> st W (bool * string);
  park_release : string -> st W unit;
  (** The runtime drivers: [spawn], [stop] and [probe]. *)
  driver_spawn : string -> string -> string -> st W handle;
  driver_stop : string -> string -> st W unit;
  driver_probe : string -> st W bool;
  (** The delivery engine's sweep. *)
  engine_sweep : st W unit;
  (** The kernel: opening a session, letting an agent on a host join it, and
      leave it; sending to an agent gives message and status. *)
  kernel_open : string -> string -> list string -> st W unit;
  kernel_join : string -> string -> string -> st W unit;
  kernel_leave : string -> string -> st W unit;
  kernel_direct : string -> string -> string -> pydict -> st W (string * string);
  (** Size and SHA-256 of a file. *)
  file_facts : string -> option (Z * string);
  sha256 : string -> string;
  json_dumps : pyval -> string;
  json_loads : string -> option pyval;
  py_repr : pyval -> string;
  (** The host name of this machine, as events carry it. *)
  local_host : string }.

Section gateway.
Context {W : Type} `{Backends W}.
Notation M := (st (gateway * W)).

(** Parts of the state. *)
Definition on_gw {A} (m : st gateway A) : M A := fun s => let r := m s.1 in (r.1, (r.2, s.2)).
Definition on_ext {A} (m : st W A) : M A := fun s => let r := m s.2 in (r.1, (s.1, r.2)).
Definition look {A} (f : gateway -> A) : M A := on_gw (gets f).
Definition upd (f : gateway -> gateway) : M unit := on_gw (modify f).
Definition on_events {A} (m : st events A) : M A := on_gw (fun g =>
  let r := m (g_events g) in (r.1, set_events r.2 g)).
Definition upd_ctl (f : control -> control) : M unit := upd (fun g => set_ctl (f (g_ctl g)) g).
(** A call on the mailboxes of one session. *)
Definition on_session {A} (sid : string) (m : st session A) : M A := on_gw (fun g =>
  let r := m (default empty_session (g_mail g !! sid)) in (r.1, set_mail (<[sid := r.2]> (g_mail g)) g)).
(** [try: ... except Exception: log] *)
Definition quietly {A} (m : M A) : M unit := fun s => (Ok tt, (m s).2).
Definition tried {A} (m : M A) : M (option A) := fun s =>
  let r := m s in (Ok match r.1 with Ok a => Some a | Raise _ => None end, r.2).
Definition refuse {A} (code : string) : M A := raise (GatewayError code).

Definition put_runtime (rid : string) (r : RuntimeRecord) : M unit :=
  upd (fun g => set_runtimes (dset (g_runtimes g) rid r) g).
Definition _require_runtime (rid : string) : M RuntimeRecord :=
  r ← look (fun g => dget (g_runtimes g) rid);
  match r with Some x => mret x | None => refuse "NOT_FOUND" end.
(** A handler that lets go of the lock keeps a reference to the record that it
    found.  [held] is [None] while that is the record in the table, which others
    may change; the record itself once another has taken its place, or it was
    removed. *)
Definition held_record (rid : string) (held : option RuntimeRecord) : M RuntimeRecord :=
  match held with Some r => mret r | None => _require_runtime rid end.
Definition put_held (rid : string) (held : option RuntimeRecord) (r : RuntimeRecord) : M unit :=
  match held with Some _ => mret tt | None => put_runtime rid r end.
Definition _persist_control_state (r : RuntimeRecord) (now : Z) : M unit :=
  let i := rr_id r in
  let ctx := if base.decide (rr_context r = []) then "" else json_dumps (VDict (rr_context r)) in
  upd_ctl (upsert_generation (id_runtime i) (id_generation i) (id_nonce i) (rr_presence r) (rr_binding r)
             (id_backend i) (id_epoch i) (rr_agent_state r) ctx now).
(** The record in memory and in the control store. *)
Definition save_runtime (rid : string) (r : RuntimeRecord) (now : Z) : M unit :=
  _ ← put_runtime rid r; _persist_control_state r now.
Definition emit (r : RuntimeRecord) (kind : string) (payload : pydict) (now : Z) : M RuntimeEvent :=
  let i := rr_id r in
  on_events (append_local local_host
    {| ed_runtime := id_runtime i; ed_generation := id_generation i; ed_session := id_session i;
       ed_agent := id_agent i; ed_request := ""; ed_run := ""; ed_kind := kind;
       ed_created := iso_timestamp now; ed_payload := payload |}).
(** [read_session] *)
Definition read_meta (sid : string) : M (option session_meta) :=
  _ ← on_gw (lift (validate_agent_id sid));
  look (fun g => meta (default empty_session (g_mail g !! sid))).
Definition mirror_review (review_key session_id runtime_id agent_id : string) (now : Z) : M unit :=
  if String.eqb review_key "" then mret tt
  else upd_ctl (upsert_review review_key session_id runtime_id agent_id agent_id now).

(** ** Registering a runtime *)
Record register_params := {
  rp_session : string; rp_agent : string; rp_runtime : string; rp_generation : Z; rp_review : string;
  rp_backend : string; rp_kind : string; rp_owner_pid : Z; rp_nonce : string; rp_caps : list string }.
Definition registered (p : register_params) (epoch now : Z) : RuntimeRecord :=
  {| rr_id := {| id_runtime := rp_runtime p; id_session := rp_session p; id_agent := rp_agent p;
                 id_generation := rp_generation p; id_review := rp_review p; id_backend := rp_backend p;
                 id_host := "__local__"; id_kind := rp_kind p; id_owner_pid := rp_owner_pid p;
                 id_nonce := rp_nonce p; id_created := Some (to_second now); id_started := now;
                 id_epoch := epoch; id_caps := rp_caps p |};
     rr_status := "active"; rr_last := now; rr_presence := PRESENCE_ALIVE;
     rr_binding := if String.eqb (rp_backend p) "" then BINDING_PENDING else BINDING_BOUND;
     rr_agent_state := AGENT_IDLE; rr_context := []; rr_task := VStr "" |}.
(** The owner that is on record for this very generation, and is another. *)
Definition other_owner (p : register_params) (e : identity) : bool :=
  (rp_generation p =? id_generation e)
  && (negb (id_owner_pid e =? 0) || negb (String.eqb (id_nonce e) ""))
  && (negb (id_owner_pid e =? rp_owner_pid p) || negb (String.eqb (id_nonce e) (rp_nonce p))).
Definition next_epoch (p : register_params) (existing : option RuntimeRecord) : Z :=
  match existing with
  | Some e =>
    let i := rr_id e in
    if negb (String.eqb (rp_backend p) "") && negb (String.eqb (rp_backend p) (id_backend i))
    then id_epoch i + 1 else id_epoch i
  | None => if String.eqb (rp_backend p) "" then 0 else 1
  end.
(** The oldest TASK of an inbox: body, message and command.  A file that is
    not an object ends the scan. *)
Fixpoint first_task (l : list (string * file)) : pyval * pyval * pyval :=
  match l with
  | [] => (VStr "", VStr "", VStr "")
  | (_, f) :: l' =>
    match content f with
    | None => first_task l'
    | Some (VDict d) =>
      if eq_str (dgetd d "kind" VNone) "TASK"
      then (dgetd d "body" (VStr ""), dgetd d "msg_id" (VStr ""), dgetd d "command_id" (VStr ""))
      else first_task l'
    | Some _ => (VStr "", VStr "", VStr "")
    end
  end.
Definition initial_task (session_id agent_id : string) (g : gateway) : pyval * pyval * pyval :=
  if is_ok (check_names session_id agent_id) then
    match agents (default empty_session (g_mail g !! session_id)) !! agent_id with
    | Some a => first_task (list_messages (inbox a))
    | None => (VStr "", VStr "", VStr "")
    end
  else (VStr "", VStr "", VStr "").

(** The checks of a registration: the record that is replaced. *)
Definition register_checks (p : register_params) : M (option RuntimeRecord) :=
  let rid := rp_runtime p in
  _ ← ensure (negb (String.eqb (rp_session p) "" || String.eqb (rp_agent p) "" || String.eqb rid ""))
        (GatewayError "NOT_AUTHORIZED");
  existing ← look (fun g => dget (g_runtimes g) rid);
  _ ← match existing with
      | Some e =>
        _ ← ensure (id_generation (rr_id e) <=? rp_generation p) (GatewayError "GENERATION_STALE");
        ensure (negb (other_owner p (rr_id e))) (GatewayError "OWNER_MISMATCH")
      | None => mret tt
      end;
  m ← read_meta (rp_session p);
  _ ← ensure (match m with Some mm => bool_decide (rp_agent p ∈ roster mm) | None => false end)
        (GatewayError "NOT_AUTHORIZED");
  mret existing.
(** What a registration does under the lock. *)
Definition register_claim (p : register_params) (now : Z) : M RuntimeRecord :=
  let rid := rp_runtime p in
  existing ← register_checks p;
  let r := registered p (next_epoch p existing) now in
  _ ← save_runtime rid r now;
  _ ← mirror_review (rp_review p) (rp_session p) rid (rp_agent p) now;
  mret r.
(** The backend session goes into the manifest of a hot-parked review: one call
    of the park registry reads it, a later one writes it back. *)
Definition sync_look (p : register_params) : M (option hot_manifest) :=
  if String.eqb (rp_review p) "" || String.eqb (rp_backend p) "" then mret None
  else found ← tried (on_ext (park_hot (rp_review p))); mret (mjoin found).
Definition sync_write (p : register_params) (found : option hot_manifest) : M unit :=
  match found with
  | Some m => quietly (on_ext (park_rebind (rp_review p) (rp_backend p) m))
  | None => mret tt
  end.
Definition register_tell (p : register_params) (held : option RuntimeRecord) (now : Z) : M (pyval * pyval * pyval) :=
  let rid := rp_runtime p in
  task ← look (initial_task (rp_session p) (rp_agent p));
  let '(body, _, _) := task in
  r ← held_record rid held;
  _ ← put_held rid held (set_task body r);
  _ ← emit r "RUNTIME_STATE" [("state", VStr "active"); ("runtime", VStr (rp_kind p));
                              ("backend_session_id", VStr (rp_backend p))] now;
  mret task.
Definition runtime_register (p : register_params) (now : Z) : M (pyval * pyval * pyval) :=
  _ ← register_claim p now;
  found ← sync_look p;
  _ ← sync_write p found;
  register_tell p None now.

(** A placeholder for a session without a plugin; a review of the park
    registry is all it takes. *)
Definition by_backend (backend : string) (l : list (string * RuntimeRecord)) : option RuntimeRecord :=
  snd <$> List.find (fun x => String.eqb (id_backend (rr_id (snd x))) backend) l.
Definition declared (rid session_id agent_id review_key backend : string) (now : Z) : RuntimeRecord :=
  {| rr_id := {| id_runtime := rid; id_session := session_id; id_agent := agent_id; id_generation := 0;
                 id_review := review_key; id_backend := backend; id_host := "__local__";
                 id_kind := "native"; id_owner_pid := 0; id_nonce := "";
                 id_created := Some (to_second now); id_started := 0; id_epoch := 1; id_caps := [] |};
     rr_status := "active"; rr_last := now; rr_presence := PRESENCE_ALIVE; rr_binding := BINDING_BOUND;
     rr_agent_state := AGENT_IDLE; rr_context := []; rr_task := VStr "" |}.
Definition runtime_declare (review_key backend runtime_id agent_id : string) (now : Z) : M string :=
  _ ← ensure (negb (String.eqb review_key "")) (GatewayError "NOT_AUTHORIZED");
  _ ← ensure (negb (String.eqb backend "")) (GatewayError "NOT_AUTHORIZED");
  manifest ← on_ext (park_session review_key);
  match manifest with
  | None => refuse "NOT_FOUND"
  | Some session_id =>
    rs ← look g_runtimes;
    let known := if String.eqb runtime_id "" then None else dget rs runtime_id in
    let existing := match known with Some e => Some e | None => by_backend backend rs end in
    let r := match existing with
             | Some e => placed "active" PRESENCE_ALIVE BINDING_BOUND AGENT_IDLE now e
             | None =>
               let rid := if String.eqb runtime_id ""
                          then "native-" +:+ str_take 16 (sha256 backend) else runtime_id in
               declared rid session_id agent_id review_key backend now
             end in
    let rid := id_runtime (rr_id r) in
    _ ← save_runtime rid r now;
    _ ← mirror_review review_key session_id rid agent_id now;
    mret rid
  end.

(** Starting a runtime with a driver. *)
Definition runtime_spawn (kind session_id agent_id review_key : string) (task : pyval) (now : Z) : M handle :=
  h ← on_ext (driver_spawn kind session_id agent_id);
  let r := {| rr_id := {| id_runtime := hd_runtime h; id_session := session_id; id_agent := agent_id;
                          id_generation := hd_generation h; id_review := review_key;
                          id_backend := hd_backend h; id_host := hd_host h; id_kind := kind;
                          id_owner_pid := 0; id_nonce := ""; id_created := Some (to_second now);
                          id_started := now; id_epoch := 0; id_caps := [] |};
              rr_status := "active"; rr_last := now; rr_presence := PRESENCE_ALIVE;
              rr_binding := BINDING_PENDING; rr_agent_state := AGENT_IDLE; rr_context := [];
              rr_task := task |} in
  _ ← save_runtime (hd_runtime h) r now;
  _ ← mirror_review review_key session_id (hd_runtime h) agent_id now;
  mret h.

(** ** Signs of life and states *)
Definition set_peer_status (status : string) (p : peer) : peer :=
  {| pe_id := pe_id p; pe_session := pe_session p; pe_agent := pe_agent p; pe_host := pe_host p;
     pe_root := pe_root p; pe_status := status; pe_registered := pe_registered p |}.
Definition with_peers (x : list (string * peer)) (h : hub) : hub :=
  {| h_claims := h_claims h; h_merges := h_merges h; h_merges_file := h_merges_file h; h_peers := x;
     h_peers_file := h_peers_file h; h_swept := h_swept h |}.
(** The peers of an agent take its status. *)
Definition follow (status session_id agent_id : string) (x : string * peer) : string * peer :=
  if String.eqb (pe_agent (snd x)) agent_id && String.eqb (pe_session (snd x)) session_id
  then (fst x, set_peer_status status (snd x)) else x.
Definition sync_peers (status session_id agent_id : string) (g : gateway) : gateway :=
  set_hub (with_peers (map (follow status session_id agent_id) (h_peers (g_hub g))) (g_hub g)) g.
Definition _save_peers (g : gateway) : gateway :=
  let h := g_hub g in
  set_hub {| h_claims := h_claims h; h_merges := h_merges h; h_merges_file := h_merges_file h;
             h_peers := h_peers h; h_peers_file := map snd (h_peers h); h_swept := h_swept h |} g.

Definition runtime_heartbeat (rid : string) (now : Z) : M string :=
  r ← _require_runtime rid;
  let was_offline := String.eqb (rr_status r) "offline" in
  let r1 := set_presence PRESENCE_ALIVE (set_last now r) in
  let r2 := if was_offline then set_status "active" r1 else r1 in
  _ ← put_runtime rid r2;
  _ ← (if was_offline then
         _ ← _persist_control_state r2 now;
         _ ← quietly (emit r2 "AGENT_STATUS" [("old_status", VStr "offline");
                       ("new_status", VStr "active"); ("reason", VStr "heartbeat")] now);
         upd (fun g => _save_peers (sync_peers "online" (id_session (rr_id r)) (id_agent (rr_id r)) g))
       else mret tt);
  _ ← (if String.eqb (id_review (rr_id r)) "" then mret tt
       else quietly (on_ext (park_renew (id_review (rr_id r)))));
  mret (rr_status r2).

Definition runtime_status (rid : string) : M RuntimeRecord := _require_runtime rid.
Definition runtimes_list (session_id : string) : M (list (string * RuntimeRecord)) :=
  look (fun g => List.filter (fun x => String.eqb session_id "" ||
                   String.eqb (id_session (rr_id (snd x))) session_id) (g_runtimes g)).

(** The record is changed under the lock, and persisted after it. *)
Definition context_take (rid provider model variant : string) (epoch : Z) (gen : option Z) : M pydict :=
  _ ← ensure (negb (String.eqb rid "")) (GatewayError "PROTOCOL");
  r ← _require_runtime rid;
  _ ← ensure (match gen with Some x => x =? id_generation (rr_id r) | None => true end)
        (GatewayError "GENERATION_STALE");
  let r1 := set_context [("provider", VStr provider); ("model", VStr model);
                         ("variant", VStr variant); ("epoch", VInt epoch)] r in
  _ ← put_runtime rid r1;
  mret (rr_context r1).
Definition context_persist (rid : string) (held : option RuntimeRecord) (now : Z) : M unit :=
  r ← held_record rid held; _persist_control_state r now.
Definition runtime_context_set (rid provider model variant : string) (epoch : Z)
    (gen : option Z) (now : Z) : M pydict :=
  ctx ← context_take rid provider model variant epoch gen;
  _ ← context_persist rid None now;
  mret ctx.

(** The runtime asked for: by identifier, or the live one of a review with the
    latest sign of life (the first of them on a tie). *)
Definition live (r : RuntimeRecord) : bool := negb (String.eqb (rr_status r) "stopped").
Definition latest (l : list RuntimeRecord) : option RuntimeRecord :=
  foldl (fun best r => match best with
                       | Some b => if rr_last b <? rr_last r then Some r else Some b
                       | None => Some r
                       end) None l.
Definition find_runtime (rid review_key : string) (g : gateway) : option RuntimeRecord :=
  if negb (String.eqb rid "") then
    match dget (g_runtimes g) rid with Some r => if live r then Some r else None | None => None end
  else if negb (String.eqb review_key "") then
    latest (List.filter live (List.filter (fun r => String.eqb (id_review (rr_id r)) review_key)
                                (map snd (g_runtimes g))))
  else None.
Definition runtime_context_get (rid review_key : string) : M (string * string * pydict) :=
  r ← look (find_runtime rid review_key);
  match r with
  | Some r => mret (id_runtime (rr_id r), id_review (rr_id r), rr_context r)
  | None => refuse "NOT_FOUND"
  end.

(** [alive] of the fallback when no driver answers. *)
Definition _offline_timeout : Z := 300000.
Definition _dead_timeout : Z := 600000.
Definition recently_alive (r : RuntimeRecord) (now : Z) : bool :=
  String.eqb (rr_status r) "active" && (0 <? rr_last r) && (now - rr_last r <=? _offline_timeout).
Definition health (r : RuntimeRecord) (now : Z) : M bool := fun s =>
  match on_ext (driver_probe (id_runtime (rr_id r))) s with
  | (Ok b, s') => (Ok b, s')
  | (Raise _, s') => (Ok (recently_alive r now), s')
  end.
Definition runtime_probe (rid : string) (now : Z) : M (RuntimeRecord * bool) :=
  r ← _require_runtime rid; b ← health r now; mret (r, b).
Definition runtime_info (rid review_key : string) (now : Z) : M (RuntimeRecord * aggregation * bool) :=
  r ← look (find_runtime rid review_key);
  match r with
  | Some r =>
    agg ← look (fun g => aggregate (id_runtime (rr_id r)) (Some (id_generation (rr_id r))) (g_events g));
    b ← health r now; mret (r, agg, b)
  | None => refuse "NOT_FOUND"
  end.

Definition runtime_lifecycle (rid event : string) (now : Z) : M RuntimeRecord :=
  _ ← ensure (negb (String.eqb rid "") && bool_decide (event ∈ LIFECYCLE_EVENTS)) (GatewayError "PROTOCOL");
  r ← _require_runtime rid;
  let r1 := if String.eqb event "heartbeat" then set_last now r else r in
  let r2 := _reduce_lifecycle r1 event in
  _ ← save_runtime rid r2 now;
  _ ← quietly (emit r2 "AGENT_STATUS" [("lifecycle", VStr event); ("agent_state", VStr (rr_agent_state r2));
                ("presence", VStr (rr_presence r2)); ("binding", VStr (rr_binding r2))] now);
  mret r2.

(** *** Stopping *)
Definition drop_runtimes (l : list string) (g : gateway) : gateway :=
  set_ctl (foldr (fun rid c => (delete_generation rid c).2) (g_ctl g) l)
    (set_runtimes (List.filter (fun x => negb (bool_decide (fst x ∈ l))) (g_runtimes g)) g).
Definition stopped_of (review_key keep : string) (g : gateway) : list string :=
  map fst (List.filter (fun x => String.eqb (id_review (rr_id (snd x))) review_key
    && String.eqb (rr_status (snd x)) "stopped" && negb (String.eqb (fst x) keep)) (g_runtimes g)).
Definition _purge_stopped_for_key (review_key keep : string) : M (list string) :=
  l ← look (stopped_of review_key keep);
  _ ← upd (drop_runtimes l);
  mret l.
(** The record is fetched, the driver stops the process without a lock, and then
    the fetched record is changed and persisted. *)
Definition stop_driver (rid reason : string) : M unit := quietly (on_ext (driver_stop rid reason)).
Definition stop_mark (rid : string) (held : option RuntimeRecord) (now : Z) : M RuntimeRecord :=
  r ← held_record rid held;
  let r1 := placed "stopped" PRESENCE_DEAD (rr_binding r) AGENT_ENDED (rr_last r) r in
  _ ← put_held rid held r1;
  _ ← _persist_control_state r1 now;
  mret r1.
Definition stop_tell (rid reason : string) (r : RuntimeRecord) (now : Z) : M unit :=
  _ ← emit r "RUNTIME_STATE" [("state", VStr "stopped"); ("reason", VStr reason)] now;
  if String.eqb (id_review (rr_id r)) "" then mret tt
  else _ ← _purge_stopped_for_key (id_review (rr_id r)) rid; mret tt.
Definition runtime_stop (rid reason : string) (now : Z) : M unit :=
  _ ← _require_runtime rid;
  _ ← stop_driver rid reason;
  r ← stop_mark rid None now;
  stop_tell rid reason r now.
Definition runtime_purge_stopped (review_key : string) : M (list string) :=
  _ ← ensure (negb (String.eqb review_key "")) (GatewayError "PROTOCOL");
  _purge_stopped_for_key review_key "".

(** ** The sweeps *)
Definition timeout_of (r : RuntimeRecord) (now : Z) : Z :=
  match id_created (rr_id r) with
  | Some t => if now - t <? 180000 then _offline_timeout * 2 else _offline_timeout
  | None => _offline_timeout
  end.
Definition overdue (now : Z) (r : RuntimeRecord) : bool :=
  String.eqb (rr_status r) "active" && (timeout_of r now <? now - rr_last r).
Definition went_offline (r : RuntimeRecord) : RuntimeRecord :=
  set_presence PRESENCE_STALE (set_status "offline" r).
Definition dying (now : Z) (r : RuntimeRecord) : bool :=
  String.eqb (rr_status r) "offline" && String.eqb (rr_presence r) PRESENCE_STALE
  && (0 <? rr_last r) && (_dead_timeout <? now - rr_last r).
Definition sweep_offline (now : Z) (x : string * RuntimeRecord) : M unit :=
  if overdue now (snd x) then
    let r := went_offline (snd x) in
    _ ← put_runtime (fst x) r;
    _ ← quietly (emit r "AGENT_STATUS" [("old_status", VStr "active"); ("new_status", VStr "offline");
          ("reason", VStr "heartbeat_timeout"); ("last_activity", VInt (rr_last r));
          ("presence", VStr (rr_presence r)); ("binding", VStr (rr_binding r));
          ("agent_state", VStr (rr_agent_state r))] now);
    _persist_control_state r now
  else mret tt.
Definition sweep_dead (now : Z) (x : string * RuntimeRecord) : M unit :=
  if dying now (snd x) then
    let r := set_presence PRESENCE_DEAD (snd x) in
    save_runtime (fst x) r now
  else mret tt.
Definition with_claims (x : list (string * role_claim)) (h : hub) : hub :=
  {| h_claims := x; h_merges := h_merges h; h_merges_file := h_merges_file h; h_peers := h_peers h;
     h_peers_file := h_peers_file h; h_swept := h_swept h |}.
Definition peers_offline (offline : list (string * RuntimeRecord)) : M unit :=
  if base.decide (offline = []) then mret tt else
  _ ← st_iter (fun x => upd (sync_peers "offline" (id_session (rr_id (snd x)))
                               (id_agent (rr_id (snd x))))) offline;
  upd _save_peers.
Definition _sweep_once (now : Z) : M (list string) :=
  rs ← look g_runtimes;
  let offline := List.filter (fun x => overdue now (snd x)) rs in
  _ ← st_iter (sweep_offline now) rs;
  rs ← look g_runtimes;
  _ ← st_iter (sweep_dead now) rs;
  rs ← look g_runtimes;
  _ ← upd (drop_runtimes (map fst (List.filter (fun x => negb (live (snd x))) rs)));
  _ ← upd (fun g => set_hub (with_claims
        (List.filter (fun c => now <? rc_expires (snd c)) (h_claims (g_hub g))) (g_hub g)) g);
  _ ← peers_offline offline;
  mret (map fst offline).

Definition with_swept (t : Z) (h : hub) : hub :=
  {| h_claims := h_claims h; h_merges := h_merges h; h_merges_file := h_merges_file h;
     h_peers := h_peers h; h_peers_file := h_peers_file h; h_swept := t |}.
Definition _retention_sweep_interval : Z := 3600000.
Definition _retention_sweep (now : Z) : M unit :=
  last ← look (fun g => h_swept (g_hub g));
  if now - last <? _retention_sweep_interval then mret tt else
  _ ← upd (fun g => set_hub (with_swept now (g_hub g)) g);
  _ ← quietly (on_events (sweep_events now));
  quietly (on_ext engine_sweep).

(** *** After a restart: placeholders for the hot-parked reviews *)
Record park_entry := { pk_review : string; pk_session : string; pk_agent : string; pk_backend : string;
                       pk_round : Z; pk_host : string; pk_type : string; pk_created : Z }.
Fixpoint dashed (s : string) : string :=
  match s with
  | "" => ""
  | String c s' => String (if Ascii.eqb c ":"%char then "-"%char else c) (dashed s')
  end.
(** Review keys are ASCII: a byte is a character. *)
Definition park_runtime_id (review_key token : string) : string :=
  let slug := dashed review_key in
  let n := String.length slug in
  if (24 <=? n)%nat then "park-" +:+ String.substring (n - 24) 24 slug
  else "park-" +:+ slug +:+ "-" +:+ token.
Definition or_else (s dflt : string) : string := if String.eqb s "" then dflt else s.
Definition placeholder (rid : string) (m : park_entry) : RuntimeRecord :=
  {| rr_id := {| id_runtime := rid; id_session := pk_session m; id_agent := or_else (pk_agent m) "oracle";
                 id_generation := pk_round m + 1; id_review := pk_review m; id_backend := pk_backend m;
                 id_host := or_else (pk_host m) "__local__"; id_kind := or_else (pk_type m) "omp";
                 id_owner_pid := 0; id_nonce := "";
                 id_created := if pk_created m =? 0 then None else Some (to_second (pk_created m));
                 id_started := pk_created m; id_epoch := 0; id_caps := [] |};
     rr_status := "unknown"; rr_last := 0; rr_presence := PRESENCE_STALE; rr_binding := BINDING_BOUND;
     rr_agent_state := AGENT_ENDED; rr_context := []; rr_task := VStr "" |}.
(** The context that was persisted for a runtime. *)
Definition stored_context (c : control) (rid : string) : pydict :=
  match generations c !! rid with
  | Some row => match json_loads (gn_context row) with Some (VDict d) => d | _ => [] end
  | None => []
  end.
Definition restore_one (now : Z) (x : park_entry * string) : M unit :=
  let '(m, token) := x in
  if String.eqb (pk_session m) "" || String.eqb (pk_backend m) "" then mret tt else
  let rid := park_runtime_id (pk_review m) token in
  known ← look (fun g => dget (g_runtimes g) rid);
  match known with
  | Some _ => mret tt
  | None =>
    ctx ← look (fun g => stored_context (g_ctl g) rid);
    let r := set_context ctx (placeholder rid m) in
    save_runtime rid r now
  end.
Definition _restore_runtimes_from_park (manifests : list (park_entry * string)) (now : Z) : M unit :=
  st_iter (restore_one now) manifests.

(** ** Events of producers *)
Definition detail_ack (state : string) (now : Z) : pydict :=
  [("ack", VStr state); ("ack_at", VStr (iso_timestamp now))].
Definition state_update (state : string) (turn : option string) (detail : pydict) : command_update :=
  {| up_state := Some state; up_msg := None; up_turn := turn; up_epoch := None; up_backend := None;
     up_detail := Some detail |}.
Definition set_command (rid : string) (u : command_update) (now : Z) : M unit :=
  upd_ctl (fun c => (update_command rid u now c).2).
Definition get_command (rid : string) : M (option command) := look (fun g => commands (g_ctl g) !! rid).
(** A turn identifier that is given replaces the one on record. *)
Definition turn_triggered (key turn : string) (now : Z) : M unit :=
  row ← get_command key;
  match row with
  | None => mret tt
  | Some row =>
    if String.eqb (cm_state row) CMD_TURN_TRIGGERED then mret tt else
    match _advance_ack_chain (cm_state row) CMD_TURN_TRIGGERED with
    | None => mret tt
    | Some (final, through) =>
      set_command key (state_update final (Some (or_else turn (cm_turn row)))
        (detail_ack CMD_TURN_TRIGGERED now ++ [("via", VStr "runtime_event");
          ("advanced_from", VStr (cm_state row)); ("advanced_through", VList (map VStr through))])) now
    end
  end.
Definition reduce_event (d : RuntimeEventDraft) (now : Z) (r : RuntimeRecord) : RuntimeRecord :=
  let r1 := set_last now r in
  let r2 := if String.eqb (ed_kind d) "TURN_STARTED" then set_agent_state AGENT_RUNNING r1 else r1 in
  let r3 := match dget (ed_payload d) "agent_state" with
            | Some (VStr s) => if bool_decide (s ∈ [AGENT_RUNNING; AGENT_IDLE; AGENT_ENDED])
                               then set_agent_state s r2 else r2
            | _ => r2
            end in
  match dget (ed_payload d) "binding" with
  | Some (VStr s) => if bool_decide (s ∈ [BINDING_BOUND; BINDING_PENDING; BINDING_LOST])
                     then set_binding s r3 else r3
  | _ => r3
  end.
Definition dimensions (r : RuntimeRecord) : string * string * string :=
  (rr_presence r, rr_binding r, rr_agent_state r).
Definition runtime_event (d : RuntimeEventDraft) (now : Z) : M (Z * Z) :=
  r ← _require_runtime (ed_runtime d);
  _ ← ensure (ed_generation d =? id_generation (rr_id r)) (GatewayError "GENERATION_STALE");
  ev ← on_events (append_local local_host d);
  let r1 := reduce_event d now r in
  _ ← put_runtime (ed_runtime d) r1;
  _ ← (if bool_decide (dimensions r1 = dimensions r) then mret tt else _persist_control_state r1 now);
  _ ← (if String.eqb (ed_kind d) "TURN_TRIGGERED" then
         let key := or_else (dstr (ed_payload d) "command_id") (ed_request d) in
         if String.eqb key "" then mret tt
         else quietly (turn_triggered key (dstr (ed_payload d) "turn_id") now)
       else mret tt);
  mret (ev_id ev, ev_sequence ev).

(** ** Commands *)
Record command_view := { cv_request : string; cv_command : string; cv_msg : string; cv_turn : string;
  cv_runtime : string; cv_generation : Z; cv_state : string; cv_status : string; cv_detail : pydict }.
Definition _command_result (rid : string) (row : command) : command_view :=
  {| cv_request := rid; cv_command := cm_command row; cv_msg := cm_msg row; cv_turn := cm_turn row;
     cv_runtime := cm_runtime row; cv_generation := cm_generation row; cv_state := cm_state row;
     cv_status := if String.eqb (cm_state row) CMD_QUEUED
                     && eq_str (dgetd (cm_detail row) "gate" VNone) "binding_pending"
                  then "binding_pending" else CMD_STATUS_BY_STATE (cm_state row);
     cv_detail := cm_detail row |}.
(** [self._command_result(self._control.get_command(rid))] *)
Definition command_result (rid : string) : M command_view :=
  row ← get_command rid;
  match row with
  | Some row => mret (_command_result rid row)
  | None => raise (TypeError "'NoneType' object is not subscriptable")
  end.

Record ack_params := { ak_request : string; ak_state : string; ak_runtime : string; ak_turn : string;
                       ak_generation : option Z }.
Definition runtime_command_ack (p : ack_params) (now : Z) : M command_view :=
  let rid := ak_request p in
  _ ← ensure (negb (String.eqb rid "") && bool_decide (ak_state p ∈ CMD_STATES)) (GatewayError "PROTOCOL");
  row ← get_command rid;
  match row with
  | None => refuse "NOT_FOUND"
  | Some row =>
    _ ← ensure (String.eqb (ak_runtime p) "" || String.eqb (ak_runtime p) (cm_runtime row))
          (GatewayError "NOT_AUTHORIZED");
    _ ← ensure (match ak_generation p with Some g => cm_generation row <=? g | None => true end)
          (GatewayError "GENERATION_STALE");
    let turn := Some (or_else (ak_turn p) (cm_turn row)) in
    if bool_decide (ak_state p ∈ CMD_TRANSITIONS (cm_state row)) then
      _ ← set_command rid (state_update (ak_state p) turn (detail_ack (ak_state p) now)) now;
      command_result rid
    else match _advance_ack_chain (cm_state row) (ak_state p) with
         | None => refuse "PROTOCOL_CONFLICT"
         | Some (final, through) =>
           _ ← set_command rid (state_update final turn
                 (detail_ack (ak_state p) now ++ [("advanced_from", VStr (cm_state row));
                                                  ("advanced_through", VList (map VStr through))])) now;
           command_result rid
         end
  end.
Definition runtime_command_status (rid : string) : M command_view :=
  _ ← ensure (negb (String.eqb rid "")) (GatewayError "PROTOCOL");
  row ← get_command rid;
  match row with Some row => mret (_command_result rid row) | None => refuse "NOT_FOUND" end.

(** *** Sending a command to a runtime

    [sp_uuid] and [sp_suffix] are the random parts of the command and of the
    message identifier. *)
Record send_params := {
  sp_runtime : string; sp_request : string; sp_body : string; sp_hash : string; sp_from : string;
  sp_subject : string; sp_kind : string; sp_reply_to : string; sp_run_id : string;
  sp_require_ack : bool; sp_wait : bool; sp_wait_ms : Z; sp_uuid : string; sp_suffix : string }.
Definition payload_hash (p : send_params) : string := or_else (sp_hash p) (sha256 (sp_body p)).
Definition send_draft (p : send_params) (agent_id : string) : draft :=
  {| d_from := sp_from p; d_to := agent_id; d_subject := sp_subject p; d_body := sp_body p;
     d_kind := sp_kind p; d_reply_to := sp_reply_to p; d_run_id := sp_run_id p;
     d_request_id := sp_request p; d_command_id := sp_request p; d_trace_id := "";
     d_causation_id := ""; d_attachments := None; d_require_ack := sp_require_ack p;
     d_receipt_type := "" |}.
Definition gate_detail (r : RuntimeRecord) : pydict :=
  [("presence", VStr (rr_presence r)); ("binding", VStr (rr_binding r));
   ("agent_state", VStr (rr_agent_state r))].

(** Where a call of [runtime_send] stands: what it has done, with the record it
    holds, or the answer. *)
Inductive send_phase :=
| Starting
| Checked (r : RuntimeRecord)
| Enqueued (r : RuntimeRecord)
| Persisted (r : RuntimeRecord) (msg_id : string)
| Marked (r : RuntimeRecord)
| Waiting (r : RuntimeRecord) (deadline : Z)
| Gating (r : RuntimeRecord)
| Reviving (r : RuntimeRecord)
| Answered (v : res command_view).

(** The checks, and a request that was seen before. *)
Definition send_start (p : send_params) : M send_phase :=
  let rid := sp_request p in
  _ ← ensure (negb (String.eqb (sp_runtime p) "" || String.eqb rid "")) (GatewayError "PROTOCOL");
  r ← _require_runtime (sp_runtime p);
  _ ← ensure (negb (String.eqb (payload_hash p) "")) (GatewayError "PROTOCOL");
  existing ← get_command rid;
  match existing with
  | Some row =>
    _ ← ensure (String.eqb (cm_hash row) (payload_hash p)) (GatewayError "IDEMPOTENCY_CONFLICT");
    mret (Answered (Ok (_command_result rid row)))
  | None => mret (Checked r)
  end.
Definition send_enqueue (p : send_params) (r : RuntimeRecord) (now : Z) : M send_phase :=
  let rid := sp_request p in let i := rr_id r in
  created ← on_gw (fun g =>
    let x := enqueue_command rid ("cmd-" +:+ sp_uuid p) (sp_runtime p) (id_generation i)
               (payload_hash p) CMD_QUEUED (id_epoch i) (id_backend i) "" "" [] now (g_ctl g) in
    (Ok x.1, set_ctl x.2 g));
  if created : bool then mret (Enqueued r)
  else v ← command_result rid; mret (Answered (Ok v)).
(** The back end that has no consumer, and the write to the mailbox. *)
Definition send_persist (p : send_params) (r : RuntimeRecord) (now : Z) : M send_phase :=
  let rid := sp_request p in
  if bool_decide (id_kind (rr_id r) ∉ [""; "omp"]) then
    _ ← set_command rid (state_update CMD_FAILED_SAFE None
          ([("gate", VStr "no_plugin_consumer"); ("backend", VStr (id_kind (rr_id r)))] ++ gate_detail r)) now;
    refuse "UNSUPPORTED_RUNTIME"
  else fun s =>
    let fail reason s' := (v ← (_ ← set_command rid (state_update CMD_FAILED_SAFE None
                                        [("reason", VStr reason)]) now; command_result rid);
                           mret (Answered (Ok v)) : M send_phase) s' in
    match on_session (id_session (rr_id r)) (svc_send py_repr (id_session (rr_id r))
            (send_draft p (id_agent (rr_id r))) None (sp_suffix p) now) s with
    | (Ok rc, s') =>
      if String.eqb (v_status rc) "failed" then fail (or_else (v_error rc) "runtime_send mailbox failed") s'
      else (Ok (Persisted r (v_msg_id rc)), s')
    | (Raise e, s') => fail (exn_text e) s'
    end.
(** The record as it is now, or the one in hand. *)
Definition refresh (p : send_params) (r : RuntimeRecord) : M RuntimeRecord :=
  look (fun g => default r (dget (g_runtimes g) (sp_runtime p))).
Definition send_gate (p : send_params) (r : RuntimeRecord) (now : Z) : M send_phase :=
  let rid := sp_request p in
  if negb (_is_hot r) then
    let why := if String.eqb (rr_binding r) BINDING_BOUND then "not_hot" else "binding_pending" in
    _ ← set_command rid (state_update CMD_QUEUED None (("gate", VStr why) :: gate_detail r)) now;
    v ← command_result rid; mret (Answered (Ok v))
  else if String.eqb (rr_agent_state r) AGENT_ENDED then
    _ ← set_command rid {| up_state := Some CMD_REVIVING; up_msg := None; up_turn := None;
          up_epoch := Some (id_epoch (rr_id r)); up_backend := Some (id_backend (rr_id r));
          up_detail := Some [("revive", VStr "starting"); ("agent_state", VStr (rr_agent_state r))] |} now;
    mret (Reviving r)
  else v ← command_result rid; mret (Answered (Ok v)).
Definition send_revive (p : send_params) (r : RuntimeRecord) (now : Z) : M send_phase := fun s =>
  let rid := sp_request p in
  let answer state detail s' := (_ ← set_command rid (state_update state None detail) now;
                                 v ← command_result rid; mret (Answered (Ok v)) : M send_phase) s' in
  match on_ext (park_revive (id_review (rr_id r)) (sp_body p)) s with
  | (Ok (success, method), s') =>
    if success && bool_decide (method ∈ ["hot"; "warm"])
    then answer CMD_REVIVING [("revive", VStr method)] s'
    else if success && String.eqb method "cold"
    then answer CMD_QUEUED [("gate", VStr "binding_pending"); ("revive", VStr "cold")] s'
    else answer CMD_FAILED_SAFE [("revive_failed", VStr method)] s'
  | (Raise e, s') => answer CMD_FAILED_SAFE [("revive_error", VStr (exn_text e))] s'
  end.
(** What happens without interruption at [now]. *)
Definition send_next (p : send_params) (ph : send_phase) (now : Z) : M send_phase :=
  match ph with
  | Starting => send_start p
  | Checked r => send_enqueue p r now
  | Enqueued r => send_persist p r now
  | Persisted r msg_id =>
    _ ← set_command (sp_request p) {| up_state := Some CMD_QUEUED; up_msg := Some msg_id; up_turn := None;
          up_epoch := None; up_backend := None;
          up_detail := Some [("mailbox", VStr "persisted"); ("msg_id", VStr msg_id)] |} now;
    mret (Marked r)
  | Marked r =>
    r1 ← refresh p r;
    if sp_wait p && String.eqb (rr_binding r1) BINDING_PENDING && String.eqb (rr_presence r1) PRESENCE_ALIVE
    then mret (Waiting r1 (now + sp_wait_ms p)) else mret (Gating r1)
  | Waiting r deadline =>
    if (now <? deadline) && negb (String.eqb (rr_binding r) BINDING_BOUND)
    then r1 ← refresh p r; mret (Waiting r1 deadline) else mret (Gating r)
  | Gating r => send_gate p r now
  | Reviving r => send_revive p r now
  | Answered v => mret (Answered v)
  end.
(** A step of the call; an exception is its answer. *)
Definition send_step (p : send_params) (ph : send_phase) (now : Z) (s : gateway * W) :
    send_phase * (gateway * W) :=
  match send_next p ph now s with
  | (Ok ph', s') => (ph', s')
  | (Raise e, s') => (Answered (Raise e), s')
  end.
(** A whole call among others: at each of its steps it finds the clock and
    what the others have made of the state. *)
Fixpoint send_among (p : send_params) (ph : send_phase) (l : list (Z * (gateway * W -> gateway * W)))
    (s : gateway * W) : send_phase * (gateway * W) :=
  match l with
  | [] => (ph, s)
  | (now, others) :: l' => let x := send_step p ph now (others s) in send_among p x.1 l' x.2
  end.

(** ** Exclusive roles *)
Definition claim_key (session_id agent_id : string) : string := session_id +:+ ":" +:+ agent_id.
Definition _CLAIM_TTL_MAX : Z := 86400000.
Definition upd_claims (f : list (string * role_claim) -> list (string * role_claim)) : M unit :=
  upd (fun g => set_hub (with_claims (f (h_claims (g_hub g))) (g_hub g)) g).
Definition get_claim (key : string) : M (option role_claim) := look (fun g => dget (h_claims (g_hub g)) key).
Definition session_claim (session_id agent_id owner : string) (ttl now : Z) : M Z :=
  _ ← ensure (negb (String.eqb session_id "" || String.eqb agent_id "" || String.eqb owner ""))
        (GatewayError "PROTOCOL");
  _ ← ensure ((0 <? ttl) && (ttl <=? _CLAIM_TTL_MAX)) (GatewayError "PROTOCOL");
  let key := claim_key session_id agent_id in
  existing ← get_claim key;
  _ ← ensure (match existing with
              | Some c => String.eqb (rc_owner c) owner || (rc_expires c <=? now)
              | None => true
              end) (GatewayError "PROTOCOL_CONFLICT");
  _ ← upd_claims (fun l => dset l key {| rc_owner := owner; rc_claimed := now; rc_expires := now + ttl |});
  mret (now + ttl).
Definition session_release (session_id agent_id owner : string) : M bool :=
  let key := claim_key session_id agent_id in
  existing ← get_claim key;
  match existing with
  | None => mret false
  | Some c =>
    _ ← ensure (String.eqb owner "" || String.eqb (rc_owner c) owner) (GatewayError "NOT_AUTHORIZED");
    _ ← upd_claims (fun l => ddel l key); mret true
  end.

(** ** Merged writes *)
Definition with_merges (m : gmap (string * string) string) (h : hub) : hub :=
  {| h_claims := h_claims h; h_merges := m; h_merges_file := h_merges_file h; h_peers := h_peers h;
     h_peers_file := h_peers_file h; h_swept := h_swept h |}.
Definition _save_merges (g : gateway) : gateway :=
  let h := g_hub g in
  set_hub {| h_claims := h_claims h; h_merges := h_merges h;
             h_merges_file := map_to_list (h_merges h);
             h_peers := h_peers h; h_peers_file := h_peers_file h; h_swept := h_swept h |} g.
Definition _restore_merges (g : gateway) : gateway :=
  let h := g_hub g in
  set_hub (with_merges (foldl (fun m (x : string * string * string) =>
    let '(s, t, sha) := x in
    if String.eqb s "" || String.eqb t "" || String.eqb sha "" then m else <[(s, t) := sha]> m)
    (h_merges h) (h_merges_file h)) h) g.
Definition write_merge (session_id target_path artifact_sha256 : string) : M unit :=
  _ ← ensure (negb (String.eqb session_id "" || String.eqb target_path "" || String.eqb artifact_sha256 ""))
        (GatewayError "NOT_FOUND");
  existing ← look (fun g => h_merges (g_hub g) !! (session_id, target_path));
  _ ← ensure (match existing with Some h => String.eqb h artifact_sha256 | None => true end)
        (GatewayError "PROTOCOL_CONFLICT");
  upd (fun g => _save_merges (set_hub (with_merges
    (<[(session_id, target_path) := artifact_sha256]> (h_merges (g_hub g))) (g_hub g)) g)).
Definition merge_reset (session_id target_path : string) : M nat :=
  _ ← ensure (negb (String.eqb session_id "")) (GatewayError "NOT_FOUND");
  ms ← look (fun g => h_merges (g_hub g));
  let gone (k : string * string) :=
    String.eqb k.1 session_id && (String.eqb target_path "" || String.eqb k.2 target_path) in
  let kept := filter (fun x : string * string * string => gone x.1 = false) ms in
  let removed := (base.size ms - base.size kept)%nat in
  _ ← (if base.decide (removed = 0%nat) then mret tt
       else upd (fun g => _save_merges (set_hub (with_merges kept (g_hub g)) g)));
  mret removed.
(** The fields of a body that concern a merge. *)
Definition write_parse_body (body : string) : list (string * string) :=
  match json_loads body with
  | Some (VDict d) =>
    omap (fun k => match dget d k with
                   | Some (VStr v) => if String.eqb v "" then None else Some (k, v)
                   | _ => None
                   end) ["base_revision"; "target_path"; "artifact_id"]
  | _ => []
  end.

(** ** Peers on other machines *)
Definition upd_peers (f : list (string * peer) -> list (string * peer)) : M unit :=
  upd (fun g => set_hub (with_peers (f (h_peers (g_hub g))) (g_hub g)) g).
Definition hub_acl (authority agent_id : string) : pyval :=
  VDict [("authority", VStr authority);
         ("allowed_senders", VList [VStr "hub"; VStr "manager"; VStr agent_id]);
         ("room_members", VList [VStr "hub"; VStr "manager"; VStr agent_id]); ("policy", VStr "open")].
Definition hub_register (peer_id session_id agent_id host_alias root : string) (now : Z) : M unit :=
  _ ← ensure (negb (String.eqb peer_id "" || String.eqb session_id "" || String.eqb agent_id ""
                    || String.eqb host_alias "")) (GatewayError "PROTOCOL");
  _ ← upd_peers (fun l => dset l peer_id
        {| pe_id := peer_id; pe_session := session_id; pe_agent := agent_id; pe_host := host_alias;
           pe_root := root; pe_status := "online"; pe_registered := now |});
  _ ← quietly (persisted ← read_meta session_id;
        let authority := match persisted with Some m => m_manager m | None => "hub" end in
        _ ← on_ext (kernel_open session_id authority [agent_id; "manager"]);
        _ ← (if persisted then quietly (on_session session_id (session_init session_id authority
                     [agent_id; "manager"] (Some (hub_acl authority agent_id)) None None now))
             else mret tt);
        on_ext (kernel_join session_id agent_id host_alias));
  upd _save_peers.
Definition find_peer (peer_id : string) : M peer :=
  p ← look (fun g => dget (h_peers (g_hub g)) peer_id);
  match p with Some p => mret p | None => refuse "NOT_FOUND" end.
Definition refused {A} (m : M A) : M A := fun s =>
  match m s with
  | (Raise (ValueError _), s') | (Raise (PermissionError _), s') => (Raise (GatewayError "NOT_FOUND"), s')
  | r => r
  end.
Definition hub_send (peer_id from : string) (envelope : pydict) : M (string * string) :=
  p ← find_peer peer_id;
  _ ← ensure (negb (String.eqb (pe_status p) "offline")) (GatewayError "NOT_FOUND");
  refused (on_ext (kernel_direct (pe_session p) from (pe_agent p) envelope)).
Definition hub_status (peer_id : string) : M (list peer) :=
  if String.eqb peer_id "" then look (fun g => map snd (h_peers (g_hub g)))
  else p ← find_peer peer_id; mret [p].
Definition hub_unregister (peer_id : string) : M unit :=
  p ← find_peer peer_id;
  _ ← upd_peers (fun l => ddel l peer_id);
  _ ← upd _save_peers;
  quietly (on_ext (kernel_leave (pe_session p) (pe_agent p))).
Definition _restore_peers (g : gateway) : gateway :=
  let h := g_hub g in
  set_hub (with_peers (foldl (fun l p => if String.eqb (pe_id p) "" then l else dset l (pe_id p) p)
                         (h_peers h) (h_peers_file h)) h) g.

(** ** Sessions, messages and artifacts *)
Definition session_ensure (session_id manager_id : string) (members : list string) (acl : option pyval)
    (now : Z) : M (string * list string * Z) :=
  _ ← ensure (negb (String.eqb session_id "" || String.eqb manager_id "")) (GatewayError "PROTOCOL");
  existing ← read_meta session_id;
  _ ← ensure (match existing with
              | Some m => String.eqb (m_manager m) "" || String.eqb (m_manager m) manager_id
              | None => true
              end) (GatewayError "MANIFEST_CONFLICT");
  _ ← on_session session_id (session_init session_id manager_id
        (List.filter (fun a => negb (String.eqb a manager_id)) members) acl None None now);
  m ← read_meta session_id;
  mret match m with
       | Some m => (m_manager m, sorted_set (manager_id :: m_agents m), m_revision m)
       | None => (manager_id, [manager_id], 1)
       end.
Definition message_send (session_id : string) (d : draft) (suffix : string) (now : Z) : M (string * string) :=
  r ← on_session session_id (svc_send py_repr session_id d None suffix now);
  _ ← ensure (negb (String.eqb (v_status r) "failed")) (GatewayError "NOT_FOUND");
  mret (v_msg_id r, v_status r).
Definition on_agent {A} (session_id agent_id : string) (m : st agent A) : M A :=
  on_session session_id (fun s =>
    let r := m (default empty_agent (agents s !! agent_id)) in
    (r.1, match agents s !! agent_id with
          | Some _ => set_agents (<[agent_id := r.2]> (agents s)) s
          | None => s
          end)).
Definition message_finalize (session_id agent_id msg_id owner : string) : M string :=
  on_agent session_id agent_id (finalize session_id agent_id msg_id owner).
Definition message_release (session_id agent_id msg_id owner : string) : M string :=
  on_agent session_id agent_id (release session_id agent_id msg_id owner).

(** (artifact.py) *)
Definition base_name (path : string) : string :=
  match rsplit1 "/"%char path with Some (_, name) => name | None => path end.
Definition verify_artifact (path expected_sha256 : string) (expected_size : Z) : res bool :=
  match file_facts path with
  | None => Raise (ValueError ("not a file: " +:+ path))
  | Some (size, sha) =>
    guard size =? expected_size orelse ValueError ("size mismatch for " +:+ base_name path);
    guard String.eqb sha expected_sha256 orelse ValueError ("sha256 mismatch for " +:+ base_name path);
    Ok true
  end.
(** The first agent, by name, that has events of the request. *)
Definition ledger_owner (session_id request_id : string) (g : gateway) : option string :=
  head (sort_strs (map (fun x => snd (fst x)) (List.filter (fun x =>
    String.eqb (fst (fst x)) session_id && bool_decide (is_Some (snd x !! request_id)))
    (map_to_list (g_ledgers g))))).
Definition artifact_verify (session_id request_id run_id path sha : string) (size : Z) (agent_id : string)
    (now : Z) : M (bool * string * bool) :=
  _ ← ensure (negb (existsb (fun x => String.eqb x "") [session_id; request_id; run_id; path; sha]))
        (GatewayError "PROTOCOL");
  _ ← on_gw (lift (validate_agent_id session_id));
  owner ← (if String.eqb agent_id "" then look (ledger_owner session_id request_id) else mret (Some agent_id));
  match owner with
  | None => refuse "NOT_FOUND"
  | Some aid =>
    verified ← match verify_artifact path sha size with
               | Ok b => mret b
               | Raise (ValueError w) =>
                 if contains "not a file" w then raise (ValueError w) else mret false
               | Raise e => raise e
               end;
    l ← look (fun g => default ∅ (g_ledgers g !! (session_id, aid)));
    r ← on_gw (lift (RequestLedger.record_artifact_verdict l request_id run_id verified now));
    let '((terminal, cas), l') := r in
    _ ← upd (fun g => set_ledgers (<[(session_id, aid) := l']> (g_ledgers g)) g);
    mret (verified, terminal, cas)
  end.

(** ** The handlers that let go of the lock, step by step *)
Inductive call_phase :=
| StopFetch (rid reason : string) | StopDriver (rid reason : string) | StopMark (rid reason : string)
| StopTell (rid reason : string) (r : RuntimeRecord)
| ContextTake (rid provider model variant : string) (epoch : Z) (gen : option Z) | ContextPersist (rid : string)
| RegisterClaim (p : register_params) | SyncLook (p : register_params)
| SyncWrite (p : register_params) (found : option hot_manifest) | RegisterTell (p : register_params)
| Finished.
Definition call_next (c : call_phase) (held : option RuntimeRecord) (now : Z) : M call_phase :=
  match c with
  | StopFetch rid why => _ ← _require_runtime rid; mret (StopDriver rid why)
  | StopDriver rid why => _ ← stop_driver rid why; mret (StopMark rid why)
  | StopMark rid why => r ← stop_mark rid held now; mret (StopTell rid why r)
  | StopTell rid why r => _ ← stop_tell rid why r now; mret Finished
  | ContextTake rid p m v e g => _ ← context_take rid p m v e g; mret (ContextPersist rid)
  | ContextPersist rid => _ ← context_persist rid held now; mret Finished
  | RegisterClaim p => _ ← register_claim p now; mret (SyncLook p)
  | SyncLook p => found ← sync_look p; mret (SyncWrite p found)
  | SyncWrite p found => _ ← sync_write p found; mret (RegisterTell p)
  | RegisterTell p => _ ← register_tell p held now; mret Finished
  | Finished => mret Finished
  end.
Definition call_step (c : call_phase) (held : option RuntimeRecord) (now : Z) (s : gateway * W) :
    call_phase * (gateway * W) :=
  match call_next c held now s with (Ok c', s') => (c', s') | (Raise _, s') => (Finished, s') end.
(** The runtime whose record a call holds between its steps. *)
Definition call_rid (c : call_phase) : option string :=
  match c with
  | StopDriver rid _ | StopMark rid _ | ContextPersist rid => Some rid
  | SyncLook p | SyncWrite p _ | RegisterTell p => Some (rp_runtime p)
  | _ => None
  end.

(** ** Dispatch

    The requests of [dispatch] and the two sweeps of the background thread;
    the answers are dropped.  [runtime_send] runs by [send_step].  Here the other
    handlers run from their first step to their last. *)
Inductive request :=
| SessionEnsure (session_id manager_id : string) (members : list string) (acl : option pyval)
| Register (p : register_params)
| DeclareRuntime (review_key backend runtime_id agent_id : string)
| Spawn (kind session_id agent_id review_key : string) (task : pyval)
| Heartbeat (rid : string)
| Event (d : RuntimeEventDraft)
| ContextSet (rid provider model variant : string) (epoch : Z) (gen : option Z)
| ContextGet (rid review_key : string)
| Lifecycle (rid event : string)
| CommandAck (p : ack_params)
| CommandStatus (rid : string)
| Probe (rid : string)
| Stop (rid reason : string)
| PurgeStopped (review_key : string)
| Info (rid review_key : string)
| MessageSend (session_id : string) (d : draft) (suffix : string)
| MessageFinalize (session_id agent_id msg_id owner : string)
| MessageRelease (session_id agent_id msg_id owner : string)
| Revive (review_key prompt : string)
| ReleaseReview (review_key : string)
| HubRegister (peer_id session_id agent_id host_alias root : string)
| HubSend (peer_id from : string) (envelope : pydict)
| HubUnregister (peer_id : string)
| Claim (session_id agent_id owner : string) (ttl : Z)
| Release (session_id agent_id owner : string)
| Merge (session_id target_path sha : string)
| MergeReset (session_id target_path : string)
| Verify (session_id request_id run_id path sha : string) (size : Z) (agent_id : string)
| SweepOnce
| RetentionSweep.
Definition drop_answer {A} (m : M A) : M unit := _ ← m; mret tt.
Definition dispatch (r : request) (now : Z) : M unit :=
  match r with
  | SessionEnsure sid m l acl => drop_answer (session_ensure sid m l acl now)
  | Register p => drop_answer (runtime_register p now)
  | DeclareRuntime k b r a => drop_answer (runtime_declare k b r a now)
  | Spawn k s a v t => drop_answer (runtime_spawn k s a v t now)
  | Heartbeat r => drop_answer (runtime_heartbeat r now)
  | Event d => drop_answer (runtime_event d now)
  | ContextSet r p m v e g => drop_answer (runtime_context_set r p m v e g now)
  | ContextGet r k => drop_answer (runtime_context_get r k)
  | Lifecycle r e => drop_answer (runtime_lifecycle r e now)
  | CommandAck p => drop_answer (runtime_command_ack p now)
  | CommandStatus r => drop_answer (runtime_command_status r)
  | Probe r => drop_answer (runtime_probe r now)
  | Stop r why => runtime_stop r why now
  | PurgeStopped k => drop_answer (runtime_purge_stopped k)
  | Info r k => drop_answer (runtime_info r k now)
  | MessageSend s d x => drop_answer (message_send s d x now)
  | MessageFinalize s a m o => drop_answer (message_finalize s a m o)
  | MessageRelease s a m o => drop_answer (message_release s a m o)
  | Revive k p => drop_answer (on_ext (park_revive k p))
  | ReleaseReview k => on_ext (park_release k)
  | HubRegister p s a h r => hub_register p s a h r now
  | HubSend p f e => drop_answer (hub_send p f e)
  | HubUnregister p => hub_unregister p
  | Claim s a o t => drop_answer (session_claim s a o t now)
  | Release s a o => drop_answer (session_release s a o)
  | Merge s t h => write_merge s t h
  | MergeReset s t => drop_answer (merge_reset s t)
  | Verify s q r p h z a => drop_answer (artifact_verify s q r p h z a now)
  | SweepOnce => drop_answer (_sweep_once now)
  | RetentionSweep => _retention_sweep now
  end.
End gateway.
