(* ===== verification/GatewayLaws.v ===== *)
(** * What the gateway promises

    Commands and their acknowledgements, one message per request whatever runs
    in between, owners and generations of runtimes, the mirror of their states
    in the control store, presence, exclusive roles, merged writes. *)
From S2P Require Import Prelude MailboxProtocol RequestLedger MailboxStore MailboxClaims.
From S2P Require Import MailboxService GatewayStores GatewayService.

Section laws.
Context {W : Type} `{Backends W}.
Implicit Types s : gateway * W.

(** ** How the primitives run *)
Lemma look_run {A} (f : gateway -> A) s : look f s = (Ok (f s.1), s).
Proof. by destruct s. Qed.
Lemma get_command_run rid s : get_command rid s = (Ok (commands (g_ctl s.1) !! rid), s).
Proof. apply look_run. Qed.
Lemma set_command_run rid u now s :
  set_command rid u now s = (Ok tt, (set_ctl (update_command rid u now (g_ctl s.1)).2 s.1, s.2)).
Proof. done. Qed.
Lemma upd_run f s : upd (W := W) f s = (Ok tt, (f s.1, s.2)).
Proof. done. Qed.
Lemma ensure_run {T} (b : bool) e (x : T) : ensure b e x = if b then (Ok tt, x) else (Raise e, x).
Proof. done. Qed.
Lemma require_run rid s : _require_runtime rid s =
  match dget (g_runtimes s.1) rid with Some r => (Ok r, s) | None => (Raise (GatewayError "NOT_FOUND"), s) end.
Proof. unfold _require_runtime. rewrite st_bind_unfold, look_run. by destruct (dget _ _). Qed.
Lemma commands_update rid u now c : no_update u = false ->
  commands (update_command rid u now c).2 = alter (updated u now) rid (commands c).
Proof. intros Hu. unfold update_command. by rewrite Hu. Qed.
Lemma commands_update_eq rid u now c row : no_update u = false -> commands c !! rid = Some row ->
  commands (update_command rid u now c).2 !! rid = Some (updated u now row).
Proof. intros Hu Hr. rewrite (commands_update _ _ _ _ Hu), lookup_alter_eq, Hr. done. Qed.

(** ** Acknowledgements *)

(** One transition of the table, and a later place on the chain. *)
Definition can_follow (a b : string) : Prop := b ∈ CMD_TRANSITIONS a.
Definition later_on_chain (a b : string) : Prop :=
  exists i j, CMD_ACK_CHAIN !! i = Some a /\ CMD_ACK_CHAIN !! j = Some b /\ (i < j)%nat.
Definition acceptable (a b : string) : Prop := can_follow a b \/ later_on_chain a b.

Lemma index_of_None x l : x ∉ l -> index_of x l = None.
Proof.
  induction l as [|y l IH]; simpl; [done|]. intros Hx.
  destruct (String.eqb_spec y x) as [->|Hne]; [exfalso; apply Hx; by left|].
  rewrite IH; [done|]. intros H'. apply Hx. by right.
Qed.
Lemma chain_step i a b : CMD_ACK_CHAIN !! i = Some a -> CMD_ACK_CHAIN !! S i = Some b -> can_follow a b.
Proof.
  intros Ha Hb. do 5 (destruct i as [|i]; [simpl in *; try done; simplify_eq; unfold can_follow; in_list|]). done.
Qed.
Lemma chain_path i n a b : CMD_ACK_CHAIN !! i = Some a -> CMD_ACK_CHAIN !! (i + S n)%nat = Some b ->
  tc can_follow a b.
Proof.
  revert i a. induction n as [|n IH]; intros i a Ha Hb.
  - apply tc_once. eapply chain_step; [done|]. by replace (S i) with (i + 1)%nat by lia.
  - destruct (CMD_ACK_CHAIN !! S i) as [c|] eqn:Hc.
    + eapply tc_l; [by eapply chain_step|]. apply (IH (S i)); [done|].
      by replace (S i + S n)%nat with (i + S (S n))%nat by lia.
    + apply lookup_ge_None in Hc. apply lookup_lt_Some in Hb. lia.
Qed.
Lemma acceptable_path a b : acceptable a b -> tc can_follow a b.
Proof.
  intros [Hf|(i & j & Ha & Hb & Hij)]; [by apply tc_once|].
  apply (chain_path i (j - S i)); [done|]. by replace (i + S (j - S i))%nat with j by lia.
Qed.
Lemma acceptable_not_final a b : acceptable a b -> CMD_TRANSITIONS a <> [].
Proof.
  intros Ha%acceptable_path Hn.
  destruct Ha as [? ? Hc|? ? ? Hc _]; unfold can_follow in Hc; rewrite Hn in Hc; by apply elem_of_nil in Hc.
Qed.
Lemma later_on_chain_elem a b : later_on_chain a b -> a ∈ CMD_ACK_CHAIN /\ b ∈ CMD_ACK_CHAIN.
Proof. intros (i & j & Ha & Hb & _). split; by eapply list_elem_of_lookup_2. Qed.
Lemma advance_later a b : later_on_chain a b <-> exists l, _advance_ack_chain a b = Some (b, l).
Proof.
  destruct (decide (a ∈ CMD_ACK_CHAIN /\ b ∈ CMD_ACK_CHAIN)) as [[Ha Hb]|Hn].
  - apply list_elem_of_lookup in Ha as [i Ha], Hb as [j Hb].
    assert (Hi : (i < 5)%nat) by (by apply lookup_lt_Some in Ha).
    assert (Hj : (j < 5)%nat) by (by apply lookup_lt_Some in Hb).
    assert (Hinj : forall k x, CMD_ACK_CHAIN !! k = Some x -> forall k', CMD_ACK_CHAIN !! k' = Some x -> k = k').
    { intros k x Hk k' Hk'. eapply NoDup_lookup; [|done..]. refine (bool_decide_unpack _ _). by vm_compute. }
    transitivity (i < j)%nat.
    { split; [|by intros; exists i, j]. intros (i' & j' & Ha' & Hb' & ?).
      rewrite (Hinj _ _ Ha _ Ha'), (Hinj _ _ Hb _ Hb'). done. }
    destruct i as [|[|[|[|[|i]]]]]; try lia; destruct j as [|[|[|[|[|j]]]]]; try lia;
      simpl in Ha, Hb; simplify_eq; split; intros Hx; try lia; try (eexists; by vm_compute);
      destruct Hx as [l Hx]; vm_compute in Hx; simplify_eq; lia.
  - split; [by intros ?%later_on_chain_elem|]. intros [l Hl]. exfalso. unfold _advance_ack_chain in Hl.
    destruct (decide (a ∈ CMD_ACK_CHAIN)) as [Ha|Ha]; [|by rewrite (index_of_None a _ Ha) in Hl].
    rewrite (index_of_None b) in Hl by naive_solver. by case_match.
Qed.
Lemma advance_target a b t l : _advance_ack_chain a b = Some (t, l) -> t = b.
Proof.
  unfold _advance_ack_chain. repeat (case_match; try done). intros Hx.
  apply fmap_Some in Hx as (? & _ & ?). by simplify_eq.
Qed.

(** What an accepted acknowledgement leaves. *)
Definition acked (p : ack_params) (row row' : command) (s s' : gateway * W) : Prop :=
  cm_state row' = ak_state p /\ cm_turn row' = or_else (ak_turn p) (cm_turn row) /\
  cm_msg row' = cm_msg row /\ same_identity row row' /\
  s' = (set_ctl {| reviews := reviews (g_ctl s.1); generations := generations (g_ctl s.1);
                   commands := <[ak_request p := row']> (commands (g_ctl s.1)) |} s.1, s.2).
Lemma alter_lookup_insert {A} (f : A -> A) (m : gmap string A) k x :
  m !! k = Some x -> alter f k m = <[k := f x]> m.
Proof.
  intros Hk. apply map_eq. intros j. destruct (decide (k = j)) as [<-|Hne].
  - by rewrite lookup_alter_eq, lookup_insert_eq, Hk.
  - by rewrite lookup_alter_ne, lookup_insert_ne.
Qed.
Lemma write_state_acked p detail now row s :
  commands (g_ctl s.1) !! ak_request p = Some row ->
  let u := state_update (ak_state p) (Some (or_else (ak_turn p) (cm_turn row))) detail in
  let s' := (set_ctl (update_command (ak_request p) u now (g_ctl s.1)).2 s.1, s.2) in
  acked p row (updated u now row) s s' /\
  command_result (ak_request p) s' = (Ok (_command_result (ak_request p) (updated u now row)), s').
Proof.
  intros Hrow u s'. split.
  - unfold acked, s', u, update_command. simpl. split_and!; try done.
    by rewrite (alter_lookup_insert _ _ _ _ Hrow).
  - unfold command_result. rewrite st_bind_unfold, get_command_run. 
    pose proof (commands_update_eq (ak_request p) u now (g_ctl s.1) row eq_refl Hrow) as Hu.
    change (g_ctl s'.1) with (update_command (ak_request p) u now (g_ctl s.1)).2. by rewrite Hu.
Qed.

Definition addressed (p : ack_params) (row : command) : Prop :=
  ak_state p ∈ CMD_STATES /\ ak_request p <> "" /\
  (ak_runtime p = "" \/ ak_runtime p = cm_runtime row) /\
  (forall g, ak_generation p = Some g -> cm_generation row <= g).
Lemma ack_run p now s row : commands (g_ctl s.1) !! ak_request p = Some row -> addressed p row ->
  let out := runtime_command_ack p now s in
  (acceptable (cm_state row) (ak_state p) ->
     exists row', acked p row row' s out.2 /\ out.1 = Ok (_command_result (ak_request p) row')) /\
  (~ acceptable (cm_state row) (ak_state p) -> out = (Raise (GatewayError "PROTOCOL_CONFLICT"), s)).
Proof.
  intros Hrow (Hstate & Hname & Howner & Hgen) out.
  split; intros Ha; unfold out, runtime_command_ack; clear out;
    rewrite st_bind_unfold, ensure_run;
    replace (negb (ak_request p =? "")%string && bool_decide (ak_state p ∈ CMD_STATES)) with true
      by (apply String.eqb_neq in Hname; by rewrite Hname, bool_decide_true);
    rewrite st_bind_unfold, get_command_run, Hrow, st_bind_unfold, ensure_run;
    replace ((ak_runtime p =? "")%string || (ak_runtime p =? cm_runtime row)%string) with true
      by (symmetry; apply orb_true_iff; rewrite !String.eqb_eq; done);
    rewrite st_bind_unfold, ensure_run;
    replace (match ak_generation p with Some g => cm_generation row <=? g | None => true end) with true
      by (destruct (ak_generation p); [symmetry; apply Z.leb_le; by apply Hgen|done]).
  - case_bool_decide as Hf.
    + rewrite st_bind_unfold, set_command_run.
      destruct (write_state_acked p (detail_ack (ak_state p) now) now row s Hrow) as [H1 H2].
      rewrite H2. by eexists.
    + destruct Ha as [|Ha]; [done|]. apply advance_later in Ha as [l Hl]. rewrite Hl.
      rewrite st_bind_unfold, set_command_run.
      edestruct (write_state_acked p) as [H1 H2]; [exact Hrow|]. rewrite H2. by eexists.
  - case_bool_decide as Hf; [by exfalso; apply Ha; left|].
    destruct (_advance_ack_chain _ _) as [[t l]|] eqn:Hl; [|done].
    exfalso. apply Ha. right. apply advance_later. exists l. rewrite Hl. f_equal. f_equal.
    by eapply advance_target.
Qed.

(** C13: An acknowledgement of a known command, from the command's runtime and
    not of an older generation, is accepted exactly when its state is a
    transition of the table or a later place on the chain from QUEUED to
    TURN_TRIGGERED.  It then moves that command, and nothing else, along a
    path of transitions to that state and answers with the new row.  Any other
    is a conflict and changes nothing; a command in a final state accepts none. *)
Theorem ack_spec p now s row
  (Hrow : commands (g_ctl s.1) !! ak_request p = Some row) (Hfor : addressed p row) :
  let out := runtime_command_ack p now s in
  (acceptable (cm_state row) (ak_state p) ->
     tc can_follow (cm_state row) (ak_state p) /\
     exists row', acked p row row' s out.2 /\ out.1 = Ok (_command_result (ak_request p) row')) /\
  (~ acceptable (cm_state row) (ak_state p) -> out = (Raise (GatewayError "PROTOCOL_CONFLICT"), s)) /\
  (CMD_TRANSITIONS (cm_state row) = [] -> ~ acceptable (cm_state row) (ak_state p)).
Proof.
  intros out. destruct (ack_run p now s row Hrow Hfor) as [Ha Hr]. split; [|split; [done|]].
  - intros Hacc. split; [by apply acceptable_path|by apply Ha].
  - intros Hn Hacc. by apply (acceptable_not_final _ _ Hacc).
Qed.

(** ** Following a handler *)

(** A property of the gateway, whatever the rest of the machine does. *)
Definition holds (P : gateway -> Prop) (s : gateway * W) : Prop := P s.1.
Section holds.
Context (P : gateway -> Prop).
Lemma holds_ext {A} (m : st W A) : preserves (holds P) (on_ext m).
Proof. by intros s Hs. Qed.
Lemma holds_look {A} (f : gateway -> A) : preserves (holds P) (look f).
Proof. by intros s Hs. Qed.
Lemma holds_lift {A} (r : res A) : preserves (holds P) (on_gw (lift r)).
Proof. by intros s Hs. Qed.
Lemma holds_events {A} (m : st events A) :
  (forall e g, P g -> P (GatewayService.set_events e g)) -> preserves (holds P) (on_events m).
Proof. intros Hf s Hs. by apply Hf. Qed.
Lemma holds_session {A} sid (m : st session A) :
  (forall x g, P g -> P (set_mail x g)) -> preserves (holds P) (on_session sid m).
Proof. intros Hf s Hs. by apply Hf. Qed.
Lemma holds_quietly {A} (m : st (gateway * W) A) : preserves (holds P) m -> preserves (holds P) (quietly m).
Proof. intros Hm s Hs. by apply Hm. Qed.
Lemma holds_tried {A} (m : st (gateway * W) A) : preserves (holds P) m -> preserves (holds P) (tried m).
Proof. intros Hm s Hs. by apply Hm. Qed.
Lemma holds_upd f : (forall g, P g -> P (f g)) -> preserves (holds P) (upd f).
Proof. intros Hf s Hs. by apply Hf. Qed.
Lemma holds_health r now : preserves (holds P) (health r now).
Proof. intros s Hs. unfold health, on_ext. by destruct (driver_probe _ _) as [[]]. Qed.
Lemma holds_refused {A} (m : st (gateway * W) A) : preserves (holds P) m -> preserves (holds P) (refused m).
Proof. intros Hm s Hs. specialize (Hm s Hs). unfold refused. by repeat case_match. Qed.
End holds.

(** Properties of the control store that its operations keep. *)
Section control_only.
Context (Q : control -> Prop) (Hop : forall c o, Q c -> Q (run_control_op c o)).
Let P : gateway -> Prop := fun g => Q (g_ctl g).
Lemma ctl_drop l : preserves (holds P) (upd (drop_runtimes l)).
Proof.
  apply holds_upd. intros g Hg. unfold P, drop_runtimes. simpl.
  induction l as [|rid l IH]; simpl; [done|]. by apply (Hop _ (DeleteGeneration rid)).
Qed.
Lemma ctl_persist r now : preserves (holds P) (_persist_control_state r now).
Proof.
  apply holds_upd. intros g Hg. unfold P. simpl. by eapply (Hop _ (UpsertGeneration _ _ _ _ _ _ _ _ _ _)).
Qed.
Lemma ctl_review k sid rid aid now : preserves (holds P) (mirror_review k sid rid aid now).
Proof.
  unfold mirror_review. case_match; [apply preserves_ret|]. apply holds_upd. intros g Hg. unfold P. simpl.
  by eapply (Hop _ (UpsertReview _ _ _ _ _ _)).
Qed.
Lemma ctl_set_command rid u now : preserves (holds P) (set_command rid u now).
Proof.
  apply holds_upd. intros g Hg. unfold P. simpl. by eapply (Hop _ (UpdateCommand _ _ _)).
Qed.
End control_only.
End laws.

(** [following] takes a handler apart; [tac] treats the changes of the tables
    that the property speaks of. *)
Ltac following tac := repeat (first [progress tac | preserving_step | lazymatch goal with
  | |- preserves _ (on_ext _) => apply holds_ext
  | |- preserves _ (look _) => apply holds_look
  | |- preserves _ (get_command _) => apply holds_look
  | |- preserves _ (on_gw (lift _)) => apply holds_lift
  | |- preserves _ (on_events _) => apply holds_events; intros ? ? ?; assumption
  | |- preserves _ (on_session _ _) => apply holds_session; intros ? ? ?; assumption
  | |- preserves _ (quietly _) => apply holds_quietly
  | |- preserves _ (tried _) => apply holds_tried
  | |- preserves _ (health _ _) => apply holds_health
  | |- preserves _ (refused _) => apply holds_refused
  | |- preserves _ (refuse _) => apply preserves_raise
  | |- preserves _ (upd _) => apply holds_upd; intros ? ?; assumption
  | |- preserves _ ?m => let h := head_of m in progress unfold h
  end]).
Ltac ctl_change := idtac; lazymatch goal with
  | |- preserves _ (_persist_control_state _ _) => by apply ctl_persist
  | |- preserves _ (mirror_review _ _ _ _ _) => by apply ctl_review
  | |- preserves _ (set_command _ _ _) => by apply ctl_set_command
  | |- preserves _ (upd (drop_runtimes _)) => by apply ctl_drop
  end.

Section laws2.
Context {W : Type} `{Backends W}.
Section control_only.
Context (Q : control -> Prop) (Hop : forall c o, Q c -> Q (run_control_op c o)).
Let P : gateway * W -> Prop := holds (fun g => Q (g_ctl g)).

Lemma dispatch_ctl r now : preserves P (dispatch r now).
Proof. destruct r; unfold dispatch, drop_answer; following ctl_change. Qed.
Lemma call_next_ctl c held now : preserves P (call_next c held now).
Proof. destruct c; unfold call_next; following ctl_change. Qed.
End control_only.

(** A call of [runtime_send] changes commands and mailboxes only. *)
Section send_only.
Context (P : gateway -> Prop) (Hcmd : forall rid u now, preserves (holds (W := W) P) (set_command rid u now)).
Context (Hmail : forall x g, P g -> P (set_mail x g)).
Context (Hnew : forall rid cid r g h s e b m c d now x, P x ->
  P (set_ctl (enqueue_command rid cid r g h s e b m c d now (g_ctl x)).2 x)).
Ltac send_change := idtac; lazymatch goal with
  | |- preserves _ (set_command _ _ _) => apply Hcmd
  end.
Lemma send_next_holds p ph now : preserves (holds (W := W) P) (send_next p ph now).
Proof.
  assert (Hresult : preserves (holds (W := W) P) (command_result (sp_request p))) by (following send_change).
  assert (Hanswer : forall u, preserves (holds (W := W) P) (_ ← set_command (sp_request p) u now; command_result (sp_request p)))
    by (intros u; following send_change).
  destruct ph as [|r|r|r mid|r|r dl|r|r|v]; simpl; try by (following send_change).
  - unfold send_enqueue. apply preserves_bind; [|intros created; following send_change].
    intros s Hs. unfold holds. simpl. by apply Hnew.
  - unfold send_persist. case_bool_decide; [following send_change|]. intros s Hs.
    assert (Hs1 : holds P (on_session (id_session (rr_id r)) (svc_send py_repr (id_session (rr_id r))
      (send_draft p (id_agent (rr_id r))) None (sp_suffix p) now) s).2) by (by apply Hmail).
    destruct (on_session _ _ _) as [[rc|e] s1]; [case_match; [|exact Hs1]|].
    all: apply (preserves_bind (holds (W := W) P)); [apply Hanswer|intros ?; apply preserves_ret|exact Hs1].
  - unfold send_revive. intros s Hs.
    assert (Hs1 : holds P (on_ext (park_revive (id_review (rr_id r)) (sp_body p)) s).2) by done.
    destruct (on_ext _ _) as [[[ok meth]|e] s1]; [repeat case_match|].
    all: apply (preserves_bind (holds (W := W) P)); [following send_change|intros ?; following send_change|exact Hs1].
Qed.
Lemma send_step_holds p ph now s : holds P s -> holds P (send_step p ph now s).2.
Proof.
  intros Hs. pose proof (send_next_holds p ph now s Hs) as Hn. unfold send_step.
  by destruct (send_next p ph now s) as [[]].
Qed.
End send_only.

(** ** Calls in steps among everything else

    [threads] are the calls of [runtime_send] with where each stands; [writes]
    are the requests for which a call went on to write to the mailbox.  [calls]
    are the other handlers that let go of the lock, with the record that each
    holds ([held_record]).  Any of them may run its next step at any time, and
    any other request may be served in between.  [overtaken] are the runtimes
    for which a call persisted a record that was not in the table any more. *)
Record system := { sys_state : gateway * W; threads : list (send_params * send_phase);
                   writes : list string; calls : list (call_phase * option RuntimeRecord);
                   overtaken : list string }.
Definition started (s : gateway * W) : system :=
  {| sys_state := s; threads := []; writes := []; calls := []; overtaken := [] |}.
Definition writes_of (p : send_params) (ph : send_phase) : list string :=
  match ph with Enqueued _ => [sp_request p] | _ => [] end.

(** Requests and steps that put a new record into the table. *)
Definition replaced_by (r : request) (s : gateway * W) (rid : string) : bool :=
  match r with
  | Register p => String.eqb (rp_runtime p) rid && is_ok (register_checks p s).1
  | Spawn k sid aid _ _ =>
    match (on_ext (driver_spawn k sid aid) s).1 with Ok h => String.eqb (hd_runtime h) rid | Raise _ => false end
  | _ => false
  end.
Definition claimed_by (c c' : call_phase) (rid : string) : bool :=
  match c, c' with RegisterClaim p, SyncLook _ => String.eqb (rp_runtime p) rid | _, _ => false end.
(** A call whose record was replaced or removed keeps it as it was. *)
Definition let_go (new : string -> bool) (before after : gateway) (x : call_phase * option RuntimeRecord) :
    call_phase * option RuntimeRecord :=
  match call_rid x.1, x.2 with
  | Some rid, None =>
    if new rid || bool_decide (dget (g_runtimes after) rid = None) then (x.1, dget (g_runtimes before) rid) else x
  | _, _ => x
  end.
Definition late_write (c : call_phase) (held : option RuntimeRecord) : list string :=
  match c, held with (StopMark rid _ | ContextPersist rid), Some _ => [rid] | _, _ => [] end.
Definition begins (c : call_phase) : bool :=
  match c with StopFetch _ _ | ContextTake _ _ _ _ _ _ | RegisterClaim _ => true | _ => false end.

Definition call_sent (p : send_params) (x : system) : system :=
  {| sys_state := sys_state x; threads := threads x ++ [(p, Starting)]; writes := writes x;
     calls := calls x; overtaken := overtaken x |}.
Definition sent_on (i : nat) (p : send_params) (ph : send_phase) (now : Z) (x : system) : system :=
  let out := send_step p ph now (sys_state x) in
  {| sys_state := out.2; threads := <[i := (p, out.1)]> (threads x); writes := writes x ++ writes_of p ph;
     calls := calls x; overtaken := overtaken x |}.
Definition served (r : request) (now : Z) (x : system) : system :=
  let s' := (dispatch r now (sys_state x)).2 in
  {| sys_state := s'; threads := threads x; writes := writes x;
     calls := map (let_go (replaced_by r (sys_state x)) (sys_state x).1 s'.1) (calls x);
     overtaken := overtaken x |}.
Definition begun (c : call_phase) (x : system) : system :=
  {| sys_state := sys_state x; threads := threads x; writes := writes x;
     calls := calls x ++ [(c, None)]; overtaken := overtaken x |}.
Definition called_on (i : nat) (c : call_phase) (held : option RuntimeRecord) (now : Z) (x : system) : system :=
  let out := call_step c held now (sys_state x) in
  {| sys_state := out.2; threads := threads x; writes := writes x;
     calls := <[i := (out.1, held)]> (map (let_go (claimed_by c out.1) (sys_state x).1 out.2.1) (calls x));
     overtaken := late_write c held ++ overtaken x |}.
Inductive sys_step (x : system) : system -> Prop :=
| step_call p : sys_step x (call_sent p x)
| step_send i p ph now : threads x !! i = Some (p, ph) -> sys_step x (sent_on i p ph now x)
| step_request r now : sys_step x (served r now x)
| step_begin c : begins c = true -> sys_step x (begun c x)
| step_phase i c held now : calls x !! i = Some (c, held) -> sys_step x (called_on i c held now x).

Definition has_command (rid : string) (s : gateway * W) : Prop := is_Some (commands (g_ctl s.1) !! rid).
Lemma has_command_op rid c o : is_Some (commands c !! rid) -> is_Some (commands (run_control_op c o) !! rid).
Proof. intros [row Hr]. destruct (run_control_op_command c o rid row Hr) as (r' & -> & _). done. Qed.

(** Only one place enters [Enqueued], and it finds the request unused. *)
Definition not_enqueued (ph : send_phase) : Prop := forall r, ph <> Enqueued r.
Lemma phases_not_enqueued p ph now :
  (forall r, ph <> Checked r) -> not_enqueued ph -> yields not_enqueued (send_next (W := W) p ph now).
Proof.
  intros Hc He. destruct ph as [|r|r|r mid|r|r dl|r|r|v]; simpl; [|by destruct (Hc r)|by destruct (He r)|..].
  - unfold send_start, refuse. yielding; done.
  - yielding; done.
  - yielding; done.
  - yielding; done.
  - unfold send_gate. yielding; done.
  - unfold send_revive. intros s a. destruct (on_ext _ _) as [[[ok m]|e] s1]; repeat case_match.
    all: match goal with |- (?m ?s).1 = _ -> _ => apply (fun H : yields not_enqueued m => H s a) end;
      yielding; done.
  - yielding. done.
Qed.
Lemma persist_not_enqueued p r now : yields not_enqueued (send_persist (W := W) p r now).
Proof.
  unfold send_persist, refuse. case_bool_decide; [yielding; done|]. intros s a.
  destruct (on_session _ _ _) as [[rc|e] s1]; [case_match|]; [|by intros [= <-]|].
  all: match goal with |- (?m ?s).1 = _ -> _ => apply (fun H : yields not_enqueued m => H s a) end;
    yielding; done.
Qed.
Lemma enters_enqueued p ph now s r :
  (send_step p ph now s).1 = Enqueued r ->
  commands (g_ctl s.1) !! sp_request p = None /\ has_command (sp_request p) (send_step p ph now s).2.
Proof.
  assert (Hout : yields not_enqueued (send_next p ph now) ->
    (send_step p ph now s).1 <> Enqueued r).
  { intros Hy. unfold send_step. specialize (Hy s).
    destruct (send_next p ph now s) as [[a|e] s1]; simpl; [by apply Hy|done]. }
  intros Hr. destruct ph as [|r0|r0|r0 mid|r0|r0 dl|r0|r0|v];
    try (exfalso; apply Hout; [apply phases_not_enqueued; intros ? ?; done|done]).
  - clear Hout. revert Hr. unfold send_step. simpl. unfold send_enqueue, on_gw, enqueue_command.
    rewrite st_bind_unfold. simpl. destruct (commands (g_ctl s.1) !! sp_request p) eqn:Hc; simpl.
    + assert (Hy : yields not_enqueued (v ← command_result (sp_request p); mret (Answered (Ok v)) : st (gateway * W) _))
        by (yielding; done).
      intros Hx. exfalso. revert Hx. match goal with |- context [(?m ≫= ?k) ?s2] =>
        specialize (Hy s2); destruct ((m ≫= k) s2) as [[a|e] s3] end; simpl in *; [|done].
      intros ->. by eapply Hy.
    + intros _. split; [done|]. unfold has_command. simpl. by rewrite lookup_insert_eq.
  - exfalso. apply Hout; [apply persist_not_enqueued|done].
Qed.

Definition waiting (x : system) (i : nat) (rid : string) : Prop :=
  exists p r, threads x !! i = Some (p, Enqueued r) /\ sp_request p = rid.
Record once (x : system) : Prop := {
  on_nodup : NoDup (writes x);
  on_row : forall rid, (rid ∈ writes x \/ exists i, waiting x i rid) -> has_command rid (sys_state x);
  on_fresh : forall i rid, waiting x i rid -> rid ∉ writes x;
  on_sole : forall i j rid, waiting x i rid -> waiting x j rid -> i = j }.

Lemma once_step x y : once x -> sys_step x y -> once y.
Proof.
  intros [Hn Hrow Hfresh Hsole] Hs. destruct Hs as [p|i p ph now Hi|r now|c Hc|i c held now Hi].
  - assert (Hw : forall i rid, waiting (call_sent p x) i rid -> waiting x i rid).
    { intros i rid (p' & r & Ht & <-). simpl in Ht.
      apply lookup_snoc_Some in Ht as [[_ Ht]|[_ Ht]]; [by eexists _, _|by simplify_eq]. }
    split; simpl; eauto. intros rid [|[i Hi]]; apply Hrow; eauto.
  - set (out := send_step p ph now (sys_state x)).
    assert (Hkeep : forall rid, has_command rid (sys_state x) -> has_command rid out.2).
    { intros rid. apply (send_step_holds (fun g => is_Some (commands (g_ctl g) !! rid))); [|done|].
      - intros q u t. apply (ctl_set_command (fun c => is_Some (commands c !! rid)) (has_command_op rid)).
      - intros * Hq. by eapply (has_command_op rid _ (EnqueueCommand _ _ _ _ _ _ _ _ _ _ _ _)). }
    assert (Hw : forall j rid, waiting (sent_on i p ph now x) j rid ->
      (i = j /\ rid = sp_request p /\ exists r, out.1 = Enqueued r) \/ (i <> j /\ waiting x j rid)).
    { intros j rid (p' & r & Ht & <-). simpl in Ht. destruct (decide (i = j)) as [<-|Hne].
      - rewrite list_lookup_insert_eq in Ht by (by eapply lookup_lt_Some). simplify_eq. left. eauto.
      - rewrite list_lookup_insert_ne in Ht by done. right. split; [done|]. by eexists _, _. }
    assert (Hof : forall rid, rid ∈ writes_of p ph -> waiting x i rid).
    { intros rid. destruct ph; simpl; intros Hr; try by apply elem_of_nil in Hr.
      apply list_elem_of_singleton in Hr as ->. by eexists _, _. }
    assert (Hnew : forall r, out.1 = Enqueued r ->
      (forall j, ~ waiting x j (sp_request p)) /\ sp_request p ∉ writes x /\ has_command (sp_request p) out.2).
    { intros r Hr. apply enters_enqueued in Hr as [Hnone Hhas].
      assert (~ has_command (sp_request p) (sys_state x)) as Hno
        by (unfold has_command; rewrite Hnone; by intros []).
      split_and!; [intros j Hj; apply Hno, Hrow; eauto|intros Hj; apply Hno, Hrow; eauto|done]. }
    split; simpl.
    + apply NoDup_app. split_and!; [done| |destruct ph; simpl; repeat constructor; by intros ?%elem_of_nil].
      intros rid Hr Hr2. by apply (Hfresh i rid); [apply Hof|].
    + intros rid [[Hr|Hr]%elem_of_app|[j Hj]].
      * apply Hkeep, Hrow. by left.
      * apply Hkeep, Hrow. right. exists i. by apply Hof.
      * apply Hw in Hj as [(_ & -> & r & Hr)|[_ Hj]]; [by eapply Hnew|]. apply Hkeep, Hrow. eauto.
    + intros j rid Hj [Hr|Hr]%elem_of_app.
      * apply Hw in Hj as [(_ & -> & r & He)|[_ Hj]]; [by eapply Hnew|by apply (Hfresh j rid)].
      * pose proof (Hof _ Hr) as Hi'. apply Hw in Hj as [(_ & -> & r & He)|[Hne Hj]].
        -- by eapply Hnew in He as [He _]; eapply He.
        -- apply Hne. by eapply Hsole.
    + intros j k rid Hj Hk. apply Hw in Hj as [(<- & -> & r & He)|[Hne Hj]], Hk as [(<- & Hk & r' & He')|[Hne' Hk]];
        [done| | |by eapply Hsole].
      * by eapply Hnew in He as [He _]; eapply He in Hk.
      * subst rid. by eapply Hnew in He' as [He' _]; eapply He' in Hj.
  - assert (Hkeep : forall rid, has_command rid (sys_state x) -> has_command rid (dispatch r now (sys_state x)).2).
    { intros rid. apply (dispatch_ctl (fun c => is_Some (commands c !! rid)) (has_command_op rid)). }
    split; simpl; [done| |done|done]. intros rid Hr. apply Hkeep, Hrow. done.
  - by split.
  - assert (Hkeep : forall rid, has_command rid (sys_state x) -> has_command rid (call_step c held now (sys_state x)).2).
    { intros rid Hr. unfold call_step.
      pose proof (call_next_ctl (fun c => is_Some (commands c !! rid)) (has_command_op rid) c held now _ Hr) as Hk.
      by destruct (call_next c held now (sys_state x)) as [[]]. }
    split; simpl; [done| |done|done]. intros rid Hr. apply Hkeep, Hrow. done.
Qed.

(** C11: However many calls of [runtime_send] run at once, step by step in any
    order and with any other requests, sweeps and steps of registrations, stops
    and context changes in between, the mailbox is written at most once for a
    request. *)
Theorem one_write_per_request s x : rtc sys_step (started s) x -> NoDup (writes x).
Proof.
  intros Hx. apply on_nodup. assert (H0 : once (started s)).
  { assert (Hno : forall i rid, ~ waiting (started s) i rid) by (by intros [|i] rid (p & r & Hp & _)).
    split; simpl; [constructor| |by intros i rid ?%Hno|by intros i j rid ?%Hno].
    intros rid [Hr|[i Hi%Hno]]; [by apply elem_of_nil in Hr|done]. }
  induction Hx as [x|x y z Hxy _ IH]; [done|]. apply IH. by eapply once_step.
Qed.

(** ** The control store mirrors the runtimes *)

(** Everything of a record that a row of the control store shows, but the
    presence. *)
Definition mirrors (r : RuntimeRecord) (row : generation) : Prop :=
  let i := rr_id r in
  gn_current row = id_generation i /\ gn_nonce row = id_nonce i /\ gn_binding row = rr_binding r /\
  gn_backend row = id_backend i /\ gn_epoch row = id_epoch i /\ gn_agent_state row = rr_agent_state r.
(** The rows of the runtimes in [O] may show something else. *)
Definition mirrored_in (O : list string) (rs : list (string * RuntimeRecord)) (gens : gmap string generation) : Prop :=
  dict_wf rs /\ forall rid r, dget rs rid = Some r ->
  id_runtime (rr_id r) = rid /\ (rid ∈ O \/ exists row, gens !! rid = Some row /\ mirrors r row).
Definition mirrored_but (O : list string) (g : gateway) : Prop :=
  mirrored_in O (g_runtimes g) (generations (g_ctl g)).
Section but.
Context {O : list string}.
Lemma mirrored_save rid r now (s : gateway * W) :
  holds (mirrored_but O) s -> id_runtime (rr_id r) = rid -> holds (mirrored_but O) (save_runtime rid r now s).2.
Proof.
  intros [Hwf Hm] Hid. unfold holds, mirrored_but. simpl. rewrite Hid. split; [by apply dset_wf|].
  intros rid' r'. rewrite dget_dset. destruct (decide (rid = rid')) as [<-|Hne].
  - intros [= <-]. split; [done|]. right. rewrite lookup_insert_eq. by eexists.
  - rewrite lookup_insert_ne by done. apply Hm.
Qed.
(** Records that a row cannot tell apart. *)
Definition alike (r r' : RuntimeRecord) : Prop :=
  rr_id r = rr_id r' /\ rr_binding r = rr_binding r' /\ rr_agent_state r = rr_agent_state r'.
Lemma mirrored_put rid r r' (s : gateway * W) :
  holds (mirrored_but O) s -> dget (g_runtimes s.1) rid = Some r -> alike r r' ->
  holds (mirrored_but O) (put_runtime rid r' s).2.
Proof.
  intros [Hwf Hm] Hr (Hi & Hb & Ha). split; simpl; [by apply dset_wf|].
  intros rid' x. rewrite dget_dset. destruct (decide (rid = rid')) as [<-|Hne]; [|apply Hm].
  intros [= <-]. destruct (Hm _ _ Hr) as (Hid & [HO|(row & Hrow & Hmir)]); rewrite <- Hi; (split; [done|]); [by left|right].
  exists row. split; [done|]. unfold mirrors in *. by rewrite <- Hi, <- Hb, <- Ha.
Qed.
Lemma dget_filter_keys (l : list string) (rs : list (string * RuntimeRecord)) rid :
  dget (List.filter (fun x => negb (bool_decide (fst x ∈ l))) rs) rid =
  if bool_decide (rid ∈ l) then None else dget rs rid.
Proof.
  induction rs as [|[k r] rs IH]; simpl; [by case_bool_decide|].
  destruct (decide (k ∈ l)) as [Hk|Hk].
  - rewrite (bool_decide_true (k ∈ l)) by done. simpl. rewrite IH.
    destruct (String.eqb_spec rid k) as [->|]; [by rewrite bool_decide_true|done].
  - rewrite (bool_decide_false (k ∈ l)) by done. simpl. rewrite IH.
    destruct (String.eqb_spec rid k) as [->|]; [by rewrite bool_decide_false|done].
Qed.
Lemma generations_drop g l rid :
  generations (g_ctl (drop_runtimes l g)) !! rid =
  if bool_decide (rid ∈ l) then None else generations (g_ctl g) !! rid.
Proof.
  unfold drop_runtimes. simpl. induction l as [|x l IH]; simpl; [done|].
  destruct (decide (x = rid)) as [->|Hne].
  - rewrite lookup_delete_eq, bool_decide_true; [done|by left].
  - rewrite lookup_delete_ne by done. rewrite IH.
    destruct (decide (rid ∈ l)); [rewrite !bool_decide_true|rewrite !bool_decide_false]; set_solver.
Qed.
Lemma mirrored_drop l g : mirrored_but O g -> mirrored_but O (drop_runtimes l g).
Proof.
  intros [Hwf Hm]. split.
  - unfold dict_wf. eapply sublist_NoDup; [exact Hwf|]. apply map_sublist, List_filter_sublist.
  - intros rid r. rewrite generations_drop.
    change (g_runtimes (drop_runtimes l g)) with
      (List.filter (fun x : string * RuntimeRecord => negb (bool_decide (fst x ∈ l))) (g_runtimes g)).
    rewrite dget_filter_keys. case_bool_decide; [done|]. apply Hm.
Qed.
(** A record that is not in the table any more is persisted all the same. *)
Lemma mirrored_late rid r now (s : gateway * W) :
  holds (mirrored_but O) s -> id_runtime (rr_id r) = rid ->
  holds (mirrored_but (rid :: O)) (_persist_control_state r now s).2.
Proof.
  intros [Hwf Hm] Hid. split; simpl; [done|]. intros rid' x Hx. destruct (Hm _ _ Hx) as [Hx' Hrow]. split; [done|].
  rewrite Hid. destruct (decide (rid = rid')) as [<-|Hne]; [left; by left|].
  rewrite lookup_insert_ne by done. destruct Hrow as [?|?]; [left; by right|by right].
Qed.
End but.

(** Properties of the runtimes and their rows: no other change concerns them. *)
Section tables_only.
Context (R : list (string * RuntimeRecord) -> gmap string generation -> Prop).
Let P : gateway -> Prop := fun g => R (g_runtimes g) (generations (g_ctl g)).
Lemma tables_review k sid rid aid now : preserves (holds (W := W) P) (mirror_review k sid rid aid now).
Proof.
  unfold mirror_review. case_match; [apply preserves_ret|]. apply holds_upd. intros g Hg.
  unfold P, upsert_review. simpl. by destruct (claimed_elsewhere _ _ _).
Qed.
Lemma tables_set_command rid u now : preserves (holds (W := W) P) (set_command rid u now).
Proof. apply holds_upd. intros g Hg. unfold P, update_command. simpl. by destruct (no_update u). Qed.
End tables_only.
End laws2.
Abbreviation mirrored := (mirrored_but []).
Ltac table_change := idtac; lazymatch goal with
  | |- preserves _ (mirror_review _ _ _ _ _) => apply tables_review
  | |- preserves _ (set_command _ _ _) => apply tables_set_command
  end.

Section laws3.
Context {W : Type} `{Backends W}.
Context {O : list string}.
Notation P := (holds (W := W) (mirrored_but O)).

(** A record that is on file, up to what a row does not show. *)
Definition on_file_in (rid : string) (r : RuntimeRecord) (rs : list (string * RuntimeRecord))
    (gens : gmap string generation) : Prop :=
  mirrored_in O rs gens /\ exists r', dget rs rid = Some r' /\ alike r' r.
Definition on_file (rid : string) (r : RuntimeRecord) (g : gateway) : Prop :=
  on_file_in rid r (g_runtimes g) (generations (g_ctl g)).
Lemma save_on_file rid r now s :
  P s -> id_runtime (rr_id r) = rid -> holds (on_file rid r) (save_runtime rid r now s).2.
Proof.
  intros Hs Hid. split; [by apply mirrored_save|]. exists r. split; [|done]. simpl. apply dget_dset_eq.
Qed.
(** The rest of a handler, after its record was saved or put back. *)
Lemma after_save {A} rid r now (k : unit -> st (gateway * W) A) s :
  P s -> id_runtime (rr_id r) = rid -> preserves (holds (on_file rid r)) (k tt) ->
  P ((save_runtime rid r now ≫= k) s).2.
Proof.
  intros Hs Hid Hk. rewrite st_bind_unfold. apply (Hk (save_runtime rid r now s).2).
  by apply save_on_file.
Qed.
Lemma put_on_file rid r r' : alike r r' -> preserves (holds (on_file rid r)) (put_runtime (W := W) rid r').
Proof.
  intros Hal s [Hm (r0 & Hr & Hal0)].
  assert (Hal' : alike r0 r') by (unfold alike in *; intuition congruence).
  split; [by eapply mirrored_put|]. exists r'. split; [simpl; apply dget_dset_eq|].
  unfold alike in *; intuition congruence.
Qed.

Lemma persist_on_file rid r r' now : alike r r' -> id_runtime (rr_id r) = rid ->
  preserves (holds (W := W) (on_file rid r)) (_persist_control_state r' now).
Proof.
  intros (Hi & Hb & Ha) Hid s [[Hwf Hm] (r0 & Hr & Hi0 & Hb0 & Ha0)]. split; simpl.
  - split; [done|]. intros rid' x Hx. rewrite <- Hi, Hid. destruct (decide (rid = rid')) as [<-|Hne].
    + simplify_eq. rewrite lookup_insert_eq. split; [by rewrite Hi0|]. right. eexists. split; [done|].
      unfold mirrors. simpl. rewrite Hi0, Hb0, Ha0. by rewrite Hi, Hb, Ha.
    + rewrite lookup_insert_ne by done. by apply Hm.
  - by exists r0.
Qed.
Lemma after_save_P {A} rid r now (k : unit -> st (gateway * W) A) s :
  P s -> id_runtime (rr_id r) = rid -> preserves P (k tt) -> P ((save_runtime rid r now ≫= k) s).2.
Proof. intros Hs Hid Hk. rewrite st_bind_unfold. apply (Hk (save_runtime rid r now s).2). by apply mirrored_save. Qed.
Ltac file_change := idtac; lazymatch goal with
  | |- preserves _ (_persist_control_state _ _) => by apply persist_on_file
  | |- preserves _ (put_runtime _ _) => apply put_on_file; by repeat split
  | |- _ => table_change
  end.

Lemma declare_mirrored k b rid aid now : preserves P (runtime_declare k b rid aid now).
Proof.
  unfold runtime_declare. do 3 (apply preserves_bind; [following table_change|intros ?]).
  case_match; [|following table_change].
  intros x Hx. rewrite st_bind_unfold, look_run. apply after_save; [done|done|]. following file_change.
Qed.
Lemma spawn_mirrored k sid aid key t now : preserves P (runtime_spawn k sid aid key t now).
Proof.
  unfold runtime_spawn. apply preserves_bind; [following table_change|intros h].
  intros s Hs. apply after_save; [done|done|]. following file_change.
Qed.
(** A handler that first looks the runtime up. *)
Lemma with_runtime {A} rid (k : RuntimeRecord -> st (gateway * W) A) :
  (forall r s, P s -> id_runtime (rr_id r) = rid -> holds (on_file rid r) s -> P ((k r) s).2) ->
  preserves P (_require_runtime rid ≫= k).
Proof.
  intros Hk s Hs. rewrite st_bind_unfold, require_run.
  destruct (dget (g_runtimes s.1) rid) as [r|] eqn:Hr; [|done].
  apply Hk; [done|by apply (proj2 Hs)|]. split; [done|]. by exists r.
Qed.
Lemma on_file_mirrored {A} rid r (m : st (gateway * W) A) s :
  holds (on_file rid r) s -> preserves (holds (on_file rid r)) m -> P (m s).2.
Proof. intros Hs Hm. by destruct (Hm s Hs). Qed.

Lemma heartbeat_mirrored rid now : preserves P (runtime_heartbeat rid now).
Proof.
  unfold runtime_heartbeat. apply with_runtime. intros r s Hs Hid Hf.
  apply (on_file_mirrored rid r); [done|].
  destruct (rr_status r =? "offline")%string; following file_change.
Qed.
(** *** The handlers that let go of the lock *)
Lemma claim_mirrored p now : preserves P (register_claim p now).
Proof.
  unfold register_claim. apply preserves_bind; [following table_change|intros ?].
  intros s Hs. apply after_save_P; [done|done|]. following table_change.
Qed.
Lemma sync_look_mirrored p : preserves P (sync_look p).
Proof. following table_change. Qed.
Lemma sync_write_mirrored p found : preserves P (sync_write p found).
Proof. following table_change. Qed.
Lemma tell_mirrored p held now : preserves P (register_tell p held now).
Proof.
  unfold register_tell. apply preserves_bind; [following table_change|intros [[body ?] ?]].
  destruct held as [r|]; [following table_change|]. apply with_runtime. intros r s Hs Hid Hf.
  apply (on_file_mirrored (rp_runtime p) r); [done|]. following file_change.
Qed.
Lemma register_mirrored p now : preserves P (runtime_register p now).
Proof.
  unfold runtime_register. apply preserves_bind; [apply claim_mirrored|intros r].
  apply preserves_bind; [apply sync_look_mirrored|intros found].
  apply preserves_bind; [apply sync_write_mirrored|intros _; apply tell_mirrored].
Qed.
Lemma take_mirrored rid p m v e g : preserves P (context_take rid p m v e g).
Proof.
  unfold context_take. apply preserves_bind; [following table_change|intros _].
  apply with_runtime. intros r s Hs Hid Hf. apply (on_file_mirrored rid r); [done|]. following file_change.
Qed.
Lemma persist_mirrored rid now : preserves P (context_persist rid None now).
Proof.
  unfold context_persist. apply with_runtime. intros r s Hs Hid Hf.
  apply (on_file_mirrored rid r); [done|]. following file_change.
Qed.
Lemma context_set_mirrored rid p m v e g now : preserves P (runtime_context_set rid p m v e g now).
Proof.
  unfold runtime_context_set. apply preserves_bind; [by apply take_mirrored|intros ctx].
  apply preserves_bind; [apply persist_mirrored|intros _; apply preserves_ret].
Qed.
Lemma reduce_lifecycle_id r e : rr_id (_reduce_lifecycle r e) = rr_id r.
Proof. unfold _reduce_lifecycle. by repeat case_match. Qed.
Lemma lifecycle_mirrored rid e now : preserves P (runtime_lifecycle rid e now).
Proof.
  unfold runtime_lifecycle. apply preserves_bind; [following table_change|intros _].
  apply with_runtime. intros r s Hs Hid Hf.
  apply after_save_P; [done|by rewrite reduce_lifecycle_id; case_match|]. following table_change.
Qed.
Lemma reduce_event_id d now r : rr_id (reduce_event d now r) = rr_id r.
Proof. unfold reduce_event. by repeat case_match. Qed.
Lemma reduce_event_alike d now r : dimensions (reduce_event d now r) = dimensions r -> alike r (reduce_event d now r).
Proof. unfold dimensions, alike. rewrite reduce_event_id. by intros [= ? <- <-]. Qed.
Lemma bind_on_file {A B} rid r (m : st (gateway * W) A) (k : A -> st (gateway * W) B) s :
  holds (on_file rid r) s -> preserves (holds (on_file rid r)) m ->
  (forall a s', holds (on_file rid r) s' -> P ((k a) s').2) -> P ((m ≫= k) s).2.
Proof.
  intros Hs Hm Hk. rewrite st_bind_unfold. specialize (Hm s Hs).
  destruct (m s) as [[a|e] s']; [by apply Hk|by destruct Hm].
Qed.
Lemma event_mirrored d now : preserves P (runtime_event d now).
Proof.
  unfold runtime_event. apply with_runtime. intros r s Hs Hid Hf.
  apply (bind_on_file (ed_runtime d) r); [done|following file_change|]. clear s Hs Hf. intros _ s Hf.
  apply (bind_on_file (ed_runtime d) r); [done|following file_change|]. clear s Hf. intros ev s Hf.
  set (r1 := reduce_event d now r). case_bool_decide as Hd.
  - apply (on_file_mirrored (ed_runtime d) r); [done|]. pose proof (reduce_event_alike _ _ _ Hd). following file_change.
    by apply put_on_file.
  - match goal with |- P ((_ ≫= (fun _ => _ ≫= ?k)) s).2 =>
      change (P ((save_runtime (ed_runtime d) r1 now ≫= k) s).2) end.
    apply after_save_P; [by destruct Hf|by unfold r1; rewrite reduce_event_id|]. following table_change.
Qed.
Lemma purge_mirrored k keep : preserves P (_purge_stopped_for_key (W := W) k keep).
Proof.
  unfold _purge_stopped_for_key. preserving; [apply holds_look|].
  apply holds_upd. intros g. apply mirrored_drop.
Qed.
Lemma mark_mirrored rid now : preserves P (stop_mark rid None now).
Proof.
  unfold stop_mark. apply with_runtime. intros r s Hs Hid Hf.
  set (r1 := placed _ _ _ _ _ r).
  change (P ((save_runtime rid r1 now ≫= (fun _ => mret r1)) s).2).
  apply after_save_P; [done|done|apply preserves_ret].
Qed.
Lemma stop_tell_mirrored rid why r now : preserves P (stop_tell rid why r now).
Proof. unfold stop_tell. preserving; try apply purge_mirrored; following table_change. Qed.
Lemma stop_mirrored rid why now : preserves P (runtime_stop rid why now).
Proof.
  unfold runtime_stop. apply preserves_bind; [following table_change|intros r0].
  apply preserves_bind; [following table_change|intros _].
  apply preserves_bind; [apply mark_mirrored|intros r; apply stop_tell_mirrored].
Qed.
Lemma call_next_mirrored c now : preserves P (call_next c None now).
Proof.
  destruct c; unfold call_next; (apply preserves_bind; [|intros ?; apply preserves_ret]) || apply preserves_ret;
    auto using mark_mirrored, stop_tell_mirrored, persist_mirrored, take_mirrored, claim_mirrored,
      sync_look_mirrored, sync_write_mirrored, tell_mirrored; following table_change.
Qed.
Lemma sweep_mirrored now : preserves P (_sweep_once now).
Proof.
  assert (Hids : forall s x, P s -> x ∈ g_runtimes s.1 -> id_runtime (rr_id (snd x)) = fst x).
  { intros s [rid r] [Hwf Hm] Hx. simpl. apply (dget_elem_of _ _ _ Hwf) in Hx. by apply Hm in Hx as [? _]. }
  assert (Hsweep : forall f, (forall x, id_runtime (rr_id (snd x)) = fst x -> preserves P (f x)) ->
    forall A (m : st (gateway * W) A), preserves P m ->
    preserves P (rs ← look g_runtimes; _ ← st_iter f rs; m)).
  { intros f Hf A m Hk s Hs. rewrite st_bind_unfold, look_run.
    apply (preserves_bind P (st_iter f (g_runtimes s.1)) (fun _ => m)); [|done|done].
    apply preserves_iter. intros x Hx. by apply Hf, (Hids s). }
  assert (Hoff : forall x, id_runtime (rr_id (snd x)) = fst x -> preserves P (sweep_offline now x)).
  { intros [rid r] Hid s Hs. unfold sweep_offline. case_match; [|done].
    exact (mirrored_save rid (went_offline r) now s Hs Hid). }
  assert (Hdead : forall x, id_runtime (rr_id (snd x)) = fst x -> preserves P (sweep_dead now x)).
  { intros [rid r] Hid s Hs. unfold sweep_dead. case_match; [|done].
    exact (mirrored_save rid (set_presence PRESENCE_DEAD r) now s Hs Hid). }
  unfold _sweep_once. intros s Hs. rewrite st_bind_unfold, look_run.
  apply (preserves_bind P (st_iter (sweep_offline now) (g_runtimes s.1))); [|intros _|done].
  { apply preserves_iter. intros x Hx. by apply Hoff, (Hids s). }
  apply (Hsweep _ Hdead). preserving; try (following table_change).
  all: apply holds_upd; intros g; apply mirrored_drop.
Qed.
Lemma restore_mirrored l now : preserves P (_restore_runtimes_from_park l now).
Proof.
  apply preserves_iter. intros [m token] _. unfold restore_one. case_match; [apply preserves_ret|].
  apply preserves_bind; [apply holds_look|intros [r|]; [apply preserves_ret|]].
  apply preserves_bind; [apply holds_look|intros ctx s Hs]. by apply mirrored_save.
Qed.

Lemma dispatch_mirrored r now : preserves P (dispatch r now).
Proof.
  assert (Hdrop : forall A (m : st (gateway * W) A), preserves P m -> preserves P (drop_answer m))
    by (intros A m Hm; unfold drop_answer; preserving; done).
  destruct r; unfold dispatch; try (unfold drop_answer; by following table_change).
  all: try apply Hdrop.
  - apply register_mirrored.
  - apply declare_mirrored.
  - apply spawn_mirrored.
  - apply heartbeat_mirrored.
  - apply event_mirrored.
  - apply context_set_mirrored.
  - apply lifecycle_mirrored.
  - apply stop_mirrored.
  - unfold runtime_purge_stopped. preserving; apply purge_mirrored.
  - apply sweep_mirrored.
Qed.

(** ** The gateway as a whole *)
Definition log_held (g : gateway) : Prop := log_ok (g_events g).
Lemma dispatch_log r now : preserves (holds (W := W) log_held) (dispatch r now).
Proof.
  assert (Hemit : forall d h, preserves (holds (W := W) log_held) (on_events (append_local h d)))
    by (intros d h s Hs; eapply log_step_ok; [exact Hs|apply append_local_step]).
  assert (Hsweep : preserves (holds (W := W) log_held) (on_events (sweep_events now)))
    by (intros s Hs; eapply log_step_ok; [exact Hs|apply sweep_events_step]).
  destruct r; unfold dispatch, drop_answer.
  all: following ltac:(idtac; lazymatch goal with
    | |- preserves _ (on_events (append_local _ _)) => apply Hemit
    | |- preserves _ (on_events (sweep_events _)) => apply Hsweep
    end).
Qed.

Lemma call_next_log c held now : preserves (holds (W := W) log_held) (call_next c held now).
Proof.
  assert (Hemit : forall d h, preserves (holds (W := W) log_held) (on_events (append_local h d)))
    by (intros d h s Hs; eapply log_step_ok; [exact Hs|apply append_local_step]).
  destruct c; unfold call_next.
  all: following ltac:(idtac; lazymatch goal with
    | |- preserves _ (on_events (append_local _ _)) => apply Hemit
    end).
Qed.

End laws3.

Section laws4.
Context {W : Type} `{Backends W}.
(** The rows of the runtimes in [O] left aside. *)
Record coherent_but (O : list string) (g : gateway) : Prop := {
  co_mirror : mirrored_but O g; co_reviews : sessions_unique (g_ctl g); co_log : log_ok (g_events g) }.
Lemma dispatch_coherent O r now s : holds (coherent_but O) s -> holds (coherent_but O) (dispatch r now s).2.
Proof.
  intros [Hm Hr Hl]. split.
  - by apply dispatch_mirrored.
  - apply (dispatch_ctl sessions_unique); [|done]. intros c o Hc. by apply (run_control_unique [o]).
  - by apply dispatch_log.
Qed.
Lemma send_step_coherent O p ph now s : holds (coherent_but O) s -> holds (coherent_but O) (send_step p ph now s).2.
Proof.
  intros [Hm Hr Hl]. split.
  - apply (send_step_holds (mirrored_but O)); [| | |done].
    + intros rid u t. apply tables_set_command.
    + done.
    + intros * Hx. unfold enqueue_command, mirrored_but in *. by case_match.
  - apply (send_step_holds (fun g => sessions_unique (g_ctl g))); [|done| |done].
    + intros rid u t. apply (ctl_set_command sessions_unique). intros c o Hc. by apply (run_control_unique [o]).
    + intros * Hx. unfold enqueue_command. by case_match.
  - apply (send_step_holds log_held); [by intros ? ? ? ? ?|done..].
Qed.
Lemma restore_coherent l now s :
  holds (coherent_but []) s -> holds (coherent_but []) (_restore_runtimes_from_park l now s).2.
Proof.
  intros [Hm Hr Hl]. split; [by apply restore_mirrored| |].
  - apply (preserves_iter (holds (fun g => sessions_unique (g_ctl g))) (restore_one now)); [|done].
    intros [m token] _. unfold restore_one. following ltac:(idtac; lazymatch goal with
      | |- preserves _ (_persist_control_state _ _) => apply (ctl_persist sessions_unique);
          intros c o Hc; by apply (run_control_unique [o])
      end).
  - apply (preserves_iter (holds log_held) (restore_one now)); [|done].
    intros [m token] _. unfold restore_one. following idtac.
Qed.

(** *** Calls that hold a record *)
(** A call that holds a record of its own holds one of its runtime. *)
Definition held_right (c : call_phase) (held : option RuntimeRecord) : Prop :=
  forall r, held = Some r -> begins c = false /\ forall rid, call_rid c = Some rid -> id_runtime (rr_id r) = rid.
Lemma next_phase_run {A} (m : st (gateway * W) A) (k : A -> call_phase) (x : gateway * W) :
  (match (a ← m; mret (k a)) x with (Ok c', s') => (c', s') | (Raise _, s') => (Finished, s') end).1 =
  match (m x).1 with Ok a => k a | Raise _ => Finished end.
Proof. rewrite st_bind_unfold. by destruct (m x) as [[] ?]. Qed.
Lemma call_step_next c held now (s : gateway * W) : begins (call_step c held now s).1 = false /\
  forall rid, call_rid (call_step c held now s).1 = Some rid -> begins c = true \/ call_rid c = Some rid.
Proof.
  unfold call_step. destruct c; cbn [call_next]; try done.
  all: rewrite next_phase_run; match goal with |- context [match ?t with Ok _ => _ | Raise _ => _ end] => destruct t end.
  all: cbn; split; [done|]; intros rid0 Hr; first [done|by left|by right].
Qed.
Lemma let_go_spec new g g' x : (let_go new g g' x).1 = x.1 /\
  ((let_go new g g' x).2 = x.2 \/ exists rid, call_rid x.1 = Some rid /\ begins x.1 = false /\
     (let_go new g g' x).2 = dget (g_runtimes g) rid).
Proof.
  destruct x as [c h]. unfold let_go. simpl. destruct (call_rid c) as [rid|] eqn:Hc; [|by split; [|left]].
  destruct h as [r|]; [by split; [|left]|]. destruct (_ || _); simpl; (split; [done|]); [right|by left].
  exists rid. split_and!; [done| |done]. by destruct c.
Qed.
Lemma let_go_right O new g g' x : mirrored_but O g -> held_right x.1 x.2 ->
  held_right (let_go new g g' x).1 (let_go new g g' x).2.
Proof.
  intros [_ Hm] Hx. destruct (let_go_spec new g g' x) as [-> [->|(rid & Hc & Hb & ->)]]; [done|].
  intros r Hr. destruct (Hm _ _ Hr) as [Hid _]. split; [done|]. intros rid' Hc'. congruence.
Qed.
Lemma call_step_coherent O c held now s : held_right c held -> holds (coherent_but O) s ->
  holds (coherent_but (late_write c held ++ O)) (call_step c held now s).2.
Proof.
  intros Hh [Hm Hr Hl]. assert (Hn : holds (coherent_but (late_write c held ++ O)) (call_next c held now s).2).
  { split.
    - destruct held as [r|].
      + destruct (Hh r eq_refl) as [_ Hid]. destruct c; try (match goal with |- context [call_next ?c _ _ _] => exact (call_next_mirrored c now s Hm) end).
        * unfold call_next. rewrite st_bind_unfold. specialize (Hid _ eq_refl). by apply mirrored_late.
        * unfold call_next. rewrite st_bind_unfold. specialize (Hid _ eq_refl). by apply mirrored_late.
        * unfold call_next. refine (preserves_bind _ _ _ (tell_mirrored p (Some r) now) _ s Hm).
          intros ?. apply preserves_ret.
      + replace (late_write c None) with (@nil string) by by destruct c. by apply call_next_mirrored.
    - apply (call_next_ctl sessions_unique); [|done]. intros c' o Hc. by apply (run_control_unique [o]).
    - by apply call_next_log. }
  unfold call_step. by destruct (call_next c held now s) as [[]].
Qed.
Record in_order (x : system) : Prop := {
  io_state : coherent_but (overtaken x) (sys_state x).1;
  io_calls : Forall (fun y => held_right y.1 y.2) (calls x) }.
Lemma let_go_all O new g g' (l : list (call_phase * option RuntimeRecord)) : mirrored_but O g ->
  Forall (fun y => held_right y.1 y.2) l -> Forall (fun y => held_right y.1 y.2) (map (let_go new g g') l).
Proof. intros Hm Hl. apply Forall_fmap. eapply Forall_impl; [exact Hl|]. intros y Hy. by eapply let_go_right. Qed.
Lemma in_order_step x y : in_order x -> sys_step x y -> in_order y.
Proof.
  intros [Hco Hcalls] Hs. destruct Hs as [p|i p ph now Hi|r now|c Hc|i c held now Hi]; split; simpl; try done.
  - by apply send_step_coherent.
  - by apply dispatch_coherent.
  - by eapply let_go_all; [apply Hco|].
  - apply Forall_app. split; [done|]. by repeat constructor.
  - apply call_step_coherent; [|done]. by apply (Forall_lookup_1 _ _ _ _ Hcalls Hi).
  - apply Forall_insert; [by eapply let_go_all; [apply Hco|]|].
    intros r Hr. destruct (Forall_lookup_1 _ _ _ _ Hcalls Hi r Hr) as [Hb Hid].
    destruct (call_step_next c held now (sys_state x)) as [Hb' Hnext]. split; [done|].
    intros rid [Hc|Hc]%Hnext; [simpl in Hb; congruence|by apply Hid].
Qed.


(** *** What a registration leaves *)
Lemma claim_record p now (s s1 : gateway * W) r : register_claim p now s = (Ok r, s1) ->
  dget (g_runtimes s1.1) (rp_runtime p) = Some r /\ exists epoch, r = registered p epoch now.
Proof.
  unfold register_claim. rewrite st_bind_unfold. destruct (register_checks p s) as [[existing|e] s0]; [|done].
  rewrite st_bind_unfold. unfold mirror_review. destruct (String.eqb (rp_review p) "").
  all: intros [= <- <-]; (split; [apply dget_dset_eq|by eexists]).
Qed.
Lemma claim_admits p now (s : gateway * W) : is_ok (register_claim p now s).1 = is_ok (register_checks p s).1.
Proof.
  unfold register_claim. rewrite st_bind_unfold. destruct (register_checks p s) as [[existing|e] s0]; [|done].
  rewrite st_bind_unfold. unfold mirror_review. by destruct (String.eqb (rp_review p) "").
Qed.
Lemma sync_run p (s : gateway * W) : exists found s1, sync_look p s = (Ok found, s1) /\ s1.1 = s.1.
Proof.
  unfold sync_look. destruct (_ || _); [by eexists _, _|]. rewrite st_bind_unfold. unfold tried, on_ext. simpl.
  by eexists _, _.
Qed.
Lemma sync_written p found (s : gateway * W) : exists s1, sync_write p found s = (Ok tt, s1) /\ s1.1 = s.1.
Proof. unfold sync_write. destruct found; [|by eexists]. unfold quietly, on_ext. simpl. by eexists. Qed.
(** Run from its first step to its last, a registration holds the record that it made. *)
Lemma register_flat p now (s : gateway * W) : runtime_register p now s =
  (r ← register_claim p now; found ← sync_look p; _ ← sync_write p found;
   task ← look (initial_task (rp_session p) (rp_agent p));
   let '(body, _, _) := task in
   _ ← put_runtime (rp_runtime p) (set_task body r);
   _ ← emit r "RUNTIME_STATE" [("state", VStr "active"); ("runtime", VStr (rp_kind p));
                               ("backend_session_id", VStr (rp_backend p))] now;
   mret task) s.
Proof.
  unfold runtime_register. rewrite !st_bind_unfold. destruct (register_claim p now s) as [[r|e] s1] eqn:Hc; [|done].
  apply claim_record in Hc as [Hr _]. rewrite !st_bind_unfold.
  destruct (sync_run p s1) as (found & s2 & -> & H2). rewrite !st_bind_unfold.
  destruct (sync_written p found s2) as (s3 & -> & H3). unfold register_tell. rewrite !st_bind_unfold, look_run.
  destruct (initial_task _ _ s3.1) as [[body ?] ?]. unfold held_record. rewrite !st_bind_unfold, require_run.
  by rewrite H3, H2, Hr.
Qed.
Lemma bind_put {A} rid r (k : unit -> st (gateway * W) A) s :
  (put_runtime rid r ≫= k) s = k tt (put_runtime rid r s).2.
Proof. done. Qed.
Lemma register_leaves p now (s : gateway * W) : is_ok (register_checks p s).1 = true ->
  exists epoch task, dget (g_runtimes (runtime_register p now s).2.1) (rp_runtime p) =
    Some (set_task task (registered p epoch now)).
Proof.
  rewrite <- (claim_admits p now), register_flat, st_bind_unfold.
  destruct (register_claim p now s) as [[r|e] s1] eqn:Hc; [|done]. intros _.
  apply claim_record in Hc as [_ [epoch ->]]. rewrite st_bind_unfold.
  destruct (sync_run p s1) as (found & s2 & -> & _). rewrite st_bind_unfold.
  destruct (sync_written p found s2) as (s3 & -> & _). rewrite st_bind_unfold, look_run.
  destruct (initial_task _ _ s3.1) as [[body ?] ?]. rewrite bind_put. exists epoch, body.
  match goal with |- dget (g_runtimes ((?m ≫= ?k) ?s0).2.1) _ = ?x =>
    apply (preserves_bind (fun s : gateway * W => dget (g_runtimes s.1) (rp_runtime p) = x) m k) end.
  - intros s0. unfold emit, on_events, on_gw. simpl. done.
  - intros ?. apply preserves_ret.
  - simpl. apply dget_dset_eq.
Qed.

(** A registration between the steps of a stop or of a context change: the call
    goes on with the record that it found, and the control store ends up with
    the generation and the nonce of the owner before, while the gateway has the
    new runtime, alive. *)
Theorem stop_overtaken x i c p e now now'
  (Hc : c = ContextPersist (rp_runtime p) \/ exists why, c = StopMark (rp_runtime p) why)
  (Hi : calls x !! i = Some (c, None))
  (He : dget (g_runtimes (sys_state x).1) (rp_runtime p) = Some e) (Hid : id_runtime (rr_id e) = rp_runtime p)
  (Hreg : is_ok (register_checks p (sys_state x)).1 = true) :
  let x1 := served (Register p) now x in
  let x2 := called_on i c (Some e) now' x1 in
  calls x1 !! i = Some (c, Some e) /\ overtaken x2 = rp_runtime p :: overtaken x /\
  exists r row, dget (g_runtimes (sys_state x2).1) (rp_runtime p) = Some r /\
    generations (g_ctl (sys_state x2).1) !! rp_runtime p = Some row /\
    rr_status r = "active" /\ id_generation (rr_id r) = rp_generation p /\ id_nonce (rr_id r) = rp_nonce p /\
    gn_current row = id_generation (rr_id e) /\ gn_nonce row = id_nonce (rr_id e).
Proof.
  intros x1 x2.
  assert (Hrid : call_rid c = Some (rp_runtime p)) by by destruct Hc as [->|[why ->]].
  assert (Hlook : calls x1 !! i = Some (c, Some e)).
  { simpl. rewrite list_lookup_fmap, Hi. simpl. unfold let_go. simpl. rewrite Hrid. simpl.
    rewrite String.eqb_refl, Hreg. simpl. by rewrite He. }
  split; [done|]. split; [destruct Hc as [->|[why ->]]; done|].
  assert (Hx1 : exists r, dget (g_runtimes (sys_state x1).1) (rp_runtime p) = Some r /\
    rr_status r = "active" /\ id_generation (rr_id r) = rp_generation p /\ id_nonce (rr_id r) = rp_nonce p).
  { destruct (register_leaves p now (sys_state x) Hreg) as (epoch & task & Ht).
    exists (set_task task (registered p epoch now)). split; [|done].
    simpl. unfold drop_answer. rewrite st_bind_unfold.
    destruct (runtime_register p now (sys_state x)) as [[] s1]; exact Ht. }
  destruct Hx1 as (r & Hr & Hact & Hgen & Hnonce). clearbody x1. exists r.
  destruct Hc as [->|[why ->]]; simpl; rewrite Hid, lookup_insert_eq; eexists; split_and!; done.
Qed.

(** ** Sending a command twice, and to the end *)

(** A call for a request that is on record never reaches the mailbox: in its
    first step it answers with the row as it stands when the payload is the
    same, and refuses another payload, an unknown runtime or an empty name; the
    gateway stays as it is. *)
Theorem command_replay p now s row
  (Hrow : commands (g_ctl s.1) !! sp_request p = Some row) :
  send_step p Starting now s =
  (Answered
    (if String.eqb (sp_runtime p) "" || String.eqb (sp_request p) "" then Raise (GatewayError "PROTOCOL")
     else match dget (g_runtimes s.1) (sp_runtime p) with
          | None => Raise (GatewayError "NOT_FOUND")
          | Some _ =>
            if String.eqb (payload_hash p) "" then Raise (GatewayError "PROTOCOL")
            else if String.eqb (cm_hash row) (payload_hash p) then Ok (_command_result (sp_request p) row)
            else Raise (GatewayError "IDEMPOTENCY_CONFLICT")
          end), s).
Proof.
  unfold send_step. simpl. unfold send_start. rewrite st_bind_unfold, ensure_run.
  destruct (_ || _); simpl; [done|]. rewrite st_bind_unfold, require_run.
  destruct (dget _ _); [|done]. rewrite st_bind_unfold, ensure_run.
  destruct (payload_hash p =? "")%string; simpl; [done|].
  rewrite st_bind_unfold, get_command_run, Hrow, st_bind_unfold, ensure_run.
  by destruct (cm_hash row =? payload_hash p)%string.
Qed.

(** How far a call is from its answer, but for waiting. *)
Definition rank (ph : send_phase) : nat :=
  match ph with
  | Starting => 8 | Checked _ => 7 | Enqueued _ => 6 | Persisted _ _ => 5 | Marked _ => 4
  | Waiting _ _ => 3 | Gating _ => 2 | Reviving _ => 1 | Answered _ => 0
  end.
(** The wait of a call ends by [d]. *)
Definition ends_by (d : Z) (ph : send_phase) : Prop :=
  match ph with Waiting _ d' => d' <= d | _ => True end.
Definition successor (p : send_params) (ph : send_phase) (now : Z) (ph' : send_phase) : Prop :=
  (rank ph' <= rank ph - 1 /\ (rank ph' = 3%nat -> exists r, ph' = Waiting r (now + sp_wait_ms p)))%nat \/
  exists r r' d, ph = Waiting r d /\ ph' = Waiting r' d /\ now < d.
Ltac next_phase := yielding; unfold successor; simpl in *; left; (split; [lia|first [done|by eexists]]).
Lemma send_next_successor p ph now : yields (successor p ph now) (send_next (W := W) p ph now).
Proof.
  destruct ph as [|r|r|r mid|r|r d|r|r|v]; simpl.
  - unfold send_start, refuse. next_phase.
  - unfold send_enqueue. next_phase.
  - unfold send_persist, refuse. case_bool_decide; [next_phase|]. intros s a.
    destruct (on_session _ _ _) as [[rc|e] s1]; [destruct (v_status rc =? "failed")%string|];
      [|intros [= <-]; unfold successor; simpl; left; split; [lia|done]|].
    all: match goal with |- (?m ?s).1 = _ -> _ => apply (fun H : yields (successor p (Enqueued r) now) m => H s a) end; next_phase.
  - next_phase.
  - next_phase.
  - destruct ((now <? d) && _) eqn:Hw; [|next_phase]. bool_to_prop. yielding. unfold successor. right. by eexists _, _, _.
  - unfold send_gate. next_phase.
  - unfold send_revive. intros s a. destruct (on_ext _ _) as [[[ok m]|e] s1]; repeat case_match.
    all: match goal with |- (?m ?s).1 = _ -> _ => apply (fun H : yields (successor p (Reviving r) now) m => H s a) end; next_phase.
  - next_phase.
Qed.
Lemma send_step_successor p ph now s : successor p ph now (send_step (W := W) p ph now s).1.
Proof.
  pose proof (send_next_successor p ph now s) as Hn. unfold send_step.
  destruct (send_next p ph now s) as [[ph'|e] s']; simpl in *; [by apply Hn|].
  left. simpl. split; [lia|done].
Qed.
Lemma successor_rank p ph now ph' : successor p ph now ph' -> (rank ph' <= Nat.max 3 (rank ph - 1))%nat.
Proof. intros [[Hr _]|(r & r' & d & -> & -> & _)]; simpl; lia. Qed.
Lemma successor_ends p ph now ph' d :
  successor p ph now ph' -> now + sp_wait_ms p <= d -> ends_by d ph -> ends_by d ph'.
Proof.
  intros [[_ Hw]|(r & r' & d0 & -> & -> & _)] Hd; [|done].
  destruct ph'; simpl; try done. destruct (Hw eq_refl) as [r1 [= _ ->]]. done.
Qed.
Lemma successor_late p ph now ph' d :
  successor p ph now ph' -> ends_by d ph -> d <= now -> (rank ph' <= rank ph - 1)%nat /\ ends_by (now + sp_wait_ms p) ph'.
Proof.
  intros [[Hr Hw]|(r & r' & d0 & -> & -> & Hlt)] He Hd; simpl in *; [|lia]. split; [done|].
  destruct ph'; simpl; try done. destruct (Hw eq_refl) as [r1 [= _ ->]]. lia.
Qed.

Lemma send_among_app p ph l1 l2 (s : gateway * W) :
  send_among p ph (l1 ++ l2) s = send_among p (send_among p ph l1 s).1 l2 (send_among p ph l1 s).2.
Proof. revert ph s. induction l1 as [|[now f] l1 IH]; intros ph s; simpl; [done|]. apply IH. Qed.
Lemma send_among_early p ph l (s : gateway * W) d :
  Forall (fun x => x.1 + sp_wait_ms p <= d) l -> ends_by d ph ->
  (rank (send_among p ph l s).1 <= Nat.max 3 (rank ph - length l))%nat /\ ends_by d (send_among p ph l s).1.
Proof.
  intros Hl. revert ph s. induction Hl as [|[now f] l Hx _ IH]; intros ph s He; simpl in *; [split; [lia|done]|].
  pose proof (send_step_successor p ph now (f s)) as Hsucc.
  destruct (IH (send_step p ph now (f s)).1 (send_step p ph now (f s)).2) as [Hr He'].
  - by eapply successor_ends.
  - apply successor_rank in Hsucc. split; [lia|done].
Qed.
Lemma send_among_late p ph l (s : gateway * W) d :
  Forall (fun x => d <= x.1) l -> ends_by d ph -> (rank ph <= 3)%nat ->
  (rank (send_among p ph l s).1 <= rank ph - length l)%nat.
Proof.
  intros Hl. revert ph s. induction Hl as [|[now f] l Hx _ IH]; intros ph s He Hr; simpl in *; [lia|].
  pose proof (send_step_successor p ph now (f s)) as Hsucc.
  pose proof (successor_late _ _ _ _ _ Hsucc He Hx) as [Hr' _].
  assert (He' : ends_by d (send_step p ph now (f s)).1).
  { destruct (send_step p ph now (f s)).1; simpl in *; try done. lia. }
  specialize (IH _ (send_step p ph now (f s)).2 He'). lia.
Qed.

(** A call of [runtime_send] answers, whatever the others do between its
    steps: five steps, then three more once the clock has passed the time it
    was allowed to wait, and it has returned or raised. *)
Theorem send_answers p l1 l2 (s : gateway * W) t
  (Hearly : Forall (fun x => x.1 <= t) l1) (Hlate : Forall (fun x => t + sp_wait_ms p <= x.1) l2)
  (H5 : (5 <= length l1)%nat) (H3 : (3 <= length l2)%nat) :
  exists v, (send_among p Starting (l1 ++ l2) s).1 = Answered v.
Proof.
  rewrite send_among_app.
  destruct (send_among_early p Starting l1 s (t + sp_wait_ms p)) as [Hr He]; [|done|].
  { eapply Forall_impl; [exact Hearly|]. simpl. lia. }
  pose proof (send_among_late p _ l2 (send_among p Starting l1 s).2 _ Hlate He) as Hf. simpl in Hr.
  destruct (send_among p _ l2 _).1 eqn:Hph; simpl in Hf; try lia. by eexists.
Qed.

(** ** What the protocol of commands does not hold *)

(** The call of [runtime_send] that wrote the message puts its command back to
    QUEUED in its next step, whatever happened to it meanwhile: a plugin that
    has already acknowledged TURN_TRIGGERED, a final state, finds the command
    queued again, and the same acknowledgement is accepted once more. *)
Theorem late_ack_overwritten p r mid a now now' s row
  (Hrow : commands (g_ctl s.1) !! sp_request p = Some row) (Hq : cm_state row = CMD_QUEUED)
  (Hreq : ak_request a = sp_request p) (Hstate : ak_state a = CMD_TURN_TRIGGERED)
  (Hfor : addressed a row) :
  let s1 := (runtime_command_ack a now s).2 in
  let s2 := (send_step p (Persisted r mid) now' s1).2 in
  let state_in (x : gateway * W) := cm_state <$> commands (g_ctl x.1) !! sp_request p in
  state_in s1 = Some CMD_TURN_TRIGGERED /\ CMD_TRANSITIONS CMD_TURN_TRIGGERED = [] /\
  state_in s2 = Some CMD_QUEUED /\ is_ok (runtime_command_ack a now' s2).1 = true.
Proof.
  intros s1 s2 state_in.
  assert (Hchain : acceptable CMD_QUEUED (ak_state a)) by (rewrite Hstate; right; exists 0%nat, 4%nat; split_and!; [done|done|lia]).
  rewrite <- Hreq in Hrow. destruct (ack_run a now s row Hrow Hfor) as [Ha _].
  rewrite <- Hq in Hchain. destruct (Ha Hchain) as (row1 & (H1 & _ & _ & Hsame & Hs1) & _). fold s1 in Hs1.
  assert (Hrow1 : commands (g_ctl s1.1) !! sp_request p = Some row1)
    by (rewrite Hs1, <- Hreq; simpl; by rewrite lookup_insert_eq).
  set (u := {| up_state := Some CMD_QUEUED; up_msg := Some mid; up_turn := None; up_epoch := None;
    up_backend := None; up_detail := Some [("mailbox", VStr "persisted"); ("msg_id", VStr mid)] |}).
  assert (Hrow2 : commands (g_ctl s2.1) !! sp_request p = Some (updated u now' row1))
    by exact (commands_update_eq _ u now' (g_ctl s1.1) row1 eq_refl Hrow1).
  unfold state_in. rewrite Hrow1, Hrow2. simpl. split_and!; [by rewrite H1, Hstate|done|done|].
  rewrite <- Hreq in Hrow2. destruct (ack_run a now' s2 _ Hrow2) as [Hb _].
  - destruct Hfor as (? & ? & Ho & Hg), Hsame as (_ & Hrt & Hgn & _). split_and!; [done|done|..].
    + simpl. by rewrite Hrt.
    + intros g. simpl. rewrite Hgn. apply Hg.
  - rewrite Hq in Hchain. by destruct (Hb Hchain) as (? & _ & ->).
Qed.
End laws4.

(** ** Runs of the system, executed *)
Section exec.
Context {W : Type} `{Backends W}.
Inductive action :=
| Call (p : send_params) | Step (i : nat) (now : Z) | Serve (r : request) (now : Z)
| Begin (c : call_phase) | Go (i : nat) (now : Z).
Definition exec1 (x : system (W := W)) (a : action) : system :=
  match a with
  | Call p => call_sent p x
  | Step i now => match threads x !! i with Some (p, ph) => sent_on i p ph now x | None => x end
  | Serve r now => served r now x
  | Begin c => if begins c then begun c x else x
  | Go i now => match calls x !! i with Some (c, held) => called_on i c held now x | None => x end
  end.
Lemma sys_step_exec x y : sys_step x y -> exists a, y = exec1 x a.
Proof.
  intros [p|i p ph now Hi|r now|c Hc|i c held now Hi].
  - by exists (Call p).
  - exists (Step i now). simpl. by rewrite Hi.
  - by exists (Serve r now).
  - exists (Begin c). simpl. by rewrite Hc.
  - exists (Go i now). simpl. by rewrite Hi.
Qed.
Lemma exec_steps l x : rtc sys_step x (foldl exec1 x l).
Proof.
  revert x. induction l as [|a l IH]; intros x; simpl; [done|].
  destruct a as [p|i now|r now|c|i now]; simpl.
  - eapply rtc_l; [apply step_call|apply IH].
  - destruct (threads x !! i) as [[p ph]|] eqn:Hi; [|apply IH]. eapply rtc_l; [by eapply step_send|apply IH].
  - eapply rtc_l; [apply step_request|apply IH].
  - destruct (begins c) eqn:Hc; [|apply IH]. eapply rtc_l; [by apply step_begin|apply IH].
  - destruct (calls x !! i) as [[c held]|] eqn:Hi; [|apply IH]. eapply rtc_l; [by eapply step_phase|apply IH].
Qed.
End exec.

(** ** A gateway to try the theorems on *)
Definition demo_backends : Backends unit := {|
  park_session _ := mret (Some "s1"); park_renew _ := mret tt;
  hot_manifest := unit; park_hot _ := mret (Some tt); park_rebind _ _ _ := mret tt;
  park_revive _ _ := mret (true, "hot"); park_release _ := mret tt;
  driver_spawn _ _ _ := mret {| hd_runtime := "rt9"; hd_generation := 1; hd_backend := "b9"; hd_host := "here" |};
  driver_stop _ _ := mret tt; driver_probe _ := mret true; engine_sweep := mret tt;
  kernel_open _ _ _ := mret tt; kernel_join _ _ _ := mret tt; kernel_leave _ _ := mret tt;
  kernel_direct _ _ _ _ := mret ("m1", "delivered");
  file_facts path := if String.eqb path "out.txt" then Some (3, "beef") else None;
  sha256 s := s; json_dumps _ := "{}"; json_loads _ := None; py_repr _ := "?"; local_host := "here" |}.
Definition empty_gateway : gateway := {|
  g_runtimes := []; g_ctl := empty_control; g_events := empty_events; g_mail := ∅; g_ledgers := ∅;
  g_hub := {| h_claims := []; h_merges := ∅; h_merges_file := []; h_peers := []; h_peers_file := [];
              h_swept := 0 |} |}.
Definition demo_register : register_params := {|
  rp_session := "s1"; rp_agent := "w1"; rp_runtime := "rt1"; rp_generation := 1; rp_review := "";
  rp_backend := "b1"; rp_kind := "omp"; rp_owner_pid := 7; rp_nonce := "n"; rp_caps := [] |}.
Definition demo_send (body uuid : string) : send_params := {|
  sp_runtime := "rt1"; sp_request := "q1"; sp_body := body; sp_hash := ""; sp_from := "mgr";
  sp_subject := "do"; sp_kind := "TASK"; sp_reply_to := ""; sp_run_id := "r1"; sp_require_ack := false;
  sp_wait := true; sp_wait_ms := 1000; sp_uuid := uuid; sp_suffix := uuid |}.
Definition demo_start : system (H := demo_backends) := started (H := demo_backends) (empty_gateway, tt).
Definition demo_open : list (action (H := demo_backends)) :=
  [Serve (SessionEnsure "s1" "mgr" ["w1"; "w2"] None) 1700000000000;
   Serve (Register demo_register) 1700000001000].
(** Two calls for one request, which overtake each other. *)
Definition demo_race : list (action (H := demo_backends)) := demo_open ++
  [Call (demo_send "go" "1"); Call (demo_send "go" "2");
   Step 0 1700000002000; Step 1 1700000002000; Step 1 1700000002001; Step 0 1700000002002;
   Step 1 1700000002003; Step 1 1700000002004; Serve SweepOnce 1700000002005; Step 1 1700000002006;
   Step 1 1700000002007].
Definition demo_gateway : gateway * unit :=
  sys_state (foldl (exec1 (H := demo_backends)) demo_start demo_open).
Definition demo_queued : gateway * unit :=
  sys_state (foldl (exec1 (H := demo_backends)) demo_start
    (demo_open ++ [Call (demo_send "go" "1"); Step 0 1700000002000; Step 0 1700000002001])).
Definition demo_ack : ack_params := {|
  ak_request := "q1"; ak_state := CMD_TURN_TRIGGERED; ak_runtime := "rt1"; ak_turn := "t1";
  ak_generation := Some 1 |}.

Lemma one_write_per_request_witness :
  let x := foldl (exec1 (H := demo_backends)) demo_start demo_race in
  writes x = ["q1"] /\ NoDup (writes x).
Proof.
  cbv zeta. split; [vm_compute; reflexivity|].
  apply (one_write_per_request (H := demo_backends) (empty_gateway, tt)).
  exact (exec_steps (H := demo_backends) demo_race demo_start).
Defined.


(** A stop that waits for its driver while the runtime registers anew. *)
Definition demo_anew : register_params := {|
  rp_session := "s1"; rp_agent := "w1"; rp_runtime := "rt1"; rp_generation := 2; rp_review := "";
  rp_backend := "b2"; rp_kind := "omp"; rp_owner_pid := 8; rp_nonce := "n2"; rp_caps := [] |}.
Definition demo_stopping : system (H := demo_backends) :=
  foldl exec1 demo_start (demo_open ++ [Begin (StopFetch "rt1" "user"); Go 0 1700000002000; Go 0 1700000002001]).
Lemma stop_overtaken_witness : exists e,
  let x1 := served (H := demo_backends) (Register demo_anew) 1700000003000 demo_stopping in
  let x2 := called_on (H := demo_backends) 0 (StopMark "rt1" "user") (Some e) 1700000004000 x1 in
  calls x1 !! 0%nat = Some (StopMark "rt1" "user", Some e) /\ overtaken x2 = ["rt1"] /\ exists r row,
    dget (g_runtimes (sys_state x2).1) "rt1" = Some r /\
    generations (g_ctl (sys_state x2).1) !! "rt1" = Some row /\ rr_status r = "active" /\
    id_generation (rr_id r) = 2 /\ id_nonce (rr_id r) = "n2" /\
    gn_current row = id_generation (rr_id e) /\ gn_nonce row = id_nonce (rr_id e).
Proof.
  destruct (dget (g_runtimes (sys_state demo_stopping).1) "rt1") as [e|] eqn:He; [|vm_compute in He; discriminate].
  exists e. apply (stop_overtaken (H := demo_backends) demo_stopping 0 (StopMark "rt1" "user") demo_anew e
    1700000003000 1700000004000).
  - right. by exists "user".
  - vm_compute. reflexivity.
  - exact He.
  - vm_compute in He. injection He as <-. reflexivity.
  - vm_compute. reflexivity.
Defined.

Lemma ack_spec_witness : exists row row',
  commands (g_ctl demo_queued.1) !! "q1" = Some row /\ cm_state row = CMD_QUEUED /\
  tc can_follow CMD_QUEUED CMD_TURN_TRIGGERED /\
  acked demo_ack row row' demo_queued (runtime_command_ack demo_ack 1700000003000 demo_queued).2.
Proof.
  destruct (commands (g_ctl demo_queued.1) !! "q1") as [row|] eqn:Hrow; [|vm_compute in Hrow; discriminate].
  pose proof Hrow as Hq. vm_compute in Hq. injection Hq as Hq.
  destruct (ack_spec demo_ack 1700000003000 demo_queued row Hrow) as (Ha & _ & _).
  { rewrite <- Hq. split_and!; [apply (bool_decide_unpack _); vm_compute; exact I|discriminate|right; reflexivity|].
    intros g [= <-]. vm_compute. discriminate. }
  destruct Ha as (Hp & row' & Hr & _).
  { right. exists 0%nat, 4%nat. rewrite <- Hq. split_and!; [reflexivity|reflexivity|lia]. }
  assert (Hst : cm_state row = CMD_QUEUED) by (rewrite <- Hq; reflexivity).
  exists row, row'. split_and!; [reflexivity|exact Hst|rewrite <- Hst; exact Hp|exact Hr].
Defined.

Lemma command_replay_witness :
  exists row, commands (g_ctl demo_queued.1) !! "q1" = Some row /\
  send_step (H := demo_backends) (demo_send "other" "9") Starting 1700000003000 demo_queued =
  (Answered (Raise (GatewayError "IDEMPOTENCY_CONFLICT")), demo_queued).
Proof.
  destruct (commands (g_ctl demo_queued.1) !! "q1") as [row|] eqn:Hrow; [|vm_compute in Hrow; discriminate].
  exists row. split; [reflexivity|].
  rewrite (command_replay (H := demo_backends) (demo_send "other" "9") 1700000003000 demo_queued row Hrow).
  vm_compute in Hrow. injection Hrow as <-. vm_compute. reflexivity.
Defined.

Lemma send_answers_witness : exists v,
  (send_among (H := demo_backends) (demo_send "go" "1") Starting
    (replicate 5 (1700000002000, fun s => (dispatch (H := demo_backends) SweepOnce 1700000002000 s).2) ++
     replicate 3 (1700000004000, fun s => s)) demo_gateway).1 = Answered v.
Proof.
  apply (send_answers (H := demo_backends) (demo_send "go" "1") _ _ demo_gateway 1700000002000).
  - repeat constructor; simpl; lia.
  - repeat constructor; simpl; lia.
  - simpl. lia.
  - simpl. lia.
Defined.

Lemma late_ack_overwritten_witness : exists r,
  let s1 := (runtime_command_ack demo_ack 1700000003000 demo_queued).2 in
  let s2 := (send_step (H := demo_backends) (demo_send "go" "1") (Persisted r "m1") 1700000003001 s1).2 in
  (cm_state <$> commands (g_ctl s2.1) !! "q1") = Some CMD_QUEUED /\
  is_ok (runtime_command_ack demo_ack 1700000003001 s2).1 = true.
Proof.
  destruct (dget (g_runtimes demo_queued.1) "rt1") as [r|] eqn:Hr; [|vm_compute in Hr; discriminate].
  exists r. cbv zeta.
  destruct (commands (g_ctl demo_queued.1) !! "q1") as [row|] eqn:Hrow; [|vm_compute in Hrow; discriminate].
  destruct (late_ack_overwritten (H := demo_backends) (demo_send "go" "1") r "m1" demo_ack 1700000003000 1700000003001
    demo_queued row Hrow) as (_ & _ & H2 & H3).
  - vm_compute in Hrow. injection Hrow as <-. reflexivity.
  - reflexivity.
  - reflexivity.
  - vm_compute in Hrow. injection Hrow as <-.
    split_and!; [apply (bool_decide_unpack _); vm_compute; exact I|discriminate|right; reflexivity|].
    intros g [= <-]. vm_compute. discriminate.
  - split; [exact H2|exact H3].
Defined.
