(* ===== verification/GatewayState.v ===== *)
(** * Runtimes, roles and merges of the gateway over its requests

    Who may take over a runtime, how presence decays, who holds a role, which
    merge is on record, and what the protocol of events does not reach. *)
From S2P Require Import Prelude MailboxProtocol RequestLedger MailboxStore MailboxClaims.
From S2P Require Import MailboxService GatewayStores GatewayService GatewayLaws.

(** ** The identities on record *)
Definition identities (g : gateway) : list (string * identity) :=
  map (fun x => (fst x, rr_id (snd x))) (g_runtimes g).
Lemma dset_map {A B} (f : A -> B) (l : list (string * A)) k a :
  map (fun x => (fst x, f (snd x))) (dset l k a) = dset (map (fun x => (fst x, f (snd x))) l) k (f a).
Proof. induction l as [|[k' b] l IH]; simpl; [done|]. destruct (k =? k')%string; simpl; [done|by rewrite IH]. Qed.
Lemma dset_same {A} (l : list (string * A)) k a : dget l k = Some a -> dset l k a = l.
Proof.
  induction l as [|[k' b] l IH]; simpl; [done|]. destruct (String.eqb_spec k k') as [->|].
  - by intros [= ->].
  - intros Hk. by rewrite IH.
Qed.

Section state.
Context {W : Type} `{Backends W}.
Implicit Types s : gateway * W.

(** No identity is new or changed. *)
Section same_identities.
Context (ids : list (string * identity)).
Definition kept (g : gateway) : Prop :=
  dict_wf (g_runtimes g) /\ forall rid i, dget (identities g) rid = Some i -> dget ids rid = Some i.
Notation P := (holds (W := W) kept).
Lemma kept_put rid r : dget ids rid = Some (rr_id r) -> preserves P (put_runtime rid r).
Proof.
  intros Hr s [Hwf Hs]. split; simpl; [by apply dset_wf|].
  intros rid' i. unfold identities. simpl. rewrite dset_map, dget_dset. case_decide as Hd; [|apply Hs].
  subst. by intros [= <-].
Qed.
Lemma kept_dget g rid r : kept g -> dget (g_runtimes g) rid = Some r -> dget ids rid = Some (rr_id r).
Proof. intros [_ Hs] Hr. apply Hs. unfold identities. by rewrite dget_map, Hr. Qed.
Lemma kept_look {A} rid (k : RuntimeRecord -> st (gateway * W) A) :
  (forall r, dget ids rid = Some (rr_id r) -> preserves P (k r)) -> preserves P (_require_runtime rid ≫= k).
Proof.
  intros Hk s Hs. rewrite st_bind_unfold, require_run. destruct (dget (g_runtimes s.1) rid) as [r|] eqn:Hr; [|done].
  apply Hk; [by eapply kept_dget|done].
Qed.
Lemma kept_drop l : preserves P (upd (drop_runtimes l)).
Proof.
  apply holds_upd. intros g [Hwf Hs]. split.
  - unfold dict_wf. eapply sublist_NoDup; [exact Hwf|]. apply map_sublist, List_filter_sublist.
  - intros rid i. unfold identities in *. simpl. rewrite dget_map, dget_filter_keys.
    case_bool_decide; [done|]. intros Hi. apply Hs. by rewrite dget_map.
Qed.
(** A pass over the runtimes that puts records with their identities back. *)
Lemma kept_pass (f : string * RuntimeRecord -> st (gateway * W) unit) {A} (m : list (string * RuntimeRecord) -> st (gateway * W) A) :
  (forall x, dget ids (fst x) = Some (rr_id (snd x)) -> preserves P (f x)) -> (forall rs, preserves P (m rs)) ->
  preserves P (rs ← look g_runtimes; _ ← st_iter f rs; m rs).
Proof.
  intros Hf Hm s Hs. rewrite st_bind_unfold, look_run.
  apply (preserves_bind P (st_iter f (g_runtimes s.1)) (fun _ => m (g_runtimes s.1))); [|done|done].
  apply preserves_iter. intros [k r] Hx. apply Hf. destruct Hs as [Hwf Hs].
  apply (dget_elem_of _ _ _ Hwf) in Hx. by apply (kept_dget s.1).
Qed.
End same_identities.
Ltac kept_change := idtac; lazymatch goal with
  | |- preserves _ (_require_runtime _ ≫= _) => apply kept_look; intros ? ?
  | |- preserves _ (held_record _ None ≫= _) => apply kept_look; intros ? ?
  | |- preserves _ (put_runtime _ _) => apply kept_put; try done
  | |- preserves _ (upd (drop_runtimes _)) => apply kept_drop
  end.
(** The requests that may set up an identity. *)
Definition sets_identity (r : request) : bool :=
  match r with Register _ | DeclareRuntime _ _ _ _ | Spawn _ _ _ _ _ => true | _ => false end.
Lemma dispatch_kept ids r now : sets_identity r = false -> preserves (holds (W := W) (kept ids)) (dispatch r now).
Proof.
  destruct r; simpl; intros Hr; try done; unfold drop_answer; try by (following kept_change).
  - following kept_change. by case_match.
  - following kept_change. by rewrite reduce_event_id.
  - following kept_change. rewrite reduce_lifecycle_id. by case_match.
  - apply preserves_bind; [|intros; apply preserves_ret]. unfold _sweep_once.
    apply (kept_pass ids (sweep_offline now) (fun rs => _)); [|intros rs].
    + intros x Hx. unfold sweep_offline. following kept_change.
    + apply (kept_pass ids (sweep_dead now) (fun _ => _)); [|intros rs'].
      * intros x Hx. unfold sweep_dead. following kept_change.
      * following kept_change.
Qed.

(** [b] may stand where [a] stood. *)
Definition succeeds (a b : identity) : Prop :=
  id_generation a <= id_generation b /\ id_epoch a <= id_epoch b /\
  (id_generation a = id_generation b -> id_owner_pid a <> 0 \/ id_nonce a <> "" ->
   id_owner_pid b = id_owner_pid a /\ id_nonce b = id_nonce a).
Lemma succeeds_eq a b : Some a = Some b -> succeeds a b.
Proof. intros [= <-]. split_and!; [lia|lia|done]. Qed.
(** The requests that replace a record without a look at it. *)
Definition replaces (r : request) : bool :=
  match r with
  | Spawn _ _ _ _ _ => true
  | DeclareRuntime _ _ runtime_id _ => String.eqb runtime_id ""
  | _ => false
  end.

(** What a registration does. *)
Lemma read_meta_run sid s :
  read_meta sid s = match validate_agent_id sid with
                    | Ok _ => (Ok (meta (default empty_session (g_mail s.1 !! sid))), s)
                    | Raise e => (Raise e, s)
                    end.
Proof.
  unfold read_meta. rewrite st_bind_unfold. unfold on_gw at 1, lift. destruct s as [g w]. simpl.
  destruct (validate_agent_id sid); [|done]. by rewrite look_run.
Qed.
Definition in_roster (sid aid : string) s : Prop := exists m, validate_agent_id sid = Ok tt /\
  meta (default empty_session (g_mail s.1 !! sid)) = Some m /\ aid ∈ roster m.
Lemma roster_check_run {A} sid aid (a : A) s :
  let m := (m ← read_meta sid;
    _ ← ensure (match m with Some mm => bool_decide (aid ∈ roster mm) | None => false end)
          (GatewayError "NOT_AUTHORIZED"); mret a : st (gateway * W) A) in
  (m s = (Ok a, s) /\ in_roster sid aid s) \/ (exists e, m s = (Raise e, s)) /\ ~ in_roster sid aid s.
Proof.
  intros m. unfold m, in_roster. rewrite st_bind_unfold, read_meta_run.
  destruct (validate_agent_id _) as [[]|e] eqn:Hv; [|right; split; [by eexists|by intros (? & ? & _)]].
  rewrite st_bind_unfold, ensure_run. destruct (meta _) as [mm|] eqn:Hm;
    [|right; split; [by eexists|by intros (? & _ & ? & _)]].
  case_bool_decide; [left; split; [done|by exists mm]|right; split; [by eexists|]].
  intros (mm' & _ & [= <-] & ?). done.
Qed.
Definition may_take_over (p : register_params) (e : option RuntimeRecord) : Prop :=
  forall r, e = Some r -> id_generation (rr_id r) <= rp_generation p /\ other_owner p (rr_id r) = false.
Definition admitted (p : register_params) s : Prop :=
  (rp_session p <> "" /\ rp_agent p <> "" /\ rp_runtime p <> "") /\
  may_take_over p (dget (g_runtimes s.1) (rp_runtime p)) /\ in_roster (rp_session p) (rp_agent p) s.
Lemma register_checks_run p s :
  (register_checks p s = (Ok (dget (g_runtimes s.1) (rp_runtime p)), s) /\ admitted p s) \/
  (exists e, register_checks p s = (Raise e, s)) /\ ~ admitted p s.
Proof.
  unfold register_checks, admitted. rewrite st_bind_unfold, ensure_run.
  destruct (negb _) eqn:Hn; [|right; split; [by eexists|]].
  2: { intros ((H1 & H2 & H3) & _). apply String.eqb_neq in H1, H2, H3. by rewrite H1, H2, H3 in Hn. }
  bool_to_prop. repeat match goal with H : _ || _ = false |- _ => apply orb_false_iff in H as [? ?] end. bool_to_prop.
  rewrite st_bind_unfold, look_run. rewrite st_bind_unfold.
  destruct (dget (g_runtimes s.1) (rp_runtime p)) as [r|]; unfold may_take_over.
  - rewrite st_bind_unfold, ensure_run. destruct (_ <=? _) eqn:Hg; bool_to_prop;
      [|right; split; [by eexists|intros (_ & Ht & _); destruct (Ht r eq_refl); lia]].
    rewrite ensure_run. destruct (negb _) eqn:Ho; bool_to_prop;
      [|right; split; [by eexists|intros (_ & Ht & _); destruct (Ht r eq_refl); congruence]].
    destruct (roster_check_run (rp_session p) (rp_agent p) (Some r) s) as [[-> ?]|[? Hno]]; [left|right; tauto].
    split_and!; [done..| |done]. by intros r' [= <-].
  - destruct (roster_check_run (rp_session p) (rp_agent p) (@None RuntimeRecord) s)
      as [[Heq ?]|[[e Heq] Hno]];
      [left; split; [exact Heq|by split_and!]|right; split; [exists e; exact Heq|tauto]].
Qed.
Lemma register_succeeds p s now e :
  admitted p s -> dget (g_runtimes s.1) (rp_runtime p) = Some e ->
  succeeds (rr_id e) (rr_id (registered p (next_epoch p (Some e)) now)).
Proof.
  intros (_ & Ht & _) He. destruct (Ht e He) as [Hg Ho]. unfold succeeds. simpl. split_and!; [done| |].
  - case_match; lia.
  - intros Heq Hany. unfold other_owner in Ho. rewrite (proj2 (Z.eqb_eq _ _) (eq_sym Heq)) in Ho. simpl in Ho.
    apply andb_false_iff in Ho as [Ho|Ho]; apply orb_false_iff in Ho as [H1 H2]; bool_to_prop; [|done].
    destruct Hany; congruence.
Qed.
Lemma bind_save {A} rid r now (k : unit -> st (gateway * W) A) s :
  (save_runtime rid r now ≫= k) s = k tt (save_runtime rid r now s).2.
Proof. done. Qed.
(** Setting up a record, and what follows without another identity. *)
Lemma kept_set_up {A} rid r now (k : unit -> st (gateway * W) A) s :
  dict_wf (g_runtimes s.1) ->
  (forall ids, dget ids rid = Some (rr_id r) -> preserves (holds (W := W) (kept ids)) (k tt)) ->
  kept (dset (identities s.1) rid (rr_id r)) ((save_runtime rid r now ≫= k) s).2.1.
Proof.
  intros Hwf Hk. rewrite bind_save. apply Hk; [apply dget_dset_eq|].
  split; simpl; [by apply dset_wf|]. intros rid' i. unfold identities. simpl. by rewrite dset_map.
Qed.
Lemma register_identities p now s : dict_wf (g_runtimes s.1) -> admitted p s ->
  kept (dset (identities s.1) (rp_runtime p)
          (rr_id (registered p (next_epoch p (dget (g_runtimes s.1) (rp_runtime p))) now)))
    (runtime_register p now s).2.1.
Proof.
  intros Hwf Ha. rewrite register_flat, st_bind_unfold. unfold register_claim. rewrite st_bind_unfold.
  destruct (register_checks_run p s) as [[-> _]|[_ Hno]]; [|done].
  set (r := registered _ _ _). set (k := fun _ : unit => _ ← mirror_review _ _ _ _ _; mret r).
  assert (Hk : kept (dset (identities s.1) (rp_runtime p) (rr_id r)) ((save_runtime (rp_runtime p) r now ≫= k) s).2.1).
  { apply kept_set_up; [done|]. intros ids Hids. following kept_change. }
  assert (Hrun : exists s1, (save_runtime (rp_runtime p) r now ≫= k) s = (Ok r, s1)).
  { rewrite bind_save. unfold k, mirror_review. by destruct (String.eqb (rp_review p) ""); eexists. }
  destruct Hrun as [s1 Hrun]. rewrite Hrun in *. cbv beta iota.
  set (ids := dset (identities s.1) (rp_runtime p) (rr_id r)) in *.
  assert (Hids : dget ids (rp_runtime p) = Some (rr_id r)) by apply dget_dset_eq. clearbody ids.
  match goal with |- kept ids (?m s1).2.1 => apply (fun Hm : preserves (holds (W := W) (kept ids)) m => Hm s1 Hk) end.
  following kept_change.
Qed.
Lemma identities_dget g rid e : dget (g_runtimes g) rid = Some e -> dget (identities g) rid = Some (rr_id e).
Proof. intros He. unfold identities. by rewrite dget_map, He. Qed.
Lemma kept_now s : dict_wf (g_runtimes s.1) -> kept (identities s.1) s.1.
Proof. by split. Qed.

Lemma drop_answer_state {A} (m : st (gateway * W) A) s : (drop_answer m s).2 = (m s).2.
Proof. unfold drop_answer. rewrite st_bind_unfold. by destruct (m s) as [[]]. Qed.
(** A record of the gateway that a declaration finds. *)
Lemma found_on_record rs runtime_id backend e0 gens :
  mirrored_in [] rs gens ->
  match (if String.eqb runtime_id "" then None else dget rs runtime_id) with
  | Some e => Some e | None => by_backend backend rs
  end = Some e0 -> dget rs (id_runtime (rr_id e0)) = Some e0.
Proof.
  intros [Hwf Hm] Hf.
  assert (Hkey : forall k, dget rs k = Some e0 -> dget rs (id_runtime (rr_id e0)) = Some e0)
    by (intros k Hk; destruct (Hm _ _ Hk) as [-> _]; done).
  destruct (String.eqb_spec runtime_id "") as [_|_]; [|destruct (dget rs runtime_id) eqn:Hd; [simplify_eq; by eapply Hkey|]].
  all: unfold by_backend in Hf; apply fmap_Some in Hf as ([k r] & Hx & ->); apply List.find_some in Hx as [Hx _];
    apply (Hkey k); apply (dget_elem_of _ _ _ Hwf); by apply list_elem_of_In.
Qed.
Lemma declare_identities k b runtime_id aid now s : mirrored s.1 -> runtime_id <> "" ->
  let g' := (runtime_declare k b runtime_id aid now s).2.1 in
  kept (identities s.1) g' \/
  dget (g_runtimes s.1) runtime_id = None /\ exists i, kept (dset (identities s.1) runtime_id i) g'.
Proof.
  intros Hok Hne g'. subst g'. pose proof (kept_now s (proj1 Hok)) as Hkept.
  unfold runtime_declare. rewrite st_bind_unfold, ensure_run. destruct (negb _); [|by left].
  rewrite st_bind_unfold, ensure_run. destruct (negb _); [|by left]. rewrite st_bind_unfold.
  unfold on_ext. destruct (park_session k s.2) as [[[sid|]|e] w]; simpl fst; simpl snd; [|by left|by left].
  rewrite st_bind_unfold, look_run. simpl fst. apply String.eqb_neq in Hne. rewrite Hne.
  pose proof (found_on_record (g_runtimes s.1) runtime_id b) as Hfound. rewrite Hne in Hfound.
  destruct (match dget (g_runtimes s.1) runtime_id with Some e => Some e | None => by_backend b (g_runtimes s.1) end)
    as [e0|] eqn:He.
  - left. specialize (Hfound e0 _ Hok eq_refl). apply identities_dget in Hfound.
    match goal with |- kept _ (?m ?s0).2.1 => apply (fun Hm : preserves (holds (kept (identities s.1))) m => Hm s0) end; [|done].
    unfold save_runtime. following kept_change.
  - right. split; [by destruct (dget (g_runtimes s.1) runtime_id)|]. eexists.
    apply (kept_set_up runtime_id _ now _ (s.1, w)); [by apply Hok|]. intros ids Hids. following kept_change.
Qed.

(** C14: A runtime that stays on record through a request never goes back to an
    older generation or binding epoch, and keeps its owner and nonce as long as
    its generation stays, unless none was on record; only starting a driver, or
    a declaration that names no runtime, replaces a record without that. *)
Theorem owner_kept r now s rid e e'
  (Hok : mirrored s.1) (Hr : replaces r = false)
  (Hbefore : dget (g_runtimes s.1) rid = Some e)
  (Hafter : dget (g_runtimes (dispatch r now s).2.1) rid = Some e') :
  succeeds (rr_id e) (rr_id e').
Proof.
  pose proof (proj1 Hok) as Hwf. pose proof (identities_dget _ _ _ Hbefore) as Hid.
  apply identities_dget in Hafter.
  assert (Hsame : forall ids, kept ids (dispatch r now s).2.1 -> dget ids rid = Some (rr_id e')).
  { intros ids [_ Hk]. by apply Hk. }
  assert (Hstay : kept (identities s.1) (dispatch r now s).2.1 -> succeeds (rr_id e) (rr_id e')).
  { intros Hk%Hsame. apply succeeds_eq. congruence. }
  destruct (sets_identity r) eqn:Hsets; [|by apply Hstay, dispatch_kept, kept_now].
  destruct r; try done; unfold dispatch in Hsame, Hstay; rewrite drop_answer_state in Hsame, Hstay.
  - destruct (register_checks_run p s) as [[Hc Ha]|[[x Hc] Hno]].
    + pose proof (Hsame _ (register_identities p now s Hwf Ha)) as Hnew. rewrite dget_dset in Hnew.
      case_decide as Hd; [|apply succeeds_eq; congruence].
      subst rid. rewrite Hbefore in Hnew. injection Hnew as <-. by apply (register_succeeds p s).
    + apply Hstay. unfold runtime_register, register_claim. rewrite !st_bind_unfold, Hc. by apply kept_now.
  - simpl in Hr. bool_to_prop.
    destruct (declare_identities review_key backend runtime_id agent_id now s Hok Hr) as [Hk|(Hnone & i & Hk)];
      [by apply Hstay|].
    pose proof (Hsame _ Hk) as Hnew. rewrite dget_dset in Hnew.
    case_decide; [subst; congruence|apply succeeds_eq; congruence].
Qed.

(** ** The sweep against its definition on one record *)
Definition grow_stale (now : Z) (r : RuntimeRecord) : RuntimeRecord :=
  if overdue now r then went_offline r else r.
Definition die (now : Z) (r : RuntimeRecord) : RuntimeRecord :=
  if dying now r then set_presence PRESENCE_DEAD r else r.
Definition decay (now : Z) (r : RuntimeRecord) : RuntimeRecord := die now (grow_stale now r).
Definition on_values {A B} (f : A -> B) (l : list (string * A)) : list (string * B) :=
  map (fun x => (fst x, f (snd x))) l.
Lemma dset_middle {A} (l1 l2 : list (string * A)) k a b : k ∉ l1.*1 ->
  dset (l1 ++ (k, a) :: l2) k b = l1 ++ (k, b) :: l2.
Proof.
  induction l1 as [|[k' c] l1 IH]; simpl; intros Hk.
  - by rewrite String.eqb_refl.
  - destruct (String.eqb_spec k k') as [->|]; [exfalso; apply Hk; by left|].
    rewrite IH; [done|]. intros Hin. apply Hk. by right.
Qed.
(** A pass that replaces the records of the snapshot one by one. *)
Lemma pass_run (f : string * RuntimeRecord -> st (gateway * W) unit) (h : RuntimeRecord -> RuntimeRecord) :
  (forall x s, (f x s).1 = Ok tt /\ g_hub (f x s).2.1 = g_hub s.1 /\
     (dget (g_runtimes s.1) (fst x) = Some (snd x) ->
      g_runtimes (f x s).2.1 = dset (g_runtimes s.1) (fst x) (h (snd x)))) ->
  forall s, dict_wf (g_runtimes s.1) -> exists s', st_iter f (g_runtimes s.1) s = (Ok tt, s') /\
    g_runtimes s'.1 = on_values h (g_runtimes s.1) /\ g_hub s'.1 = g_hub s.1.
Proof.
  intros Hf s Hwf.
  assert (Hgen : forall l pre s0, dict_wf (on_values h pre ++ l) -> g_runtimes s0.1 = on_values h pre ++ l ->
    exists s', st_iter f l s0 = (Ok tt, s') /\ g_runtimes s'.1 = on_values h (pre ++ l) /\ g_hub s'.1 = g_hub s0.1).
  { clear s Hwf. induction l as [|[k r] l IH]; intros pre s Hwf Hs; simpl.
    - exists s. rewrite app_nil_r in *. done.
    - rewrite st_bind_unfold. destruct (Hf (k, r) s) as (Hok & Hhub & Hset).
      assert (Hk : k ∉ (on_values h pre).*1).
      { unfold dict_wf in Hwf. rewrite fmap_app in Hwf. apply NoDup_app in Hwf as (_ & Hd & _).
        intros Hin. apply (Hd _ Hin). by left. }
      assert (Hget : dget (g_runtimes s.1) k = Some r).
      { apply dget_elem_of; [by rewrite Hs|]. rewrite Hs. apply elem_of_app. right. by left. }
      specialize (Hset Hget). simpl in Hset. rewrite Hs, dset_middle in Hset by done.
      destruct (f (k, r) s) as [r0 s1]. simpl in *. subst r0.
      destruct (IH (pre ++ [(k, r)]) s1) as (s' & -> & Hr & Hh).
      + unfold on_values, dict_wf in *. rewrite map_app. simpl. rewrite !fmap_app in *. simpl in *.
        by rewrite <- app_assoc.
      + rewrite Hset. unfold on_values. by rewrite map_app, <- app_assoc.
      + exists s'. rewrite <- app_assoc in Hr. split_and!; [done|done|congruence]. }
  destruct (Hgen (g_runtimes s.1) [] s) as (s' & ? & ? & ?); [done|done|]. by exists s'.
Qed.
Lemma offline_pass now x s : let f := sweep_offline now in
  (f x s).1 = Ok tt /\ g_hub (f x s).2.1 = g_hub s.1 /\
  (dget (g_runtimes s.1) (fst x) = Some (snd x) ->
   g_runtimes (f x s).2.1 = dset (g_runtimes s.1) (fst x) (grow_stale now (snd x))).
Proof.
  simpl. unfold sweep_offline, grow_stale. destruct (overdue now (snd x)); [done|]. split_and!; [done|done|].
  intros Hd. simpl. by rewrite dset_same.
Qed.
Lemma dead_pass now x s : let f := sweep_dead now in
  (f x s).1 = Ok tt /\ g_hub (f x s).2.1 = g_hub s.1 /\
  (dget (g_runtimes s.1) (fst x) = Some (snd x) ->
   g_runtimes (f x s).2.1 = dset (g_runtimes s.1) (fst x) (die now (snd x))).
Proof.
  simpl. unfold sweep_dead, die. destruct (dying now (snd x)); [done|]. split_and!; [done|done|].
  intros Hd. simpl. by rewrite dset_same.
Qed.
Lemma live_decay now r : live (decay now r) = live r.
Proof.
  unfold decay, die, grow_stale, live, overdue. destruct (String.eqb_spec (rr_status r) "active") as [Ha|Ha]; simpl.
  - destruct (_ <? _); destruct (dying _ _); simpl; by rewrite ?Ha.
  - by destruct (dying _ _).
Qed.
Lemma drop_dead rs : dict_wf rs ->
  List.filter (fun x : string * RuntimeRecord => negb (bool_decide (fst x ∈
    map fst (List.filter (fun x => negb (live (snd x))) rs)))) rs = List.filter (fun x => live (snd x)) rs.
Proof.
  intros Hwf. apply List.filter_ext_in. intros [k r] Hin%list_elem_of_In. simpl.
  destruct (live r) eqn:Hl; [apply negb_true_iff, bool_decide_eq_false|apply negb_false_iff, bool_decide_eq_true].
  - intros ([k' r'] & Hk & Hx)%list_elem_of_fmap. simpl in Hk. subst k'.
    apply elem_of_List_filter in Hx as [Hx Hl']. apply (dget_elem_of _ _ _ Hwf) in Hin, Hx.
    rewrite Hin in Hx. injection Hx as ->. simpl in Hl'. by rewrite Hl in Hl'.
  - apply list_elem_of_fmap. exists (k, r). split; [done|]. apply elem_of_List_filter. simpl. by rewrite Hl.
Qed.

Lemma peers_offline_run l s : exists s', peers_offline l s = (Ok tt, s') /\
  g_runtimes s'.1 = g_runtimes s.1 /\ h_claims (g_hub s'.1) = h_claims (g_hub s.1).
Proof.
  unfold peers_offline. case_decide; [by exists s|]. rewrite st_bind_unfold.
  assert (Hit : forall s, exists s', st_iter (fun x : string * RuntimeRecord => upd (W := W)
      (sync_peers "offline" (id_session (rr_id (snd x))) (id_agent (rr_id (snd x))))) l s = (Ok tt, s') /\
    g_runtimes s'.1 = g_runtimes s.1 /\ h_claims (g_hub s'.1) = h_claims (g_hub s.1)).
  { clear. induction l as [|x l IH]; intros s; simpl; [by exists s|]. rewrite st_bind_unfold, upd_run.
    edestruct IH as (s' & -> & Hr & Hc). by exists s'. }
  destruct (Hit s) as (s1 & -> & Hr & Hc). rewrite upd_run. by eexists.
Qed.

Lemma sweep_run now s (Hwf : dict_wf (g_runtimes s.1)) :
  let out := _sweep_once now s in
  out.1 = Ok (map fst (List.filter (fun x => overdue now (snd x)) (g_runtimes s.1))) /\
  g_runtimes out.2.1 = List.filter (fun x => live (snd x)) (on_values (decay now) (g_runtimes s.1)) /\
  h_claims (g_hub out.2.1) = List.filter (fun c => now <? rc_expires (snd c)) (h_claims (g_hub s.1)).
Proof.
  intros out. unfold out, _sweep_once. rewrite st_bind_unfold, look_run, st_bind_unfold.
  destruct (pass_run _ (grow_stale now) (offline_pass now) s Hwf) as (s1 & -> & Hr1 & Hh1).
  assert (Hwf1 : dict_wf (g_runtimes s1.1)).
  { rewrite Hr1. unfold dict_wf, on_values in *. by rewrite <- list_fmap_compose. }
  rewrite st_bind_unfold, look_run, st_bind_unfold.
  destruct (pass_run _ (die now) (dead_pass now) s1 Hwf1) as (s2 & -> & Hr2 & Hh2).
  assert (Hr : g_runtimes s2.1 = on_values (decay now) (g_runtimes s.1)).
  { rewrite Hr2, Hr1. unfold on_values. rewrite map_map. apply map_ext. by intros [k r]. }
  assert (Hwf2 : dict_wf (g_runtimes s2.1)).
  { rewrite Hr. unfold dict_wf, on_values in *. by rewrite <- list_fmap_compose. }
  rewrite st_bind_unfold, look_run, st_bind_unfold, upd_run, st_bind_unfold, upd_run, st_bind_unfold.
  match goal with |- context [peers_offline ?l ?s0] =>
    destruct (peers_offline_run l s0) as (s3 & -> & Hr3 & Hc3) end.
  simpl in Hr3, Hc3. split_and!; [done| |].
  - simpl. rewrite Hr3, (drop_dead _ Hwf2), Hr. done.
  - simpl. by rewrite Hc3, Hh2, Hh1.
Qed.
(** The sweep of the background thread, with its passes over the table, its
    events and its writes, does to the runtimes what one definition says of a
    record: an active runtime silent for longer than its time-out (300 s, twice
    that in its first three minutes) goes offline and stale, a stale one silent
    for more than 600 s is dead, and the stopped ones are removed.  Of the roles
    the unexpired ones stay, and the runtimes that went offline are reported. *)
Theorem sweep_decays now s (Hwf : dict_wf (g_runtimes s.1)) :
  let out := _sweep_once now s in
  out.1 = Ok (map fst (List.filter (fun x => overdue now (snd x)) (g_runtimes s.1))) /\
  g_runtimes out.2.1 = List.filter (fun x => live (snd x)) (on_values (decay now) (g_runtimes s.1)) /\
  h_claims (g_hub out.2.1) = List.filter (fun c => now <? rc_expires (snd c)) (h_claims (g_hub s.1)).
Proof. by apply sweep_run. Qed.

Definition sweeps (ts : list Z) s : gateway * W := foldl (fun s t => (_sweep_once t s).2) s ts.
Lemma dget_filter_live rs rid r :
  dict_wf rs -> dget rs rid = Some r -> live r = true -> dget (List.filter (fun x : string * RuntimeRecord => live (snd x)) rs) rid = Some r.
Proof.
  intros Hwf Hr Hl. apply dget_elem_of.
  - unfold dict_wf. eapply sublist_NoDup; [exact Hwf|]. apply map_sublist, List_filter_sublist.
  - apply elem_of_List_filter. split; [by apply (dget_elem_of _ _ _ Hwf)|done].
Qed.
Lemma sweep_wf now s : dict_wf (g_runtimes s.1) -> dict_wf (g_runtimes (_sweep_once now s).2.1).
Proof.
  intros Hwf. destruct (sweep_run now s Hwf) as (_ & -> & _).
  unfold dict_wf. eapply sublist_NoDup; [|apply map_sublist, List_filter_sublist].
  unfold on_values, dict_wf in *. by rewrite <- list_fmap_compose.
Qed.
(** A record that the sweep does not touch at any time stays as it is. *)
Lemma sweeps_keep ts s rid r : dict_wf (g_runtimes s.1) -> dget (g_runtimes s.1) rid = Some r ->
  live r = true -> (forall t, decay t r = r) -> dget (g_runtimes (sweeps ts s).1) rid = Some r.
Proof.
  intros Hwf Hr Hl Hd. revert s Hwf Hr. induction ts as [|t ts IH]; intros s Hwf Hr; simpl; [done|].
  apply IH; [by apply sweep_wf|]. destruct (sweep_run t s Hwf) as (_ & -> & _).
  apply dget_filter_live; [unfold on_values, dict_wf in *; by rewrite <- list_fmap_compose| |done].
  unfold on_values. rewrite dget_map, Hr. simpl. by rewrite Hd.
Qed.

(** A heartbeat by [runtime.lifecycle] on a runtime that is offline makes its
    presence alive but leaves it offline, where no sweep looks at it: it is
    alive for ever, and hot when it is bound, even if it never says anything
    again. *)
Theorem heartbeat_never_fades rid now ts s e
  (Hwf : dict_wf (g_runtimes s.1)) (He : dget (g_runtimes s.1) rid = Some e)
  (Hoff : rr_status e = "offline") (Hname : rid <> "") :
  let s1 := (runtime_lifecycle rid "heartbeat" now s).2 in
  exists r, dget (g_runtimes (sweeps ts s1).1) rid = Some r /\ rr_status r = "offline" /\
  rr_presence r = PRESENCE_ALIVE /\ rr_last r = now /\
  _is_hot r = _is_hot (set_presence PRESENCE_ALIVE e).
Proof.
  intros s1. set (r := _reduce_lifecycle (set_last now e) "heartbeat").
  exists r. split; [|by split_and!].
  assert (Hs1 : g_runtimes s1.1 = dset (g_runtimes s.1) rid r).
  { unfold s1, runtime_lifecycle. rewrite st_bind_unfold, ensure_run.
    apply String.eqb_neq in Hname. rewrite Hname. simpl. rewrite st_bind_unfold, require_run, He. done. }
  apply sweeps_keep; rewrite ?Hs1; [by apply dset_wf|apply dget_dset_eq| |].
  - unfold live, r. simpl. by rewrite Hoff.
  - intros t. unfold decay. replace (grow_stale t r) with r.
    + unfold die, dying, r. simpl. by rewrite andb_false_r.
    + unfold grow_stale, overdue, r. simpl. by rewrite Hoff.
Qed.

(** ** Exclusive roles *)
Definition role_of (key : string) (g : gateway) : option role_claim := dget (h_claims (g_hub g)) key.
Lemma dget_filter_kept {A} (f : A -> bool) (l : list (string * A)) k a :
  dget l k = Some a -> f a = true -> dget (List.filter (fun x => f (snd x)) l) k = Some a.
Proof.
  induction l as [|[k' b] l IH]; simpl; [done|]. destruct (String.eqb_spec k k') as [->|Hne].
  - intros [= ->] ->. simpl. by rewrite String.eqb_refl.
  - intros Hk Ha. destruct (f b); simpl; [|by apply IH]. apply String.eqb_neq in Hne. rewrite Hne. by apply IH.
Qed.

Lemma claim_state sid aid o ttl now s :
  let claims' := h_claims (g_hub (session_claim sid aid o ttl now s).2.1) in
  claims' = h_claims (g_hub s.1) \/
  claims' = dset (h_claims (g_hub s.1)) (claim_key sid aid)
              {| rc_owner := o; rc_claimed := now; rc_expires := now + ttl |} /\
  forall c, role_of (claim_key sid aid) s.1 = Some c -> rc_owner c = o \/ rc_expires c <= now.
Proof.
  unfold session_claim, get_claim. rewrite st_bind_unfold, ensure_run. destruct (negb _); [|by left].
  rewrite st_bind_unfold, ensure_run. destruct (_ && _); [|by left].
  rewrite st_bind_unfold, look_run, st_bind_unfold, ensure_run.
  destruct (match dget _ _ with Some _ => _ | None => _ end) eqn:Hc; [right|by left].
  split; [done|]. intros c. unfold role_of. intros Hd. rewrite Hd in Hc.
  apply orb_true_iff in Hc as [Hc|Hc]; bool_to_prop; auto.
Qed.

(** While a role is held, no request of any kind gives it to another: until
    the claim expires it stays with its owner, who may renew it, unless it is
    released by that owner or without naming one. *)
Theorem role_exclusive r now s key c
  (Hheld : role_of key s.1 = Some c) (Hlive : now < rc_expires c)
  (Hrel : forall sid aid o, r = Release sid aid o -> claim_key sid aid = key -> o <> "" /\ o <> rc_owner c)
  (Hwf : dict_wf (g_runtimes s.1)) :
  exists c', role_of key (dispatch r now s).2.1 = Some c' /\ rc_owner c' = rc_owner c /\
  (c' = c \/ exists sid aid ttl, r = Claim sid aid (rc_owner c) ttl /\ rc_expires c' = now + ttl).
Proof.
  assert (Hstay : role_of key (dispatch r now s).2.1 = Some c ->
    exists c', role_of key (dispatch r now s).2.1 = Some c' /\ rc_owner c' = rc_owner c /\
    (c' = c \/ exists sid aid ttl, r = Claim sid aid (rc_owner c) ttl /\ rc_expires c' = now + ttl))
    by (intros Hp; exists c; auto).
  assert (Hsame : preserves (holds (fun g => role_of key g = Some c)) (dispatch r now) ->
    role_of key (dispatch r now s).2.1 = Some c) by (intros Hp; by apply Hp).
  destruct r; try (apply Hstay, Hsame; unfold dispatch, drop_answer; by following idtac);
    unfold dispatch in *; rewrite drop_answer_state in *.
  - destruct (claim_state session_id agent_id owner ttl now s) as [Hc|[Hc Hall]];
      [apply Hstay; unfold role_of in *; by rewrite Hc|].
    unfold role_of in *. rewrite Hc, dget_dset in Hstay |- *. case_decide as Hd; [|by apply Hstay].
    subst key. destruct (Hall c Hheld) as [<-|]; [|lia].
    eexists. split_and!; [done|done|right]. by exists session_id, agent_id, ttl.
  - apply Hstay. unfold session_release. rewrite st_bind_unfold. unfold get_claim. rewrite look_run.
    destruct (dget _ _) as [c0|] eqn:Hc0; [|done]. rewrite st_bind_unfold, ensure_run.
    destruct (decide (claim_key session_id agent_id = key)) as [Hk|Hne].
    + destruct (Hrel _ _ _ eq_refl Hk) as [Hn Ho]. rewrite Hk in Hc0. unfold role_of in Hheld.
      rewrite Hheld in Hc0. injection Hc0 as <-. apply String.eqb_neq in Hn. rewrite Hn. simpl.
      destruct (String.eqb_spec (rc_owner c) owner); [congruence|done].
    + destruct (_ || _); [|done]. unfold role_of. simpl. by rewrite dget_ddel_ne.
  - apply Hstay. destruct (sweep_run now s Hwf) as (_ & _ & Hc). unfold role_of. rewrite Hc.
    apply (dget_filter_kept (fun c => now <? rc_expires c)); [done|lia].
Qed.

(** ** Merged writes *)
Definition merge_of (sid path : string) (g : gateway) : option string := h_merges (g_hub g) !! (sid, path).
(** The file holds what memory holds, and only complete records. *)
Definition merges_saved (g : gateway) : Prop :=
  h_merges_file (g_hub g) = map_to_list (h_merges (g_hub g)) /\
  map_Forall (fun k h => k.1 <> "" /\ k.2 <> "" /\ h <> "") (h_merges (g_hub g)).
Lemma merge_saved sid path sha : preserves (holds (W := W) merges_saved) (write_merge sid path sha).
Proof.
  intros s [Hf Ha]. unfold write_merge. rewrite st_bind_unfold, ensure_run.
  destruct (negb _) eqn:Hn; [|done]. rewrite st_bind_unfold, look_run, st_bind_unfold, ensure_run.
  destruct (match h_merges _ !! _ with Some _ => _ | None => _ end); [|done].
  split; simpl; [done|]. apply map_Forall_insert_2; [|done].
  bool_to_prop. repeat match goal with H : _ || _ = false |- _ => apply orb_false_iff in H as [? ?] end.
  by bool_to_prop.
Qed.
Lemma reset_saved sid path : preserves (holds (W := W) merges_saved) (merge_reset sid path).
Proof.
  intros s [Hf Ha]. unfold merge_reset. rewrite st_bind_unfold, ensure_run.
  destruct (negb _); [|done]. rewrite st_bind_unfold, look_run, st_bind_unfold.
  case_decide; [done|]. split; simpl; [done|].
  intros k h [Hk _]%map_lookup_filter_Some. by apply Ha.
Qed.
Lemma dispatch_saved r now : preserves (holds (W := W) merges_saved) (dispatch r now).
Proof.
  destruct r; unfold dispatch, drop_answer; following ltac:(idtac; lazymatch goal with
    | |- preserves _ (write_merge _ _ _) => apply merge_saved
    | |- preserves _ (merge_reset _ _) => apply reset_saved
    end).
Qed.

Definition run_requests (l : list (request * Z)) s : gateway * W :=
  foldl (fun s x => (dispatch x.1 x.2 s).2) s l.
Lemma run_requests_holds (P : gateway -> Prop) l s :
  (forall r now, preserves (holds (W := W) P) (dispatch r now)) -> holds P s -> holds P (run_requests l s).
Proof.
  intros Hp. revert s. induction l as [|[r now] l IH]; intros s Hs; simpl; [done|]. by apply IH, Hp.
Qed.
Lemma restore_list (m : gmap (string * string) string) :
  map_Forall (fun k h => k.1 <> "" /\ k.2 <> "" /\ h <> "") m ->
  foldl (fun m (x : string * string * string) => let '(s, t, sha) := x in
    if String.eqb s "" || String.eqb t "" || String.eqb sha "" then m else <[(s, t) := sha]> m)
    ∅ (map_to_list m) = m.
Proof.
  intros Ha. assert (Hf : forall l m0, Forall (fun x => x.1.1 <> "" /\ x.1.2 <> "" /\ x.2 <> "") l ->
    foldl (fun m (x : string * string * string) => let '(s, t, sha) := x in
      if String.eqb s "" || String.eqb t "" || String.eqb sha "" then m else <[(s, t) := sha]> m) m0 l
    = foldr (fun x (m : gmap (string * string) string) => <[x.1 := x.2]> m) m0 (rev l)).
  { intros l. induction l as [|[[x y] z] l IH] using rev_ind; intros m0 Hl; [done|].
    apply Forall_app in Hl as [Hl Hx]. apply Forall_singleton in Hx as (H1 & H2 & H3). simpl in *.
    rewrite foldl_app, rev_app_distr. simpl. apply String.eqb_neq in H1, H2, H3. rewrite H1, H2, H3. simpl.
    by rewrite IH. }
  rewrite Hf.
  - etrans; [|apply list_to_map_to_list].
    change (list_to_map (M := gmap (string * string) string) (rev (map_to_list m)) = list_to_map (map_to_list m)).
    apply list_to_map_proper; [|by rewrite <- Permutation_rev].
    rewrite <- Permutation_rev. apply NoDup_fst_map_to_list.
  - apply Forall_forall. intros [k h] Hk%elem_of_map_to_list. by apply (Ha k h).
Qed.

(** After any requests the file of merges restores exactly the records that
    memory holds, so that a conflict is still found after a restart; and a
    record stays through any request but a reset of its session: another hash
    for the path is refused and changes nothing. *)
Theorem merges_survive l s sid path sha
  (Hstart : h_merges (g_hub s.1) = ∅ /\ h_merges_file (g_hub s.1) = []) :
  let s' := run_requests l s in
  (forall g, h_merges (g_hub g) = ∅ -> h_merges_file (g_hub g) = h_merges_file (g_hub s'.1) ->
     h_merges (g_hub (_restore_merges g)) = h_merges (g_hub s'.1)) /\
  (merge_of sid path s'.1 = Some sha ->
   (forall r now, (forall p, r <> MergeReset sid p) -> merge_of sid path (dispatch r now s').2.1 = Some sha) /\
   (forall sha' now, sha' <> sha -> sid <> "" -> path <> "" -> sha' <> "" ->
      dispatch (Merge sid path sha') now s' = (Raise (GatewayError "PROTOCOL_CONFLICT"), s'))).
Proof.
  intros s'. assert (Hs' : merges_saved s'.1).
  { apply (run_requests_holds merges_saved); [intros; apply dispatch_saved|].
    destruct Hstart as [H1 H2]. split; rewrite H1; [by rewrite H2, map_to_list_empty|by apply map_Forall_empty]. }
  destruct Hs' as [Hfile Hall]. split.
  - intros g Hg Hf. unfold _restore_merges. simpl. rewrite Hg, Hf, Hfile. by apply restore_list.
  - intros Hm. clearbody s'. split.
    + intros r now Hr.
      assert (Hkeep : preserves (holds (fun g => merge_of sid path g = Some sha)) (dispatch r now)).
      { destruct r; unfold dispatch, drop_answer; try (by following idtac).
        - clear. intros s Hs. unfold write_merge. rewrite st_bind_unfold, ensure_run.
          destruct (negb _); [|done]. rewrite st_bind_unfold, look_run, st_bind_unfold, ensure_run.
          destruct (match h_merges _ !! _ with Some _ => _ | None => _ end) eqn:He; [|done].
          unfold holds, merge_of in *. simpl. destruct (decide ((session_id, target_path) = (sid, path))) as [Hk|Hk].
          + rewrite Hk in *. rewrite Hs in He. bool_to_prop. rewrite lookup_insert_eq. by rewrite He.
          + by rewrite lookup_insert_ne.
        - clear -Hr. intros s Hs. unfold merge_reset. rewrite st_bind_unfold, st_bind_unfold, ensure_run.
          destruct (negb _); [|done]. rewrite st_bind_unfold, look_run, st_bind_unfold.
          case_decide; [done|]. unfold holds, merge_of in *. simpl.
          apply map_lookup_filter_Some. split; [done|]. simpl.
          destruct (String.eqb_spec sid session_id) as [<-|]; [by destruct (Hr target_path)|done]. }
      by apply Hkeep.
    + intros sha' now Hne H1 H2 H3. unfold dispatch, write_merge. rewrite st_bind_unfold, ensure_run.
      apply String.eqb_neq in H1, H2, H3. rewrite H1, H2, H3. simpl.
      rewrite st_bind_unfold, look_run, st_bind_unfold, ensure_run. unfold merge_of in Hm. rewrite Hm.
      by destruct (String.eqb_spec sha sha').
Qed.

(** ** What the gateway lets through, or not *)

(** No event can report TURN_TRIGGERED: the kind is not among those of the
    log, so the request is refused before the branch that would advance the
    command, whatever runtime and generation it names, and changes nothing. *)
Theorem event_cannot_trigger d now s (Hk : ed_kind d = "TURN_TRIGGERED") :
  exists e, runtime_event d now s = (Raise e, s).
Proof.
  unfold runtime_event. rewrite st_bind_unfold, require_run. destruct (dget _ _); [|by eexists].
  rewrite st_bind_unfold, ensure_run. destruct (_ =? _); [|by eexists].
  rewrite st_bind_unfold. unfold on_events, on_gw, append_local, validate_draft. rewrite Hk.
  exists (GatewayError "PROTOCOL"). destruct s as [g w]. simpl.
  destruct (negb _); simpl; by destruct g.
Qed.

(** The agent of [artifact.verify] is not checked: any text, also one with
    "..", names the directory of the ledger that is written. *)
Lemma verify_any_agent sid q r path sha size aid now s :
  sid <> "" -> q <> "" -> r <> "" -> path <> "" -> sha <> "" -> aid <> "" ->
  validate_agent_id sid = Ok tt -> validate_path_component (VStr q) = Ok tt ->
  all_chars (between 32 126) q = true -> all_chars (between 32 126) r = true ->
  file_facts path = Some (size, sha) -> g_ledgers s.1 !! (sid, aid) = None ->
  is_ok (artifact_verify sid q r path sha size aid now s).1 = true /\
  is_Some (g_ledgers (artifact_verify sid q r path sha size aid now s).2.1 !! (sid, aid)).
Proof.
  intros H1 H2 H3 H4 H5 H6 Hv Hq Hpq Hpr Hf Hl.
  apply String.eqb_neq in H1, H2, H3, H4, H5, H6. destruct s as [g w]. unfold artifact_verify. rewrite st_bind_unfold, ensure_run. simpl existsb.
  rewrite H1, H2, H3, H4, H5. simpl. rewrite st_bind_unfold. unfold on_gw at 1 3, lift. simpl. rewrite Hv, H6.
  assert (Hret : forall A B (a : A) (k : A -> st (gateway * W) B) s, (mret a ≫= k) s = k a s) by done.
  rewrite !Hret. cbv beta iota. unfold verify_artifact. rewrite Hf, Z.eqb_refl, String.eqb_refl. cbn [negb].
  rewrite !Hret, !st_bind_unfold, !look_run. simpl fst. simpl in Hl. rewrite Hl.
  simpl default. destruct (verdict_fresh q r true now Hq Hpq Hpr) as [l' ->].
  rewrite !st_bind_unfold. unfold on_gw. simpl. split; [done|]. rewrite lookup_insert_eq; by eexists.
Qed.
End state.

(** ** Examples *)
Definition demo_next : register_params := {|
  rp_session := "s1"; rp_agent := "w1"; rp_runtime := "rt1"; rp_generation := 2; rp_review := "";
  rp_backend := "b2"; rp_kind := "omp"; rp_owner_pid := 8; rp_nonce := "n2"; rp_caps := [] |}.
Lemma demo_mirrored : mirrored demo_gateway.1.
Proof.
  refine (dispatch_mirrored (H := demo_backends) (Register demo_register) 1700000001000 _ _).
  refine (dispatch_mirrored (H := demo_backends) (SessionEnsure _ _ _ _) 1700000000000 (empty_gateway, tt) _).
  split; [constructor|intros ? ? [=]].
Qed.
Lemma demo_wf : dict_wf (g_runtimes demo_gateway.1).
Proof. apply demo_mirrored. Qed.

Lemma owner_kept_witness : exists e e',
  dget (g_runtimes demo_gateway.1) "rt1" = Some e /\
  dget (g_runtimes (dispatch (H := demo_backends) (Register demo_next) 1700000009000 demo_gateway).2.1) "rt1" = Some e' /\
  id_generation (rr_id e) < id_generation (rr_id e') /\ succeeds (rr_id e) (rr_id e').
Proof.
  destruct (dget (g_runtimes demo_gateway.1) "rt1") as [e|] eqn:He; [|vm_compute in He; discriminate].
  destruct (dget (g_runtimes (dispatch (H := demo_backends) (Register demo_next) 1700000009000 demo_gateway).2.1) "rt1")
    as [e'|] eqn:He'; [|vm_compute in He'; discriminate].
  exists e, e'. split_and!; [reflexivity|reflexivity| |].
  - vm_compute in He, He'. injection He as <-. injection He' as <-. reflexivity.
  - apply (owner_kept (H := demo_backends) (Register demo_next) 1700000009000 demo_gateway "rt1").
    + apply demo_mirrored.
    + reflexivity.
    + exact He.
    + exact He'.
Defined.

Lemma sweep_decays_witness :
  let out := _sweep_once (H := demo_backends) 1700000700000 demo_gateway in
  out.1 = Ok ["rt1"] /\
  g_runtimes out.2.1 = List.filter (fun x => live (snd x)) (on_values (decay 1700000700000) (g_runtimes demo_gateway.1)).
Proof.
  destruct (sweep_decays (H := demo_backends) 1700000700000 demo_gateway demo_wf) as (H1 & H2 & _).
  cbv zeta. split; [rewrite H1; vm_compute; reflexivity|exact H2].
Defined.

Lemma heartbeat_never_fades_witness :
  let s0 := (_sweep_once (H := demo_backends) 1700000700000 demo_gateway).2 in
  let s1 := (runtime_lifecycle (H := demo_backends) "rt1" "heartbeat" 1700000800000 s0).2 in
  exists r, dget (g_runtimes (sweeps (H := demo_backends) [1700009000000; 1800000000000] s1).1) "rt1" = Some r /\
  _is_hot r = true.
Proof.
  cbv zeta.
  destruct (dget (g_runtimes (_sweep_once (H := demo_backends) 1700000700000 demo_gateway).2.1) "rt1")
    as [e|] eqn:He; [|vm_compute in He; discriminate].
  destruct (heartbeat_never_fades (H := demo_backends) "rt1" 1700000800000 [1700009000000; 1800000000000]
    (_sweep_once (H := demo_backends) 1700000700000 demo_gateway).2 e) as (r & Hr & _ & _ & _ & Hhot).
  - apply sweep_wf, demo_wf.
  - exact He.
  - vm_compute in He. injection He as <-. reflexivity.
  - discriminate.
  - exists r. split; [exact Hr|]. rewrite Hhot. vm_compute in He. injection He as <-. reflexivity.
Defined.

Lemma role_exclusive_witness :
  let s := (dispatch (H := demo_backends) (Claim "s1" "w1" "ann" 60000) 1700000010000 demo_gateway).2 in
  exists c', role_of "s1:w1" (dispatch (H := demo_backends) (Claim "s1" "w1" "bob" 60000) 1700000020000 s).2.1 = Some c' /\
  rc_owner c' = "ann".
Proof.
  cbv zeta.
  destruct (role_of "s1:w1" (dispatch (H := demo_backends) (Claim "s1" "w1" "ann" 60000) 1700000010000 demo_gateway).2.1)
    as [c|] eqn:Hc; [|vm_compute in Hc; discriminate].
  pose proof Hc as Hv. vm_compute in Hv. injection Hv as Hv.
  destruct (role_exclusive (H := demo_backends) (Claim "s1" "w1" "bob" 60000) 1700000020000
    (dispatch (H := demo_backends) (Claim "s1" "w1" "ann" 60000) 1700000010000 demo_gateway).2 "s1:w1" c Hc)
    as (c' & H1 & H2 & _).
  - rewrite <- Hv. reflexivity.
  - intros; discriminate.
  - apply (dispatch_mirrored (H := demo_backends) (O := [])), demo_mirrored.
  - exists c'. split; [exact H1|]. rewrite H2, <- Hv. reflexivity.
Defined.

Lemma merges_survive_witness :
  let s' := run_requests (H := demo_backends) [(Merge "s1" "a.py" "h1", 1); (Merge "s1" "b.py" "h2", 2)] demo_gateway in
  base.size (h_merges (g_hub s'.1)) = 2%nat /\
  dispatch (H := demo_backends) (Merge "s1" "a.py" "h3") 3 s' = (Raise (GatewayError "PROTOCOL_CONFLICT"), s').
Proof.
  cbv zeta. split; [vm_compute; reflexivity|].
  destruct (merges_survive (H := demo_backends) [(Merge "s1" "a.py" "h1", 1); (Merge "s1" "b.py" "h2", 2)]
    demo_gateway "s1" "a.py" "h1") as (_ & Hm).
  - vm_compute. split; reflexivity.
  - destruct Hm as [_ Hc]; [vm_compute; reflexivity|]. apply Hc; discriminate.
Defined.

Lemma event_cannot_trigger_witness : exists e,
  let d := {| ed_runtime := "rt1"; ed_generation := 1; ed_session := "s1"; ed_agent := "w1"; ed_request := "q1";
              ed_run := "r1"; ed_kind := "TURN_TRIGGERED"; ed_created := ""; ed_payload := [] |} in
  runtime_event (H := demo_backends) d 1700000003000 demo_queued = (Raise e, demo_queued).
Proof. apply (event_cannot_trigger (H := demo_backends)). reflexivity. Defined.

Lemma verify_any_agent_witness :
  let out := artifact_verify (H := demo_backends) "s1" "q1" "r1" "out.txt" "beef" 3 "../elsewhere" 5 demo_gateway in
  is_ok out.1 = true /\ is_Some (g_ledgers out.2.1 !! ("s1", "../elsewhere")).
Proof.
  apply (verify_any_agent (H := demo_backends)); try discriminate; try reflexivity; vm_compute; reflexivity.
Defined.
