(* ===== verification/Park.v ===== *)
(** * Parked agents (src/src/codeagent/park, src/src/codeagent/domain/park.py)

    The registry of leases that keep idle review agents warm: acquiring,
    renewing, releasing, eviction by age, number and rounds; the snapshots that
    a cold start continues from; the choice between hot, warm and cold revival.

    A call runs under the lock of its key and is one step; the sweep reads rows
    and evicts them one by one, so [_evict_one] takes the row it was given,
    which may be older than the one in the table.  Times are in milliseconds. *)
From S2P Require Import Prelude.

(** ** Manifests (domain/park.py) *)
Inductive Lifecycle := HOT_PARKED | COLD_RESUMABLE | RELEASED_SOFT | RELEASED_HARD | BROKEN.
#[export] Instance Lifecycle_eq_dec : EqDecision Lifecycle.
Proof. solve_decision. Defined.
Definition lifecycle_value (l : Lifecycle) : string :=
  match l with
  | HOT_PARKED => "hot_parked" | COLD_RESUMABLE => "cold_resumable"
  | RELEASED_SOFT => "released_soft" | RELEASED_HARD => "released_hard" | BROKEN => "broken"
  end.
(** [Lifecycle(value)]; the old value "released" is an alias. *)
Definition Lifecycle_of (s : string) : option Lifecycle :=
  if String.eqb s "hot_parked" then Some HOT_PARKED
  else if String.eqb s "cold_resumable" then Some COLD_RESUMABLE
  else if String.eqb s "released_soft" then Some RELEASED_SOFT
  else if String.eqb s "released_hard" then Some RELEASED_HARD
  else if String.eqb s "broken" then Some BROKEN
  else if String.eqb s "released" then Some RELEASED_SOFT
  else None.

Record ParkManifest := {
  pm_review_key : string; pm_swarm_session_id : string; pm_agent_type : string; pm_model : string;
  pm_primary_model : string; pm_host : string; pm_workdir : string; pm_lifecycle : Lifecycle;
  pm_peer_agent_id : string; pm_mailbox_agent_id : string; pm_backend_session_id : string;
  pm_parent_process_generation : string; pm_created_at : Z; pm_last_activity_at : Z;
  pm_soft_expires_at : Z; pm_hard_expires_at : Z; pm_round : Z; pm_last_msg_id : string;
  pm_summary_uri : string; pm_transcript_uri : string; pm_artifact_refs : list string;
  pm_config_fingerprint : string; pm_schema_version : Z; pm_release_mode : string;
  pm_omp_session_path : string; pm_provider : string; pm_variant : string;
  pm_system_prompt : string; pm_omp_session_dir : string }.

Definition _manifest_to_dict (m : ParkManifest) : pydict := [
  ("review_key", VStr (pm_review_key m)); ("swarm_session_id", VStr (pm_swarm_session_id m));
  ("agent_type", VStr (pm_agent_type m)); ("model", VStr (pm_model m));
  ("primary_model", VStr (pm_primary_model m)); ("host", VStr (pm_host m));
  ("workdir", VStr (pm_workdir m)); ("lifecycle", VStr (lifecycle_value (pm_lifecycle m)));
  ("peer_agent_id", VStr (pm_peer_agent_id m)); ("mailbox_agent_id", VStr (pm_mailbox_agent_id m));
  ("backend_session_id", VStr (pm_backend_session_id m));
  ("parent_process_generation", VStr (pm_parent_process_generation m));
  ("created_at", VInt (pm_created_at m)); ("last_activity_at", VInt (pm_last_activity_at m));
  ("soft_expires_at", VInt (pm_soft_expires_at m)); ("hard_expires_at", VInt (pm_hard_expires_at m));
  ("round", VInt (pm_round m)); ("last_msg_id", VStr (pm_last_msg_id m));
  ("summary_uri", VStr (pm_summary_uri m)); ("transcript_uri", VStr (pm_transcript_uri m));
  ("artifact_refs", VList (map VStr (pm_artifact_refs m)));
  ("config_fingerprint", VStr (pm_config_fingerprint m)); ("schema_version", VInt (pm_schema_version m));
  ("release_mode", VStr (pm_release_mode m)); ("omp_session_path", VStr (pm_omp_session_path m));
  ("provider", VStr (pm_provider m)); ("variant", VStr (pm_variant m));
  ("system_prompt", VStr (pm_system_prompt m)); ("omp_session_dir", VStr (pm_omp_session_dir m))].

(** The fields of the class, all with a default but the review key. *)
Definition MANIFEST_FIELDS : list string := [
  "review_key"; "swarm_session_id"; "agent_type"; "model"; "primary_model"; "host"; "workdir"; "lifecycle";
  "peer_agent_id"; "mailbox_agent_id"; "backend_session_id"; "parent_process_generation"; "created_at";
  "last_activity_at"; "soft_expires_at"; "hard_expires_at"; "round"; "last_msg_id"; "summary_uri";
  "transcript_uri"; "artifact_refs"; "config_fingerprint"; "schema_version"; "release_mode";
  "omp_session_path"; "provider"; "variant"; "system_prompt"; "omp_session_dir"].
(** A field that is present has the type it was written with. *)
Definition dint (d : pydict) (k : string) (dflt : Z) : Z :=
  match dget d k with Some (VInt z) => z | _ => dflt end.
Definition dstrs (d : pydict) (k : string) : list string :=
  match dget d k with
  | Some (VList l) => omap (fun v => match v with VStr s => Some s | _ => None end) l
  | _ => []
  end.
Definition _dict_to_manifest (d : pydict) : res ParkManifest :=
  match dgetd d "lifecycle" (VStr "hot_parked") with
  | VStr s =>
    match Lifecycle_of s with
    | None => Raise (ValueError ("'" +:+ s +:+ "' is not a valid Lifecycle"))
    | Some lc =>
      guard forallb (fun x => bool_decide (fst x ∈ MANIFEST_FIELDS)) d
        orelse TypeError "ParkManifest.__init__() got an unexpected keyword argument";
      guard dmem d "review_key"
        orelse TypeError "ParkManifest.__init__() missing 1 required positional argument: 'review_key'";
      Ok {| pm_review_key := dstr d "review_key"; pm_swarm_session_id := dstr d "swarm_session_id";
            pm_agent_type := dstr d "agent_type"; pm_model := dstr d "model";
            pm_primary_model := dstr d "primary_model"; pm_host := dstr d "host";
            pm_workdir := dstr d "workdir"; pm_lifecycle := lc;
            pm_peer_agent_id := dstr d "peer_agent_id"; pm_mailbox_agent_id := dstr d "mailbox_agent_id";
            pm_backend_session_id := dstr d "backend_session_id";
            pm_parent_process_generation := dstr d "parent_process_generation";
            pm_created_at := dint d "created_at" 0; pm_last_activity_at := dint d "last_activity_at" 0;
            pm_soft_expires_at := dint d "soft_expires_at" 0; pm_hard_expires_at := dint d "hard_expires_at" 0;
            pm_round := dint d "round" 0; pm_last_msg_id := dstr d "last_msg_id";
            pm_summary_uri := dstr d "summary_uri"; pm_transcript_uri := dstr d "transcript_uri";
            pm_artifact_refs := dstrs d "artifact_refs"; pm_config_fingerprint := dstr d "config_fingerprint";
            pm_schema_version := dint d "schema_version" 2; pm_release_mode := dstr d "release_mode";
            pm_omp_session_path := dstr d "omp_session_path"; pm_provider := dstr d "provider";
            pm_variant := dstr d "variant"; pm_system_prompt := dstr d "system_prompt";
            pm_omp_session_dir := dstr d "omp_session_dir" |}
    end
  | _ => Raise (ValueError "not a valid Lifecycle")
  end.

(** ** Snapshots (park/snapshot.py) *)
Record ReviewSnapshot := {
  sn_review_key : string; sn_round : Z; sn_last_question : string; sn_last_conclusion : string;
  sn_standing_constraints : list string; sn_evidence_list : list string;
  sn_rejected_approaches : list string; sn_unconfirmed_assumptions : list string;
  sn_pending_questions : list string; sn_recent_changes : list string; sn_artifact_refs : list string;
  sn_generated_at : Z }.

(** ** The registry

    A row of the table [park_leases], in the order of insertion; the manifest
    is the dictionary that [json.dumps] writes and [json.loads] reads back.  A
    snapshot file "round_<n>.json" is the entry [n] of its review. *)
Record lease := { le_manifest : pydict; le_lifecycle : string; le_soft : Z; le_hard : Z; le_last : Z }.
Record park := { leases : list (string * lease); snapshots : gmap string (gmap Z ReviewSnapshot) }.
Definition empty_park : park := {| leases := []; snapshots := ∅ |}.
Definition set_leases (l : list (string * lease)) (p : park) : park :=
  {| leases := l; snapshots := snapshots p |}.
Definition set_snapshots (x : gmap string (gmap Z ReviewSnapshot)) (p : park) : park :=
  {| leases := leases p; snapshots := x |}.

Definition key_char (c : ascii) : bool :=
  is_alnum c || Ascii.eqb c "_" || Ascii.eqb c "." || Ascii.eqb c ":" || Ascii.eqb c "-".
Definition review_key_ok (k : string) : bool :=
  negb (String.eqb k ".") && negb (String.eqb k "..")
  && match_dollar (class_bounded key_char 1 128) k.
Definition save_snapshot (s : ReviewSnapshot) (now : Z) : st park unit :=
  let k := sn_review_key s in
  _ ← ensure (review_key_ok k) (ValueError ("invalid review_key: '" +:+ k +:+ "'"));
  let s' := {| sn_review_key := k; sn_round := sn_round s; sn_last_question := sn_last_question s;
               sn_last_conclusion := sn_last_conclusion s;
               sn_standing_constraints := sn_standing_constraints s; sn_evidence_list := sn_evidence_list s;
               sn_rejected_approaches := sn_rejected_approaches s;
               sn_unconfirmed_assumptions := sn_unconfirmed_assumptions s;
               sn_pending_questions := sn_pending_questions s; sn_recent_changes := sn_recent_changes s;
               sn_artifact_refs := sn_artifact_refs s;
               sn_generated_at := if sn_generated_at s =? 0 then now else sn_generated_at s |} in
  modify (fun p => set_snapshots
    (<[k := <[sn_round s := s']> (default ∅ (snapshots p !! k))]> (snapshots p)) p).
Definition load_snapshot (k : string) (round : Z) (p : park) : option ReviewSnapshot :=
  if review_key_ok k then default ∅ (snapshots p !! k) !! round else None.
(** The greatest of the rounds whose file name is a number. *)
Definition top_round (m : gmap Z ReviewSnapshot) : option Z :=
  foldr (fun (x : Z * ReviewSnapshot) best =>
    if fst x <? 0 then best else Some (match best with Some b => Z.max b (fst x) | None => fst x end))
    None (map_to_list m).
Definition latest_snapshot (k : string) (p : park) : option ReviewSnapshot :=
  if review_key_ok k then
    let m := default ∅ (snapshots p !! k) in
    match top_round m with Some r => m !! r | None => None end
  else None.

(** *** Operations *)
Definition ttl : Z := 3600 * 1000.
Definition hard_limit : Z := 28800 * 1000.
Definition max_hot_parked : nat := 3.
Definition max_rounds : Z := 5.
Definition or_zero (z dflt : Z) : Z := if z =? 0 then dflt else z.
Definition lease_of (m : ParkManifest) (now : Z) : lease :=
  {| le_manifest := _manifest_to_dict m; le_lifecycle := lifecycle_value (pm_lifecycle m);
     le_soft := or_zero (pm_soft_expires_at m) (now + ttl);
     le_hard := or_zero (pm_hard_expires_at m) (now + hard_limit); le_last := now |}.
Definition put_lease (k : string) (l : lease) : st park unit :=
  modify (fun p => set_leases (dset (leases p) k l) p).
Definition migrated (l : lease) : lease :=
  {| le_manifest := le_manifest l;
     le_lifecycle := if String.eqb (le_lifecycle l) "released" then "released_soft" else le_lifecycle l;
     le_soft := le_soft l; le_hard := le_hard l; le_last := le_last l |}.
Definition _init_db : st park unit :=
  modify (fun p => set_leases (map (fun x => (fst x, migrated (snd x))) (leases p)) p).
Definition acquire (k : string) (m : ParkManifest) (now : Z) : st park bool :=
  row ← gets (fun p => dget (leases p) k);
  match row with
  | Some l =>
    match Lifecycle_of (le_lifecycle l) with
    | None => raise (ValueError ("'" +:+ le_lifecycle l +:+ "' is not a valid Lifecycle"))
    | Some RELEASED_SOFT => _ ← put_lease k (lease_of m now); mret true
    | Some _ => mret false
    end
  | None => _ ← put_lease k (lease_of m now); mret true
  end.
Definition renewed (now : Z) (l : lease) : lease :=
  {| le_manifest := le_manifest l; le_lifecycle := le_lifecycle l; le_soft := now + ttl;
     le_hard := le_hard l; le_last := now |}.
Definition renew (k : string) (now : Z) : st park unit :=
  row ← gets (fun p => dget (leases p) k);
  match row with Some l => put_lease k (renewed now l) | None => mret tt end.
Definition update (k : string) (m : ParkManifest) (now : Z) : st park unit :=
  row ← gets (fun p => dget (leases p) k);
  match row with
  | None => _ ← acquire k m now; mret tt
  | Some _ => put_lease k (lease_of m now)
  end.
Definition delete (k : string) : st park unit :=
  modify (fun p => set_leases (ddel (leases p) k) p).
Definition released (now : Z) (l : lease) : lease :=
  {| le_manifest := dset (dset (le_manifest l) "lifecycle" (VStr "released_soft")) "release_mode" (VStr "soft");
     le_lifecycle := "released_soft"; le_soft := le_soft l; le_hard := le_hard l; le_last := now |}.
Definition release (k mode : string) (now : Z) : st park unit :=
  if String.eqb mode "hard" then delete k else
  row ← gets (fun p => dget (leases p) k);
  match row with Some l => put_lease k (released now l) | None => mret tt end.
Definition lookup (k : string) : st park (option ParkManifest) :=
  row ← gets (fun p => dget (leases p) k);
  match row with
  | None => mret None
  | Some l => m ← lift (_dict_to_manifest (le_manifest l)); mret (Some m)
  end.
Definition hot (l : lease) : bool := String.eqb (le_lifecycle l) "hot_parked".
Definition lookup_by_field (field value : string) : st park (option ParkManifest) :=
  rows ← gets (fun p => List.filter (fun x => hot (snd x)) (leases p));
  match List.find (fun x => eq_str (dgetd (le_manifest (snd x)) field VNone) value) rows with
  | Some (_, l) => m ← lift (_dict_to_manifest (le_manifest l)); mret (Some m)
  | None => mret None
  end.
Fixpoint parse_all (l : list (string * lease)) : res (list ParkManifest) :=
  match l with
  | [] => Ok []
  | (_, x) :: l' => do m <- _dict_to_manifest (le_manifest x); do ms <- parse_all l'; Ok (m :: ms)
  end.
Definition list_active : st park (list ParkManifest) :=
  rows ← gets (fun p => List.filter (fun x => hot (snd x)) (leases p)); lift (parse_all rows).

(** *** Eviction *)
Definition auto_snapshot (k : string) (now : Z) : ReviewSnapshot :=
  {| sn_review_key := k; sn_round := 0; sn_last_question := "";
     sn_last_conclusion := "(auto-snapshot on eviction)"; sn_standing_constraints := [];
     sn_evidence_list := []; sn_rejected_approaches := []; sn_unconfirmed_assumptions := [];
     sn_pending_questions := []; sn_recent_changes := []; sn_artifact_refs := []; sn_generated_at := now |}.
Definition evicted_lease (manifest : pydict) (target : string) (l : lease) : lease :=
  {| le_manifest := dset manifest "lifecycle" (VStr target); le_lifecycle := target; le_soft := le_soft l;
     le_hard := le_hard l; le_last := le_last l |}.
Definition _evict_one (k : string) (manifest : pydict) (target : string) (now : Z) : st park bool := fun p =>
  let p1 := match latest_snapshot k p with
            | None => (save_snapshot (auto_snapshot k now) now p).2
            | Some _ => p
            end in
  match dget (leases p1) k with
  | Some l =>
    if hot l then (Ok true, set_leases (dset (leases p1) k (evicted_lease manifest target l)) p1)
    else (Ok false, p1)
  | None => (Ok false, p1)
  end.
Fixpoint evict_all (now : Z) (rows : list (string * lease)) : st park (list string) :=
  match rows with
  | [] => mret []
  | (k, l) :: rows' =>
    b ← _evict_one k (le_manifest l) "cold_resumable" now;
    ks ← evict_all now rows';
    mret (if b : bool then k :: ks else ks)
  end.
Definition passed (limit now : Z) : bool := (0 <? limit) && (limit <? now).
Definition expired (now : Z) (l : lease) : bool := passed (le_soft l) now || passed (le_hard l) now.
Definition cold_over (now : Z) (l : lease) : bool :=
  String.eqb (le_lifecycle l) "cold_resumable" && passed (le_hard l) now.
Definition released_over (now : Z) (l : lease) : bool :=
  bool_decide (le_lifecycle l ∈ ["released"; "released_soft"]) && (le_last l <? now - hard_limit).
(** [ORDER BY last_activity ASC], rows of one time in the order of the table. *)
Fixpoint insert_row (x : string * lease) (l : list (string * lease)) : list (string * lease) :=
  match l with
  | [] => [x]
  | y :: l' => if le_last (snd x) <=? le_last (snd y) then x :: l else y :: insert_row x l'
  end.
Definition by_activity (l : list (string * lease)) : list (string * lease) := foldr insert_row [] l.
Definition rows_where (f : lease -> bool) (p : park) : list (string * lease) :=
  List.filter (fun x => f (snd x)) (leases p).
Definition drop_where (f : lease -> bool) : st park unit :=
  modify (fun p => set_leases (rows_where (fun l => negb (f l)) p) p).
Definition sweep (now : Z) : st park (list string) :=
  rows ← gets (rows_where (fun l => hot l && expired now l));
  e1 ← evict_all now rows;
  _ ← drop_where (cold_over now);
  active ← gets (fun p => by_activity (rows_where hot p));
  e2 ← evict_all now (take (length active - max_hot_parked) active);
  rows ← gets (rows_where hot);
  e3 ← evict_all now (List.filter (fun x => max_rounds <=? dint (le_manifest (snd x)) "round" 0) rows);
  _ ← drop_where (released_over now);
  mret (e1 ++ e2 ++ e3).

(** ** Revival (park/router.py, park/inject.py) *)
Record ReviveResult := { rv_success : bool; rv_method : string; rv_context : string;
                         rv_manifest : option ParkManifest; rv_prompt : string }.
Definition _fmt (items : list string) : string :=
  match items with [] => "(无)" | _ => String.concat NL (map (fun i => "- " +:+ i) items) end.
Definition conclusion_lines : string :=
  "请先确认你能理解以上上下文，然后列出：" +:+ NL +:+ "1. 仍成立的结论" +:+ NL
  +:+ "2. 需重新审查的结论" +:+ NL +:+ "3. 因新证据废弃的结论".
Definition build_cold_context (k : string) (p : park) : string :=
  let first := "你是 '" +:+ k +:+ "' 的重建实例（非原实例复活）。" +:+ NL in
  match latest_snapshot k p with
  | None => first +:+ "未找到历史 snapshot，请从头开始分析。" +:+ NL +:+ conclusion_lines
  | Some s =>
    first +:+ "以下是继承的上下文（来自第 " +:+ pretty (sn_round s) +:+ " 轮后的 snapshot）：" +:+ NL +:+ NL
    +:+ "上次问题：" +:+ sn_last_question s +:+ NL +:+ "上次结论：" +:+ sn_last_conclusion s +:+ NL +:+ NL
    +:+ "仍成立的约束：" +:+ NL +:+ _fmt (sn_standing_constraints s) +:+ NL +:+ NL
    +:+ "证据清单：" +:+ NL +:+ _fmt (sn_evidence_list s) +:+ NL +:+ NL
    +:+ "已否决方案及原因：" +:+ NL +:+ _fmt (sn_rejected_approaches s) +:+ NL +:+ NL
    +:+ "待回答问题：" +:+ NL +:+ _fmt (sn_pending_questions s) +:+ NL +:+ NL +:+ conclusion_lines
  end.
Definition revive_or_spawn (k prompt : string) (is_alive : option (ParkManifest -> bool)) :
    st park ReviveResult :=
  found ← lookup k;
  cold ← gets (build_cold_context k);
  let answer method context :=
    {| rv_success := true; rv_method := method; rv_context := context; rv_manifest := found; rv_prompt := prompt |} in
  mret match found with
  | None => answer "cold" cold
  | Some m =>
    let alive := match is_alive with Some f => f m | None => true end in
    if bool_decide (pm_lifecycle m = HOT_PARKED) && alive then
      answer "hot" ("Found HOT_PARKED instance for '" +:+ k +:+ "', use hub send to peer_agent_id="
                    +:+ pm_peer_agent_id m)
    else if negb (String.eqb (pm_backend_session_id m) "")
            && bool_decide (pm_lifecycle m ∈ [COLD_RESUMABLE; RELEASED_SOFT]) then
      answer "warm" ("Warm resume available (" +:+ lifecycle_value (pm_lifecycle m)
                     +:+ "): backend_session_id=" +:+ pm_backend_session_id m)
    else if negb (String.eqb (pm_backend_session_id m) "")
            && bool_decide (pm_lifecycle m = HOT_PARKED) && bool_decide (is_Some is_alive) then
      answer "warm" ("Warm resume (HOT_PARKED but runtime dead): backend_session_id="
                     +:+ pm_backend_session_id m)
    else answer "cold" cold
  end.
Definition park_revive (k prompt : string) : st park ReviveResult := revive_or_spawn k prompt None.

(** ** What is written is read back *)
Lemma Lifecycle_of_value l : Lifecycle_of (lifecycle_value l) = Some l.
Proof. by destruct l. Qed.
Lemma omap_strs l : omap (fun v => match v with VStr s => Some s | _ => None end) (map VStr l) = l.
Proof. induction l as [|s l IH]; [done|]. simpl. f_equal. exact IH. Qed.
Lemma manifest_round m : _dict_to_manifest (_manifest_to_dict m) = Ok m.
Proof.
  unfold _dict_to_manifest. change (dgetd _ "lifecycle" _) with (VStr (lifecycle_value (pm_lifecycle m))).
  cbv iota beta. rewrite Lifecycle_of_value.
  replace (forallb _ _) with true by (symmetry; by vm_compute).
  replace (dmem _ _) with true by done.
  replace (dstrs _ _) with (pm_artifact_refs m) by (symmetry; apply omap_strs).
  by destruct m.
Qed.
Lemma manifest_inj m1 m2 : _manifest_to_dict m1 = _manifest_to_dict m2 -> m1 = m2.
Proof. intros H. assert (Heq : Ok m1 = Ok m2); [|by injection Heq]. by rewrite <- !manifest_round, H. Qed.
(** Every field of a manifest, its lifecycle and references included, comes
    back from the dictionary that the registry stores. *)
Theorem manifest_roundtrip m : _dict_to_manifest (_manifest_to_dict m) = Ok m.
Proof. apply manifest_round. Qed.

(** ** Every row shows a manifest *)
Definition with_lifecycle (lc : Lifecycle) (mode : string) (m : ParkManifest) : ParkManifest := {|
  pm_review_key := pm_review_key m; pm_swarm_session_id := pm_swarm_session_id m;
  pm_agent_type := pm_agent_type m; pm_model := pm_model m; pm_primary_model := pm_primary_model m;
  pm_host := pm_host m; pm_workdir := pm_workdir m; pm_lifecycle := lc;
  pm_peer_agent_id := pm_peer_agent_id m; pm_mailbox_agent_id := pm_mailbox_agent_id m;
  pm_backend_session_id := pm_backend_session_id m;
  pm_parent_process_generation := pm_parent_process_generation m; pm_created_at := pm_created_at m;
  pm_last_activity_at := pm_last_activity_at m; pm_soft_expires_at := pm_soft_expires_at m;
  pm_hard_expires_at := pm_hard_expires_at m; pm_round := pm_round m; pm_last_msg_id := pm_last_msg_id m;
  pm_summary_uri := pm_summary_uri m; pm_transcript_uri := pm_transcript_uri m;
  pm_artifact_refs := pm_artifact_refs m; pm_config_fingerprint := pm_config_fingerprint m;
  pm_schema_version := pm_schema_version m; pm_release_mode := mode;
  pm_omp_session_path := pm_omp_session_path m; pm_provider := pm_provider m; pm_variant := pm_variant m;
  pm_system_prompt := pm_system_prompt m; pm_omp_session_dir := pm_omp_session_dir m |}.
Lemma dict_with_lifecycle lc m :
  dset (_manifest_to_dict m) "lifecycle" (VStr (lifecycle_value lc))
  = _manifest_to_dict (with_lifecycle lc (pm_release_mode m) m).
Proof. done. Qed.
Lemma dict_released m :
  dset (dset (_manifest_to_dict m) "lifecycle" (VStr "released_soft")) "release_mode" (VStr "soft")
  = _manifest_to_dict (with_lifecycle RELEASED_SOFT "soft" m).
Proof. done. Qed.

(** The row is the form of a manifest with the lifecycle of the column. *)
Definition shows (l : lease) (m : ParkManifest) : Prop :=
  le_manifest l = _manifest_to_dict m /\ Lifecycle_of (le_lifecycle l) = Some (pm_lifecycle m).
Definition park_ok (p : park) : Prop :=
  dict_wf (leases p) /\ forall k l, dget (leases p) k = Some l -> exists m, shows l m.

Lemma shows_lease_of m now : shows (lease_of m now) m.
Proof. split; [done|apply Lifecycle_of_value]. Qed.
Lemma shows_evicted m target lc l : target = lifecycle_value lc ->
  shows (evicted_lease (_manifest_to_dict m) target l) (with_lifecycle lc (pm_release_mode m) m).
Proof. intros ->. split; [apply dict_with_lifecycle|apply Lifecycle_of_value]. Qed.
Lemma park_ok_put k l p : park_ok p -> (exists m, shows l m) -> park_ok (set_leases (dset (leases p) k l) p).
Proof.
  intros [Hwf Hp] Hl. split; simpl; [by apply dset_wf|]. intros k' l'. rewrite dget_dset.
  case_decide; [by intros [= <-]|apply Hp].
Qed.
Lemma park_ok_sub rows p : park_ok p -> rows `sublist_of` leases p -> park_ok (set_leases rows p).
Proof.
  intros [Hwf Hp] Hs. assert (Hwf' : dict_wf rows) by (unfold dict_wf; by eapply sublist_NoDup, map_sublist).
  split; [done|]. simpl. intros k l Hl. apply (dget_elem_of _ _ _ Hwf') in Hl.
  apply (Hp k), (dget_elem_of _ _ _ Hwf). by eapply elem_of_submseteq; [|apply sublist_submseteq].
Qed.
Lemma park_ok_snapshots x p : park_ok p -> park_ok (set_snapshots x p).
Proof. by intros [? ?]. Qed.
Lemma put_ok k l : (exists m, shows l m) -> preserves park_ok (put_lease k l).
Proof. intros Hl. apply preserves_modify. intros p Hp. by apply park_ok_put. Qed.
Lemma acquire_ok k m now : preserves park_ok (acquire k m now).
Proof.
  unfold acquire. preserving; apply put_ok; eexists; apply shows_lease_of.
Qed.
Lemma row_shows {A} k (f : option lease -> st park A) :
  (forall o, (forall l, o = Some l -> exists m, shows l m) -> preserves park_ok (f o)) ->
  preserves park_ok (row ← gets (fun p => dget (leases p) k); f row).
Proof. intros Hf p Hp. rewrite st_bind_unfold. simpl. apply Hf; [|done]. intros l. by apply (proj2 Hp). Qed.
Lemma renew_ok k now : preserves park_ok (renew k now).
Proof.
  apply row_shows. intros [l|] Hl; [|apply preserves_ret]. apply put_ok.
  destruct (Hl l eq_refl) as [m Hm]. by exists m.
Qed.
Lemma update_ok k m now : preserves park_ok (update k m now).
Proof. unfold update. preserving; first [apply put_ok; eexists; apply shows_lease_of|apply acquire_ok]. Qed.
Lemma release_ok k mode now : preserves park_ok (release k mode now).
Proof.
  unfold release. case_match.
  - apply preserves_modify. intros p Hp. apply park_ok_sub; [done|].
    generalize (leases p). clear. intros d. induction d as [|[k' v] d IH]; simpl; [constructor|].
    destruct (k =? k')%string; by constructor.
  - apply row_shows. intros [l|] Hl; [|apply preserves_ret]. apply put_ok.
    destruct (Hl l eq_refl) as [m [Hm _]]. eexists. unfold released. rewrite Hm. split; [apply dict_released|done].
Qed.
Lemma save_snapshot_ok s now : preserves park_ok (save_snapshot s now).
Proof. unfold save_snapshot. preserving. Qed.
Lemma evict_ok k m now : preserves park_ok (_evict_one k (_manifest_to_dict m) "cold_resumable" now).
Proof.
  intros p Hp. unfold _evict_one.
  assert (Hp1 : park_ok (match latest_snapshot k p with
    | None => (save_snapshot (auto_snapshot k now) now p).2 | Some _ => p end))
    by (case_match; [done|by apply save_snapshot_ok]).
  destruct (dget _ k) as [l|]; [|done]. destruct (hot l); [|done].
  apply park_ok_put; [done|]. eexists. by apply (shows_evicted m _ COLD_RESUMABLE).
Qed.
Lemma evict_all_ok now rows : Forall (fun x => exists m, shows (snd x) m) rows ->
  preserves park_ok (evict_all now rows).
Proof.
  induction 1 as [|[k l] rows [m [Hm _]] _ IH]; simpl; [apply preserves_ret|]. simpl in Hm. rewrite Hm.
  preserving; [apply evict_ok|done].
Qed.
Lemma insert_row_perm x l : insert_row x l ≡ₚ x :: l.
Proof.
  induction l as [|y l IH]; simpl; [done|]. case_match; [done|]. rewrite IH. by constructor.
Qed.
Lemma by_activity_perm l : by_activity l ≡ₚ l.
Proof. induction l as [|x l IH]; simpl; [done|]. by rewrite insert_row_perm, IH. Qed.
Lemma rows_show f p : park_ok p -> Forall (fun x => exists m, shows (snd x) m) (rows_where f p).
Proof.
  intros [Hwf Hp]. apply Forall_forall. intros [k l] [Hl _]%elem_of_List_filter. simpl.
  apply (Hp k). by apply (dget_elem_of _ _ _ Hwf).
Qed.
Lemma drop_ok f : preserves park_ok (drop_where f).
Proof. apply preserves_modify. intros p Hp. apply park_ok_sub; [done|apply List_filter_sublist]. Qed.

(** ** A run of the sweep

    [select f l] keeps what [f] makes of the rows. *)
Fixpoint select {A B} (f : A -> option B) (l : list A) : list B :=
  match l with
  | [] => []
  | x :: l' => match f x with Some y => y :: select f l' | None => select f l' end
  end.
Lemma select_filter {A} (f : A -> bool) l : List.filter f l = select (fun x => if f x then Some x else None) l.
Proof. induction l as [|x l IH]; simpl; [done|]. rewrite IH. by destruct (f x). Qed.
Lemma select_map {A B} (f : A -> B) l : map f l = select (fun x => Some (f x)) l.
Proof. induction l as [|x l IH]; simpl; [done|by rewrite IH]. Qed.
Lemma select_select {A B C} (f : A -> option B) (g : B -> option C) l :
  select g (select f l) = select (fun x => match f x with Some y => g y | None => None end) l.
Proof.
  induction l as [|x l IH]; simpl; [done|]. destruct (f x) as [y|]; simpl; [|done].
  destruct (g y); by rewrite IH.
Qed.
Lemma select_ext {A B} (f g : A -> option B) l : (forall x, x ∈ l -> f x = g x) -> select f l = select g l.
Proof.
  induction l as [|x l IH]; intros H; simpl; [done|].
  rewrite (H x), IH; [done| |by left]. intros y Hy. apply H. by right.
Qed.
Lemma elem_of_select {A B} (f : A -> option B) l y : y ∈ select f l <-> exists x, x ∈ l /\ f x = Some y.
Proof.
  induction l as [|x l IH]; simpl; [split; [by intros ?%elem_of_nil|by intros (? & ?%elem_of_nil & _)]|].
  destruct (f x) as [z|] eqn:Hz; rewrite ?elem_of_cons, IH.
  - split; [intros [->|(w & Hw & Hf)]; [by exists x; split; [left|]|by exists w; split; [right|]]|].
    intros (w & [->|Hw]%elem_of_cons & Hf); [left; congruence|right; by exists w].
  - split; [intros (w & Hw & Hf); by exists w; split; [right|]|].
    intros (w & [->|Hw]%elem_of_cons & Hf); [congruence|by exists w].
Qed.

(** Rows whose keys are listed turn cold. *)
Definition cold (l : lease) : lease := evicted_lease (le_manifest l) "cold_resumable" l.
Definition cooled_row (ks : list string) (x : string * lease) : string * lease :=
  if bool_decide (fst x ∈ ks) then (fst x, cold (snd x)) else x.
Definition cooled (ks : list string) (d : list (string * lease)) : list (string * lease) := map (cooled_row ks) d.
Lemma cooled_keys ks d : (cooled ks d).*1 = d.*1.
Proof. induction d as [|x d IH]; simpl; [done|]. f_equal; [|done]. unfold cooled_row. by case_bool_decide. Qed.
Lemma cooled_cons k ks d l : dict_wf d -> dget d k = Some l -> k ∉ ks ->
  cooled ks (dset d k (cold l)) = cooled (k :: ks) d.
Proof.
  unfold dict_wf. induction d as [|[k' l'] d IH]; simpl; [done|]. intros [Hnot Hd]%NoDup_cons.
  destruct (String.eqb_spec k k') as [<-|Hne].
  - intros [= ->] Hk. simpl. f_equal.
    + unfold cooled_row. simpl. rewrite bool_decide_false by done. by rewrite bool_decide_true by (by left).
    + apply map_ext_in. intros [k2 l2] Hin%list_elem_of_In. unfold cooled_row. simpl.
      assert (k2 <> k) by (intros ->; apply Hnot; by apply (list_elem_of_fmap_2 fst) in Hin).
      destruct (decide (k2 ∈ ks)); [rewrite !bool_decide_true|rewrite !bool_decide_false]; set_solver.
  - intros Hl Hk. simpl. rewrite IH by done. f_equal. unfold cooled_row. simpl.
    destruct (decide (k' ∈ ks)); [rewrite !bool_decide_true|rewrite !bool_decide_false]; set_solver.
Qed.

(** What an eviction may add to the snapshots. *)
Lemma top_round_spec m :
  (top_round m = None <-> forall r s, m !! r = Some s -> r < 0) /\
  (forall r, top_round m = Some r -> is_Some (m !! r)).
Proof.
  unfold top_round. assert (Hl : forall l : list (Z * ReviewSnapshot),
    let t := foldr (fun x best => if fst x <? 0 then best else
      Some (match best with Some b => Z.max b (fst x) | None => fst x end)) None l in
    (t = None <-> Forall (fun x => fst x < 0) l) /\ forall r, t = Some r -> exists s, (r, s) ∈ l).
  { induction l as [|[r s] l [IH1 IH2]]; simpl; [done|]. destruct (r <? 0) eqn:Hr.
    - bool_to_prop. split; [rewrite Forall_cons; simpl; tauto|].
      intros r' [s' Hs']%IH2. exists s'. by right.
    - bool_to_prop. split; [split; [done|intros [? _]%Forall_cons; simpl in *; lia]|].
      intros r' [= <-]. destruct (foldr _ None l) as [b|].
      + destruct (IH2 b eq_refl) as [s' Hs']. destruct (Z.max_spec b r) as [[_ ->]|[_ ->]];
          [exists s; by left|exists s'; by right].
      + exists s. by left. }
  destruct (Hl (map_to_list m)) as [H1 H2]. split.
  - rewrite H1, Forall_forall. split; intros H.
    + intros r s Hs. apply (H (r, s)). by apply elem_of_map_to_list.
    + intros [r s] Hs%elem_of_map_to_list. by apply (H r s).
  - intros r [s Hs]%H2. exists s. by apply elem_of_map_to_list.
Qed.
Lemma top_round_insert m r s : 0 <= r ->
  is_Some (match top_round (<[r := s]> m) with Some r' => <[r := s]> m !! r' | None => None end).
Proof.
  intros Hr. destruct (top_round_spec (<[r := s]> m)) as [H1 H2].
  destruct (top_round _) as [r'|]; [by apply H2|]. exfalso.
  assert (r < 0); [|lia]. apply (proj1 H1 eq_refl r s). by rewrite lookup_insert_eq.
Qed.
Definition grown (ks : list string) (p p' : park) : Prop :=
  (forall k, k ∉ ks \/ is_Some (latest_snapshot k p) -> snapshots p' !! k = snapshots p !! k) /\
  (forall k, k ∈ ks -> review_key_ok k = true -> is_Some (latest_snapshot k p')).
Lemma latest_same k p p' : snapshots p' !! k = snapshots p !! k -> latest_snapshot k p' = latest_snapshot k p.
Proof. intros Hs. unfold latest_snapshot. by rewrite Hs. Qed.
Lemma grown_app ks1 ks2 p1 p2 p3 : grown ks1 p1 p2 -> grown ks2 p2 p3 -> grown (ks1 ++ ks2) p1 p3.
Proof.
  intros [H1 H2] [H3 H4]. split.
  - intros k Hk. rewrite H3; [apply H1|]; destruct Hk as [Hk|Hk]; [set_solver|by right|set_solver|].
    right. rewrite (latest_same _ p1); [done|]. apply H1. by right.
  - intros k Hk Hok. destruct (decide (k ∈ ks2)); [by apply H4|].
    assert (is_Some (latest_snapshot k p2)) by (apply H2; [set_solver|done]).
    rewrite (latest_same _ p2); [done|]. apply H3. by right.
Qed.
Lemma grown_leases p p' : snapshots p' = snapshots p -> grown [] p p'.
Proof. intros Hs. split; [by intros k _; rewrite Hs|by intros k ?%elem_of_nil]. Qed.
Lemma grown_evict k now p :
  grown [k] p (match latest_snapshot k p with
               | None => (save_snapshot (auto_snapshot k now) now p).2 | Some _ => p end).
Proof.
  destruct (latest_snapshot k p) as [s|] eqn:Hs.
  - split; [done|]. intros k' ->%list_elem_of_singleton _. by rewrite Hs.
  - unfold save_snapshot. rewrite st_bind_unfold. simpl.
    destruct (review_key_ok k) eqn:Hok; simpl.
    + split; simpl.
      * intros k' [Hk|Hk]; rewrite lookup_insert_ne; [done| |done|];
          [intros <-; apply Hk; by left|intros <-; rewrite Hs in Hk; by destruct Hk].
      * intros k' ->%list_elem_of_singleton _. unfold latest_snapshot in *. simpl. rewrite Hok in *.
        rewrite lookup_insert_eq. simpl. by apply top_round_insert.
    + split; [done|]. intros k' ->%list_elem_of_singleton. congruence.
Qed.

Lemma evict_all_run now rows p :
  dict_wf (leases p) -> NoDup rows.*1 ->
  Forall (fun x => dget (leases p) (fst x) = Some (snd x) /\ hot (snd x) = true) rows ->
  exists p', evict_all now rows p = (Ok rows.*1, p') /\ leases p' = cooled rows.*1 (leases p) /\
  grown rows.*1 p p'.
Proof.
  revert p. induction rows as [|[k l] rows IH]; intros p Hwf Hnd Hrows.
  { exists p. split_and!; [done| |by apply grown_leases].
    symmetry. simpl. unfold cooled. rewrite <- (map_id (leases p)) at 2. apply map_ext. intros x.
    unfold cooled_row. by rewrite bool_decide_false by apply not_elem_of_nil. }
  apply NoDup_cons in Hnd as [Hk Hnd]. apply Forall_cons in Hrows as [[Hl Hhot] Hrows]. simpl in *.
  pose proof (grown_evict k now p) as Hg. rewrite st_bind_unfold. unfold _evict_one at 1.
  set (p1 := match latest_snapshot k p with None => _ | Some _ => p end) in *.
  assert (Hp1 : leases p1 = leases p).
  { unfold p1. case_match; [done|]. unfold save_snapshot. rewrite st_bind_unfold. simpl.
    by destruct (review_key_ok k). }
  rewrite Hp1, Hl, Hhot. set (p2 := set_leases _ p1).
  destruct (IH p2) as (p' & Hrun & Hleases & Hgrown).
  - by apply dset_wf.
  - done.
  - apply Forall_forall. intros [k' l'] Hin. destruct (proj1 (Forall_forall _ _) Hrows _ Hin) as [Hd Hh].
    simpl in *. split; [|done]. rewrite dget_dset_ne; [done|]. intros <-. apply Hk.
    by apply (list_elem_of_fmap_2 fst _ (k, l')).
  - exists p'. rewrite st_bind_unfold, Hrun. split_and!; [done| |].
    + rewrite Hleases. unfold p2. simpl. by apply cooled_cons.
    + apply (grown_app [k] rows.*1 p p2); [|done].
      destruct Hg as [Hg1 Hg2]. split; [exact Hg1|].
      intros k' Hk' Hok. rewrite (latest_same _ p1); [by apply Hg2|done].
Qed.

Lemma select_Some {A} (l : list A) : select Some l = l.
Proof. induction l as [|x l IH]; simpl; congruence. Qed.
Lemma cooled_select ks d : cooled ks d = select (fun x => Some (cooled_row ks x)) d.
Proof. apply select_map. Qed.
Lemma cooled_wf ks d : dict_wf d -> dict_wf (cooled ks d).
Proof. unfold dict_wf. by rewrite cooled_keys. Qed.
(** The keys of the rows of a table that satisfy [f] are theirs alone. *)
Lemma key_where (f : string * lease -> bool) d x : dict_wf d -> x ∈ d ->
  bool_decide (fst x ∈ (List.filter f d).*1) = f x.
Proof.
  intros Hwf Hx. apply eq_iff_eq_true. rewrite bool_decide_eq_true, list_elem_of_fmap. split.
  - intros (y & Hk & [Hy Hf]%elem_of_List_filter). destruct x as [k l], y as [k' l']. simpl in Hk. subst k'.
    apply (dget_elem_of _ _ _ Hwf) in Hx. apply (dget_elem_of _ _ _ Hwf) in Hy. congruence.
  - intros Hf. exists x. split; [done|]. by apply elem_of_List_filter.
Qed.
Lemma evict_where now (rows : list (string * lease)) p :
  dict_wf (leases p) -> NoDup rows.*1 -> (forall x, x ∈ rows -> x ∈ leases p /\ hot (snd x) = true) ->
  exists p', evict_all now rows p = (Ok rows.*1, p') /\ leases p' = cooled rows.*1 (leases p) /\
  grown rows.*1 p p'.
Proof.
  intros Hwf Hnd Hrows. apply evict_all_run; [done..|]. apply Forall_forall. intros [k l] Hx.
  destruct (Hrows _ Hx) as [Hin Hhot]. split; [|done]. by apply (dget_elem_of _ _ _ Hwf).
Qed.

(** What a sweep does to each row of the table [d], all rows at once. *)
Definition healthy (now : Z) (x : string * lease) : bool := hot (snd x) && negb (expired now (snd x)).
Definition lru (now : Z) (d : list (string * lease)) : list string :=
  let active := by_activity (List.filter (healthy now) d) in
  (take (length active - max_hot_parked) active).*1.
Definition worn (l : lease) : bool := max_rounds <=? dint (le_manifest l) "round" 0.
Definition fate (now : Z) (d : list (string * lease)) (x : string * lease) : option (string * lease) :=
  let (k, l) := x in
  if hot l then
    if expired now l then if passed (le_hard l) now then None else Some (k, cold l)
    else if bool_decide (k ∈ lru now d) || worn l then Some (k, cold l) else Some x
  else if cold_over now l || released_over now l then None else Some x.
Definition sweep_keys (now : Z) (d : list (string * lease)) : list string :=
  (List.filter (fun x => hot (snd x) && expired now (snd x)) d).*1 ++ lru now d ++
  (List.filter (fun x => healthy now x && negb (bool_decide (fst x ∈ lru now d)) && worn (snd x)) d).*1.

Lemma lru_rows now d x : x ∈ take (length (by_activity (List.filter (healthy now) d)) - max_hot_parked)
    (by_activity (List.filter (healthy now) d)) -> x ∈ d /\ healthy now x = true.
Proof.
  intros Hx. apply elem_of_List_filter. rewrite <- by_activity_perm.
  eapply elem_of_submseteq; [exact Hx|]. apply sublist_submseteq, sublist_take.
Qed.
Lemma cold_hot l : hot (cold l) = false. Proof. done. Qed.
(** The table after the first stage, and its hot rows: the healthy ones. *)
Definition timed (now : Z) (x : string * lease) : option (string * lease) :=
  if hot (snd x) && expired now (snd x)
  then if passed (le_hard (snd x)) now then None else Some (fst x, cold (snd x))
  else if cold_over now (snd x) then None else Some x.
Lemma sweep_stage1 now d : dict_wf d ->
  List.filter (fun x => negb (cold_over now (snd x)))
    (cooled (List.filter (fun x => hot (snd x) && expired now (snd x)) d).*1 d) = select (timed now) d.
Proof.
  intros Hwf. rewrite cooled_select, select_filter, select_select. apply select_ext. intros [k l] Hx.
  unfold cooled_row, timed. rewrite key_where by done. simpl.
  destruct (hot l && expired now l); simpl; [|by destruct (cold_over now l)].
  unfold cold_over. simpl. by destruct (passed (le_hard l) now).
Qed.
Lemma timed_hot now x :
  match timed now x with Some y => if hot (snd y) then Some y else None | None => None end
  = if healthy now x then Some x else None.
Proof.
  destruct x as [k l]. unfold timed, healthy, cold_over, hot. simpl.
  destruct (String.eqb_spec (le_lifecycle l) "hot_parked") as [Hhot|Hhot]; simpl.
  - rewrite Hhot. destruct (expired now l); simpl.
    + destruct (passed (le_hard l) now); reflexivity.
    + by rewrite Hhot.
  - apply String.eqb_neq in Hhot. destruct (_ && _); simpl; by rewrite ?Hhot.
Qed.
Lemma timed_healthy now x : healthy now x = true -> timed now x = Some x.
Proof.
  intros Hx. pose proof (timed_hot now x) as Ht. rewrite Hx in Ht.
  destruct (timed now x) as [y|]; [|done]. by destruct (hot (snd y)).
Qed.
Lemma stage1_hot now d : List.filter (fun x => hot (snd x)) (select (timed now) d) = List.filter (healthy now) d.
Proof. rewrite !select_filter, select_select. apply select_ext. intros x _. apply timed_hot. Qed.
Lemma lru_healthy now d x : dict_wf d -> x ∈ d -> fst x ∈ lru now d -> healthy now x = true.
Proof.
  intros Hwf Hx (y & Hk & [Hy Hh]%lru_rows)%list_elem_of_fmap. destruct x as [k l], y as [k' l'].
  simpl in Hk. subst k'. apply (dget_elem_of _ _ _ Hwf) in Hx, Hy. congruence.
Qed.
(** The hot rows after the second stage. *)
Lemma stage2_hot now d : dict_wf d ->
  List.filter (fun x => worn (snd x)) (List.filter (fun x => hot (snd x)) (cooled (lru now d) (select (timed now) d)))
  = List.filter (fun x => healthy now x && negb (bool_decide (fst x ∈ lru now d)) && worn (snd x)) d.
Proof.
  intros Hwf. rewrite cooled_select, !select_filter, !select_select. apply select_ext. intros x Hx.
  pose proof (timed_hot now x) as Ht. pose proof (lru_healthy now d x Hwf Hx) as Hl.
  destruct (healthy now x) eqn:Hh; simpl.
  - rewrite (timed_healthy _ _ Hh). unfold cooled_row. case_bool_decide; simpl; [done|].
    apply andb_true_iff in Hh as [-> _]. done.
  - destruct (timed now x) as [y|] eqn:Hy; [|done]. destruct (hot (snd y)) eqn:Hhy; [done|].
    unfold cooled_row. case_bool_decide; simpl; by rewrite ?Hhy.
Qed.
(** The table at the end. *)
Lemma stage3_rows now d : dict_wf d ->
  List.filter (fun x => negb (released_over now (snd x)))
    (cooled (List.filter (fun x => healthy now x && negb (bool_decide (fst x ∈ lru now d)) && worn (snd x)) d).*1
      (cooled (lru now d) (select (timed now) d)))
  = select (fate now d) d.
Proof.
  intros Hwf. rewrite !cooled_select, select_filter, !select_select. apply select_ext. intros [k l] Hx.
  pose proof (lru_healthy now d (k, l) Hwf Hx) as Hl.
  pose proof (key_where (fun x => healthy now x && negb (bool_decide (fst x ∈ lru now d)) && worn (snd x)) d _
    Hwf Hx) as Hk. simpl in *.
  assert (Hr : released_over now (cold l) = false) by done.
  destruct (healthy now (k, l)) eqn:Hh; simpl in Hk.
  - rewrite (timed_healthy _ _ Hh). unfold healthy in Hh. simpl in Hh.
    apply andb_true_iff in Hh as [Hhot Hexp%negb_true_iff]. rewrite Hhot, Hexp. unfold cooled_row. simpl.
    destruct (bool_decide (k ∈ lru now d)) eqn:Hin; simpl in *; rewrite Hk; [done|].
    destruct (worn l); [done|]. simpl. unfold released_over. unfold hot in Hhot. apply String.eqb_eq in Hhot as ->. done.
  - assert (Hin : bool_decide (k ∈ lru now d) = false) by (apply bool_decide_eq_false; naive_solver).
    unfold healthy in Hh. unfold timed, cooled_row. simpl in *. destruct (hot l) eqn:Hhot; simpl in *.
    + apply negb_false_iff in Hh. rewrite Hh. destruct (passed (le_hard l) now); [done|]. simpl. rewrite Hin. simpl. by rewrite Hk.
    + destruct (cold_over now l); [done|]. simpl. rewrite Hin. simpl. rewrite Hk. simpl.
      by destruct (released_over now l).
Qed.
Lemma lru_nodup now d : dict_wf d -> NoDup (lru now d).
Proof.
  intros Hwf. unfold lru. eapply sublist_NoDup; [|apply (map_sublist fst), sublist_take].
  rewrite (Permutation_map fst (by_activity_perm _)). by apply filter_wf.
Qed.
Lemma park_sweep_run now p : dict_wf (leases p) ->
  exists p', sweep now p = (Ok (sweep_keys now (leases p)), p') /\
  leases p' = select (fate now (leases p)) (leases p) /\ grown (sweep_keys now (leases p)) p p'.
Proof.
  intros Hwf. unfold sweep. rewrite st_bind_unfold. cbv beta iota delta [gets].
  edestruct (evict_where now (rows_where (fun l => hot l && expired now l) p) p) as (p1 & Hr1 & Hl1 & Hg1);
    [done|by apply filter_wf| |].
  { intros [k l] [Hin Hf]%elem_of_List_filter. split; [done|]. simpl in Hf. by bool_to_prop. }
  rewrite st_bind_unfold, Hr1. rewrite st_bind_unfold. cbv beta iota delta [drop_where modify].
  set (p2 := set_leases _ p1).
  assert (Hl2 : leases p2 = select (timed now) (leases p)).
  { rewrite <- sweep_stage1 by done. unfold p2, rows_where. simpl. by rewrite Hl1. }
  assert (Hwf2 : dict_wf (leases p2)).
  { unfold p2. simpl. apply filter_wf. rewrite Hl1. by apply cooled_wf. }
  assert (Hh2 : rows_where hot p2 = List.filter (healthy now) (leases p)).
  { unfold rows_where. rewrite Hl2. apply stage1_hot. }
  rewrite st_bind_unfold. rewrite Hh2. cbv beta iota.
  set (active := by_activity _).
  edestruct (evict_where now (take (length active - max_hot_parked) active) p2) as (p3 & Hr3 & Hl3 & Hg3);
    [done|by apply lru_nodup| |].
  { intros x Hx. assert (Hx' : x ∈ rows_where hot p2).
    { rewrite Hh2. apply elem_of_List_filter. by apply lru_rows. }
    by apply elem_of_List_filter in Hx'. }
  rewrite st_bind_unfold, Hr3. rewrite st_bind_unfold. cbv beta iota.
  change (take _ active).*1 with (lru now (leases p)) in *. rewrite Hl2 in Hl3.
  set (rows3 := List.filter _ (rows_where hot p3)).
  assert (H3 : rows3 = List.filter (fun x => healthy now x && negb (bool_decide (fst x ∈ lru now (leases p)))
    && worn (snd x)) (leases p)).
  { unfold rows3, rows_where. rewrite Hl3. by apply stage2_hot. }
  assert (Hwf3 : dict_wf (leases p3)) by (rewrite Hl3, <- Hl2; by apply cooled_wf).
  edestruct (evict_where now rows3 p3) as (p4 & Hr4 & Hl4 & Hg4); [done|by do 2 apply filter_wf| |].
  { by intros x [Hx _]%elem_of_List_filter; apply elem_of_List_filter in Hx. }
  rewrite st_bind_unfold, Hr4. eexists. split; [unfold sweep_keys; rewrite <- H3; reflexivity|]. split.
  - simpl. unfold rows_where. rewrite Hl4, H3, Hl3. by apply stage3_rows.
  - unfold sweep_keys. rewrite <- H3. change (leases p4) with (leases (set_leases (leases p4) p4)).
    apply (grown_app _ _ _ p1); [exact Hg1|]. apply (grown_app _ _ _ p3); [exact Hg3|exact Hg4].
Qed.

(** A sweep answers the reviews it evicted and does to every row what
    [fate] says of the table it began with: an expired hot lease turns cold, or
    goes when its hard limit has passed too; the least recently used beyond
    three and those of five rounds turn cold; cold and released leases go when
    their time is over; the rest stays as it is and in its place.  It takes away
    no snapshot and leaves one for each evicted review whose key can name one. *)
Theorem sweep_fates now p : dict_wf (leases p) ->
  exists p', sweep now p = (Ok (sweep_keys now (leases p)), p') /\
  leases p' = select (fate now (leases p)) (leases p) /\
  (forall k, k ∉ sweep_keys now (leases p) \/ is_Some (latest_snapshot k p) ->
    snapshots p' !! k = snapshots p !! k) /\
  (forall k, k ∈ sweep_keys now (leases p) -> review_key_ok k = true -> is_Some (latest_snapshot k p')).
Proof.
  intros Hwf. destruct (park_sweep_run now p Hwf) as (p' & Hr & Hl & Hs & Hn). by exists p'.
Qed.

Definition older (x y : string * lease) : Prop := le_last (snd x) <= le_last (snd y).
Lemma insert_row_sorted x l : StronglySorted older l -> StronglySorted older (insert_row x l).
Proof.
  induction 1 as [|y l Hl IH Hy]; simpl; [repeat constructor|]. case_match; bool_to_prop.
  - constructor; [by constructor|]. constructor; [done|]. eapply Forall_impl; [exact Hy|].
    unfold older. intros z Hz. lia.
  - constructor; [done|]. rewrite insert_row_perm. constructor; [unfold older; lia|done].
Qed.
Lemma by_activity_sorted l : StronglySorted older (by_activity l).
Proof. induction l as [|x l IH]; simpl; [constructor|by apply insert_row_sorted]. Qed.
Definition spared (now : Z) (d : list (string * lease)) (x : string * lease) : bool :=
  healthy now x && negb (bool_decide (fst x ∈ lru now d)) && negb (worn (snd x)).
Lemma fate_hot now d x :
  match fate now d x with Some y => if hot (snd y) then Some y else None | None => None end
  = if spared now d x then Some x else None.
Proof.
  destruct x as [k l]. unfold fate, spared, healthy. simpl. destruct (hot l) eqn:Hhot; simpl.
  - destruct (expired now l); simpl; [by destruct (passed _ _)|].
    destruct (bool_decide _); [done|]. destruct (worn l); [done|]. simpl. by rewrite Hhot.
  - destruct (_ || _); [done|]. simpl. by rewrite Hhot.
Qed.
Lemma swept_hot now d : List.filter (fun x => hot (snd x)) (select (fate now d) d) = List.filter (spared now d) d.
Proof. rewrite !select_filter, select_select. apply select_ext. intros x _. apply fate_hot. Qed.
Lemma filter_mono {A} (f g : A -> bool) l : (forall x, f x = true -> g x = true) ->
  List.filter f l `sublist_of` List.filter g l.
Proof.
  intros H. induction l as [|x l IH]; simpl; [constructor|]. specialize (H x).
  destruct (f x), (g x); first [by constructor|done|discriminate (H eq_refl)].
Qed.
Lemma filter_perm {A} (f : A -> bool) l k : l ≡ₚ k -> List.filter f l ≡ₚ List.filter f k.
Proof.
  induction 1 as [|x l k _ IH|x y l|l1 l2 l3 _ IH1 _ IH2]; simpl.
  - done.
  - destruct (f x); by rewrite IH.
  - destruct (f x), (f y); try done. by constructor.
  - by rewrite IH1.
Qed.
Lemma filter_both {A} (f g : A -> bool) l : List.filter f (List.filter g l) = List.filter (fun x => g x && f x) l.
Proof. induction l as [|x l IH]; simpl; [done|]. destruct (g x); simpl; by rewrite ?IH. Qed.
Lemma spared_few now d : (length (List.filter (spared now d) d) <= 3)%nat.
Proof.
  set (active := by_activity (List.filter (healthy now) d)).
  set (kept := fun x : string * lease => negb (bool_decide (fst x ∈ lru now d))).
  assert (Hsub : List.filter (spared now d) d `sublist_of` List.filter kept (List.filter (healthy now) d)).
  { rewrite filter_both. apply filter_mono. intros x [Hx _]%andb_true_iff. exact Hx. }
  apply sublist_length in Hsub. etrans; [exact Hsub|].
  assert (Hp : List.filter kept (List.filter (healthy now) d) ≡ₚ List.filter kept active).
  { apply filter_perm. symmetry. apply by_activity_perm. }
  rewrite Hp, <- (take_drop (length active - max_hot_parked) active), List.filter_app, length_app.
  replace (List.filter kept (take _ active)) with (@nil (string * lease)).
  - simpl. etrans; [apply List.filter_length_le|]. rewrite length_drop. unfold max_hot_parked. lia.
  - symmetry. apply elem_of_nil_inv. intros x [Hx Hk]%elem_of_List_filter. unfold kept in Hk.
    apply negb_true_iff, bool_decide_eq_false in Hk. apply Hk. by apply (list_elem_of_fmap_2 fst).
Qed.
Lemma spared_recent now d x y : dict_wf d -> x ∈ d -> healthy now x = true -> fst x ∈ lru now d ->
  spared now d y = true -> y ∈ d -> older x y.
Proof.
  intros Hwf Hx Hh Hin Hy Hyd. unfold spared in Hy. apply andb_true_iff in Hy as [[Hhy Hny]%andb_true_iff _].
  pose proof (by_activity_sorted (List.filter (healthy now) d)) as Hs. unfold lru in *.
  set (active := by_activity _) in *. set (n := (length active - max_hot_parked)%nat) in *.
  rewrite <- (take_drop n active) in Hs. apply (StronglySorted_app_1_elem_of older _ _ x y Hs).
  - apply list_elem_of_fmap in Hin as ([k l] & Hk & Hin). destruct x as [k' l']. simpl in Hk. subst k'.
    destruct (lru_rows _ _ _ Hin) as [Hkd _]. apply (dget_elem_of _ _ _ Hwf) in Hx, Hkd.
    by assert (l = l') as <- by congruence.
  - apply negb_true_iff, bool_decide_eq_false in Hny.
    assert (Hya : y ∈ active) by (unfold active; rewrite by_activity_perm; by apply elem_of_List_filter).
    rewrite <- (take_drop n active) in Hya. apply elem_of_app in Hya as [Hya|Hya]; [|done].
    exfalso. apply Hny. by apply (list_elem_of_fmap_2 fst).
Qed.
Lemma hot_keys now d x : dict_wf d -> x ∈ d -> hot (snd x) = true ->
  (fst x ∈ sweep_keys now d <-> spared now d x = false).
Proof.
  intros Hwf Hx Hhot. unfold sweep_keys. rewrite !elem_of_app.
  rewrite <- (bool_decide_eq_true (fst x ∈ (List.filter _ d).*1)), key_where by done.
  rewrite <- (bool_decide_eq_true (fst x ∈ (List.filter _ d).*1)), key_where by done.
  pose proof (lru_healthy now d x Hwf Hx) as Hl. unfold spared, healthy in *. rewrite Hhot in *. simpl in *.
  rewrite !andb_true_iff, !andb_false_iff, !negb_true_iff, !negb_false_iff, bool_decide_eq_true, bool_decide_eq_false.
  rewrite negb_true_iff in Hl. destruct (expired now (snd x)), (worn (snd x)), (decide (fst x ∈ lru now d)); naive_solver.
Qed.
Lemma keys_hot now d k : k ∈ sweep_keys now d -> exists l, (k, l) ∈ d /\ hot l = true.
Proof.
  unfold sweep_keys. rewrite !elem_of_app. unfold lru.
  intros [Hk|[Hk|Hk]]; apply list_elem_of_fmap in Hk as ([k' l] & Hk & Hx); simpl in Hk; subst k'; exists l.
  - apply elem_of_List_filter in Hx as [Hx [Hh _]%andb_true_iff]. done.
  - apply lru_rows in Hx as [Hx [Hh _]%andb_true_iff]. done.
  - apply elem_of_List_filter in Hx as [Hx [[[Hh _]%andb_true_iff _]%andb_true_iff _]%andb_true_iff]. done.
Qed.

(** C22: After a sweep at most three leases are hot, each is the same as before,
    within its time and under five rounds; no lease that was let go for their
    number had been used more recently than one that was kept; and the
    answer names exactly the reviews that were hot before and are not now. *)
Theorem sweep_bounds now p : dict_wf (leases p) ->
  let p' := (sweep now p).2 in
  (length (rows_where hot p') <= max_hot_parked)%nat /\
  (forall k l, (k, l) ∈ rows_where hot p' ->
    (k, l) ∈ leases p /\ expired now l = false /\ dint (le_manifest l) "round" 0 < max_rounds) /\
  (forall k l k' l', (k, l) ∈ rows_where hot p -> (k, l) ∉ rows_where hot p' -> expired now l = false ->
    dint (le_manifest l) "round" 0 < max_rounds -> (k', l') ∈ rows_where hot p' -> le_last l <= le_last l') /\
  (exists ks, (sweep now p).1 = Ok ks /\
    forall k, k ∈ ks <-> k ∈ (rows_where hot p).*1 /\ k ∉ (rows_where hot p').*1).
Proof.
  intros Hwf p'. destruct (park_sweep_run now p Hwf) as (q & Hr & Hl & _).
  assert (Hh : rows_where hot p' = List.filter (spared now (leases p)) (leases p)).
  { unfold p'. rewrite Hr. unfold rows_where. simpl. rewrite Hl. apply swept_hot. }
  rewrite Hr, Hh. simpl. set (d := leases p) in *. clearbody p'. clear q Hr Hl.
  assert (Hsp : forall k l, (k, l) ∈ List.filter (spared now d) d <-> (k, l) ∈ d /\ spared now d (k, l) = true)
    by (intros; apply elem_of_List_filter).
  split_and!.
  - apply spared_few.
  - intros k l [Hin Hs]%Hsp. unfold spared, healthy, worn in Hs. simpl in Hs. bool_to_prop. done.
  - intros k l k' l' [Hin Hhot]%elem_of_List_filter Hnot Hexp Hround [Hin' Hs']%Hsp. simpl in Hhot.
    apply (spared_recent now d (k, l) (k', l')); try done; [unfold healthy; simpl; by rewrite Hhot, Hexp|].
    destruct (decide (k ∈ lru now d)) as [|Hk]; [done|]. destruct Hnot. apply Hsp. split; [done|].
    unfold spared, healthy, worn. simpl. rewrite Hhot, Hexp, (bool_decide_eq_false_2 _ Hk). simpl.
    apply negb_true_iff, Z.leb_gt. done.
  - eexists. split; [done|]. intros k. split.
    + intros Hk. destruct (keys_hot _ _ _ Hk) as (l & Hin & Hhot). split.
      * apply (list_elem_of_fmap_2 fst _ (k, l)), elem_of_List_filter. done.
      * intros ([k' l'] & Hk' & [Hin' Hs]%elem_of_List_filter)%list_elem_of_fmap. simpl in Hk'. subst k'.
        apply (hot_keys now d (k, l') Hwf Hin') in Hk; [congruence|].
        unfold spared, healthy in Hs. simpl in *. by bool_to_prop.
    + intros [([k' l] & Hk & [Hin Hhot]%elem_of_List_filter)%list_elem_of_fmap Hnot]. simpl in *. subst k'.
      apply (hot_keys now d (k, l) Hwf Hin Hhot). apply not_true_iff_false. intros Hs. apply Hnot.
      by apply (list_elem_of_fmap_2 fst _ (k, l)), Hsp.
Qed.

(** ** Runs of the registry *)
Inductive park_op :=
  | Acquire (k : string) (m : ParkManifest) (now : Z)
  | Renew (k : string) (now : Z)
  | Update (k : string) (m : ParkManifest) (now : Z)
  | Release (k mode : string) (now : Z)
  | Save (s : ReviewSnapshot) (now : Z)
  | Evict (k : string) (stale : ParkManifest) (now : Z)
  | Sweep (now : Z)
  | Migrate.
Definition park_step (op : park_op) (p : park) : park :=
  match op with
  | Acquire k m now => (acquire k m now p).2
  | Renew k now => (renew k now p).2
  | Update k m now => (update k m now p).2
  | Release k mode now => (release k mode now p).2
  | Save s now => (save_snapshot s now p).2
  | Evict k stale now => (_evict_one k (_manifest_to_dict stale) "cold_resumable" now p).2
  | Sweep now => (sweep now p).2
  | Migrate => (_init_db p).2
  end.
Definition park_run (ops : list park_op) (p : park) : park := fold_left (fun q op => park_step op q) ops p.
Lemma park_run_preserves (P : park -> Prop) (allowed : park_op -> Prop) ops p :
  (forall op q, allowed op -> P q -> P (park_step op q)) -> Forall allowed ops -> P p -> P (park_run ops p).
Proof. intros Hstep Hops. revert p. induction Hops as [|op ops Hop _ IH]; intros p Hp; simpl; [done|]. auto. Qed.

Lemma select_keys {A B} (f : A -> option B) (g : A -> string) (h : B -> string) l :
  (forall x y, f x = Some y -> h y = g x) -> map h (select f l) `sublist_of` map g l.
Proof.
  intros H. induction l as [|x l IH]; simpl; [constructor|]. specialize (H x).
  destruct (f x) as [y|]; simpl; [rewrite (H y) by done|]; by constructor.
Qed.
Lemma fate_row now d x y : fate now d x = Some y -> y = x \/ hot (snd x) = true /\ y = (fst x, cold (snd x)).
Proof.
  destruct x as [k l]. unfold fate. simpl.
  destruct (hot l); repeat case_match; intros [= <-]; auto.
Qed.
Lemma fate_key now d x y : fate now d x = Some y -> fst y = fst x.
Proof. by intros [->|[_ ->]]%fate_row. Qed.
Lemma select_fate_wf now d : dict_wf d -> dict_wf (select (fate now d) d).
Proof.
  intros Hd. unfold dict_wf in *. eapply sublist_NoDup; [exact Hd|].
  apply (select_keys _ fst fst). apply fate_key.
Qed.
Lemma dget_fate now d k : dict_wf d ->
  dget (select (fate now d) d) k = match dget d k with
                                   | Some l => match fate now d (k, l) with Some y => Some (snd y) | None => None end
                                   | None => None
                                   end.
Proof.
  intros Hd. apply option_eq. intros l'. rewrite <- dget_elem_of by (by apply select_fate_wf).
  rewrite elem_of_select. split.
  - intros ([k0 l] & Hin & Hf). assert (k0 = k) as -> by (symmetry; by apply fate_key in Hf).
    apply (dget_elem_of _ _ _ Hd) in Hin as ->. by rewrite Hf.
  - destruct (dget d k) as [l|] eqn:Hl; [|done]. destruct (fate now d (k, l)) as [[k1 l1]|] eqn:Hf; [|done].
    intros [= <-]. exists (k, l). apply (dget_elem_of _ _ _ Hd) in Hl. split; [done|].
    assert (k1 = k) as -> by (by apply fate_key in Hf). done.
Qed.
Lemma sweep_leases now p : dict_wf (leases p) -> leases (sweep now p).2 = select (fate now (leases p)) (leases p).
Proof. intros Hwf. by destruct (park_sweep_run now p Hwf) as (p' & -> & Hl & _). Qed.
Lemma sweep_ok now p : park_ok p -> park_ok (sweep now p).2.
Proof.
  intros [Hwf Hp]. split; rewrite sweep_leases by done; [by apply select_fate_wf|]. intros k l'.
  rewrite dget_fate by done. destruct (dget (leases p) k) as [l|] eqn:Hl; [|done].
  destruct (Hp k l Hl) as [m Hm]. destruct (fate _ _ _) as [y|] eqn:Hf; [|done]. intros [= <-].
  apply fate_row in Hf as [->|[_ ->]]; [by exists m|]. simpl. eexists. unfold cold. destruct Hm as [-> _].
  by apply (shows_evicted m _ COLD_RESUMABLE).
Qed.
Lemma migrate_ok p : park_ok p -> park_ok (_init_db p).2.
Proof.
  intros [Hwf Hp]. split; simpl.
  - unfold dict_wf in *. rewrite map_map. done.
  - intros k l. rewrite dget_map. destruct (dget (leases p) k) as [l0|] eqn:Hl; [|done]. intros [= <-].
    destruct (Hp k l0 Hl) as [m [Hm Hlc]]. exists m. split; [done|]. simpl.
    destruct (String.eqb_spec (le_lifecycle l0) "released") as [He|]; [|done]. rewrite He in Hlc. done.
Qed.
Lemma step_ok op p : park_ok p -> park_ok (park_step op p).
Proof.
  destruct op; simpl.
  - apply acquire_ok. - apply renew_ok. - apply update_ok. - apply release_ok. - apply save_snapshot_ok.
  - apply evict_ok. - apply sweep_ok. - apply migrate_ok.
Qed.
Lemma run_ok ops p : park_ok p -> park_ok (park_run ops p).
Proof.
  apply (park_run_preserves park_ok (fun _ => True)); [intros; by apply step_ok|]. by apply Forall_true.
Qed.
Lemma empty_ok : park_ok empty_park.
Proof. by split; [apply NoDup_nil|]. Qed.

Lemma lookup_shows k p : park_ok p ->
  (dget (leases p) k = None -> lookup k p = (Ok None, p)) /\
  (forall l, dget (leases p) k = Some l -> exists m, lookup k p = (Ok (Some m), p) /\ shows l m).
Proof.
  intros [_ Hp]. unfold lookup. rewrite st_bind_unfold. simpl. split; [by intros ->|]. intros l Hl.
  destruct (Hp k l Hl) as [m Hm]. exists m. rewrite Hl. destruct Hm as [Hd Hlc].
  rewrite Hd, st_bind_unfold. unfold lift. by rewrite manifest_round.
Qed.
Lemma active_shows p : park_ok p ->
  exists ms, list_active p = (Ok ms, p) /\ Forall2 (fun x m => shows (snd x) m) (rows_where hot p) ms.
Proof.
  intros Hp. unfold list_active. rewrite st_bind_unfold. simpl. unfold lift. fold (rows_where hot p).
  induction (rows_show hot p Hp) as [|[k l] rows [m Hm] _ (ms & Hms & Hall)]; simpl; [by exists []|].
  exists (m :: ms). destruct Hm as [Hd Hlc]. simpl in Hd. rewrite Hd, manifest_round. simpl.
  injection Hms as ->. split; [done|]. by constructor.
Qed.
(** C24: Whatever calls are made, in whatever order, and whatever rows an eviction
    was given, every row shows one manifest: the lifecycle column and the stored
    dictionary agree, [lookup] finds a manifest exactly for the reviews that
    have a row and never fails, and [list_active] answers the hot ones. *)
Theorem park_rows_ok ops : let p := park_run ops empty_park in
  (forall k, match dget (leases p) k with
             | None => lookup k p = (Ok None, p)
             | Some l => exists m, lookup k p = (Ok (Some m), p) /\ Lifecycle_of (le_lifecycle l) = Some (pm_lifecycle m)
             end) /\
  (exists ms, list_active p = (Ok ms, p) /\ length ms = length (rows_where hot p) /\
    Forall (fun m => pm_lifecycle m = HOT_PARKED) ms).
Proof.
  intros p. assert (Hp : park_ok p) by apply run_ok, empty_ok. split.
  - intros k. destruct (lookup_shows k p Hp) as [Hn Hs]. destruct (dget (leases p) k) as [l|]; [|by apply Hn].
    destruct (Hs l eq_refl) as (m & Hm & Hd & Hlc). by exists m.
  - destruct (active_shows p Hp) as (ms & Hms & Hall). exists ms. split_and!; [done|by apply Forall2_length in Hall|].
    assert (Hhot : Forall (fun x => hot (snd x) = true) (rows_where hot p)).
    { apply Forall_forall. by intros x [_ Hx]%elem_of_List_filter. }
    clear Hms. induction Hall as [|[k l] m rows ms [_ Hlc] _ IH]; [constructor|].
    apply Forall_cons in Hhot as [Hl Hhot]. constructor; [|by apply IH].
    simpl in *. unfold hot in Hl. apply String.eqb_eq in Hl. rewrite Hl in Hlc. by injection Hlc.
Qed.

(** *** Exclusion

    The calls that leave a lease of review [k] in force that must hold until
    [limit]. *)
Definition keeps (k : string) (limit : Z) (op : park_op) : Prop :=
  match op with
  | Update k' m now => k' = k -> pm_lifecycle m <> RELEASED_SOFT /\ limit <= or_zero (pm_hard_expires_at m) (now + hard_limit)
  | Release k' _ _ => k' <> k
  | Sweep now => now <= limit
  | _ => True
  end.
Definition forced (limit : Z) (l : lease) : Prop :=
  exists lc, Lifecycle_of (le_lifecycle l) = Some lc /\ lc <> RELEASED_SOFT /\ limit <= le_hard l.
Definition in_force (k : string) (limit : Z) (p : park) : Prop :=
  dict_wf (leases p) /\ exists l, dget (leases p) k = Some l /\ forced limit l.
Lemma acquire_row k m now p : acquire k m now p =
  match dget (leases p) k with
  | Some l => match Lifecycle_of (le_lifecycle l) with
              | None => (Raise (ValueError ("'" +:+ le_lifecycle l +:+ "' is not a valid Lifecycle")), p)
              | Some RELEASED_SOFT => (Ok true, set_leases (dset (leases p) k (lease_of m now)) p)
              | Some _ => (Ok false, p)
              end
  | None => (Ok true, set_leases (dset (leases p) k (lease_of m now)) p)
  end.
Proof.
  unfold acquire. rewrite st_bind_unfold. simpl. destruct (dget (leases p) k) as [l|]; [|done].
  by destruct (Lifecycle_of (le_lifecycle l)) as [[]|].
Qed.
Lemma in_force_put k k' limit l p : in_force k limit p -> (k' = k -> forced limit l) ->
  in_force k limit (set_leases (dset (leases p) k' l) p).
Proof.
  intros (Hwf & l0 & Hl0 & Hf) Hl. split; simpl; [by apply dset_wf|]. rewrite dget_dset.
  case_decide; [exists l; auto|by exists l0].
Qed.
Lemma in_force_row k limit p l : in_force k limit p -> dget (leases p) k = Some l -> forced limit l.
Proof. intros (_ & l0 & Hl0 & Hf) Hl. by assert (l = l0) as -> by congruence. Qed.
Lemma in_force_same k limit p q : leases q = leases p -> in_force k limit p -> in_force k limit q.
Proof. unfold in_force. by intros ->. Qed.
Lemma in_force_refuses k limit m now p : in_force k limit p -> acquire k m now p = (Ok false, p).
Proof.
  intros (_ & l & Hl & lc & Hlc & Hne & _). rewrite acquire_row, Hl, Hlc. by destruct lc.
Qed.
Lemma save_leases s now p : leases (save_snapshot s now p).2 = leases p.
Proof. unfold save_snapshot. rewrite st_bind_unfold. simpl. by destruct (review_key_ok _). Qed.
Lemma in_force_fate now d k limit l : now <= limit -> forced limit l ->
  exists y, fate now d (k, l) = Some y /\ forced limit (snd y).
Proof.
  intros Hnow (lc & Hlc & Hne & Hlim). assert (Hpass : passed (le_hard l) now = false).
  { unfold passed. apply andb_false_iff. right. apply Z.ltb_ge. lia. }
  assert (Hcold : forced limit (cold l)) by (by exists COLD_RESUMABLE).
  assert (Hsame : forced limit l) by (by exists lc).
  unfold fate, cold_over. rewrite Hpass, andb_false_r. destruct (hot l); simpl.
  - destruct (expired now l); [by eexists|]. by destruct (_ || _); eexists.
  - replace (released_over now l) with false; [by eexists|]. symmetry. unfold released_over.
    rewrite bool_decide_false; [done|]. intros Hin. rewrite !elem_of_cons, elem_of_nil in Hin.
    destruct Hin as [Hr|[Hr|[]]]; rewrite Hr in Hlc; injection Hlc as <-; done.
Qed.
Lemma in_force_step k limit op p : keeps k limit op -> in_force k limit p -> in_force k limit (park_step op p).
Proof.
  intros Hop Hf. pose proof (in_force_row k limit p) as Hrow. destruct op as
    [k' m now|k' now|k' m now|k' mode now|s now|k' stale now|now|]; simpl in *.
  - destruct (decide (k' = k)) as [->|Hk]; [by rewrite (in_force_refuses _ limit)|]. rewrite acquire_row.
    repeat case_match; simpl; first [done|by apply in_force_put].
  - unfold renew. rewrite st_bind_unfold. simpl. destruct (dget _ k') as [l|] eqn:Hl; [|done].
    apply in_force_put; [done|]. intros ->. destruct (Hrow l Hf Hl) as (lc & ? & ? & ?). by exists lc.
  - assert (Hput : in_force k limit (set_leases (dset (leases p) k' (lease_of m now)) p)).
    { apply in_force_put; [done|]. intros Hk. destruct (Hop Hk) as [Hlc Hlim].
      exists (pm_lifecycle m). split; [apply Lifecycle_of_value|done]. }
    unfold update. rewrite st_bind_unfold. simpl. destruct (dget _ k') as [l|] eqn:Hl; [done|].
    by rewrite st_bind_unfold, acquire_row, Hl.
  - destruct Hf as (Hwf & l & Hl & Hforce). unfold release. case_match.
    + split; simpl; [by apply ddel_wf|]. exists l. by rewrite dget_ddel_ne.
    + rewrite st_bind_unfold. simpl. destruct (dget (leases p) k') as [l'|]; [|by split; [|exists l]].
      apply in_force_put; [by split; [|exists l]|]. done.
  - by apply (in_force_same _ _ p); [apply save_leases|].
  - unfold _evict_one. set (p1 := match latest_snapshot k' p with None => _ | Some _ => p end).
    assert (Hp1 : leases p1 = leases p) by (unfold p1; case_match; [done|apply save_leases]).
    assert (Hf1 : in_force k limit p1) by (by apply (in_force_same _ _ p)).
    destruct (dget (leases p1) k') as [l|] eqn:Hl; [|done]. destruct (hot l); [|done].
    apply in_force_put; [done|]. intros ->. destruct (in_force_row _ _ _ _ Hf1 Hl) as (lc & ? & ? & ?).
    by exists COLD_RESUMABLE.
  - destruct Hf as (Hwf & l & Hl & Hforce). destruct (in_force_fate now (leases p) k limit l Hop Hforce) as (y & Hy & Hfy).
    split; rewrite sweep_leases by done; [by apply select_fate_wf|]. exists (snd y). by rewrite dget_fate, Hl, Hy.
  - destruct Hf as (Hwf & l & Hl & lc & Hlc & Hne & Hlim). split; simpl.
    + unfold dict_wf in *. by rewrite map_map.
    + exists (migrated l). rewrite dget_map, Hl. split; [done|]. exists lc. split_and!; [|done..]. simpl.
      destruct (String.eqb_spec (le_lifecycle l) "released") as [He|]; [|done]. rewrite He in Hlc. done.
Qed.
(** C23: A lease is exclusive: once [acquire] has granted it, no [acquire] of that
    review succeeds, whoever asks, until it is released, deleted or its hard
    limit is over; renewals, updates, evictions, sweeps within the limit and
    the calls for other reviews do not open it. *)
Theorem lease_exclusive k m now p ops m' now' :
  dict_wf (leases p) -> (acquire k m now p).1 = Ok true -> pm_lifecycle m <> RELEASED_SOFT ->
  Forall (keeps k (or_zero (pm_hard_expires_at m) (now + hard_limit))) ops ->
  let q := park_run ops (acquire k m now p).2 in acquire k m' now' q = (Ok false, q).
Proof.
  intros Hwf Hacq Hlc Hops q. eapply in_force_refuses. unfold q.
  eapply (park_run_preserves _ _ _ _ (fun op q => in_force_step k _ op q) Hops).
  assert (Hput : (acquire k m now p).2 = set_leases (dset (leases p) k (lease_of m now)) p).
  { rewrite acquire_row in *. repeat case_match; done. }
  rewrite Hput. split; simpl; [by apply dset_wf|]. exists (lease_of m now).
  rewrite dget_dset, decide_True by done. split; [done|]. exists (pm_lifecycle m).
  split_and!; [apply Lifecycle_of_value|done|simpl; lia].
Qed.

(** *** Recovery after an eviction *)
Lemma revive_row k prompt is_alive p m : lookup k p = (Ok (Some m), p) ->
  pm_lifecycle m = COLD_RESUMABLE -> exists r, revive_or_spawn k prompt is_alive p = (Ok r, p) /\
  rv_success r = true /\ rv_manifest r = Some m /\ rv_prompt r = prompt /\
  (pm_backend_session_id m <> "" -> rv_method r = "warm" /\
    rv_context r = "Warm resume available (cold_resumable): backend_session_id=" +:+ pm_backend_session_id m) /\
  (pm_backend_session_id m = "" -> rv_method r = "cold" /\ rv_context r = build_cold_context k p).
Proof.
  intros Hl Hc. unfold revive_or_spawn. rewrite st_bind_unfold, Hl, st_bind_unfold. simpl.
  rewrite Hc. simpl. destruct (String.eqb_spec (pm_backend_session_id m) "") as [He|He]; simpl; eexists; split_and!; done.
Qed.
(** An evicted review can be had back.  When a sweep evicted it and its hard
    limit is not over, [revive_or_spawn] answers the manifest it was parked
    with, now cold: a warm resume of its backend session if it had one, and
    otherwise a cold start whose context is drawn from a snapshot, the latest
    that existed or the one the sweep wrote. *)
Theorem evicted_recoverable now p k l ks prompt is_alive :
  park_ok p -> dget (leases p) k = Some l -> (sweep now p).1 = Ok ks -> k ∈ ks ->
  passed (le_hard l) now = false -> review_key_ok k = true ->
  let q := (sweep now p).2 in exists m r s,
  shows l m /\ latest_snapshot k q = Some s /\ (forall s0, latest_snapshot k p = Some s0 -> s = s0) /\
  revive_or_spawn k prompt is_alive q = (Ok r, q) /\ rv_success r = true /\ rv_prompt r = prompt /\
  rv_manifest r = Some (with_lifecycle COLD_RESUMABLE (pm_release_mode m) m) /\
  (pm_backend_session_id m <> "" -> rv_method r = "warm") /\
  (pm_backend_session_id m = "" -> rv_method r = "cold" /\ rv_context r = build_cold_context k q).
Proof.
  intros Hp Hl Hks Hk Hhard Hok q. destruct (park_sweep_run now p (proj1 Hp)) as (p' & Hr & Hleases & Hsame & Hnew).
  pose proof (sweep_ok now p Hp) as Hq. fold q in Hq. unfold q in *. rewrite Hr in *. simpl in *. injection Hks as <-.
  assert (Hin : (k, l) ∈ leases p) by (by apply (dget_elem_of _ _ _ (proj1 Hp))).
  destruct (keys_hot _ _ _ Hk) as (l2 & Hin2 & Hhot). apply (dget_elem_of _ _ _ (proj1 Hp)) in Hin2.
  assert (l2 = l) as -> by congruence.
  assert (Hfate : dget (leases p') k = Some (cold l)).
  { rewrite Hleases, (dget_fate _ _ _ (proj1 Hp)), Hl. apply (hot_keys now _ (k, l) (proj1 Hp) Hin Hhot) in Hk.
    unfold spared, healthy in Hk. unfold fate. simpl in Hk. rewrite Hhot, Hhard in *. simpl in Hk.
    destruct (expired now l); [done|]. simpl in Hk. destruct (bool_decide _); [done|]. simpl in Hk.
    by destruct (worn l). }
  destruct (proj2 Hp k l Hl) as [m Hm]. destruct (lookup_shows k p' Hq) as [_ Hs].
  destruct (Hs _ Hfate) as (m' & Hlook & Hd' & Hlc').
  assert (m' = with_lifecycle COLD_RESUMABLE (pm_release_mode m) m) as ->.
  { apply manifest_inj. rewrite <- Hd'. unfold cold. destruct Hm as [-> _].
    exact (dict_with_lifecycle COLD_RESUMABLE m). }
  destruct (revive_row k prompt is_alive p' _ Hlook eq_refl) as (r & Hr' & Hok' & Hman & Hpr & Hw & Hcold).
  destruct (Hnew k Hk Hok) as [s Hsn]. exists m, r, s. split_and!; try done.
  - intros s0 Hs0. rewrite (latest_same k p p') in Hsn; [congruence|]. apply Hsame. right. by exists s0.
  - intros Hb. by apply Hw.
Qed.

(** *** A defect: the eviction writes what it read

    [_evict_one] runs under the lock of its review but keeps the manifest the
    sweep had read before: an update that came between is undone, the backend
    session it recorded is forgotten, and a lease renewed since is evicted. *)
Lemma update_row k l m now p : dget (leases p) k = Some l ->
  (update k m now p).2 = set_leases (dset (leases p) k (lease_of m now)) p.
Proof. intros Hl. unfold update. rewrite st_bind_unfold. simpl. by rewrite Hl. Qed.
Theorem evict_loses_update k l m m' now now' p :
  park_ok p -> dget (leases p) k = Some l -> shows l m -> pm_lifecycle m' = HOT_PARKED ->
  let q := park_step (Evict k m now') (park_step (Update k m' now) p) in
  lookup k q = (Ok (Some (with_lifecycle COLD_RESUMABLE (pm_release_mode m) m)), q) /\
  exists l', dget (leases q) k = Some l' /\ le_last l' = now /\ le_lifecycle l' = "cold_resumable".
Proof.
  intros Hp Hl Hm Hhot q. assert (Hq : park_ok q) by (by do 2 apply step_ok).
  assert (Hrow : dget (leases q) k = Some (evicted_lease (_manifest_to_dict m) "cold_resumable" (lease_of m' now))).
  { unfold q. simpl park_step. rewrite (update_row _ _ _ _ _ Hl). set (p2 := set_leases _ p). unfold _evict_one.
    set (p1 := match latest_snapshot k p2 with None => _ | Some _ => p2 end).
    assert (Hp1 : leases p1 = leases p2) by (unfold p1; case_match; [done|apply save_leases]).
    rewrite Hp1. unfold p2. simpl. rewrite dget_dset, decide_True by done. unfold hot at 1. simpl.
    rewrite Hhot. simpl. rewrite dget_dset, decide_True by done. done. }
  split; [|by eexists]. destruct (proj2 (lookup_shows k q Hq) _ Hrow) as (m2 & -> & Hd & _).
  do 3 f_equal. apply manifest_inj. rewrite <- Hd. exact (dict_with_lifecycle COLD_RESUMABLE m).
Qed.

(** ** Witnesses *)
Definition demo_manifest (k backend : string) (round : Z) : ParkManifest := {|
  pm_review_key := k; pm_swarm_session_id := "swarm"; pm_agent_type := "reviewer"; pm_model := "m1";
  pm_primary_model := "m1"; pm_host := "h"; pm_workdir := "/w"; pm_lifecycle := HOT_PARKED;
  pm_peer_agent_id := "peer"; pm_mailbox_agent_id := "agent"; pm_backend_session_id := backend;
  pm_parent_process_generation := ""; pm_created_at := 1; pm_last_activity_at := 1; pm_soft_expires_at := 0;
  pm_hard_expires_at := 0; pm_round := round; pm_last_msg_id := ""; pm_summary_uri := "";
  pm_transcript_uri := ""; pm_artifact_refs := ["a.md"]; pm_config_fingerprint := ""; pm_schema_version := 2;
  pm_release_mode := ""; pm_omp_session_path := ""; pm_provider := ""; pm_variant := "";
  pm_system_prompt := ""; pm_omp_session_dir := "" |}.
(** Five reviews parked at different times, the first expired at 4000000. *)
Definition demo_park : park := park_run [
  Acquire "r1" (demo_manifest "r1" "ses1" 0) 1000; Acquire "r2" (demo_manifest "r2" "" 1) 3000000;
  Acquire "r3" (demo_manifest "r3" "ses3" 5) 3100000; Acquire "r4" (demo_manifest "r4" "ses4" 0) 3200000;
  Acquire "r5" (demo_manifest "r5" "ses5" 2) 3300000] empty_park.
Lemma demo_park_ok : park_ok demo_park.
Proof. apply run_ok, empty_ok. Qed.

Lemma sweep_fates_witness :
  exists p', sweep 4000000 demo_park = (Ok ["r1"; "r2"; "r3"], p') /\ (length (leases p') = 5)%nat /\
  is_Some (latest_snapshot "r2" p').
Proof.
  destruct (sweep_fates 4000000 demo_park) as (p' & Hr & Hl & _ & Hs).
  { unfold dict_wf. apply (bool_decide_unpack _). by vm_compute. }
  exists p'. split_and!.
  - rewrite Hr. by vm_compute.
  - rewrite Hl. by vm_compute.
  - apply Hs; [|done]. apply (bool_decide_unpack _). by vm_compute.
Defined.
Lemma sweep_bounds_witness :
  (rows_where hot (sweep 4000000 demo_park).2).*1 = ["r4"; "r5"] /\
  exists ks, (sweep 4000000 demo_park).1 = Ok ks /\ "r2" ∈ ks.
Proof.
  split; [by vm_compute|]. destruct (sweep_bounds 4000000 demo_park) as (_ & _ & _ & ks & Hks & Hiff).
  { unfold dict_wf. apply (bool_decide_unpack _). by vm_compute. }
  exists ks. split; [done|]. apply Hiff. split; apply (bool_decide_unpack _); by vm_compute.
Defined.
Lemma lease_exclusive_witness :
  acquire "r1" (demo_manifest "r1" "other" 0) 99 (park_run [Renew "r1" 5; Sweep 4000000; Release "r2" "hard" 6]
    (park_run [Acquire "r1" (demo_manifest "r1" "ses1" 0) 1000] empty_park)) =
  (Ok false, park_run [Renew "r1" 5; Sweep 4000000; Release "r2" "hard" 6]
    (park_run [Acquire "r1" (demo_manifest "r1" "ses1" 0) 1000] empty_park)).
Proof.
  apply (lease_exclusive "r1" (demo_manifest "r1" "ses1" 0) 1000 empty_park [Renew "r1" 5; Sweep 4000000; Release "r2" "hard" 6]).
  - apply NoDup_nil_2.
  - by vm_compute.
  - done.
  - repeat constructor; by vm_compute.
Defined.
Lemma evicted_recoverable_witness :
  exists r, (revive_or_spawn "r2" "go on" None (sweep 4000000 demo_park).2).1 = Ok r /\ rv_method r = "cold".
Proof.
  destruct (dget (leases demo_park) "r2") as [l|] eqn:Hl; [|by vm_compute in Hl].
  destruct (evicted_recoverable 4000000 demo_park "r2" l ["r1"; "r2"; "r3"] "go on" None) as
    (m & r & s & Hm & _ & _ & Hr & _ & _ & _ & _ & Hc).
  - apply demo_park_ok.
  - done.
  - by vm_compute.
  - apply (bool_decide_unpack _). by vm_compute.
  - vm_compute in Hl. injection Hl as <-. by vm_compute.
  - done.
  - exists r. split; [by rewrite Hr|]. apply Hc. destruct Hm as [Hm _].
    assert (m = demo_manifest "r2" "" 1) as ->; [|done]. apply manifest_inj. rewrite <- Hm.
    vm_compute in Hl. injection Hl as <-. by vm_compute.
Defined.
Lemma evict_loses_update_witness :
  exists l', dget (leases (park_step (Evict "r1" (demo_manifest "r1" "ses1" 0) 7)
    (park_step (Update "r1" (demo_manifest "r1" "ses9" 3) 6) demo_park))) "r1" = Some l' /\
  le_last l' = 6 /\ le_lifecycle l' = "cold_resumable".
Proof.
  destruct (dget (leases demo_park) "r1") as [l|] eqn:Hl; [|by vm_compute in Hl].
  apply (evict_loses_update "r1" l (demo_manifest "r1" "ses1" 0) (demo_manifest "r1" "ses9" 3) 6 7 demo_park).
  - apply demo_park_ok.
  - done.
  - vm_compute in Hl. injection Hl as <-. by split; vm_compute.
  - done.
Defined.
