(* ===== verification/GatewayPark.v ===== *)
(** * The gateway over the park registry
    (src/src/codeagent/gateway/service.py, src/src/codeagent/park)

    The operations that the gateway uses of the park registry are those of
    [Park]; the rest of its surroundings stays a parameter.  What the gateway
    may do to a lease: renew it and record the backend session of a hot one,
    and release it when it is asked to; nothing wakes a released review. *)
From S2P Require Import Prelude Park GatewayStores GatewayService GatewayLaws GatewayState.

Section surroundings.
Context {V : Type} `{Backends V} (clock : V -> Z).

(** A call of the registry, made now. *)
Definition on_park {A} (m : Z -> st park A) : st (park * V) A := fun w =>
  let r := m (clock w.2) w.1 in (r.1, (r.2, w.2)).
Definition on_outside {A} (m : st V A) : st (park * V) A := fun w =>
  let r := m w.2 in (r.1, (w.1, r.2)).

Definition manifest_session (k : string) : st park (option string) :=
  found ← Park.lookup k; mret (pm_swarm_session_id <$> found).
Definition with_backend (backend : string) (m : ParkManifest) : ParkManifest := {|
  pm_review_key := pm_review_key m; pm_swarm_session_id := pm_swarm_session_id m;
  pm_agent_type := pm_agent_type m; pm_model := pm_model m; pm_primary_model := pm_primary_model m;
  pm_host := pm_host m; pm_workdir := pm_workdir m; pm_lifecycle := HOT_PARKED;
  pm_peer_agent_id := pm_peer_agent_id m; pm_mailbox_agent_id := pm_mailbox_agent_id m;
  pm_backend_session_id := backend; pm_parent_process_generation := pm_parent_process_generation m;
  pm_created_at := pm_created_at m; pm_last_activity_at := pm_last_activity_at m;
  pm_soft_expires_at := pm_soft_expires_at m; pm_hard_expires_at := pm_hard_expires_at m;
  pm_round := pm_round m; pm_last_msg_id := pm_last_msg_id m; pm_summary_uri := pm_summary_uri m;
  pm_transcript_uri := pm_transcript_uri m; pm_artifact_refs := pm_artifact_refs m;
  pm_config_fingerprint := pm_config_fingerprint m; pm_schema_version := pm_schema_version m;
  pm_release_mode := pm_release_mode m; pm_omp_session_path := pm_omp_session_path m;
  pm_provider := pm_provider m; pm_variant := pm_variant m; pm_system_prompt := pm_system_prompt m;
  pm_omp_session_dir := pm_omp_session_dir m |}.
(** What a registration reads of a hot-parked review, and what it writes later. *)
Definition hot_lookup (k : string) : st park (option ParkManifest) :=
  found ← Park.lookup k;
  mret match found with
       | Some m => if decide (pm_lifecycle m = HOT_PARKED) then Some m else None
       | None => None
       end.
Definition revive (k prompt : string) : st park (bool * string) :=
  rv ← Park.park_revive k prompt; mret (rv_success rv, rv_method rv).
#[local] Instance with_park : Backends (park * V) := {|
  park_session k := on_park (fun _ => manifest_session k);
  park_renew k := on_park (Park.renew k);
  hot_manifest := ParkManifest;
  park_hot k := on_park (fun _ => hot_lookup k);
  park_rebind k backend m := on_park (Park.update k (with_backend backend m));
  park_revive k prompt := on_park (fun _ => revive k prompt);
  park_release k := on_park (Park.release k "soft");
  driver_spawn a b c := on_outside (driver_spawn a b c);
  driver_stop a b := on_outside (driver_stop a b);
  driver_probe a := on_outside (driver_probe a);
  engine_sweep := on_outside engine_sweep;
  kernel_open a b c := on_outside (kernel_open a b c);
  kernel_join a b c := on_outside (kernel_join a b c);
  kernel_leave a b := on_outside (kernel_leave a b);
  kernel_direct a b c d := on_outside (kernel_direct a b c d);
  file_facts := file_facts; sha256 := sha256; json_dumps := json_dumps; json_loads := json_loads;
  py_repr := py_repr; local_host := local_host |}.
End surroundings.

(** [try: a = m() ... except e: ...] *)
Lemma preserves_try {T A B} (P : T -> Prop) (m : st T A) (k : A -> st T B) (h : pyexn -> st T B) :
  preserves P m -> (forall a, preserves P (k a)) -> (forall e, preserves P (h e)) ->
  preserves P (fun s => match m s with (Ok a, s') => k a s' | (Raise e, s') => h e s' end).
Proof.
  intros Hm Hk Hh s Hs. specialize (Hm s Hs). destruct (m s) as [[a|e] s']; [by apply Hk|by apply Hh].
Qed.

(** ** What requests do to their surroundings

    A property of the surroundings that the operations of the interface keep is
    kept by every request. *)
Section outer.
Context {W : Type} `{Backends W} (Q : W -> Prop).
Definition beyond (s : gateway * W) : Prop := Q s.2.
Lemma beyond_gw {A} (m : st gateway A) : preserves beyond (on_gw m).
Proof. by intros [g w] Hs. Qed.
Lemma beyond_ext {A} (m : st W A) : preserves Q m -> preserves beyond (on_ext m).
Proof. intros Hm [g w] Hs. by apply Hm. Qed.
Lemma beyond_quietly {A} (m : st (gateway * W) A) : preserves beyond m -> preserves beyond (quietly m).
Proof. intros Hm s Hs. by apply Hm. Qed.
Lemma beyond_tried {A} (m : st (gateway * W) A) : preserves beyond m -> preserves beyond (tried m).
Proof. intros Hm s Hs. by apply Hm. Qed.
Lemma beyond_refused {A} (m : st (gateway * W) A) : preserves beyond m -> preserves beyond (refused m).
Proof. intros Hm s Hs. specialize (Hm s Hs). unfold refused. by repeat case_match. Qed.

Record keeping : Prop := {
  kp_session k : preserves Q (park_session k); kp_renew k : preserves Q (park_renew k);
  kp_hot k : preserves Q (park_hot k);
  kp_sync k b m w : Q w -> (park_hot k w).1 = Ok (Some m) -> Q (park_rebind k b m (park_hot k w).2).2; kp_revive k p : preserves Q (park_revive k p);
  kp_spawn a b c : preserves Q (driver_spawn a b c); kp_stop a b : preserves Q (driver_stop a b);
  kp_probe a : preserves Q (driver_probe a); kp_sweep : preserves Q engine_sweep;
  kp_open a b c : preserves Q (kernel_open a b c); kp_join a b c : preserves Q (kernel_join a b c);
  kp_leave a b : preserves Q (kernel_leave a b); kp_direct a b c d : preserves Q (kernel_direct a b c d) }.
Context (Hkeep : keeping).
Lemma beyond_health r now : preserves beyond (health r now).
Proof.
  intros s Hs. pose proof (beyond_ext _ (kp_probe Hkeep (id_runtime (rr_id r))) s Hs) as Hp. unfold health.
  by destruct (on_ext _ s) as [[] ?].
Qed.
Lemma beyond_out {A} (m : st W A) : preserves Q m -> preserves beyond (on_ext m).
Proof. apply beyond_ext. Qed.
End outer.
Ltac outward := repeat (first [preserving_step | lazymatch goal with
  | |- preserves _ (on_ext _) => apply beyond_ext; first
      [by apply kp_session|by apply kp_renew|by apply kp_hot|by apply kp_revive|by apply kp_spawn|by apply kp_stop
      |by apply kp_probe|by apply kp_sweep|by apply kp_open|by apply kp_join|by apply kp_leave|by apply kp_direct|idtac]
  | |- preserves _ (on_gw _) => apply beyond_gw
  | |- preserves _ (quietly _) => apply beyond_quietly
  | |- preserves _ (tried _) => apply beyond_tried
  | |- preserves _ (health _ _) => by apply beyond_health
  | |- preserves _ (refused _) => apply beyond_refused
  | |- preserves _ ?m => let h := head_of m in progress unfold h
  end]).
Section outer2.
Context {W : Type} `{Backends W} (Q : W -> Prop) (Hkeep : keeping Q).
(** Looking at a manifest and writing it back at once. *)
Lemma beyond_sync p : preserves (beyond Q) (found ← sync_look p; sync_write p found).
Proof.
  intros [g w] Hs. rewrite st_bind_unfold. unfold sync_look. destruct (_ || _); [done|].
  rewrite st_bind_unfold. unfold tried, on_ext. simpl.
  pose proof (kp_hot Q Hkeep (rp_review p) w Hs) as Hh.
  pose proof (fun m => kp_sync Q Hkeep (rp_review p) (rp_backend p) m w Hs) as Hr.
  destruct (park_hot (rp_review p) w) as [[[m|]|e] w']; simpl in *; [|exact Hh|exact Hh].
  unfold beyond, quietly. simpl. by apply Hr.
Qed.
Lemma beyond_claim p now : preserves (beyond Q) (register_claim p now).
Proof. outward. Qed.
Lemma beyond_tell p held now : preserves (beyond Q) (register_tell p held now).
Proof. unfold register_tell. apply preserves_bind; [outward|intros [[body ?] ?]]. destruct held; outward. Qed.
Lemma beyond_register p now : preserves (beyond Q) (runtime_register p now).
Proof.
  intros s Hs. unfold runtime_register. rewrite st_bind_unfold. pose proof (beyond_claim p now s Hs) as Hc.
  destruct (register_claim p now s) as [[r|e] s1]; [|done]. pose proof (beyond_sync p s1 Hc) as Hsync.
  rewrite !st_bind_unfold in *. destruct (sync_look p s1) as [[found|e] s2]; [|done]. rewrite st_bind_unfold.
  destruct (sync_write p found s2) as [[[]|e] s3]; [|done]. by apply beyond_tell.
Qed.
Lemma beyond_dispatch r now : (forall k, r <> ReleaseReview k) -> preserves (beyond Q) (dispatch r now).
Proof.
  intros Hr. destruct r; unfold dispatch, drop_answer; try (exfalso; by eapply Hr);
    [..|idtac]; try (by apply preserves_bind; [apply beyond_register|intros ?; apply preserves_ret]); outward.
Qed.
Lemma beyond_send p ph now s : beyond Q s -> beyond Q (send_step p ph now s).2.
Proof.
  intros Hs. assert (Hn : preserves (beyond Q) (send_next p ph now)).
  { clear Hs. destruct ph as [|r|r|r mid|r|r dl|r|r|v]; simpl; try by outward.
    - unfold send_persist. case_bool_decide; [outward|]. apply preserves_try; [outward|intros rc|intros e].
      + case_match; [apply (preserves_bind (beyond Q)); [outward|intros v; outward]|by intros ? ?].
      + apply (preserves_bind (beyond Q)); [outward|intros v; outward].
    - unfold send_revive. apply preserves_try; [outward|intros [ok m]|intros e].
      + repeat case_match; (apply (preserves_bind (beyond Q)); [outward|intros v; outward]).
      + apply (preserves_bind (beyond Q)); [outward|intros v; outward]. }
  specialize (Hn s Hs). unfold send_step. by destruct (send_next p ph now s) as [[]].
Qed.
End outer2.

(** ** What the gateway does to leases *)
Lemma Lifecycle_hot s : Lifecycle_of s = Some HOT_PARKED -> s = "hot_parked".
Proof.
  unfold Lifecycle_of. destruct (String.eqb_spec s "hot_parked") as [->|_]; [done|].
  by repeat case_match.
Qed.
Section leases.
Context {V : Type} `{Backends V} (clock : V -> Z).
#[local] Existing Instance with_park.
Definition lifecycle_of (k : string) (p : park) : option string := le_lifecycle <$> dget (leases p) k.
(** The registry is in order and the lifecycles are [L]. *)
Definition standing (L : string -> option string) (w : park * V) : Prop :=
  park_ok w.1 /\ forall k, lifecycle_of k w.1 = L k.
Lemma on_park_keeps {A} L (m : Z -> st park A) :
  (forall now, preserves (fun p => park_ok p /\ forall k, lifecycle_of k p = L k) (m now)) ->
  preserves (standing L) (on_park clock m).
Proof. intros Hm [p v] Hp. exact (Hm (clock v) p Hp). Qed.
Lemma on_outside_keeps {A} L (m : st V A) : preserves (standing L) (on_outside m).
Proof. by intros [p v] Hp. Qed.
Lemma lifecycle_put k l p : lifecycle_of k p = Some (le_lifecycle l) ->
  forall k', lifecycle_of k' (set_leases (dset (leases p) k l) p) = lifecycle_of k' p.
Proof.
  intros Hk k'. unfold lifecycle_of in *. simpl. rewrite dget_dset. case_decide as Hd; [by subst|done].
Qed.
Lemma lookup_state k p : (Park.lookup k p).2 = p.
Proof.
  unfold Park.lookup. rewrite st_bind_unfold. simpl. destruct (dget (leases p) k); [|done].
  rewrite st_bind_unfold. unfold lift. by destruct (_dict_to_manifest _).
Qed.
Lemma revive_state k prompt p : (revive k prompt p).2 = p.
Proof.
  unfold revive, Park.park_revive, revive_or_spawn. rewrite !st_bind_unfold.
  pose proof (lookup_state k p) as Hl. destruct (Park.lookup k p) as [[o|e] p']; simpl in *; by subst.
Qed.
Lemma session_state k p : (manifest_session k p).2 = p.
Proof.
  unfold manifest_session. rewrite st_bind_unfold. pose proof (lookup_state k p) as Hl.
  destruct (Park.lookup k p) as [[o|e] p']; simpl in *; by subst.
Qed.
Lemma hot_lookup_spec k p : park_ok p -> (hot_lookup k p).2 = p /\
  (forall m, (hot_lookup k p).1 = Ok (Some m) -> lifecycle_of k p = Some "hot_parked") /\
  (forall l m, dget (leases p) k = Some l -> shows l m -> pm_lifecycle m = HOT_PARKED ->
    (hot_lookup k p).1 = Ok (Some m)).
Proof.
  intros Hp. unfold hot_lookup. rewrite st_bind_unfold. unfold lifecycle_of.
  destruct (dget (leases p) k) as [l|] eqn:Hl.
  - destruct (proj2 (lookup_shows k p Hp) l Hl) as (m & -> & Hm). simpl. split_and!; [done|..].
    + intros m'. case_decide as Hhot; [|done]. intros _. f_equal. destruct Hm as [_ Hlc].
      rewrite Hhot in Hlc. by apply Lifecycle_hot in Hlc.
    + intros l' m' [= <-] [Hm' _] Hhot'. assert (m = m') as ->.
      { apply manifest_inj. destruct Hm as [<- _]. done. }
      by rewrite decide_True.
  - rewrite (proj1 (lookup_shows k p Hp) Hl). by split_and!.
Qed.
Lemma rebind_spec k b m now p l : park_ok p -> dget (leases p) k = Some l -> le_lifecycle l = "hot_parked" ->
  park_ok (Park.update k (with_backend b m) now p).2 /\
  (forall k', lifecycle_of k' (Park.update k (with_backend b m) now p).2 = lifecycle_of k' p) /\
  dget (leases (Park.update k (with_backend b m) now p).2) k = Some (lease_of (with_backend b m) now).
Proof.
  intros Hp Hl Hhot. rewrite (update_row _ _ _ _ _ Hl). split_and!.
  - apply park_ok_put; [done|]. eexists. apply shows_lease_of.
  - apply lifecycle_put. unfold lifecycle_of. rewrite Hl. simpl. by rewrite Hhot.
  - simpl. by rewrite dget_dset, decide_True by done.
Qed.
Lemma rebind_hot k b m now p : park_ok p -> lifecycle_of k p = Some "hot_parked" ->
  park_ok (Park.update k (with_backend b m) now p).2 /\
  forall k', lifecycle_of k' (Park.update k (with_backend b m) now p).2 = lifecycle_of k' p.
Proof. intros Hp (l & Hl & Hh)%fmap_Some. by destruct (rebind_spec k b m now p l Hp Hl (eq_sym Hh)) as (? & ? & _). Qed.
Lemma renew_row k now p : leases (renew k now p).2 =
  match dget (leases p) k with Some l => dset (leases p) k (renewed now l) | None => leases p end.
Proof. unfold renew. rewrite st_bind_unfold. simpl. by destruct (dget (leases p) k). Qed.
Lemma keeps_standing L : keeping (H := with_park clock) (standing L).
Proof.
  split; intros; try apply on_outside_keeps; try (apply on_park_keeps; intros now q [Hp HL]).
  - by rewrite session_state.
  - split; [by apply renew_ok|]. intros k'. rewrite <- HL. unfold lifecycle_of. rewrite renew_row.
    destruct (dget (leases q) k) as [l|] eqn:Hl; [|done]. rewrite dget_dset. case_decide as Hk; [|done].
    subst. by rewrite Hl.
  - pose proof (proj1 (hot_lookup_spec k q Hp)) as Hq. destruct (hot_lookup k q) as [o q']. simpl in *. by subst.
  - destruct w as [q v], H0 as [Hp HL]. simpl in *. destruct (hot_lookup_spec k q Hp) as (Hq & Hhot & _).
    unfold on_park in *. simpl in *. rewrite Hq. destruct (rebind_hot k b m (clock v) q Hp) as [Hok Hl]; [by eapply Hhot|].
    split; [exact Hok|]. intros k'. simpl. by rewrite Hl.
  - by rewrite revive_state.
Qed.
Lemma release_spec k now p : park_ok p -> park_ok (Park.release k "soft" now p).2 /\
  forall k', lifecycle_of k' (Park.release k "soft" now p).2 =
    if decide (k' = k) then (fun _ => "released_soft") <$> lifecycle_of k p else lifecycle_of k' p.
Proof.
  intros Hp. split; [by apply release_ok|]. intros k'. unfold Park.release. simpl. rewrite st_bind_unfold. simpl.
  unfold lifecycle_of. destruct (dget (leases p) k) as [l|] eqn:Hl; simpl.
  - rewrite dget_dset. destruct (decide (k = k')), (decide (k' = k)); first [done|congruence].
  - case_decide; [by subst; rewrite Hl|done].
Qed.

(** A review is as it was, or has been released. *)
Definition only_released (p p' : park) : Prop :=
  forall k, lifecycle_of k p' = lifecycle_of k p \/
    (is_Some (lifecycle_of k p) /\ lifecycle_of k p' = Some "released_soft").
Lemma only_released_trans p1 p2 p3 : only_released p1 p2 -> only_released p2 p3 -> only_released p1 p3.
Proof.
  intros H1 H2 k. destruct (H1 k) as [E1|[S1 E1]], (H2 k) as [E2|[S2 E2]].
  - left. congruence.
  - right. by rewrite <- E1.
  - right. by rewrite E2, E1.
  - by right.
Qed.
Definition registry (x : system (H := with_park clock)) : park := (sys_state x).2.1.
(** Registrations that have read the manifest of review [k] and not yet written it back. *)
Definition between (x : system (H := with_park clock)) (k : string) : Prop :=
  exists i p m held, calls x !! i = Some (SyncWrite p (Some m), held) /\ rp_review p = k.
(** Anything runs, but no review is released between those two steps of a registration. *)
Definition quiet (x : system (H := with_park clock)) (a : action (H := with_park clock)) : Prop :=
  match a with Serve (ReleaseReview k) _ => ~ between x k | _ => True end.
Inductive quiet_step (x : system (H := with_park clock)) : system (H := with_park clock) -> Prop :=
| quiet_act a : quiet x a -> quiet_step x (exec1 x a).
Record orderly (x : system (H := with_park clock)) : Prop := {
  or_park : park_ok (registry x);
  or_between : forall k, between x k -> lifecycle_of k (registry x) = Some "hot_parked" }.

Lemma between_let_go (x y : system (H := with_park clock)) new g g' k :
  calls y = map (let_go new g g') (calls x) -> between y k -> between x k.
Proof.
  intros Hc (i & p & m & held & Hi & Hk). rewrite Hc, list_lookup_fmap in Hi.
  destruct (calls x !! i) as [[c h]|] eqn:Hx; [|done]. injection Hi as Hi.
  destruct (let_go_spec new g g' (c, h)) as [H1 _]. rewrite Hi in H1. simpl in H1. subst c. by exists i, p, m, h.
Qed.
(** A step that leaves the registry as it stands. *)
Lemma still_orderly (x y : system (H := with_park clock)) : orderly x ->
  standing (fun k => lifecycle_of k (registry x)) (sys_state y).2 ->
  (forall k, between y k -> between x k \/ lifecycle_of k (registry x) = Some "hot_parked") ->
  orderly y /\ only_released (registry x) (registry y).
Proof.
  intros [Hp Hb] [Hp' Hl] Hbet. split; [split; [done|]|].
  - intros k Hk. unfold registry. rewrite Hl. destruct (Hbet k Hk) as [Hx|Hx]; [by apply Hb|done].
  - intros k. left. apply Hl.
Qed.
(** What a step of a call does to the registry. *)
Lemma call_step_standing L c held now s : standing L s.2 ->
  (forall p m, c = SyncWrite p (Some m) -> L (rp_review p) = Some "hot_parked") ->
  standing L (call_step (H := with_park clock) c held now s).2.2 /\
  forall p m, (call_step (H := with_park clock) c held now s).1 = SyncWrite p (Some m) -> L (rp_review p) = Some "hot_parked".
Proof.
  intros Hs Hw. pose proof (keeps_standing L) as Hkeep.
  assert (Hn : forall m : st (gateway * (park * V)) (call_phase (H := with_park clock)), standing L (m s).2.2 ->
    (forall p' m' s', (m s').1 <> Ok (SyncWrite p' (Some m'))) ->
    standing L (match m s with (Ok c', s') => (c', s') | (Raise _, s') => (Finished, s') end).2.2 /\
    forall p' m', (match m s with (Ok c', s') => (c', s') | (Raise _, s') => (Finished, s') end).1 = SyncWrite p' (Some m') ->
      L (rp_review p') = Some "hot_parked").
  { intros m Hm Hno. specialize (fun p' m' => Hno p' m' s). destruct (m s) as [[c'|e] s']; split; try done.
    simpl. intros p' m' ->. by destruct (Hno p' m'). }
  assert (Hret : forall A (m : st (gateway * (park * V)) A) (k : A -> call_phase (H := with_park clock)), (forall a p' m', k a <> SyncWrite p' (Some m')) ->
    forall p' m' s', ((a ← m; mret (k a)) s').1 <> Ok (SyncWrite p' (Some m'))).
  { intros A m k Hk p' m' s'. rewrite st_bind_unfold. destruct (m s') as [[a|e] s1]; [|done].
    intros [= Hx]. by eapply Hk. }
  unfold call_step. destruct c; cbn [call_next].
  all: try (apply Hn; [|by apply Hret];
    match goal with H0 : standing ?M (?s0).2 |- standing _ (?m ?s0).2.2 =>
      apply (fun Hm : preserves (beyond (standing M)) m => Hm s0 H0) end;
    apply preserves_bind; [|intros ?; apply preserves_ret]; first [by apply beyond_claim|by apply beyond_tell|
      by outward|by (unfold stop_mark, context_persist; destruct held; outward)]).
  - clear Hn Hret. rewrite st_bind_unfold. unfold sync_look. destruct (_ || _); [by split|].
    rewrite st_bind_unfold. unfold tried, on_ext, on_park. simpl. destruct s as [g [q v]], Hs as [Hq HL]. simpl in *.
    destruct (hot_lookup_spec (rp_review p) q Hq) as (Hq' & Hhot & _). split; [rewrite Hq'; by split|].
    intros p' m [= <- Hm]. rewrite <- HL. apply (Hhot m). destruct (hot_lookup (rp_review p) q).1 as [[]|]; naive_solver.
  - apply Hn; [|by apply Hret]. clear Hn Hret. rewrite st_bind_unfold. destruct found as [m|]; [|done].
    destruct s as [g [q v]], Hs as [Hq HL]. simpl in *. specialize (Hw p m eq_refl). rewrite <- HL in Hw.
    destruct (rebind_hot (rp_review p) (rp_backend p) m (clock v) q Hq Hw) as [Hok Hl].
    split; [exact Hok|]. intros k. rewrite <- HL. apply Hl.
  - by split.
Qed.
Lemma quiet_orderly x y : orderly x -> quiet_step x y -> orderly y /\ only_released (registry x) (registry y).
Proof.
  intros Hx Hs. set (L := fun k => lifecycle_of k (registry x)).
  assert (Hst : standing L (sys_state x).2) by (split; [apply Hx|done]).
  assert (Hstay : orderly x /\ only_released (registry x) (registry x)) by (split; [done|by left]).
  destruct Hs as [a Ha]. destruct a as [p|i now|r now|c|i now]; simpl.
  - apply still_orderly; [done..|]. intros k Hk. by left.
  - destruct (threads x !! i) as [[p ph]|]; [|done]. apply still_orderly; [done| |by left].
    by apply (beyond_send (H := with_park clock) (standing L) (keeps_standing L)).
  - assert (Hr : (exists k, r = ReleaseReview k) \/ forall k, r <> ReleaseReview k)
      by (destruct r; try (by right); left; by eexists).
    destruct Hr as [[k ->]|Hr].
    + destruct Hx as [Hp Hb]. unfold registry in *. simpl in Ha |- *. unfold on_ext, on_park. simpl.
      set (q := (sys_state x).2.1) in *. set (v := (sys_state x).2.2).
      destruct (release_spec k (clock v) q Hp) as [Hok Hl]. split; [split; [exact Hok|]|]; unfold registry; simpl.
      * intros k' Hk'. eapply (between_let_go x) in Hk'; [|reflexivity]. rewrite Hl. case_decide as Hd; [by subst|by apply Hb].
      * intros k'. rewrite Hl. case_decide as Hk; [|by left]. subst k'. destruct (lifecycle_of k q); [by right|by left].
    + apply still_orderly; [done| |].
      * by apply (beyond_dispatch (H := with_park clock) (standing L) (keeps_standing L)).
      * intros k Hk. left. exact (between_let_go x (served r now x) _ _ _ k eq_refl Hk).
  - destruct (begins c) eqn:Hc; [|done]. apply still_orderly; [done..|].
    intros k (i & p & m & held & Hi & Hk). simpl in Hi. apply lookup_snoc_Some in Hi as [[_ Hi]|[_ Hi]]; [|by simplify_eq].
    left. by exists i, p, m, held.
  - destruct (calls x !! i) as [[c held]|] eqn:Hi; [|done].
    destruct (call_step_standing L c held now (sys_state x) Hst) as [Hst' Hnew].
    { intros p m ->. apply Hx. by exists i, p, m, held. }
    apply still_orderly; [done|exact Hst'|].
    intros k (j & p & m & h & Hj & Hk). simpl in Hj. destruct (decide (i = j)) as [<-|Hne].
    + rewrite list_lookup_insert_eq in Hj by (rewrite length_map; by eapply lookup_lt_Some).
      injection Hj as Hj _. right. rewrite <- Hk. by eapply Hnew.
    + rewrite list_lookup_insert_ne in Hj by done. left.
      rewrite list_lookup_fmap in Hj. destruct (calls x !! j) as [[c' h']|] eqn:Hx'; [|done]. injection Hj as Hj.
      match type of Hj with let_go ?n ?g ?g' _ = _ => destruct (let_go_spec n g g' (c', h')) as [H1 _] end.
      rewrite Hj in H1. simpl in H1. subst c'. by exists j, p, m, h'.
Qed.

(** C25: Whatever requests the gateway serves, with registrations, sends, stops
    and context changes step by step, as long as no review is released between
    the two steps in which a registration reads its manifest and writes it
    back: the only change of a lifecycle that the gateway makes is to release a
    review that has a lease; no registration, heartbeat, send or revival wakes,
    cools, adds or removes one, and a released review is never taken for a hot
    one again.  The condition is needed ([sync_wakes_released]). *)
Theorem gateway_keeps_leases x y : rtc quiet_step x y -> park_ok (registry x) -> (forall k, ~ between x k) ->
  park_ok (registry y) /\ only_released (registry x) (registry y).
Proof.
  intros Hs Hp Hno. assert (Hx : orderly x) by (split; [done|intros k Hk; by destruct (Hno k)]). clear Hp Hno.
  induction Hs as [x|x y z Hs _ IH]; [split; [apply Hx|by left]|].
  destruct (quiet_orderly x y Hx Hs) as [Hy Hxy]. destruct (IH Hy) as [Hz Hyz].
  split; [done|]. by eapply only_released_trans.
Qed.

Lemma sync_look_run p m (s : gateway * (park * V)) : rp_review p <> "" -> rp_backend p <> "" ->
  hot_lookup (rp_review p) s.2.1 = (Ok (Some m), s.2.1) ->
  sync_look (H := with_park clock) p s = (Ok (Some m), s).
Proof.
  intros Hk Hb Hl. apply String.eqb_neq in Hk, Hb. unfold sync_look. rewrite Hk, Hb. simpl.
  rewrite st_bind_unfold. unfold tried, on_ext, on_park. simpl. destruct s as [g [q v]]. simpl in *.
  change (hot_lookup (rp_review p) q) with ((fun _ : Z => hot_lookup (rp_review p)) 0 q) in Hl. cbv beta in Hl.
  by rewrite Hl.
Qed.

(** A release between the two steps of a registration is undone: the registration
    writes the manifest that it read, and the released review is hot again. *)
Theorem sync_wakes_released x i p held now now' now'' l m :
  let k := rp_review p in
  park_ok (registry x) -> calls x !! i = Some (SyncLook p, held) -> k <> "" -> rp_backend p <> "" ->
  dget (leases (registry x)) k = Some l -> shows l m -> pm_lifecycle m = HOT_PARKED ->
  let x1 := exec1 (H := with_park clock) x (Go i now) in
  let x2 := exec1 (H := with_park clock) x1 (Serve (ReleaseReview k) now') in
  let x3 := exec1 (H := with_park clock) x2 (Go i now'') in
  lifecycle_of k (registry x2) = Some "released_soft" /\ lifecycle_of k (registry x3) = Some "hot_parked".
Proof.
  intros k Hp Hi Hk Hb Hl Hm Hhot x1 x2 x3.
  destruct (hot_lookup_spec k (registry x) Hp) as (Hq & _ & Hlook). specialize (Hlook l m Hl Hm Hhot).
  assert (H1 : calls x1 !! i = Some (SyncWrite (H := with_park clock) p (Some m), held) /\ registry x1 = registry x).
  { unfold x1, exec1. rewrite Hi. unfold called_on, registry, call_step. cbn [call_next]. rewrite st_bind_unfold.
    rewrite (sync_look_run p m _ Hk Hb) by (apply injective_projections; [exact Hlook|exact Hq]). simpl.
    rewrite list_lookup_insert_eq; [done|]. rewrite length_map. by eapply lookup_lt_Some. }
  destruct H1 as [Hi1 Hr1]. clearbody x1.
  assert (H2 : exists held', calls x2 !! i = Some (SyncWrite (H := with_park clock) p (Some m), held')).
  { unfold x2. simpl. rewrite list_lookup_fmap, Hi1. simpl.
    match goal with |- context [let_go ?n ?g ?g' ?y] => destruct (let_go_spec n g g' y) as [H1 _]; destruct (let_go n g g' y) end.
    simpl in H1. subst. by eexists. }
  destruct H2 as [held' Hi2].
  assert (Hrow : exists l2, dget (leases (registry x2)) k = Some l2 /\ le_lifecycle l2 = "released_soft").
  { unfold x2, registry in *. simpl. unfold on_ext, on_park. simpl.
    destruct (release_spec k (clock (sys_state x1).2.2) (sys_state x1).2.1) as [_ Hlc]; [by rewrite Hr1|].
    specialize (Hlc k). rewrite decide_True in Hlc by done. rewrite Hr1 in *. unfold lifecycle_of in Hlc at 2.
    rewrite Hl in Hlc. simpl in Hlc. by apply fmap_Some in Hlc as (l2 & ? & ?); exists l2. }
  destruct Hrow as (l2 & Hl2 & Hlc2). split; [unfold lifecycle_of; rewrite Hl2; simpl; by rewrite Hlc2|].
  unfold x3, exec1. rewrite Hi2. clearbody x2. unfold called_on, registry, call_step in *. cbn [call_next sync_write sys_state].
  rewrite st_bind_unfold. unfold quietly, on_ext. simpl. unfold on_park. simpl. unfold lifecycle_of. fold k.
  rewrite (update_row _ _ _ _ _ Hl2). simpl. by rewrite dget_dset, decide_True.
Qed.

(** A registration that gives a hot-parked review its backend session leaves
    it in the manifest, so that the review, once evicted or released, is to be
    resumed warm in that very session; the rest of the manifest stays. *)
Theorem register_syncs p now s m0 l :
  let q := s.2.1 in let k := rp_review p in
  park_ok q -> dget (leases q) k = Some l -> shows l m0 -> pm_lifecycle m0 = HOT_PARKED ->
  k <> "" -> rp_backend p <> "" -> is_ok (runtime_register (H := with_park clock) p now s).1 = true ->
  let q' := (runtime_register (H := with_park clock) p now s).2.2.1 in
  Park.lookup k q' = (Ok (Some (with_backend (rp_backend p) m0)), q').
Proof.
  intros q k Hq Hl Hm Hhot Hk Hb. rewrite register_flat, st_bind_unfold.
  destruct (register_claim (H := with_park clock) p now s) as [[r|e] s1] eqn:Hc; [|done].
  assert (Hs1 : s1.2 = s.2).
  { change s1 with ((Ok r : res RuntimeRecord, s1).2). rewrite <- Hc. clear Hc. symmetry.
    refine ((_ : preserves (beyond (eq s.2)) (register_claim (H := with_park clock) p now)) s eq_refl). outward. }
  rewrite st_bind_unfold. destruct (hot_lookup_spec k q Hq) as (Hq1 & _ & Hlook). specialize (Hlook l m0 Hl Hm Hhot).
  rewrite (sync_look_run p m0 s1 Hk Hb) by (rewrite Hs1; by apply injective_projections).
  set (w := on_park clock (Park.update k (with_backend (rp_backend p) m0)) s.2).
  rewrite st_bind_unfold. assert (Hq1' : sync_write (H := with_park clock) p (Some m0) s1 = (Ok tt, (s1.1, w.2))).
  { unfold sync_write, quietly, on_ext, w. simpl. by rewrite Hs1. }
  rewrite Hq1'. cbv beta iota. intros _.
  match goal with |- let q' := ?t in _ => set (q' := t); change (Park.lookup k q' = (Ok (Some (with_backend (rp_backend p) m0)), q')) end.
  assert (Hq' : q' = w.2.1).
  { unfold q'. match goal with |- (?m ?x).2.2.1 = _ => enough (beyond (eq w.2) (m x).2) as <- end; [done|].
    match goal with |- beyond _ (?m ?x).2 => enough (preserves (beyond (eq w.2)) m) as Hp by by apply Hp end.
    outward. }
  assert (Hhot' : le_lifecycle l = "hot_parked").
  { destruct Hm as [_ Hlc]. rewrite Hhot in Hlc. by apply Lifecycle_hot in Hlc. }
  rewrite Hq'. destruct (rebind_spec k (rp_backend p) m0 (clock s.2.2) q l Hq Hl Hhot') as (Hpk & _ & Hrow).
  destruct (proj2 (lookup_shows _ _ Hpk) _ Hrow) as (m & Hlook' & Hd & _).
  apply manifest_inj in Hd. subst m. exact Hlook'.
Qed.
End leases.

(** ** Witnesses *)
Definition demo_clock (_ : unit) : Z := 5000000.
#[local] Instance demo_parked : Backends (park * unit) := with_park (H := demo_backends) demo_clock.
Definition parked_register (review : string) : register_params := {|
  rp_session := "s1"; rp_agent := "w1"; rp_runtime := "rt1"; rp_generation := 1; rp_review := review;
  rp_backend := "ses-new"; rp_kind := "omp"; rp_owner_pid := 7; rp_nonce := "n"; rp_caps := [] |}.
Definition parked_start : system (H := demo_parked) := started (empty_gateway, (demo_park, tt)).
(** A registration in steps, overtaken by a heartbeat and by the release of another review. *)
Definition parked_actions : list (action (H := demo_parked)) :=
  [Serve (SessionEnsure "s1" "mgr" ["w1"; "w2"] None) 1700000000000;
   Begin (RegisterClaim (parked_register "r2")); Go 0 1700000000500; Go 0 1700000000600;
   Serve (ReleaseReview "r1") 1700000000700; Serve (Heartbeat "rt1") 1700000000800; Go 0 1700000000900;
   Go 0 1700000001000].
Definition parked_run : system (H := demo_parked) := foldl exec1 parked_start parked_actions.
Lemma quiet_run x l : (forall n a, l !! n = Some a -> quiet demo_clock (foldl exec1 x (take n l)) a) ->
  rtc (quiet_step (H := demo_backends) demo_clock) x (foldl exec1 x l).
Proof.
  revert x. induction l as [|a l IH]; intros x Hq; [constructor|]. simpl.
  eapply rtc_l; [apply quiet_act, (Hq 0%nat a eq_refl)|]. apply IH. intros n b Hn. exact (Hq (S n) b Hn).
Qed.

Lemma gateway_keeps_leases_witness :
  lifecycle_of "r1" (registry demo_clock parked_run) = Some "released_soft" /\
  lifecycle_of "r2" (registry demo_clock parked_run) = Some "hot_parked" /\
  only_released demo_park (registry demo_clock parked_run).
Proof.
  split_and!; [by vm_compute|by vm_compute|].
  apply (gateway_keeps_leases (H := demo_backends) demo_clock parked_start parked_run).
  - apply (quiet_run parked_start parked_actions). intros n a Hn.
    destruct n as [|[|[|[|[|[|[|[|n]]]]]]]]; try discriminate Hn; injection Hn as <-; try exact I.
    intros (i & p & m & held & Hi & Hk).
    assert (Hone : calls (foldl exec1 parked_start (take 4 parked_actions)) !! i =
      [(SyncWrite (H := demo_parked) (parked_register "r2") (Some (demo_manifest "r2" "" 1)), None)] !! i)
      by (f_equal; vm_compute; reflexivity).
    pose proof (eq_trans (eq_sym Hone) Hi) as Hi'. clear Hi Hone. destruct i as [|i]; [|discriminate Hi'].
    simpl in Hi'. injection Hi' as <- _ _. discriminate Hk.
  - apply demo_park_ok.
  - intros k (i & p & m & held & Hi & _). discriminate Hi.
Defined.

Definition caught : system (H := demo_parked) := foldl exec1 parked_start (take 3 parked_actions).
Lemma sync_wakes_released_witness :
  let x2 := exec1 (exec1 caught (Go 0 1)) (Serve (ReleaseReview "r2") 2) in
  lifecycle_of "r2" (registry demo_clock x2) = Some "released_soft" /\
  lifecycle_of "r2" (registry demo_clock (exec1 x2 (Go 0 3))) = Some "hot_parked".
Proof.
  apply (sync_wakes_released (H := demo_backends) demo_clock caught 0 (parked_register "r2") None 1 2 3
    (lease_of (demo_manifest "r2" "" 1) 3000000) (demo_manifest "r2" "" 1)).
  - assert (Hs : registry demo_clock caught = demo_park) by (vm_compute; reflexivity). rewrite Hs. apply demo_park_ok.
  - vm_compute; reflexivity.
  - discriminate.
  - discriminate.
  - vm_compute; reflexivity.
  - split; vm_compute; reflexivity.
  - reflexivity.
Defined.
Lemma register_syncs_witness :
  let s := sys_state (foldl (exec1 (H := demo_parked)) parked_start [Serve (SessionEnsure "s1" "mgr" ["w1"; "w2"] None) 1700000000000]) in
  let q := (runtime_register (H := demo_parked) (parked_register "r2") 1700000001000 s).2.2.1 in
  Park.lookup "r2" q = (Ok (Some (with_backend "ses-new" (demo_manifest "r2" "" 1))), q).
Proof.
  cbv zeta. set (s := sys_state _). assert (Hs : s.2.1 = demo_park) by (vm_compute; reflexivity).
  assert (Hr : is_ok (runtime_register (H := demo_parked) (parked_register "r2") 1700000001000 s).1 = true)
    by (vm_compute; reflexivity).
  apply (register_syncs (H := demo_backends) demo_clock (parked_register "r2") 1700000001000 s (demo_manifest "r2" "" 1)
    (lease_of (demo_manifest "r2" "" 1) 3000000)); clearbody s; rewrite ?Hs.
  - apply demo_park_ok.
  - vm_compute; reflexivity.
  - split; vm_compute; reflexivity.
  - reflexivity.
  - done.
  - done.
  - exact Hr.
Defined.
