(* ===== verification/RemoteExec.v ===== *)
(** * The helper on a remote machine
    (src/src/codeagent/remote_exec.py, runtime/registry.py)

    [main] reads requests, one per line, and writes frames; a run or a mailbox
    command is answered by one terminal frame, a stream is kept and polled while
    no request comes: the inboxes of the session in the mailbox store, the log of
    the gateway in its event store.  What else the machine offers (the adapters
    that run a task, the mailbox command line, the clock) is an interface. *)
From S2P Require Import Prelude MailboxProtocol MailboxStore GatewayStores Wire.
From Stdlib Require Import Floats.SpecFloat.

(** ** Choosing a runtime (runtime/registry.py) *)
Definition _IMPLICIT_ORDER : list string := ["omp"; "opencode"; "generic"].
Definition CAP_STREAM_EVENTS := "stream_events".
Definition _RUNTIME_REQUIRED_CAPS (name : string) : list string :=
  if bool_decide (name ∈ ["opencode"; "generic"]) then [CAP_STREAM_EVENTS] else [].
(** An adapter by its name, with the capabilities its class states. *)
Definition adapters := list (string * option (list string)).
Definition names (a : adapters) : list string := sorted_set a.*1.
Definition _adapter_capabilities (name : string) (caps : option (list string)) : list string :=
  match caps with Some l => l | None => _RUNTIME_REQUIRED_CAPS name end.
Definition runtime_error (code message : string) : pyexn := AppError code message.
(** [get] with a name, or without one; the name of the adapter chosen.  The
    errors name what is installed, too. *)
Definition satisfies (a : adapters) (required : list string) (name : string) : bool :=
  match dget a name with
  | Some caps => forallb (fun c => bool_decide (c ∈ _adapter_capabilities name caps)) required
  | None => false
  end.
Definition candidates (a : adapters) (name : string) : list string :=
  if String.eqb name "" then List.filter (dmem a) _IMPLICIT_ORDER else [name].
Definition select_runtime (a : adapters) (name : string) (required : list string) : res string :=
  guard (String.eqb name "" || dmem a name)
    orelse runtime_error "UNSUPPORTED_RUNTIME" ("runtime '" +:+ name +:+ "' unavailable");
  match List.find (satisfies a required) (candidates a name) with
  | Some n => Ok n
  | None => if bool_decide (required = [])
            then Raise (runtime_error "UNSUPPORTED_RUNTIME" "no runtime adapter registered")
            else Raise (runtime_error "UNSUPPORTED_CAPABILITY" "no runtime satisfies required capabilities")
  end.

(** ** The helper (remote_exec.py) *)
Definition PACKAGE_VERSION := "0.2.10".
Definition DEFAULT_EXEC_TIMEOUT : Z := 600.
Definition STREAM_HEARTBEAT_INTERVAL : Z := 15.
(** What the machine of the helper offers.  [spawn] gives the number of
    heartbeats that pass and the handle, if any: its backend session and the
    result of the task.  [mailbox_call] is the mailbox command line: its output, errors and
    code.  Streams read the mailbox and the log; [clock] is in seconds. *)
Class Host (W : Type) := {
  float_repr : spec_float -> string; py_str : pyval -> string; hostname : string;
  installed : adapters; expanduser : string -> string; isdir : string -> st W bool;
  spawn : string -> pydict -> W -> nat * res (option (string * pydict)) * W;
  mailbox_call : list pyval -> option string -> st W (string * string * Z);
  boxes : W -> gmap string session; event_log : W -> events; file_size : file -> Z; clock : st W Z }.

(** A stream that a client asked for; the cache has the time and size of the
    files that were seen. *)
Record subscription := {
  sb_request : pyval; sb_session : string; sb_agent : pyval; sb_cursor : string; sb_beat : Z;
  sb_kind : string; sb_runtime : pyval; sb_cache : list (string * (Z * Z)) }.
(** [waiting]: in a read that blocks, after a line that was no request. *)
Record helper (W : Type) := { world : W; out : list pydict; subs : list subscription; waiting : bool }.
Arguments world {W} _. Arguments out {W} _. Arguments subs {W} _. Arguments waiting {W} _.

Section helper.
Context {W : Type} `{Host W}.
Notation M := (st (helper W)).
Definition set_world (w : W) (s : helper W) : helper W :=
  {| world := w; out := out s; subs := subs s; waiting := waiting s |}.
Definition set_out (l : list pydict) (s : helper W) : helper W :=
  {| world := world s; out := l; subs := subs s; waiting := waiting s |}.
Definition set_subs (l : list subscription) (s : helper W) : helper W :=
  {| world := world s; out := out s; subs := l; waiting := waiting s |}.
Definition set_waiting (b : bool) (s : helper W) : helper W :=
  {| world := world s; out := out s; subs := subs s; waiting := b |}.
Definition on_host {A} (m : st W A) : M A := fun s => let r := m (world s) in (r.1, set_world r.2 s).
Definition frame_text (obj : pydict) : string := spaced float_repr " " (VDict obj).
Definition frame_line (obj : pydict) : string := frame_text obj +:+ NL.
(** [_send]: a frame that is too long becomes an error, which is terminal too. *)
Definition str_of (v : pyval) : string := match v with VStr s => s | v => py_str v end.
Definition oversized (obj : pydict) : pydict :=
  make_error ("response frame (type=" +:+ str_of (dgetd obj "type" (VStr "?")) +:+ ") exceeds 1048576 bytes").
Definition guarded (obj : pydict) : pydict :=
  if str_len (frame_text obj) <=? MAX_LINE_LENGTH then obj else oversized obj.
Definition _send (obj : pydict) : M unit := modify (fun s => set_out (out s ++ [guarded obj]) s).

Definition _handle_ping : M unit :=
  _send [("type", VStr MSG_PONG); ("wire_version", VInt WIRE_VERSION); ("package_version", VStr PACKAGE_VERSION);
         ("capabilities", VList (map VStr ["run"; "ping"; "capabilities"; "mailbox"])); ("hostname", VStr hostname)].
Definition _handle_capabilities : M unit :=
  _send [("type", VStr MSG_CAPABILITIES); ("wire_version", VInt WIRE_VERSION);
         ("backends", VList (map VStr (names installed)));
         ("features", VList (map VStr ["resume"; "session"; "timeout"]))].
(** [v or dflt] *)
Definition py_or (v dflt : pyval) : pyval := if truthy v then v else dflt.
Definition iterable (v : pyval) : bool :=
  match v with VInt _ | VFloat _ | VBool _ => false | _ => true end.
Definition spawn_payload (req : pydict) (workdir : string) : pydict := [
  ("task", dgetd req "task" (VStr "")); ("workdir", VStr workdir);
  ("agent_id", py_or (dgetd req "agent" VNone) (VStr "")); ("model", py_or (dgetd req "model" VNone) (VStr ""));
  ("session_id", py_or (dgetd req "session_key" VNone) (VStr "")); ("review_key", dgetd req "review_key" (VStr ""));
  ("request_id", dgetd req "request_id" (VStr "")); ("run_id", dgetd req "run_id" (VStr ""));
  ("backend_session_id", dgetd req "resume_session_id" VNone); ("short_task", VBool true);
  ("timeout", dgetd req "timeout" (VInt DEFAULT_EXEC_TIMEOUT)); ("profile_args", VList [])].
(** The adapter that the request names; a name that is no string is looked up
    as it is. *)
Definition choose (backend : pyval) : res string :=
  match backend with
  | VStr s => select_runtime installed s []
  | VList (_ :: _) | VDict (_ :: _) => Raise (TypeError "unhashable type")
  | v => if truthy v then Raise (runtime_error "UNSUPPORTED_RUNTIME" ("runtime " +:+ py_str v +:+ " unavailable"))
         else select_runtime installed "" []
  end.
Definition exn_message (e : pyexn) : string :=
  match e with
  | ValueError s | PermissionError s | KeyError s | IndexError s | TypeError s | RuntimeError s | TimeoutError s
  | AttributeError s | OSError s | AppError _ s | GatewayError s => s
  end.
Definition progress : pydict := [("type", VStr "progress"); ("message", VStr "still running")].
Definition send_session (sid : pyval) : M unit :=
  if truthy sid then _send [("type", VStr MSG_SESSION); ("id", sid)] else mret tt.
Definition send_result (session : string) (result : pydict) : M unit :=
  match py_int (dgetd result "returncode" (VInt 0)) with
  | None => raise (TypeError "int() argument must be a string, a bytes-like object or a real number")
  | Some code =>
    _ ← send_session (py_or (VStr session) (dgetd result "session_id" VNone));
    _send [("type", VStr MSG_RESULT); ("stdout", py_or (dgetd result "stdout" (VStr "")) (VStr ""));
           ("stderr", py_or (dgetd result "stderr" (VStr "")) (VStr "")); ("exit_code", VInt code)]
  end.
Definition _handle_run (req : pydict) : M unit :=
  _ ← ensure (iterable (dgetd req "capabilities" VNone) || negb (truthy (dgetd req "capabilities" VNone)))
        (TypeError "object is not iterable");
  _ ← _send (make_accepted WIRE_VERSION);
  let workdir := expanduser (dstr req "workdir") in
  dir ← on_host (isdir workdir);
  if negb (dir : bool) then _send (make_error ("workdir not found: " +:+ workdir)) else
  match choose (dgetd req "backend" (VStr "omp")) with
  | Raise (AppError code what) => _send (make_error (code +:+ ": " +:+ what))
  | Raise e => raise e
  | Ok adapter =>
    '(beats, handle) ← on_host (fun w => let r := spawn adapter (spawn_payload req workdir) w in (Ok r.1, r.2));
    _ ← st_iter (fun _ => _send progress) (seq 0 beats);
    match handle with
    | Raise e => _send (make_error ("run failed: " +:+ exn_message e))
    | Ok None => _send (make_error "run failed: no handle returned")
    | Ok (Some (session, result)) => send_result session result
    end
  end.
Definition root_char (c : ascii) : bool :=
  is_alnum c || bool_decide (N_of_ascii c ∈ [47; 95; 46; 45]%N).
Definition root_ok (s : string) : bool :=
  match_dollar (fun t => match t with
                         | String c t' => char_is 47 c && all_chars root_char t' && negb (String.eqb t' "")
                         | "" => false end) s.
Definition _handle_mailbox (req : pydict) : M unit :=
  match dgetd req "args" (VList []) with
  | VList args =>
    match dgetd req "mailbox_root" (VStr "") with
    | VStr root =>
      if negb (String.eqb root "") && negb (root_ok root)
      then _send (make_error ("invalid mailbox_root: " +:+ root))
      else r ← on_host (mailbox_call args (if String.eqb root "" then None else Some root));
           _send (make_mailbox_result (fst (fst r)) (snd (fst r)) (snd r))
    | _ => r ← on_host (mailbox_call args None);
           _send (make_mailbox_result (fst (fst r)) (snd (fst r)) (snd r))
    end
  | _ => _send (make_error "mailbox 'args' must be a list")
  end.

(** ** Streams *)
Definition cursor_parts (cur : string) : Z * Z :=
  if String.eqb cur "" || String.eqb cur STREAM_CURSOR_INITIAL then (0, 0) else
  match split1 "/"%char cur with
  | Some (a, b) => match int_of_str a, int_of_str b with Some e, Some q => (e, q) | _, _ => (0, 0) end
  | None => match int_of_str cur with Some e => (e, 0) | None => (0, 0) end
  end.
Definition pair_gt (p q : Z * Z) : bool := (q.1 <? p.1) || (p.1 =? q.1) && (q.2 <? p.2).
Definition _cursor_gt (a b : string) : bool := pair_gt (cursor_parts a) (cursor_parts b).
Definition _split_cursor (cursor : string) : string * Z := split_composite_cursor py_str cursor.
Definition _advance_cursor (sub : subscription) (msg_cursor : string) (runtime_event_id : Z) : string :=
  if String.eqb (sb_kind sub) "mailbox" then (if String.eqb msg_cursor "" then sb_cursor sub else msg_cursor) else
  let (mailbox_cursor, rt) := _split_cursor (sb_cursor sub) in
  make_composite_cursor float_repr (if String.eqb msg_cursor "" then mailbox_cursor else msg_cursor)
    (if runtime_event_id =? 0 then rt else runtime_event_id).
Definition with_cursor (c : string) (sub : subscription) : subscription :=
  {| sb_request := sb_request sub; sb_session := sb_session sub; sb_agent := sb_agent sub; sb_cursor := c;
     sb_beat := sb_beat sub; sb_kind := sb_kind sub; sb_runtime := sb_runtime sub; sb_cache := sb_cache sub |}.
Definition with_cache (c : list (string * (Z * Z))) (sub : subscription) : subscription :=
  {| sb_request := sb_request sub; sb_session := sb_session sub; sb_agent := sb_agent sub; sb_cursor := sb_cursor sub;
     sb_beat := sb_beat sub; sb_kind := sb_kind sub; sb_runtime := sb_runtime sub; sb_cache := c |}.
Definition with_beat (t : Z) (sub : subscription) : subscription :=
  {| sb_request := sb_request sub; sb_session := sb_session sub; sb_agent := sb_agent sub; sb_cursor := sb_cursor sub;
     sb_beat := t; sb_kind := sb_kind sub; sb_runtime := sb_runtime sub; sb_cache := sb_cache sub |}.

(** *** The mailbox leg *)

(** The inboxes: the agent's own, then those of the other members. *)
Definition read_members (w : W) (session_id : string) : list string :=
  match validate_agent_id session_id, boxes w !! session_id ≫= meta with
  | Ok _, Some m => List.filter (fun a => negb (String.eqb a "")) (sorted_set (m_manager m :: m_agents m))
  | _, _ => []
  end.
Definition inboxes (w : W) (sub : subscription) : list pyval :=
  sb_agent sub :: map VStr (List.filter (fun a => negb (eq_str (sb_agent sub) a)) (read_members w (sb_session sub))).
Definition read_inbox (w : W) (session_id : string) (agent_id : pyval) : res (list (string * file)) :=
  match agent_id with
  | VStr a => do _ <- validate_agent_id a; do _ <- validate_agent_id session_id;
              Ok (from_option (fun s => list_messages (inbox_of s a)) [] (boxes w !! session_id))
  | _ => Raise (TypeError "expected string")
  end.
Definition STREAM_FIELDS : list string :=
  ["msg_id"; "from"; "to"; "kind"; "subject"; "body"; "created_at"; "reply_to"; "run_id"; "request_id"].
Definition given_value (k : string) (msg : pydict) : pydict :=
  let v := dgetd msg k VNone in if truthy v then [(k, v)] else [].
Definition stream_payload (msg : pydict) : pydict :=
  map (fun k => (k, dgetd msg k (VStr ""))) STREAM_FIELDS ++ given_value "attachments" msg ++ given_value "trace_id" msg.
Definition mailbox_event (sub : subscription) (agent_id : pyval) (c : string) (msg : pydict) : pydict :=
  [("type", VStr MSG_STREAM_EVENT); ("request_id", sb_request sub); ("session_id", VStr (sb_session sub));
   ("cursor", VStr (_advance_cursor sub c 0)); ("payload", VDict (stream_payload msg));
   ("source", VStr "mailbox"); ("inbox_agent", agent_id)].
(** One pass over the inboxes; [sc_cut] when an exception ended the current
    one. *)
Record scan := { sc_cache : list (string * (Z * Z)); sc_last : string; sc_out : list pydict; sc_cut : bool }.
Definition cache_key (agent_id : pyval) (stem : string) : string := str_of agent_id +:+ "/" +:+ stem +:+ ".json".
Definition poll_file (sub : subscription) (agent_id : pyval) (x : string * file) (a : scan) : scan :=
  let k := cache_key agent_id x.1 in
  let sig := (mtime x.2, file_size x.2) in
  if sc_cut a || bool_decide (dget (sc_cache a) k = Some sig) then a else
  let cache := dset (sc_cache a) k sig in
  let skipped := {| sc_cache := cache; sc_last := sc_last a; sc_out := sc_out a; sc_cut := false |} in
  let cut := {| sc_cache := cache; sc_last := sc_last a; sc_out := sc_out a; sc_cut := true |} in
  match content x.2 with
  | None => skipped
  | Some (VDict msg) =>
    match dgetd msg "_cursor" (VStr "") with
    | VStr c =>
      if String.eqb c "" || negb (_cursor_gt c (fst (_split_cursor (sb_cursor sub)))) then skipped else
      {| sc_cache := cache; sc_last := c; sc_out := sc_out a ++ [mailbox_event sub agent_id c msg]; sc_cut := false |}
    | v => if truthy v then cut else skipped
    end
  | Some _ => cut
  end.
(** The entries of the files that left the inbox. *)
Definition gone (agent_id : pyval) (files : list (string * file)) (k : string) : bool :=
  String.prefix (str_of agent_id +:+ "/") k
  && match rsplit1 "/"%char k with
     | Some (_, n) => negb (bool_decide (n ∈ map (fun f => fst f +:+ ".json") files))
     | None => false
     end.
Definition pruned (agent_id : pyval) (files : list (string * file)) (cache : list (string * (Z * Z))) :
    list (string * (Z * Z)) := List.filter (fun e => negb (gone agent_id files (fst e))) cache.
Definition poll_inbox (sub : subscription) (w : W) (agent_id : pyval) (a : scan) : scan :=
  match read_inbox w (sb_session sub) agent_id with
  | Raise _ => a
  | Ok files =>
    let a' := foldl (fun a x => poll_file sub agent_id x a) a files in
    {| sc_cache := if sc_cut a' then sc_cache a' else pruned agent_id files (sc_cache a');
       sc_last := sc_last a'; sc_out := sc_out a'; sc_cut := false |}
  end.
Definition poll_scan (sub : subscription) (w : W) : scan :=
  foldl (fun a agent_id => poll_inbox sub w agent_id a)
    {| sc_cache := sb_cache sub; sc_last := ""; sc_out := []; sc_cut := false |} (inboxes w sub).
Definition _poll_mailbox (sub : subscription) (w : W) : subscription * list pydict :=
  let a := poll_scan sub w in
  let sub' := with_cache (sc_cache a) sub in
  (if String.eqb (sc_last a) "" then sub' else
   with_cursor (if String.eqb (sb_kind sub) "mailbox" then sc_last a else _advance_cursor sub (sc_last a) 0) sub',
   sc_out a).

(** *** The leg of the gateway's log *)
Definition event_dict (e : RuntimeEvent) : pydict := [
  ("event_id", VInt (ev_id e)); ("source_host", VStr (ev_host e)); ("runtime_id", VStr (ev_runtime e));
  ("generation", VInt (ev_generation e)); ("source_sequence", VInt (ev_sequence e));
  ("session_id", VStr (ev_session e)); ("agent_id", VStr (ev_agent e)); ("request_id", VStr (ev_request e));
  ("run_id", VStr (ev_run e)); ("kind", VStr (ev_kind e)); ("created_at", VStr (ev_created e));
  ("payload", VDict (ev_payload e))].
(** A filter that is a number is compared as its text; SQLite takes no lists. *)
Definition runtime_filter (v : pyval) : option string :=
  match v with
  | VStr s => Some s
  | VList (_ :: _) | VDict (_ :: _) => None
  | VBool true => Some "1"
  | v => Some (if truthy v then py_str v else "")
  end.
Definition runtime_page (sub : subscription) (w : W) : list RuntimeEvent :=
  match runtime_filter (sb_runtime sub) with
  | None => []
  | Some r => match list_after (snd (_split_cursor (sb_cursor sub))) None 200 (sb_session sub) r (event_log w) with
              | Ok (l, _) => l
              | Raise _ => []
              end
  end.
Definition runtime_frame (sub : subscription) (e : RuntimeEvent) : pydict :=
  [("type", VStr MSG_STREAM_EVENT); ("request_id", sb_request sub); ("session_id", VStr (sb_session sub));
   ("cursor", VStr (_advance_cursor sub "" (ev_id e))); ("payload", VDict (event_dict e)); ("source", VStr "runtime")].
Definition _poll_runtime_events (sub : subscription) (w : W) : subscription * list pydict :=
  let l := runtime_page sub w in
  (match last l with
   | Some e => if ev_id e =? 0 then sub else with_cursor (_advance_cursor sub "" (ev_id e)) sub
   | None => sub
   end, map (runtime_frame sub) l).

Definition beat : pydict :=
  [("type", VStr MSG_PONG); ("wire_version", VInt WIRE_VERSION); ("heartbeat", VBool true)].
Definition poll_stream (now : Z) (w : W) (sub : subscription) : subscription * list pydict :=
  let p1 := if bool_decide (sb_kind sub ∈ ["mailbox"; "all"]) then _poll_mailbox sub w else (sub, []) in
  let p2 := if bool_decide (sb_kind sub ∈ ["runtime"; "all"]) then _poll_runtime_events p1.1 w else (p1.1, []) in
  if STREAM_HEARTBEAT_INTERVAL <=? now - sb_beat sub then (with_beat now p2.1, p1.2 ++ p2.2 ++ [beat])
  else (p2.1, p1.2 ++ p2.2).
Definition _poll_streams : M unit :=
  subs ← gets subs;
  if bool_decide (length subs = 0%nat) then mret tt else
  now ← on_host clock;
  w ← gets world;
  let polled := map (poll_stream now w) subs in
  _ ← st_iter _send (List.concat (map snd polled));
  modify (set_subs (map fst polled)).

(** ** The main loop *)
Definition number_of (v : pyval) : option Z :=
  match v with VInt z => Some z | VBool b => Some (if b then 1 else 0) | _ => None end.
(** [a == b] of identifiers; lists and dictionaries by their text. *)
Definition same_id (a b : pyval) : bool :=
  match number_of a, number_of b with
  | Some x, Some y => x =? y
  | None, None => match a, b with
                  | VStr x, VStr y => String.eqb x y
                  | VNone, VNone => true
                  | VStr _, _ | _, VStr _ | VNone, _ | _, VNone => false
                  | _, _ => String.eqb (py_str a) (py_str b)
                  end
  | _, _ => false
  end.
Definition add_stream (req : pydict) (now : Z) (kind : string) : M unit :=
  let request_id := dgetd req "request_id" (VStr "") in
  _ ← modify (fun s => set_subs (List.filter (fun b => negb (same_id (sb_request b) request_id)) (subs s) ++ [
        {| sb_request := request_id; sb_session := dstr req "session_id"; sb_agent := dgetd req "agent_id" (VStr "");
           sb_cursor := dstr req "cursor"; sb_beat := now; sb_kind := kind;
           sb_runtime := dgetd req "runtime_id" (VStr ""); sb_cache := [] |}]) s);
  _ ← _send [("type", VStr MSG_ACCEPTED); ("wire_version", VInt WIRE_VERSION); ("request_id", request_id);
             ("stream_kind", VStr kind)];
  _poll_streams.
Definition STREAM_KINDS : list string := ["mailbox"; "runtime"; "all"].
Definition _handle_stream (req : pydict) : M unit :=
  if negb (truthy (dgetd req "session_id" (VStr ""))) then _send (make_error "stream requires session_id") else
  if negb (truthy (dgetd req "agent_id" (VStr ""))) then _send (make_error "stream requires agent_id") else
  let bad v := _send (make_error ("invalid stream_kind: " +:+ str_of v)) in
  match dgetd req "stream_kind" (VStr "mailbox") with
  | VStr k => if bool_decide (k ∈ STREAM_KINDS) then now ← on_host clock; add_stream req now k else bad (VStr k)
  | v => bad v
  end.
Definition required_version (v : pyval) : bool :=
  match v with
  | VInt z => z =? WIRE_VERSION
  | VFloat f => SFeqb f (binary_normalize 53 1024 WIRE_VERSION 0 false)
  | _ => false
  end.
Definition serve (req : pydict) : M unit :=
  let version := dgetd req "wire_version" (VInt 0) in
  if negb (required_version version)
  then _send (make_error ("wire_version " +:+ str_of version +:+ " != required " +:+ pretty WIRE_VERSION)) else
  let cmd := dstr req "command" in
  if String.eqb cmd CMD_PING then _handle_ping else
  if String.eqb cmd CMD_CAPABILITIES then _handle_capabilities else
  if String.eqb cmd CMD_RUN then _handle_run req else
  if String.eqb cmd CMD_MAILBOX then _handle_mailbox req else
  if String.eqb cmd CMD_STREAM then _handle_stream req else
  _send (make_error ("unknown command: " +:+ cmd)).
(** [_read_request] of one line: the request, or an error frame. *)
Definition parse_request (line : string) : res pydict :=
  guard str_len line <=? MAX_LINE_LENGTH orelse ValueError "wire line exceeds 1048576 bytes";
  decode_request line.
(** What the loop waits for: a line, or that none comes in time.  It waits
    without a limit while there is no stream, and after a line that was refused. *)
Inductive input := Line (s : string) | Idle.
Definition main_step (i : input) : M unit :=
  match i with
  | Idle => wait ← gets waiting; if (wait : bool) then mret tt else _poll_streams
  | Line s =>
    match parse_request s with
    | Ok req => _ ← modify (set_waiting false); serve req
    | Raise e => _ ← modify (set_waiting true); _send (make_error (exn_message e))
    end
  end.
Definition main (inputs : list input) : M unit :=
  _ ← _send (make_ready WIRE_VERSION PACKAGE_VERSION); st_iter main_step inputs.
Definition started (w : W) : helper W := {| world := w; out := []; subs := []; waiting := false |}.

(** ** What the helper writes *)
Definition FRAME_TYPES : list string :=
  [MSG_READY; MSG_ACCEPTED; MSG_SESSION; MSG_RESULT; MSG_ERROR; MSG_PONG; MSG_CAPABILITIES; MSG_MAILBOX_RESULT;
   MSG_STREAM_EVENT; "progress"].
Definition known (f : pydict) : Prop := exists t, dget f "type" = Some (VStr t) /\ t ∈ FRAME_TYPES.
Definition fitting (f : pydict) : Prop := known f /\ str_len (frame_text f) <= MAX_LINE_LENGTH.
Lemma known_type f t : dget f "type" = Some (VStr t) -> bool_decide (t ∈ FRAME_TYPES) = true -> known f.
Proof. intros Hf Ht. exists t. split; [done|]. by apply bool_decide_eq_true in Ht. Qed.
Lemma oversized_fits f : known f -> fitting (oversized f).
Proof.
  intros (t & Hf & Ht). split; [by eapply known_type|]. unfold oversized, dgetd. rewrite Hf. cbn [str_of].
  clear Hf. repeat (apply elem_of_cons in Ht as [->|Ht]; [by vm_compute|]). by apply elem_of_nil in Ht.
Qed.
Lemma guarded_fits f : known f -> fitting (guarded f).
Proof.
  intros Hf. unfold guarded. destruct (Z.leb_spec (str_len (frame_text f)) MAX_LINE_LENGTH); [by split|].
  by apply oversized_fits.
Qed.
Definition clean (s : helper W) : Prop := Forall fitting (out s).
Lemma send_clean f : known f -> preserves clean (_send f).
Proof.
  intros Hf. apply preserves_modify. intros s Hs. apply Forall_app. split; [done|].
  apply Forall_singleton. by apply guarded_fits.
Qed.
Lemma error_clean what : preserves clean (_send (make_error what)).
Proof. by apply send_clean, (known_type _ MSG_ERROR). Qed.
Lemma host_clean {A} (m : st W A) : preserves clean (on_host m).
Proof. by intros s Hs. Qed.
Ltac send_step := lazymatch goal with
  | |- preserves _ (_send (make_error _)) => apply error_clean
  | |- preserves _ (_send _) => by eapply send_clean, known_type
  | |- preserves _ (on_host _) => apply host_clean
  | |- _ => preserving_step
  end.
Ltac sends := repeat send_step.
Lemma poll_stream_known now w sub : Forall known (poll_stream now w sub).2.
Proof.
  assert (Hs : forall sub, Forall known (_poll_mailbox sub w).2).
  { intros sb. unfold _poll_mailbox. simpl. unfold poll_scan.
    assert (Hf : forall a x r, Forall known (sc_out r) -> Forall known (sc_out (poll_file sb a x r))).
    { intros a x r Hr. unfold poll_file. destruct (_ || _); [done|]. destruct (content x.2) as [[]|]; try done.
      destruct (dgetd d "_cursor" _); try (by destruct (truthy _)). destruct (_ || _); [done|]. simpl.
      apply Forall_app. split; [done|]. apply Forall_singleton. by eapply known_type. }
    assert (Hi : forall a r, Forall known (sc_out r) -> Forall known (sc_out (poll_inbox sb w a r))).
    { intros a r Hr. unfold poll_inbox. destruct (read_inbox w _ a) as [files|]; [|done]. cbn [sc_out].
      apply (foldl_keeps (fun r => Forall known (sc_out r))); [|done]. intros b x _. apply Hf. }
    apply (foldl_keeps (fun r => Forall known (sc_out r))); [|constructor]. intros b x _. apply Hi. }
  assert (Hr : forall sub, Forall known (_poll_runtime_events sub w).2).
  { intros sb. apply Forall_map, Forall_true. intros e. by eapply known_type. }
  unfold poll_stream. set (p1 := if bool_decide (_ ∈ _) then _ else (sub, [])).
  set (p2 := if bool_decide (_ ∈ ["runtime"; "all"]) then _ else _).
  assert (H1 : Forall known p1.2) by (unfold p1; case_bool_decide; [apply Hs|constructor]).
  assert (H2 : Forall known p2.2) by (unfold p2; case_bool_decide; [apply Hr|constructor]).
  destruct (_ <=? _); simpl; repeat (apply Forall_app; split); try done.
  apply Forall_singleton. by eapply known_type.
Qed.
Lemma poll_streams_clean : preserves clean _poll_streams.
Proof.
  unfold _poll_streams. apply preserves_bind; [apply preserves_gets|]. intros l.
  destruct (bool_decide _); [apply preserves_ret|]. apply preserves_bind; [apply host_clean|]. intros now.
  apply preserves_bind; [apply preserves_gets|]. intros w. apply preserves_bind; [|intros _; by preserving].
  apply preserves_iter. intros f Hf. apply send_clean. apply list_elem_of_In, in_concat in Hf as (fs & Hfs & Hf).
  apply list_elem_of_In, list_elem_of_fmap in Hfs as (p & -> & Hp). apply list_elem_of_fmap in Hp as (sub & -> & _).
  pose proof (poll_stream_known now w sub) as Hk. rewrite Forall_forall in Hk. apply Hk. by apply list_elem_of_In.
Qed.
Lemma run_clean req : preserves clean (_handle_run req).
Proof.
  unfold _handle_run, send_result, send_session. sends.
Qed.
Lemma mailbox_clean req : preserves clean (_handle_mailbox req).
Proof. unfold _handle_mailbox. sends. Qed.
Lemma stream_clean req : preserves clean (_handle_stream req).
Proof. unfold _handle_stream, add_stream. sends. apply poll_streams_clean. Qed.
(** C21: Whatever lines the helper is sent and whatever it finds on its machine,
    also when it dies of an exception, it writes only frames of the protocol, each
    within the length that the client accepts. *)
Theorem frames_fit inputs w : Forall fitting (out (main inputs (started w)).2).
Proof.
  assert (Hm : preserves clean (main inputs)).
  { unfold main, main_step, serve, _handle_ping, _handle_capabilities. sends.
    all: lazymatch goal with
         | |- preserves _ (_handle_run _) => apply run_clean
         | |- preserves _ (_handle_mailbox _) => apply mailbox_clean
         | |- preserves _ (_handle_stream _) => apply stream_clean
         | |- _ => apply poll_streams_clean
         end. }
  apply Hm. constructor.
Qed.

(** ** Answers *)
Definition terminal (f : pydict) : bool :=
  existsb (eq_str (dgetd f "type" VNone)) [MSG_RESULT; MSG_ERROR; MSG_MAILBOX_RESULT].
Definition none_terminal (l : list pydict) : Prop := Forall (fun f => terminal f = false) l.
Definition one_terminal (l : list pydict) : Prop := exists pre t, l = pre ++ [t] /\ none_terminal pre /\ terminal t = true.
(** What [m] writes, by whether it returns. *)
Definition writes {A} (Q : bool -> list pydict -> Prop) (m : M A) : Prop := forall s, exists l,
  out (m s).2 = out s ++ map guarded l /\ subs (m s).2 = subs s /\ waiting (m s).2 = waiting s /\ Q (is_ok (m s).1) l.
Abbreviation quiet := (writes (fun _ l => none_terminal l)).
Abbreviation answers := (writes (fun ok l => if ok then one_terminal l else none_terminal l)).
Lemma bind_writes {A B} (Q : bool -> list pydict -> Prop) (m : M A) (k : A -> M B) :
  (forall b pre l, none_terminal pre -> Q b l -> Q b (pre ++ l)) -> (forall l, none_terminal l -> Q false l) ->
  quiet m -> (forall a, writes Q (k a)) -> writes Q (m ≫= k).
Proof.
  intros Happ Hf Hm Hk s. rewrite st_bind_unfold. destruct (Hm s) as (l & Ho & Hs & Hw & Hl).
  destruct (m s) as [[a|e] s1]; simpl in *; [|exists l; auto].
  destruct (Hk a s1) as (l' & Ho' & Hs' & Hw' & Hl'). exists (l ++ l').
  rewrite Ho', Ho, Hs', Hs, Hw', Hw, map_app, <- app_assoc. auto.
Qed.
Lemma quiet_bind {A B} (m : M A) (k : A -> M B) : quiet m -> (forall a, quiet (k a)) -> quiet (m ≫= k).
Proof. apply bind_writes; [|done]. intros _ pre l Hp Hl. by apply Forall_app. Qed.
Lemma answers_bind {A B} (m : M A) (k : A -> M B) : quiet m -> (forall a, answers (k a)) -> answers (m ≫= k).
Proof.
  apply bind_writes; [|done]. intros [] pre l Hp; [|intros Hl; by apply Forall_app].
  intros (pre' & t & -> & Hp' & Ht). exists (pre ++ pre'), t. rewrite app_assoc. split_and!; [done| |done].
  by apply Forall_app.
Qed.
Lemma quiet_send f : terminal f = false -> quiet (_send f).
Proof. intros Hf s. exists [f]. split_and!; [done..|]. by apply Forall_singleton. Qed.
Lemma answers_send f : terminal f = true -> answers (_send f).
Proof. intros Hf s. exists [f]. split_and!; [done..|]. exists [], f. split_and!; [done|constructor|done]. Qed.
Lemma answers_raise {A} e : answers (raise e : M A).
Proof. intros s. exists []. rewrite app_nil_r. by split_and!; [..|constructor]. Qed.
Lemma quiet_same {A} (m : M A) : (forall s, exists w, (m s).2 = set_world w s) -> quiet m.
Proof. intros Hm s. destruct (Hm s) as [w ->]. exists []. rewrite app_nil_r. by split_and!; [..|constructor]. Qed.
Lemma quiet_host {A} (m : st W A) : quiet (on_host m).
Proof. apply quiet_same. intros s. by eexists. Qed.
Lemma quiet_ret {A} (a : A) : quiet (mret a : M A).
Proof. apply quiet_same. intros s. exists (world s). by destruct s. Qed.
Lemma quiet_ensure b e : quiet (ensure b e : M unit).
Proof. apply quiet_same. intros s. exists (world s). by destruct b, s. Qed.
Lemma quiet_iter {A} (f : A -> M unit) l : (forall a, quiet (f a)) -> quiet (st_iter f l).
Proof. intros Hf. induction l as [|a l IH]; [apply quiet_ret|]. apply quiet_bind; [done|]. intros _. apply IH. Qed.
#[local] Hint Resolve quiet_send answers_send answers_raise quiet_host quiet_ret quiet_ensure quiet_iter : answers.
Ltac answering := repeat (auto with answers; lazymatch goal with
  | |- answers (_ ≫= _) => apply answers_bind; [|intros ?]
  | |- quiet (_ ≫= _) => apply quiet_bind; [|intros ?]
  | |- writes _ (match ?x with _ => _ end) => destruct x eqn:?
  end).
Lemma run_answers req : answers (_handle_run req).
Proof. unfold _handle_run, send_result, send_session. answering. Qed.
Lemma mailbox_answers req : answers (_handle_mailbox req).
Proof. unfold _handle_mailbox. answering. Qed.
Lemma oversized_terminal f : terminal (oversized f) = true.
Proof. done. Qed.
Lemma guarded_terminal f : terminal f = true -> terminal (guarded f) = true.
Proof. intros Hf. unfold guarded. by destruct (_ <=? _). Qed.
(** A run and a mailbox command that the helper handles to the end are
    answered by one terminal frame (a result, a mailbox result or an error), which
    comes last; before it are only an acceptance, heartbeats and the session.
    When an exception ends the helper instead, nothing that was written for the
    request is terminal.  No other stream is touched. *)
Theorem request_answered req s : dstr req "command" ∈ [CMD_RUN; CMD_MAILBOX] -> exists pre last,
  let s' := (serve req s).2 in
  out s' = out s ++ map guarded (pre ++ last) /\ subs s' = subs s /\ none_terminal pre /\
  match (serve req s).1 with
  | Ok _ => exists t, last = [t] /\ terminal (guarded t) = true
  | Raise _ => last = []
  end.
Proof.
  intros Hc. assert (Ha : answers (serve req)).
  { unfold serve. destruct (negb _); [by apply answers_send|].
    apply elem_of_cons in Hc as [->|Hc]; [apply run_answers|].
    apply list_elem_of_singleton in Hc as ->. apply mailbox_answers. }
  destruct (Ha s) as (l & Ho & Hs & _ & Hl). destruct (serve req s) as [[u|e] s']; simpl in *.
  - destruct Hl as (pre & t & -> & Hp & Ht). exists pre, [t]. split_and!; [done..|]. exists t.
    split; [done|by apply guarded_terminal].
  - exists l, []. by rewrite app_nil_r.
Qed.

(** What the adapters make of a bounded task: the runner's answer under omp, a
    process that is left running under opencode. *)
Definition omp_result (session : string) (returncode : Z) (stdout stderr : string) : option (string * pydict) :=
  Some (session, [("returncode", VInt returncode); ("stdout", VStr stdout); ("stderr", VStr stderr)]).
Definition opencode_result (found_session stdout : string) : option (string * pydict) :=
  Some (found_session, ([("returncode", VNone); ("stdout", VStr stdout)]
                        ++ if String.eqb found_session "" then [] else [("stderr", VStr "")])%list).
Lemma heartbeats n k (t : helper W) : st_iter (fun _ : nat => _send progress) (seq k n) t
  = (Ok tt, set_out (out t ++ map guarded (replicate n progress)) t).
Proof.
  revert k t. induction n as [|n IH]; intros k t; simpl; [rewrite app_nil_r; by destruct t|].
  rewrite st_bind_unfold. unfold _send at 1, modify at 1. rewrite IH. simpl. by rewrite <- app_assoc.
Qed.
(** A run up to the end of its task. *)
Lemma run_spawned req s workdir w1 w2 beats handle a :
  dget req "capabilities" = None -> workdir = expanduser (dstr req "workdir") ->
  isdir workdir (world s) = (Ok true, w1) -> choose (dgetd req "backend" (VStr "omp")) = Ok a ->
  spawn a (spawn_payload req workdir) w1 = (beats, Ok (Some handle), w2) ->
  _handle_run req s = send_result handle.1 handle.2
    (set_out (out s ++ map guarded (make_accepted WIRE_VERSION :: replicate beats progress)) (set_world w2 s)).
Proof.
  intros Hcap -> Hd Hch Hsp. unfold _handle_run. rewrite Hch. unfold dgetd. rewrite Hcap. cbn [truthy negb iterable orb].
  rewrite !st_bind_unfold. cbn [ensure]. rewrite !st_bind_unfold. unfold _send at 1, modify at 1. rewrite st_bind_unfold.
  unfold on_host at 1. cbn [world set_out]. rewrite Hd. cbn [negb fst snd].
  rewrite st_bind_unfold. unfold on_host at 1. cbn [world set_out set_world]. rewrite Hsp. cbn [fst snd].
  rewrite st_bind_unfold, heartbeats. destruct handle as [session result]. cbn [fst snd]. unfold set_out. cbn.
  by rewrite <- app_assoc.
Qed.
(** A run under opencode ends the helper: the result that its adapter gives
    has no return code yet, and the helper converts it to a number.  The task was
    started, and no terminal frame tells the client what became of it. *)
Theorem opencode_run_dies req s workdir w1 w2 beats session stdout :
  dstr req "command" = CMD_RUN -> dget req "wire_version" = Some (VInt WIRE_VERSION) -> dget req "capabilities" = None ->
  workdir = expanduser (dstr req "workdir") -> isdir workdir (world s) = (Ok true, w1) ->
  choose (dgetd req "backend" (VStr "omp")) = Ok "opencode" ->
  spawn "opencode" (spawn_payload req workdir) w1 = (beats, Ok (opencode_result session stdout), w2) ->
  exists l, serve req s = (Raise (TypeError "int() argument must be a string, a bytes-like object or a real number"),
                           set_out (out s ++ map guarded l) (set_world w2 s)) /\ none_terminal l.
Proof.
  intros Hc Hv Hcap -> Hd Hch Hsp. exists (make_accepted WIRE_VERSION :: replicate beats progress).
  split; [|constructor; [done|]; apply Forall_forall; by intros f [-> _]%elem_of_replicate].
  assert (Hserve : serve req s = _handle_run req s).
  { unfold serve, dgetd. rewrite Hv, Hc. reflexivity. }
  rewrite Hserve. unfold opencode_result in Hsp. rewrite (run_spawned req s _ w1 w2 beats _ "opencode" Hcap eq_refl Hd Hch Hsp).
  reflexivity.
Qed.
(** The request that the runner of omp gets for a bounded task. *)
Definition short_task_request (payload : pydict) : pydict := [
  ("task", dgetd payload "task" (VStr "")); ("workdir", dgetd payload "workdir" (VStr "")); ("backend", VStr "omp");
  ("agent", dgetd payload "agent_id" (VStr "")); ("model", dgetd payload "model" (VStr ""));
  ("session_key", dgetd payload "review_key" (VStr "")); ("request_id", dgetd payload "request_id" (VStr ""));
  ("run_id", dgetd payload "run_id" (VStr "")); ("review_key", dgetd payload "review_key" (VStr ""));
  ("resume_session_id", VNone)].
(** The session that a client asks to resume never reaches the runner of omp:
    whatever it is, the runner gets the same request, which resumes nothing. *)
Theorem resume_dropped req workdir sid :
  short_task_request (spawn_payload (dset req "resume_session_id" sid) workdir)
  = short_task_request (spawn_payload req workdir) /\
  dget (spawn_payload (dset req "resume_session_id" sid) workdir) "backend_session_id" = Some sid /\
  dget (short_task_request (spawn_payload (dset req "resume_session_id" sid) workdir)) "resume_session_id" = Some VNone.
Proof.
  split_and!; [| |done].
  - unfold short_task_request, spawn_payload, dgetd. cbn. rewrite !dget_dset_ne by done. reflexivity.
  - unfold spawn_payload. cbn [dget]. simpl. unfold dgetd. by rewrite dget_dset_eq.
Qed.
End helper.
