(* ===== verification/Streams.v ===== *)
(** * What a stream of the helper delivers
    (src/src/codeagent/remote_exec.py, over mailbox/store.py and gateway/events.py)

    The polls of one subscription, one after the other, over the inboxes and the
    log as they are at each: what is sent, once or not at all, and from where a
    client that lost its connection goes on. *)
From S2P Require Import Prelude MailboxProtocol MailboxStore GatewayStores Wire RemoteExec.

Section streams.
Context {W : Type} `{Host W}.

(** ** The mailbox leg *)

(** The files of the inboxes that a poll reads, in its order, each with the
    inbox it is in. *)
Definition files_of (w : W) (sub : subscription) (a : pyval) : list (pyval * (string * file)) :=
  match read_inbox w (sb_session sub) a with Ok files => map (fun x => (a, x)) files | Raise _ => [] end.
Definition listing (w : W) (sub : subscription) : list (pyval * (string * file)) :=
  List.concat (map (files_of w sub) (inboxes w sub)).
Notation entry := (pyval * (string * file))%type.
Definition key_of (x : entry) : string := cache_key x.1 x.2.1.
Definition sig_of (x : entry) : Z * Z := (mtime x.2.2, file_size x.2.2).
(** The stamp of a message. *)
Definition stamp (x : entry) : option string :=
  match content x.2.2 with
  | Some (VDict msg) => match dgetd msg "_cursor" (VStr "") with VStr c => if String.eqb c "" then None else Some c | _ => None end
  | _ => None
  end.
(** Files as the store writes them: objects, without a stamp or with the text of
    a cursor; a file name has no slash. *)
Definition legible (x : entry) : Prop :=
  has_char "/"%char x.2.1 = false /\
  match content x.2.2 with
  | None => True
  | Some (VDict msg) => dget msg "_cursor" = None \/
                        exists c, dget msg "_cursor" = Some (VStr (cursor_text c)) /\ 0 <= c.1 /\ 0 <= c.2
  | _ => False
  end.
Definition due (sub : subscription) (x : entry) : bool :=
  negb (bool_decide (dget (sb_cache sub) (key_of x) = Some (sig_of x))) &&
  match stamp x with Some c => _cursor_gt c (fst (_split_cursor (sb_cursor sub))) | None => false end.
Definition event_of (sub : subscription) (x : entry) : pydict :=
  match content x.2.2 with
  | Some (VDict msg) => mailbox_event sub x.1 (default "" (stamp x)) msg
  | _ => []
  end.
Definition emitted (sub : subscription) (w : W) : list entry := List.filter (due sub) (listing w sub).
Definition scan_with (c : list (string * (Z * Z))) (t : string) (o : list pydict) : scan :=
  {| sc_cache := c; sc_last := t; sc_out := o; sc_cut := false |}.
Definition last_stamp (t : string) (l : list entry) : string := foldl (fun t x => default t (stamp x)) t l.

Lemma poll_file_legible sub a x r : legible (a, x) -> sc_cut r = false ->
  dget (sc_cache r) (key_of (a, x)) = dget (sb_cache sub) (key_of (a, x)) ->
  poll_file sub a x r =
  let c := if bool_decide (dget (sc_cache r) (key_of (a, x)) = Some (sig_of (a, x))) then sc_cache r
           else dset (sc_cache r) (key_of (a, x)) (sig_of (a, x)) in
  if due sub (a, x) then scan_with c (default "" (stamp (a, x))) (sc_out r ++ [event_of sub (a, x)])
  else scan_with c (sc_last r) (sc_out r).
Proof.
  intros Hl Hcut Hk. unfold poll_file, due. rewrite Hcut, <- Hk. simpl orb. fold (key_of (a, x)). fold (sig_of (a, x)).
  change (cache_key a x.1) with (key_of (a, x)). change (mtime x.2, file_size x.2) with (sig_of (a, x)).
  case_bool_decide as Hd; simpl.
  { unfold scan_with. destruct r; simpl in *. by subst. }
  destruct Hl as [_ Hl]. unfold event_of, stamp in *. simpl in *. destruct (content x.2) as [[]|]; try done.
  assert (Hs : is_str (dgetd d "_cursor" (VStr "")) = true) by (unfold dgetd; destruct Hl as [->|(c & -> & _)]; done).
  destruct (dgetd d "_cursor" (VStr "")) as [| | | |c| |]; try done. destruct (String.eqb c ""); [done|]. simpl.
  destruct (_cursor_gt c _); done.
Qed.

(** *** Keys of the cache *)
Notation slashless s := (all_chars (fun d => negb (Ascii.eqb "/"%char d)) s = true).
Lemma agent_slashless a u : validate_agent_id a = Ok u -> slashless a.
Proof.
  assert (Hc : forall c, id_char c = true \/ is_alnum c = true -> Ascii.eqb "/"%char c = false)
    by (intros c; destruct c as [[] [] [] [] [] [] [] []]; vm_compute; intuition congruence).
  assert (Hx : forall t, head_class is_alnum id_char 31 t = true -> slashless t).
  { intros [|c t]; [done|]. cbn [all_chars head_class]. unfold class_bounded.
    intros [Hc1 [[Ht _]%andb_true_iff _]%andb_true_iff]%andb_true_iff.
    rewrite Hc by auto. cbn [negb andb]. eapply all_chars_impl; [|exact Ht]. intros d Hd. by rewrite Hc by auto. }
  unfold validate_agent_id. destruct (AGENT_ID_RE a) eqn:Ha; [|done]. intros _.
  apply match_dollar_spec in Ha as [Ha|(t & -> & Ht)]; [by apply Hx|]. rewrite all_chars_app, Hx by done. done.
Qed.
(** Files of the inbox of an agent, and files that [legible] inboxes have. *)
Definition good (x : entry) : Prop := (exists a u, x.1 = VStr a /\ validate_agent_id a = Ok u) /\ legible x.
Lemma key_parts x : good x -> exists a, x.1 = VStr a /\ slashless a /\ key_of x = a +:+ String "/" (x.2.1 +:+ ".json") /\
  rsplit1 "/"%char (key_of x) = Some (a, x.2.1 +:+ ".json").
Proof.
  intros ((a & u & Ha & Hv) & Hs & _). exists a. unfold key_of, cache_key. rewrite Ha. cbn [str_of].
  apply has_char_false in Hs. split_and!; [done|by eapply agent_slashless|done|].
  apply rsplit1_app, rsplit1_none. by rewrite all_chars_app, Hs.
Qed.
Lemma key_inj x y : good x -> good y -> key_of x = key_of y -> x.1 = y.1 /\ x.2.1 = y.2.1.
Proof.
  intros (a & Ha & _ & _ & Hx)%key_parts (b & Hb & _ & _ & Hy)%key_parts Hk. rewrite Hk, Hy in Hx.
  injection Hx as -> Hs. rewrite Ha, Hb. split; [done|]. symmetry.
  assert (Hj : forall s t, s +:+ ".json" = t +:+ ".json" -> s = t); [|by apply Hj].
  clear. induction s as [|c s IH]; intros [|d t] Ht; simpl in Ht; [done| | |].
  - by do 5 (destruct t as [|? t]; simplify_eq/=).
  - by do 5 (destruct s as [|? s]; simplify_eq/=).
  - injection Ht as -> Ht. f_equal. by apply IH.
Qed.
Lemma prefix_slash a b t : slashless a -> slashless b -> String.prefix (a +:+ "/") (b +:+ String "/" t) = true -> a = b.
Proof.
  revert b. induction a as [|c a IH]; intros [|d b] Ha Hb Hp; [done|exfalso..|]; cbn [all_chars] in *;
    rewrite ?string_app_cons, ?string_app_nil_l in Hp; cbn [String.prefix] in Hp.
  - apply andb_true_iff in Hb as [Hb _]. destruct (Ascii.ascii_dec "/" d) as [<-|]; done.
  - apply andb_true_iff in Ha as [Ha _]. destruct (Ascii.ascii_dec c "/") as [->|]; done.
  - apply andb_true_iff in Ha as [_ Ha], Hb as [_ Hb]. destruct (Ascii.ascii_dec c d) as [->|]; [|done]. f_equal. by apply IH.
Qed.
Lemma pruned_kept a files cache y : good y -> y.1 <> VStr a \/ y.2 ∈ files -> slashless a ->
  dget (pruned (VStr a) files cache) (key_of y) = dget cache (key_of y).
Proof.
  intros (b & Hb & Hsb & Hk & Hr)%key_parts Hy Ha. unfold pruned.
  rewrite (dget_filter_key (fun k => negb (gone (VStr a) files k))). unfold gone. cbn [str_of].
  rewrite Hr. destruct Hy as [Hne|Hin].
  - destruct (String.prefix _ (key_of y)) eqn:Hp; [|done]. rewrite Hk in Hp. apply prefix_slash in Hp; [|done..].
    by subst.
  - rewrite bool_decide_eq_true_2; [by rewrite andb_false_r|]. apply list_elem_of_fmap. by exists y.2.
Qed.
Lemma pruned_some a files cache k sg : dget (pruned a files cache) k = Some sg -> dget cache k = Some sg.
Proof.
  unfold pruned. rewrite (dget_filter_key (fun k => negb (gone a files k))). by destruct (negb _).
Qed.

(** *** One poll *)

(** What the scan [r'] has from the entries [es] on top of [r]. *)
Record passed (sub : subscription) (es : list entry) (r r' : scan) : Prop := {
  ps_cut : sc_cut r' = false;
  ps_out : sc_out r' = sc_out r ++ map (event_of sub) (List.filter (due sub) es);
  ps_last : sc_last r' = last_stamp (sc_last r) (List.filter (due sub) es);
  ps_seen : forall x, x ∈ es -> dget (sc_cache r') (key_of x) = Some (sig_of x);
  ps_new : forall k sg, dget (sc_cache r') k = Some sg ->
             dget (sc_cache r) k = Some sg \/ exists x, x ∈ es /\ key_of x = k /\ sig_of x = sg }.
(** The cache has for the keys of [es] what it had when the poll began. *)
Definition untouched (sub : subscription) (es : list entry) (r : scan) : Prop :=
  forall x, x ∈ es -> dget (sc_cache r) (key_of x) = dget (sb_cache sub) (key_of x).
Lemma files_pass sub a files r : Forall (fun x => legible (a, x)) files ->
  NoDup (map (fun x => key_of (a, x)) files) -> sc_cut r = false -> untouched sub (map (fun x => (a, x)) files) r ->
  let r' := foldl (fun r x => poll_file sub a x r) r files in
  passed sub (map (fun x => (a, x)) files) r r' /\
  forall k, k ∉ map (fun x => key_of (a, x)) files -> dget (sc_cache r') k = dget (sc_cache r) k.
Proof.
  revert r. induction files as [|x files IH]; intros r Hl Hnd Hcut Hun.
  { split; [split|]; try done; simpl; [by rewrite app_nil_r|by intros x ?%elem_of_nil|auto]. }
  apply Forall_cons in Hl as [Hx Hl]. apply NoDup_cons in Hnd as [Hk Hnd]. simpl.
  pose proof (poll_file_legible sub a x r Hx Hcut (Hun (a, x) ltac:(by left))) as Hp. simpl in Hp.
  set (c := if bool_decide _ then _ else _) in Hp.
  assert (Hc : forall k, dget c k = if bool_decide (k = key_of (a, x)) then Some (sig_of (a, x)) else dget (sc_cache r) k).
  { intros k. unfold c. case_bool_decide as Hd; case_bool_decide as He; subst; rewrite ?dget_dset_eq, ?dget_dset_ne; done. }
  set (r1 := poll_file sub a x r) in *.
  assert (H1 : sc_cut r1 = false /\ sc_cache r1 = c /\ sc_out r1 = sc_out r ++ map (event_of sub) (List.filter (due sub) [(a, x)])
    /\ sc_last r1 = last_stamp (sc_last r) (List.filter (due sub) [(a, x)])).
  { rewrite Hp. cbn [List.filter]. destruct (due sub (a, x)) eqn:Hdue; simpl; [|by rewrite app_nil_r].
    unfold due in Hdue. apply andb_true_iff in Hdue as [_ Hdue]. by destruct (stamp (a, x)). }
  destruct H1 as (Hcut1 & Hc1 & Ho1 & Hl1). destruct (IH r1) as [[Hcut' Ho Hla Hs Hn] Hkeep]; [done..| |].
  { intros y Hy. rewrite Hc1, Hc, bool_decide_eq_false_2; [apply Hun; by right|]. intros He. apply Hk. rewrite <- He.
    apply list_elem_of_fmap in Hy as (z & -> & Hz). by apply (list_elem_of_fmap_2 (fun x => key_of (a, x))). }
  assert (Hfl : forall l, List.filter (due sub) ((a, x) :: l) = List.filter (due sub) [(a, x)] ++ List.filter (due sub) l)
    by (intros l; simpl; by destruct (due sub (a, x))).
  split; [split|].
  - done.
  - by rewrite Ho, Ho1, (Hfl (map _ files)), map_app, app_assoc.
  - unfold last_stamp in *. by rewrite Hla, Hl1, (Hfl (map _ files)), foldl_app.
  - intros y [->|Hy]%elem_of_cons; [|by apply Hs]. by rewrite Hkeep, Hc1, Hc, bool_decide_eq_true_2.
  - intros k sg Hg. destruct (Hn k sg Hg) as [Hg'|(y & Hy & Hyk)]; [|right; exists y; split; [by right|done]].
    rewrite Hc1, Hc in Hg'. case_bool_decide; [|by left]. right. exists (a, x). split; [by left|]. by simplify_eq.
  - intros k [Hne Hnk]%not_elem_of_cons. rewrite Hkeep, Hc1, Hc by done. by rewrite bool_decide_eq_false_2.
Qed.
Lemma read_inbox_files w sid a files : read_inbox w sid a = Ok files ->
  (exists b u, a = VStr b /\ validate_agent_id b = Ok u) /\ NoDup files.*1.
Proof.
  destruct a as [| | | |b| |]; try done. simpl. destruct (validate_agent_id b) as [u|] eqn:Hb; [|done]. simpl.
  destruct (validate_agent_id sid); [|done]. simpl. intros [= <-]. split; [by exists b, u|].
  destruct (boxes w !! sid); simpl; [apply list_messages_NoDup|constructor].
Qed.
Lemma files_good w sub a : Forall legible (files_of w sub a) -> Forall good (files_of w sub a) /\
  Forall (fun x => x.1 = a) (files_of w sub a).
Proof.
  unfold files_of. destruct (read_inbox w (sb_session sub) a) as [files|] eqn:Hr; [|done].
  destruct (read_inbox_files _ _ _ _ Hr) as [(b & u & Hb & Hv) _].
  rewrite !Forall_forall. intros Hl. split; intros x Hx; [split; [|by apply Hl]|];
    apply list_elem_of_fmap in Hx as (f & -> & _); [by exists b, u|done].
Qed.
Lemma passed_trans sub es1 es2 r r1 r2 : passed sub es1 r r1 -> passed sub es2 r1 r2 ->
  (forall x, x ∈ es1 -> dget (sc_cache r2) (key_of x) = dget (sc_cache r1) (key_of x)) -> passed sub (es1 ++ es2) r r2.
Proof.
  intros [C1 O1 L1 S1 N1] [C2 O2 L2 S2 N2] Hk. split.
  - done.
  - by rewrite O2, O1, List.filter_app, map_app, app_assoc.
  - rewrite L2, L1, List.filter_app. unfold last_stamp. by rewrite foldl_app.
  - intros x [Hx|Hx]%elem_of_app; [|by apply S2]. by rewrite Hk, S1.
  - intros k sg [Hg|(x & Hx & Hxk)]%N2; [|right; exists x; split; [apply elem_of_app; by right|done]].
    destruct (N1 k sg Hg) as [?|(x & Hx & Hxk)]; [by left|right; exists x; split; [apply elem_of_app; by left|done]].
Qed.
Lemma inbox_pass sub w a r : Forall legible (files_of w sub a) -> sc_cut r = false -> untouched sub (files_of w sub a) r ->
  passed sub (files_of w sub a) r (poll_inbox sub w a r) /\
  forall y, good y -> y.1 <> a -> dget (sc_cache (poll_inbox sub w a r)) (key_of y) = dget (sc_cache r) (key_of y).
Proof.
  intros Hl. pose proof (files_good w sub a Hl) as [Hg _]. revert Hl Hg.
  unfold files_of, poll_inbox. intros Hl Hg Hcut Hun. destruct (read_inbox w (sb_session sub) a) as [files|] eqn:Hr.
  2: { split_and!; [split|..]; try done; simpl; [by rewrite app_nil_r|by intros x ?%elem_of_nil|auto]. }
  destruct (read_inbox_files _ _ _ _ Hr) as [(b & u & Hb & Hv) Hnd].
  assert (Hinj : NoDup (map (fun x => key_of (a, x)) files)).
  { apply NoDup_alt. intros i j k Hi Hj. rewrite list_lookup_fmap in Hi, Hj.
    destruct (files !! i) as [x|] eqn:Hxi, (files !! j) as [y|] eqn:Hyj; try done. simpl in Hi, Hj. simplify_eq.
    rewrite Forall_forall in Hg. rewrite NoDup_alt in Hnd. apply (Hnd i j x.1); rewrite list_lookup_fmap.
    - by rewrite Hxi.
    - rewrite Hyj. simpl. f_equal. eapply (key_inj (VStr b, y) (VStr b, x)); [apply Hg..|done];
        apply (list_elem_of_fmap_2 (fun x => (VStr b, x))); by eapply list_elem_of_lookup_2. }
  destruct (files_pass sub a files r) as [[Hc Ho Hla Hs Hn] Hk]; [by apply Forall_map|done..|].
  set (r1 := foldl _ r files) in *. rewrite Hc, Hb. split; [split|]; cbn [sc_cache sc_out sc_last sc_cut].
  - done.
  - by rewrite Ho, Hb.
  - by rewrite Hla, Hb.
  - intros x Hx. rewrite <- Hb in Hx. rewrite pruned_kept; [by apply Hs|by rewrite Forall_forall in Hg; apply Hg| |by eapply agent_slashless].
    right. by apply list_elem_of_fmap in Hx as (f & -> & Hf).
  - intros k sg Hk'%pruned_some. rewrite <- Hb. by apply Hn.
  - intros y Hy Hne. rewrite pruned_kept; [|done|left; congruence|by eapply agent_slashless].
    apply Hk. intros (x & Hx & Hxf)%list_elem_of_fmap. rewrite Forall_forall in Hg.
    destruct (key_inj y (a, x)) as [H1 _]; [done| |done|by rewrite Hb in H1].
    apply Hg. by apply (list_elem_of_fmap_2 (fun x => (a, x))).
Qed.
Lemma inboxes_NoDup w sub : NoDup (inboxes w sub).
Proof.
  unfold inboxes. apply NoDup_cons. split.
  - intros (a & Ha & [_ Hn]%elem_of_List_filter)%list_elem_of_fmap. rewrite Ha in Hn. simpl in Hn.
    by rewrite String.eqb_refl in Hn.
  - assert (Hinj : Inj (=) (=) VStr) by (by intros a b [= ->]). apply (NoDup_fmap_2 VStr). unfold read_members.
    destruct (validate_agent_id _); [|constructor]. destruct (boxes w !! sb_session sub ≫= meta); [|constructor].
    eapply sublist_NoDup; [apply NoDup_sorted_set|]. etrans; apply List_filter_sublist.
Qed.
Lemma inboxes_pass sub w l r : NoDup l -> Forall legible (List.concat (map (files_of w sub) l)) -> sc_cut r = false ->
  untouched sub (List.concat (map (files_of w sub) l)) r ->
  let r' := foldl (fun r a => poll_inbox sub w a r) r l in
  passed sub (List.concat (map (files_of w sub) l)) r r' /\
  forall y, good y -> y.1 ∉ l -> dget (sc_cache r') (key_of y) = dget (sc_cache r) (key_of y).
Proof.
  revert r. induction l as [|a l IH]; intros r Hnd Hl Hcut Hun.
  { split; [split|]; try done; simpl; [by rewrite app_nil_r|by intros x ?%elem_of_nil|auto]. }
  simpl in *. apply Forall_app in Hl as [Hla Hll]. apply NoDup_cons in Hnd as [Ha Hnd].
  destruct (inbox_pass sub w a r) as [H1 Hk1]; [done..|intros x Hx; apply Hun, elem_of_app; by left|].
  assert (Hlater : forall x, x ∈ List.concat (map (files_of w sub) l) -> good x /\ x.1 ∈ l).
  { intros x (fs & Hfs & Hx)%list_elem_of_In%in_concat. apply list_elem_of_In in Hx.
    apply list_elem_of_In, list_elem_of_fmap in Hfs as (b & -> & Hb).
    assert (Hlb : Forall legible (files_of w sub b)).
    { rewrite Forall_forall in *. intros z Hz. apply Hll. apply list_elem_of_In, in_concat. exists (files_of w sub b).
      split; apply list_elem_of_In; [by apply (list_elem_of_fmap_2 (files_of w sub))|done]. }
    destruct (files_good w sub b Hlb) as [Hg He]. rewrite Forall_forall in Hg, He. split; [by apply Hg|]. by rewrite (He x Hx). }
  destruct (IH (poll_inbox sub w a r)) as [H2 Hk2]; [done..|apply H1| |].
  { intros x Hx. destruct (Hlater x Hx) as [Hg Hin]. rewrite Hk1; [|done|intros He; by rewrite He in Hin].
    apply Hun, elem_of_app. by right. }
  destruct (files_good w sub a Hla) as [Hg He]. rewrite Forall_forall in Hg, He. split.
  - apply (passed_trans sub _ _ r (poll_inbox sub w a r)); [done..|]. intros x Hx. apply Hk2; [by apply Hg|].
    by rewrite (He x Hx).
  - intros y Hy [Hne Hni]%not_elem_of_cons. by rewrite Hk2, Hk1.
Qed.
Lemma poll_pass sub w : Forall legible (listing w sub) ->
  passed sub (listing w sub) (scan_with (sb_cache sub) "" []) (poll_scan sub w).
Proof. intros Hl. by apply inboxes_pass; [apply inboxes_NoDup|..]. Qed.

(** *** Positions *)
Definition le_pair (p q : Z * Z) : Prop := p.1 < q.1 \/ p.1 = q.1 /\ p.2 <= q.2.
Lemma pair_gt_spec p q : pair_gt p q = true <-> ~ le_pair p q.
Proof. unfold pair_gt, le_pair. rewrite orb_true_iff, andb_true_iff, !Z.ltb_lt, Z.eqb_eq. lia. Qed.
Definition position (sub : subscription) : Z * Z := cursor_parts (fst (_split_cursor (sb_cursor sub))).
Lemma cursor_text_digits c : 0 <= c.1 -> 0 <= c.2 -> exists ds ss, cursor_text c = ds +:+ "/" +:+ ss /\
  ds <> "" /\ all_chars is_digit ds = true /\ decimal 0 ds = c.1 /\ ss <> "" /\ all_chars is_digit ss = true /\ decimal 0 ss = c.2.
Proof.
  intros H1 H2. exists (pretty c.1), (pad0 SEQ_WIDTH c.2).
  destruct (pretty_digits c.1 H1) as (? & ? & ?), (pad0_decimal SEQ_WIDTH c.2) as (? & ? & ?); [unfold SEQ_WIDTH; lia|done|].
  by split_and!.
Qed.
Lemma split1_digits ds t : all_chars is_digit ds = true -> split1 "/"%char (ds +:+ "/" +:+ t) = Some (ds, t).
Proof.
  induction ds as [|d ds IH]; [done|]. cbn [all_chars]. intros [Hd Hds]%andb_true_iff. rewrite string_app_cons. cbn [split1].
  rewrite IH by done. replace (Ascii.eqb "/" d) with false; [done|]. revert Hd. clear. by destruct d as [[] [] [] [] [] [] [] []].
Qed.
Lemma text_position c : 0 <= c.1 -> 0 <= c.2 ->
  cursor_parts (cursor_text c) = c /\ _split_cursor (cursor_text c) = (cursor_text c, 0) /\ cursor_text c <> "".
Proof.
  intros H1 H2. destruct (cursor_text_digits c H1 H2) as (ds & ss & -> & Hn & Hds & Hv & Hn' & Hss & Hv').
  destruct (plain_kept py_str ds ss Hn Hds Hss) as [_ Hsp]. split_and!; [|done|by destruct ds].
  unfold cursor_parts. rewrite split1_digits, !int_of_decimals, Hv, Hv' by done.
  destruct ds as [|d ds]; [done|]. rewrite string_app_cons. cbn [String.eqb].
  assert (He : forall t, String.eqb (ds +:+ "/" +:+ t) "" = false) by (intros t; by destruct ds). unfold STREAM_CURSOR_INITIAL.
  cbn [String.eqb]. rewrite He. destruct (Ascii.eqb d "0"); by destruct c.
Qed.
Lemma stamp_text x t : legible x -> stamp x = Some t -> exists c, t = cursor_text c /\ 0 <= c.1 /\ 0 <= c.2.
Proof.
  intros [_ Hl] Ht. unfold stamp in Ht. destruct (content x.2.2) as [[]|]; try done. unfold dgetd in Ht.
  destruct Hl as [Hl|(c & Hl & Hc)]; rewrite Hl in Ht; [done|]. destruct (String.eqb _ ""); [done|]. simplify_eq. by exists c.
Qed.

(** *** Polls, one after the other *)
Definition poll_next (p : subscription * list pydict) (w : W) : subscription * list pydict :=
  let q := _poll_mailbox p.1 w in (q.1, p.2 ++ q.2).
Definition polls (sub : subscription) (ws : list W) : subscription * list pydict := foldl poll_next (sub, []) ws.
(** The frame of a message. *)
Definition message_frame (sub : subscription) (x : entry) (c : Z * Z) (msg : pydict) : pydict :=
  mailbox_event sub x.1 (cursor_text c) msg.
Record same_stream (s t : subscription) : Prop := {
  ss_request : sb_request t = sb_request s; ss_session : sb_session t = sb_session s;
  ss_agent : sb_agent t = sb_agent s; ss_kind : sb_kind t = sb_kind s }.
Lemma same_listing s t w : same_stream s t -> listing w t = listing w s.
Proof. intros [_ Hs Ha _]. unfold listing, inboxes, files_of. by rewrite Hs, Ha. Qed.
Lemma event_frame s t x c msg : same_stream s t -> sb_kind s = "mailbox" -> content x.2.2 = Some (VDict msg) ->
  stamp x = Some (cursor_text c) -> cursor_text c <> "" -> event_of t x = message_frame s x c msg.
Proof.
  intros [Hr Hs _ Hk] Hm Hx Hc Hne. unfold event_of, message_frame, mailbox_event, _advance_cursor. rewrite Hx, Hc, Hk, Hr, Hs.
  cbn [default]. apply String.eqb_neq in Hne. rewrite Hm. change (String.eqb "mailbox" "mailbox") with true. cbn iota.
  unfold id. by rewrite Hne.
Qed.
(** What a poll does: it sends the messages that are due, in the order of the
    inboxes; it knows all files afterwards, and goes on after the last one. *)
Lemma stream_poll_spec s w : sb_kind s = "mailbox" -> Forall legible (listing w s) ->
  same_stream s (_poll_mailbox s w).1 /\ (_poll_mailbox s w).2 = map (event_of s) (emitted s w) /\
  (forall x, x ∈ listing w s -> dget (sb_cache (_poll_mailbox s w).1) (key_of x) = Some (sig_of x)) /\
  (forall k sg, dget (sb_cache (_poll_mailbox s w).1) k = Some sg -> dget (sb_cache s) k = Some sg \/
     exists x, x ∈ listing w s /\ key_of x = k /\ sig_of x = sg) /\
  (sb_cursor (_poll_mailbox s w).1 = sb_cursor s \/ exists x, x ∈ emitted s w /\ stamp x = Some (sb_cursor (_poll_mailbox s w).1)).
Proof.
  intros Hk Hl. destruct (poll_pass s w Hl) as [_ Ho Hla Hs Hn]. simpl in Ho, Hla. unfold _poll_mailbox. cbn zeta.
  rewrite Hk. change (String.eqb "mailbox" "mailbox") with true. cbn iota.
  assert (Hcur : sc_last (poll_scan s w) = "" \/ exists x, x ∈ emitted s w /\ stamp x = Some (sc_last (poll_scan s w))).
  { rewrite Hla. unfold last_stamp, emitted. apply (foldl_keeps (fun t => t = "" \/ exists x, x ∈ List.filter (due s) (listing w s) /\ stamp x = Some t)); [|by left].
    intros t x Hx Ht. destruct (stamp x) as [t'|] eqn:Hst; [|done]. right. by exists x. }
  destruct (String.eqb_spec (sc_last (poll_scan s w)) "") as [He|He].
  - split_and!; [done|done|done|done|by left].
  - destruct Hcur as [Hcur|Hcur]; [done|]. split_and!; [done|done|done|done|by right].
Qed.
Lemma due_after s w x : Forall legible (listing w s) -> x ∈ emitted s w ->
  exists c, stamp x = Some (cursor_text c) /\ 0 <= c.1 /\ 0 <= c.2 /\ ~ le_pair c (position s) /\ x ∈ listing w s.
Proof.
  intros Hl [Hx Hd]%elem_of_List_filter. rewrite Forall_forall in Hl. unfold due in Hd. apply andb_true_iff in Hd as [_ Hd].
  destruct (stamp x) as [t|] eqn:Ht; [|done]. destruct (stamp_text x t (Hl x Hx) Ht) as (c & -> & H1 & H2). exists c.
  unfold _cursor_gt in Hd. rewrite (proj1 (text_position c H1 H2)) in Hd. apply pair_gt_spec in Hd. by split_and!.
Qed.
(** The position only moves forward. *)
Lemma poll_forward s w : sb_kind s = "mailbox" -> Forall legible (listing w s) ->
  le_pair (position s) (position (_poll_mailbox s w).1).
Proof.
  intros Hk Hl. destruct (stream_poll_spec s w Hk Hl) as (_ & _ & _ & _ & [Hc|(x & Hx & Hc)]); unfold position.
  - rewrite Hc. unfold le_pair. lia.
  - destruct (due_after s w x Hl Hx) as (c & Hst & H1 & H2 & Hgt & _). rewrite Hst in Hc.
    assert (He : sb_cursor (_poll_mailbox s w).1 = cursor_text c) by congruence. rewrite He.
    destruct (text_position c H1 H2) as (Hp & Hsp & _). rewrite Hsp. cbn [fst]. rewrite Hp.
    fold (position s). unfold le_pair in *. lia.
Qed.
Lemma polls_snoc s ws w : polls s (ws ++ [w]) = poll_next (polls s ws) w.
Proof. unfold polls. by rewrite foldl_app. Qed.
Lemma frame_entry s t w x c msg y : same_stream s t -> sb_kind s = "mailbox" -> Forall legible (listing w t) ->
  0 <= c.1 -> 0 <= c.2 -> y ∈ emitted t w -> event_of t y = message_frame s x c msg ->
  stamp y = Some (cursor_text c) /\ y.1 = x.1 /\ y ∈ listing w t /\ ~ le_pair c (position t).
Proof.
  intros Hs Hk Hl H1 H2 Hy He. pose proof Hs as [_ _ _ Hkt]. rewrite Hk in Hkt.
  destruct (due_after _ _ y Hl Hy) as (cy & Hst & Hy1 & Hy2 & Hgt & Hin). unfold event_of in He.
  destruct (content y.2.2) as [[]|]; try done. rewrite Hst in He |- *.
  unfold message_frame, mailbox_event, _advance_cursor in He. rewrite Hkt, Hk in He. cbn [default] in He.
  destruct (text_position cy Hy1 Hy2) as (Hp1 & _ & Hne1%String.eqb_neq), (text_position c H1 H2) as (Hp2 & _ & Hne2%String.eqb_neq).
  change (String.eqb "mailbox" "mailbox") with true in He. cbn iota in He. unfold id in He. rewrite Hne1, Hne2 in He.
  assert (Hc : cursor_text cy = cursor_text c) by (by injection He).
  rewrite Hc in Hp1. rewrite Hp1 in Hp2. rewrite <- Hp2. split_and!; [by rewrite Hp2|by injection He|done|done].
Qed.
(** C30: A message whose cursor is not beyond the position of a stream is never
    sent on it, however long it lies in the inbox: this befalls the message of a
    sender that drew its cursor first and wrote it last, and after a lost
    connection every message that has a smaller cursor than the last one that the
    client got. *)
Theorem late_message_never s ws x c msg : sb_kind s = "mailbox" -> Forall (fun w => Forall legible (listing w s)) ws ->
  0 <= c.1 -> 0 <= c.2 -> le_pair c (position s) -> message_frame s x c msg ∉ (polls s ws).2.
Proof.
  intros Hk Hl H1 H2 Hc.
  enough (Hi : same_stream s (polls s ws).1 /\ le_pair (position s) (position (polls s ws).1) /\
    message_frame s x c msg ∉ (polls s ws).2) by apply Hi.
  revert Hl. induction ws as [|w ws IH] using rev_ind; intros Hl.
  { split_and!; [done|unfold le_pair; simpl; lia|apply not_elem_of_nil]. }
  apply Forall_app in Hl as [Hl Hw]. apply Forall_cons in Hw as [Hw _].
  destruct (IH Hl) as (Hs & Hp & Hn).
  rewrite polls_snoc. set (p := polls s ws) in *. pose proof Hs as [_ _ _ Hkp]. rewrite Hk in Hkp.
  rewrite <- (same_listing _ _ w Hs) in Hw. destruct (stream_poll_spec p.1 w Hkp Hw) as (Hs' & Ho & _).
  pose proof (poll_forward p.1 w Hkp Hw) as Hf. unfold poll_next. cbn [fst snd]. split_and!.
  - destruct Hs, Hs'. split; congruence.
  - unfold le_pair in *. lia.
  - rewrite Ho, not_elem_of_app. split; [done|]. intros (y & He & Hy)%list_elem_of_fmap.
    destruct (frame_entry s p.1 w x c msg y) as (_ & _ & _ & Hgt); [done..|]. apply Hgt. unfold le_pair in *. lia.
Qed.
Lemma listing_NoDup s w : NoDup (listing w s).
Proof.
  unfold listing. pose proof (inboxes_NoDup w s) as Hnd. induction (inboxes w s) as [|a l IH]; [constructor|].
  apply NoDup_cons in Hnd as [Ha Hnd]. simpl.
  assert (Hfst : forall b x, x ∈ files_of w s b -> x.1 = b).
  { intros b x Hx. unfold files_of in Hx. destruct (read_inbox w _ b); [|by apply elem_of_nil in Hx].
    by apply list_elem_of_fmap in Hx as (f & -> & _). }
  apply NoDup_app. split_and!; [|intros x Hx Hx'|by apply IH].
  - unfold files_of. destruct (read_inbox w _ a) as [files|] eqn:Hr; [|constructor].
    apply read_inbox_files in Hr as [_ Hr]. apply (NoDup_fmap_1 (fun x : entry => x.2.1)). by rewrite map_map.
  - apply list_elem_of_In, in_concat in Hx' as (fs & Hfs & Hx'). apply list_elem_of_In in Hx'.
    apply list_elem_of_In, list_elem_of_fmap in Hfs as (b & -> & Hb).
    apply Hfst in Hx, Hx'. by subst.
Qed.
(** What the polls of [ws] leave. *)
Record polled (s : subscription) (ws : list W) (t : subscription) : Prop := {
  po_same : same_stream s t;
  po_cache : forall k sg, dget (sb_cache t) k = Some sg -> dget (sb_cache s) k = Some sg \/
    exists w x, w ∈ ws /\ x ∈ listing w s /\ key_of x = k /\ sig_of x = sg;
  po_cursor : sb_cursor t = sb_cursor s \/ exists w x, w ∈ ws /\ x ∈ listing w s /\ stamp x = Some (sb_cursor t) }.
Lemma polled_next s ws t w : sb_kind s = "mailbox" -> Forall legible (listing w s) ->
  polled s ws t -> polled s (ws ++ [w]) (_poll_mailbox t w).1.
Proof.
  intros Hk Hl [Hs Hc Hp]. pose proof Hs as [_ _ _ Hkt]. rewrite Hk in Hkt. pose proof Hl as Hl'.
  rewrite <- (same_listing s t w Hs) in Hl'. destruct (stream_poll_spec t w Hkt Hl') as (Hs' & _ & _ & Hn & Hcur).
  rewrite (same_listing s t w Hs) in Hn. split.
  - destruct Hs, Hs'. split; congruence.
  - intros k sg [Hg|(x & Hx & Hxk)]%Hn.
    + destruct (Hc k sg Hg) as [?|(w' & x & Hw & Hx)]; [by left|right]. exists w', x.
      split; [apply elem_of_app; by left|done].
    + right. exists w, x. split; [apply elem_of_app; right; by left|by destruct Hxk].
  - destruct Hcur as [->|(x & [Hx _]%elem_of_List_filter & Hst)].
    + destruct Hp as [Hp|(w' & x & Hw & Hx)]; [by left|right]. exists w', x. split; [apply elem_of_app; by left|done].
    + right. exists w, x. rewrite (same_listing s t w Hs) in Hx. split; [apply elem_of_app; right; by left|done].
Qed.
Lemma polls_polled s ws : sb_kind s = "mailbox" -> Forall (fun w => Forall legible (listing w s)) ws ->
  polled s ws (polls s ws).1.
Proof.
  intros Hk. induction ws as [|w ws IH] using rev_ind; intros Hl; [by split; [|left|left]|].
  apply Forall_app in Hl as [Hl Hw]. apply Forall_cons in Hw as [Hw _]. rewrite polls_snoc.
  apply polled_next; [done|done|by apply IH].
Qed.
Lemma foldl_next p ws : exists l, (foldl poll_next p ws).2 = p.2 ++ l.
Proof.
  revert p. induction ws as [|w ws IH]; intros p; simpl; [exists []; by rewrite app_nil_r|].
  destruct (IH (poll_next p w)) as [l ->]. unfold poll_next. cbn [snd]. eexists. by rewrite <- app_assoc.
Qed.

Section once.
Context (s : subscription) (x : entry) (c : Z * Z) (msg : pydict).
Context (Hk : sb_kind s = "mailbox") (H1 : 0 <= c.1) (H2 : 0 <= c.2).
Context (Hx : content x.2.2 = Some (VDict msg)) (Hm : dget msg "_cursor" = Some (VStr (cursor_text c))).
Notation e := (message_frame s x c msg).
(** Of all files only [x] is this message in this inbox. *)
Definition only_copy (w : W) : Prop := forall y, y ∈ listing w s -> y.1 = x.1 -> stamp y = Some (cursor_text c) -> y = x.
Lemma own_stamp : stamp x = Some (cursor_text c).
Proof.
  unfold stamp. rewrite Hx. unfold dgetd. rewrite Hm. destruct (text_position c H1 H2) as (_ & _ & Hne%String.eqb_neq).
  by rewrite Hne.
Qed.
Lemma own_event t : same_stream s t -> event_of t x = e.
Proof. intros Ht. apply event_frame; [done..|apply own_stamp|by apply text_position]. Qed.
(** A file that the stream knows is not sent again. *)
Lemma known_quiet p ws : same_stream s p.1 -> dget (sb_cache p.1) (key_of x) = Some (sig_of x) ->
  Forall (fun w => Forall legible (listing w s) /\ x ∈ listing w s /\ only_copy w) ws ->
  exists l, (foldl poll_next p ws).2 = p.2 ++ l /\ e ∉ l.
Proof.
  intros Hs Hc Hws. revert p Hs Hc. induction Hws as [|w ws (Hl & Hin & Ho) _ IH]; intros p Hs Hc.
  { exists []. rewrite app_nil_r. split; [done|apply not_elem_of_nil]. }
  rewrite <- (same_listing s p.1 w Hs) in Hl, Hin. pose proof Hs as [_ _ _ Hkp]. rewrite Hk in Hkp.
  destruct (stream_poll_spec p.1 w Hkp Hl) as (Hs' & Hf & Hseen & _). simpl.
  destruct (IH (poll_next p w)) as (l & -> & Hn); unfold poll_next; cbn [fst snd].
  - destruct Hs, Hs'. split; congruence.
  - by apply Hseen.
  - exists ((_poll_mailbox p.1 w).2 ++ l). rewrite app_assoc. split; [done|]. rewrite not_elem_of_app. split; [|done].
    rewrite Hf. intros (y & He & Hy)%list_elem_of_fmap.
    destruct (frame_entry s p.1 w x c msg y) as (Hst & Ha & Hyl & _); [done..|].
    rewrite (same_listing s p.1 w Hs) in Hyl. rewrite (Ho y Hyl Ha Hst) in Hy. apply elem_of_List_filter in Hy as [_ Hd].
    unfold due in Hd. by rewrite Hc, bool_decide_eq_true_2 in Hd.
Qed.
(** A message that is in no file of its inbox is not sent. *)
Lemma gone_quiet p ws : same_stream s p.1 ->
  Forall (fun w => Forall legible (listing w s) /\ x ∉ listing w s /\ only_copy w) ws ->
  exists l, (foldl poll_next p ws).2 = p.2 ++ l /\ e ∉ l.
Proof.
  intros Hs Hws. revert p Hs. induction Hws as [|w ws (Hl & Hout & Ho) _ IH]; intros p Hs.
  { exists []. rewrite app_nil_r. split; [done|apply not_elem_of_nil]. }
  simpl. pose proof Hs as [_ _ _ Hkp]. rewrite Hk in Hkp. rewrite <- (same_listing s p.1 w Hs) in Hl.
  destruct (stream_poll_spec p.1 w Hkp Hl) as (Hs' & Hf & _).
  destruct (IH (poll_next p w)) as (l & -> & Hn); unfold poll_next; cbn [fst snd].
  - destruct Hs, Hs'. split; congruence.
  - exists ((_poll_mailbox p.1 w).2 ++ l). rewrite app_assoc. split; [done|]. rewrite not_elem_of_app. split; [|done].
    rewrite Hf. intros (y & He & Hy)%list_elem_of_fmap.
    destruct (frame_entry s p.1 w x c msg y) as (Hst & Ha & Hyl & _); [done..|].
    rewrite (same_listing s p.1 w Hs) in Hyl. apply Hout. by rewrite <- (Ho y Hyl Ha Hst).
Qed.
Lemma foldl_same p ws : same_stream s p.1 -> Forall (fun w => Forall legible (listing w s)) ws ->
  same_stream s (foldl poll_next p ws).1.
Proof.
  intros Hs Hws. revert p Hs. induction Hws as [|w ws Hl _ IH]; intros p Hs; [done|]. simpl. apply IH.
  pose proof Hs as [_ _ _ Hkp]. rewrite Hk in Hkp. rewrite <- (same_listing s p.1 w Hs) in Hl.
  destruct (stream_poll_spec p.1 w Hkp Hl) as (Hs' & _). unfold poll_next. cbn [fst]. destruct Hs, Hs'. split; congruence.
Qed.
Lemma unsent ws : Forall (fun w => Forall legible (listing w s)) ws ->
  (forall w y, w ∈ ws -> y ∈ listing w s -> stamp y <> Some (cursor_text c)) -> e ∉ (polls s ws).2.
Proof.
  induction ws as [|w ws IH] using rev_ind; intros Hl Hno; [apply not_elem_of_nil|].
  apply Forall_app in Hl as [Hl Hw]. apply Forall_cons in Hw as [Hw _]. rewrite polls_snoc. unfold poll_next. cbn [snd].
  rewrite not_elem_of_app. split; [apply IH; [done|]; intros w' y Hw'; apply Hno, elem_of_app; by left|].
  pose proof (po_same _ _ _ (polls_polled s ws Hk Hl)) as Hs. pose proof Hs as [_ _ _ Hkp]. rewrite Hk in Hkp.
  rewrite <- (same_listing _ _ w Hs) in Hw. destruct (stream_poll_spec _ w Hkp Hw) as (_ & -> & _).
  intros (y & He & Hy)%list_elem_of_fmap. destruct (frame_entry s _ w x c msg y Hs) as (Hst & _ & Hyl & _); [done..|].
  rewrite (same_listing _ _ w Hs) in Hyl. apply (Hno w y); [apply elem_of_app; right; by left|done..].
Qed.
End once.

(** ** The leg of the gateway's log *)
Definition runtime_next (p : subscription * list pydict) (w : W) : subscription * list pydict :=
  let q := _poll_runtime_events p.1 w in (q.1, p.2 ++ q.2).
Definition runtime_polls (s : subscription) (ws : list W) : subscription * list pydict := foldl runtime_next (s, []) ws.
(** The frame of an event, for a stream whose mailbox position is [m]. *)
Definition log_frame (s : subscription) (m : string) (e : RuntimeEvent) : pydict :=
  [("type", VStr MSG_STREAM_EVENT); ("request_id", sb_request s); ("session_id", VStr (sb_session s));
   ("cursor", VStr (make_composite_cursor float_repr m (ev_id e))); ("payload", VDict (event_dict e));
   ("source", VStr "runtime")].
Lemma composite_split m k : utf8_valid m = true -> m <> "" ->
  _split_cursor (make_composite_cursor float_repr m k) = (m, k).
Proof. intros Hu Hm. unfold _split_cursor. rewrite composite_back by done. apply String.eqb_neq in Hm. by rewrite Hm. Qed.
Lemma log_poll s w r m k : sb_kind s = "runtime" -> runtime_filter (sb_runtime s) = Some r ->
  _split_cursor (sb_cursor s) = (m, k) -> utf8_valid m = true -> m <> "" ->
  Forall (fun e => ev_id e <> 0) (rows (event_log w)) ->
  let l := page k 200 (matches None (sb_session s) r) (event_log w) in
  (_poll_runtime_events s w).2 = map (log_frame s m) l /\
  _split_cursor (sb_cursor (_poll_runtime_events s w).1) = (m, GatewayStores.next_cursor k l) /\
  same_stream s (_poll_runtime_events s w).1 /\ sb_runtime (_poll_runtime_events s w).1 = sb_runtime s.
Proof.
  intros Hk Hr Hc Hu Hm Hw l. assert (Hp : runtime_page s w = l) by (unfold runtime_page; by rewrite Hr, Hc).
  assert (Hl : forall e, e ∈ l -> ev_id e <> 0).
  { intros e He. rewrite Forall_forall in Hw. apply Hw. eapply elem_of_submseteq; [exact He|].
    apply sublist_submseteq. unfold l, page. etrans; [apply sublist_take|apply List_filter_sublist]. }
  assert (Ha : forall e, e ∈ l -> _advance_cursor s "" (ev_id e) = make_composite_cursor float_repr m (ev_id e)).
  { intros e He. unfold _advance_cursor. rewrite Hk, Hc. simpl. apply Hl, Z.eqb_neq in He. by rewrite He. }
  unfold _poll_runtime_events. rewrite Hp. cbn [fst snd]. split.
  { apply map_ext_in. intros e He%list_elem_of_In. unfold runtime_frame, log_frame. by rewrite Ha. }
  unfold GatewayStores.next_cursor. destruct (last l) as [e|] eqn:He; [|by split_and!].
  apply last_Some_elem_of in He. rewrite (proj2 (Z.eqb_neq _ _) (Hl e He)). split_and!; [|done|done].
  cbn [with_cursor sb_cursor]. rewrite Ha by done. by apply composite_split.
Qed.
(** C20: The leg of the log is a reader of the event store: the events that the
    polls of a stream send are those that the reader is given, in their order, and
    the stream goes on where the reader does.  The cursor of every frame is the
    position after its event, so that a client that resumes from it goes on with
    the next event. *)
Theorem log_leg_reads s ws r m k : sb_kind s = "runtime" -> runtime_filter (sb_runtime s) = Some r ->
  _split_cursor (sb_cursor s) = (m, k) -> utf8_valid m = true -> m <> "" ->
  Forall (fun w => Forall (fun e => ev_id e <> 0) (rows (event_log w))) ws ->
  let rd := foldl (fun rd w => poll None (sb_session s) r 200 (event_log w) rd) {| rd_cursor := k; rd_seen := [] |} ws in
  (runtime_polls s ws).2 = map (log_frame s m) (rd_seen rd) /\
  _split_cursor (sb_cursor (runtime_polls s ws).1) = (m, rd_cursor rd) /\
  (forall e, e ∈ rd_seen rd -> _split_cursor (dstr (log_frame s m e) "cursor") = (m, ev_id e)).
Proof.
  intros Hk Hr Hc Hu Hm Hws rd. enough (Hi : (runtime_polls s ws).2 = map (log_frame s m) (rd_seen rd) /\
    _split_cursor (sb_cursor (runtime_polls s ws).1) = (m, rd_cursor rd) /\
    same_stream s (runtime_polls s ws).1 /\ sb_runtime (runtime_polls s ws).1 = sb_runtime s).
  { destruct Hi as (H1 & H2 & _). split_and!; [done..|]. intros e _. by apply composite_split. }
  unfold rd. clear rd. induction ws as [|w ws IH] using rev_ind; [done|].
  apply Forall_app in Hws as [Hws Hw]. apply Forall_cons in Hw as [Hw _]. destruct (IH Hws) as (Ho & Hcur & Hs & Hrt).
  unfold runtime_polls in *. rewrite !foldl_app. cbn [foldl]. set (p := foldl runtime_next (s, []) ws) in *.
  set (rd := foldl (fun rd w => poll None (sb_session s) r 200 (event_log w) rd) _ ws) in *.
  pose proof Hs as [Hreq Hses Hag Hkp]. rewrite Hk in Hkp. rewrite <- Hrt in Hr.
  destruct (log_poll p.1 w r m (rd_cursor rd)) as (Ho' & Hcur' & Hs' & Hrt'); [done..|].
  rewrite Hses in Ho', Hcur'. unfold runtime_next, poll, list_after. cbn [forallb default res_bind fst snd rd_seen rd_cursor].
  split_and!; [|done|destruct Hs'; split; congruence|congruence].
  rewrite Ho, Ho', map_app. f_equal. apply map_ext. intros e. unfold log_frame. by rewrite Hreq, Hses.
Qed.
End streams.

(** ** A machine *)
Record machine := { mc_boxes : gmap string session; mc_log : events }.
Definition machine_spawn (name : string) (payload : pydict) (w : machine) :
    nat * res (option (string * pydict)) * machine :=
  (1%nat, (if String.eqb name "opencode" then Ok (opencode_result "s1" "partial")
           else if String.eqb name "omp" then Ok (omp_result "s1" 0 ("did " +:+ dstr payload "task") "")
           else Raise (ValueError "generic runtime requires 'argv' (configured, no shell)")), w).
#[export] Instance machine_host : Host machine := {|
  float_repr := fun _ => "0.0"; py_str := fun _ => "?"; hostname := "host";
  installed := [("omp", Some [CAP_STREAM_EVENTS]); ("opencode", Some [CAP_STREAM_EVENTS])];
  expanduser := fun s => s; isdir := fun d => mret (String.prefix "/" d); spawn := machine_spawn;
  mailbox_call := fun _ _ => mret ("done", "", 0); boxes := mc_boxes; event_log := mc_log;
  file_size := fun f => Z.of_nat (String.length (dumps (fun _ => "0.0") (default VNone (content f)))); clock := mret 0 |}.
Definition machine_of (s : session) : machine := {| mc_boxes := {["s1" := s]}; mc_log := empty_events |}.
Definition legible_b (x : pyval * (string * file)) : bool :=
  negb (has_char "/"%char x.2.1) &&
  match content x.2.2 with
  | None => true
  | Some (VDict msg) => match dget msg "_cursor" with
                        | None => true
                        | Some (VStr t) => let c := cursor_parts t in
                                           String.eqb t (cursor_text c) && (0 <=? c.1) && (0 <=? c.2)
                        | _ => false
                        end
  | _ => false
  end.
Lemma legible_check l : forallb legible_b l = true -> Forall legible l.
Proof.
  induction l as [|x l IH]; [constructor|]. simpl. intros [Hx Hl]%andb_true_iff. constructor; [|by apply IH].
  apply andb_true_iff in Hx as [Hs%negb_true_iff Hx]. split; [done|]. destruct (content x.2.2) as [[]|]; try done.
  destruct (dget d "_cursor") as [[]|]; try done; [|by left]. right.
  apply andb_true_iff in Hx as [[Ht%String.eqb_eq H1%Z.leb_le]%andb_true_iff H2%Z.leb_le]. exists (cursor_parts s).
  by rewrite <- Ht.
Qed.
(** The manager writes to [w1]: [a1] is begun first and ended last. *)
Definition letter (id : string) (now : Z) : pydict := Message.to_dict (message_of "s1" (MailboxStore.demo_draft "w1") [] id now).
Definition letter_steps (id : string) (now : Z) : list (st session unit) :=
  write_phase "s1" id ["w1"] (letter id now) (now, 0) now.
Definition begun : session := (run_steps (take 2 (letter_steps "a1" 1700000005000)) MailboxStore.demo).2.
Definition overtaken : session := (run_steps (letter_steps "b1" 1700000006000) begun).2.
Definition ended : session := (run_steps (drop 2 (letter_steps "a1" 1700000005000)) overtaken).2.
Definition w1_stream : subscription := {|
  sb_request := VStr "q1"; sb_session := "s1"; sb_agent := VStr "w1"; sb_cursor := "0"; sb_beat := 0;
  sb_kind := "mailbox"; sb_runtime := VStr ""; sb_cache := [] |}.
Definition letter_file (s : session) (id : string) : pyval * (string * file) :=
  (VStr "w1", (id, default {| content := None; mtime := 0 |} (inbox_of s "w1" !! id))).
Definition stamped_letter (id : string) (now : Z) : pydict := stamped (letter id now) (now, 0).
Lemma late_message_never_witness :
  let s := (polls w1_stream [machine_of begun; machine_of overtaken]).1 in
  letter_file ended "a1" ∈ listing (machine_of ended) s /\
  message_frame s (letter_file ended "a1") (1700000005000, 0) (stamped_letter "a1" 1700000005000)
    ∉ (polls s [machine_of ended; machine_of ended]).2.
Proof.
  intros s. split; [vm_compute; repeat constructor|]. apply (late_message_never s).
  - reflexivity.
  - do 2 (constructor; [apply legible_check; vm_compute; reflexivity|]). constructor.
  - vm_compute. discriminate.
  - vm_compute. discriminate.
  - vm_compute. left. reflexivity.
Defined.
(** Two letters in order: the second is sent once, when it has come; then it is read. *)
Definition first_in : session := (run_steps (letter_steps "b1" 1700000006000) MailboxStore.demo).2.
Definition second_in : session := (run_steps (letter_steps "c1" 1700000007000) first_in).2.
Definition emptied : session :=
  set_agents (alter (set_inbox ∅) "w1" (agents second_in)) second_in.
(** The log of the gateway with two events. *)
Definition logged : machine := {|
  mc_boxes := ∅; mc_log := (append_local "host" (GatewayStores.demo_draft 2)
    (append_local "host" (GatewayStores.demo_draft 1) empty_events).2).2 |}.
Definition log_stream : subscription := {|
  sb_request := VStr "q1"; sb_session := ed_session (GatewayStores.demo_draft 1); sb_agent := VStr "w1"; sb_cursor := "0";
  sb_beat := 0; sb_kind := "runtime"; sb_runtime := VStr ""; sb_cache := [] |}.
Lemma log_leg_reads_witness :
  let rd := foldl (fun rd w => poll None (sb_session log_stream) "" 200 (event_log w) rd) {| rd_cursor := 0; rd_seen := [] |}
              [machine_of MailboxStore.demo; logged] in
  length (rd_seen rd) = 2%nat /\
  (runtime_polls log_stream [machine_of MailboxStore.demo; logged]).2 = map (log_frame log_stream "0") (rd_seen rd).
Proof.
  split; [vm_compute; reflexivity|]. apply (log_leg_reads log_stream [machine_of MailboxStore.demo; logged] "" "0" 0); try reflexivity.
  - discriminate.
  - repeat constructor; discriminate.
Defined.

(** ** The helper on this machine *)
Definition run_of (backend : string) : pydict := make_request WIRE_VERSION
  {| rq_task := "say hi"; rq_workdir := "/tmp"; rq_backend := backend; rq_agent := ""; rq_model := ""; rq_skills := "";
     rq_session_id := "old"; rq_skip_permissions := true; rq_timeout := 600; rq_session_key := ""; rq_request_id := "r1";
     rq_run_id := ""; rq_review_key := ""; rq_require_ack := false; rq_capabilities := [] |}.
Lemma request_answered_witness : exists pre last,
  let s' := (serve (run_of "omp") (started (machine_of MailboxStore.demo))).2 in
  out s' = [] ++ map guarded (pre ++ last) /\ length (out s') = 4%nat.
Proof.
  destruct (request_answered (run_of "omp") (started (machine_of MailboxStore.demo))) as (pre & last & Ho & _).
  - vm_compute. left.
  - exists pre, last. split; [exact Ho|]. vm_compute. reflexivity.
Defined.
Lemma opencode_run_dies_witness : exists l,
  (serve (run_of "opencode") (started (machine_of MailboxStore.demo))).2
  = set_out (map guarded l) (started (machine_of MailboxStore.demo)) /\ none_terminal l.
Proof.
  destruct (opencode_run_dies (run_of "opencode") (started (machine_of MailboxStore.demo)) "/tmp"
    (machine_of MailboxStore.demo) (machine_of MailboxStore.demo) 1%nat "s1" "partial") as (l & Hl & Hn); try reflexivity.
  exists l. rewrite Hl. split; [reflexivity|exact Hn].
Defined.
