(* ===== verification/Exchange.v ===== *)
(** * One exchange with the helper
    (src/src/codeagent/transport/local.py, transport/ssh.py)

    The clients that send one request and read frames until the stream of the
    helper ends: the local transport, the SSH transport for runs (with the second
    host that it falls back to) and for mailbox commands.  A client sees the text
    of the stream, in which the bytes that are no UTF-8 have been replaced, the
    text of the error stream and the exit code of the process. *)
From S2P Require Import Prelude MailboxProtocol MailboxStore GatewayStores Wire RemoteExec Streams.

(** ** Frames into a result *)
Definition MAX_CONSECUTIVE_BAD_FRAMES : nat := 5.
Definition NO_TERMINAL_FRAME_MSG : string :=
  "wire error: no terminal frame (result/error/mailbox_result) received; the helper's response was lost or truncated".
Definition TransportError (what : string) : pyexn := AppError "TransportError" what.
Record exchange := {
  x_session : option string; x_out : string; x_err : string; x_code : Z; x_terminal : bool; x_bad : nat }.
Definition no_frames : exchange :=
  {| x_session := None; x_out := ""; x_err := ""; x_code := -1; x_terminal := false; x_bad := 0 |}.
Definition with_bad (n : nat) (x : exchange) : exchange :=
  {| x_session := x_session x; x_out := x_out x; x_err := x_err x; x_code := x_code x; x_terminal := x_terminal x; x_bad := n |}.
(** The fields of a message that has been checked. *)
Definition int_field (m : WireMessage) (k : string) (dflt : Z) : Z :=
  default dflt (number_of (dgetd (wm_payload m) k (VInt dflt))).
Definition version_mismatch : pyexn := TransportError "wire version mismatch".
(** A message of an exchange; [error_code] is the code of an error frame. *)
Definition take_message (error_code : Z) (m : WireMessage) (x : exchange) : res exchange :=
  let p := wm_payload m in
  if String.eqb (wm_type m) MSG_READY
  then guard int_field m "wire_version" 0 =? WIRE_VERSION orelse version_mismatch; Ok x
  else if String.eqb (wm_type m) MSG_SESSION
  then Ok {| x_session := Some (dstr p "id"); x_out := x_out x; x_err := x_err x; x_code := x_code x;
             x_terminal := x_terminal x; x_bad := x_bad x |}
  else if String.eqb (wm_type m) MSG_RESULT
  then Ok {| x_session := x_session x; x_out := dstr p "stdout"; x_err := dstr p "stderr"; x_code := int_field m "exit_code" 0;
             x_terminal := true; x_bad := x_bad x |}
  else if String.eqb (wm_type m) MSG_ERROR
  then Ok {| x_session := x_session x; x_out := x_out x; x_err := dstr p "message"; x_code := error_code;
             x_terminal := true; x_bad := x_bad x |}
  else Ok x.
(** A line, and whether the reading goes on. *)
Definition take_line (error_code : Z) (raw_line : string) (x : exchange) : res (exchange * bool) :=
  let raw_line := strip raw_line in
  if String.eqb raw_line "" then Ok (x, true) else
  match decode_line false raw_line with
  | Raise _ => Ok (with_bad (S (x_bad x)) x, negb (Nat.leb MAX_CONSECUTIVE_BAD_FRAMES (S (x_bad x))))
  | Ok m => do x' <- take_message error_code m (with_bad 0 x); Ok (x', true)
  end.
Fixpoint take_lines (error_code : Z) (lines : list string) (x : exchange) : res exchange :=
  match lines with
  | [] => Ok x
  | line :: lines => do r <- take_line error_code line x;
                     if snd r : bool then take_lines error_code lines (fst r) else Ok (fst r)
  end.
Record RunResult := { rr_code : Z; rr_out : string; rr_err : string; rr_session : option string }.
(** No terminal frame, and a process that says that all went well. *)
Definition lost (x : exchange) (returncode : Z) : bool := negb (x_terminal x) && (x_code x =? -1) && (returncode =? 0).
Definition or_text (a b : string) : string := if String.eqb a "" then b else a.
Definition lost_text (err stderr : string) : string :=
  let e := or_text err stderr in (if String.eqb e "" then "" else e +:+ NL) +:+ NO_TERMINAL_FRAME_MSG.

(** *** Locally: the whole output is divided by [str.splitlines] *)
Definition _run_wire (stdout stderr : string) (returncode : Z) : res RunResult :=
  do x <- take_lines (-1) (splitlines stdout) no_frames;
  let gone := lost x returncode in
  let err := if gone then lost_text (x_err x) stderr else x_err x in
  let code := if gone then 1 else x_code x in
  Ok {| rr_code := if code =? -1 then returncode else code; rr_out := x_out x; rr_err := or_text err stderr;
        rr_session := x_session x |}.

(** *** Over SSH: a queue of lines that a silence of the window ends *)
Inductive arrival := Raw (line : string) | Silence.
Fixpoint take_arrivals (error_code : Z) (l : list arrival) (x : exchange) : res exchange :=
  match l with
  | [] => Ok x
  | Silence :: _ => Raise (TransportError "SSH execution timed out")
  | Raw line :: l => do r <- take_line error_code line x;
                     if snd r : bool then take_arrivals error_code l (fst r) else Ok (fst r)
  end.
(** [returncode] is missing when the process does not end in time. *)
Definition _run_ssh_wire (l : list arrival) (ssh_stderr : string) (returncode : option Z) : res RunResult :=
  do x <- take_arrivals 1 l no_frames;
  match returncode with
  | None => Raise (TransportError "SSH process did not exit after stream completion")
  | Some ret =>
    let gone := lost x ret in
    let err := if gone then lost_text (x_err x) ssh_stderr else x_err x in
    let code := if gone then 1 else x_code x in
    let err := if code =? -1 then or_text err ssh_stderr else err in
    Ok {| rr_code := if code =? -1 then ret else code; rr_out := x_out x; rr_err := err; rr_session := x_session x |}
  end.

(** *** Mailbox commands over SSH *)
Record reply := { y_out : string; y_err : string; y_code : Z; y_terminal : bool; y_invalid : bool; y_bad : nat }.
Definition no_reply : reply :=
  {| y_out := ""; y_err := ""; y_code := -1; y_terminal := false; y_invalid := false; y_bad := 0 |}.
Definition take_reply (m : WireMessage) (y : reply) : res reply :=
  let p := wm_payload m in
  if String.eqb (wm_type m) MSG_READY
  then guard int_field m "wire_version" 0 =? WIRE_VERSION orelse version_mismatch; Ok y
  else if String.eqb (wm_type m) MSG_MAILBOX_RESULT
  then match dgetd p "stdout" VNone, dgetd p "stderr" VNone, dgetd p "exit_code" VNone with
       | VStr o, VStr e, VInt c => Ok {| y_out := o; y_err := e; y_code := c; y_terminal := true;
                                         y_invalid := y_invalid y; y_bad := y_bad y |}
       | _, _, _ => Ok {| y_out := y_out y; y_err := y_err y; y_code := y_code y; y_terminal := true;
                          y_invalid := true; y_bad := y_bad y |}
       end
  else if String.eqb (wm_type m) MSG_ERROR
  then Ok {| y_out := y_out y; y_err := dstr p "message"; y_code := 1; y_terminal := true;
             y_invalid := y_invalid y; y_bad := y_bad y |}
  else Ok y.
Definition reply_bad (n : nat) (inv : bool) (y : reply) : reply :=
  {| y_out := y_out y; y_err := y_err y; y_code := y_code y; y_terminal := y_terminal y; y_invalid := inv; y_bad := n |}.
Fixpoint take_replies (lines : list string) (y : reply) : res reply :=
  match lines with
  | [] => Ok y
  | line :: lines =>
    let raw_line := strip line in
    if String.eqb raw_line "" then take_replies lines y else
    match decode_line false raw_line with
    | Raise _ =>
      let y' := reply_bad (S (y_bad y)) (y_invalid y || contains "mailbox_result" raw_line) y in
      if Nat.leb MAX_CONSECUTIVE_BAD_FRAMES (y_bad y') then Ok y' else take_replies lines y'
    | Ok m => do y' <- take_reply m (reply_bad 0 (y_invalid y) y); take_replies lines y'
    end
  end.
(** The exit code, the output and the errors of the command. *)
Definition _run_ssh_mailbox (stdout ssh_stderr : string) (returncode : Z) : res (Z * string * string) :=
  do y <- take_replies (splitlines stdout) no_reply;
  let err := if y_invalid y then or_text (y_err y) "invalid mailbox_result response from remote helper" else y_err y in
  let code := if y_invalid y && ((y_code y =? -1) || (y_code y =? 0)) then 1 else y_code y in
  let gone := negb (y_terminal y) && (code =? -1) && (returncode =? 0) in
  let err := if gone then lost_text err ssh_stderr else err in
  let code := if gone then 1 else code in
  if code =? -1 then Ok (returncode, y_out y, or_text ssh_stderr err) else Ok (code, y_out y, err).

(** ** Success comes from a result *)

(** What the state of an exchange says of the lines that were read. *)
Definition told (error_code : Z) (line : string) (x : exchange) : Prop := exists m,
  decode_line false (strip line) = Ok m /\
  (wm_type m = MSG_RESULT /\ x_code x = int_field m "exit_code" 0 /\ x_out x = dstr (wm_payload m) "stdout"
   \/ wm_type m = MSG_ERROR /\ x_code x = error_code).
Definition sourced (error_code : Z) (lines : list string) (x : exchange) : Prop :=
  x_terminal x = false /\ x_code x = -1 \/ x_terminal x = true /\ exists line, line ∈ lines /\ told error_code line x.
Lemma take_line_sourced ec line lines x x' go : line ∈ lines -> sourced ec lines x ->
  take_line ec line x = Ok (x', go) -> sourced ec lines x'.
Proof.
  intros Hin Hx Ht. unfold take_line in Ht. destruct (String.eqb _ ""); [by simplify_eq|].
  destruct (decode_line false (strip line)) as [m|e] eqn:Hm; [|by simplify_eq].
  destruct (take_message ec m (with_bad 0 x)) as [y|e] eqn:Hy; [|done]. simpl in Ht. simplify_eq.
  unfold take_message in Hy. destruct (String.eqb (wm_type m) MSG_READY).
  { destruct (_ =? _); [by simplify_eq|done]. }
  destruct (String.eqb (wm_type m) MSG_SESSION); [by simplify_eq|].
  destruct (String.eqb_spec (wm_type m) MSG_RESULT) as [Hr|_].
  { simplify_eq. right. split; [done|]. exists line. split; [done|]. exists m. split; [done|]. by left. }
  destruct (String.eqb_spec (wm_type m) MSG_ERROR) as [Hr|_]; [|by simplify_eq].
  simplify_eq. right. split; [done|]. exists line. split; [done|]. exists m. split; [done|]. by right.
Qed.
Definition raw_lines (l : list arrival) : list string :=
  List.concat (map (fun a => match a with Raw s => [s] | Silence => [] end) l).
Lemma take_arrivals_sourced ec lines l x x' : (forall s, s ∈ raw_lines l -> s ∈ lines) -> sourced ec lines x ->
  take_arrivals ec l x = Ok x' -> sourced ec lines x'.
Proof.
  revert x. induction l as [|[line|] l IH]; intros x Hl Hx Ht; simpl in *; [by simplify_eq| |done].
  destruct (take_line ec line x) as [[y go]|e] eqn:Hy; [|done]. simpl in Ht.
  assert (Hs : sourced ec lines y) by (eapply take_line_sourced; [apply Hl; by left|done|done]).
  destruct go; [|by simplify_eq]. apply (IH y); [|done|done]. intros s Hs'. apply Hl. by right.
Qed.
(** C18: A run over SSH is reported as a success only when a result frame was
    read: the output is that frame's, and its exit code is 0, or it is -1 (a task
    that was stopped) and the process of the helper ended with 0.  A stream
    without a terminal frame, with garbage only, with errors or without an end is
    never a success. *)
Theorem ssh_success_is_result l ssh_stderr returncode r :
  _run_ssh_wire l ssh_stderr returncode = Ok r -> rr_code r = 0 ->
  exists line m, line ∈ raw_lines l /\ decode_line false (strip line) = Ok m /\ wm_type m = MSG_RESULT /\
    rr_out r = dstr (wm_payload m) "stdout" /\
    (int_field m "exit_code" 0 = 0 \/ int_field m "exit_code" 0 = -1 /\ returncode = Some 0).
Proof.
  unfold _run_ssh_wire. destruct (take_arrivals 1 l no_frames) as [x|e] eqn:Hx; [|done]. simpl.
  assert (Hs : sourced 1 (raw_lines l) x)
    by (apply (take_arrivals_sourced 1 (raw_lines l) l no_frames); [done|by left|done]).
  destruct returncode as [ret|]; [|done]. intros [= <-]. cbn [rr_code rr_out]. unfold lost.
  destruct Hs as [[-> ->]|(-> & line & Hin & m & Hm & Hd)]; cbn [negb andb].
  - change (-1 =? -1) with true. cbn [andb]. destruct (Z.eqb_spec ret 0) as [->|Hne]; cbn; congruence.
  - destruct Hd as [(Hr & Hc & Ho)|[_ ->]]; [|done]. intros Hcode. exists line, m. rewrite Hc in Hcode.
    split_and!; [done..|]. destruct (Z.eqb_spec (int_field m "exit_code" 0) (-1)); [right|by left].
    split; [done|by subst].
Qed.

Definition reply_told (line : string) (y : reply) : Prop := exists m,
  decode_line false (strip line) = Ok m /\ wm_type m = MSG_MAILBOX_RESULT /\
  dget (wm_payload m) "exit_code" = Some (VInt (y_code y)) /\ dget (wm_payload m) "stdout" = Some (VStr (y_out y)).
Definition reply_sourced (lines : list string) (y : reply) : Prop :=
  y_terminal y = false /\ y_code y = -1 \/ y_invalid y = true \/ y_code y = 1 \/
  y_terminal y = true /\ exists line, line ∈ lines /\ reply_told line y.
Lemma dgetd_some d k v : dgetd d k VNone = v -> v <> VNone -> dget d k = Some v.
Proof. unfold dgetd. destruct (dget d k); congruence. Qed.
Lemma take_replies_sourced lines l y y' : (forall s, s ∈ l -> s ∈ lines) -> reply_sourced lines y ->
  take_replies l y = Ok y' -> reply_sourced lines y'.
Proof.
  revert y. induction l as [|line l IH]; intros y Hl Hy Ht; [by simplify_eq/=|]. cbn [take_replies] in Ht.
  assert (Hl' : forall s, s ∈ l -> s ∈ lines) by (intros s Hs; apply Hl; by right).
  assert (Hbad : forall n inv, (y_invalid y = true -> inv = true) -> reply_sourced lines (reply_bad n inv y)).
  { intros n inv Hinv. destruct Hy as [Hy|[Hy|[Hy|Hy]]]; [by left|right; left; by apply Hinv|by right; right; left|by right; right; right]. }
  destruct (String.eqb _ ""); [by apply (IH y)|]. destruct (decode_line false (strip line)) as [m|e] eqn:Hm.
  2: { assert (Hb : reply_sourced lines (reply_bad (S (y_bad y)) (y_invalid y || contains "mailbox_result" (strip line)) y))
         by (apply Hbad; by intros ->). destruct (Nat.leb _ _); [by simplify_eq|by eapply IH]. }
  destruct (take_reply m (reply_bad 0 (y_invalid y) y)) as [z|e] eqn:Hz; [|done]. apply (IH z); [done| |done].
  unfold take_reply in Hz. destruct (String.eqb (wm_type m) MSG_READY).
  { destruct (_ =? _); [|done]. simplify_eq. by apply Hbad. }
  destruct (String.eqb_spec (wm_type m) MSG_MAILBOX_RESULT) as [Hr|_].
  - destruct (dgetd (wm_payload m) "stdout" VNone) as [| | | |o| |] eqn:Ho; try (simplify_eq; by right; left).
    destruct (dgetd (wm_payload m) "stderr" VNone) as [| | | |er| |] eqn:He; try (simplify_eq; by right; left).
    destruct (dgetd (wm_payload m) "exit_code" VNone) as [| |c| | | |] eqn:Hc; try (simplify_eq; by right; left).
    simplify_eq. right; right; right. split; [done|]. exists line. split; [apply Hl; by left|]. exists m.
    split_and!; [done|done|by apply dgetd_some|by apply dgetd_some].
  - destruct (String.eqb (wm_type m) MSG_ERROR); simplify_eq; [by right; right; left|by apply Hbad].
Qed.
(** A mailbox command over SSH succeeds only when a mailbox result was read
    whose fields are of the right kinds, with the code 0, or -1 when the process
    of the helper ended with 0; the output is that frame's. *)
Theorem mailbox_success_is_result stdout ssh_stderr returncode o e :
  _run_ssh_mailbox stdout ssh_stderr returncode = Ok (0, o, e) ->
  exists line m c, line ∈ splitlines stdout /\ decode_line false (strip line) = Ok m /\ wm_type m = MSG_MAILBOX_RESULT /\
    dget (wm_payload m) "stdout" = Some (VStr o) /\ dget (wm_payload m) "exit_code" = Some (VInt c) /\
    (c = 0 \/ c = -1 /\ returncode = 0).
Proof.
  unfold _run_ssh_mailbox. destruct (take_replies _ no_reply) as [y|er] eqn:Hy; [|done]. cbn [res_bind].
  assert (Hs : reply_sourced (splitlines stdout) y)
    by (apply (take_replies_sourced _ (splitlines stdout) no_reply); [done|by left|done]).
  destruct (y_invalid y) eqn:Hinv; cbn [andb].
  { destruct (Z.eqb_spec (y_code y) (-1)), (Z.eqb_spec (y_code y) 0); cbn [orb].
    1, 2, 3: rewrite andb_false_r; intros [=].
    rewrite (proj2 (Z.eqb_neq (y_code y) (-1))) by done. rewrite andb_false_r. cbn [andb].
    rewrite (proj2 (Z.eqb_neq (y_code y) (-1))) by done. intros [=]. done. }
  destruct Hs as [[Ht Hc]|[?|[Hc|(Ht & line & Hin & m & Hm & Hmr & He & Ho)]]]; [|congruence| |].
  - rewrite Ht, Hc. change (-1 =? -1) with true. cbn [negb andb]. destruct (Z.eqb_spec returncode 0); cbn; [done|].
    intros [=]. done.
  - rewrite Hc, andb_false_r. cbn. done.
  - rewrite Ht. cbn [negb andb]. intros Hr. exists line, m, (y_code y).
    destruct (Z.eqb_spec (y_code y) (-1)) as [Hm1|Hm1]; injection Hr as ? <-; split_and!; try done; [right|left]; done.
Qed.

(** ** A run, from the request to the result *)
Section exchange.
Context {W : Type} `{Host W}.
Notation frame_fits f := (str_len (frame_text f) <= MAX_LINE_LENGTH).
Lemma take_line_frame ec t d x : frame_of_kind t d -> frame_fits d ->
  take_line ec (frame_text d) x =
  do x' <- take_message ec {| wm_type := t; wm_payload := ddel d "type" |} (with_bad 0 x); Ok (x', true).
Proof.
  intros Hd Hf. pose proof Hd as [Hp _]. unfold take_line, frame_text.
  pose proof (strip_text float_repr " " (VDict d) "" Hp eq_refl) as Hs. rewrite string_append_nil in Hs. rewrite Hs.
  destruct (text_begins float_repr " " (VDict d) Hp) as (c & s & Hc & _).
  assert (He : String.eqb (spaced float_repr " " (VDict d)) "" = false) by (by rewrite Hc). rewrite He.
  pose proof (decode_text float_repr " " blank_sep false t d "" Hd Hf eq_refl) as Hdec.
  rewrite string_append_nil in Hdec. by rewrite Hdec.
Qed.
(** Frames that are not the end of anything. *)
Lemma take_quiet ec t d l x : frame_of_kind t d -> frame_fits d ->
  (forall y, take_message ec {| wm_type := t; wm_payload := ddel d "type" |} y = Ok y) ->
  take_arrivals ec (Raw (frame_text d) :: l) x = take_arrivals ec l (with_bad 0 x).
Proof. intros Hd Hf Hq. simpl. by rewrite (take_line_frame _ t), Hq. Qed.
Lemma frame_ready : frame_of_kind MSG_READY (make_ready WIRE_VERSION PACKAGE_VERSION) /\
  frame_fits (make_ready WIRE_VERSION PACKAGE_VERSION).
Proof. split; [by apply (response_frame (Ready _ _))|by vm_compute]. Qed.
Lemma frame_accepted : frame_of_kind MSG_ACCEPTED (make_accepted WIRE_VERSION) /\ frame_fits (make_accepted WIRE_VERSION).
Proof. split; [by apply (response_frame (Accepted _))|by vm_compute]. Qed.
Lemma frame_progress : frame_of_kind "progress" progress /\ frame_fits progress.
Proof. split; [by split_and!|by vm_compute]. Qed.
Lemma guarded_same f : frame_fits f -> guarded f = f.
Proof. intros Hf. unfold guarded. by rewrite (proj2 (Z.leb_le _ _) Hf). Qed.
(** What the SSH client makes of the text that the helper wrote. *)
Definition over_ssh (s : helper W) : res RunResult :=
  _run_ssh_wire (map Raw (byte_lines (join "" (map frame_line (out s))))) "" (Some 0).
Definition run_frames (session : string) (beats : nat) (code : Z) (o e : string) : list pydict :=
  make_ready WIRE_VERSION PACKAGE_VERSION :: make_accepted WIRE_VERSION :: replicate beats progress ++
  (if String.eqb session "" then [] else [make_session session]) ++ [make_result o e code].
Lemma over_ssh_run (s : helper W) session beats code o e : out s = run_frames session beats code o e ->
  frame_fits (make_session session) -> frame_fits (make_result o e code) ->
  over_ssh s = Ok {| rr_code := if code =? -1 then 0 else code; rr_out := o; rr_err := e;
                     rr_session := if String.eqb session "" then None else Some session |}.
Proof.
  intros Ho Hfs Hfr. unfold over_ssh. rewrite Ho.
  assert (Hlines : byte_lines (join "" (map frame_line (run_frames session beats code o e)))
    = map frame_text (run_frames session beats code o e)).
  { apply (byte_lines_frames float_repr " "); [done|]. unfold run_frames.
    do 2 (constructor; [done|]). apply Forall_app. split; [by apply Forall_replicate|].
    destruct (String.eqb session ""); repeat (constructor; [done|]); constructor. }
  rewrite Hlines. unfold _run_ssh_wire, run_frames. cbn [map].
  rewrite (take_quiet 1 MSG_READY); [|by apply frame_ready..|done].
  rewrite (take_quiet 1 MSG_ACCEPTED); [|by apply frame_accepted..|done].
  change (with_bad 0 (with_bad 0 no_frames)) with no_frames. rewrite !map_app.
  assert (Hbeats : forall n l, take_arrivals 1 (map Raw (map frame_text (replicate n progress)) ++ l) no_frames
    = take_arrivals 1 l no_frames).
  { induction n as [|n IH]; intros l; [done|]. cbn [replicate map app].
    rewrite (take_quiet 1 "progress"); [|by apply frame_progress..|done]. apply IH. }
  rewrite Hbeats.
  assert (Hres : forall ses, take_arrivals 1 (map Raw (map frame_text [make_result o e code]))
    {| x_session := ses; x_out := ""; x_err := ""; x_code := -1; x_terminal := false; x_bad := 0 |}
    = Ok {| x_session := ses; x_out := o; x_err := e; x_code := code; x_terminal := true; x_bad := 0 |}).
  { intros ses. cbn [map take_arrivals].
    rewrite (take_line_frame _ MSG_RESULT); [done|by apply (response_frame (Result _ _ _))|done]. }
  assert (Hend : take_arrivals 1 (map Raw (map frame_text (if String.eqb session "" then [] else [make_session session]))
      ++ map Raw (map frame_text [make_result o e code])) no_frames = Ok {| x_session := if String.eqb session "" then None
        else Some session; x_out := o; x_err := e; x_code := code; x_terminal := true; x_bad := 0 |}).
  { destruct (String.eqb session ""); [apply Hres|]. cbn [map app]. cbn [take_arrivals].
    rewrite (take_line_frame _ MSG_SESSION); [|by apply (response_frame (Session _))|done]. apply Hres. }
  rewrite Hend. cbn [res_bind]. unfold lost. cbn [x_terminal negb andb x_code].
  destruct (code =? -1) eqn:Hc; [|done]. unfold or_text. cbn. by destruct (String.eqb e "") eqn:He; [apply String.eqb_eq in He as ->|].
Qed.
(** A run under [backend] in [workdir], sent as the client sends it. *)
Context (rq : run_request) (w w1 w2 : W) (beats : nat) (session : string) (code : Z) (o e : string) (a : string).
Notation req := (make_request WIRE_VERSION rq).
Context (Hline : str_len (encode_line float_repr req) <= MAX_LINE_LENGTH).
Context (Hcaps : rq_capabilities rq = []) (Hdir : isdir (expanduser (rq_workdir rq)) w = (Ok true, w1)).
Context (Hchoose : choose (dgetd req "backend" (VStr "omp")) = Ok a).
Context (Hspawn : spawn a (spawn_payload req (expanduser (rq_workdir rq))) w1 = (beats, Ok (omp_result session code o e), w2)).
Context (Hses : frame_fits (make_session session)) (Hres : frame_fits (make_result o e code)).
Lemma run_request_fields : dget req "capabilities" = None /\ dstr req "workdir" = rq_workdir rq /\
  dgetd req "wire_version" (VInt 0) = VInt WIRE_VERSION /\ dstr req "command" = CMD_RUN.
Proof.
  unfold make_request, given, present, dstr, dgetd. rewrite Hcaps. split_and!; try done.
  repeat destruct (negb (String.eqb _ "")); reflexivity.
Qed.
Lemma send_omp_result (t : helper W) : send_result session [("returncode", VInt code); ("stdout", VStr o); ("stderr", VStr e)] t
  = (Ok tt, set_out (out t ++ map guarded ((if String.eqb session "" then [] else [make_session session]) ++ [make_result o e code])) t).
Proof.
  unfold send_result, send_session, py_or. simpl. destruct session as [|c1 s1], o as [|c2 s2], e as [|c3 s3]; simpl;
    rewrite ?st_bind_unfold; unfold _send, modify; simpl; rewrite <- ?app_assoc; done.
Qed.
Lemma run_main : exists s, main [Line (encode_line float_repr req)] (started w) = (Ok tt, s) /\
  out s = run_frames session beats code o e /\ world s = w2.
Proof.
  assert (Hfit : fits float_repr "" req).
  { unfold fits. unfold encode_line in Hline. rewrite str_len_app in Hline. change (str_len NL) with 1 in Hline.
    change (spaced float_repr "" (VDict req)) with (dumps float_repr (VDict req)). lia. }
  pose proof (proj1 (request_back float_repr "" compact_sep (Run WIRE_VERSION rq)) Hfit) as Hdec.
  assert (Hparse : parse_request (encode_line float_repr req) = Ok req).
  { unfold parse_request. rewrite (proj2 (Z.leb_le _ _) Hline). exact Hdec. }
  destruct run_request_fields as (Hcap & Hwd & Hver & Hcmd).
  set (s1 := set_out [make_ready WIRE_VERSION PACKAGE_VERSION] (started w)).
  assert (Hready : _send (make_ready WIRE_VERSION PACKAGE_VERSION) (started w) = (Ok tt, s1)).
  { unfold _send, modify, started. cbn [out]. rewrite guarded_same; [done|apply frame_ready]. }
  assert (Hserve : serve req s1 = _handle_run req s1) by (unfold serve; rewrite Hver, Hcmd; reflexivity).
  assert (Hrun := run_spawned req s1 (expanduser (rq_workdir rq)) w1 w2 beats
    (session, [("returncode", VInt code); ("stdout", VStr o); ("stderr", VStr e)]) a Hcap
    ltac:(by rewrite Hwd) Hdir Hchoose Hspawn).
  unfold main. rewrite st_bind_unfold, Hready. cbn [st_iter main_step]. rewrite st_bind_unfold.
  unfold main_step. rewrite Hparse, st_bind_unfold. cbn [modify]. change (set_waiting false s1) with s1. rewrite Hserve, Hrun.
  cbn [fst snd]. rewrite send_omp_result. eexists. split; [reflexivity|]. split; [|done]. cbn [out set_out].
  unfold run_frames. cbn [map]. rewrite !map_app, <- app_assoc. unfold s1. cbn [set_out out].
  rewrite (guarded_same (make_accepted _)) by apply frame_accepted.
  assert (Hb : map guarded (replicate beats progress) = replicate beats progress).
  { rewrite fmap_replicate. by rewrite (guarded_same progress) by apply frame_progress. }
  rewrite Hb. cbn [app map]. rewrite (guarded_same (make_result o e code)) by done.
  destruct (String.eqb session ""); cbn [app map]; rewrite ?(guarded_same (make_session session)) by done; done.
Qed.
End exchange.

(** ** Errors of the helper, locally *)
Section errors.
Context {W : Type} `{Host W}.
Notation frame_fits f := (str_len (frame_text f) <= MAX_LINE_LENGTH).
Notation printable s := (all_chars (between 32 126) s = true).
Lemma join_lines d ds : join "" (map frame_line (d :: ds)) = frame_text d +:+ NL +:+ join "" (map frame_line ds).
Proof.
  unfold frame_line. destruct ds; cbn [map join]; rewrite ?string_app_assoc, ?string_app_nil_l; [by rewrite !string_append_nil|done].
Qed.
Lemma splitlines_frames ds : Forall (fun d => printable (frame_text d)) ds ->
  splitlines (join "" (map frame_line ds)) = map frame_text ds.
Proof.
  intros Hds. unfold splitlines. set (n := String.length _). assert (Hn : (String.length (join "" (map frame_line ds)) <= n)%nat) by done.
  clearbody n. revert n Hn. induction Hds as [|d ds Hd _ IH]; intros n Hn; [by destruct n|].
  rewrite join_lines in *. rewrite split_printable by done. cbn [map]. f_equal. apply IH.
  rewrite !string_length_app in Hn. change (String.length NL) with 1%nat in Hn. lia.
Qed.
Lemma printable_error m : printable m -> printable (frame_text (make_error m)).
Proof.
  intros Hm. unfold frame_text, spaced, make_error. cbn [dumps_with map join fst snd]. unfold dump_str at 4.
  rewrite !all_chars_app. cbn [all_chars]. rewrite all_chars_app, printable_escapes by done. by vm_compute.
Qed.
Definition error_frames (message : string) : list pydict :=
  [make_ready WIRE_VERSION PACKAGE_VERSION; make_accepted WIRE_VERSION; make_error message].
(** A run that the helper refuses with an error frame, for a missing workdir
    or an unknown backend, is a success for the local transport: its result has
    the return code 0.  The SSH transport reports the same frames as a failure. *)
Theorem local_error_is_success message stderr : printable message -> frame_fits (make_error message) ->
  let text := join "" (map frame_line (error_frames message)) in
  _run_wire text stderr 0 = Ok {| rr_code := 0; rr_out := ""; rr_err := or_text message stderr; rr_session := None |} /\
  _run_ssh_wire (map Raw (byte_lines text)) stderr (Some 0)
    = Ok {| rr_code := 1; rr_out := ""; rr_err := message; rr_session := None |}.
Proof.
  intros Hm Hf text.
  assert (Herr : frame_of_kind MSG_ERROR (make_error message)) by (by apply (response_frame (Error _))).
  assert (Hp : Forall (fun d => printable (frame_text d)) (error_frames message))
    
    by (constructor; [by vm_compute|constructor; [by vm_compute|constructor; [by apply printable_error|constructor]]]).
  assert (Hl : splitlines text = map frame_text (error_frames message)) by (by apply splitlines_frames).
  assert (Hb : byte_lines text = map frame_text (error_frames message))
    by (apply (byte_lines_frames float_repr " "); [done|repeat constructor]).
  assert (Hsame : forall ec ls x, take_arrivals ec (map Raw ls) x = take_lines ec ls x).
  { intros ec. induction ls as [|l ls IH]; intros x; [done|]. simpl. destruct (take_line ec l x) as [[y []]|]; simpl; auto. }
  assert (Ht : forall ec, take_lines ec (map frame_text (error_frames message)) no_frames
    = Ok {| x_session := None; x_out := ""; x_err := message; x_code := ec; x_terminal := true; x_bad := 0 |}).
  { intros ec. rewrite <- Hsame. unfold error_frames. cbn [map].
    rewrite (take_quiet ec MSG_READY); [|by apply frame_ready..|done].
    rewrite (take_quiet ec MSG_ACCEPTED); [|by apply frame_accepted..|done]. cbn [take_arrivals].
    by rewrite (take_line_frame _ MSG_ERROR). }
  unfold _run_wire, _run_ssh_wire. rewrite Hl, Hb, Hsame, !Ht. split; reflexivity.
Qed.
End errors.

(** ** The second host (SSHTransport.execute) *)
Definition _SSH_ERROR_PATTERNS : list string :=
  ["Connection refused"; "Connection timed out"; "Operation timed out"; "Connection reset by peer"; "No route to host";
   "Network is unreachable"; "Name or service not known"; "Could not resolve hostname"; "Permission denied";
   "Host key verification failed"; "Connection closed by remote host"].
Definition _is_ssh_error (stderr : string) : bool := existsb (fun pattern => contains pattern stderr) _SSH_ERROR_PATTERNS.
(** Connections by alias: whether one is up, how it is made, and what comes back
    when a request is sent: lines, error text and exit code. *)
Class Links (L : Type) := {
  is_alive : string -> st L bool; create : string -> st L unit;
  link_run : string -> pydict -> L -> (list arrival * string * option Z) * L }.
Section fallback.
Context {L : Type} `{Links L}.
Definition _run_on_host (req : pydict) (alias : string) : st L RunResult :=
  fun l => let '((lines, err, ret), l') := link_run alias req l in (_run_ssh_wire lines err ret, l').
Definition ensure_master (alias : string) : st L unit :=
  up ← is_alive alias; if (up : bool) then mret tt else create alias.
Definition _execute_on_fallback (req : pydict) (fallback : string) : st L RunResult :=
  _ ← ensure_master fallback; _run_on_host req fallback.
Definition is_transport_error (e : pyexn) : bool :=
  match e with AppError c _ => String.eqb c "TransportError" | _ => false end.
Definition execute (req : pydict) (alias fallback : string) : st L RunResult := fun l =>
  match ensure_master alias l with
  | (Raise e, l') => if is_transport_error e && negb (String.eqb fallback "") then _execute_on_fallback req fallback l'
                     else (Raise e, l')
  | (Ok _, l') =>
    (result ← _run_on_host req alias;
     if (rr_code result =? 255) && negb (String.eqb fallback "") && _is_ssh_error (rr_err result)
     then _execute_on_fallback req fallback else mret result) l'
  end.
End fallback.
(** Links that are up, to a helper that answers every run with the same text;
    the hosts that ran a task are kept. *)
Record demo_links := { dl_lines : list arrival; dl_ran : list string }.
#[export] Instance demo_links_links : Links demo_links := {|
  is_alive := fun _ => mret true; create := fun _ => mret tt;
  link_run := fun alias _ l =>
    ((dl_lines l, "", Some 0), {| dl_lines := dl_lines l; dl_ran := dl_ran l ++ [alias] |}) |}.
Definition demo_frames (l : list pydict) : string := join "" (map (frame_line (W := machine)) l).
(** A task that fails on the first host with the exit code 255 and a complaint
    of its own that reads like one of ssh, such as a permission that is denied, is
    run a second time on the other host. *)
Theorem fallback_runs_again : exists lines,
  map Raw (byte_lines (demo_frames (run_frames "s" 0 255 "" "cat: /etc/shadow: Permission denied"))) = lines /\
  execute (run_of "omp") "h1" "h2" {| dl_lines := lines; dl_ran := [] |} =
  (Ok {| rr_code := 255; rr_out := ""; rr_err := "cat: /etc/shadow: Permission denied"; rr_session := Some "s" |},
   {| dl_lines := lines; dl_ran := ["h1"; "h2"] |}).
Proof. eexists. split; [reflexivity|]. vm_compute. reflexivity. Qed.

(** A character that [str.splitlines] takes for the end of a line, as a
    line separator that a model writes, divides a result frame for the local
    transport: the result is lost and the run a failure, while over SSH it comes
    back.  The reply of a mailbox command is divided over SSH, too. *)
Theorem splitlines_lose : let sep := String (ascii_of_N 226) (String (ascii_of_N 128) (String (ascii_of_N 168) "")) in
  let run := demo_frames (run_frames "s" 0 0 ("a" +:+ sep +:+ "b") "") in
  let mail := demo_frames [make_ready WIRE_VERSION PACKAGE_VERSION; make_mailbox_result ("a" +:+ sep +:+ "b") "" 0] in
  _run_wire run "" 0 = Ok {| rr_code := 1; rr_out := ""; rr_err := NO_TERMINAL_FRAME_MSG; rr_session := Some "s" |} /\
  _run_ssh_wire (map Raw (byte_lines run)) "" (Some 0)
    = Ok {| rr_code := 0; rr_out := "a" +:+ sep +:+ "b"; rr_err := ""; rr_session := Some "s" |} /\
  _run_ssh_mailbox mail "" 0 = Ok (1, "", "invalid mailbox_result response from remote helper").
Proof. split; [vm_compute; reflexivity|]. split; vm_compute; reflexivity. Qed.

(** ** Witnesses *)
Definition demo_run : string := demo_frames (run_frames "s" 2 0 "hi" "").
Definition demo_mail : string := demo_frames [make_ready WIRE_VERSION PACKAGE_VERSION; make_mailbox_result "done" "" 0].
Lemma ssh_success_is_result_witness : exists line m, line ∈ raw_lines (map Raw (byte_lines demo_run)) /\
  decode_line false (strip line) = Ok m /\ wm_type m = MSG_RESULT.
Proof.
  destruct (ssh_success_is_result (map Raw (byte_lines demo_run)) "" (Some 0)
    {| rr_code := 0; rr_out := "hi"; rr_err := ""; rr_session := Some "s" |}) as (line & m & Hl & Hm & Ht & _).
  - vm_compute. reflexivity.
  - reflexivity.
  - exists line, m. split; [exact Hl|]. split; [exact Hm|exact Ht].
Defined.
Lemma mailbox_success_is_result_witness : exists line m, line ∈ splitlines demo_mail /\
  decode_line false (strip line) = Ok m /\ wm_type m = MSG_MAILBOX_RESULT.
Proof.
  destruct (mailbox_success_is_result demo_mail "" 0 "done" "") as (line & m & c & Hl & Hm & Ht & _).
  - vm_compute. reflexivity.
  - exists line, m. split; [exact Hl|]. split; [exact Hm|exact Ht].
Defined.
Definition demo_rq (workdir : string) : run_request :=
  {| rq_task := "say hi"; rq_workdir := workdir; rq_backend := "omp"; rq_agent := ""; rq_model := ""; rq_skills := "";
     rq_session_id := ""; rq_skip_permissions := true; rq_timeout := 600; rq_session_key := ""; rq_request_id := "r1";
     rq_run_id := ""; rq_review_key := ""; rq_require_ack := false; rq_capabilities := [] |}.
(** The helper itself writes such frames when the workdir is missing. *)
Lemma local_error_is_success_witness :
  let s := (main [Line (encode_line float_repr (make_request WIRE_VERSION (demo_rq "nowhere")))] (started (machine_of MailboxStore.demo))).2 in
  out s = error_frames "workdir not found: nowhere" /\
  _run_wire (demo_frames (out s)) "" 0
    = Ok {| rr_code := 0; rr_out := ""; rr_err := "workdir not found: nowhere"; rr_session := None |}.
Proof.
  assert (Hs : out (main [Line (encode_line float_repr (make_request WIRE_VERSION (demo_rq "nowhere")))]
    (started (machine_of MailboxStore.demo))).2 = error_frames "workdir not found: nowhere") by (vm_compute; reflexivity).
  cbv zeta. rewrite Hs. split; [reflexivity|].
  apply (local_error_is_success (W := machine) "workdir not found: nowhere" ""); [vm_compute; reflexivity|vm_compute; discriminate].
Defined.
