(* ===== verification/Receiver.v ===== *)
(** * The receiving end of a stream
    (src/src/codeagent/transport/ssh.py: SSHStream; swarm/receiver.py)

    [ssh_stream] reads the frames of a helper, drops those it has seen, keeps the
    cursor and subscribes again when the connection is lost.  [receiver] writes
    what it gets into the inbox of its agent and calls the callbacks; in the other
    mode it watches the inbox itself. *)
From S2P Require Import Prelude MailboxProtocol MailboxStore Wire RemoteExec Exchange.
From Stdlib Require Import Floats.SpecFloat.

(** ** SSHStream *)
Definition _SEEN_IDS_MAX_SIZE : nat := 10000.
Record ssh_stream := {
  sh_session : string; sh_agent : string; sh_kind : string; sh_runtime : string; sh_timeout : Z; sh_request : string;
  sh_cursor : string; sh_last_event : Z; sh_closed : bool; sh_seen : list pyval; sh_sent : list pydict }.
Definition with_request (r : string) (s : ssh_stream) : ssh_stream :=
  {| sh_session := sh_session s; sh_agent := sh_agent s; sh_kind := sh_kind s; sh_runtime := sh_runtime s;
     sh_timeout := sh_timeout s; sh_request := r; sh_cursor := sh_cursor s; sh_last_event := sh_last_event s;
     sh_closed := sh_closed s; sh_seen := sh_seen s; sh_sent := sh_sent s |}.
Definition with_time (t : Z) (s : ssh_stream) : ssh_stream :=
  {| sh_session := sh_session s; sh_agent := sh_agent s; sh_kind := sh_kind s; sh_runtime := sh_runtime s;
     sh_timeout := sh_timeout s; sh_request := sh_request s; sh_cursor := sh_cursor s; sh_last_event := t;
     sh_closed := sh_closed s; sh_seen := sh_seen s; sh_sent := sh_sent s |}.
Definition adopt_cursor (c : string) (s : ssh_stream) : ssh_stream :=
  {| sh_session := sh_session s; sh_agent := sh_agent s; sh_kind := sh_kind s; sh_runtime := sh_runtime s;
     sh_timeout := sh_timeout s; sh_request := sh_request s; sh_cursor := if String.eqb c "" then sh_cursor s else c;
     sh_last_event := sh_last_event s; sh_closed := sh_closed s; sh_seen := sh_seen s; sh_sent := sh_sent s |}.
Definition with_seen (l : list pyval) (s : ssh_stream) : ssh_stream :=
  {| sh_session := sh_session s; sh_agent := sh_agent s; sh_kind := sh_kind s; sh_runtime := sh_runtime s;
     sh_timeout := sh_timeout s; sh_request := sh_request s; sh_cursor := sh_cursor s; sh_last_event := sh_last_event s;
     sh_closed := sh_closed s; sh_seen := l; sh_sent := sh_sent s |}.
Definition with_sent (d : pydict) (s : ssh_stream) : ssh_stream :=
  {| sh_session := sh_session s; sh_agent := sh_agent s; sh_kind := sh_kind s; sh_runtime := sh_runtime s;
     sh_timeout := sh_timeout s; sh_request := sh_request s; sh_cursor := sh_cursor s; sh_last_event := sh_last_event s;
     sh_closed := sh_closed s; sh_seen := sh_seen s; sh_sent := sh_sent s ++ [d] |}.
(** [open]: the fields of a stream that is opened. *)
Definition opened (session agent cursor : string) (timeout : Z) (kind runtime : string) : ssh_stream :=
  {| sh_session := session; sh_agent := agent; sh_kind := kind; sh_runtime := runtime; sh_timeout := timeout; sh_request := "";
     sh_cursor := cursor; sh_last_event := 0; sh_closed := false; sh_seen := []; sh_sent := [] |}.
(** A process that is started: the line it is ready with, if one comes in time,
    the identifier that is drawn and the time. *)
Record attempt := { at_ready : option string; at_uuid : string; at_time : Z }.
Definition _spawn_and_subscribe (a : attempt) : st ssh_stream unit :=
  _ ← modify (with_request (at_uuid a));
  match at_ready a with
  | None => raise (TransportError "SSHStream: no ready banner")
  | Some line =>
    match decode_line false line with
    | Raise _ => raise (TransportError "SSHStream: bad ready banner")
    | Ok m =>
      _ ← ensure (String.eqb (wm_type m) MSG_READY) (TransportError "SSHStream: expected ready");
      _ ← ensure (int_field m "wire_version" 0 =? WIRE_VERSION) version_mismatch;
      _ ← modify (fun s => with_sent (make_stream_request (sh_session s) (sh_cursor s) (sh_timeout s) (sh_request s) ""
                                        WIRE_VERSION (sh_kind s) (sh_runtime s) (sh_agent s)) s);
      modify (with_time (at_time a))
    end
  end.
(** [_reconnect]: whether one of the attempts succeeds; otherwise it goes on
    trying, each time after a longer pause. *)
Fixpoint _reconnect (attempts : list attempt) : st ssh_stream bool := fun s =>
  match attempts with
  | [] => (Ok false, s)
  | a :: attempts =>
    match _spawn_and_subscribe a s with
    | (Ok _, s') => (Ok true, s')
    | (Raise _, s') => _reconnect attempts s'
    end
  end.
Definition STREAM_RECONNECT_BASE : Z := 1.
Definition STREAM_RECONNECT_MAX : Z := 30.
(** The pause before the attempt [n], in seconds. *)
Fixpoint backoff (n : nat) : Z :=
  match n with O => STREAM_RECONNECT_BASE | S n => Z.min (backoff n * 2) STREAM_RECONNECT_MAX end.
(** [_prune_seen_ids] *)
Definition _prune_seen_ids (l : list pyval) : list pyval :=
  if Nat.leb (length l) _SEEN_IDS_MAX_SIZE then l else drop (length l / 2) l.

(** Equal as members of a Python set. *)
Definition float_of_int (z : Z) : spec_float := binary_normalize 53 1024 z 0 false.
Definition same_key (a b : pyval) : bool :=
  match a, b with
  | VStr x, VStr y => String.eqb x y
  | VFloat f, VFloat g => SFeqb f g
  | VFloat f, v | v, VFloat f => match number_of v with Some z => SFeqb f (float_of_int z) | None => false end
  | _, _ => match number_of a, number_of b with Some x, Some y => x =? y | _, _ => false end
  end.
Definition in_set (v : pyval) (l : list pyval) : bool := existsb (same_key v) l.
Definition hashable (v : pyval) : bool := match v with VList _ | VDict _ => false | _ => true end.
Definition unhashable : pyexn := TypeError "unhashable type".
Definition payload_of (m : WireMessage) : pydict := match dget (wm_payload m) "payload" with Some (VDict p) => p | _ => [] end.
Definition event_key (p : pydict) : pyval := dgetd p "msg_id" (VStr "").
(** A [stream_event] frame. *)
Definition take_event (m : WireMessage) (events : list pydict) : st ssh_stream (list pydict) :=
  let payload := payload_of m in
  let msg_id := event_key payload in
  _ ← ensure (negb (truthy msg_id) || hashable msg_id) unhashable;
  known ← gets (fun s => truthy msg_id && in_set msg_id (sh_seen s));
  if (known : bool) then mret events else
  _ ← modify (fun s => if truthy msg_id then with_seen (_prune_seen_ids (sh_seen s ++ [msg_id])) s else s);
  _ ← modify (adopt_cursor (dstr (wm_payload m) "cursor"));
  mret (events ++ [payload]).
(** What [poll] waits for: a line; no line in time, or none ever when the process
    has ended, with the attempts to start another; the end of its time. *)
Inductive happening :=
  | Arrived (line : string) (at_ : Z) | NoLine (at_ : Z) (exited : bool) (attempts : list attempt) | Expired.
(** [None]: it is still at it. *)
Fixpoint poll_loop (hs : list happening) (events : list pydict) : st ssh_stream (option (list pydict)) :=
  match hs with
  | [] => mret None
  | Expired :: _ => mret (Some events)
  | NoLine t exited attempts :: hs =>
    stale ← gets (fun s => 3 * STREAM_HEARTBEAT_INTERVAL <? t - sh_last_event s);
    if exited || (stale : bool)
    then up ← _reconnect attempts; if (up : bool) then poll_loop hs events else mret None
    else mret (Some events)
  | Arrived line t :: hs =>
    match decode_line true line with
    | Raise _ => poll_loop hs events
    | Ok m =>
      _ ← modify (with_time t);
      if String.eqb (wm_type m) MSG_STREAM_EVENT
      then events' ← take_event m events; poll_loop hs events'
      else poll_loop hs events
    end
  end.
Definition poll_stream_events (hs : list happening) : st ssh_stream (option (list pydict)) :=
  closed ← gets sh_closed; if (closed : bool) then mret (Some []) else poll_loop hs [].

(** ** SwarmReceiver *)
(** A callback with its filters; [cb_returns] is false when it raises. *)
Record callback := { cb_channels : list string; cb_kinds : list string; cb_returns : pydict -> bool }.
(** [rv_store] is the directory of the session in the local store; [rv_fired] the
    calls that were made. *)
Record receiver := {
  rv_session : string; rv_agent : string; rv_callbacks : list callback; rv_seen : list pyval;
  rv_stat : list (string * (Z * Z)); rv_store : session; rv_fired : list (nat * pydict) }.
Definition set_seen (l : list pyval) (r : receiver) : receiver :=
  {| rv_session := rv_session r; rv_agent := rv_agent r; rv_callbacks := rv_callbacks r; rv_seen := l;
     rv_stat := rv_stat r; rv_store := rv_store r; rv_fired := rv_fired r |}.
Definition set_stat (l : list (string * (Z * Z))) (r : receiver) : receiver :=
  {| rv_session := rv_session r; rv_agent := rv_agent r; rv_callbacks := rv_callbacks r; rv_seen := rv_seen r;
     rv_stat := l; rv_store := rv_store r; rv_fired := rv_fired r |}.
Definition set_store (s : session) (r : receiver) : receiver :=
  {| rv_session := rv_session r; rv_agent := rv_agent r; rv_callbacks := rv_callbacks r; rv_seen := rv_seen r;
     rv_stat := rv_stat r; rv_store := s; rv_fired := rv_fired r |}.
Definition fired (i : nat) (msg : pydict) (r : receiver) : receiver :=
  {| rv_session := rv_session r; rv_agent := rv_agent r; rv_callbacks := rv_callbacks r; rv_seen := rv_seen r;
     rv_stat := rv_stat r; rv_store := rv_store r; rv_fired := rv_fired r ++ [(i, msg)] |}.
Definition subscribe (c : callback) : st receiver unit := modify (fun r =>
  {| rv_session := rv_session r; rv_agent := rv_agent r; rv_callbacks := rv_callbacks r ++ [c]; rv_seen := rv_seen r;
     rv_stat := rv_stat r; rv_store := rv_store r; rv_fired := rv_fired r |}).

Definition selects (c : callback) (msg : pydict) : bool :=
  (bool_decide (cb_channels c = []) || existsb (eq_str (dgetd msg "channel_id" (VStr ""))) (cb_channels c))
  && (bool_decide (cb_kinds c = []) || existsb (eq_str (dgetd msg "kind" (VStr ""))) (cb_kinds c)).
Fixpoint fire_from (i : nat) (cs : list callback) (matched : bool) (msg : pydict) : st receiver bool :=
  match cs with
  | [] => mret matched
  | c :: cs =>
    if negb (selects c msg) then fire_from (S i) cs matched msg else
    _ ← modify (fired i msg);
    if cb_returns c msg then fire_from (S i) cs true msg else mret false
  end.
Definition _fire_callbacks (msg : pydict) : st receiver bool := cs ← gets rv_callbacks; fire_from 0 cs false msg.

Section receiver.
Context (py_str : pyval -> string) (file_size : file -> Z).
Definition id_text (v : pyval) : string := match v with VStr s => s | v => py_str v end.
(** [agent_subdir]: the names must be valid. *)
Definition check_dir (r : receiver) : res unit :=
  do _ <- validate_agent_id (rv_agent r); validate_agent_id (rv_session r).
Definition own_agent (r : receiver) : agent := default empty_agent (agents (rv_store r) !! rv_agent r).
Definition _is_msg_on_disk (v : pyval) (r : receiver) : bool :=
  let a := own_agent r in
  bool_decide (is_Some (inbox a !! id_text v) \/ is_Some (processing a !! id_text v) \/ is_Some (archive a !! id_text v)).
Definition wire_id_char (c : ascii) : bool := is_alnum c || char_is 95 c || char_is 45 c.
Definition _RE_MSG_ID (s : string) : bool := match_dollar (fun t => negb (String.eqb t "") && all_chars wire_id_char t) s.
Definition OPTIONAL_KEYS : list string := ["reply_to"; "run_id"; "request_id"; "trace_id"; "causation_id"; "attachments"].
Definition as_message (session_id agent_id : string) (event : pydict) : pydict :=
  dupdate [("session_id", VStr session_id); ("from", dgetd event "from" (VStr "")); ("to", VStr agent_id);
           ("subject", dgetd event "subject" (VStr "")); ("body", dgetd event "body" (VStr ""));
           ("kind", dgetd event "kind" (VStr "TASK")); ("msg_id", dgetd event "msg_id" (VStr ""));
           ("created_at", dgetd event "created_at" (VStr ""))]
    (List.concat (map (fun k => match dget event k with Some v => [(k, v)] | None => [] end) OPTIONAL_KEYS)).
Definition make_inbox (r : receiver) : receiver :=
  set_store (set_agents (<[rv_agent r := own_agent r]> (agents (rv_store r))) (set_present (rv_store r))) r.
Definition put_file (stem : string) (f : file) (r : receiver) : receiver :=
  set_store (set_agents (<[rv_agent r := set_inbox (<[stem := f]> (inbox (own_agent r))) (own_agent r)]> (agents (rv_store r)))
               (rv_store r)) r.
Definition _write_to_inbox (event : pydict) (now : Z) : st receiver unit :=
  match dgetd event "msg_id" (VStr "") with
  | VStr id =>
    if negb (_RE_MSG_ID id) then mret tt else
    r ← gets (fun r => r);
    _ ← lift (check_dir r);
    _ ← modify make_inbox;
    if bool_decide (is_Some (inbox (own_agent r) !! id)) then mret tt else
    m ← lift (Message.from_dict (as_message (rv_session r) (rv_agent r) event));
    modify (put_file id {| content := Some (VDict (Message.to_dict m)); mtime := now |})
  | _ => raise (TypeError "expected string or bytes-like object")
  end.
Definition _handle_stream_event (event : pydict) (now : Z) : st receiver unit :=
  let msg_id := event_key event in
  if negb (truthy msg_id) then mret tt else
  _ ← ensure (hashable msg_id) unhashable;
  known ← gets (fun r => in_set msg_id (rv_seen r));
  if (known : bool) then mret tt else
  _ ← modify (fun r => set_seen (rv_seen r ++ [msg_id]) r);
  r ← gets (fun r => r);
  _ ← lift (check_dir r);
  if _is_msg_on_disk msg_id r then _ ← _fire_callbacks event; mret tt else
  _ ← _write_to_inbox event now;
  _ ← _fire_callbacks event; mret tt.
(** [_stream_loop] over what the polls give: an exception ends the thread. *)
Definition stream_loop (events : list (pydict * Z)) : st receiver unit :=
  st_iter (fun e => _handle_stream_event (fst e) (snd e)) events.

(** *** Watching the inbox *)
Definition scannable (x : string * file) : bool := visible (fst x) && negb (String.prefix "." (fst x)).
Definition inbox_files (r : receiver) : list (string * file) :=
  List.filter scannable (map_to_list (inbox (own_agent r))).
Definition stat_of (f : file) : Z * Z := (mtime f, file_size f).
Definition _build_initial_stat_cache : st receiver unit :=
  r ← gets (fun r => r);
  _ ← lift (check_dir r);
  modify (set_stat (foldl (fun d x => dset d (fst x +:+ ".json") (stat_of (snd x))) (rv_stat r)
    (List.filter (fun x => negb (String.prefix "." (fst x))) (map_to_list (inbox (own_agent r)))))).
Fixpoint scan_files (files : list (string * file)) (new_msgs : list pydict) : st receiver (list pydict) :=
  match files with
  | [] => mret new_msgs
  | (stem, f) :: files =>
    r ← gets (fun r => r);
    if bool_decide (dget (rv_stat r) (stem +:+ ".json") = Some (stat_of f)) then scan_files files new_msgs else
    _ ← modify (set_stat (dset (rv_stat r) (stem +:+ ".json") (stat_of f)));
    match content f with
    | None => scan_files files new_msgs
    | Some (VDict msg) =>
      let msg_id := dgetd msg "msg_id" (VStr stem) in
      _ ← ensure (hashable msg_id) unhashable;
      if in_set msg_id (rv_seen r) then scan_files files new_msgs else
      _ ← modify (fun r => set_seen (rv_seen r ++ [msg_id]) r);
      scan_files files (new_msgs ++ [msg])
    | Some _ => raise (AttributeError "no attribute get")
    end
  end.
Definition _scan_inbox : st receiver (list pydict) :=
  r ← gets (fun r => r); _ ← lift (check_dir r); scan_files (inbox_files r) [].
(** One round of [_watch_loop]; an exception is logged. *)
Definition watch_round : st receiver unit := fun r =>
  match (msgs ← _scan_inbox; st_iter (fun m => _ ← _fire_callbacks m; mret tt) msgs) r with
  | (_, r') => (Ok tt, r')
  end.
End receiver.

(** ** A message on its way through a stream *)

(** What is left of a message that was streamed to [aid]. *)
Definition streamed (sid aid : string) (m : Message) : Message :=
  {| session_id := VStr sid; from_id := from_id m; to_id := VStr aid; subject := subject m; body := body m; kind := kind m;
     msg_id := msg_id m; created_at := created_at m; reply_to := reply_to m; run_id := run_id m; request_id := request_id m;
     command_id := VStr ""; trace_id := trace_id m; causation_id := VStr ""; attachments := attachments m;
     protocol_version := VInt 1; require_ack := false; receipt_type := VStr "" |}.
Lemma stamped_get m c k : k <> "_cursor" -> dget (stamped (Message.to_dict m) c) k = dget (Message.to_dict m) k.
Proof. intros Hk. unfold stamped. by rewrite dget_dset_ne by (intros He; by apply Hk). Qed.
Lemma payload_fields m c : typed m -> let p := stream_payload (stamped (Message.to_dict m) c) in
  p = [("msg_id", msg_id m); ("from", from_id m); ("to", to_id m); ("kind", kind m); ("subject", subject m); ("body", body m);
       ("created_at", created_at m); ("reply_to", reply_to m); ("run_id", run_id m); ("request_id", request_id m)]
      ++ (if bool_decide (attachments m = []) then []
          else [("attachments", VList (map (fun a => VDict (AttachmentRef.to_dict a)) (attachments m)))])
      ++ (if truthy (trace_id m) then [("trace_id", trace_id m)] else []).
Proof.
  unfold typed. rewrite !Forall_cons. intros (H1 & H2 & H3 & H4 & H5 & _). cbv zeta.
  destruct (to_dict_mandatory m) as (E1 & E2 & E3 & E4 & E5 & E6 & E7 & E8 & _).
  destruct (to_dict_optional m) as (_ & F2 & F3 & F4 & _ & F6 & _ & F8).
  assert (Hm : forall k v, k <> "_cursor" -> dget (Message.to_dict m) k = Some v ->
    dgetd (stamped (Message.to_dict m) c) k (VStr "") = v).
  { intros k v Hk Hv. unfold dgetd. by rewrite stamped_get, Hv. }
  assert (Ho : forall k v, k <> "_cursor" -> is_str v = true -> dget (Message.to_dict m) k = opt_of v ->
    dgetd (stamped (Message.to_dict m) c) k (VStr "") = v).
  { intros k v Hk Hv Hd. unfold dgetd. rewrite stamped_get by done. by apply dgetd_opt. }
  unfold stream_payload, STREAM_FIELDS. cbn [map].
  rewrite (Hm "msg_id" _ ltac:(done) E7), (Hm "from" _ ltac:(done) E2), (Hm "to" _ ltac:(done) E3),
    (Hm "kind" _ ltac:(done) E6), (Hm "subject" _ ltac:(done) E4), (Hm "body" _ ltac:(done) E5),
    (Hm "created_at" _ ltac:(done) E8), (Ho "reply_to" _ ltac:(done) H1 F2), (Ho "run_id" _ ltac:(done) H2 F3),
    (Ho "request_id" _ ltac:(done) H3 F4).
  do 2 f_equal; unfold given_value, dgetd; rewrite stamped_get by done.
  - rewrite F8. unfold opt_of. by destruct (attachments m).
  - rewrite F6. unfold opt_of. destruct (truthy (trace_id m)) eqn:Ht; cbn [truthy]; by rewrite ?Ht.
Qed.
(** Of a message that goes through a stream of the helper to a receiver, the
    texts, the identifier, the times, the request, the trace and the attachments
    arrive; the command, the cause and the protocol version do not, and neither
    does the wish for an acknowledgement: the copy that the agent reads asks for no
    receipt, whatever the sender asked, and names the receiver as the one it was
    written to, whoever that was. *)
Theorem streamed_message sid aid m c : typed m ->
  Message.from_dict (as_message sid aid (stream_payload (stamped (Message.to_dict m) c))) = Ok (streamed sid aid m).
Proof.
  intros Hm. rewrite (payload_fields m c Hm). unfold typed in Hm. rewrite !Forall_cons in Hm.
  destruct Hm as (_ & _ & _ & _ & H5 & _). unfold as_message, streamed.
  assert (Ht : truthy (trace_id m) = false -> trace_id m = VStr "").
  { destruct (trace_id m) as [| | | |[|]| |]; done. }
  case_bool_decide as Ha; destruct (truthy (trace_id m)) eqn:Htr; cbn; rewrite ?Ha, ?Ht by done; try done;
    rewrite refs_of_to_dict; done.
Qed.

(** ** Events are given out once *)
Definition keys (l : list pydict) : list pyval := List.filter truthy (map event_key l).
Definition string_ids (l : list pydict) : list string :=
  List.concat (map (fun p => match event_key p with VStr s => if String.eqb s "" then [] else [s] | _ => [] end) l).
(** [l] is new to a stream that has seen [seen]. *)
Fixpoint fresh (seen : list pyval) (l : list pydict) : Prop :=
  match l with
  | [] => True
  | p :: l => (truthy (event_key p) = true -> in_set (event_key p) seen = false) /\
              fresh (if truthy (event_key p) then seen ++ [event_key p] else seen) l
  end.
Lemma fresh_app seen l p : fresh seen l -> (truthy (event_key p) = true -> in_set (event_key p) (seen ++ keys l) = false) ->
  fresh seen (l ++ [p]).
Proof.
  revert seen. induction l as [|q l IH]; intros seen; unfold keys; simpl; [rewrite app_nil_r; by split|].
  intros [Hq Hl] Hp. split; [done|]. apply IH; [done|]. unfold keys. destruct (truthy (event_key q)); [|done].
  by rewrite <- app_assoc.
Qed.
Lemma in_set_app v l k : in_set v (l ++ k) = in_set v l || in_set v k.
Proof. unfold in_set. by rewrite existsb_app. Qed.
Lemma fresh_ids seen l : fresh seen l -> NoDup (string_ids l) /\ forall i, i ∈ string_ids l -> in_set (VStr i) seen = false.
Proof.
  revert seen. induction l as [|p l IH]; intros seen; simpl; [intros _; split; [constructor|by intros i ?%elem_of_nil]|].
  intros [Hp Hl]. destruct (IH _ Hl) as [Hnd Hs]. unfold string_ids. simpl. fold (string_ids l).
  assert (Hshrink : forall i, i ∈ string_ids l -> in_set (VStr i) seen = false).
  { intros i Hi. specialize (Hs i Hi). destruct (truthy _); [|done]. rewrite in_set_app in Hs. by apply orb_false_iff in Hs as [? _]. }
  destruct (event_key p) as [| | | |s| |] eqn:He; try by split.
  destruct (String.eqb_spec s "") as [->|Hne]; [by split|]. apply String.eqb_neq in Hne.
  cbn [truthy] in Hs, Hp. rewrite Hne in Hs, Hp. cbn [negb] in Hs, Hp. simpl app. split.
  - constructor; [|done]. intros Hi. specialize (Hs s Hi). rewrite in_set_app in Hs. apply orb_false_iff in Hs as [_ Hs].
    unfold in_set in Hs. simpl in Hs. by rewrite String.eqb_refl in Hs.
  - intros i [->|Hi]%elem_of_cons; [by apply Hp|by apply Hshrink].
Qed.
(** Enough of the identifiers are kept. *)
Definition room (n : nat) (s : ssh_stream) : Prop := (length (sh_seen s) + n <= _SEEN_IDS_MAX_SIZE)%nat.
Lemma reconnect_seen l s : sh_seen (_reconnect l s).2 = sh_seen s.
Proof.
  revert s. induction l as [|a l IH]; intros s; [done|]. cbn [_reconnect].
  assert (Hs : sh_seen (_spawn_and_subscribe a s).2 = sh_seen s).
  { unfold _spawn_and_subscribe. rewrite st_bind_unfold. cbn [modify]. destruct (at_ready a) as [line|]; [|done].
    destruct (decode_line false line) as [m|e]; [|done]. rewrite st_bind_unfold. destruct (String.eqb _ _); [|done]. cbn [ensure].
    rewrite st_bind_unfold. by destruct (_ =? _). }
  destruct (_spawn_and_subscribe a s) as [[u|e] s'] eqn:He; simpl in Hs; [done|]. by rewrite IH.
Qed.
Lemma take_event_fresh seen m events s events' s' n : (0 < n)%nat -> room n s ->
  sh_seen s = seen ++ keys events -> fresh seen events -> take_event m events s = (Ok events', s') ->
  sh_seen s' = seen ++ keys events' /\ fresh seen events' /\ room (n - 1) s' /\
  (events' = events \/ events' = events ++ [payload_of m]) /\
  (truthy (event_key (payload_of m)) = true -> in_set (event_key (payload_of m)) (sh_seen s) = true \/ events' = events ++ [payload_of m]).
Proof.
  intros Hn Hroom Hs Hf Ht. unfold take_event in Ht. set (p := payload_of m) in *. rewrite st_bind_unfold in Ht.
  destruct (negb (truthy (event_key p)) || hashable (event_key p)); [|done]. cbn [ensure] in Ht.
  rewrite st_bind_unfold in Ht. cbn [gets] in Ht.
  destruct (truthy (event_key p) && in_set (event_key p) (sh_seen s)) eqn:Hk.
  { injection Ht as <- <-. apply andb_true_iff in Hk as [_ Hk]. unfold room in *. split_and!; [done|done|lia|by left|by left]. }
  rewrite !st_bind_unfold in Ht. cbn in Ht. injection Ht as <- <-.
  assert (Hkeys : keys (events ++ [p]) = keys events ++ (if truthy (event_key p) then [event_key p] else [])).
  { unfold keys. rewrite map_app, List.filter_app. simpl. by destruct (truthy _). }
  assert (Hpr : truthy (event_key p) = true -> _prune_seen_ids (sh_seen s ++ [event_key p]) = sh_seen s ++ [event_key p]).
  { intros _. unfold _prune_seen_ids. rewrite (proj2 (Nat.leb_le _ _)); [done|]. rewrite length_app. unfold room in Hroom. simpl. lia. }
  assert (Hnew : truthy (event_key p) = true -> in_set (event_key p) (seen ++ keys events) = false).
  { intros Htr. rewrite Htr in Hk. simpl in Hk. by rewrite <- Hs. }
  assert (Hfr : fresh seen (events ++ [p])) by (by apply fresh_app).
  rewrite Hkeys. destruct (truthy (event_key p)) eqn:Htr; simpl.
  - split_and!; [by rewrite Hpr, Hs, app_assoc|done| |by right|by right].
    unfold room in *. simpl. rewrite Hpr, length_app by done. simpl. lia.
  - rewrite app_nil_r. split_and!; [done|done| |by right|done]. unfold room in *. simpl. lia.
Qed.
Lemma poll_loop_fresh seen hs : forall events s evs s', room (length hs) s -> sh_seen s = seen ++ keys events -> fresh seen events ->
  poll_loop hs events s = (Ok (Some evs), s') -> sh_seen s' = seen ++ keys evs /\ fresh seen evs.
Proof.
  induction hs as [|h hs IH]; intros events s evs s' Hr Hs Hf Hp; [done|]. cbn [length] in Hr.
  assert (Hr' : room (length hs) s) by (unfold room in *; lia). destruct h as [line t|t exited attempts|]; cbn [poll_loop] in Hp.
  - destruct (decode_line true line) as [m|e]; [|by eapply IH]. rewrite st_bind_unfold in Hp. cbn [modify] in Hp.
    destruct (String.eqb _ _); [|by eapply IH in Hp].
    rewrite st_bind_unfold in Hp. destruct (take_event m events (with_time t s)) as [[events'|e] s1] eqn:Ht; [|done].
    apply (take_event_fresh seen m events _ events' s1 (S (length hs))) in Ht as (Hs1 & Hf1 & Hr1 & _); [|lia|done..].
    rewrite Nat.sub_1_r in Hr1. by apply (IH events' s1).
  - rewrite st_bind_unfold in Hp. cbn [gets] in Hp. destruct (exited || _); [|by injection Hp as <- <-].
    rewrite st_bind_unfold in Hp. pose proof (reconnect_seen attempts s) as Hrec.
    destruct (_reconnect attempts s) as [[[]|e] s1]; simpl in Hp, Hrec; [|done|done].
    apply (IH events s1); [unfold room in *; by rewrite Hrec|by rewrite Hrec|done|done].
  - by injection Hp as <- <-.
Qed.
Lemma in_keys i l : in_set (VStr i) (keys l) = true -> i <> "" -> i ∈ string_ids l.
Proof.
  intros Hi Hne. unfold in_set in Hi. apply existsb_exists in Hi as (v & Hv & He).
  apply list_elem_of_In, elem_of_List_filter in Hv as [(p & -> & Hp)%list_elem_of_fmap _].
  assert (Hk : event_key p = VStr i).
  { unfold same_key in He. destruct (event_key p); try done. by apply String.eqb_eq in He as ->. }
  apply list_elem_of_In, in_concat. exists [i]. split; [|by left]. apply list_elem_of_In, list_elem_of_fmap. exists p.
  split; [|done]. rewrite Hk. apply String.eqb_neq in Hne. by rewrite Hne.
Qed.
Lemma string_ids_app l k i : i ∈ string_ids l -> i ∈ string_ids (l ++ k).
Proof. unfold string_ids. rewrite map_app, concat_app. intros. apply elem_of_app. by left. Qed.
(** The events of the frames in [lines]. *)
Definition carries (line i : string) : Prop := exists m, decode_line true line = Ok m /\ wm_type m = MSG_STREAM_EVENT /\
  event_key (payload_of m) = VStr i /\ i <> "".
Lemma poll_loop_takes seen lines : forall events s evs s', room (S (length lines)) s -> sh_seen s = seen ++ keys events ->
  fresh seen events -> poll_loop (map (fun x => Arrived x.1 x.2) lines ++ [Expired]) events s = (Ok (Some evs), s') ->
  (forall i, i ∈ string_ids events -> i ∈ string_ids evs) /\
  (forall x i, x ∈ lines -> carries x.1 i -> i ∈ string_ids evs \/ in_set (VStr i) seen = true).
Proof.
  induction lines as [|[line t] lines IH]; intros events s evs s' Hr Hs Hf Hp; simpl in Hp.
  { injection Hp as <- _. split; [done|]. by intros x i ?%elem_of_nil. }
  assert (Hr' : room (S (length lines)) s) by (unfold room in *; simpl in Hr; lia).
  assert (Hskip : (forall i, ~ carries line i) -> forall s1, sh_seen s1 = sh_seen s ->
    poll_loop (map (fun x => Arrived x.1 x.2) lines ++ [Expired]) events s1 = (Ok (Some evs), s') ->
    (forall i, i ∈ string_ids events -> i ∈ string_ids evs) /\
    (forall x i, x ∈ (line, t) :: lines -> carries x.1 i -> i ∈ string_ids evs \/ in_set (VStr i) seen = true)).
  { intros Hno s1 Hs1 Hp1. destruct (IH events s1 evs s') as [H1 H2]; [unfold room in *; by rewrite Hs1|by rewrite Hs1|done|done|].
    split; [done|]. intros x i [->|Hx]%elem_of_cons Hc; [by destruct (Hno i)|by apply (H2 x)]. }
  destruct (decode_line true line) as [m|e] eqn:Hd; [|apply (Hskip ltac:(intros i (m & Hm & _); congruence) s eq_refl Hp)].
  rewrite st_bind_unfold in Hp. cbn [modify] in Hp. destruct (String.eqb_spec (wm_type m) MSG_STREAM_EVENT) as [Hty|Hty].
  2: { apply (Hskip ltac:(intros i (m' & Hm & ? & _); congruence) (with_time t s) eq_refl Hp). }
  rewrite st_bind_unfold in Hp. destruct (take_event m events (with_time t s)) as [[events'|e] s1] eqn:Ht; [|done].
  apply (take_event_fresh seen m events _ events' s1 (S (S (length lines)))) in Ht as (Hs1 & Hf1 & Hr1 & Hgrow & Hin); [|lia|done..].
  destruct (IH events' s1 evs s') as [H1 H2]; [done..|]. split.
  - intros i Hi. apply H1. destruct Hgrow as [->| ->]; [done|by apply string_ids_app].
  - intros x i [->|Hx]%elem_of_cons Hc; [|by apply (H2 x)]. destruct Hc as (m' & Hm' & _ & Hk & Hne). simpl in Hm'.
    rewrite Hd in Hm'. injection Hm' as <-. assert (Htr : truthy (event_key (payload_of m)) = true).
    { rewrite Hk. simpl. apply String.eqb_neq in Hne. by rewrite Hne. }
    destruct (Hin Htr) as [Hold| ->].
    + simpl in Hold. rewrite Hs, Hk, in_set_app in Hold. apply orb_true_iff in Hold as [?|Hold]; [by right|left].
      apply H1. apply in_keys in Hold; [|done]. destruct Hgrow as [->| ->]; [done|by apply string_ids_app].
    + left. apply H1. apply in_keys; [|done]. unfold keys, in_set. rewrite map_app, List.filter_app, existsb_app. simpl.
      rewrite Htr, Hk. simpl. by rewrite String.eqb_refl, orb_true_r.
Qed.
(** C26: A poll gives out events with pairwise different identifiers, none of which
    the stream has given out before, although frames come again after a lost
    connection; and every event whose frame arrives is given out by this poll or
    was by an earlier one.  This holds as long as ten thousand identifiers are not
    exceeded. *)
Theorem poll_gives_once hs s evs s' : room (length hs) s -> poll_loop hs [] s = (Ok (Some evs), s') ->
  NoDup (string_ids evs) /\ (forall i, i ∈ string_ids evs -> in_set (VStr i) (sh_seen s) = false) /\
  sh_seen s' = sh_seen s ++ keys evs /\
  forall lines, hs = map (fun x => Arrived x.1 x.2) lines ++ [Expired] ->
    forall x i, x ∈ lines -> carries x.1 i -> i ∈ string_ids evs \/ in_set (VStr i) (sh_seen s) = true.
Proof.
  intros Hr Hp. assert (H0 : sh_seen s = sh_seen s ++ keys []) by (unfold keys; simpl; by rewrite app_nil_r).
  destruct (poll_loop_fresh (sh_seen s) hs [] s evs s') as [Hs Hf]; [done..|].
  destruct (fresh_ids _ _ Hf) as [Hnd Hn]. split_and!; [done..|]. intros lines -> x i Hx Hc.
  rewrite length_app, length_map, Nat.add_comm in Hr.
  by destruct (poll_loop_takes (sh_seen s) lines [] s evs s' Hr H0) as [_ Ht]; [done..|apply (Ht x)].
Qed.

(** ** What the receiver does to its inbox, and its calls *)
Section behaviour.
Context (py_str : pyval -> string) (file_size : file -> Z).
Notation handle := (_handle_stream_event py_str).
(** Files are only added, to the inbox of the agent, under names of plain
    characters; what is there stays as it is. *)
Record grew (r0 r : receiver) : Prop := {
  gr_session : rv_session r = rv_session r0; gr_agent : rv_agent r = rv_agent r0;
  gr_callbacks : rv_callbacks r = rv_callbacks r0;
  gr_others : forall b, b <> rv_agent r0 -> agents (rv_store r) !! b = agents (rv_store r0) !! b;
  gr_rest : processing (own_agent r) = processing (own_agent r0) /\ archive (own_agent r) = archive (own_agent r0) /\
            corrupt (own_agent r) = corrupt (own_agent r0) /\ claims (own_agent r) = claims (own_agent r0);
  gr_meta : meta (rv_store r) = meta (rv_store r0) /\ history (rv_store r) = history (rv_store r0);
  gr_kept : forall stem f, inbox (own_agent r0) !! stem = Some f -> inbox (own_agent r) !! stem = Some f;
  gr_new : forall stem f, inbox (own_agent r) !! stem = Some f -> inbox (own_agent r0) !! stem = Some f \/
    _RE_MSG_ID stem = true /\ exists m, content f = Some (VDict (Message.to_dict m)) /\ to_id m = VStr (rv_agent r0) }.
Lemma grew_refl r : grew r r.
Proof. split; try done; auto. Qed.
(** A change of the store that [own_agent] and the rest do not show. *)
Lemma grew_store r0 r r' : grew r0 r -> rv_session r' = rv_session r -> rv_agent r' = rv_agent r ->
  rv_callbacks r' = rv_callbacks r -> (forall b, b <> rv_agent r0 -> agents (rv_store r') !! b = agents (rv_store r) !! b) ->
  own_agent r' = own_agent r -> meta (rv_store r') = meta (rv_store r) -> history (rv_store r') = history (rv_store r) ->
  grew r0 r'.
Proof.
  intros [] Hs Ha Hc Ho Hown Hm Hh. split; rewrite ?Hs, ?Ha, ?Hc, ?Hown, ?Hm, ?Hh; try done.
  intros b Hb. rewrite Ho by done. auto.
Qed.
Lemma grew_make r0 r : grew r0 r -> grew r0 (make_inbox r).
Proof.
  intros Hg. pose proof (gr_agent _ _ Hg) as Ha. apply (grew_store r0 r); try done.
  - intros b Hb. unfold make_inbox. simpl. rewrite lookup_insert_ne; [done|congruence].
  - unfold own_agent, make_inbox. simpl. by rewrite lookup_insert_eq.
Qed.
Lemma grew_put r0 r id m now : grew r0 r -> _RE_MSG_ID id = true -> to_id m = VStr (rv_agent r0) ->
  inbox (own_agent r) !! id = None -> grew r0 (put_file id {| content := Some (VDict (Message.to_dict m)); mtime := now |} r).
Proof.
  intros [] Hid Hm Hnone. assert (Hown : own_agent (put_file id {| content := Some (VDict (Message.to_dict m)); mtime := now |} r)
    = set_inbox (<[id := {| content := Some (VDict (Message.to_dict m)); mtime := now |}]> (inbox (own_agent r))) (own_agent r)).
  { unfold own_agent at 1, put_file. simpl. by rewrite lookup_insert_eq. }
  split; try done.
  - intros b Hb. unfold put_file. simpl. rewrite lookup_insert_ne; [auto|congruence].
  - rewrite Hown. simpl. done.
  - intros stem f Hf. rewrite Hown. simpl. apply gr_kept0 in Hf. rewrite lookup_insert_ne; [done|congruence].
  - intros stem f. rewrite Hown. simpl. rewrite lookup_insert_Some. intros [[<- <-]|[_ Hf]]; [|auto].
    right. split; [done|]. by exists m.
Qed.
Lemma dget_keep {A} (d e : list (string * A)) k : k ∉ e.*1 -> dget (dupdate d e) k = dget d k.
Proof.
  unfold dupdate. revert d. induction e as [|[k' v] e IH]; intros d Hk; [done|]. simpl.
  apply not_elem_of_cons in Hk as [Hne Hk]. rewrite IH by done. by rewrite dget_dset_ne by (intros ->; by apply Hne).
Qed.
Lemma as_message_to sid aid e m : Message.from_dict (as_message sid aid e) = Ok m -> to_id m = VStr aid.
Proof.
  assert (Hto : dget (as_message sid aid e) "to" = Some (VStr aid)).
  { unfold as_message. rewrite dget_keep; [done|]. intros ([k v] & Hk & Hin)%list_elem_of_fmap. simpl in Hk. subst k.
    apply list_elem_of_In, in_concat in Hin as (l & Hl & Hin). apply list_elem_of_In, list_elem_of_fmap in Hl as (k & -> & Hk).
    apply list_elem_of_In in Hin. destruct (dget e k) as [w|]; [|by apply elem_of_nil in Hin].
    apply list_elem_of_singleton in Hin. simplify_eq. by apply (bool_decide_eq_true_2 _) in Hk. }
  unfold Message.from_dict, AttachmentRef.item. rewrite Hto.
  repeat (match goal with |- context [dget (as_message sid aid e) ?k] => destruct (dget (as_message sid aid e) k) end; cbn [res_bind]; [|done]).
  destruct (Message.attachments_of _); [|done]. cbn [res_bind]. by intros [= <-].
Qed.
Lemma write_grew r0 event now : preserves (grew r0) (_write_to_inbox event now).
Proof.
  intros r Hg. unfold _write_to_inbox. destruct (dgetd event "msg_id" (VStr "")) as [| | | |id| |]; try done.
  destruct (_RE_MSG_ID id) eqn:Hid; [|done]. cbn [negb]. rewrite st_bind_unfold. cbn [gets].
  rewrite st_bind_unfold. unfold lift at 1. destruct (check_dir r) as [u|]; [|done]. rewrite st_bind_unfold. cbn [modify].
  pose proof (grew_make _ _ Hg) as Hmk. case_bool_decide as Hin; [done|]. rewrite st_bind_unfold. unfold lift.
  destruct (Message.from_dict _) as [m|e] eqn:Hm; [|done]. cbn [modify snd].
  apply as_message_to in Hm. rewrite (gr_agent _ _ Hg) in Hm. apply grew_put; [done..|].
  assert (Hown : own_agent (make_inbox r) = own_agent r) by (unfold own_agent at 1, make_inbox; simpl; by rewrite lookup_insert_eq).
  rewrite Hown. destruct (inbox (own_agent r) !! id); [by destruct Hin|done].
Qed.
Lemma fire_grew r0 i cs b msg : preserves (grew r0) (fire_from i cs b msg).
Proof.
  revert i b. induction cs as [|c cs IH]; intros i b; cbn [fire_from]; [apply preserves_ret|].
  destruct (negb _); [apply IH|]. apply preserves_bind; [|intros _; destruct (cb_returns c msg); [apply IH|apply preserves_ret]].
  apply preserves_modify. intros r Hg. by apply (grew_store r0 r).
Qed.
Lemma handle_grew r0 event now : preserves (grew r0) (handle event now).
Proof.
  assert (Hfire : preserves (grew r0) (_ ← _fire_callbacks event; mret tt)).
  { unfold _fire_callbacks. preserving. apply fire_grew. }
  unfold _handle_stream_event. preserving; try apply write_grew; try (unfold _fire_callbacks; preserving; apply fire_grew).
  by eapply grew_store.
Qed.
(** Whatever events a receiver is sent, also when one of them ends its thread,
    it only adds files to the inbox of its own agent: no file in any directory is
    changed or removed, nothing else of the session is touched, and each new file
    is a message to that agent, under a name without separators. *)
Theorem receiver_only_adds events r : grew r (stream_loop py_str events r).2.
Proof.
  assert (Hp : preserves (grew r) (stream_loop py_str events)).
  { apply preserves_iter. intros x _. apply handle_grew. }
  apply Hp, grew_refl.
Qed.

(** The calls, by callback and identifier. *)
Definition call_ids (l : list (nat * pydict)) : list (nat * string) :=
  List.concat (map (fun x => match event_key (snd x) with VStr s => [(fst x, s)] | _ => [] end) l).
Lemma call_ids_app l k : call_ids (l ++ k) = call_ids l ++ call_ids k.
Proof. unfold call_ids. by rewrite map_app, concat_app. Qed.
Lemma fire_from_calls cs msg i b r : exists js,
  rv_fired (fire_from i cs b msg r).2 = rv_fired r ++ map (fun j => (j, msg)) js /\
  NoDup js /\ Forall (fun j => i <= j)%nat js /\ rv_seen (fire_from i cs b msg r).2 = rv_seen r.
Proof.
  revert i b r. induction cs as [|c cs IH]; intros i b r; cbn [fire_from].
  { exists []. rewrite app_nil_r. by split_and!; [|constructor|constructor|]. }
  destruct (negb (selects c msg)).
  { destruct (IH (S i) b r) as (js & H1 & H2 & H3 & H4). exists js. split_and!; [done|done| |done].
    eapply Forall_impl; [exact H3|]. simpl. lia. }
  rewrite st_bind_unfold. cbn [modify]. destruct (cb_returns c msg).
  - destruct (IH (S i) true (fired i msg r)) as (js & H1 & H2 & H3 & H4). exists (i :: js). split_and!.
    + rewrite H1. simpl. by rewrite <- app_assoc.
    + constructor; [|done]. intros Hi. rewrite Forall_forall in H3. specialize (H3 i Hi). lia.
    + constructor; [lia|]. eapply Forall_impl; [exact H3|]. simpl. lia.
    + by rewrite H4.
  - exists [i]. split_and!; [done|apply NoDup_singleton|by constructor|done].
Qed.
Definition once (r : receiver) : Prop := NoDup (call_ids (rv_fired r)) /\
  forall j s, (j, s) ∈ call_ids (rv_fired r) -> in_set (VStr s) (rv_seen r) = true.
Lemma map_calls js msg s : event_key msg = VStr s -> call_ids (map (fun j => (j, msg)) js) = map (fun j => (j, s)) js.
Proof. intros He. unfold call_ids. induction js as [|j js IH]; [done|]. simpl in *. rewrite He. simpl. by rewrite IH. Qed.
Lemma map_no_calls js msg : (forall s, event_key msg <> VStr s) -> call_ids (map (fun j => (j, msg)) js) = [].
Proof.
  intros He. unfold call_ids. induction js as [|j js IH]; [done|]. simpl in *. rewrite IH.
  destruct (event_key msg) eqn:Hk; try done. by destruct (He s).
Qed.
(** What is neither the seen identifiers nor the calls. *)
Definition same_calls (r r' : receiver) : Prop := rv_fired r' = rv_fired r /\ rv_seen r' = rv_seen r.
Lemma write_calls event now r : same_calls r (_write_to_inbox event now r).2.
Proof.
  unfold _write_to_inbox. destruct (dgetd event "msg_id" (VStr "")) as [| | | |id| |]; try done.
  destruct (negb _); [done|]. rewrite st_bind_unfold. cbn [gets]. rewrite st_bind_unfold. unfold lift at 1.
  destruct (check_dir r); [|done]. rewrite st_bind_unfold. cbn [modify]. destruct (bool_decide _); [done|].
  rewrite st_bind_unfold. unfold lift. by destruct (Message.from_dict _).
Qed.
Lemma once_fire event r : once r -> (forall s, event_key event = VStr s -> in_set (VStr s) (rv_seen r) = true /\
    forall j, (j, s) ∉ call_ids (rv_fired r)) ->
  once ((_ ← _fire_callbacks event; mret tt) r).2.
Proof.
  intros [Hnd Hseen] Hnew. rewrite st_bind_unfold. unfold _fire_callbacks. rewrite st_bind_unfold. cbn [gets].
  destruct (fire_from_calls (rv_callbacks r) event 0 false r) as (js & Hf & Hjs & _ & Hs).
  assert (Hs2 : forall (x : res bool * receiver), (match x with (r, s') => match r with Ok _ => (mret tt : st receiver unit) s' | Raise e => (Raise e, s') end end).2 = x.2)
    by (by intros [[] ?]).
  rewrite Hs2. unfold once. rewrite Hf, Hs, call_ids_app.
  destruct (event_key event) as [| | | |i| |] eqn:He; try (rewrite map_no_calls by (intros s; congruence); rewrite app_nil_r; by split).
  rewrite (map_calls js event i He). destruct (Hnew i eq_refl) as [Hin Hno]. split.
  - apply NoDup_app. split_and!; [done| |].
    + intros [j s] Hj (k & [= -> ->] & _)%list_elem_of_fmap. by apply (Hno k).
    + assert (Hinj : Inj (=) (=) (fun j : nat => (j, i))) by (by intros x y [= ->]).
      by apply (NoDup_fmap_2 (fun j : nat => (j, i))).
  - intros j s [Hj|(k & [= -> ->] & _)%list_elem_of_fmap]%elem_of_app; [by apply (Hseen j)|done].
Qed.
Lemma handle_once event now : preserves once (handle event now).
Proof.
  intros r Ho. unfold _handle_stream_event. destruct (negb (truthy _)); [done|]. rewrite st_bind_unfold.
  destruct (hashable (event_key event)); [|done]. cbn [ensure]. rewrite st_bind_unfold. cbn [gets].
  destruct (in_set (event_key event) (rv_seen r)) eqn:Hk; [done|]. rewrite st_bind_unfold. cbn [modify].
  set (r1 := set_seen _ r). rewrite st_bind_unfold. cbn [gets]. rewrite st_bind_unfold. unfold lift at 1.
  assert (Ho1 : once r1).
  { destruct Ho as [Hnd Hs]. split; [done|]. intros j s Hj. unfold r1. simpl. rewrite in_set_app. by rewrite (Hs j s Hj). }
  assert (Hnew : forall s, event_key event = VStr s -> in_set (VStr s) (rv_seen r1) = true /\
    forall j, (j, s) ∉ call_ids (rv_fired r1)).
  { intros s He. rewrite He in Hk. split.
    - unfold r1. simpl. rewrite in_set_app, He. unfold in_set. simpl. by rewrite String.eqb_refl, orb_true_r.
    - intros j Hj. destruct Ho as [_ Hs]. by rewrite (Hs j s Hj) in Hk. }
  destruct (check_dir r1); [|done]. destruct (_is_msg_on_disk _ _ _); [by apply once_fire|].
  rewrite st_bind_unfold. pose proof (write_calls event now r1) as [Hwf Hws].
  destruct (_write_to_inbox event now r1) as [[u'|e] r2]; simpl in Hwf, Hws.
  - apply once_fire; unfold once in *; by rewrite Hwf, Hws.
  - simpl. unfold once in *. by rewrite Hwf, Hws.
Qed.
(** C27: However often an event is delivered, by a stream that is resumed or by
    several, a receiver calls each of its callbacks at most once for it. *)
Theorem callbacks_once events r : rv_fired r = [] -> NoDup (call_ids (rv_fired (stream_loop py_str events r).2)).
Proof.
  intros Hr. assert (Hp : preserves once (stream_loop py_str events)) by (apply preserves_iter; intros x _; apply handle_once).
  apply Hp. unfold once. rewrite Hr. split; [constructor|]. by intros j s ?%elem_of_nil.
Qed.

(** A dot in the name of the sender gets into the identifier. *)
Lemma wire_id_dot s : has_char "."%char s = true -> _RE_MSG_ID s = false.
Proof.
  intros Hd. destruct (_RE_MSG_ID s) eqn:He; [|done]. exfalso. apply match_dollar_spec in He.
  assert (Hc : forall t, all_chars wire_id_char t = true -> has_char "."%char t = false).
  { intros t Ht. apply has_char_false. eapply all_chars_impl; [|exact Ht]. intros c. by destruct c as [[] [] [] [] [] [] [] []]. }
  destruct He as [[_ Ht]%andb_true_iff|(t & -> & [_ Ht]%andb_true_iff)].
  - by rewrite (Hc s Ht) in Hd.
  - rewrite has_char_app, (Hc t Ht) in Hd. done.
Qed.
(** The calls for an event change nothing but the record of the calls. *)
Lemma fire_result cs msg i b r : is_ok (fire_from i cs b msg r).1 = true /\ rv_store (fire_from i cs b msg r).2 = rv_store r.
Proof.
  revert i b r. induction cs as [|c cs IH]; intros i b r; cbn [fire_from]; [done|]. destruct (negb (selects c msg)); [apply IH|].
  rewrite st_bind_unfold. cbn [modify]. destruct (cb_returns c msg); [|done]. by destruct (IH (S i) true (fired i msg r)).
Qed.
Lemma fire_dotted event r : let x := (_ ← _fire_callbacks event; mret tt) r in
  x.1 = Ok tt /\ rv_store x.2 = rv_store r /\
  (forall c, rv_callbacks r = [c] -> selects c event = true -> rv_fired x.2 = rv_fired r ++ [(0%nat, event)]).
Proof.
  cbv zeta. rewrite st_bind_unfold. unfold _fire_callbacks. rewrite st_bind_unfold. cbn [gets].
  destruct (fire_result (rv_callbacks r) event 0 false r) as [Hok Hst].
  assert (Hone : forall c, rv_callbacks r = [c] -> selects c event = true ->
    rv_fired (fire_from 0 (rv_callbacks r) false event r).2 = rv_fired r ++ [(0%nat, event)]).
  { intros c -> Hc. cbn [fire_from]. rewrite Hc. cbn [negb]. rewrite st_bind_unfold. cbn [modify]. by destruct (cb_returns c event). }
  by destruct (fire_from 0 (rv_callbacks r) false event r) as [[b|e] r'].
Qed.
(** A message that the store accepted from a sender with a dot in its name is
    never written into the inbox of a receiver: its identifier, which begins with
    that name, is valid for the store and refused here.  The callbacks are called
    all the same, for a message that the agent cannot read. *)
Theorem dotted_sender_dropped event sender suffix when now r :
  event_key event = VStr (gen_msg_id sender suffix when) -> has_char "."%char sender = true ->
  in_set (VStr (gen_msg_id sender suffix when)) (rv_seen r) = false -> is_ok (check_dir r) = true ->
  (handle event now r).1 = Ok tt /\ rv_store (handle event now r).2 = rv_store r /\
  (forall c, rv_callbacks r = [c] -> selects c event = true ->
     rv_fired (handle event now r).2 = rv_fired r ++ [(0%nat, event)]).
Proof.
  intros He Hd Hs Hc.
  assert (Hre : _RE_MSG_ID (gen_msg_id sender suffix when) = false).
  { apply wire_id_dot. unfold gen_msg_id. by rewrite has_char_app, Hd. }
  assert (Hne : String.eqb (gen_msg_id sender suffix when) "" = false) by (unfold gen_msg_id; by destruct sender).
  unfold _handle_stream_event. rewrite He. cbn [truthy]. rewrite Hne. cbn [negb]. rewrite st_bind_unfold. cbn [hashable ensure].
  rewrite st_bind_unfold. cbn [gets]. rewrite Hs, st_bind_unfold. cbn [modify]. set (r1 := set_seen _ r).
  rewrite st_bind_unfold. cbn [gets]. rewrite st_bind_unfold. unfold lift.
  assert (Hc1 : is_ok (check_dir r1) = true) by exact Hc. destruct (check_dir r1) as [u|]; [|done].
  assert (Hwrite : _write_to_inbox event now r1 = (Ok tt, r1)).
  { unfold _write_to_inbox. unfold event_key in He. by rewrite He, Hre. }
  destruct (_is_msg_on_disk _ _ _); [exact (fire_dotted event r1)|]. rewrite st_bind_unfold, Hwrite. exact (fire_dotted event r1).
Qed.
End behaviour.

(** ** Concrete receivers *)
Definition demo_receiver (s : session) (cs : list callback) : receiver := {|
  rv_session := "s1"; rv_agent := "w1"; rv_callbacks := cs; rv_seen := []; rv_stat := []; rv_store := s; rv_fired := [] |}.
Definition listener : callback := {| cb_channels := []; cb_kinds := []; cb_returns := fun _ => true |}.
Definition event_line (id cursor : string) : string :=
  encode_line (fun _ => "0.0") (make_stream_event "q1" "s1" cursor [("msg_id", VStr id); ("from", VStr "mgr")]).
Definition demo_lines : list (string * Z) := [(event_line "a" "1", 5); (event_line "b" "2", 6); (event_line "a" "1", 7)].
Definition demo_stream : ssh_stream := opened "s1" "w1" "0" 60 "mailbox" "".
Lemma poll_gives_once_witness : exists evs s',
  poll_loop (map (fun x => Arrived x.1 x.2) demo_lines ++ [Expired]) [] demo_stream = (Ok (Some evs), s') /\
  length evs = 2%nat /\ NoDup (string_ids evs).
Proof.
  destruct (poll_loop (map (fun x => Arrived x.1 x.2) demo_lines ++ [Expired]) [] demo_stream) as [[[evs|]|e] s'] eqn:Hp;
    [|exfalso; vm_compute in Hp; discriminate..].
  exists evs, s'. split; [done|]. split; [vm_compute in Hp; injection Hp; intros <- <-; reflexivity|].
  destruct (poll_gives_once (map (fun x => Arrived x.1 x.2) demo_lines ++ [Expired]) demo_stream evs s') as [Hnd _].
  - unfold room. apply Nat.leb_le. vm_compute. reflexivity.
  - exact Hp.
  - exact Hnd.
Defined.
Definition streamed_demo : Message := message_of "s1" (MailboxStore.demo_draft "*") [] "m1" 1700000005000.
Lemma streamed_message_witness :
  Message.from_dict (as_message "s1" "w1" (stream_payload (stamped (Message.to_dict streamed_demo) (1700000005000, 3))))
    = Ok (streamed "s1" "w1" streamed_demo) /\ to_id streamed_demo = VStr "*".
Proof. split; [|reflexivity]. apply (streamed_message "s1" "w1" streamed_demo). repeat constructor. Defined.
Definition demo_event (id : string) : pydict := [("msg_id", VStr id); ("from", VStr "mgr"); ("kind", VStr "TASK")].
Lemma callbacks_once_witness : let r := demo_receiver MailboxStore.demo [listener; listener] in
  let r' := (stream_loop (fun _ => "?") [(demo_event "a", 1); (demo_event "b", 2); (demo_event "a", 3)] r).2 in
  NoDup (call_ids (rv_fired r')) /\ length (rv_fired r') = 4%nat.
Proof. cbv zeta. split; [|vm_compute; reflexivity]. apply callbacks_once. reflexivity. Defined.
Lemma dotted_sender_dropped_witness :
  let event := demo_event (gen_msg_id "build.bot" "ab12" 1700000005000) in
  let r := demo_receiver MailboxStore.demo [listener] in
  rv_store (_handle_stream_event (fun _ => "?") event 5 r).2 = MailboxStore.demo /\
  rv_fired (_handle_stream_event (fun _ => "?") event 5 r).2 = [(0%nat, event)].
Proof.
  cbv zeta. destruct (dotted_sender_dropped (fun _ => "?") (demo_event (gen_msg_id "build.bot" "ab12" 1700000005000))
    "build.bot" "ab12" 1700000005000 5 (demo_receiver MailboxStore.demo [listener])) as (_ & Hs & Hf);
    [reflexivity|reflexivity|reflexivity|reflexivity|]. split; [exact Hs|]. apply (Hf listener); reflexivity.
Defined.
(** A file that holds a list, next to a message. *)
Definition watched : session := set_agents (<["w1" := set_inbox
  (<["a1" := {| content := Some (VDict (demo_event "a1")); mtime := 1 |}]>
    (<["a2" := {| content := Some (VList []); mtime := 1 |}]> ∅)) empty_agent]> (agents MailboxStore.demo)) MailboxStore.demo.
(** The message is marked as seen in the round that the list ends, and no
    callback is ever called for it. *)
Theorem watch_loses : let r := demo_receiver watched [listener] in
  let round := watch_round (fun _ => 10) in
  in_set (VStr "a1") (rv_seen (round r).2) = true /\ rv_fired (round r).2 = [] /\
  rv_fired (round (round r).2).2 = [] /\ (round (round (round r).2).2).2 = (round (round r).2).2.
Proof. vm_compute. done. Qed.
