(* ===== verification/Routing.v ===== *)
(** * Routing: hosts, topics and targets
    (src/src/codeagent/domain/__init__.py; config/repo_map.py, routing/resolver.py,
    transport/router.py)

    [load_repo_map] checks the map of the hosts and the topics; [resolve_target]
    says where a request runs; [router_get] chooses the transport to that host;
    [from_args] the model of an execution. *)
From S2P Require Import Prelude.

(** ** Domain *)
Definition LOCAL_HOST_MARKER : string := "__local__".
(** The names of a host come from JSON as they are. *)
Record HostSpec := {
  h_name : string; h_ssh_alias : string; h_hostnames : list pyval; h_description : pyval; h_shell_prefix : string;
  h_transport : string; h_fallback : string }.
Record RepoEntry := { re_host : string; re_path : string; re_note : pyval }.
Record TopicSpec := { to_name : string; to_repos : list RepoEntry; to_description : pyval }.
Record RepoMap := { midocs_root : string; hosts : list (string * HostSpec); topics : list (string * TopicSpec); relay_zsh : string }.
Record Target := { tg_host : HostSpec; tg_repo : RepoEntry; tg_topic : option TopicSpec; tg_index : Z; is_local : bool }.
Definition target_workdir (t : Target) : string := re_path (tg_repo t).
Definition target_alias (t : Target) : string := h_ssh_alias (tg_host t).
Record RunRequest := {
  rq_task : string; rq_workdir : string; rq_backend : option string; rq_agent : option string; rq_model : option string; rq_skills : option string;
  rq_skip_permissions : bool; rq_raw : bool;
  rq_session_key : option string; rq_new_session : bool; rq_no_auto_resume : bool; rq_topic : option string;
  rq_repo_index : Z; rq_host : option string; rq_timeout : Z; rq_resume : option string; rq_request_id : string;
  rq_run_id : string; rq_review_key : string; rq_require_ack : bool; rq_capabilities : list string }.
(** [TopicSpec.repo] *)
Definition topic_repo (t : TopicSpec) (index : Z) : res RepoEntry :=
  guard (0 <=? index) && (index <? Z.of_nat (length (to_repos t))) orelse IndexError "index out of range";
  match to_repos t !! Z.to_nat index with Some r => Ok r | None => Raise (IndexError "index out of range") end.
(** [RepoMap.topic] *)
Definition map_topic (m : RepoMap) (name : string) : res TopicSpec :=
  match dget (topics m) name with Some t => Ok t | None => Raise (KeyError name) end.
(** [x or ""] for an optional string *)
Definition or_empty (x : option string) : string := default "" x.
Definition first_of (a b : string) : string := if String.eqb a "" then b else a.

Section here.
(** The name of this machine, as [socket.gethostname] gives it. *)
Context (gethostname : string).
Definition current_hostname : string := before "."%char gethostname.
Definition names_here (actual : string) (candidate : pyval) : res bool :=
  match candidate with
  | VStr s => let c := lower s in
              Ok (negb (String.eqb c "") && (String.eqb c actual || String.eqb (before "."%char c) (before "."%char actual)))
  | _ => Raise (AttributeError "no attribute lower")
  end.
Fixpoint any_here (actual : string) (l : list pyval) : res bool :=
  match l with
  | [] => Ok false
  | x :: l => do b <- names_here actual x; if b : bool then Ok true else any_here actual l
  end.
Definition resolve_is_local (h : HostSpec) : res bool := any_here (lower current_hostname) (h_hostnames h).

(** ** routing/resolver.py *)
Definition _LOCAL_HOST : HostSpec := {|
  h_name := LOCAL_HOST_MARKER; h_ssh_alias := LOCAL_HOST_MARKER; h_hostnames := [VStr "localhost"];
  h_description := VStr "local fallback"; h_shell_prefix := ""; h_transport := "local"; h_fallback := "" |}.
(** A host that is not in the map. *)
Definition ad_hoc (name description : string) : HostSpec := {|
  h_name := name; h_ssh_alias := name; h_hostnames := [VStr name]; h_description := VStr description; h_shell_prefix := "";
  h_transport := "ssh"; h_fallback := "" |}.
Definition _resolve_by_host (req : RunRequest) (m : RepoMap) : res Target :=
  let name := or_empty (rq_host req) in
  let h := match dget (hosts m) name with Some h => h | None => ad_hoc name "ad-hoc host" end in
  do here <- resolve_is_local h;
  let workdir := first_of (rq_workdir req) "." in
  Ok {| tg_host := h; tg_repo := {| re_host := h_name h; re_path := workdir; re_note := VStr "" |}; tg_topic := None;
        tg_index := 0; is_local := here |}.
Definition _resolve_by_topic (req : RunRequest) (m : RepoMap) : res Target :=
  do topic <- map_topic m (or_empty (rq_topic req));
  do repo <- topic_repo topic (rq_repo_index req);
  let h := match dget (hosts m) (re_host repo) with Some h => h | None => ad_hoc (re_host repo) "unmapped topic host" end in
  do here <- resolve_is_local h;
  Ok {| tg_host := h; tg_repo := repo; tg_topic := Some topic; tg_index := rq_repo_index req; is_local := here |}.
Definition _resolve_local_fallback (req : RunRequest) : Target :=
  let workdir := first_of (rq_workdir req) "." in
  {| tg_host := _LOCAL_HOST; tg_repo := {| re_host := h_name _LOCAL_HOST; re_path := workdir; re_note := VStr "" |};
     tg_topic := None; tg_index := 0; is_local := true |}.
Definition resolve_target (req : RunRequest) (m : RepoMap) : res Target :=
  if negb (String.eqb (or_empty (rq_host req)) "") then _resolve_by_host req m
  else if negb (String.eqb (or_empty (rq_topic req)) "") then _resolve_by_topic req m
  else Ok (_resolve_local_fallback req).

(** ** transport/router.py *)
Inductive Transport := LocalTransport | RelayTransport (zsh : string) | SSHTransport.
Definition router_get (h : HostSpec) (m : option RepoMap) : res Transport :=
  do here <- resolve_is_local h;
  if here : bool then Ok LocalTransport
  else if String.eqb (h_transport h) "relay-login"
       then let zsh := match m with Some m => relay_zsh m | None => "" end in
            guard negb (String.eqb zsh "") orelse ValueError "uses relay-login but relay_zsh not configured";
            Ok (RelayTransport zsh)
       else Ok SSHTransport.
Definition capabilities (h : HostSpec) : list string :=
  if String.eqb (h_transport h) "relay-login" then ["mailbox"] else ["mailbox"; "stream"; "artifact"].
Definition supports_mailbox (h : HostSpec) : bool := bool_decide ("mailbox" ∈ capabilities h).
Definition supports_stream (h : HostSpec) : bool := bool_decide ("stream" ∈ capabilities h).
End here.

(** ** config/repo_map.py *)
Definition VALID_TRANSPORTS : list string := ["ssh"; "relay-login"].
Definition not_an_object {A} : res A := Raise (AttributeError "no attribute get").
Definition text_of (v : pyval) : res string :=
  match v with VStr s => Ok s | _ => Raise (TypeError "expected str, bytes or os.PathLike object") end.
Definition stripped (v : pyval) : res string :=
  match v with VStr s => Ok (strip s) | _ => Raise (AttributeError "no attribute strip") end.
(** The characters of a string, as its iteration gives them. *)
Definition starts_cont (s : string) : bool := match s with String d _ => is_cont d | "" => false end.
Fixpoint characters (s : string) : list string :=
  match s with
  | "" => []
  | String c s' => let l := characters s' in
                   if starts_cont s' then match l with g :: gs => String c g :: gs | [] => [String c ""] end
                   else String c "" :: l
  end.
(** [tuple(v or ())] *)
Definition as_tuple (v : pyval) : res (list pyval) :=
  if negb (truthy v) then Ok [] else
  match v with
  | VList l => Ok l
  | VDict d => Ok (map (fun x => VStr (fst x)) d)
  | VStr s => Ok (map VStr (characters s))
  | _ => Raise (TypeError "object is not iterable")
  end.
Definition hashed (v : pyval) : bool := match v with VList _ | VDict _ => false | _ => true end.
Definition valid_transport (v : pyval) : res string :=
  guard hashed v orelse TypeError "unhashable type";
  match v with
  | VStr s => guard bool_decide (s ∈ VALID_TRANSPORTS) orelse ValueError "transport invalid"; Ok s
  | _ => Raise (ValueError "transport invalid")
  end.
Definition valid_alias (v : pyval) : res string :=
  match v with
  | VStr s => guard negb (blank s) orelse ValueError "ssh_alias must be a non-empty string"; Ok s
  | _ => Raise (ValueError "ssh_alias must be a non-empty string")
  end.
Definition valid_fallback (v : pyval) (alias transport : string) : res string :=
  match v with
  | VNone | VStr "" => Ok ""
  | VStr s =>
    guard negb (blank s) orelse ValueError "fallback_ssh_alias must be a non-empty string";
    let fallback := strip s in
    guard negb (String.eqb fallback alias) orelse ValueError "fallback_ssh_alias must differ from ssh_alias";
    guard String.eqb transport "ssh" orelse ValueError "does not support fallback_ssh_alias";
    Ok fallback
  | _ => Raise (ValueError "fallback_ssh_alias must be a non-empty string")
  end.
Definition host_of (name : string) (cfg : pyval) : res HostSpec :=
  match cfg with
  | VDict cfg =>
    do transport <- valid_transport (dgetd cfg "transport" (VStr "ssh"));
    do alias <- valid_alias (dgetd cfg "ssh_alias" (VStr ""));
    do fallback <- valid_fallback (dgetd cfg "fallback_ssh_alias" VNone) alias transport;
    do names <- as_tuple (dgetd cfg "hostnames" VNone);
    do prefix <- stripped (dgetd cfg "shell_prefix" (VStr ""));
    Ok {| h_name := name; h_ssh_alias := alias; h_hostnames := names; h_description := dgetd cfg "description" (VStr "");
          h_shell_prefix := prefix; h_transport := transport; h_fallback := fallback |}
  | _ => not_an_object
  end.
Fixpoint hosts_of (l : pydict) (acc : list (string * HostSpec)) : res (list (string * HostSpec)) :=
  match l with
  | [] => Ok acc
  | (name, cfg) :: l => do h <- host_of name cfg; hosts_of l (dset acc name h)
  end.
(** [entry[k]] *)
Definition item (entry : pyval) (k : string) : res pyval :=
  match entry with
  | VDict d => match dget d k with Some v => Ok v | None => Raise (KeyError k) end
  | _ => Raise (TypeError "object is not subscriptable with a string")
  end.
Definition repo_of (hosts : list (string * HostSpec)) (entry : pyval) : res RepoEntry :=
  do host_key <- item entry "host";
  guard hashed host_key orelse TypeError "unhashable type";
  match host_key with
  | VStr key =>
    guard dmem hosts key orelse ValueError "repo references undefined host";
    do path <- item entry "path";
    do path <- stripped path;
    Ok {| re_host := key; re_path := path; re_note := match entry with VDict d => dgetd d "note" (VStr "") | _ => VStr "" end |}
  | _ => Raise (ValueError "repo references undefined host")
  end.
Fixpoint repos_of (hosts : list (string * HostSpec)) (l : list pyval) : res (list RepoEntry) :=
  match l with
  | [] => Ok []
  | e :: l => do r <- repo_of hosts e; do rs <- repos_of hosts l; Ok (r :: rs)
  end.
Definition topic_of (hosts : list (string * HostSpec)) (name : string) (raw : pyval) : res TopicSpec :=
  match raw with
  | VDict d =>
    do entries <- as_tuple (dgetd d "repos" VNone);
    do repos <- repos_of hosts entries;
    Ok {| to_name := name; to_repos := repos; to_description := dgetd d "description" (VStr "") |}
  | _ => not_an_object
  end.
(** A directory of topics: its subdirectories, each with the parsed text of its
    ".repo-map.json", which may be absent or no JSON. *)
Abbreviation topic_dirs := (gmap string (option (res pyval))).
Fixpoint topics_of (hosts : list (string * HostSpec)) (dirs : topic_dirs) (names : list string)
    (acc : list (string * TopicSpec)) : res (list (string * TopicSpec)) :=
  match names with
  | [] => Ok acc
  | name :: names =>
    match String.prefix "." name, dirs !! name with
    | false, Some (Some text) =>
      do raw <- text; do t <- topic_of hosts name raw; topics_of hosts dirs names (dset acc name t)
    | _, _ => topics_of hosts dirs names acc
    end
  end.
Definition load_hosts (v : pyval) : res (list (string * HostSpec)) :=
  match v with
  | VDict d => hosts_of d []
  | v => if truthy v then Raise (AttributeError "no attribute items") else Ok []
  end.
Definition load_topics (hosts : list (string * HostSpec)) (root : option topic_dirs) : res (list (string * TopicSpec)) :=
  match root with
  | None => Ok []
  | Some dirs => topics_of hosts dirs (sort_strs (map fst (map_to_list dirs))) []
  end.
Section load.
(** [expand_path] reads the environment; [docs] is what a path leads to. *)
Context (expand_path : string -> string) (docs : string -> option topic_dirs).
(** [text] is the parsed text of the global file. *)
Definition load_repo_map (text : res pyval) : res RepoMap :=
  do raw <- text;
  match raw with
  | VDict raw =>
    do root <- text_of (dgetd raw "midocs_root" (VStr "~/mi-docs"));
    do zsh <- text_of (dgetd raw "relay_zsh" (VStr ""));
    do hosts <- load_hosts (dgetd raw "hosts" VNone);
    let root := expand_path root in
    do topics <- load_topics hosts (docs root);
    Ok {| midocs_root := root; hosts := hosts; topics := topics; relay_zsh := expand_path zsh |}
  | _ => not_an_object
  end.
End load.

(** ** The specification of an execution *)
Record ExecutionSpec := {
  es_provider : string; es_model : string; es_variant : string; es_system : string; es_full_prompt : string; es_source : string }.
Record spec_args := { sa_model : string; sa_variant : string; sa_system : string; sa_prompt : string; sa_agent : string }.
Definition unavailable (e : pyexn) : bool := match e with AppError c _ => String.eqb c "ModelContextUnavailable" | _ => false end.
(** [(v or "").strip()] *)
Definition stripped_or (v : pyval) : res string := if truthy v then stripped v else Ok "".
Definition model_char (c : ascii) : bool := is_alnum c || existsb (fun n => N.eqb (N_of_ascii c) n) [95; 46; 47; 45]%N.
Definition _EXECUTION_CONTEXT_MODEL_RE (s : string) : bool := match_dollar (class_bounded model_char 1 128) s.
Section spec.
(** The file of the execution context: absent; or its parsed text. *)
Context (context_file : option (res pyval)).
Definition quiet_read (e : pyexn) : bool :=
  match e with OSError _ => true | AppError c _ => String.eqb c "JSONDecodeError" | _ => false end.
Definition _read_omp_execution_context : res (option (string * string * string)) :=
  match context_file with
  | None => Ok None
  | Some (Raise e) => if quiet_read e then Ok None else Raise e
  | Some (Ok (VDict data)) =>
    do model <- stripped_or (dgetd data "model" VNone);
    if String.eqb model "" || negb (_EXECUTION_CONTEXT_MODEL_RE model) then Ok None else
    do variant <- stripped_or (dgetd data "variant" VNone);
    do provider <- stripped_or (dgetd data "provider" VNone);
    Ok (Some (model, variant, provider))
  | Some (Ok _) => not_an_object
  end.
Definition _extract_provider (model : string) : string := match split1 "/"%char model with Some (p, _) => p | None => "" end.
(** The model, its variant and provider, and where they are from, so far. *)
Record sofar := { sf_model : string; sf_variant : string; sf_provider : string; sf_source : string }.
(** A context is the tuple that was reported, with "" for a missing field. *)
Definition from_runtime (resolve : option (string -> res (option (list string)))) (strict : bool) (agent : string) (s : sofar) :
    res sofar :=
  match resolve with
  | Some f =>
    if negb (String.eqb (sf_model s) "") then Ok s else
    do ctx <- match f agent with
              | Raise e => if unavailable e && negb strict then Ok None else Raise e
              | Ok c => Ok c
              end;
    match ctx with
    | Some (model :: rest) =>
      Ok {| sf_model := model; sf_source := "runtime_context"; sf_provider := or_empty (rest !! 1%nat);
            sf_variant := first_of (sf_variant s) (or_empty (rest !! 0%nat)) |}
    | _ => Ok s
    end
  | None => Ok s
  end.
Definition from_context_file (s : sofar) : res sofar :=
  if negb (String.eqb (sf_model s) "") then Ok s else
  do ctx <- _read_omp_execution_context;
  match ctx with
  | Some (model, variant, provider) =>
    Ok {| sf_model := model; sf_source := "execution_context"; sf_variant := first_of (sf_variant s) variant;
          sf_provider := first_of (sf_provider s) provider |}
  | None => Ok s
  end.
Definition from_profile (resolve : option (string -> res string)) (agent : string) (s : sofar) : res sofar :=
  match resolve with
  | Some f =>
    if negb (String.eqb (sf_model s) "") then Ok s else
    do model <- f agent;
    Ok {| sf_model := model; sf_source := if String.eqb model "" then sf_source s else "agent_profile";
          sf_variant := sf_variant s; sf_provider := sf_provider s |}
  | None => Ok s
  end.
Definition full_prompt (system prompt : string) : string :=
  if String.eqb system "" then prompt else if String.eqb prompt "" then system else system +:+ NL +:+ NL +:+ prompt.
Definition from_args (a : spec_args) (resolve_agent_model : option (string -> res string))
    (resolve_runtime_context : option (string -> res (option (list string)))) (strict : bool) : res ExecutionSpec :=
  do s <- from_runtime resolve_runtime_context strict (sa_agent a)
            {| sf_model := sa_model a; sf_variant := sa_variant a; sf_provider := "";
               sf_source := if String.eqb (sa_model a) "" then "" else "explicit" |};
  do s <- from_context_file s;
  do s <- from_profile resolve_agent_model (sa_agent a) s;
  Ok {| es_provider := first_of (sf_provider s) (_extract_provider (sf_model s)); es_model := sf_model s;
        es_variant := sf_variant s; es_system := sa_system a; es_full_prompt := full_prompt (sa_system a) (sa_prompt a);
        es_source := sf_source s |}.
End spec.

(** ** A map that was loaded *)
Record host_ok (name : string) (h : HostSpec) : Prop := {
  ho_name : h_name h = name;
  ho_alias : blank (h_ssh_alias h) = false;
  ho_transport : h_transport h ∈ VALID_TRANSPORTS;
  ho_fallback : h_fallback h = "" \/ h_fallback h <> h_ssh_alias h /\ h_transport h = "ssh" }.
Definition all_at {A} (P : string -> A -> Prop) (d : list (string * A)) : Prop := forall k v, dget d k = Some v -> P k v.
Record topic_ok (hs : list (string * HostSpec)) (name : string) (t : TopicSpec) : Prop := {
  tk_name : to_name t = name;
  tk_visible : String.prefix "." name = false;
  tk_repos : Forall (fun r => exists h, dget hs (re_host r) = Some h /\ host_ok (re_host r) h) (to_repos t) }.
Record map_ok (m : RepoMap) : Prop := {
  mp_hosts : all_at host_ok (hosts m); mp_hosts_wf : dict_wf (hosts m);
  mp_topics : all_at (topic_ok (hosts m)) (topics m); mp_topics_wf : dict_wf (topics m) }.

Lemma all_at_nil {A} (P : string -> A -> Prop) : all_at P [].
Proof. by intros k v. Qed.
Lemma all_at_dset {A} (P : string -> A -> Prop) d k v : all_at P d -> P k v -> all_at P (dset d k v).
Proof. intros Hd Hv k' v'. rewrite dget_dset. case_decide as Hk; [by intros [= <-]; subst|apply Hd]. Qed.
Lemma guard_Ok {A} (b : bool) e (r : res A) a : (guard b orelse e; r) = Ok a <-> b = true /\ r = Ok a.
Proof. destruct b; naive_solver. Qed.
(** [res_inv] takes the evaluations that did not raise apart. *)
Ltac res_inv := repeat match goal with
  | H : res_bind _ _ = Ok _ |- _ => apply res_bind_Ok in H as (? & ? & H)
  | H : (if _ then _ else Raise _) = Ok _ |- _ => apply guard_Ok in H as [? H]
  | H : Ok _ = Ok _ |- _ => injection H as H
  | H : Raise _ = Ok _ |- _ => discriminate H
  end; subst.

Lemma host_of_ok name cfg h : host_of name cfg = Ok h -> host_ok name h.
Proof.
  destruct cfg as [| | | | | |d]; try done. unfold host_of. intros H. res_inv. split; simpl; [done| | |].
  - match goal with H : valid_alias ?v = Ok _ |- _ => unfold valid_alias in H; destruct v; try done end. res_inv.
    by apply negb_true_iff.
  - match goal with H : valid_transport ?v = Ok _ |- _ => unfold valid_transport in H; destruct v; res_inv; try done end.
    match goal with H : bool_decide _ = true |- _ => by apply bool_decide_eq_true in H end.
  - match goal with H : valid_fallback ?v _ _ = Ok ?y |- _ => unfold valid_fallback in H; destruct v as [| | | |[|c s]| |]; res_inv; try done; try by left end.
    right. split; [|by apply String.eqb_eq]. match goal with H : negb (String.eqb _ _) = true |- _ => apply negb_true_iff in H; by apply String.eqb_neq end.
Qed.
Lemma hosts_of_ok l acc hs : all_at host_ok acc -> dict_wf acc -> hosts_of l acc = Ok hs -> all_at host_ok hs /\ dict_wf hs.
Proof.
  revert acc. induction l as [|[name cfg] l IH]; intros acc Ha Hw Hl; simpl in Hl; [by injection Hl as <-|].
  res_inv. eapply IH; [| |done]; [|by apply dset_wf]. apply all_at_dset; [done|by eapply host_of_ok].
Qed.
Lemma repos_of_ok hs l rs : all_at host_ok hs -> repos_of hs l = Ok rs ->
  Forall (fun r => exists h, dget hs (re_host r) = Some h /\ host_ok (re_host r) h) rs.
Proof.
  intros Hh. revert rs. induction l as [|e l IH]; intros rs Hl; simpl in Hl; res_inv; constructor; [|by apply IH].
  match goal with H : repo_of _ _ = Ok _ |- _ => unfold repo_of in H; res_inv; rename H into Hr end.
  match type of Hr with match ?k with _ => _ end = _ => destruct k; try done end. res_inv. simpl.
  match goal with H : dmem _ _ = true |- _ => unfold dmem in H; destruct (dget hs s) as [h|] eqn:Hs; [|done] end.
  exists h. split; [done|by apply Hh].
Qed.
Lemma topics_of_ok hs dirs names acc ts : all_at host_ok hs -> all_at (topic_ok hs) acc -> dict_wf acc ->
  topics_of hs dirs names acc = Ok ts -> all_at (topic_ok hs) ts /\ dict_wf ts.
Proof.
  intros Hh. revert acc. induction names as [|name names IH]; intros acc Ha Hw Hl; simpl in Hl; [by injection Hl as <-|].
  destruct (String.prefix "." name) eqn:Hp; [by eapply IH|]. destruct (dirs !! name) as [[text|]|]; [|by eapply IH..].
  res_inv. eapply IH; [| |done]; [|by apply dset_wf]. apply all_at_dset; [done|].
  match goal with H : topic_of _ _ ?v = Ok _ |- _ => unfold topic_of in H; destruct v; try done end.
  res_inv. split; [done..|]. by eapply repos_of_ok.
Qed.

Lemma load_hosts_ok v l : load_hosts v = Ok l -> all_at host_ok l /\ dict_wf l.
Proof.
  assert (Hn : forall e, (if truthy v then Raise e else Ok []) = Ok l -> all_at host_ok l /\ dict_wf l).
  { intros e. destruct (truthy v); [done|]. intros [= <-]. split; [apply all_at_nil|constructor]. }
  destruct v; try exact (Hn (AttributeError "no attribute items")). apply hosts_of_ok; [apply all_at_nil|constructor].
Qed.
Lemma load_topics_ok hs root l : all_at host_ok hs -> load_topics hs root = Ok l -> all_at (topic_ok hs) l /\ dict_wf l.
Proof.
  intros Hh. destruct root as [dirs|]; simpl; [|intros [= <-]; split; [apply all_at_nil|constructor]].
  apply topics_of_ok; [done|apply all_at_nil|constructor].
Qed.

Lemma load_repo_map_ok expand_path docs text m : load_repo_map expand_path docs text = Ok m -> map_ok m.
Proof.
  unfold load_repo_map. intros H. res_inv. destruct x; try done. res_inv.
  match goal with H : load_hosts _ = Ok ?l |- _ => apply load_hosts_ok in H as [Hl Hlw] end.
  match goal with H : load_topics _ _ = Ok _ |- _ => apply load_topics_ok in H as [Ht Htw]; [by split|done] end.
Qed.
(** Whatever the files say, a map that is loaded at all is well-formed: every
    host has an alias and a transport that exists, its fallback is another host
    reached by ssh, and every repository of every topic is on a host of the map. *)
Theorem loaded_map_ok expand_path docs text m : load_repo_map expand_path docs text = Ok m -> map_ok m.
Proof. apply load_repo_map_ok. Qed.

(** ** Targets *)
Section targets.
Context (gethostname : string).
Notation here := (resolve_is_local gethostname).
(** A request that names a topic of a loaded map runs where the topic's
    repository is, on the host that the map describes: no host is made up.  An
    unknown topic and an index outside the list are refused; so is nothing else,
    but for a host whose list of names holds something that is no text. *)
Theorem topic_target m req name : map_ok m -> or_empty (rq_host req) = "" -> rq_topic req = Some name -> name <> "" ->
  match dget (topics m) name with
  | None => resolve_target gethostname req m = Raise (KeyError name)
  | Some t =>
    if (0 <=? rq_repo_index req) && (rq_repo_index req <? Z.of_nat (length (to_repos t)))
    then exists r h, to_repos t !! Z.to_nat (rq_repo_index req) = Some r /\ dget (hosts m) (re_host r) = Some h /\
         resolve_target gethostname req m =
           (do b <- here h; Ok {| tg_host := h; tg_repo := r; tg_topic := Some t; tg_index := rq_repo_index req; is_local := b |})
    else resolve_target gethostname req m = Raise (IndexError "index out of range")
  end.
Proof.
  intros Hm Hh Ht Hn. apply String.eqb_neq in Hn. unfold resolve_target, _resolve_by_topic. rewrite Hh, Ht. simpl.
  rewrite Hn. simpl. unfold map_topic. destruct (dget (topics m) name) as [t|] eqn:Hd; [|done]. simpl. unfold topic_repo.
  destruct ((0 <=? rq_repo_index req) && _) eqn:Hi; [|done]. bool_to_prop.
  destruct (lookup_lt_is_Some_2 (to_repos t) (Z.to_nat (rq_repo_index req))) as [r Hr]; [lia|].
  pose proof (tk_repos _ _ _ (mp_topics _ Hm _ _ Hd)) as Hf. rewrite Forall_forall in Hf.
  destruct (Hf r (list_elem_of_lookup_2 _ _ _ Hr)) as (h & Hh' & _). exists r, h. by rewrite Hr; simpl; rewrite Hh'.
Qed.
(** The transport that is chosen for a target agrees with the target: a request
    with a host or a topic is run in place exactly when the router would run it in
    place.  Without either it is run in place, although the router, asked about the
    host of that target, dials "__local__" by ssh on every machine but one whose
    name is localhost. *)
Theorem transport_agrees req m t om : resolve_target gethostname req m = Ok t ->
  let named := negb (String.eqb (or_empty (rq_host req)) "" && String.eqb (or_empty (rq_topic req)) "") in
  if named : bool
  then forall tr, router_get gethostname (tg_host t) om = Ok tr -> (tr = LocalTransport <-> is_local t = true)
  else is_local t = true /\
       (before "."%char (lower (current_hostname gethostname)) <> "localhost" ->
        router_get gethostname (tg_host t) om = Ok SSHTransport).
Proof.
  assert (Hrt : forall h b, here h = Ok b -> forall tr, router_get gethostname h om = Ok tr -> (tr = LocalTransport <-> b = true)).
  { intros h b Hb tr. unfold router_get. rewrite Hb. simpl. destruct b; [by intros [= <-]|].
    destruct (String.eqb _ _); intros H; res_inv; done. }
  unfold resolve_target. destruct (String.eqb (or_empty (rq_host req)) ""); simpl.
  - destruct (String.eqb (or_empty (rq_topic req)) ""); simpl.
    + intros [= <-]. split; [done|]. intros Hne. unfold router_get. cbn [tg_host _resolve_local_fallback].
      unfold resolve_is_local. cbn [h_hostnames _LOCAL_HOST any_here names_here].
      set (a := lower _) in *. assert (Hl : lower "localhost" = "localhost") by done. rewrite Hl.
      assert (Hb : before "."%char "localhost" = "localhost") by done. rewrite Hb.
      assert (Ha : a <> "localhost") by (by intros Ha; rewrite Ha, Hb in Hne).
      rewrite (proj2 (String.eqb_neq "localhost" a)) by (by intros ?; apply Ha).
      rewrite (proj2 (String.eqb_neq "localhost" (before _ a))) by (by intros ?; apply Hne). done.
    + unfold _resolve_by_topic. intros H. res_inv. by apply Hrt.
  - unfold _resolve_by_host. intros H. res_inv. by apply Hrt.
Qed.
End targets.
(** Two machines that share their short name are taken for one. *)
Theorem short_names_meet h : h_hostnames h = [VStr "build.lab-a.example"] -> resolve_is_local "build.lab-b.example" h = Ok true.
Proof. unfold resolve_is_local. by intros ->. Qed.
(** Of a host behind a relay that is this machine, the router uses the local
    transport and yet says that it has no streams. *)
Theorem local_without_streams gethostname h om : resolve_is_local gethostname h = Ok true -> h_transport h = "relay-login" ->
  router_get gethostname h om = Ok LocalTransport /\ supports_stream h = false.
Proof. intros Hh Ht. unfold router_get, supports_stream, capabilities. by rewrite Hh, Ht. Qed.

(** ** Where the model of an execution comes from *)
Section sources.
Context (context_file : option (res pyval)).
Notation from_args := (from_args context_file).
(** The sources in their order, each with what it gives when it is asked. *)
Definition source := (string * res (option (string * string * string)))%type.
Fixpoint first_source (l : list source) : res (option (string * (string * string * string))) :=
  match l with
  | [] => Ok None
  | (name, r) :: l =>
    do found <- r;
    match found with
    | Some (model, variant, provider) =>
      if String.eqb model "" then first_source l else Ok (Some (name, (model, variant, provider)))
    | None => first_source l
    end
  end.
Definition runtime_source (resolve : option (string -> res (option (list string)))) (strict : bool) (agent : string) :
    res (option (string * string * string)) :=
  match resolve with
  | None => Ok None
  | Some f => match f agent with
              | Raise e => if unavailable e && negb strict then Ok None else Raise e
              | Ok (Some (model :: rest)) => Ok (Some (model, or_empty (rest !! 0%nat), or_empty (rest !! 1%nat)))
              | Ok _ => Ok None
              end
  end.
Definition profile_source (resolve : option (string -> res string)) (agent : string) : res (option (string * string * string)) :=
  match resolve with None => Ok None | Some f => do m <- f agent; Ok (Some (m, "", "")) end.
Definition sources (a : spec_args) f g (strict : bool) : list source := [
  ("explicit", Ok (Some (sa_model a, "", ""))); ("runtime_context", runtime_source g strict (sa_agent a));
  ("execution_context", _read_omp_execution_context context_file); ("agent_profile", profile_source f (sa_agent a))].
Lemma runtime_as_source g strict agent m v src : m = "" ->
  from_runtime g strict agent {| sf_model := m; sf_variant := v; sf_provider := ""; sf_source := src |} =
  (do found <- runtime_source g strict agent;
   Ok match found with
      | Some (model, variant, provider) =>
        {| sf_model := model; sf_variant := first_of v variant; sf_provider := provider; sf_source := "runtime_context" |}
      | None => {| sf_model := m; sf_variant := v; sf_provider := ""; sf_source := src |}
      end).
Proof.
  intros ->. unfold from_runtime, runtime_source. destruct g as [g|]; [|done]. cbn [sf_model String.eqb negb].
  destruct (g agent) as [[[|model rest]|]|e]; try done. by destruct (unavailable e && negb strict).
Qed.
(** What comes out when the sources up to the runtime have been asked. *)
Definition finish (f : option (string -> res string)) (a : spec_args) (s : sofar) : res ExecutionSpec :=
  do s <- from_context_file context_file s;
  do s <- from_profile f (sa_agent a) s;
  Ok {| es_provider := first_of (sf_provider s) (_extract_provider (sf_model s)); es_model := sf_model s;
        es_variant := sf_variant s; es_system := sa_system a; es_full_prompt := full_prompt (sa_system a) (sa_prompt a);
        es_source := sf_source s |}.
Definition agrees (x : res (option (string * (string * string * string)))) (r : res ExecutionSpec) : Prop :=
  match x, r with
  | Raise e, r => r = Raise e
  | Ok (Some (name, (model, _, _))), Ok s => es_model s = model /\ es_source s = name
  | Ok None, Ok s => es_model s = ""
  | Ok _, Raise _ => False
  end.
Lemma settled f a m v p src x y : String.eqb m "" = false -> agrees (Ok (Some (src, (m, x, y))))
  (finish f a {| sf_model := m; sf_variant := v; sf_provider := p; sf_source := src |}).
Proof.
  intros Hm. unfold finish, from_context_file, from_profile. cbn [sf_model]. rewrite Hm. cbn [negb res_bind sf_model].
  destruct f; cbn [res_bind sf_model]; rewrite ?Hm; done.
Qed.
Lemma rest_sources f a v p src :
  agrees (first_source [("execution_context", _read_omp_execution_context context_file); ("agent_profile", profile_source f (sa_agent a))])
    (finish f a {| sf_model := ""; sf_variant := v; sf_provider := p; sf_source := src |}).
Proof.
  unfold finish, from_context_file. cbn [sf_model String.eqb negb first_source].
  assert (Hp : forall v p src, agrees (first_source [("agent_profile", profile_source f (sa_agent a))])
    (do s <- from_profile f (sa_agent a) {| sf_model := ""; sf_variant := v; sf_provider := p; sf_source := src |};
     Ok {| es_provider := first_of (sf_provider s) (_extract_provider (sf_model s)); es_model := sf_model s;
           es_variant := sf_variant s; es_system := sa_system a; es_full_prompt := full_prompt (sa_system a) (sa_prompt a);
           es_source := sf_source s |})).
  { intros v' p' src'. unfold from_profile, profile_source. cbn [first_source]. destruct f as [f|]; [|done].
    cbn [sf_model String.eqb negb]. destruct (f (sa_agent a)) as [m|e]; [|done]. cbn [res_bind]. by destruct m. }
  destruct (_read_omp_execution_context context_file) as [[[[m v'] p']|]|e]; cbn [res_bind]; [|apply Hp|done].
  destruct (String.eqb m "") eqn:Hm; cbn [sf_provider sf_variant].
  - apply String.eqb_eq in Hm as ->. apply Hp.
  - unfold from_profile. cbn [sf_model]. rewrite Hm. destruct f; done.
Qed.
(** The model of an execution is that of the first of its sources that has one,
    in the order the documentation gives: what the command line says, the runtime
    of the caller, the file of the execution context, the profile of the agent; a
    source after it is not asked, and an exception of one before it comes out. *)
Theorem model_source_spec a f g strict :
  agrees (first_source (sources a f g strict)) (from_args a f g strict).
Proof.
  unfold sources, from_args. cbn [first_source].
  destruct (String.eqb (sa_model a) "") eqn:Hm; cbn [res_bind]; rewrite ?Hm.
  2: { unfold from_runtime, from_context_file, from_profile.
       destruct g; cbn [res_bind sf_model]; rewrite ?Hm; cbn [negb res_bind sf_model]; rewrite ?Hm; cbn [negb res_bind sf_model];
         destruct f; cbn [res_bind sf_model]; rewrite ?Hm; done. }
  apply String.eqb_eq in Hm. rewrite runtime_as_source by done. destruct (runtime_source g strict (sa_agent a)) as [[[[m v] p]|]|e];
    cbn [res_bind]; [| |done].
  - destruct (String.eqb m "") eqn:Hm1; [apply String.eqb_eq in Hm1 as ->; apply rest_sources; done|].
    apply (settled _ _ _ _ _ _ _ _ Hm1).
  - rewrite Hm. apply rest_sources.
Qed.
(** A runtime that reports a provider and no model leaves the provider behind:
    it is given out with the model of another source, whatever that one says. *)
Theorem provider_mixed a f g strict v p rest s : sa_model a = "" -> p <> "" ->
  g (sa_agent a) = Ok (Some ("" :: v :: p :: rest)) -> from_args a f (Some g) strict = Ok s -> es_provider s = p.
Proof.
  intros Hm Hp Hg. unfold from_args. rewrite runtime_as_source by done. unfold runtime_source. rewrite Hg. cbn [res_bind].
  assert (Hf : forall x, first_of p x = p) by (intros x; apply String.eqb_neq in Hp; unfold first_of; by rewrite Hp).
  unfold from_context_file, from_profile. cbn [sf_model String.eqb negb].
  destruct (_read_omp_execution_context context_file) as [[[[m v'] p']|]|e]; cbn [res_bind sf_model sf_provider lookup list_lookup or_empty default from_option]; [| |done].
  - destruct f as [f|]; cbn [res_bind]; [|intros [= <-]; cbn [es_provider sf_provider]; by rewrite !Hf].
    destruct (String.eqb m ""); cbn [negb]; [destruct (f _); [|done]|]; intros [= <-]; cbn [es_provider sf_provider]; by rewrite !Hf.
  - destruct f as [f|]; cbn [res_bind]; [|intros [= <-]; cbn [es_provider sf_provider]; by rewrite !Hf]. cbn [String.eqb negb].
    destruct (f _); [|done]. intros [= <-]. cbn [es_provider sf_provider]. by rewrite !Hf.
Qed.
End sources.

(** ** A concrete map *)
Definition demo_text : pyval := VDict [
  ("midocs_root", VStr "/docs");
  ("hosts", VDict [("gpu", VDict [("ssh_alias", VStr "gpu"); ("hostnames", VList [VStr "gpu1.lab"]); ("fallback_ssh_alias", VStr " gpu-wan ")]);
                   ("here", VDict [("ssh_alias", VStr "desk"); ("hostnames", VStr "d")])])].
Definition demo_docs (path : string) : option topic_dirs :=
  if String.eqb path "/docs"
  then Some (<["vision" := Some (Ok (VDict [("repos", VList [VDict [("host", VStr "gpu"); ("path", VStr " ~/src/v ")]])]))]>
             (<[".git" := None]> ∅))
  else None.
Definition demo_map : RepoMap := match load_repo_map id demo_docs (Ok demo_text) with
  | Ok m => m | Raise _ => {| midocs_root := ""; hosts := []; topics := []; relay_zsh := "" |} end.
Definition demo_request (topic host : option string) : RunRequest := {|
  rq_task := "do it"; rq_workdir := ""; rq_backend := Some "omp"; rq_agent := None; rq_model := None; rq_skills := None; rq_skip_permissions := true; rq_raw := false; rq_session_key := None;
  rq_new_session := false; rq_no_auto_resume := false; rq_topic := topic; rq_repo_index := 0; rq_host := host; rq_timeout := 600;
  rq_resume := None; rq_request_id := ""; rq_run_id := ""; rq_review_key := ""; rq_require_ack := false; rq_capabilities := [] |}.
Lemma loaded_map_ok_witness : map_ok demo_map /\ length (hosts demo_map) = 2%nat.
Proof. split; [|reflexivity]. apply (loaded_map_ok id demo_docs (Ok demo_text)). vm_compute. reflexivity. Defined.
Definition demo_repo : RepoEntry := {| re_host := "gpu"; re_path := "~/src/v"; re_note := VStr "" |}.
Definition demo_topic : TopicSpec := {| to_name := "vision"; to_repos := [demo_repo]; to_description := VStr "" |}.
Definition demo_host : HostSpec := {|
  h_name := "gpu"; h_ssh_alias := "gpu"; h_hostnames := [VStr "gpu1.lab"]; h_description := VStr ""; h_shell_prefix := "";
  h_transport := "ssh"; h_fallback := "gpu-wan" |}.
Lemma topic_target_witness : resolve_target "laptop" (demo_request (Some "vision") None) demo_map =
  Ok {| tg_host := demo_host; tg_repo := demo_repo; tg_topic := Some demo_topic; tg_index := 0; is_local := false |}.
Proof.
  assert (Hm : map_ok demo_map) by (apply (load_repo_map_ok id demo_docs (Ok demo_text)); vm_compute; reflexivity).
  assert (Ht : dget (topics demo_map) "vision" = Some demo_topic) by (vm_compute; reflexivity).
  assert (Hh : dget (hosts demo_map) "gpu" = Some demo_host) by (vm_compute; reflexivity).
  revert Hm Ht Hh. generalize demo_map. intros m Hm Ht Hh.
  pose proof (topic_target "laptop" m (demo_request (Some "vision") None) "vision" Hm eq_refl eq_refl ltac:(discriminate)) as H.
  rewrite Ht in H. destruct H as (r & h & [= <-] & Hh' & ->). change (dget (hosts m) "gpu" = Some h) in Hh'. rewrite Hh in Hh'. injection Hh' as <-. reflexivity.
Defined.
Definition here_target : Target :=
  {| tg_host := demo_host; tg_repo := demo_repo; tg_topic := Some demo_topic; tg_index := 0; is_local := true |}.
Lemma transport_agrees_witness : resolve_target "gpu1" (demo_request (Some "vision") None) demo_map = Ok here_target /\
  forall tr, router_get "gpu1" demo_host None = Ok tr -> tr = LocalTransport.
Proof.
  assert (H : resolve_target "gpu1" (demo_request (Some "vision") None) demo_map = Ok here_target) by (vm_compute; reflexivity).
  split; [exact H|]. intros tr Htr. apply (transport_agrees "gpu1" _ _ here_target None H tr Htr). reflexivity.
Defined.
Lemma provider_mixed_witness : exists s,
  from_args (Some (Ok (VDict [("model", VStr "anthropic/opus"); ("provider", VStr "anthropic")])))
    {| sa_model := ""; sa_variant := ""; sa_system := ""; sa_prompt := "p"; sa_agent := "a" |} None
    (Some (fun _ => Ok (Some [""; "high"; "openai"]))) false = Ok s /\ es_model s = "anthropic/opus" /\ es_provider s = "openai".
Proof.
  eexists. split; [vm_compute; reflexivity|]. split; [reflexivity|].
  eapply (provider_mixed (Some (Ok (VDict [("model", VStr "anthropic/opus"); ("provider", VStr "anthropic")])))
    {| sa_model := ""; sa_variant := ""; sa_system := ""; sa_prompt := "p"; sa_agent := "a" |} None
    (fun _ => Ok (Some [""; "high"; "openai"])) false "high" "openai" []); [reflexivity|discriminate|reflexivity|vm_compute; reflexivity].
Defined.
