(* ===== verification/AgentSession.v ===== *)
(** * The sessions of the agents
    (src/src/codeagent/session/key.py, session/registry.py, session/lock.py;
    [_execute] of cli.py)

    A run is filed under a key that its target determines.  [SessionRegistry] keeps
    what is known of each key; [_execute] decides from it whether a run resumes an
    earlier session; [SessionLock] keeps the turns of one key apart. *)
From S2P Require Import Prelude Routing.

(** ** Keys (session/key.py) *)
(** [os.path.normpath]: its components, after [done], the last first. *)
Fixpoint norm_parts (rooted : bool) (comps acc : list string) : list string :=
  match comps with
  | [] => rev acc
  | c :: comps =>
    if String.eqb c "" || String.eqb c "." then norm_parts rooted comps acc
    else if negb (String.eqb c "..") || negb rooted && bool_decide (acc = [])
            || match acc with d :: _ => String.eqb d ".." | [] => false end
         then norm_parts rooted comps (c :: acc)
         else norm_parts rooted comps (tail acc)
  end.
Definition slash : ascii := ascii_of_N 47.
Definition initial_slashes (p : string) : string :=
  if negb (String.prefix "/" p) then "" else if String.prefix "//" p && negb (String.prefix "///" p) then "//" else "/".
Definition normpath (p : string) : string :=
  let s := initial_slashes p in
  let q := s +:+ String.concat "/" (norm_parts (negb (String.eqb s "")) (split_all slash p) []) in
  if String.eqb q "" then "." else q.
Definition path_join (a b : string) : string :=
  if String.prefix "/" b then b else if String.eqb a "" || ends_with "/" a then a +:+ b else a +:+ "/" +:+ b.
Section keys.
(** The environment: what [expandvars] and [expanduser] make of a path, and the
    working directory. *)
Context (expand_path : string -> string) (getcwd : string).
Definition abspath (p : string) : string := normpath (if String.prefix "/" p then p else path_join getcwd p).
Definition _normalize_workdir (path : string) : string := normpath (abspath (expand_path (first_of path getcwd))).
Definition key_host (t : Target) : string := if negb (is_local t) then target_alias t else LOCAL_HOST_MARKER.
Definition key_backend (req : RunRequest) : string := lower (first_of (or_empty (rq_backend req)) "opencode").
Definition compute_session_key (req : RunRequest) (t : Target) : string :=
  key_host t +:+ ":" +:+ _normalize_workdir (first_of (target_workdir t) (rq_workdir req)) +:+ ":" +:+ key_backend req
  +:+ ":" +:+ or_empty (rq_agent req).
End keys.

(** ** The registry (session/registry.py) *)
Record SessionRecord := {
  sr_session : string; sr_backend : string; sr_host : string; sr_workdir : string; sr_agent : string; sr_model : string;
  sr_topic : string; sr_status : string; sr_created : Z; sr_updated : Z }.
(** The rows of the table, by their keys, in the order of insertion. *)
Definition registry := list (string * SessionRecord).
Definition with_status (status : string) (now : Z) (r : SessionRecord) : SessionRecord := {|
  sr_session := sr_session r; sr_backend := sr_backend r; sr_host := sr_host r; sr_workdir := sr_workdir r;
  sr_agent := sr_agent r; sr_model := sr_model r; sr_topic := sr_topic r; sr_status := status; sr_created := sr_created r;
  sr_updated := now |}.
Definition with_session (session_id status : string) (now : Z) (r : SessionRecord) : SessionRecord := {|
  sr_session := session_id; sr_backend := sr_backend r; sr_host := sr_host r; sr_workdir := sr_workdir r;
  sr_agent := sr_agent r; sr_model := sr_model r; sr_topic := sr_topic r; sr_status := status; sr_created := sr_created r;
  sr_updated := now |}.
(** [UPDATE sessions SET ... WHERE key = ?] *)
Definition update_row (key : string) (f : SessionRecord -> SessionRecord) (t : registry) : registry :=
  match dget t key with Some r => dset t key (f r) | None => t end.
Record RunResult := {
  rs_code : Z; rs_stdout : string; rs_stderr : string; rs_session : option string; rs_backend : string; rs_host : string;
  rs_workdir : string }.
Definition record_of (session_id backend workdir status : string) (req : RunRequest) (t : Target) (created now : Z) : SessionRecord := {|
  sr_session := session_id; sr_backend := backend; sr_host := key_host t; sr_workdir := workdir;
  sr_agent := or_empty (rq_agent req); sr_model := or_empty (rq_model req); sr_topic := or_empty (rq_topic req);
  sr_status := status; sr_created := created; sr_updated := now |}.
Definition lookup (key : string) : st registry (option SessionRecord) := gets (fun t => dget t key).
Definition mark_starting (key : string) (req : RunRequest) (t : Target) (clear_session : bool) (now : Z) : st registry unit :=
  modify (fun rows =>
    let kept := match dget rows key with Some r => if clear_session then "" else sr_session r | None => "" end in
    let created := match dget rows key with Some r => sr_created r | None => now end in
    dset rows key (record_of kept (key_backend req) (first_of (target_workdir t) (rq_workdir req)) "starting" req t created now)).
Definition mark_observed (key session_id : string) (now : Z) : st registry unit :=
  modify (update_row key (with_session session_id "observed" now)).
Definition mark_active (key : string) (now : Z) : st registry unit := modify (update_row key (with_status "active" now)).
Definition mark_failed (key : string) (now : Z) : st registry unit := modify (update_row key (with_status "failed" now)).
Definition terminal_status (returncode : Z) : string :=
  if returncode =? 0 then "active" else if returncode <? 0 then "interrupted" else "failed".
Definition upsert (key : string) (result : RunResult) (req : RunRequest) (t : Target) (now : Z) : st registry SessionRecord :=
  existing ← gets (fun rows => dget rows key);
  let created := match existing with Some r => sr_created r | None => now end in
  let r := record_of (or_empty (rs_session result))
             (lower (first_of (first_of (or_empty (rq_backend req)) (rs_backend result)) "opencode"))
             (first_of (first_of (target_workdir t) (rq_workdir req)) (rs_workdir result))
             (terminal_status (rs_code result)) req t created now in
  _ ← modify (fun rows => dset rows key r);
  mret r.
Definition delete (key : string) : st registry bool :=
  found ← gets (fun rows => dmem rows key); _ ← modify (fun rows => ddel rows key); mret found.
Definition bind (key session_id : string) (now : Z) : st registry unit :=
  modify (fun rows => match dget rows key with
    | Some r => dset rows key (with_session session_id "active" now r)
    | None => dset rows key {| sr_session := session_id; sr_backend := ""; sr_host := ""; sr_workdir := ""; sr_agent := "";
                               sr_model := ""; sr_topic := ""; sr_status := "active"; sr_created := now; sr_updated := now |}
    end).
(** [ORDER BY updated_at DESC], rows of one time in the order of the table. *)
Definition by_recent : list (string * SessionRecord) -> list (string * SessionRecord) :=
  sort_by (fun x y => sr_updated (snd y) <=? sr_updated (snd x)).
Definition wanted (host topic : string) (x : string * SessionRecord) : bool :=
  (String.eqb host "" || String.eqb (sr_host (snd x)) host) && (String.eqb topic "" || String.eqb (sr_topic (snd x)) topic).
Definition list_all (host topic : option string) : st registry (list (string * SessionRecord)) :=
  gets (fun rows => by_recent (List.filter (wanted (or_empty host) (or_empty topic)) rows)).
Definition stale (cutoff : Z) (r : SessionRecord) : bool :=
  bool_decide (sr_status r ∈ ["starting"; "observed"]) && (sr_updated r <? cutoff).
(** The two halves of [cleanup_stale]: the keys, and the deletion of one of them
    under its own lock, which asks again. *)
Definition stale_keys (cutoff : Z) : st registry (list string) :=
  gets (fun rows => map fst (List.filter (fun x => stale cutoff (snd x)) rows)).
Definition delete_stale (cutoff : Z) (key : string) : st registry Z :=
  row ← gets (fun rows => dget rows key);
  match row with
  | Some r => if stale cutoff r then _ ← modify (fun rows => ddel rows key); mret 1 else mret 0
  | None => mret 0
  end.
Fixpoint delete_all_stale (cutoff : Z) (keys : list string) (deleted : Z) : st registry Z :=
  match keys with
  | [] => mret deleted
  | k :: keys => n ← delete_stale cutoff k; delete_all_stale cutoff keys (deleted + n)
  end.
Definition cleanup_stale (max_age now : Z) : st registry Z :=
  keys ← stale_keys (now - max_age); delete_all_stale (now - max_age) keys 0.

(** ** A run ([_execute] of cli.py) *)
(** The transports and their surroundings; [clock] is the time. *)
Class Runners (W : Type) := {
  host_name : string; relay_config : option RepoMap; clock : W -> Z; environment : string -> string; cwd : string;
  warm : Transport -> HostSpec -> st W unit;
  run_on : Transport -> RunRequest -> HostSpec -> string -> option string -> st W RunResult;
  park_acquire : string -> string -> string -> W -> W }.
Section execute.
Context {W : Type} `{Runners W}.
Abbreviation M := (st (registry * W)).
Definition reg {A} (m : Z -> st registry A) : M A := fun x => let r := m (clock (snd x)) (fst x) in (fst r, (snd r, snd x)).
Definition out {A} (m : st W A) : M A := fun x => let r := m (snd x) in (fst r, (fst x, snd r)).
Definition plain_host : HostSpec := {|
  h_name := "__local__"; h_ssh_alias := "__local__"; h_hostnames := []; h_description := VStr ""; h_shell_prefix := "";
  h_transport := "ssh"; h_fallback := "" |}.
Definition on_fallback (h : HostSpec) : HostSpec := {|
  h_name := h_name h; h_ssh_alias := h_fallback h; h_hostnames := h_hostnames h; h_description := h_description h;
  h_shell_prefix := h_shell_prefix h; h_transport := h_transport h; h_fallback := "" |}.
Definition transport_error (e : pyexn) : bool := match e with AppError c _ => String.eqb c "TransportError" | _ => false end.
Definition attempt (tr : Transport) (req : RunRequest) (h : HostSpec) (workdir : string) (session : option string) : st W RunResult :=
  _ ← warm tr h; run_on tr req h workdir session.
Definition transported (req : RunRequest) (t : Target) (session : option string) : st W RunResult := fun w =>
  if is_local t then run_on LocalTransport req plain_host (target_workdir t) session w else
  match router_get host_name (tg_host t) relay_config with
  | Raise e => (Raise e, w)
  | Ok tr =>
    match attempt tr req (tg_host t) (target_workdir t) session w with
    | (Raise e, w') =>
      if transport_error e && negb (String.eqb (h_fallback (tg_host t)) "")
      then attempt tr req (on_fallback (tg_host t)) (target_workdir t) session w' else (Raise e, w')
    | r => r
    end
  end.
Definition session_to_resume (req : RunRequest) (record : option SessionRecord) : option string :=
  if rq_new_session req || rq_no_auto_resume req then None else
  match record with
  | Some r => if String.eqb (sr_status r) "active" && negb (String.eqb (sr_session r) "") then Some (sr_session r) else None
  | None => None
  end.
Definition exn_text (e : pyexn) : string :=
  match e with
  | ValueError s | PermissionError s | KeyError s | IndexError s | TypeError s | RuntimeError s | TimeoutError s
  | AttributeError s | OSError s | AppError _ s | GatewayError s => s
  end.
Definition failed_run (e : pyexn) : RunResult := {|
  rs_code := 1; rs_stdout := ""; rs_stderr := "transport error: " +:+ exn_text e; rs_session := None; rs_backend := "";
  rs_host := ""; rs_workdir := "" |}.
(** What is recorded of a run that came back. *)
Definition settle (ns_key : string) (req : RunRequest) (t : Target) (result : RunResult) : M unit :=
  let session := or_empty (rs_session result) in
  if negb (String.eqb session "") then
    _ ← reg (mark_observed ns_key session);
    _ ← reg (upsert ns_key result req t);
    if String.prefix "oracle" (or_empty (rq_agent req)) && (rs_code result =? 0)
    then modify (fun x => (fst x, park_acquire ns_key (or_empty (rq_agent req)) session (snd x))) else mret tt
  else if rs_code result =? 0 then reg (mark_active ns_key) else reg (mark_failed ns_key).
Definition namespace_key (req : RunRequest) (t : Target) : string :=
  first_of (or_empty (rq_session_key req)) (compute_session_key environment cwd req t).
Definition carry_out (ns_key : string) (req : RunRequest) (t : Target) (session : option string) : M RunResult := fun x =>
  match out (transported req t session) x with
  | (Raise e, x') => (_ ← reg (mark_failed ns_key); mret (failed_run e)) x'
  | (Ok result, x') => (_ ← settle ns_key req t result; mret result) x'
  end.
Definition _run (ns_key : string) (req : RunRequest) (t : Target) : M RunResult :=
  record ← (if rq_new_session req || rq_no_auto_resume req then mret None else reg (fun _ => lookup ns_key));
  _ ← reg (mark_starting ns_key req t (rq_new_session req));
  carry_out ns_key req t (session_to_resume req record).
Definition _execute (req : RunRequest) (t : Target) : M RunResult := _run (namespace_key req t) req t.
End execute.

(** ** The table *)
Definition STATUSES : list string := ["starting"; "observed"; "active"; "failed"; "interrupted"].
Record row_ok (now : Z) (r : SessionRecord) : Prop := {
  ro_status : sr_status r ∈ STATUSES; ro_created : sr_created r <= sr_updated r; ro_updated : sr_updated r <= now }.
Definition registry_ok (now : Z) (t : registry) : Prop := dict_wf t /\ all_at (fun _ => row_ok now) t.
Lemma dget_update_row key f t k : dget (update_row key f t) k = if decide (key = k) then f <$> dget t k else dget t k.
Proof.
  unfold update_row. destruct (dget t key) as [r|] eqn:Hr; [rewrite dget_dset|]; case_decide; subst; by rewrite ?Hr.
Qed.
Lemma ok_put now k r t : registry_ok now t -> row_ok now r -> registry_ok now (dset t k r).
Proof. intros [Hw Ht] Hr. split; [by apply dset_wf|by apply all_at_dset]. Qed.
Lemma ok_update now k f t : registry_ok now t -> (forall r, row_ok now r -> row_ok now (f r)) -> registry_ok now (update_row k f t).
Proof.
  intros Ht Hf. unfold update_row. destruct (dget t k) as [r|] eqn:Hr; [|done]. apply ok_put; [done|]. destruct Ht as [_ Ht]. eauto.
Qed.
Lemma ok_delete now k t : registry_ok now t -> registry_ok now (ddel t k).
Proof.
  intros [Hw Ht]. split; [by apply ddel_wf|]. intros k' r. destruct (decide (k = k')) as [<-|Hk]; [by rewrite dget_ddel_eq|].
  rewrite dget_ddel_ne by done. apply Ht.
Qed.
Lemma ok_later now now' t : now <= now' -> registry_ok now t -> registry_ok now' t.
Proof. intros Hn [Hw Ht]. split; [done|]. intros k r Hr. destruct (Ht k r Hr). by split; [| |lia]. Qed.
Lemma ok_status now s r : s ∈ STATUSES -> row_ok now r -> row_ok now (with_status s now r).
Proof. intros Hs []. by split; simpl; [|lia|]. Qed.
Lemma ok_session now sid s r : s ∈ STATUSES -> row_ok now r -> row_ok now (with_session sid s now r).
Proof. intros Hs []. by split; simpl; [|lia|]. Qed.
Lemma ok_created now k t : registry_ok now t ->
  match dget t k with Some r => sr_created r | None => now end <= now.
Proof. intros [_ Ht]. destruct (dget t k) as [r|] eqn:Hr; [|done]. destruct (Ht k r Hr). lia. Qed.

(** The operations that write. *)
Inductive registry_op :=
  | Mark_starting (key : string) (req : RunRequest) (t : Target) (clear_session : bool)
  | Mark_observed (key session_id : string) | Mark_active (key : string) | Mark_failed (key : string)
  | Upsert (key : string) (result : RunResult) (req : RunRequest) (t : Target)
  | Delete (key : string) | Bind (key session_id : string) | Cleanup (max_age : Z).
Definition run_op (o : registry_op) (now : Z) : st registry unit :=
  match o with
  | Mark_starting k req t c => mark_starting k req t c now
  | Mark_observed k s => mark_observed k s now
  | Mark_active k => mark_active k now
  | Mark_failed k => mark_failed k now
  | Upsert k r req t => _ ← upsert k r req t now; mret tt
  | Delete k => _ ← delete k; mret tt
  | Bind k s => bind k s now
  | Cleanup a => _ ← cleanup_stale a now; mret tt
  end.
Lemma delete_stale_ok cutoff now k : preserves (registry_ok now) (delete_stale cutoff k).
Proof. unfold delete_stale. preserving. by apply ok_delete. Qed.
Lemma delete_all_ok cutoff now ks n : preserves (registry_ok now) (delete_all_stale cutoff ks n).
Proof. revert n. induction ks as [|k ks IH]; intros n; simpl; preserving; [apply delete_stale_ok|apply IH]. Qed.
(** The row that [upsert] writes. *)
Definition upserted (key : string) (result : RunResult) (req : RunRequest) (t : Target) (now : Z) (rows : registry) : SessionRecord :=
  record_of (or_empty (rs_session result))
    (lower (first_of (first_of (or_empty (rq_backend req)) (rs_backend result)) "opencode"))
    (first_of (first_of (target_workdir t) (rq_workdir req)) (rs_workdir result)) (terminal_status (rs_code result)) req t
    (match dget rows key with Some r => sr_created r | None => now end) now.
Lemma upsert_run key result req t now rows : upsert key result req t now rows =
  (Ok (upserted key result req t now rows), dset rows key (upserted key result req t now rows)).
Proof. done. Qed.
Lemma terminal_status_ok c : terminal_status c ∈ STATUSES.
Proof. unfold terminal_status. destruct (c =? 0); [in_list|]. destruct (c <? 0); in_list. Qed.
Lemma upsert_ok key result req t now : preserves (registry_ok now) (upsert key result req t now).
Proof.
  intros rows Hr. rewrite upsert_run. pose proof (ok_created now key rows Hr). apply ok_put; [done|].
  split; simpl; [apply terminal_status_ok|done|lia].
Qed.
Lemma op_ok o now : preserves (registry_ok now) (run_op o now).
Proof.
  destruct o; simpl; try (apply preserves_bind; [|intros ?; apply preserves_ret]); try apply upsert_ok;
    unfold mark_starting, mark_observed, mark_active, mark_failed, delete, bind, cleanup_stale, stale_keys;
    preserving; try apply delete_all_ok; try (apply ok_delete; done);
    try (apply ok_update; [done|]; intros r Hr; first [apply ok_status|apply ok_session]; [in_list|done]).
  - match goal with Ht : registry_ok _ ?s |- _ => pose proof (ok_created now key s Ht) end. apply ok_put; [done|].
    split; simpl; [in_list|done|lia].
  - match goal with Ht : registry_ok _ ?s |- _ => destruct (dget s key) as [r|] eqn:Hr; apply ok_put; [done| |done|] end.
    + apply ok_session; [in_list|]. match goal with Ht : registry_ok _ _ |- _ => by apply (proj2 Ht key) end.
    + split; simpl; [in_list|lia..].
Qed.
(** Operations one after the other, with the times at which they run. *)
Fixpoint run_ops (l : list (registry_op * Z)) : st registry unit :=
  match l with [] => mret tt | (o, now) :: l => _ ← run_op o now; run_ops l end.
Lemma run_op_total o now rows : (run_op o now rows).1 = Ok tt.
Proof.
  destruct o; try done. simpl. unfold cleanup_stale, stale_keys. rewrite !st_bind_unfold. cbn [gets].
  generalize (map fst (List.filter (fun x => stale (now - max_age) (snd x)) rows)). intros ks. generalize 0. revert rows.
  induction ks as [|k ks IH]; intros rows n; [done|]. cbn [delete_all_stale]. rewrite st_bind_unfold.
  unfold delete_stale at 1. rewrite st_bind_unfold. cbn [gets]. destruct (dget rows k) as [r|]; [|apply IH].
  destruct (stale _ r); [|apply IH]. rewrite st_bind_unfold. cbn [modify]. apply IH.
Qed.
(** However the operations of the registry follow each other, as long as the
    clock does not go back: there is one row for each key, its status is one of
    the five, and it was not updated before it was created or after the last
    operation. *)
Theorem registry_rows_ok l now0 now1 rows : registry_ok now0 rows ->
  StronglySorted Z.le (now0 :: map snd l) -> Forall (fun x => snd x <= now1) l -> now0 <= now1 ->
  (run_ops l rows).1 = Ok tt /\ registry_ok now1 (run_ops l rows).2.
Proof.
  revert now0 rows. induction l as [|[o now] l IH]; intros now0 rows Hr Hs Hf Hle; simpl.
  { split; [done|]. by eapply ok_later. }
  apply StronglySorted_inv in Hs as [Hs Hh]. apply Forall_cons in Hh as [Hn _]. apply Forall_cons in Hf as [Hf1 Hf]. simpl in *.
  rewrite st_bind_unfold. pose proof (op_ok o now rows (ok_later _ _ _ Hn Hr)) as Hok. pose proof (run_op_total o now rows) as Ht.
  destruct (run_op o now rows) as [r rows']. simpl in *. subst r. by apply (IH now).
Qed.

(** *** The parts of the table *)
Lemma StronglySorted_weaken {A} (R S : A -> A -> Prop) l : (forall x y, R x y -> S x y) -> StronglySorted R l -> StronglySorted S l.
Proof. intros HRS. induction 1 as [|x l _ IH Hx]; constructor; [done|]. eapply Forall_impl; [exact Hx|]. auto. Qed.
(** What [upsert] returns is what a later lookup finds; the time of creation is
    that of the first row of the key. *)
Theorem upsert_looked_up key result req t now rows :
  let r := (upsert key result req t now rows) in
  exists rec, r.1 = Ok rec /\ lookup key r.2 = (Ok (Some rec), r.2) /\ (forall k, k <> key -> dget r.2 k = dget rows k) /\
    sr_created rec = match dget rows key with Some old => sr_created old | None => now end.
Proof.
  cbv zeta. rewrite upsert_run. eexists. split; [done|]. unfold lookup, gets. simpl. rewrite dget_dset_eq. split; [done|].
  split; [|done]. intros k Hk. by rewrite dget_dset_ne by (intros ->; by apply Hk).
Qed.
(** The list of the sessions holds exactly the rows that the filters admit, each
    once, the most recently updated first. *)
Theorem list_all_spec host topic rows :
  exists l, list_all host topic rows = (Ok l, rows) /\
    l ≡ₚ List.filter (wanted (or_empty host) (or_empty topic)) rows /\
    StronglySorted (fun x y => sr_updated (snd y) <= sr_updated (snd x)) l.
Proof.
  eexists. split; [done|]. split; [apply sort_by_perm|]. unfold by_recent.
  eapply StronglySorted_weaken; [|apply sort_by_sorted].
  - intros x y H. by apply Z.leb_le.
  - intros x y. rewrite !Z.leb_le. lia.
  - intros x y z. rewrite !Z.leb_le. lia.
Qed.
Lemma ddel_filter (rows : registry) k : ddel rows k = List.filter (fun x => negb (String.eqb k (fst x))) rows.
Proof. induction rows as [|[k' r] rows IH]; simpl; [done|]. destruct (k =? k')%string; simpl; by rewrite IH. Qed.
Lemma filter_filter {A} (f g : A -> bool) l : List.filter f (List.filter g l) = List.filter (fun x => g x && f x) l.
Proof. induction l as [|x l IH]; simpl; [done|]. destruct (g x); simpl; [|done]. by rewrite IH. Qed.
Lemma delete_all_stale_run cutoff ks n rows : dict_wf rows -> NoDup ks ->
  (forall k, k ∈ ks -> exists r, dget rows k = Some r /\ stale cutoff r = true) ->
  delete_all_stale cutoff ks n rows =
    (Ok (n + Z.of_nat (length ks)), List.filter (fun x => negb (bool_decide (fst x ∈ ks))) rows).
Proof.
  revert n rows. induction ks as [|k ks IH]; intros n rows Hw Hn Hk.
  { simpl. rewrite Z.add_0_r. f_equal. clear. induction rows as [|x rows IH]; simpl; [done|]. by rewrite <- IH. }
  apply NoDup_cons in Hn as [Hnk Hn]. cbn [delete_all_stale]. rewrite st_bind_unfold. unfold delete_stale at 1. rewrite st_bind_unfold. cbn [gets].
  destruct (Hk k) as (r & Hr & Hs); [by left|]. rewrite Hr, Hs, st_bind_unfold. cbn [modify].
  change ((mret 1 : st registry Z) (ddel rows k)) with (@Ok Z 1, ddel rows k). cbn beta iota. rewrite IH.
  - f_equal; [f_equal; simpl; lia|]. rewrite ddel_filter, filter_filter. apply List.filter_ext. intros [k' r']. simpl.
    destruct (String.eqb_spec k k') as [<-|Hne]; simpl.
    + by rewrite bool_decide_eq_true_2 by by left.
    + f_equal. apply bool_decide_ext. rewrite elem_of_cons. naive_solver.
  - by apply ddel_wf.
  - done.
  - intros k' Hk'. destruct (Hk k') as (r' & ? & ?); [by right|]. exists r'. rewrite dget_ddel_ne; [done|]. by intros <-.
Qed.
(** A clean-up that nothing interrupts deletes exactly the rows that have been
    starting or observed for too long, keeps the others in their order, and returns
    how many it deleted. *)
Theorem cleanup_spec max_age now rows : dict_wf rows ->
  cleanup_stale max_age now rows =
    (Ok (Z.of_nat (length (List.filter (fun x => stale (now - max_age) (snd x)) rows))),
     List.filter (fun x => negb (stale (now - max_age) (snd x))) rows).
Proof.
  intros Hw. unfold cleanup_stale, stale_keys. rewrite st_bind_unfold. cbn [gets]. set (f := fun x => stale (now - max_age) (snd x)).
  rewrite delete_all_stale_run; [|done| |].
  - rewrite length_map. f_equal. apply List.filter_ext_in. intros x Hx. f_equal. apply eq_iff_eq_true.
    rewrite bool_decide_eq_true. split.
    + intros ([k r] & Hk & [Hy Hf]%elem_of_List_filter)%list_elem_of_fmap. destruct x as [k' r']. simpl in Hk. subst k'.
      assert (Some r = Some r') as [= <-]; [|done]. rewrite <- (proj1 (dget_elem_of _ _ _ Hw) Hy).
      apply list_elem_of_In in Hx. by rewrite <- (proj1 (dget_elem_of _ _ _ Hw) Hx).
    + intros Hf. apply list_elem_of_fmap. exists x. split; [done|]. apply elem_of_List_filter. by apply list_elem_of_In in Hx.
  - by apply filter_wf.
  - intros k ([k' r] & -> & [Hx Hf]%elem_of_List_filter)%list_elem_of_fmap. exists r. split; [|done].
    by apply (dget_elem_of rows).
Qed.

(** ** The turns of a key *)
(** What matters of a row for the turns to come: the session it names, and
    whether that is one to resume. *)
Record memory := { stored : string; live : bool }.
Definition nothing : memory := {| stored := ""; live := false |}.
Definition memory_of (row : option SessionRecord) : memory :=
  match row with Some r => {| stored := sr_session r; live := String.eqb (sr_status r) "active" |} | None => nothing end.
Definition resumed (req : RunRequest) (m : memory) : option string :=
  if rq_new_session req || rq_no_auto_resume req then None
  else if live m && negb (String.eqb (stored m) "") then Some (stored m) else None.
(** What a turn leaves: [came] is the result, unless the transport raised. *)
Definition after_turn (req : RunRequest) (came : option RunResult) (m : memory) : memory :=
  let kept := if rq_new_session req then "" else stored m in
  match came with
  | None => {| stored := kept; live := false |}
  | Some r => {| stored := first_of (or_empty (rs_session r)) kept; live := rs_code r =? 0 |}
  end.
Section turns.
Context {W : Type} `{Runners W}.
Implicit Types x : registry * W.
Lemma resumed_row req row : session_to_resume req row = resumed req (memory_of row).
Proof. unfold session_to_resume, resumed. by destruct row, (rq_new_session req || rq_no_auto_resume req). Qed.
Lemma starting_row key req t c now rows : dget (mark_starting key req t c now rows).2 key =
  Some (record_of (match dget rows key with Some r => if c then "" else sr_session r | None => "" end) (key_backend req)
          (first_of (target_workdir t) (rq_workdir req)) "starting" req t
          (match dget rows key with Some r => sr_created r | None => now end) now).
Proof. unfold mark_starting, modify. simpl. by rewrite dget_dset_eq. Qed.
Lemma status_live code : String.eqb (terminal_status code) "active" = (code =? 0).
Proof. unfold terminal_status. destruct (code =? 0); [done|]. by destruct (code <? 0). Qed.
Lemma settle_spec key req t result x r0 : dget x.1 key = Some r0 -> exists x',
  settle key req t result x = (Ok tt, x') /\ (forall k, k <> key -> dget x'.1 k = dget x.1 k) /\
  memory_of (dget x'.1 key) = {| stored := first_of (or_empty (rs_session result)) (sr_session r0); live := rs_code result =? 0 |}.
Proof.
  intros Hr. unfold settle. destruct (String.eqb (or_empty (rs_session result)) "") eqn:Hs; cbn [negb].
  - apply String.eqb_eq in Hs as ->. destruct (rs_code result =? 0); eexists; (split; [done|]); simpl;
      (split; [intros k Hk; rewrite dget_update_row, decide_False by (intros ->; by apply Hk); done|]);
      by rewrite dget_update_row, decide_True, Hr.
  - rewrite !st_bind_unfold. unfold reg at 1. cbn [mark_observed modify fst snd].
    set (rows1 := update_row _ _ _). rewrite st_bind_unfold. unfold reg. rewrite upsert_run. cbn [fst snd].
    set (x1 := (dset rows1 key (upserted key result req t (clock x.2) rows1), x.2)).
    assert (Hx1 : (forall k, k <> key -> dget x1.1 k = dget x.1 k) /\
      memory_of (dget x1.1 key) = {| stored := first_of (or_empty (rs_session result)) (sr_session r0); live := rs_code result =? 0 |}).
    { split.
      - intros k Hk. unfold x1, rows1. simpl. rewrite dget_dset_ne by (intros ->; by apply Hk).
        rewrite dget_update_row, decide_False by (intros ->; by apply Hk). done.
      - unfold x1. simpl. rewrite dget_dset_eq. simpl. rewrite status_live. unfold first_of. by rewrite Hs. }
    destruct (String.prefix _ _ && _); eexists; (split; [done|]); exact Hx1.
Qed.
Lemma run_spec key req t x : let s := resumed req (memory_of (dget x.1 key)) in exists x',
  _run key req t x = (Ok (match (transported req t s x.2).1 with Ok r => r | Raise e => failed_run e end), x') /\ (forall k, k <> key -> dget x'.1 k = dget x.1 k) /\
  memory_of (dget x'.1 key) =
    after_turn req (match (transported req t s x.2).1 with Ok r => Some r | Raise _ => None end) (memory_of (dget x.1 key)).
Proof.
  cbv zeta. unfold _run. rewrite st_bind_unfold.
  assert (Hrec : exists rec, (if rq_new_session req || rq_no_auto_resume req then mret None else reg (fun _ => lookup key)) x = (Ok rec, x)
    /\ session_to_resume req rec = resumed req (memory_of (dget x.1 key))).
  { rewrite <- resumed_row. destruct (rq_new_session req || rq_no_auto_resume req) eqn:Hf.
    - exists None. split; [done|]. unfold session_to_resume. by rewrite Hf.
    - exists (dget x.1 key). split; [|done]. by destruct x. }
  destruct Hrec as (rec & -> & ->). rewrite st_bind_unfold. unfold reg at 1. set (rows1 := mark_starting _ _ _ _ _ _).
  assert (Hrow : exists r1, dget rows1.2 key = Some r1 /\
    sr_session r1 = if rq_new_session req then "" else stored (memory_of (dget x.1 key))).
  { unfold rows1. rewrite starting_row. eexists. split; [done|]. simpl. destruct (dget x.1 key), (rq_new_session req); done. }
  assert (Hoth : forall k, k <> key -> dget rows1.2 k = dget x.1 k).
  { intros k Hk. unfold rows1, mark_starting, modify. simpl. by rewrite dget_dset_ne by (intros ->; by apply Hk). }
  assert (Hok : rows1.1 = Ok tt) by done. clearbody rows1. cbn [fst snd]. rewrite Hok.
  destruct Hrow as (r1 & Hr1 & Hs1). unfold carry_out, out. cbn [fst snd].
  set (s := resumed req _). destruct (transported req t s x.2) as [[result|e] w']; cbn [fst snd].
  - destruct (settle_spec key req t result (rows1.2, w') r1 Hr1) as (x' & Hx' & Ho & Hm). rewrite st_bind_unfold, Hx'.
    exists x'. split; [done|]. split; [intros k Hk; rewrite Ho by done; by apply Hoth|]. rewrite Hm, Hs1. done.
  - eexists. split; [done|]. simpl. split.
    + intros k Hk. rewrite dget_update_row, decide_False by (intros ->; by apply Hk). by apply Hoth.
    + rewrite dget_update_row, decide_True, Hr1 by done. simpl. by rewrite Hs1.
Qed.
(** C28: A turn of a key does what its memory says: it is carried out with the
    session that the memory names when that is to be resumed, its result is handed
    to the caller, an exception of the transport becomes a result with the exit
    code 1, and it leaves the memory that [after_turn] describes; no other key is
    touched. *)
Theorem execute_refines req t x : let key := namespace_key req t in let m := memory_of (dget x.1 key) in
  let came := (transported req t (resumed req m) x.2).1 in
  (_execute req t x).1 = Ok (match came with Ok r => r | Raise e => failed_run e end) /\
  memory_of (dget (_execute req t x).2.1 key) = after_turn req (match came with Ok r => Some r | Raise _ => None end) m /\
  forall k, k <> key -> dget (_execute req t x).2.1 k = dget x.1 k.
Proof. cbv zeta. unfold _execute. by destruct (run_spec (namespace_key req t) req t x) as (x' & -> & H3 & H4). Qed.
(** A session that failed comes back: when a run that names a session fails, and
    the next one, which begins anew because of that, succeeds and names none, the
    one after is told to resume the session of the run that failed. *)
Theorem failed_session_returns req1 req2 req3 t x r1 r2 sid : let key := namespace_key req1 t in
  namespace_key req2 t = key -> namespace_key req3 t = key -> sid <> "" ->
  rq_new_session req2 = false -> rq_no_auto_resume req2 = false -> rq_new_session req3 = false -> rq_no_auto_resume req3 = false ->
  (_execute req1 t x).1 = Ok r1 -> rs_session r1 = Some sid -> rs_code r1 <> 0 ->
  let x1 := (_execute req1 t x).2 in
  (transported req2 t (resumed req2 (memory_of (dget x1.1 key))) x1.2).1 = Ok r2 -> rs_session r2 = None -> rs_code r2 = 0 ->
  let x2 := (_execute req2 t x1).2 in
  resumed req2 (memory_of (dget x1.1 key)) = None /\ resumed req3 (memory_of (dget x2.1 key)) = Some sid.
Proof.
  intros key Hk2 Hk3 Hsid Hn2 Ha2 Hn3 Ha3 H1 Hs1 Hc1 x1 H2 Hs2 Hc2 x2.
  destruct (run_spec key req1 t x) as (x1' & Hr1 & _ & Hm1). unfold _execute in H1, x1. fold key in H1, x1.
  subst x1. rewrite Hr1 in *. cbn [fst snd] in *. set (came := (transported req1 t _ x.2).1) in *.
  assert (Hcame : came = Ok r1).
  { destruct came as [r|e]; injection H1 as <-; [done|]. by simpl in Hs1. }
  rewrite Hcame in Hm1. unfold after_turn in Hm1. rewrite Hs1 in Hm1. cbn [or_empty default from_option id] in Hm1.
  apply String.eqb_neq in Hsid. unfold first_of in Hm1. rewrite Hsid in Hm1. apply Z.eqb_neq in Hc1. rewrite Hc1 in Hm1.
  assert (Hres : resumed req2 (memory_of (dget x1'.1 key)) = None) by (unfold resumed; by rewrite Hm1, Hn2, Ha2).
  split; [done|]. rewrite Hres in H2. unfold x2, _execute. rewrite Hk2, Hr1. cbn [fst snd].
  destruct (run_spec key req2 t x1') as (x2' & -> & _ & Hm2). rewrite Hres, H2 in Hm2.
  cbn [fst snd]. unfold resumed. rewrite Hm2, Hn3, Ha3. unfold after_turn. rewrite Hs2, Hn2, Hc2, Hm1. cbn. by rewrite Hsid.
Qed.
End turns.

(** ** Paths and keys *)
Definition plain_part (c : string) : Prop := c <> "" /\ c <> "." /\ c <> ".." /\ has_char slash c = false.
(** A path from the root without empty parts, dots and double dots. *)
Definition settled_path (p : string) : Prop := exists s parts, (s = "/" \/ s = "//") /\ Forall plain_part parts /\
  p = s +:+ String.concat "/" parts.
Lemma split_all_no_char c s : Forall (fun w => has_char c w = false) (split_all c s).
Proof.
  induction s as [|d s IH]; simpl; [by repeat constructor|]. destruct (Ascii.eqb c d) eqn:Hd; [by constructor|].
  destruct (split_all c s) as [|w ws]; inv IH; constructor; try done; apply has_char_false; simpl; rewrite Hd; [done|].
  by apply has_char_false.
Qed.
Lemma norm_parts_plain comps acc : Forall (fun w => has_char slash w = false) comps -> Forall plain_part acc ->
  Forall plain_part (norm_parts true comps acc).
Proof.
  revert acc. induction comps as [|c comps IH]; intros acc Hc Ha; simpl; [by apply Forall_rev|].
  apply Forall_cons in Hc as [Hc Hcs]. destruct (String.eqb_spec c ""); [by apply IH|].
  destruct (String.eqb_spec c "."); [by apply IH|]. cbn [orb].
  assert (Htop : match acc with d :: _ => String.eqb d ".." | [] => false end = false).
  { destruct Ha as [|d acc (_ & _ & Hd & _)]; [done|]. by apply String.eqb_neq. }
  rewrite Htop, orb_false_r. destruct (String.eqb_spec c ".."); simpl; apply IH; try done.
  - destruct Ha; [constructor|done].
  - by constructor.
Qed.
Lemma norm_parts_same parts acc : Forall plain_part parts -> norm_parts true parts acc = rev acc ++ parts.
Proof.
  intros Hp. revert acc. induction Hp as [|c parts (H1 & H2 & H3 & _) _ IH]; intros acc; simpl; [by rewrite app_nil_r|].
  apply String.eqb_neq in H1, H2, H3. rewrite H1, H2, H3. simpl. rewrite IH. simpl. by rewrite <- app_assoc.
Qed.
Lemma split_all_one c s : has_char c s = false -> split_all c s = [s].
Proof.
  intros Hs%has_char_false. induction s as [|d s IH]; [done|]. simpl in *. apply andb_true_iff in Hs as [Hd%negb_true_iff Hs].
  by rewrite Hd, IH.
Qed.
Lemma split_all_app c s t : has_char c s = false -> split_all c (s +:+ String c t) = s :: split_all c t.
Proof.
  intros Hs%has_char_false. induction s as [|d s IH]; simpl; [by rewrite Ascii.eqb_refl|]. simpl in Hs.
  apply andb_true_iff in Hs as [Hd%negb_true_iff Hs]. by rewrite Hd, IH.
Qed.
Lemma split_concat parts : parts <> [] -> Forall (fun w => has_char slash w = false) parts ->
  split_all slash (String.concat "/" parts) = parts.
Proof.
  intros Hne Hp. induction Hp as [|w [|v parts] Hw _ IH]; [done|by apply split_all_one|].
  change (String.concat "/" (w :: v :: parts)) with (w +:+ String slash (String.concat "/" (v :: parts))).
  by rewrite split_all_app, IH.
Qed.
Lemma concat_head parts : Forall plain_part parts -> String.prefix "/" (String.concat "/" parts) = false.
Proof.
  intros [|c parts' (Hc & _ & _ & Hs)]; [done|]. destruct c as [|d c]; [done|]. apply has_char_false in Hs. cbn [all_chars] in Hs.
  apply andb_true_iff in Hs as [Hd%negb_true_iff _]. assert (Ha : slash <> d) by (intros <-; by rewrite Ascii.eqb_refl in Hd).
  assert (Hp : forall s, String.prefix "/" (String d s) = false).
  { intros s. cbn [String.prefix]. destruct (Ascii.ascii_dec _ d) as [He|]; [by destruct Ha|done]. }
  destruct parts'; apply Hp.
Qed.
Lemma rooted_spec p : String.prefix "/" p = true <-> exists r, p = String slash r.
Proof.
  split; [|intros [r ->]; cbn [String.prefix]; destruct (Ascii.ascii_dec _ slash) as [_|Hn]; [by destruct r|by destruct Hn]].
  destruct p as [|c r]; [done|]. cbn [String.prefix]. destruct (Ascii.ascii_dec _ c) as [<-|]; [by exists r|done].
Qed.
Lemma initial_of s q : s = "/" \/ s = "//" -> String.prefix "/" q = false -> initial_slashes (s +:+ q) = s.
Proof.
  intros Hs Hq. assert (Hp : forall r, String.prefix "/" (String slash r) = true) by (intros r; apply rooted_spec; by exists r).
  assert (Hpp : forall r r', String.prefix (String slash r) (String slash r') = String.prefix r r').
  { intros r r'. cbn [String.prefix]. by destruct (Ascii.ascii_dec slash slash) as [_|Hn]; [|destruct Hn]. }
  unfold initial_slashes. change "///" with (String slash "//"). change "//" with (String slash "/") in *.
  destruct Hs as [-> | ->].
  - change ("/" +:+ q) with (String slash q). by rewrite Hp, !Hpp, Hq.
  - change (String slash "/" +:+ q) with (String slash (String slash q)). rewrite (Hp (String slash q)), (Hpp "/" (String slash q)), (Hp q), (Hpp (String slash "/") (String slash q)), (Hpp "/" q). by rewrite Hq.
Qed.
Lemma initial_cases p : String.prefix "/" p = true -> initial_slashes p = "/" \/ initial_slashes p = "//".
Proof. intros Hp. unfold initial_slashes. rewrite Hp. simpl. destruct (_ && _); auto. Qed.
Lemma normpath_rooted p : String.prefix "/" p = true -> settled_path (normpath p).
Proof.
  intros Hp. exists (initial_slashes p), (norm_parts true (split_all slash p) []).
  split; [by apply initial_cases|]. split; [apply norm_parts_plain; [apply split_all_no_char|constructor]|].
  unfold normpath. by destruct (initial_cases p Hp) as [-> | ->].
Qed.
Lemma normpath_settled p : settled_path p -> normpath p = p.
Proof.
  intros (s & parts & Hs & Hp & ->). unfold normpath. rewrite initial_of by (done || by apply concat_head).
  assert (Hr : negb (String.eqb s "") = true) by (by destruct Hs as [-> | ->]). rewrite Hr.
  assert (Hn : norm_parts true (split_all slash (s +:+ String.concat "/" parts)) [] = parts).
  { assert (Hq : norm_parts true (split_all slash (String.concat "/" parts)) [] = parts).
    { destruct parts as [|c parts]; [done|]. rewrite split_concat; [by rewrite norm_parts_same|done|].
      eapply Forall_impl; [exact Hp|]. by intros w (_ & _ & _ & Hw). }
    by destruct Hs as [-> | ->]. }
  rewrite Hn. by destruct Hs as [-> | ->].
Qed.
Section key_laws.
Context (expand_path : string -> string) (getcwd : string).
Notation normalize := (_normalize_workdir expand_path getcwd).
(** Whatever a working directory is given as, what the key has is a path from
    the root without empty parts, dots and double dots, which a further
    normalization leaves as it is. *)
Theorem workdir_settled path : String.prefix "/" getcwd = true ->
  settled_path (normalize path) /\ normpath (normalize path) = normalize path /\ abspath getcwd (normalize path) = normalize path.
Proof.
  intros Hcwd. assert (Hs : settled_path (normalize path)).
  { unfold _normalize_workdir, abspath. set (p := expand_path _).
    assert (Hp : String.prefix "/" (if String.prefix "/" p then p else path_join getcwd p) = true).
    { destruct (String.prefix "/" p) eqn:Hp; [done|]. unfold path_join. rewrite Hp.
      apply rooted_spec in Hcwd as [w ->]. apply rooted_spec. destruct (String.eqb _ "" || _); by eexists. }
    rewrite (normpath_settled (normpath _)) by by apply normpath_rooted. by apply normpath_rooted. }
  split; [done|]. split; [by apply normpath_settled|]. unfold abspath.
  assert (Hp : String.prefix "/" (normalize path) = true).
  { apply rooted_spec. destruct Hs as (s & parts & [-> | ->] & _ & ->); by eexists. }
  rewrite Hp. by apply normpath_settled.
Qed.
Definition key_parts (req : RunRequest) (t : Target) : string * string * string * string :=
  (key_host t, normalize (first_of (target_workdir t) (rq_workdir req)), key_backend req, or_empty (rq_agent req)).
Definition colon : ascii := ascii_of_N 58.
(** The parts but the working directory have no colon. *)
Definition no_colon (req : RunRequest) (t : Target) : Prop :=
  has_char colon (key_host t) = false /\ has_char colon (key_backend req) = false /\ has_char colon (or_empty (rq_agent req)) = false.
(** Two runs have the same key exactly when they agree on the host, the working
    directory, the backend and the agent, as long as none of these but the
    directory has a colon in it; the model plays no part. *)
Theorem key_determines req t req' t' : no_colon req t -> no_colon req' t' ->
  compute_session_key expand_path getcwd req t = compute_session_key expand_path getcwd req' t' <->
  key_parts req t = key_parts req' t'.
Proof.
  intros (H1 & H2 & H3) (H1' & H2' & H3'). unfold compute_session_key, key_parts.
  set (w := normalize _). set (w' := normalize _). clearbody w w'.
  set (h := key_host t) in *. set (h' := key_host t') in *. set (b := key_backend req) in *. set (b' := key_backend req') in *.
  set (a := or_empty (rq_agent req)) in *. set (a' := or_empty (rq_agent req')) in *.
  split; [|by intros [= -> -> -> ->]]. intros He.
  assert (Hsplit : forall h r, has_char colon h = false -> split1 colon (h +:+ ":" +:+ r) = Some (h, r)) by (intros; by apply split1_app).
  assert (Hrsplit : forall s a, has_char colon a = false -> rsplit1 colon (s +:+ ":" +:+ a) = Some (s, a)).
  { intros s0 a0 Ha. apply rsplit1_app, rsplit1_none. by apply has_char_false. }
  pose proof (Hsplit h (w +:+ ":" +:+ b +:+ ":" +:+ a) H1) as E1. rewrite He, Hsplit in E1 by done. injection E1 as <- E1.
  pose proof (Hrsplit (w +:+ ":" +:+ b) a H3) as E2. rewrite !string_app_assoc in E2. rewrite <- E1 in E2.
  rewrite <- !string_app_assoc in E2. rewrite (string_app_assoc _ ":" a'), (string_app_assoc w' ":" b') in E2.
  rewrite Hrsplit in E2 by done. injection E2 as E2 <-.
  rewrite string_app_assoc in E2. pose proof (Hrsplit w b H2) as E3. rewrite <- E2, Hrsplit in E3 by done. by injection E3 as <- <-.
Qed.
End key_laws.
(** Without that, different runs share a key. *)
Theorem keys_meet : exists (req req' : RunRequest) (t t' : Target),
  key_parts id "/" req t <> key_parts id "/" req' t' /\
  compute_session_key id "/" req t = compute_session_key id "/" req' t'.
Proof.
  pose (tgt := fun p => {| tg_host := _LOCAL_HOST; tg_repo := {| re_host := ""; re_path := p; re_note := VNone |}; tg_topic := None;
                           tg_index := 0; is_local := true |}).
  pose (rq := fun a => {| rq_task := ""; rq_workdir := ""; rq_backend := Some "omp"; rq_agent := Some a; rq_model := None; rq_skills := None; rq_skip_permissions := true; rq_raw := false;
    rq_session_key := None; rq_new_session := false; rq_no_auto_resume := false; rq_topic := None; rq_repo_index := 0;
    rq_host := None; rq_timeout := 600; rq_resume := None; rq_request_id := ""; rq_run_id := ""; rq_review_key := "";
    rq_require_ack := false; rq_capabilities := [] |}).
  exists (rq "omp:x"), (rq "x"), (tgt "/a"), (tgt "/a:omp"). split; [|by vm_compute]. vm_compute. discriminate.
Qed.

(** ** A machine that answers from a list *)
Record scripted := { sc_results : list RunResult; sc_asked : list (option string) }.
#[export] Instance scripted_runners : Runners scripted := {|
  host_name := "desk"; relay_config := None; clock := fun w => 1000 + Z.of_nat (length (sc_asked w)); environment := id; cwd := "/home/u";
  warm := fun _ _ => mret tt;
  run_on := fun _ _ _ _ session w =>
    let w' := {| sc_results := tail (sc_results w); sc_asked := sc_asked w ++ [session] |} in
    match sc_results w with r :: _ => (Ok r, w') | [] => (Raise (AppError "TransportError" "unreachable"), w') end;
  park_acquire := fun _ _ _ w => w |}.
Definition answer (code : Z) (session : option string) : RunResult := {|
  rs_code := code; rs_stdout := ""; rs_stderr := ""; rs_session := session; rs_backend := ""; rs_host := ""; rs_workdir := "" |}.
Definition plain_request (agent : option string) (workdir : string) : RunRequest := {|
  rq_task := ""; rq_workdir := workdir; rq_backend := Some "omp"; rq_agent := agent; rq_model := None; rq_skills := None; rq_skip_permissions := true; rq_raw := false; rq_session_key := None;
  rq_new_session := false; rq_no_auto_resume := false; rq_topic := None; rq_repo_index := 0; rq_host := None; rq_timeout := 600;
  rq_resume := None; rq_request_id := ""; rq_run_id := ""; rq_review_key := ""; rq_require_ack := false; rq_capabilities := [] |}.
Definition plain_target : Target := _resolve_local_fallback (plain_request None "").
Definition demo_turns : registry * scripted :=
  ([], {| sc_results := [answer 1 (Some "s-broken"); answer 0 None; answer 0 None]; sc_asked := [] |}).
Lemma failed_session_returns_witness : let req := plain_request None "" in let x1 := (_execute req plain_target demo_turns).2 in
  let x2 := (_execute req plain_target x1).2 in let x3 := (_execute req plain_target x2).2 in
  resumed req (memory_of (dget x2.1 (namespace_key req plain_target))) = Some "s-broken" /\
  sc_asked x3.2 = [None; None; Some "s-broken"].
Proof.
  cbv zeta. split; [|vm_compute; reflexivity].
  apply (failed_session_returns (plain_request None "") (plain_request None "") (plain_request None "") plain_target demo_turns
    (answer 1 (Some "s-broken")) (answer 0 None) "s-broken"); first [reflexivity | discriminate | vm_compute; reflexivity].
Defined.
Lemma registry_rows_ok_witness :
  let l := [(Mark_starting "k" (plain_request None "") plain_target false, 5); (Bind "j" "s", 6);
            (Upsert "k" (answer (-9) (Some "s2")) (plain_request None "") plain_target, 8); (Cleanup 1, 9)] in
  registry_ok 10 (run_ops l []).2 /\ length (run_ops l []).2 = 2%nat.
Proof.
  cbv zeta. split; [|vm_compute; reflexivity]. eapply (registry_rows_ok _ 0 10 []).
  - split; [constructor|apply all_at_nil].
  - repeat constructor; simpl; lia.
  - repeat constructor; simpl; lia.
  - lia.
Defined.
Lemma key_determines_witness : let req := plain_request (Some "w") "" in let req' := plain_request (Some "v") "" in
  compute_session_key id "/home/u" req plain_target <> compute_session_key id "/home/u" req' plain_target.
Proof.
  cbv zeta. intros He. apply (key_determines id "/home/u" (plain_request (Some "w") "") plain_target
    (plain_request (Some "v") "") plain_target) in He; [vm_compute in He; discriminate|repeat split; vm_compute; reflexivity..].
Defined.
Lemma workdir_settled_witness : normpath (_normalize_workdir id "/home/u" "../v//x/./y/..") = "/home/v/x" /\
  settled_path (_normalize_workdir id "/home/u" "../v//x/./y/..").
Proof. split; [vm_compute; reflexivity|]. apply (workdir_settled id "/home/u" "../v//x/./y/.."). reflexivity. Defined.
Lemma cleanup_spec_witness : let rows := (run_ops [(Mark_starting "k" (plain_request None "") plain_target false, 5); (Bind "j" "s", 6)] []).2 in
  exists r, cleanup_stale 10 100 rows = (Ok 1, [("j", r)]).
Proof. cbv zeta. eexists. rewrite (cleanup_spec 10 100); [vm_compute; reflexivity|]. vm_compute. repeat constructor; set_solver. Defined.
