(* ===== verification/SessionLock.v ===== *)
(** * Locks and the turns they keep apart
    (src/src/codeagent/session/lock.py, and the locking of session/registry.py)

    [locks] is what the threads of all processes and the file system know of the
    locks; [session_step] interleaves the threads with each other and with the
    operations that they do on the registry under a lock. *)
From S2P Require Import Prelude Routing AgentSession.

(** A process and one of its threads. *)
Definition thread : Type := nat * nat.
(** [flocks]: the locked files, each with the thread and the key whose descriptor
    holds the lock.  [depths]: how often a thread has acquired a key, if at all;
    a [_LockState] of depth 0 is as good as none. *)
Record locks := { flocks : gmap string (thread * string); depths : gmap (thread * string) nat }.
Definition no_locks : locks := {| flocks := ∅; depths := ∅ |}.
Section locks.
Context (runtime_dir : string) (sha256 : string -> string).
Definition _lock_path (key : string) : string := runtime_dir +:+ "/" +:+ str_take 16 (sha256 key) +:+ ".lock".
Definition depth (t : thread) (key : string) (l : locks) : nat := default 0%nat (depths l !! (t, key)).
Definition locked (t : thread) (key : string) (l : locks) : bool := Nat.ltb 0 (depth t key l).
Definition set_depth (t : thread) (key : string) (n : nat) (l : locks) : locks :=
  {| flocks := flocks l; depths := <[(t, key) := n]> (depths l) |}.
(** [None]: the call waits. *)
Definition acquire (t : thread) (key : string) (blocking : bool) (l : locks) : option (bool * locks) :=
  if locked t key l then Some (true, set_depth t key (S (depth t key l)) l) else
  match flocks l !! _lock_path key with
  | None => Some (true, {| flocks := <[_lock_path key := (t, key)]> (flocks l); depths := <[(t, key) := 1%nat]> (depths l) |})
  | Some _ => if blocking then None else Some (false, l)
  end.
Definition release (t : thread) (key : string) (l : locks) : locks :=
  match depth t key l with
  | O => l
  | 1%nat => {| flocks := base.delete (_lock_path key) (flocks l); depths := base.delete (t, key) (depths l) |}
  | S n => set_depth t key n l
  end.
(** When a process ends, the system closes its descriptors. *)
Definition died (p : nat) (l : locks) : locks := {|
  flocks := filter (fun x => (x.2.1).1 <> p) (flocks l); depths := filter (fun x => (x.1.1).1 <> p) (depths l) |}.

(** *** The locks agree with the files *)
Record locks_ok (l : locks) : Prop := {
  lo_held : forall p t k, flocks l !! p = Some (t, k) <-> _lock_path k = p /\ locked t k l = true;
  lo_positive : forall x n, depths l !! x = Some n -> (0 < n)%nat }.
Lemma locked_insert t k n t' k' l : (0 < n)%nat ->
  locked t' k' (set_depth t k n l) = if decide ((t, k) = (t', k')) then true else locked t' k' l.
Proof.
  intros Hn. unfold locked, depth, set_depth. simpl. case_decide as He.
  - rewrite <- He, lookup_insert_eq. simpl. by apply Nat.ltb_lt.
  - by rewrite lookup_insert_ne.
Qed.
Lemma ok_empty : locks_ok no_locks.
Proof. split; simpl; [|by intros x n; rewrite lookup_empty]. intros p t k. rewrite lookup_empty. by split; [|intros [_ ?]]. Qed.
Lemma ok_acquire t k b l r l' : locks_ok l -> acquire t k b l = Some (r, l') -> locks_ok l'.
Proof.
  intros [Hh Hp]. unfold acquire. destruct (locked t k l) eqn:Hl.
  - intros [= <- <-]. split.
    + intros p t' k'. rewrite locked_insert by lia. simpl. rewrite Hh. case_decide as He; [|done]. by injection He as <- <-; rewrite Hl.
    + intros x n. simpl. rewrite lookup_insert_Some. intros [[_ <-]|[_ ?]]; [lia|eauto].
  - destruct (flocks l !! _lock_path k) as [o|] eqn:Hf; [destruct b; [done|intros [= <- <-]; by split]|].
    intros [= <- <-]. split.
    + intros p t' k'. change {| flocks := ?f; depths := <[(t, k) := 1%nat]> (depths l) |} with
        (set_depth t k 1 {| flocks := f; depths := depths l |}). rewrite locked_insert by lia. simpl.
      rewrite lookup_insert_Some, Hh. case_decide as He.
      * injection He as <- <-. naive_solver.
      * assert (Hd : locked t' k' {| flocks := <[_lock_path k:=(t, k)]> (flocks l); depths := depths l |} = locked t' k' l) by done.
        rewrite Hd. split; [intros [[? ?]|[? ?]]; [congruence|done]|]. intros [<- Hl']. right. split; [|done].
        intros Heq. assert (Hx : flocks l !! _lock_path k' = Some (t', k')) by by apply Hh. rewrite <- Heq, Hf in Hx. done.
    + intros x n. simpl. rewrite lookup_insert_Some. intros [[_ <-]|[_ ?]]; [lia|eauto].
Qed.
Lemma ok_release t k l : locks_ok l -> locks_ok (release t k l).
Proof.
  intros [Hh Hp]. unfold release. destruct (depth t k l) as [|[|n]] eqn:Hd; [done| |].
  - assert (Hl : locked t k l = true) by (unfold locked; by rewrite Hd). split; simpl.
    + intros p t' k'. rewrite lookup_delete_Some, Hh.
      unfold locked, depth. simpl. destruct (decide ((t, k) = (t', k'))) as [He|He].
      * injection He as <- <-. rewrite lookup_delete_eq. simpl. naive_solver.
      * rewrite lookup_delete_ne by done. split; [tauto|]. intros [<- Hl']. split; [|done]. intros Heq.
        assert (H1 : flocks l !! _lock_path k' = Some (t', k')) by by apply Hh.
        assert (H2 : flocks l !! _lock_path k = Some (t, k)) by by apply Hh. rewrite Heq in H2. congruence.
    + intros x n. rewrite lookup_delete_Some. intros [_ ?]. eauto.
  - split.
    + intros p t' k'. rewrite locked_insert by lia. simpl. rewrite Hh. case_decide as He; [|done]. injection He as <- <-.
      unfold locked. by rewrite Hd.
    + intros x m. simpl. rewrite lookup_insert_Some. intros [[_ <-]|[_ ?]]; [lia|eauto].
Qed.
Lemma depths_died t k p l : t.1 <> p -> depths (died p l) !! (t, k) = depths l !! (t, k).
Proof. intros Hp. apply option_eq. intros n. simpl. rewrite map_lookup_filter_Some. naive_solver. Qed.
Lemma depths_ended t k p l : t.1 = p -> depths (died p l) !! (t, k) = None.
Proof. intros Hp. apply eq_None_not_Some. intros [n Hn]. simpl in Hn. rewrite map_lookup_filter_Some in Hn. naive_solver. Qed.
Lemma flocks_died q t k p l : flocks (died p l) !! q = Some (t, k) <-> flocks l !! q = Some (t, k) /\ t.1 <> p.
Proof. simpl. by rewrite map_lookup_filter_Some. Qed.
Lemma ok_died p l : locks_ok l -> locks_ok (died p l).
Proof.
  intros [Hh Hp]. split.
  - intros q t k. rewrite flocks_died, Hh. unfold locked, depth. destruct (decide (t.1 = p)) as [He|He].
    + rewrite depths_ended by done. naive_solver.
    + rewrite depths_died by done. naive_solver.
  - intros x n. simpl. rewrite map_lookup_filter_Some. intros [? _]. eauto.
Qed.
Lemma one_holder t k t' k' l : locks_ok l -> _lock_path k = _lock_path k' -> locked t k l = true -> locked t' k' l = true ->
  t = t' /\ k = k'.
Proof.
  intros [Hh _] Hp Hl Hl'. assert (H1 : flocks l !! _lock_path k = Some (t, k)) by by apply Hh.
  assert (H2 : flocks l !! _lock_path k' = Some (t', k')) by by apply Hh. rewrite Hp in H1. split; congruence.
Qed.
(** What a thread acquires and then releases is as it was: an acquisition inside
    another one of the same key does not give the lock up when it ends. *)
Theorem release_undoes t k b l l' : locks_ok l -> acquire t k b l = Some (true, l') -> release t k l' = l.
Proof.
  intros [Hh Hp]. unfold acquire. destruct (locked t k l) eqn:Hl.
  - intros [= <-]. unfold release, depth, set_depth. simpl. rewrite lookup_insert_eq. simpl.
    unfold locked, depth in Hl. destruct (depths l !! (t, k)) as [[|n]|] eqn:Hd; try done. simpl.
    rewrite insert_insert_eq, insert_id by done. by destruct l.
  - destruct (flocks l !! _lock_path k) eqn:Hf; [by destruct b|]. intros [= <-]. unfold release, depth. simpl.
    rewrite lookup_insert_eq. simpl. rewrite !delete_insert_id; [by destruct l| |done].
    destruct (depths l !! (t, k)) as [n|] eqn:Hd; [|done]. exfalso. unfold locked, depth in Hl. rewrite Hd in Hl. simpl in Hl.
    apply Nat.ltb_ge in Hl. specialize (Hp _ _ Hd). lia.
Qed.
(** The lock of a key is that of its file: as long as a thread has it, every other
    acquisition of a key with the same file waits or is refused, be it by another
    thread of the same process, or by the thread itself when two keys share a
    file, which then waits for itself. *)
Theorem shared_file_waits t k t' k' l : locks_ok l -> locked t k l = true -> _lock_path k = _lock_path k' -> (t, k) <> (t', k') ->
  acquire t' k' true l = None /\ acquire t' k' false l = Some (false, l).
Proof.
  intros Hok Hl Hp Hne. unfold acquire. destruct (locked t' k' l) eqn:Hl'.
  { exfalso. apply Hne. by destruct (one_holder t k t' k' l Hok Hp Hl Hl') as [-> ->]. }
  assert (Hf : flocks l !! _lock_path k' = Some (t, k)) by by apply (lo_held _ Hok). by rewrite Hf.
Qed.

(** ** Turns *)
Definition session_lock (key : string) : string := "session:" +:+ key.
Definition op_key (o : registry_op) : option string :=
  match o with
  | Mark_starting k _ _ _ | Mark_observed k _ | Mark_active k | Mark_failed k | Upsert k _ _ _ | Delete k | Bind k _ => Some k
  | Cleanup _ => None
  end.
Record shared := { sh_locks : locks; sh_rows : registry }.
(** A step of a thread; the write of an operation, and each deletion of a clean-up,
    is made while the lock of its key is held. *)
Inductive session_step : thread -> shared -> shared -> Prop :=
  | step_acquire t k b r l s : acquire t k b (sh_locks s) = Some (r, l) -> session_step t s {| sh_locks := l; sh_rows := sh_rows s |}
  | step_release t k s : session_step t s {| sh_locks := release t k (sh_locks s); sh_rows := sh_rows s |}
  | step_write t o k now s : op_key o = Some k -> locked t (session_lock k) (sh_locks s) = true ->
      session_step t s {| sh_locks := sh_locks s; sh_rows := (run_op o now (sh_rows s)).2 |}
  | step_clean t k cutoff s : locked t (session_lock k) (sh_locks s) = true ->
      session_step t s {| sh_locks := sh_locks s; sh_rows := (delete_stale cutoff k (sh_rows s)).2 |}
  | step_died t s : session_step t s {| sh_locks := died t.1 (sh_locks s); sh_rows := sh_rows s |}.
(** A step of another process, or of another thread that does not end the process. *)
Definition other_step (t : thread) (s s' : shared) : Prop :=
  exists t', t' <> t /\ session_step t' s s' /\ (t'.1 = t.1 -> s' <> {| sh_locks := died t.1 (sh_locks s); sh_rows := sh_rows s |}).
Lemma op_other o k now rows k' : op_key o = Some k -> k' <> k -> dget (run_op o now rows).2 k' = dget rows k'.
Proof.
  intros Ho Hk. assert (Hk' : k <> k') by (intros ->; by apply Hk).
  destruct o; try done; injection Ho as ->; cbn [run_op]; unfold mark_starting, mark_observed, mark_active, mark_failed, delete, bind;
    rewrite ?st_bind_unfold, ?upsert_run; cbn; rewrite ?dget_update_row, ?decide_False, ?dget_dset_ne by done; try done.
  - change (dget (ddel rows k) k' = dget rows k'). by rewrite dget_ddel_ne.
  - destruct (dget rows k); by rewrite dget_dset_ne.
Qed.
Lemma clean_other cutoff k rows k' : k' <> k -> dget (delete_stale cutoff k rows).2 k' = dget rows k'.
Proof.
  intros Hk. unfold delete_stale. rewrite st_bind_unfold. cbn [gets]. destruct (dget rows k) as [r|]; [|done].
  destruct (stale cutoff r); [|done]. change (dget (ddel rows k) k' = dget rows k'). by rewrite dget_ddel_ne by (intros ->; by apply Hk).
Qed.
Lemma depth_acquire t k t' k' b r l l' : (t, k) <> (t', k') -> acquire t' k' b l = Some (r, l') -> depth t k l' = depth t k l.
Proof.
  intros Hne. unfold acquire. destruct (locked t' k' l); [|destruct (flocks l !! _); [destruct b|]]; try done; intros [= <- <-]; try done;
    unfold depth; simpl; by rewrite lookup_insert_ne by (intros ?; by apply Hne).
Qed.
Lemma depth_release t k t' k' l : (t, k) <> (t', k') -> depth t k (release t' k' l) = depth t k l.
Proof.
  intros Hne. unfold release. destruct (depth t' k' l) as [|[|n]]; [done|..]; unfold depth; simpl;
    rewrite ?lookup_delete_ne, ?lookup_insert_ne by (intros ?; by apply Hne); done.
Qed.
Lemma depth_died t k p l : t.1 <> p -> depth t k (died p l) = depth t k l.
Proof.
  intros Hp. unfold depth. by rewrite depths_died.
Qed.
Lemma step_keeps_ok t s s' : session_step t s s' -> locks_ok (sh_locks s) -> locks_ok (sh_locks s').
Proof. intros [] Hok; simpl; [by eapply ok_acquire|by apply ok_release|done..|by apply ok_died]. Qed.
(** C29: While a thread has the lock of a key, as [_execute] does for a whole turn, the
    row of the key is its own: whatever the other threads and processes do
    meanwhile, clean-ups included, the row stays as it is and so does the lock. *)
Theorem turn_isolated t key s s' : locks_ok (sh_locks s) -> locked t (session_lock key) (sh_locks s) = true ->
  rtc (other_step t) s s' ->
  dget (sh_rows s') key = dget (sh_rows s) key /\ depth t (session_lock key) (sh_locks s') = depth t (session_lock key) (sh_locks s) /\
  locks_ok (sh_locks s').
Proof.
  intros Hok Hl Hs. induction Hs as [s|s s1 s2 Hstep Hs IH]; [done|].
  assert (H1 : dget (sh_rows s1) key = dget (sh_rows s) key /\
    depth t (session_lock key) (sh_locks s1) = depth t (session_lock key) (sh_locks s) /\ locks_ok (sh_locks s1)).
  { destruct Hstep as (t' & Hne & Hstep & Hnd). pose proof (step_keeps_ok _ _ _ Hstep Hok) as Hok1.
    assert (Hkey : forall k, locked t' (session_lock k) (sh_locks s) = true -> key <> k).
    { intros k Hk <-. by destruct (one_holder t (session_lock key) t' (session_lock key) (sh_locks s)) as [-> _]. }
    destruct Hstep as [t' k b r l s Ha|t' k s|t' o k now s Ho Hk|t' k cutoff s Hk|t' s]; simpl in *.
    - split_and!; [done| |done]. eapply depth_acquire; [|done]. congruence.
    - split_and!; [done| |done]. apply depth_release. congruence.
    - split_and!; [|done..]. by eapply op_other, Hkey.
    - split_and!; [|done..]. by apply clean_other, Hkey.
    - split_and!; [done| |done]. apply depth_died. intros He. by apply Hnd; [|rewrite He]. }
  destruct H1 as (Hr & Hd & Hok1). destruct IH as (Hr2 & Hd2 & Hok2); [done|unfold locked in *; by rewrite Hd|].
  split_and!; [congruence|congruence|done].
Qed.
End locks.

(** ** Two threads *)
Definition demo_locks : locks := match acquire "/run" id (1, 1)%nat (session_lock "k") true no_locks with Some (_, l) => l | None => no_locks end.
Definition demo_shared : shared := {| sh_locks := demo_locks; sh_rows := (run_ops [(Bind "k" "s", 6); (Bind "j" "s", 6)] []).2 |}.
Lemma demo_locks_ok : locks_ok "/run" id demo_locks.
Proof. apply (ok_acquire "/run" id (1, 1)%nat (session_lock "k") true no_locks true); [apply ok_empty|vm_compute; reflexivity]. Qed.
Lemma shared_file_waits_witness : acquire "/run" id (1, 2)%nat (session_lock "k") true demo_locks = None.
Proof.
  apply (shared_file_waits "/run" id (1, 1)%nat (session_lock "k") (1, 2)%nat (session_lock "k") demo_locks);
    [apply demo_locks_ok|reflexivity|reflexivity|discriminate].
Defined.
Lemma release_undoes_witness : exists l, acquire "/run" id (1, 1)%nat (session_lock "k") true demo_locks = Some (true, l) /\
  release "/run" id (1, 1)%nat (session_lock "k") l = demo_locks.
Proof.
  eexists. split; [reflexivity|]. apply (release_undoes "/run" id (1, 1)%nat (session_lock "k") true demo_locks);
    [apply demo_locks_ok|reflexivity].
Defined.
(** Another process deletes the row "j" under its lock and tries the lock of "k". *)
Lemma turn_isolated_witness : exists s', rtc (other_step "/run" id (1, 1)%nat) demo_shared s' /\
  dget (sh_rows s') "j" = None /\ dget (sh_rows s') "k" = dget (sh_rows demo_shared) "k".
Proof.
  destruct (acquire "/run" id (2, 1)%nat (session_lock "j") true demo_locks) as [[b l]|] eqn:Ha; [|vm_compute in Ha; discriminate].
  exists {| sh_locks := l; sh_rows := (run_op (Delete "j") 7 (sh_rows demo_shared)).2 |}.
  assert (Hs : rtc (other_step "/run" id (1, 1)%nat) demo_shared
    {| sh_locks := l; sh_rows := (run_op (Delete "j") 7 (sh_rows demo_shared)).2 |}).
  { eapply rtc_l with (y := {| sh_locks := l; sh_rows := sh_rows demo_shared |}).
    - exists (2, 1)%nat. split; [done|]. split; [|done]. by eapply step_acquire.
    - apply rtc_once. exists (2, 1)%nat. split; [done|]. split; [|done].
      apply (step_write _ _ (2, 1)%nat (Delete "j") "j" 7 {| sh_locks := l; sh_rows := sh_rows demo_shared |}); [done|].
      vm_compute in Ha. injection Ha. intros <- _. reflexivity. }
  split; [exact Hs|]. split; [vm_compute; reflexivity|].
  apply (turn_isolated "/run" id (1, 1)%nat "k" demo_shared _ demo_locks_ok); [reflexivity|exact Hs].
Defined.
