(* ===== verification/OracleResult.v ===== *)
(** * What an oracle answered
    (src/src/codeagent/oracle.py: the anchor of the latest question, the sources of
    a result, waiting for one)

    Of the interactive manager of reviews this models how an answer is found and
    told from an older one: [meta.json] with the anchor of the latest question,
    [_extract_assistant_messages] over the transcript of a session,
    [_scan_mailbox_report] over the mailboxes, [cmd_oracle_result] over both and
    [_wait_for_new_output] over the events of the gateway. Times are in milliseconds.
    What the disk and the gateway hold is an argument: the lines of a transcript with
    what they parse to, the histories and the files of the mailboxes, and for a wait
    the events of each page, the transcript at the moment of each event, and the
    outcome of a recovery. Which file belongs to a session, the cursor of the pages,
    the texts that are printed around a result and the commands of a recovery are
    left out. *)
From S2P Require Import Prelude Wire RemoteExec Exchange Receiver Routing.
From Stdlib Require Import Floats.SpecFloat.

(** ** Truncation *)
Fixpoint str_drop (n : nat) (s : string) : string :=
  match s with
  | "" => ""
  | String c s' => if is_cont c then str_drop n s' else match n with O => s | S n' => str_drop n' s' end
  end.
Definition byte_len (s : string) : Z := Z.of_nat (String.length s).
(** [s.encode()[:n].decode(errors="ignore")]: the characters that fit in [n] bytes. *)
Fixpoint fit (n : Z) (l : list string) : string :=
  match l with
  | [] => ""
  | c :: l => if byte_len c <=? n then c +:+ fit (n - byte_len c) l else ""
  end.
(** [int(n * 0.7)], with the multiplication of binary64. *)
Definition seven_tenths : spec_float := S754_finite false 6305039478318694 (-53).
Definition int_of_float (f : spec_float) : Z :=
  match f with
  | S754_finite s m e => let v := if 0 <=? e then Z.pos m * 2 ^ e else Z.pos m / 2 ^ (- e) in if s then - v else v
  | _ => 0
  end.
Definition seven_tenths_of (n : Z) : Z := int_of_float (SFmul 53 1024 (binary_normalize 53 1024 n 0 false) seven_tenths).
(** The text before the last [c] behind the position [start], if there is one. *)
Definition cut_at (c : ascii) (start : nat) (s : string) : option string :=
  match rsplit1 c (str_drop start s) with
  | Some (a, _) => if String.eqb a "" then None else Some (str_take start s +:+ a)
  | None => None
  end.
Record truncated := { tr_text : string; tr_cut : bool; tr_bytes : Z; tr_total : Z }.
Definition space : ascii := ascii_of_N 32.
Definition cut_to (text : string) (max_bytes : Z) : truncated :=
  let total := byte_len text in
  if (max_bytes <=? 0) || (total <=? max_bytes) then {| tr_text := text; tr_cut := false; tr_bytes := 0; tr_total := total |} else
  let t := fit max_bytes (characters text) in
  let start := Z.to_nat (Z.max 0 (seven_tenths_of (str_len t))) in
  let t' := match cut_at newline start t with
            | Some u => u
            | None => match cut_at space start t with Some u => u | None => t end
            end in
  {| tr_text := t'; tr_cut := true; tr_bytes := byte_len t'; tr_total := total |}.
(** Every branch encodes the text first, which a lone surrogate does not survive. *)
Definition no_encoding : pyexn := ValueError "surrogates not allowed".
Definition _truncate_result (text : string) (max_bytes : Z) : res truncated :=
  if utf8_valid text then Ok (cut_to text max_bytes) else Raise no_encoding.

(** ** Values of JSON *)
Definition no_get {A} : res A := Raise (AttributeError "no attribute get").
(** [v.get(k, dflt)] *)
Definition getd (v : pyval) (k : string) (dflt : pyval) : res pyval :=
  match v with VDict d => Ok (dgetd d k dflt) | _ => no_get end.
Fixpoint replace_char (c : ascii) (r s : string) : string :=
  match s with
  | "" => ""
  | String d s' => if Ascii.eqb c d then r +:+ replace_char c r s' else String d (replace_char c r s')
  end.

Section oracle.
(** [datetime.fromisoformat], and the instant of what it gives; [sha256] in hex. *)
Context (fromisoformat : string -> option Z) (sha256 : string -> string).
Definition _parse_iso_ts (value : pyval) : res (option Z) :=
  if negb (truthy value) then Ok None else
  match value with
  | VStr s => Ok (fromisoformat (replace_char "Z"%char "+00:00" s))
  | _ => Raise (AttributeError "no attribute replace")
  end.

(** ** The transcript of a session *)
(** What the lines that are not blank parse to; [None] for no JSON. *)
Abbreviation transcript := (list (option pyval)).
Definition is_text_part (c : pyval) : bool :=
  match c with VDict d => eq_str (dgetd d "type" VNone) "text" | _ => false end.
Fixpoint join_texts (l : list pyval) : res string :=
  match l with
  | [] => Ok ""
  | c :: l =>
    if negb (is_text_part c) then join_texts l else
    do t <- getd c "text" (VStr "");
    do rest <- join_texts l;
    match t with VStr s => Ok (s +:+ rest) | _ => Raise (TypeError "sequence item: expected str instance") end
  end.
Definition content_text (content : pyval) : res string :=
  match content with
  | VList l => join_texts l
  | VStr _ | VDict _ => Ok ""
  | _ => Raise (TypeError "object is not iterable")
  end.
(** The text of a line, when it is a message of the assistant that is fresh. *)
Definition assistant_text (after_epoch : Z) (obj : pyval) : res (option string) :=
  do kind <- getd obj "type" VNone;
  if negb (eq_str kind "message") then Ok None else
  do m <- getd obj "message" (VDict []);
  do role <- getd m "role" VNone;
  if negb (eq_str role "assistant") then Ok None else
  do fresh <- (if 0 <? after_epoch
               then do stamp <- getd obj "timestamp" (VStr ""); do ts <- _parse_iso_ts stamp;
                    Ok (match ts with Some ts => after_epoch <=? ts | None => false end)
               else Ok true);
  if negb fresh then Ok None else
  do content <- getd m "content" (VList []);
  do text <- content_text content;
  Ok (if blank text then None else Some text).
Fixpoint assistant_texts (after_epoch : Z) (lines : transcript) : res (list string) :=
  match lines with
  | [] => Ok []
  | None :: lines => assistant_texts after_epoch lines
  | Some obj :: lines =>
    do t <- assistant_text after_epoch obj;
    do ts <- assistant_texts after_epoch lines;
    Ok (match t with Some t => t :: ts | None => ts end)
  end.
(** [l[-n:]] for [0 < n] *)
Definition last_n {A} (n : nat) (l : list A) : list A := drop (length l - n) l.
Definition _extract_assistant_messages (lines : transcript) (max_messages : nat) (after_epoch : Z) : res (list string) :=
  do msgs <- assistant_texts after_epoch lines; Ok (last_n max_messages msgs).

(** ** Stuck sessions *)
Inductive stuck_kind := Skip | Tool_ok | Output.
Definition _SKIP_TEXT_MARKER : string := "Skipped due to pending system advisory".
Definition quoted (s : string) : string := String (ascii_of_N 34) (s +:+ String (ascii_of_N 34) "").
Definition _is_interrupt_skip (text : string) : bool :=
  let t := strip text in
  String.prefix _SKIP_TEXT_MARKER t
  || String.prefix "{" t && contains (quoted "source" +:+ ": " +:+ quoted "interrupt_skipped") t
     && (contains "__synthetic" t || contains "__interrupted" t).
Definition stuck_event (since_epoch : Z) (obj : pyval) : res (option (stuck_kind * Z)) :=
  do kind <- getd obj "type" VNone;
  if negb (eq_str kind "message") then Ok None else
  do stamp <- getd obj "timestamp" (VStr "");
  do ts <- _parse_iso_ts stamp;
  match ts with
  | None => Ok None
  | Some ts =>
    if ts <? since_epoch then Ok None else
    do msg <- getd obj "message" (VDict []);
    do role <- getd (py_or msg (VDict [])) "role" VNone;
    if eq_str role "toolResult" then
      do content <- getd (py_or msg (VDict [])) "content" VNone;
      do text <- content_text (py_or content (VList []));
      Ok (Some (if _is_interrupt_skip text then Skip else Tool_ok, ts))
    else if eq_str role "assistant" then
      do content <- getd (py_or msg (VDict [])) "content" VNone;
      do text <- content_text (py_or content (VList []));
      Ok (if blank text then None else Some (Output, ts))
    else Ok None
  end.
Fixpoint stuck_events (since_epoch : Z) (lines : transcript) : res (list (stuck_kind * Z)) :=
  match lines with
  | [] => Ok []
  | None :: lines => stuck_events since_epoch lines
  | Some obj :: lines =>
    do e <- stuck_event since_epoch obj;
    do es <- stuck_events since_epoch lines;
    Ok (match e with Some e => e :: es | None => es end)
  end.
(** [lines]: the last lines of the file. *)
Definition _scan_session_stuck_events (lines : transcript) (since_epoch : Z) : res (list (stuck_kind * Z)) :=
  do es <- stuck_events since_epoch lines; Ok (sort_by (fun x y => snd x <=? snd y) es).
Definition is_skip (k : stuck_kind) : bool := match k with Skip => true | _ => false end.
Fixpoint leading_skips (l : list (stuck_kind * Z)) : nat :=
  match l with (Skip, _) :: l => S (leading_skips l) | _ => O end.
Definition _STUCK_SKIP_MIN : nat := 3.
Definition _STALL_IDLE_SECONDS : Z := 15 * 60 * 1000.
Definition _WORK_EVENT_KINDS : list string := ["TURN_STARTED"; "ASSISTANT_PROGRESS"; "TOOL_STARTED"; "TOOL_FINISHED"].
Definition _TERMINAL_TASK_STATES : list string := ["agent_end"; "agent_stop"; "session_shutdown"; "process_exit"].
(** What [_detect_oracle_stuck] reads of a runtime. *)
Record runtime_view := {
  rt_id : string; rt_generation : option Z; rt_status : string; rt_agent_state : string; rt_alive : bool; rt_last_kind : string;
  rt_last_state : string; rt_first_seen : pyval }.
Inductive signal := Strong | Weak.
Definition terminal_view (v : runtime_view) : bool :=
  let working := String.eqb (rt_agent_state v) "agent_running" in
  String.eqb (rt_status v) "stopped" || negb working
  || String.eqb (rt_last_kind v) "TASK_STATE" && bool_decide (rt_last_state v ∈ _TERMINAL_TASK_STATES).
(** The times of the newest events of the kinds that are work. *)
Fixpoint work_times (newest : pydict) : res (list Z) :=
  match newest with
  | [] => Ok []
  | (kind, ts) :: newest =>
    do t <- (if bool_decide (kind ∈ _WORK_EVENT_KINDS) then _parse_iso_ts ts else Ok None);
    do rest <- work_times newest;
    Ok (match t with Some t => t :: rest | None => rest end)
  end.
(** [session]: the last lines of the transcript of the bound session, if there is
    one and it is found; [newest]: what the gateway counts of the events, empty when
    it does not answer. *)
Definition _detect_oracle_stuck (v : runtime_view) (session : option (option transcript)) (newest : pydict) (now : Z) : res (option signal) :=
  if String.eqb (rt_id v) "" || bool_decide (rt_generation v = None) then Ok None else
  do strong <- match session with
               | None => Ok false
               | Some found =>
                 do since <- _parse_iso_ts (rt_first_seen v);
                 match found, since with
                 | None, _ | _, None => Ok false
                 | Some lines, Some since => do es <- _scan_session_stuck_events lines since; Ok (Nat.leb _STUCK_SKIP_MIN (leading_skips (rev es)))
                 end
               end;
  if strong : bool then Ok (Some Strong) else
  if terminal_view v || negb (rt_alive v) then Ok None else
  do ts <- work_times newest;
  match ts with
  | [] => Ok None
  | t :: ts =>
    if String.eqb (rt_last_kind v) "TOOL_STARTED" then Ok None
    else Ok (if _STALL_IDLE_SECONDS <=? now - foldr Z.max t ts then Some Weak else None)
  end.

(** ** meta.json *)
Definition safe_name (review_key : string) : string :=
  replace_char (ascii_of_N 92) "-" (replace_char "/"%char "-" (replace_char ":"%char "-" review_key)).
(** The files, by the names of their directories. *)
Abbreviation metas := (gmap string pyval).
Definition _oracle_meta_path (review_key : string) : string := safe_name review_key.
Definition _read_oracle_meta (review_key : string) (s : metas) : pydict :=
  match s !! _oracle_meta_path review_key with Some (VDict d) => d | _ => [] end.
Definition _LAST_ASK_FIELDS : list string := ["last_ask_at"; "last_request_id"; "last_command_state"; "last_generation"].
Definition carried (previous : pydict) : pydict :=
  List.concat (map (fun k => match dget previous k with Some v => [(k, v)] | None => [] end) _LAST_ASK_FIELDS).
(** [saved]: the file can be written; if not, a warning is all that happens. *)
Definition _write_oracle_meta (saved : bool) (review_key : string) (backend_session_id status swarm_session_id : pyval) (extra : pydict) (now : string) :
    st metas pydict :=
  previous ← gets (_read_oracle_meta review_key);
  let d := dupdate (dupdate [("review_key", VStr review_key); ("swarm_session_id", swarm_session_id);
                             ("backend_session_id", backend_session_id); ("bound_at", VStr now); ("status", status)]
                      (carried previous)) extra in
  _ ← modify (fun s => if saved then <[_oracle_meta_path review_key := VDict d]> s else s);
  mret d.
Definition _record_last_ask (saved : bool) (review_key request_id command_state : string) (generation : option Z) (now : string) : st metas pydict :=
  d ← gets (_read_oracle_meta review_key);
  let keep k := py_or (dgetd d k VNone) (VStr "") in
  _write_oracle_meta saved review_key (keep "backend_session_id") (keep "status") (keep "swarm_session_id")
    [("last_ask_at", VStr now); ("last_request_id", VStr request_id); ("last_command_state", VStr command_state);
     ("last_generation", match generation with Some g => VInt g | None => VNone end)] now.
Record anchor := { an_at : Z; an_iso : pyval; an_request : pyval; an_state : pyval; an_generation : pyval }.
Definition _latest_ask_anchor (review_key : string) (s : metas) : res (option anchor) :=
  let d := _read_oracle_meta review_key s in
  let field k := py_or (dgetd d k VNone) (VStr "") in
  do at_ <- _parse_iso_ts (field "last_ask_at");
  Ok (match at_ with
      | None => None
      | Some t => Some {| an_at := t; an_iso := field "last_ask_at"; an_request := field "last_request_id";
                          an_state := field "last_command_state"; an_generation := dgetd d "last_generation" VNone |}
      end).
Definition anchor_epoch (a : option anchor) : Z := match a with Some a => an_at a | None => 0 end.
Definition anchor_request (a : option anchor) : pyval := match a with Some a => an_request a | None => VStr "" end.

(** ** Reports in the mailboxes *)
(** [s[-12:]] *)
Definition last_chars (n : nat) (s : string) : string := str_drop (Z.to_nat (str_len s) - n) s.
Definition _review_reply_to_candidates (review_key : string) : list string :=
  [review_key; safe_name review_key; last_chars 12 (replace_char ":"%char "-" review_key); str_take 12 (sha256 review_key)].
Section report.
Context (reply_keys : list string) (since : Z) (request_id : pyval).
Definition _fresh (msg : pydict) (mtime : Z) : res bool :=
  let rid := py_or (dgetd msg "request_id" VNone) (py_or (dgetd msg "command_id" VNone) (VStr "")) in
  if truthy request_id && truthy rid && negb (same_key rid request_id) then Ok false
  else if since <=? 0 then Ok true
  else do ts <- _parse_iso_ts (py_or (dgetd msg "created_at" VNone) (VStr ""));
       Ok (match ts with Some ts => since <=? ts | None => negb (mtime =? 0) && (since <=? mtime) end).
Definition _match (msg : pyval) (mtime : Z) : res bool :=
  match msg with
  | VDict d =>
    if negb (eq_str (dgetd d "kind" VNone) "REPORT") then Ok false else
    match py_or (dgetd d "reply_to" VNone) (VStr "") with
    | VStr s => if bool_decide (s ∈ reply_keys) then _fresh d mtime else Ok false
    | VList _ | VDict _ => Raise (TypeError "unhashable type")
    | _ => Ok false
    end
  | _ => no_get
  end.
Fixpoint first_match (l : list pydict) : res (option pyval) :=
  match l with
  | [] => Ok None
  | d :: l => do b <- _match (VDict d) 0;
              if b : bool then Ok (Some (py_or (dgetd d "body" (VStr "")) (VStr ""))) else first_match l
  end.
(** The sessions that are known: an exception passes on to the next one. *)
Fixpoint known_sessions (histories : list (res (list pydict))) : option pyval :=
  match histories with
  | [] => None
  | h :: hs => match (do l <- h; first_match l) with Ok (Some body) => Some body | _ => known_sessions hs end
  end.
(** A ".json" file of a history: its time, unless it is gone, and its content,
    unless it is no JSON. *)
Record report_file := { rf_mtime : option Z; rf_json : option pyval }.
Fixpoint candidates (budget : nat) (files : list report_file) : res (list (Z * pydict)) :=
  match budget, files with
  | S budget, f :: files =>
    match rf_mtime f, rf_json f with
    | Some t, Some msg =>
      do b <- _match msg t;
      do rest <- candidates budget files;
      Ok (match msg, b with VDict d, true => (t, d) :: rest | _, _ => rest end)
    | _, _ => candidates budget files
    end
  | _, _ => Ok []
  end.
Definition newest_body (l : list (Z * pydict)) : option pyval :=
  match sort_by (fun x y => fst y <=? fst x) l with
  | (_, d) :: _ => Some (py_or (dgetd d "body" (VStr "")) (VStr ""))
  | [] => None
  end.
(** [files]: those of all the history directories, the directory that was changed
    last first. *)
Definition _scan_mailbox_report (histories : list (res (list pydict))) (files : list report_file) : option pyval :=
  match known_sessions histories with
  | Some body => Some body
  | None => match candidates 200 files with Ok l => newest_body l | Raise _ => None end
  end.
End report.

(** ** The result of a review *)
Inductive found := From_session (texts : list string) | From_mailbox (body : pyval) | From_files (texts : list string).
(** What there is to look at: the transcript of the bound session, the histories
    and files of the mailboxes, the transcript that the scan of the files finds. *)
Record surroundings := {
  su_session : option transcript; su_histories : list (res (list pydict)); su_files : list report_file;
  su_scan : option transcript }.
(** A source that is a transcript. *)
Definition look (lines : option transcript) (want_all : bool) (epoch : Z) : res (list string) :=
  match lines with
  | Some lines => _extract_assistant_messages lines (if want_all then Z.to_nat 1000000 else 1%nat) epoch
  | None => Ok []
  end.
Definition oracle_result (review_key : string) (strict want_all : bool) (a : option anchor) (su : surroundings) : res (option found) :=
  let epoch := anchor_epoch a in
  do msgs <- look (su_session su) want_all epoch;
  if negb (bool_decide (msgs = [])) then Ok (Some (From_session msgs)) else
  let report := default VNone (_scan_mailbox_report (_review_reply_to_candidates review_key) epoch (anchor_request a)
                                 (su_histories su) (su_files su)) in
  if truthy report then Ok (Some (From_mailbox report)) else
  if strict then Ok None else
  do msgs <- look (su_scan su) want_all epoch;
  Ok (if bool_decide (msgs = []) then None else Some (From_files msgs)).

Fixpoint join_lines (l : list string) : string :=
  match l with
  | [] => ""
  | [s] => s
  | s :: l => s +:+ NL +:+ join_lines l
  end.
Definition display (f : found) : res string :=
  match f with
  | From_session texts | From_files texts => Ok (join_lines texts)
  | From_mailbox (VStr s) => Ok s
  | From_mailbox _ => Raise (AttributeError "no attribute encode")
  end.
(** [max_bytes]: the limit of the environment, or the default one. *)
Definition cmd_oracle_result (review_key : string) (strict want_all : bool) (max_bytes : Z) (a : option anchor) (su : surroundings) :
    res (option (found * truncated)) :=
  do f <- oracle_result review_key strict want_all a su;
  match f with
  | None => Ok None
  | Some f => do text <- display f; do t <- _truncate_result text (if want_all then 0 else max_bytes); Ok (Some (f, t))
  end.

(** ** Waiting for an answer *)
Record window := { wi_epoch : Z; wi_generation : pyval; wi_request : pyval }.
Definition window_of (a : option anchor) : window :=
  {| wi_epoch := anchor_epoch a; wi_generation := match a with Some a => an_generation a | None => VNone end;
     wi_request := anchor_request a |}.
Definition is_none (v : pyval) : bool := match v with VNone => true | _ => false end.
Definition _event_outside_ask_window (ev : pydict) (w : window) (strict_ts : bool) : res bool :=
  if (wi_epoch w <=? 0) && is_none (wi_generation w) && negb (truthy (wi_request w)) then Ok false else
  do ts <- _parse_iso_ts (dgetd ev "created_at" (VStr ""));
  let before := if 0 <? wi_epoch w then match ts with Some t => t <? wi_epoch w | None => strict_ts end else false in
  if before : bool then Ok true else
  let gen := dgetd ev "generation" VNone in
  let other_gen := if is_none (wi_generation w) || is_none gen then false
                   else match py_int gen, py_int (wi_generation w) with Some x, Some y => negb (x =? y) | _, _ => false end in
  if other_gen : bool then Ok true else
  let req := py_or (dgetd ev "request_id" VNone) (VStr "") in
  Ok (truthy (wi_request w) && truthy req && negb (same_key req (wi_request w))).
(** An event, with the transcripts that a look at them finds at that moment: that
    of the bound session, or else the one that the scan of the files finds. *)
Record seen_event := { se_event : pydict; se_transcript : option transcript }.
Definition _wait_final_text (lines : option transcript) (after_epoch : Z) : res (option string) :=
  match lines with
  | None => Ok None
  | Some lines => do msgs <- _extract_assistant_messages lines 1 after_epoch; Ok (last msgs)
  end.
Inductive waited := Printed (t : truncated) | No_final_text.
Definition event_state (ev : pydict) : res pyval := getd (py_or (dgetd ev "payload" VNone) (VDict [])) "state" VNone.
Definition final_of (w : window) (max_bytes : Z) (e : seen_event) : res waited :=
  do final <- _wait_final_text (se_transcript e) (wi_epoch w);
  match final with Some t => do t <- _truncate_result t max_bytes; Ok (Printed t) | None => Ok No_final_text end.
(** The events that are there already. *)
Fixpoint boot (w : window) (max_bytes : Z) (evs : list seen_event) : res (option waited) :=
  match evs with
  | [] => Ok None
  | e :: evs =>
    if negb (eq_str (dgetd (se_event e) "kind" VNone) "TASK_STATE") then boot w max_bytes evs else
    do state <- event_state (se_event e);
    if negb (eq_str state "agent_end") then boot w max_bytes evs else
    do outside <- _event_outside_ask_window (se_event e) w true;
    if outside : bool then boot w max_bytes evs else do r <- final_of w max_bytes e; Ok (Some r)
  end.
(** The events of one round. *)
Fixpoint round_events (w : window) (max_bytes : Z) (evs : list seen_event) : res (option waited) :=
  match evs with
  | [] => Ok None
  | e :: evs =>
    let kind := dgetd (se_event e) "kind" VNone in
    do outside <- _event_outside_ask_window (se_event e) w false;
    if outside : bool then round_events w max_bytes evs else
    if eq_str kind "ASSISTANT_PROGRESS" then
      do r <- final_of w max_bytes e;
      match r with Printed t => Ok (Some (Printed t)) | No_final_text => round_events w max_bytes evs end
    else if eq_str kind "TASK_STATE" then
      do state <- event_state (se_event e);
      if eq_str state "agent_end" then do r <- final_of w max_bytes e; Ok (Some r) else round_events w max_bytes evs
    else round_events w max_bytes evs
  end.
(** A round: its events, or that the gateway did not answer; what the stuck
    detection says if it is asked; how a recovery ends, with the new generation;
    whether the deadline has passed and whether the sleep is interrupted. *)
Record wait_round := {
  wr_events : option (list seen_event); wr_stuck : option signal; wr_recovery : option pyval; wr_late : bool; wr_interrupted : bool }.
Inductive wait_end := Answer (r : waited) | Gateway_error | Stuck | Recover_failed | Timeout | Interrupted | Still_waiting.
Definition exit_code (e : wait_end) : option Z :=
  match e with
  | Answer (Printed _) => Some 0
  | Interrupted => Some 130
  | Still_waiting => None
  | _ => Some 1
  end.
Fixpoint wait_loop (auto_recover : bool) (max_bytes : Z) (rounds : list wait_round) (w : window) (polls : nat) (recovered : bool) :
    res wait_end :=
  match rounds with
  | [] => Ok Still_waiting
  | r :: rounds =>
    match wr_events r with
    | None => Ok Gateway_error
    | Some evs =>
      do found <- round_events w max_bytes evs;
      match found with
      | Some a => Ok (Answer a)
      | None =>
        let go_on := if wr_late r then Ok Timeout else if wr_interrupted r then Ok Interrupted
                     else wait_loop auto_recover max_bytes rounds w (S polls) recovered in
        match wr_stuck r with
        | Some Strong =>
          if Nat.eqb (S polls mod 3) 0 then
            if auto_recover && negb recovered then
              match wr_recovery r with
              | None => Ok Recover_failed
              | Some gen => wait_loop auto_recover max_bytes rounds
                              {| wi_epoch := wi_epoch w; wi_generation := if is_none gen then wi_generation w else gen;
                                 wi_request := wi_request w |} (S polls) true
              end
            else Ok Stuck
          else go_on
        | _ => go_on
        end
      end
    end
  end.
(** [first]: the events at the start, unless the gateway does not answer. *)
Definition _wait_for_new_output (a : option anchor) (auto_recover : bool) (max_bytes : Z) (first : option (list seen_event))
    (rounds : list wait_round) : res wait_end :=
  let w := window_of a in
  do found <- match first with Some evs => boot w max_bytes evs | None => Ok None end;
  match found with Some r => Ok (Answer r) | None => wait_loop auto_recover max_bytes rounds w 0 false end.
End oracle.

(** ** Whole characters *)
Definition whole (g : string) : Prop := g <> "" /\ starts_cont g = false.
Fixpoint concat_all (l : list string) : string := match l with [] => "" | g :: l => g +:+ concat_all l end.
Lemma characters_concat s : concat_all (characters s) = s.
Proof.
  induction s as [|c s IH]; [done|]. cbn [characters]. destruct (starts_cont s) eqn:Hc.
  - destruct (characters s) as [|g gs]; [by destruct s|]. simpl in *. by rewrite <- IH.
  - simpl. by rewrite IH.
Qed.
Lemma characters_whole s : starts_cont s = false -> Forall whole (characters s).
Proof.
  enough (H : forall s, match characters s with [] => True | g :: gs => g <> "" /\ Forall whole gs /\ starts_cont g = starts_cont s end).
  { intros Hs. specialize (H s). destruct (characters s) as [|g gs]; [constructor|]. destruct H as (H1 & H2 & H3).
    constructor; [split; congruence|done]. }
  clear s. induction s as [|c s IH]; [done|]. cbn [characters]. destruct (starts_cont s) eqn:Hc.
  - destruct (characters s) as [|g gs]; [done|]. by destruct IH as (_ & ? & _).
  - split; [done|]. split; [|done]. destruct (characters s) as [|g gs]; [constructor|]. destruct IH as (? & ? & ?).
    constructor; [split; [done|congruence]|done].
Qed.
Lemma concat_whole l : Forall whole l -> starts_cont (concat_all l) = false.
Proof. intros [|g l' [Hg Hc]]; [done|]. simpl. by destruct g. Qed.
(** [t] is [s] up to the end of a character. *)
Definition cut_of (t s : string) : Prop := exists rest, s = t +:+ rest /\ starts_cont rest = false.
Lemma cut_of_refl s : cut_of s s.
Proof. exists "". split; [|done]. induction s as [|c s IH]; [done|]. rewrite string_app_cons. by rewrite <- IH. Qed.
Lemma cut_of_trans t u s : cut_of t u -> cut_of u s -> cut_of t s.
Proof.
  intros (r1 & -> & H1) (r2 & -> & H2). exists (r1 +:+ r2). rewrite string_app_assoc. split; [done|]. by destruct r1.
Qed.
Lemma fit_cut n l : Forall whole l -> cut_of (fit n l) (concat_all l) /\ byte_len (fit n l) <= Z.max 0 n.
Proof.
  intros Hl. revert n. induction Hl as [|g l Hg Hl IH]; intros n; simpl; [split; [apply cut_of_refl|unfold byte_len; simpl; lia]|].
  destruct (Z.leb_spec (byte_len g) n).
  - destruct (IH (n - byte_len g)) as [(r & Hr & Hc) Hb]. split.
    + exists r. split; [|done]. by rewrite string_app_assoc, <- Hr.
    + unfold byte_len in *. rewrite string_length_app. lia.
  - split; [|unfold byte_len; simpl; lia]. exists (g +:+ concat_all l). split; [done|]. destruct Hg. by destruct g.
Qed.
Lemma take_drop_str n s : str_take n s +:+ str_drop n s = s.
Proof.
  revert n. induction s as [|c s IH]; intros n; [done|]. simpl. destruct (is_cont c); [by rewrite string_app_cons, IH|].
  destruct n as [|n]; [done|]. by rewrite string_app_cons, IH.
Qed.
Lemma rsplit1_some c s a b : rsplit1 c s = Some (a, b) -> s = a +:+ String c b.
Proof.
  revert a b. induction s as [|d s IH]; intros a b; simpl; [done|]. destruct (rsplit1 c s) as [[a' b']|].
  - intros [= <- <-]. by rewrite (IH a' b').
  - destruct (Ascii.eqb_spec c d) as [->|]; [|done]. by intros [= <- <-].
Qed.
Lemma cut_at_cut c start s t : is_cont c = false -> cut_at c start s = Some t -> cut_of t s /\ byte_len t <= byte_len s.
Proof.
  intros Hc. unfold cut_at. destruct (rsplit1 c (str_drop start s)) as [[a b]|] eqn:Hr; [|done].
  destruct (String.eqb a ""); [done|]. intros [= <-]. apply rsplit1_some in Hr.
  assert (Hs : s = (str_take start s +:+ a) +:+ String c b).
  { rewrite string_app_assoc, <- Hr. symmetry. apply take_drop_str. }
  split.
  - exists (String c b). split; [done|]. exact Hc.
  - rewrite Hs at 2. unfold byte_len. rewrite (string_length_app _ (String c b)). lia.
Qed.
(** A result that is cut for being too long is the beginning of the whole text,
    ends with a whole character and has at most as many bytes as are allowed; a
    text is cut exactly when it is longer, and the numbers that are reported are
    those of the two texts. *)
Theorem truncate_spec text max_bytes : starts_cont text = false -> let r := cut_to text max_bytes in
  cut_of (tr_text r) text /\ tr_total r = byte_len text /\
  (tr_cut r = true <-> 0 < max_bytes < byte_len text) /\
  if tr_cut r then byte_len (tr_text r) <= max_bytes /\ tr_bytes r = byte_len (tr_text r) else tr_text r = text.
Proof.
  intros Ht. cbv zeta. unfold cut_to. destruct (Z.leb_spec max_bytes 0); [simpl; split_and!; try done; [apply cut_of_refl|lia]|].
  destruct (Z.leb_spec (byte_len text) max_bytes); [simpl; split_and!; try done; [apply cut_of_refl|lia]|]. cbn [orb].
  destruct (fit_cut max_bytes (characters text) (characters_whole _ Ht)) as [Hc Hb]. rewrite characters_concat in Hc.
  set (t := fit max_bytes (characters text)) in *. cbn [tr_text tr_cut tr_bytes tr_total].
  set (start := Z.to_nat _). set (t' := match cut_at newline start t with Some u => u | None => _ end).
  assert (Hcut : cut_of t' t /\ byte_len t' <= byte_len t).
  { unfold t'. destruct (cut_at newline start t) as [u|] eqn:Hn; [by apply (cut_at_cut newline start)|].
    destruct (cut_at space start t) as [u|] eqn:Hsp; [by apply (cut_at_cut space start)|]. split; [apply cut_of_refl|lia]. }
  destruct Hcut as [Hcut Hlen]. split; [by eapply cut_of_trans|].
  split; [done|]. split; [split; [lia|done]|]. split; [lia|done].
Qed.

(** ** What counts as an answer *)
Section facts.
Context (fromisoformat : string -> option Z).
Abbreviation parse := (_parse_iso_ts fromisoformat).
(** The line is a message of the assistant with this text, and if there is an anchor
    it has a time that is not before it. *)
Definition says (epoch : Z) (obj : pyval) (text : string) : Prop := exists d m,
  obj = VDict d /\ dgetd d "type" VNone = VStr "message" /\
  dgetd d "message" (VDict []) = VDict m /\ dgetd m "role" VNone = VStr "assistant" /\
  content_text (dgetd m "content" (VList [])) = Ok text /\ blank text = false /\
  (0 < epoch -> exists t, parse (dgetd d "timestamp" (VStr "")) = Ok (Some t) /\ epoch <= t).
Lemma getd_Ok v k dflt x : getd v k dflt = Ok x <-> exists d, v = VDict d /\ x = dgetd d k dflt.
Proof. destruct v; simpl; try (split; [done|]; by intros (? & ? & ?)). naive_solver. Qed.
Ltac got := repeat match goal with H : getd _ _ _ = Ok _ |- _ => apply getd_Ok in H as (? & -> & ->) end.
Lemma assistant_text_says epoch obj text : assistant_text fromisoformat epoch obj = Ok (Some text) <-> says epoch obj text.
Proof.
  split.
  - unfold assistant_text. intros H. apply res_bind_Ok in H as (kind & Hk & H). apply getd_Ok in Hk as (d & -> & ->).
    destruct (eq_str _ "message") eqn:Hm; [|done]. cbn [negb] in H. apply eq_str_true in Hm.
    apply res_bind_Ok in H as (mv & Hmv & H). apply getd_Ok in Hmv as (? & [= <-] & ->).
    apply res_bind_Ok in H as (role & Hr & H). apply getd_Ok in Hr as (m & Hm' & ->).
    destruct (eq_str _ "assistant") eqn:Ha; [|done]. cbn [negb] in H. apply eq_str_true in Ha.
    apply res_bind_Ok in H as (fresh & Hf & H). destruct fresh; [|done]. cbn [negb] in H. rewrite Hm' in H.
    apply res_bind_Ok in H as (content & Hc & H). apply getd_Ok in Hc as (? & [= <-] & ->).
    apply res_bind_Ok in H as (t & Ht & H). destruct (blank t) eqn:Hb; [done|]. injection H as ->.
    exists d, m. split_and!; try done. intros He. apply Z.ltb_lt in He. rewrite He in Hf.
    apply res_bind_Ok in Hf as (stamp & Hs & Hf). apply getd_Ok in Hs as (? & [= <-] & ->).
    apply res_bind_Ok in Hf as (ts & Hts & Hf). destruct ts as [ts|]; [|done]. injection Hf as Hf.
    exists ts. split; [done|]. by apply Z.leb_le.
  - intros (d & m & -> & Hk & Hm & Hr & Hc & Hb & Hf). unfold assistant_text. cbn [getd res_bind]. rewrite Hk. cbn [eq_str String.eqb].
    rewrite Hm. cbn [getd res_bind]. rewrite Hr. cbn [getd res_bind].
    destruct (Z.ltb_spec 0 epoch) as [He|He].
    + destruct (Hf He) as (t & Ht & Hle). cbn [getd res_bind eq_str negb]. rewrite Ht. cbn. apply Z.leb_le in Hle. rewrite Hle. cbn.
      rewrite Hc. cbn. by rewrite Hb.
    + cbn. rewrite Hc. cbn. by rewrite Hb.
Qed.
Lemma assistant_texts_spec epoch lines ts : assistant_texts fromisoformat epoch lines = Ok ts -> forall t,
  t ∈ ts <-> exists obj, Some obj ∈ lines /\ says epoch obj t.
Proof.
  revert ts. induction lines as [|[obj|] lines IH]; intros ts; cbn [assistant_texts].
  - intros [= <-] t. split; [by intros ?%elem_of_nil|]. by intros (? & ?%elem_of_nil & _).
  - intros H t. apply res_bind_Ok in H as (o & Ho & H). apply res_bind_Ok in H as (ts' & Hts & H). specialize (IH _ Hts t).
    setoid_rewrite elem_of_cons. destruct o as [u|]; injection H as <-.
    + rewrite elem_of_cons, IH. split.
      * intros [->|(obj' & ? & ?)]; [|naive_solver]. exists obj. split; [by left|]. by apply assistant_text_says.
      * intros (obj' & [[= ->]|?] & Hs); [|naive_solver]. apply assistant_text_says in Hs. left. congruence.
    + rewrite IH. split; [naive_solver|]. intros (obj' & [[= ->]|?] & Hs); [|naive_solver]. apply assistant_text_says in Hs. congruence.
  - intros Hts t. rewrite (IH _ Hts t). setoid_rewrite elem_of_cons. naive_solver.
Qed.
(** The last of the texts. *)
Definition said_last (epoch : Z) (lines : list (option pyval)) (t : string) : Prop := exists before obj after,
  lines = before ++ Some obj :: after /\ says epoch obj t /\ forall obj' t', Some obj' ∈ after -> ~ says epoch obj' t'.
Lemma last_n_1 {A} (l : list A) x : last l = Some x -> last_n 1 l = [x].
Proof.
  intros Hl. apply last_Some in Hl as (l' & ->). unfold last_n. rewrite length_app. simpl.
  replace (length l' + 1 - 1)%nat with (length l') by lia. apply drop_app_length.
Qed.
Lemma said_last_spec epoch lines ts t : assistant_texts fromisoformat epoch lines = Ok ts -> last ts = Some t -> said_last epoch lines t.
Proof.
  revert ts. induction lines as [|[obj|] lines IH]; intros ts; cbn [assistant_texts]; [by intros [= <-]|..].
  - intros H Hl. apply res_bind_Ok in H as (o & Ho & H). apply res_bind_Ok in H as (ts' & Hts & H).
    destruct (decide (ts' = [])) as [->|Hne].
    + destruct o as [u|]; injection H as <-; [|done]. injection Hl as ->. exists [], obj, lines.
      split; [done|]. split; [by apply assistant_text_says|]. intros obj' t' Hin Hs.
      apply (not_elem_of_nil t'). apply (assistant_texts_spec _ _ _ Hts). naive_solver.
    + destruct (IH ts' Hts) as (b & o' & a & -> & ? & ?); [|by exists (Some obj :: b), o', a].
      destruct o as [u|]; injection H as <-; [|done]. by destruct ts'.
  - intros Hts Hl. destruct (IH _ Hts Hl) as (b & o' & a & -> & ? & ?). by exists (None :: b), o', a.
Qed.
(** What a look at a transcript finds, all of it or the last. *)
Definition found_in (lines : option (list (option pyval))) (want_all : bool) (epoch : Z) (texts : list string) : Prop := exists ls,
  lines = Some ls /\ texts <> [] /\ (forall t, t ∈ texts -> exists obj, Some obj ∈ ls /\ says epoch obj t) /\
  (want_all = false -> exists t, texts = [t] /\ said_last epoch ls t).
Definition nothing_in (lines : option (list (option pyval))) (epoch : Z) : Prop :=
  forall ls obj t, lines = Some ls -> Some obj ∈ ls -> ~ says epoch obj t.
Lemma look_spec lines want_all epoch msgs : look fromisoformat lines want_all epoch = Ok msgs ->
  if decide (msgs = []) then nothing_in lines epoch else found_in lines want_all epoch msgs.
Proof.
  unfold look. destruct lines as [ls|]; [|by intros [= <-]]. unfold _extract_assistant_messages. intros H.
  apply res_bind_Ok in H as (ts & Hts & H). injection H as <-. set (n := if want_all then _ else _).
  assert (Hn : n = S (Nat.pred n)) by (by subst n; destruct want_all).
  case_decide as Hd.
  - assert (ts = []) as ->.
    { destruct (decide (ts = [])) as [|Hne]; [done|]. apply (f_equal length) in Hd. unfold last_n in Hd. rewrite length_drop in Hd. simpl in Hd.
      destruct ts; [done|]. simpl in *. lia. }
    intros ls' obj t [= <-] Hin Hs. apply (not_elem_of_nil t). apply (assistant_texts_spec _ _ _ Hts). naive_solver.
  - exists ls. split; [done|]. split; [done|]. split.
    + intros t Ht. apply (assistant_texts_spec _ _ _ Hts). unfold last_n in Ht. rewrite <- (take_drop (length ts - n) ts), elem_of_app. by right.
    + intros ->. subst n. destruct (last ts) as [t|] eqn:Hl; [|by apply last_None in Hl as ->].
      exists t. split; [by apply last_n_1|by eapply said_last_spec].
Qed.

(** ** What counts as a report *)
Definition body_of (d : pydict) : pyval := py_or (dgetd d "body" (VStr "")) (VStr "").
Definition request_of (d : pydict) : pyval := py_or (dgetd d "request_id" VNone) (py_or (dgetd d "command_id" VNone) (VStr "")).
(** The message is a report, it names the review as one that it answers, it is not
    about another request, and it is not older than the anchor: by its own time, or
    by that of its file if it has none. *)
Definition reports (keys : list string) (since : Z) (request : pyval) (d : pydict) (mtime : Z) : Prop :=
  dgetd d "kind" VNone = VStr "REPORT" /\
  (exists s, py_or (dgetd d "reply_to" VNone) (VStr "") = VStr s /\ s ∈ keys) /\
  (truthy request = true -> truthy (request_of d) = true -> same_key (request_of d) request = true) /\
  (0 < since -> exists ts, parse (py_or (dgetd d "created_at" VNone) (VStr "")) = Ok ts /\
                  match ts with Some t => since <= t | None => mtime <> 0 /\ since <= mtime end).
Lemma match_reports keys since request d mtime :
  _match fromisoformat keys since request (VDict d) mtime = Ok true <-> reports keys since request d mtime.
Proof.
  unfold _match, reports, _fresh. fold (request_of d). destruct (eq_str (dgetd d "kind" VNone) "REPORT") eqn:Hk; cbn [negb].
  2: { split; [done|]. intros (H & _). apply eq_str_true in H. congruence. }
  apply eq_str_true in Hk. destruct (py_or (dgetd d "reply_to" VNone) (VStr "")) as [| | | |s| |];
    try (split; [done|]; by intros (_ & (? & ? & _) & _)).
  case_bool_decide as Hs; [|split; [done|]; intros (_ & (? & [= <-] & ?) & _); done].
  destruct (truthy request) eqn:Hr, (truthy (request_of d)) eqn:Hd; cbn [andb];
    [destruct (same_key (request_of d) request) eqn:Hsame; cbn [negb]; [|split; [done|]; intros (_ & _ & H & _); discriminate (H eq_refl eq_refl)]|..].
  all: (destruct (Z.leb_spec since 0) as [|Hpos];
    [split; [|done]; intros _; split_and!; [done|by exists s|done|lia]|]).
  all: rewrite res_bind_Ok; split;
    [intros (ts & Hts & H); split_and!; [done|by exists s|done|]; intros _; exists ts; split; [done|]; destruct ts as [t|];
     injection H as H; [by apply Z.leb_le|]; apply andb_true_iff in H as [H1 H2]; apply negb_true_iff in H1; lia
    |intros (_ & _ & _ & H); destruct (H Hpos) as (ts & Hts & Ht); exists ts; split; [done|]; f_equal; destruct ts as [t|];
     [by apply Z.leb_le|]; apply andb_true_iff; split; [apply negb_true_iff|]; lia].
Qed.
Lemma first_match_some keys since request l body : first_match fromisoformat keys since request l = Ok (Some body) ->
  exists d, d ∈ l /\ reports keys since request d 0 /\ body = body_of d.
Proof.
  induction l as [|d l IH]; [done|]. cbn [first_match]. intros H. apply res_bind_Ok in H as (b & Hb & H).
  destruct b.
  - injection H as <-. exists d. split; [by left|]. split; [by apply match_reports|done].
  - destruct (IH H) as (d' & ? & ?). exists d'. split; [by right|done].
Qed.
Lemma known_sessions_some keys since request hs body : known_sessions fromisoformat keys since request hs = Some body ->
  exists l d, Ok l ∈ hs /\ d ∈ l /\ reports keys since request d 0 /\ body = body_of d.
Proof.
  induction hs as [|h hs IH]; [done|]. cbn [known_sessions].
  destruct (do l <- h; first_match fromisoformat keys since request l) as [[b|]|e] eqn:Hb.
  - intros [= ->]. apply res_bind_Ok in Hb as (l & -> & Hb). apply first_match_some in Hb as (d & ? & ?). exists l, d.
    split; [by left|done].
  - intros H. destruct (IH H) as (l & d & ? & ?). exists l, d. split; [by right|done].
  - intros H. destruct (IH H) as (l & d & ? & ?). exists l, d. split; [by right|done].
Qed.
Lemma candidates_ok keys since request n files l : candidates fromisoformat keys since request n files = Ok l ->
  forall t d, (t, d) ∈ l <-> exists f, f ∈ take n files /\ rf_mtime f = Some t /\ rf_json f = Some (VDict d) /\ reports keys since request d t.
Proof.
  revert files l. induction n as [|n IH]; intros files l; cbn [candidates].
  - intros [= <-] t d. rewrite take_0. setoid_rewrite elem_of_nil. naive_solver.
  - destruct files as [|f files]; [intros [= <-] t d; rewrite take_nil; setoid_rewrite elem_of_nil; naive_solver|].
    intros H t d. cbn [take]. setoid_rewrite elem_of_cons.
    destruct (rf_mtime f) as [t0|] eqn:Ht0; [|rewrite (IH _ _ H t d); naive_solver].
    destruct (rf_json f) as [msg|] eqn:Hj; [|rewrite (IH _ _ H t d); naive_solver].
    apply res_bind_Ok in H as (b & Hb & H). apply res_bind_Ok in H as (rest & Hrest & H). injection H as <-.
    specialize (IH _ _ Hrest t d). destruct msg as [| | | | | |d0]; try done. destruct b.
    + rewrite elem_of_cons, IH. apply match_reports in Hb. naive_solver.
    + rewrite IH. split; [naive_solver|]. intros (f' & [->|] & ? & ? & Hr); [|naive_solver].
      apply match_reports in Hr. congruence.
Qed.
(** The files are tried only when no history has a report, and the newest wins. *)
Definition filed (files : list report_file) (keys : list string) (since : Z) (request body : pyval) : Prop := exists f t d,
  f ∈ take 200 files /\ rf_mtime f = Some t /\ rf_json f = Some (VDict d) /\ reports keys since request d t /\ body = body_of d /\
  forall f' t' d', f' ∈ take 200 files -> rf_mtime f' = Some t' -> rf_json f' = Some (VDict d') ->
    reports keys since request d' t' -> t' <= t.
Lemma scan_some keys since request hs files body : _scan_mailbox_report fromisoformat keys since request hs files = Some body ->
  (exists l d, Ok l ∈ hs /\ d ∈ l /\ reports keys since request d 0 /\ body = body_of d) \/ filed files keys since request body.
Proof.
  unfold _scan_mailbox_report. destruct (known_sessions _ _ _ _ _) as [b|] eqn:Hk.
  - intros [= ->]. left. by apply known_sessions_some.
  - destruct (candidates _ _ _ _ _ _) as [l|] eqn:Hc; [|done]. intros Hb. right. unfold newest_body in Hb.
    pose proof (candidates_ok _ _ _ _ _ _ Hc) as Hin. set (before := fun x y : Z * pydict => fst y <=? fst x) in *.
    pose proof (sort_by_perm before l) as Hp.
    assert (Hs : StronglySorted (fun x y => before x y = true) (sort_by before l)) by (apply sort_by_sorted; unfold before; intros; lia).
    destruct (sort_by before l) as [|[t d] rest]; [done|]. injection Hb as <-.
    destruct (proj1 (Hin t d)) as (f & Hf & Ht & Hj & Hr); [rewrite <- Hp; by left|].
    exists f, t, d. split_and!; try done. intros f' t' d' Hf' Ht' Hj' Hr'.
    assert (Hl : (t', d') ∈ (t, d) :: rest) by (rewrite Hp; apply Hin; by exists f').
    apply elem_of_cons in Hl as [[= -> ->]|Hl]; [lia|]. apply StronglySorted_inv in Hs as [_ Hs].
    rewrite Forall_forall in Hs. specialize (Hs _ Hl). unfold before in Hs. simpl in Hs. lia.
Qed.

(** What a result may be, for an anchor. *)
Definition fresh_answer sha256 (key : string) (strict want_all : bool) (a : option anchor) (su : surroundings) (r : option found) : Prop :=
  let since := anchor_epoch a in
  match r with
  | Some (From_session texts) => found_in (su_session su) want_all since texts
  | Some (From_mailbox body) => nothing_in (su_session su) since /\ truthy body = true /\
      let keys := _review_reply_to_candidates sha256 key in
      ((exists l d, Ok l ∈ su_histories su /\ d ∈ l /\ reports keys since (anchor_request a) d 0 /\ body = body_of d) \/
       filed (su_files su) keys since (anchor_request a) body)
  | Some (From_files texts) => strict = false /\ nothing_in (su_session su) since /\ found_in (su_scan su) want_all since texts
  | None => nothing_in (su_session su) since /\ (strict = false -> nothing_in (su_scan su) since)
  end.
Lemma oracle_result_fresh sha256 key strict want_all a su :
  match oracle_result fromisoformat sha256 key strict want_all a su with
  | Ok r => fresh_answer sha256 key strict want_all a su r
  | Raise e => exists lines, (lines = su_session su \/ lines = su_scan su) /\ look fromisoformat lines want_all (anchor_epoch a) = Raise e
  end.
Proof.
  unfold oracle_result, fresh_answer. cbv zeta. destruct (look fromisoformat (su_session su) want_all (anchor_epoch a)) as [msgs|e] eqn:Hl;
    [|exists (su_session su); auto]. cbn [res_bind]. apply look_spec in Hl. case_bool_decide as Hm; cbn [negb]; [|by rewrite decide_False in Hl].
  rewrite decide_True in Hl by done.
  destruct (_scan_mailbox_report _ _ _ _ _ _) as [b|] eqn:Hs; cbn [default id]; [destruct (truthy b) eqn:Hb|].
  { split; [done|]. split; [done|]. by apply scan_some. }
  all: destruct strict; [by split|]; destruct (look fromisoformat (su_scan su) want_all (anchor_epoch a)) as [ms|e] eqn:Hl2;
    [|exists (su_scan su); auto].
  all: cbn [res_bind truthy]; apply look_spec in Hl2; case_bool_decide as Hm2;
    [rewrite decide_True in Hl2 by done; by split|rewrite decide_False in Hl2 by done; by split].
Qed.
(** C32: With an anchor, nothing that is older than the latest question is given as its
    answer, from whichever source it comes: a text of a transcript is one that the
    assistant gave with a time at or after the anchor, and it is the last such one
    unless all are asked for; a body is that of a report that names the review, is
    not about another request and is not older, the newest of them if it was found
    among the files. A source is only turned to when the ones before it have nothing
    of the kind, the strict mode never takes what the scan finds, and that there is
    no result means that no transcript that was looked at has such a text. What is
    shown is the answer cut to the limit, or all of it if all are asked for. An
    exception is one that reading a transcript raises, or a body that is no text, or
    an answer with a lone surrogate, which cannot be measured in bytes. *)
Theorem result_is_fresh sha256 key strict want_all max_bytes a su :
  match cmd_oracle_result fromisoformat sha256 key strict want_all max_bytes a su with
  | Ok (Some (f, t)) => fresh_answer sha256 key strict want_all a su (Some f) /\ exists text,
      display f = Ok text /\ _truncate_result text (if want_all then 0 else max_bytes) = Ok t
  | Ok None => fresh_answer sha256 key strict want_all a su None
  | Raise e =>
      (exists lines, (lines = su_session su \/ lines = su_scan su) /\ look fromisoformat lines want_all (anchor_epoch a) = Raise e) \/
      (exists body, fresh_answer sha256 key strict want_all a su (Some (From_mailbox body)) /\ forall s, body <> VStr s) \/
      (exists f text, fresh_answer sha256 key strict want_all a su (Some f) /\ display f = Ok text /\ utf8_valid text = false /\
         e = no_encoding)
  end.
Proof.
  unfold cmd_oracle_result. pose proof (oracle_result_fresh sha256 key strict want_all a su) as H.
  destruct (oracle_result _ _ _ _ _ _ _) as [[f|]|e]; cbn [res_bind]; [|done|by left].
  destruct (display f) as [text|e] eqn:Hd; cbn [res_bind].
  - unfold _truncate_result. destruct (utf8_valid text) eqn:Hu; cbn [res_bind].
    + split; [done|]. exists text. by rewrite Hu.
    + right. right. by exists f, text.
  - right. left. destruct f as [|body|]; try done. exists body. split; [done|]. by intros s ->.
Qed.

(** ** The anchor *)
Lemma carried_get d k : dget (carried d) k = if decide (k ∈ _LAST_ASK_FIELDS) then dget d k else None.
Proof.
  unfold carried. generalize _LAST_ASK_FIELDS. intros l. induction l as [|x l IH]; [done|].
  cbn [map List.concat]. rewrite dget_app, IH. destruct (decide (k = x)) as [->|Hk].
  - rewrite (decide_True (P := x ∈ x :: l)) by by left. destruct (dget d x) as [v|]; cbn [dget]; [by rewrite String.eqb_refl|].
    by case_decide.
  - assert (Ho : forall o : option pyval, dget (match o with Some v => [(x, v)] | None => [] end) k = None).
    { intros [v|]; [|done]. cbn [dget]. apply String.eqb_neq in Hk. by rewrite Hk. }
    rewrite Ho. case_decide as H1; case_decide as H2; try done; [exfalso; apply H2; by right|]. apply elem_of_cons in H2 as [|]; done.
Qed.
Lemma dget_dupdate (d e : pydict) k : dict_wf e -> dget (dupdate d e) k = match dget e k with Some v => Some v | None => dget d k end.
Proof.
  unfold dupdate. revert d. induction e as [|[k' v] e IH]; intros d He; [done|]. cbn [foldl fst snd].
  apply NoDup_cons in He as [Hn He]. rewrite IH by done. cbn [dget]. destruct (String.eqb_spec k k') as [->|Hk].
  - rewrite dget_dset_eq. destruct (dget e k') eqn:Hg; [|done]. exfalso. apply Hn.
    apply dget_elem_of in Hg; [|done]. by apply (list_elem_of_fmap_2 fst) in Hg.
  - by rewrite dget_dset_ne by congruence.
Qed.
Lemma carried_wf d : dict_wf (carried d).
Proof.
  unfold carried. assert (Hn : NoDup _LAST_ASK_FIELDS) by (apply (bool_decide_unpack _); vm_compute; exact I).
  induction Hn as [|x l Hx Hn IH]; [constructor|]. cbn [map List.concat]. unfold dict_wf. rewrite fmap_app. apply NoDup_app.
  split; [destruct (dget d x); repeat constructor; by intros ?%elem_of_nil|]. split; [|done].
  intros y Hy Hin. destruct (dget d x); [|by apply elem_of_nil in Hy]. apply list_elem_of_singleton in Hy. simpl in Hy. subst y.
  apply list_elem_of_fmap in Hin as ([k v] & -> & Hin). apply list_elem_of_In, in_concat in Hin as (l' & Hl & Hin).
  apply list_elem_of_In, list_elem_of_fmap in Hl as (k' & -> & Hl). apply list_elem_of_In in Hin.
  destruct (dget d k'); [|by apply elem_of_nil in Hin]. apply list_elem_of_singleton in Hin. simplify_eq/=. done.
Qed.
Abbreviation written x s := (x s).2.
Definition meta_of key b st_ sw (extra : pydict) now (previous : pydict) : pydict :=
  dupdate (dupdate [("review_key", VStr key); ("swarm_session_id", sw); ("backend_session_id", b); ("bound_at", VStr now); ("status", st_)]
             (carried previous)) extra.
Lemma write_run saved key b st_ sw extra now s : written (_write_oracle_meta saved key b st_ sw extra now) s =
  if saved then <[_oracle_meta_path key := VDict (meta_of key b st_ sw extra now (_read_oracle_meta key s))]> s else s.
Proof. by destruct saved. Qed.
Lemma read_insert key d s : _read_oracle_meta key (<[_oracle_meta_path key := VDict d]> s) = d.
Proof. unfold _read_oracle_meta. by rewrite lookup_insert_eq. Qed.
Lemma read_insert_ne key key' d s : safe_name key' <> safe_name key ->
  _read_oracle_meta key' (<[_oracle_meta_path key := VDict d]> s) = _read_oracle_meta key' s.
Proof. intros Hk. unfold _read_oracle_meta. by rewrite lookup_insert_ne by (unfold _oracle_meta_path; congruence). Qed.
Lemma read_written saved key b st_ sw extra now s : dict_wf extra -> forall k,
  dget (_read_oracle_meta key (written (_write_oracle_meta saved key b st_ sw extra now) s)) k =
  if saved then match dget extra k with
                | Some v => Some v
                | None => match dget (carried (_read_oracle_meta key s)) k with
                          | Some v => Some v
                          | None => dget [("review_key", VStr key); ("swarm_session_id", sw); ("backend_session_id", b);
                                          ("bound_at", VStr now); ("status", st_)] k
                          end
                end
  else dget (_read_oracle_meta key s) k.
Proof.
  intros He k. rewrite write_run. destruct saved; [|done]. rewrite read_insert.
  unfold meta_of. rewrite dget_dupdate by done. destruct (dget extra k); [done|]. rewrite dget_dupdate by apply carried_wf. done.
Qed.
Lemma written_other saved key b st_ sw extra now s key' : safe_name key' <> safe_name key ->
  _read_oracle_meta key' (written (_write_oracle_meta saved key b st_ sw extra now) s) = _read_oracle_meta key' s.
Proof.
  intros Hk. rewrite write_run. destruct saved; [|done]. by apply read_insert_ne.
Qed.
Definition asked (rid state : string) (gen : option Z) (now : string) : pydict :=
  [("last_ask_at", VStr now); ("last_request_id", VStr rid); ("last_command_state", VStr state);
   ("last_generation", match gen with Some g => VInt g | None => VNone end)].
Lemma asked_wf rid state gen now : dict_wf (asked rid state gen now).
Proof. unfold dict_wf. simpl. apply (bool_decide_unpack _). vm_compute. exact I. Qed.
Lemma record_run saved key rid state gen now s : let keep k := py_or (dgetd (_read_oracle_meta key s) k VNone) (VStr "") in
  written (_record_last_ask saved key rid state gen now) s =
  written (_write_oracle_meta saved key (keep "backend_session_id") (keep "status") (keep "swarm_session_id") (asked rid state gen now) now) s.
Proof. done. Qed.
Lemma py_or_empty v : py_or (py_or v (VStr "")) (VStr "") = py_or v (VStr "").
Proof.
  unfold py_or at 1. destruct (truthy (py_or v (VStr ""))) eqn:Hv; [done|]. unfold py_or in *. destruct (truthy v) eqn:Hv'; [congruence|done].
Qed.
Lemma py_or_str r : py_or (VStr r) (VStr "") = VStr r.
Proof. by destruct r. Qed.
Lemma anchor_of_fields key s key' s' : (forall k, k ∈ _LAST_ASK_FIELDS ->
  dget (_read_oracle_meta key' s') k = dget (_read_oracle_meta key s) k) ->
  _latest_ask_anchor fromisoformat key' s' = _latest_ask_anchor fromisoformat key s.
Proof.
  intros Hk. unfold _latest_ask_anchor, dgetd. rewrite !Hk by in_list. done.
Qed.
(** Binding a review to a session again never changes the anchor of its latest
    question, and neither binding nor asking changes that of a review whose key has
    another safe form; a question that is recorded, with a time that can be read, is
    the anchor from then on, with its request, its command's state and its
    generation, and the sessions that the review is bound to are kept. When the file
    cannot be written everything stays as it was. *)
Theorem anchor_kept saved key now s :
  (forall b st_ sw, _latest_ask_anchor fromisoformat key (written (_write_oracle_meta saved key b st_ sw [] now) s) =
                    _latest_ask_anchor fromisoformat key s) /\
  (forall key' rid state gen b st_ sw, safe_name key' <> safe_name key ->
    _latest_ask_anchor fromisoformat key' (written (_record_last_ask saved key rid state gen now) s) = _latest_ask_anchor fromisoformat key' s /\
    _latest_ask_anchor fromisoformat key' (written (_write_oracle_meta saved key b st_ sw [] now) s) = _latest_ask_anchor fromisoformat key' s) /\
  (forall rid state gen t, parse (VStr now) = Ok (Some t) -> let s' := written (_record_last_ask saved key rid state gen now) s in
    if saved
    then _latest_ask_anchor fromisoformat key s' =
           Ok (Some {| an_at := t; an_iso := VStr now; an_request := VStr rid; an_state := VStr state;
                       an_generation := match gen with Some g => VInt g | None => VNone end |}) /\
         forall k, k ∈ ["backend_session_id"; "status"; "swarm_session_id"] ->
           py_or (dgetd (_read_oracle_meta key s') k VNone) (VStr "") = py_or (dgetd (_read_oracle_meta key s) k VNone) (VStr "")
    else s' = s).
Proof.
  split; [|split].
  - intros b st_ sw. apply anchor_of_fields. intros k Hk. rewrite read_written by constructor. destruct saved; [|done].
    cbn [dget]. rewrite carried_get, decide_True by done. destruct (dget _ k); [done|]. 
    unfold _LAST_ASK_FIELDS in Hk. repeat (apply elem_of_cons in Hk as [->|Hk]; [done|]). by apply elem_of_nil in Hk.
  - intros key' rid state gen b st_ sw Hk. split; apply anchor_of_fields; intros k _; [|by rewrite written_other].
    by rewrite record_run, written_other.
  - intros rid state gen t Ht. cbv zeta. rewrite record_run. destruct saved; [|done]. split.
    + unfold _latest_ask_anchor, dgetd. rewrite !read_written by apply asked_wf. unfold asked.
      repeat match goal with |- context [dget (?p :: ?l) ?k] => let x := eval cbv in (dget (p :: l) k) in change (dget (p :: l) k) with x end.
      cbv beta iota. rewrite !py_or_str, Ht. done.
    + intros k Hk. unfold dgetd at 1. rewrite !read_written by apply asked_wf. rewrite carried_get.
      repeat (apply elem_of_cons in Hk as [->|Hk]; [apply py_or_empty|]). by apply elem_of_nil in Hk.
Qed.

(** ** Reviews that are taken for each other *)
Lemma candidates_raise keys since request n files f t v : f ∈ take n files -> rf_mtime f = Some t -> rf_json f = Some v ->
  (forall d, v <> VDict d) -> exists e, candidates fromisoformat keys since request n files = Raise e.
Proof.
  intros Hf Ht Hv Hd. revert files Hf. induction n as [|n IH]; intros files Hf; [by rewrite take_0 in Hf; apply elem_of_nil in Hf|].
  destruct files as [|g files]; [by rewrite take_nil in Hf; apply elem_of_nil in Hf|]. cbn [take candidates] in *.
  apply elem_of_cons in Hf as [<-|Hf].
  - rewrite Ht, Hv. destruct v as [| | | | | |d]; try by eexists. by destruct (Hd d).
  - destruct (IH files Hf) as [e He]. rewrite He. destruct (rf_mtime g) as [t'|], (rf_json g) as [m|]; try by exists e.
    cbn [res_bind]. destruct (_match fromisoformat keys since request m t') as [b|e']; cbn [res_bind]; by eexists.
Qed.
(** One JSON file in any history directory that holds no object, and that is among
    the first two hundred, hides every report of every other file, whatever review
    they are for: the scan answers that there is none. *)
Theorem one_file_hides keys since request histories files f t v :
  known_sessions fromisoformat keys since request histories = None ->
  f ∈ take 200 files -> rf_mtime f = Some t -> rf_json f = Some v -> (forall d, v <> VDict d) ->
  _scan_mailbox_report fromisoformat keys since request histories files = None.
Proof.
  intros Hk Hf Ht Hv Hd. unfold _scan_mailbox_report. rewrite Hk.
  destruct (candidates_raise keys since request 200 files f t v Hf Ht Hv Hd) as [e ->]. done.
Qed.
Definition slug (key : string) : string := last_chars 12 (replace_char ":"%char "-" key).
(** Reviews are not told apart by all of their keys. Those whose keys have the same
    twelve last characters take each other's reports, if these are addressed to that
    short form; and those whose keys have the same safe form share the anchor, so
    that a question to the one is the latest question of the other. *)
Theorem reviews_meet sha256 k1 k2 :
  (slug k1 = slug k2 -> forall since request d mtime, dgetd d "reply_to" VNone = VStr (slug k2) -> truthy (VStr (slug k2)) = true ->
    _match fromisoformat (_review_reply_to_candidates sha256 k1) since request (VDict d) mtime =
    _match fromisoformat (_review_reply_to_candidates sha256 k2) since request (VDict d) mtime) /\
  (safe_name k1 = safe_name k2 -> forall rid state gen now s,
    let s' := written (_record_last_ask true k2 rid state gen now) s in
    _latest_ask_anchor fromisoformat k1 s' = _latest_ask_anchor fromisoformat k2 s' /\
    dget (_read_oracle_meta k1 s') "last_request_id" = Some (VStr rid)).
Proof.
  split.
  - intros Hs since request d mtime Hd Ht. unfold _match. destruct (negb _); [done|]. rewrite Hd. unfold py_or. rewrite Ht.
    rewrite !bool_decide_eq_true_2; [done|unfold _review_reply_to_candidates; fold (slug k2)|
      unfold _review_reply_to_candidates; fold (slug k1); rewrite Hs]; right; right; by left.
  - intros Hs rid state gen now s. cbv zeta.
    assert (Hr : forall s, _read_oracle_meta k1 s = _read_oracle_meta k2 s) by (intros; unfold _read_oracle_meta, _oracle_meta_path; by rewrite Hs).
    split; [apply anchor_of_fields; by rewrite Hr|]. by rewrite Hr, record_run, read_written by apply asked_wf.
Qed.

(** ** What a wait prints *)
Definition within (epoch : Z) (request : pyval) (strict : bool) (ev : pydict) : Prop :=
  (0 < epoch -> exists ts, parse (dgetd ev "created_at" (VStr "")) = Ok ts /\
    match ts with Some t => epoch <= t | None => strict = false end) /\
  (truthy request = true -> truthy (py_or (dgetd ev "request_id" VNone) (VStr "")) = true ->
   same_key (py_or (dgetd ev "request_id" VNone) (VStr "")) request = true).
Lemma outside_within ev w strict : _event_outside_ask_window fromisoformat ev w strict = Ok false -> within (wi_epoch w) (wi_request w) strict ev.
Proof.
  unfold _event_outside_ask_window, within. destruct (_ && _ && _) eqn:Hn.
  - intros _. apply andb_true_iff in Hn as [Hn Hr]. apply andb_true_iff in Hn as [He _]. apply negb_true_iff in Hr. split; [lia|congruence].
  - intros H. clear Hn. apply res_bind_Ok in H as (ts & Hts & H). destruct (Z.ltb_spec 0 (wi_epoch w)) as [He|He].
    + destruct (match ts with Some t => t <? wi_epoch w | None => strict end) eqn:Hb; [done|].
      split; [intros _; exists ts; split; [done|]; destruct ts; [lia|done]|]. intros Hr Hq. destruct (if is_none _ || is_none _ then _ else _); [done|].
      injection H as H. rewrite Hr, Hq in H. by apply negb_false_iff in H.
    + split; [lia|]. intros Hr Hq. destruct (if is_none _ || is_none _ then _ else _); [done|].
      injection H as H. rewrite Hr, Hq in H. by apply negb_false_iff in H.
Qed.
Lemma final_of_printed w n e t : final_of fromisoformat w n e = Ok (Printed t) -> exists ls text,
  se_transcript e = Some ls /\ said_last (wi_epoch w) ls text /\ _truncate_result text n = Ok t.
Proof.
  unfold final_of, _wait_final_text. destruct (se_transcript e) as [ls|]; [|done]. unfold _extract_assistant_messages.
  intros H. apply res_bind_Ok in H as (f & Hf & H). apply res_bind_Ok in Hf as (ms & Hms & Hf). injection Hf as <-.
  apply res_bind_Ok in Hms as (ts & Hts & Hms). injection Hms as <-.
  destruct (last ts) as [x|] eqn:Hl; [|by apply last_None in Hl as ->]. rewrite (last_n_1 _ _ Hl) in H. cbn [last] in H.
  apply res_bind_Ok in H as (t' & Ht & H). injection H as <-. exists ls, x. split; [done|]. split; [by eapply said_last_spec|done].
Qed.

(** An event that a wait looked at. *)
Definition event_of (first : option (list seen_event)) (rounds : list wait_round) (strict : bool) (e : seen_event) : Prop :=
  (strict = true /\ exists evs, first = Some evs /\ e ∈ evs) \/
  (strict = false /\ exists r evs, r ∈ rounds /\ wr_events r = Some evs /\ e ∈ evs).
Lemma boot_printed w n evs t : boot fromisoformat w n evs = Ok (Some (Printed t)) -> exists e, e ∈ evs /\
  within (wi_epoch w) (wi_request w) true (se_event e) /\ final_of fromisoformat w n e = Ok (Printed t).
Proof.
  induction evs as [|e evs IH]; [done|]. cbn [boot]. intros H.
  assert (Hrec : boot fromisoformat w n evs = Ok (Some (Printed t)) -> exists e', e' ∈ e :: evs /\
    within (wi_epoch w) (wi_request w) true (se_event e') /\ final_of fromisoformat w n e' = Ok (Printed t)).
  { intros H'. destruct (IH H') as (e' & ? & ?). exists e'. split; [by right|done]. }
  destruct (negb _); [by apply Hrec|]. apply res_bind_Ok in H as (state & _ & H). destruct (negb _); [by apply Hrec|].
  apply res_bind_Ok in H as (outside & Ho & H). destruct outside; [by apply Hrec|].
  apply res_bind_Ok in H as (r & Hf & H). injection H as ->. exists e. split; [by left|]. split; [by apply outside_within|done].
Qed.
Lemma round_printed w n evs t : round_events fromisoformat w n evs = Ok (Some (Printed t)) -> exists e, e ∈ evs /\
  within (wi_epoch w) (wi_request w) false (se_event e) /\ final_of fromisoformat w n e = Ok (Printed t).
Proof.
  induction evs as [|e evs IH]; [done|]. cbn [round_events]. intros H.
  assert (Hrec : round_events fromisoformat w n evs = Ok (Some (Printed t)) -> exists e', e' ∈ e :: evs /\
    within (wi_epoch w) (wi_request w) false (se_event e') /\ final_of fromisoformat w n e' = Ok (Printed t)).
  { intros H'. destruct (IH H') as (e' & ? & ?). exists e'. split; [by right|done]. }
  apply res_bind_Ok in H as (outside & Ho & H). destruct outside; [by apply Hrec|]. apply outside_within in Ho.
  destruct (eq_str _ "ASSISTANT_PROGRESS").
  - apply res_bind_Ok in H as (r & Hf & H). destruct r as [u|]; [|by apply Hrec]. injection H as ->. exists e. split; [by left|done].
  - destruct (eq_str _ "TASK_STATE"); [|by apply Hrec]. apply res_bind_Ok in H as (state & _ & H).
    destruct (eq_str state _); [|by apply Hrec]. apply res_bind_Ok in H as (r & Hf & H). injection H as ->. exists e. split; [by left|done].
Qed.
(** The window of a wait only ever changes its generation. *)
Definition same_window (w w' : window) : Prop := wi_epoch w' = wi_epoch w /\ wi_request w' = wi_request w.
Lemma wait_loop_printed auto n rounds w polls recovered t : wait_loop fromisoformat auto n rounds w polls recovered = Ok (Answer (Printed t)) ->
  exists w' r evs e, same_window w w' /\ r ∈ rounds /\ wr_events r = Some evs /\ e ∈ evs /\
    within (wi_epoch w) (wi_request w) false (se_event e) /\ final_of fromisoformat w' n e = Ok (Printed t).
Proof.
  revert w polls recovered. induction rounds as [|r rounds IH]; intros w polls recovered; [done|]. cbn [wait_loop]. cbv zeta.
  destruct (wr_events r) as [evs|] eqn:He; [|done]. intros H. apply res_bind_Ok in H as (f & Hf & H). destruct f as [a|].
  { injection H as ->. apply round_printed in Hf as (e & ? & ? & ?). exists w, r, evs, e. split; [done|]. split; [by left|done]. }
  assert (Hrec : forall w0 p b, same_window w w0 -> wait_loop fromisoformat auto n rounds w0 p b = Ok (Answer (Printed t)) ->
    exists w' r0 evs0 e, same_window w w' /\ r0 ∈ r :: rounds /\ wr_events r0 = Some evs0 /\ e ∈ evs0 /\
      within (wi_epoch w) (wi_request w) false (se_event e) /\ final_of fromisoformat w' n e = Ok (Printed t)).
  { intros w0 p b [He0 Hr0] H0. destruct (IH _ _ _ H0) as (w' & r0 & evs0 & e & [? ?] & ? & ? & ? & Hw & ?). rewrite He0, Hr0 in Hw.
    exists w', r0, evs0, e. split; [split; congruence|]. split; [by right|done]. }
  assert (Hgo : (if wr_late r then Ok Timeout else if wr_interrupted r then Ok Interrupted
                 else wait_loop fromisoformat auto n rounds w (S polls) recovered) = Ok (Answer (Printed t)) ->
    wait_loop fromisoformat auto n rounds w (S polls) recovered = Ok (Answer (Printed t))).
  { destruct (wr_late r); [done|]. by destruct (wr_interrupted r). }
  destruct (wr_stuck r) as [[]|]; [|by eapply Hrec, Hgo..]. destruct (Nat.eqb _ 0); [|by eapply Hrec, Hgo].
  destruct (auto && negb recovered); [|done]. destruct (wr_recovery r) as [gen|]; [|done]. eapply Hrec; [|exact H]. done.
Qed.
(** A wait only prints the last text that the assistant gave at or after the
    question, as the transcript stands when an event is looked at that is not older
    than the question and is about no other request; an event without a time counts
    only among those that arrive while it waits, not among those that were there. A
    recovery of the runtime on the way does not move the question. *)
Theorem wait_prints_fresh a auto n first rounds t : _wait_for_new_output fromisoformat a auto n first rounds = Ok (Answer (Printed t)) ->
  exists strict e ls text, event_of first rounds strict e /\ within (anchor_epoch a) (anchor_request a) strict (se_event e) /\
    se_transcript e = Some ls /\ said_last (anchor_epoch a) ls text /\ _truncate_result text n = Ok t.
Proof.
  unfold _wait_for_new_output. intros H. apply res_bind_Ok in H as (f & Hf & H). destruct f as [r|].
  - injection H as ->. destruct first as [evs|]; [|done]. apply boot_printed in Hf as (e & Hin & Hw & Hp).
    apply final_of_printed in Hp as (ls & text & ? & ? & ?). exists true, e, ls, text. split; [left; naive_solver|done].
  - apply wait_loop_printed in H as (w' & r & evs & e & [He Hr] & ? & ? & ? & ? & Hp).
    apply final_of_printed in Hp as (ls & text & ? & Hs & ?). exists false, e, ls, text. split; [right; naive_solver|].
    rewrite He in Hs. done.
Qed.
Lemma wait_loop_ends auto n rounds w polls (recovered : bool) :
  ((if recovered then 1 else 2) <= length (List.filter wr_late rounds))%nat ->
  wait_loop fromisoformat auto n rounds w polls recovered <> Ok Still_waiting.
Proof.
  revert w polls recovered. induction rounds as [|r rounds IH]; intros w polls recovered Hn; [by destruct recovered; simpl in Hn; lia|].
  cbn [wait_loop]. cbv zeta. destruct (wr_events r) as [evs|]; [|done]. destruct (round_events _ _ _ _) as [[f|]|e]; [done| |done].
  cbn [res_bind]. cbn [List.filter] in Hn.
  assert (Hgo : (if wr_late r then Ok Timeout else if wr_interrupted r then Ok Interrupted
                 else wait_loop fromisoformat auto n rounds w (S polls) recovered) <> Ok Still_waiting).
  { destruct (wr_late r); [done|]. destruct (wr_interrupted r); [done|]. by apply IH. }
  destruct (wr_stuck r) as [[]|]; [|done..]. destruct (Nat.eqb _ 0); [|done]. destruct auto, recovered; cbn [andb negb]; try done.
  destruct (wr_recovery r) as [gen|]; [|done]. apply IH. destruct (wr_late r); simpl in Hn; lia.
Qed.
(** C34: A wait with a deadline ends: as soon as two of its rounds end after the
    deadline it has, one if no recovery starts the time again, it has stopped with an
    answer, a failure or the timeout, whatever events, stuck signals and recoveries
    there are. *)
Theorem wait_ends a (auto : bool) n first rounds :
  ((if auto then 2 else 1) <= length (List.filter wr_late rounds))%nat ->
  _wait_for_new_output fromisoformat a auto n first rounds <> Ok Still_waiting.
Proof.
  intros Hn. unfold _wait_for_new_output. destruct (match first with Some evs => _ | None => _ end) as [[r|]|e]; [done| |done].
  cbn [res_bind]. destruct auto; [by apply (wait_loop_ends true)|].
  assert (Hf : forall rounds w p b, wait_loop fromisoformat false n rounds w p b = wait_loop fromisoformat false n rounds w p true).
  { clear. intros rounds. induction rounds as [|r rounds IH]; intros w p b; [done|]. cbn [wait_loop andb]. cbv zeta. by rewrite (IH w (S p) b). }
  rewrite Hf. by apply (wait_loop_ends false).
Qed.

(** ** What counts as stuck *)
Definition newest_are_skips (es : list (stuck_kind * Z)) : Prop := exists before x y z, es = before ++ [(Skip, x); (Skip, y); (Skip, z)].
Lemma leading_skips_spec es : Nat.leb _STUCK_SKIP_MIN (leading_skips (rev es)) = true <-> newest_are_skips es.
Proof.
  split.
  - intros H. pose proof (rev_involutive es) as Hr. destruct (rev es) as [|[[] x] [|[[] y] [|[[] z] l]]]; try done.
    rewrite <- Hr. exists (rev l), z, y, x. simpl. by rewrite <- !app_assoc.
  - intros (b & x & y & z & ->). by rewrite rev_app_distr.
Qed.
Lemma work_times_ok newest ts : work_times fromisoformat newest = Ok ts -> forall kind v t,
  (kind, v) ∈ newest -> kind ∈ _WORK_EVENT_KINDS -> parse v = Ok (Some t) -> t ∈ ts.
Proof.
  revert ts. induction newest as [|[k0 v0] newest IH]; intros ts; cbn [work_times].
  - intros _ kind v t Hin. by apply elem_of_nil in Hin.
  - intros H kind v t Hin Hk Ht. apply res_bind_Ok in H as (o & Ho & H). apply res_bind_Ok in H as (rest & Hrest & H). injection H as <-.
    apply elem_of_cons in Hin as [[= -> ->]|Hin].
    + rewrite bool_decide_eq_true_2 in Ho by done. rewrite Ht in Ho. injection Ho as <-. by left.
    + specialize (IH _ Hrest _ _ _ Hin Hk Ht). destruct o; [by right|done].
Qed.
Lemma foldr_max_le l t x : x ∈ t :: l -> x <= foldr Z.max t l.
Proof.
  intros Hx. apply elem_of_cons in Hx as [->|Hx]; [induction l as [|y l IH]; simpl; lia|].
  induction Hx as [y l|x y l Hx IH]; simpl; lia.
Qed.
(** The strong signal is given exactly when the runtime is known and the newest
    three of the events that its bound session has, since it was first seen, are tools
    that an advisory skipped, with nothing that worked among or after them. The weak
    one is only given for a runtime that is alive, active and working, that is in no
    tool, and of whose work events none is less than a quarter of an hour old. *)
Theorem stuck_spec v session newest now :
  let r := _detect_oracle_stuck fromisoformat v session newest now in
  (r = Ok (Some Strong) <-> rt_id v <> "" /\ rt_generation v <> None /\ exists lines since es, session = Some (Some lines) /\
     parse (rt_first_seen v) = Ok (Some since) /\ _scan_session_stuck_events fromisoformat lines since = Ok es /\
     newest_are_skips es) /\
  (r = Ok (Some Weak) -> rt_alive v = true /\ rt_status v <> "stopped" /\ rt_agent_state v = "agent_running" /\
     rt_last_kind v <> "TOOL_STARTED" /\
     forall kind ts t, (kind, ts) ∈ newest -> kind ∈ _WORK_EVENT_KINDS -> parse ts = Ok (Some t) -> t + _STALL_IDLE_SECONDS <= now).
Proof.
  cbv zeta. unfold _detect_oracle_stuck. set (strong := match session with Some _ => _ | None => _ end).
  destruct (String.eqb_spec (rt_id v) "") as [Hid|Hid]; cbn [orb]; [split; [split; [done|]; by intros (? & _)|done]|].
  case_bool_decide as Hg; [split; [split; [done|]; by intros (_ & ? & _)|done]|].
  assert (Hs : strong = Ok true <-> exists lines since es, session = Some (Some lines) /\
     parse (rt_first_seen v) = Ok (Some since) /\ _scan_session_stuck_events fromisoformat lines since = Ok es /\ newest_are_skips es).
  { subst strong. setoid_rewrite <- leading_skips_spec. destruct session as [found|]; [|split; [done|]; by intros (? & ? & ? & ? & _)].
    rewrite res_bind_Ok. split.
    - intros (since & Hp & H). destruct found as [lines|]; [|done]. destruct since as [since|]; [|done].
      apply res_bind_Ok in H as (es & He & H). injection H as H. by exists lines, since, es.
    - intros (lines & since & es & [= ->] & Hp & He & H). exists (Some since). split; [done|]. rewrite He. cbn [res_bind]. by rewrite H. }
  rewrite <- Hs. destruct strong as [[]|e]; cbn [res_bind]; [by split|..]; [|by split; [split; [done|]; intros (_ & _ & ?)|]].
  assert (Hw : forall r, (if terminal_view v || negb (rt_alive v) then Ok None else r) = Ok (Some Weak) ->
    rt_alive v = true /\ rt_status v <> "stopped" /\ rt_agent_state v = "agent_running" /\ r = Ok (Some Weak)).
  { intros r. destruct (terminal_view v) eqn:Ht; [done|]. destruct (rt_alive v); [|done]. unfold terminal_view in Ht.
    apply orb_false_iff in Ht as [Ht _]. apply orb_false_iff in Ht as [Ht1 Ht2]. apply negb_false_iff, String.eqb_eq in Ht2.
    by apply String.eqb_neq in Ht1. }
  split.
  - split; [|by intros (_ & _ & ?)]. destruct (terminal_view v || negb (rt_alive v)); [done|].
    destruct (work_times _ _) as [[|t ts]|]; cbn [res_bind]; try done. destruct (String.eqb _ _); [done|]. by destruct (_ <=? _).
  - intros H. apply Hw in H as (? & ? & ? & H). apply res_bind_Ok in H as (ts & Hts & H). destruct ts as [|t ts]; [done|].
    destruct (String.eqb_spec (rt_last_kind v) "TOOL_STARTED") as [|Hk]; [done|]. destruct (Z.leb_spec _STALL_IDLE_SECONDS (now - foldr Z.max t ts)) as [Hle|]; [|done].
    split_and!; try done. intros kind x u Hin Hkind Hx. pose proof (foldr_max_le ts t u (work_times_ok _ _ Hts _ _ _ Hin Hkind Hx)). lia.
Qed.
End facts.

(** ** At work *)
Definition clock (s : string) : option Z :=
  if String.eqb s "2026-08-01T10:00:00+00:00" then Some 36000000 else
  if String.eqb s "2026-08-01T10:05:00+00:00" then Some 36300000 else
  if String.eqb s "2026-08-01T11:00:00+00:00" then Some 39600000 else None.
Definition no_hash (s : string) : string := "0123456789abcdef".
Definition spoken (at_ text : string) : pyval :=
  VDict [("type", VStr "message"); ("timestamp", VStr at_);
         ("message", VDict [("role", VStr "assistant"); ("content", VList [VDict [("type", VStr "text"); ("text", VStr text)]])])].
Definition talk : list (option pyval) :=
  [Some (spoken "2026-08-01T10:00:00Z" "before"); None; Some (spoken "2026-08-01T11:00:00Z" "after")].
Definition question : anchor :=
  {| an_at := 36300000; an_iso := VStr "2026-08-01T10:05:00Z"; an_request := VStr "req-2"; an_state := VStr "TRIGGERED"; an_generation := VInt 1 |}.
Definition report_to (key request at_ body : string) : pydict :=
  [("kind", VStr "REPORT"); ("reply_to", VStr key); ("request_id", VStr request); ("created_at", VStr at_); ("body", VStr body)].
Definition ended (at_ : string) (lines : option (list (option pyval))) : seen_event :=
  {| se_event := [("kind", VStr "TASK_STATE"); ("created_at", VStr at_); ("generation", VInt 1);
                  ("payload", VDict [("state", VStr "agent_end")])];
     se_transcript := lines |}.
Definition quiet_round (late : bool) (evs : list seen_event) : wait_round :=
  {| wr_events := Some evs; wr_stuck := None; wr_recovery := None; wr_late := late; wr_interrupted := false |}.

Example result_of_talk : cmd_oracle_result clock no_hash "proj:oracle:gfx" false false 20000 (Some question)
    {| su_session := Some talk; su_histories := []; su_files := []; su_scan := None |} =
  Ok (Some (From_session ["after"], {| tr_text := "after"; tr_cut := false; tr_bytes := 0; tr_total := 5 |})).
Proof. reflexivity. Qed.
(** A fresh answer with the escape of a lone surrogate ends the command. *)
Theorem surrogate_unmeasured : cmd_oracle_result clock no_hash "proj:oracle:gfx" false false 20000 (Some question)
    {| su_session := Some [Some (spoken "2026-08-01T11:00:00Z" ("after" +:+ utf8 55357))]; su_histories := []; su_files := []; su_scan := None |} =
  Raise no_encoding.
Proof. reflexivity. Qed.
Example result_of_report : oracle_result clock no_hash "proj:oracle:gfx" false false (Some question)
    {| su_session := Some [Some (spoken "2026-08-01T10:00:00Z" "before")];
       su_histories := [Ok [report_to "proj-oracle-gfx" "req-1" "2026-08-01T11:00:00Z" "other";
                            report_to "proj-oracle-gfx" "req-2" "2026-08-01T11:00:00Z" "done"]];
       su_files := []; su_scan := None |} = Ok (Some (From_mailbox (VStr "done"))).
Proof. reflexivity. Qed.
Example wait_of_talk : _wait_for_new_output clock (Some question) false 0 (Some [ended "2026-08-01T10:00:00Z" (Some talk)])
    [quiet_round false []; quiet_round false [ended "2026-08-01T11:00:00Z" (Some talk)]] =
  Ok (Answer (Printed {| tr_text := "after"; tr_cut := false; tr_bytes := 0; tr_total := 5 |})).
Proof. reflexivity. Qed.
Example cut_of_lines : tr_text (cut_to "one two three four" 9) = "one two".
Proof. reflexivity. Qed.

Lemma truncate_spec_witness : starts_cont "one two three four" = false /\
  tr_text (cut_to "one two three four" 9) = "one two" /\
  byte_len (tr_text (cut_to "one two three four" 9)) <= 9.
Proof.
  split; [reflexivity|]. split; [reflexivity|].
  destruct (truncate_spec "one two three four" 9 ltac:(reflexivity)) as (_ & _ & _ & H). apply H.
Defined.
Lemma wait_prints_fresh_witness : let r := _wait_for_new_output clock (Some question) false 0 None
    [quiet_round false [ended "2026-08-01T11:00:00Z" (Some talk)]] in
  exists t, r = Ok (Answer (Printed t)) /\ exists ls text, said_last clock 36300000 ls text /\ _truncate_result text 0 = Ok t.
Proof.
  eexists. split; [reflexivity|].
  destruct (wait_prints_fresh clock (Some question) false 0 None [quiet_round false [ended "2026-08-01T11:00:00Z" (Some talk)]] _ eq_refl)
    as (strict & e & ls & text & _ & _ & _ & Hs & Ht). exists ls, text. split; [exact Hs|exact Ht].
Defined.
Lemma wait_ends_witness : _wait_for_new_output clock (Some question) true 0 None
  [quiet_round false []; quiet_round true []; quiet_round true []] <> Ok Still_waiting.
Proof. apply (wait_ends clock (Some question) true 0 None); simpl; lia. Defined.
Lemma anchor_kept_witness : clock "2026-08-01T10:05:00+00:00" = Some 36300000 /\
  an_request <$> default None (match _latest_ask_anchor clock "proj:oracle:gfx"
    (_record_last_ask true "proj:oracle:gfx" "req-2" "TRIGGERED" (Some 1) "2026-08-01T10:05:00Z" ∅).2 with Ok a => Some a | Raise _ => None end) =
  Some (VStr "req-2").
Proof.
  split; [reflexivity|]. destruct (anchor_kept clock true "proj:oracle:gfx" "2026-08-01T10:05:00Z" ∅) as (_ & _ & H).
  destruct (H "req-2" "TRIGGERED" (Some 1) 36300000 eq_refl) as [-> _]. reflexivity.
Defined.
Definition one_file : list report_file :=
  [{| rf_mtime := Some 39600000; rf_json := Some (VList []) |};
   {| rf_mtime := Some 39600000; rf_json := Some (VDict (report_to "proj-oracle-gfx" "req-2" "2026-08-01T11:00:00Z" "done")) |}].
Lemma one_file_hides_witness :
  _scan_mailbox_report clock (_review_reply_to_candidates no_hash "proj:oracle:gfx") 0 (VStr "req-2") [] one_file = None /\
  _scan_mailbox_report clock (_review_reply_to_candidates no_hash "proj:oracle:gfx") 0 (VStr "req-2") [] (drop 1 one_file) = Some (VStr "done").
Proof.
  split; [|reflexivity]. apply (one_file_hides clock _ _ _ [] one_file {| rf_mtime := Some 39600000; rf_json := Some (VList []) |} 39600000 (VList []));
    [reflexivity|left|reflexivity|reflexivity|discriminate].
Defined.
Lemma reviews_meet_witness : "left:oracle:gfx:blur" <> "right:oracle:gfx:blur" /\
  _match clock (_review_reply_to_candidates no_hash "left:oracle:gfx:blur") 0 (VStr "")
    (VDict (report_to "cle-gfx-blur" "req-9" "2026-08-01T11:00:00Z" "of the right one")) 0 = Ok true /\
  _match clock (_review_reply_to_candidates no_hash "right:oracle:gfx:blur") 0 (VStr "")
    (VDict (report_to "cle-gfx-blur" "req-9" "2026-08-01T11:00:00Z" "of the right one")) 0 = Ok true.
Proof.
  split; [discriminate|]. split; [|reflexivity].
  destruct (reviews_meet clock no_hash "left:oracle:gfx:blur" "right:oracle:gfx:blur") as [H _]. rewrite H by reflexivity. reflexivity.
Defined.
Definition skipped (at_ : string) : option pyval :=
  Some (VDict [("type", VStr "message"); ("timestamp", VStr at_);
    ("message", VDict [("role", VStr "toolResult");
       ("content", VList [VDict [("type", VStr "text"); ("text", VStr "Skipped due to pending system advisory.")]])])]).
Lemma stuck_spec_witness : _detect_oracle_stuck clock
    {| rt_id := "rt-1"; rt_generation := Some 2; rt_status := "active"; rt_agent_state := "agent_running"; rt_alive := true;
       rt_last_kind := "TOOL_FINISHED"; rt_last_state := ""; rt_first_seen := VStr "2026-08-01T10:00:00Z" |}
    (Some (Some [skipped "2026-08-01T11:00:00Z"; skipped "2026-08-01T11:00:00Z"; skipped "2026-08-01T11:00:00Z"])) [] 40000000 = Ok (Some Strong).
Proof.
  apply (stuck_spec clock). split; [discriminate|]. split; [discriminate|].
  eexists _, _, _. split; [reflexivity|]. split; [reflexivity|]. split; [reflexivity|]. exists []. by do 3 eexists.
Defined.
