(* ===== verification/GatewayRpc.v ===== *)
(** * Calling a gateway
    (src/src/codeagent/gateway/model.py, server.py, client.py, remote.py)

    A call is one line with a request and one line with a response: over a Unix
    socket to the gateway of the machine, or through [gateway rpc --stdio] at the
    other end of an ssh connection. This models the two lines with their encoding and
    decoding, the reading of a frame in the chunks in which it arrives, the answers
    of the server, the limit on its connections, the client and the relay. The
    handlers behind [dispatch] are a parameter (GatewayService.v has them). A socket
    or an ssh connection is a function from what is sent to what comes back. A text is
    the bytes of its UTF-8 form, a lone surrogate the three bytes that UTF-8 forbids:
    [encode] raises exactly when these bytes are no UTF-8. Of the encodings that
    Python guesses for JSON in bytes only UTF-8 is modelled; the standard input and
    output of the relay are strict UTF-8. *)
From S2P Require Import Prelude Wire RemoteExec.
From Stdlib Require Import Floats.SpecFloat.

Definition GATEWAY_PROTOCOL_VERSION : Z := 1.
Definition MAX_FRAME_LENGTH : Z := 1048576.
Definition byte_length (s : string) : Z := Z.of_nat (String.length s).

(** ** gateway/model.py *)
(** A [GatewayError]; one that a response carries may have anything for a code. *)
Record gw_error := { ge_code : pyval; ge_message : pyval; ge_context : pyval }.
Definition error_init (code message context : pyval) : gw_error :=
  {| ge_code := code; ge_message := message; ge_context := py_or context (VDict []) |}.
Definition gw_err (code message : string) : gw_error := error_init (VStr code) (VStr message) VNone.
Definition error_dict (e : gw_error) : pyval :=
  VDict [("code", ge_code e); ("message", ge_message e); ("context", ge_context e)].
(** How a call ends: with a result, with a [GatewayError], with another exception. *)
Inductive outcome (A : Type) := Gives (a : A) | Refuses (e : gw_error) | Breaks (e : pyexn).
Arguments Gives {A}. Arguments Refuses {A}. Arguments Breaks {A}.
Record GatewayRequest := { gr_v : Z; gr_id : string; gr_method : string; gr_params : pydict }.
Definition nonempty_str (v : pyval) : option string :=
  match v with VStr s => if String.eqb s "" then None else Some s | _ => None end.
Definition request_from_dict (d : pyval) : outcome GatewayRequest :=
  match d with
  | VDict d =>
    match dgetd d "v" VNone with
    | VInt v =>
      if v <? 1 then Refuses (gw_err "PROTOCOL" "request v must be a positive int") else
      match nonempty_str (dgetd d "id" VNone) with
      | None => Refuses (gw_err "PROTOCOL" "request id must be a non-empty string")
      | Some id =>
        match nonempty_str (dgetd d "method" VNone) with
        | None => Refuses (gw_err "PROTOCOL" "request method must be a non-empty string")
        | Some method =>
          match dgetd d "params" (VDict []) with
          | VDict params => Gives {| gr_v := v; gr_id := id; gr_method := method; gr_params := params |}
          | _ => Refuses (gw_err "PROTOCOL" "request params must be an object")
          end
        end
      end
    | _ => Refuses (gw_err "PROTOCOL" "request v must be a positive int")
    end
  | _ => Refuses (gw_err "PROTOCOL" "request must be a JSON object")
  end.
Record GatewayResponse := { rp_v : pyval; rp_id : pyval; rp_ok : bool; rp_result : pyval; rp_error : pyval }.
Definition response_of (d : pydict) : GatewayResponse := {|
  rp_v := dgetd d "v" (VInt 0); rp_id := dgetd d "id" (VStr ""); rp_ok := truthy (dgetd d "ok" VNone);
  rp_result := py_or (dgetd d "result" (VDict [])) (VDict []); rp_error := dgetd d "error" VNone |}.
Definition bad_json : pyexn := ValueError "invalid JSON".
Definition response_parse (line : string) : outcome GatewayResponse :=
  match loads line with
  | None => Breaks bad_json
  | Some (VDict d) => Gives (response_of d)
  | Some _ => Breaks (AttributeError "no attribute get")
  end.
Definition refusal (v : Z) (id : string) (e : gw_error) : GatewayResponse :=
  {| rp_v := VInt v; rp_id := VStr id; rp_ok := false; rp_result := VDict []; rp_error := error_dict e |}.
Definition ok_response (req : GatewayRequest) (result : pyval) : GatewayResponse :=
  {| rp_v := VInt (gr_v req); rp_id := VStr (gr_id req); rp_ok := true; rp_result := result; rp_error := VNone |}.
Definition error_response (req : GatewayRequest) (e : gw_error) : GatewayResponse := refusal (gr_v req) (gr_id req) e.

(** ** Reading a frame (server.py) *)
(** What a [recv] gives: bytes, none at the end, or an error or a timeout. *)
Abbreviation chunks := (list (option string)).
Definition too_long (s : string) : bool := MAX_FRAME_LENGTH <? byte_length s.
Fixpoint _read_frame (buf : string) (l : chunks) : option string :=
  match l with
  | [] | None :: _ => None
  | Some chunk :: l =>
    if String.eqb chunk "" then None else
    let buf := buf +:+ chunk in
    match split1 newline buf with
    | Some (line, _) => Some line
    | None => if too_long buf then Some (String.substring 0 (Z.to_nat (MAX_FRAME_LENGTH + 1)) buf) else _read_frame buf l
    end
  end.
(** The client's loop: what came up to the end or the first line break. *)
Fixpoint receive (buf : string) (l : chunks) : option string :=
  match l with
  | [] | None :: _ => None
  | Some chunk :: l =>
    if String.eqb chunk "" then Some buf else
    let buf := buf +:+ chunk in
    if has_char newline buf then Some buf else receive buf l
  end.

(** ** Texts and bytes *)
(** What [str.encode] raises for a lone surrogate. *)
Definition no_encoding : pyexn := ValueError "surrogates not allowed".
(** [bytes.decode("utf-8", errors="replace")]: one U+FFFD for each longest start of a
    character that is no character. *)
Definition replacement : string := utf8 65533.
Definition width (a : ascii) : nat :=
  if between 0 127 a then 1 else if between 194 223 a then 2 else if between 224 239 a then 3 else if between 240 244 a then 4 else 0.
Definition follows (a b : ascii) : bool :=
  is_cont b && negb (char_is 224 a && between 128 159 b) && negb (char_is 237 a && between 160 191 b)
  && negb (char_is 240 a && between 128 143 b) && negb (char_is 244 a && between 144 191 b).
Fixpoint decode_replace (s : string) : string :=
  match s with
  | "" => ""
  | String a s1 =>
    match width a, s1 with
    | O, _ => replacement +:+ decode_replace s1
    | 1%nat, _ => String a (decode_replace s1)
    | _, "" => replacement
    | w, String b s2 =>
      if negb (follows a b) then replacement +:+ decode_replace s1 else
      match w, s2 with
      | 2%nat, _ => String a (String b (decode_replace s2))
      | _, "" => replacement
      | _, String c s3 =>
        if negb (is_cont c) then replacement +:+ decode_replace s2 else
        match w, s3 with
        | 3%nat, _ => String a (String b (String c (decode_replace s3)))
        | _, "" => replacement
        | _, String d s4 =>
          if negb (is_cont d) then replacement +:+ decode_replace s3
          else String a (String b (String c (String d (decode_replace s4))))
        end
      end
    end
  end.
(** A line as it is written, by the server and by the relay: nothing when it has no
    UTF-8 form, as the exception then ends the thread or the process. *)
Definition _write_frame (line : string) : string := if utf8_valid line then line +:+ NL else "".

Section rpc.
(** How floats are written, the texts of exceptions, and the handlers. *)
Context (float_repr : spec_float -> string) (json_error : string -> string) (exn_text : pyexn -> string).
Context {W : Type} (dispatch : string -> pydict -> W -> outcome pyval * W).
Definition request_json (req : GatewayRequest) : string := dumps float_repr
  (VDict [("v", VInt (gr_v req)); ("id", VStr (gr_id req)); ("method", VStr (gr_method req)); ("params", VDict (gr_params req))]).
Definition response_json (r : GatewayResponse) : string := dumps float_repr
  (VDict [("v", rp_v r); ("id", rp_id r); ("ok", VBool (rp_ok r)); ("result", rp_result r); ("error", rp_error r)]).

(** ** The server *)
Definition too_large : gw_error := gw_err "FRAME_TOO_LARGE" "frame exceeds 1048576 bytes".
Definition loads_bytes (s : string) : option pyval := if utf8_valid s then loads s else None.
Definition request_parse (v : option pyval) (line : string) : outcome GatewayRequest :=
  match v with
  | None => Refuses (gw_err "PROTOCOL" (json_error line))
  | Some v => request_from_dict v
  end.
Definition answer (line : string) (w : W) : GatewayResponse * W :=
  if too_long line then (refusal GATEWAY_PROTOCOL_VERSION "" too_large, w) else
  match request_parse (loads_bytes line) line with
  | Refuses e => (refusal GATEWAY_PROTOCOL_VERSION "" e, w)
  | Breaks e => (refusal GATEWAY_PROTOCOL_VERSION "" (gw_err "PROTOCOL" (exn_text e)), w)
  | Gives req =>
    if negb (gr_v req =? GATEWAY_PROTOCOL_VERSION)
    then (refusal GATEWAY_PROTOCOL_VERSION (gr_id req)
            (gw_err "VERSION_INCOMPATIBLE" ("gateway protocol v" +:+ pretty (gr_v req) +:+ " != v1")), w)
    else let '(r, w) := dispatch (gr_method req) (gr_params req) w in
         (match r with
          | Gives result => ok_response req result
          | Refuses e => error_response req e
          | Breaks e => refusal (gr_v req) (gr_id req) (gw_err "INTERNAL" (exn_text e))
          end, w)
  end.
(** What is written to a connection before it is closed. *)
Definition _handle_connection (l : chunks) (w : W) : string * W :=
  match _read_frame "" l with
  | None => ("", w)
  | Some line => let '(r, w) := answer line w in (_write_frame (response_json r), w)
  end.
(** A new connection when [active] others are open. *)
Definition CONNECTIONS : Z := 64.
Definition service_busy : gw_error := gw_err "SERVICE_BUSY" "too many concurrent connections (limit 64)".
Definition serve_connection (active : Z) (l : chunks) (w : W) : string * W :=
  if active <? CONNECTIONS then _handle_connection l w
  else (_write_frame (response_json (refusal GATEWAY_PROTOCOL_VERSION "" service_busy)), w).

(** ** The client (client.py) *)
(** The socket: whether it is there, and what comes back for what is sent, unless the
    connection fails or its time is up. *)
Record link := { socket_exists : bool; connect : string -> W -> option chunks * W }.
Definition _roundtrip (k : link) (req : GatewayRequest) (w : W) : outcome GatewayResponse * W :=
  if negb (socket_exists k) then (Refuses (gw_err "GATEWAY_DOWN" "gateway socket not found"), w) else
  let payload := request_json req +:+ NL in
  if negb (utf8_valid payload) then (Breaks no_encoding, w) else
  if MAX_FRAME_LENGTH + 1 <? byte_length payload
  then (Gives (refusal (gr_v req) (gr_id req) (gw_err "FRAME_TOO_LARGE" "request exceeds 1048576 bytes")), w) else
  let '(c, w) := connect k payload w in
  (match c with
   | None => Refuses (gw_err "GATEWAY_CONNECT_FAILED" "gateway connect failed")
   | Some l =>
     match receive "" l with
     | None => Refuses (gw_err "GATEWAY_CONNECT_FAILED" "gateway connect failed")
     | Some buf =>
       let line := decode_replace (before newline buf) in
       if blank line then Refuses (gw_err "EMPTY_RESPONSE" "gateway returned an empty response") else response_parse line
     end
   end, w).
(** The exception that a response which is not ok becomes. *)
Definition raised {A} (code message : string) (r : GatewayResponse) : outcome A :=
  match py_or (rp_error r) (VDict []) with
  | VDict d => Refuses (error_init (dgetd d "code" (VStr code)) (dgetd d "message" (VStr message)) (dgetd d "context" VNone))
  | _ => Breaks (AttributeError "no attribute get")
  end.
Definition settle (code message : string) (r : GatewayResponse) : outcome pyval :=
  if rp_ok r then Gives (rp_result r) else raised code message r.
(** [id]: the one that is given, or else a random one. *)
Definition call (k : link) (id method : string) (params : pydict) (w : W) : outcome pyval * W :=
  let req := {| gr_v := GATEWAY_PROTOCOL_VERSION; gr_id := id; gr_method := method; gr_params := params |} in
  let '(r, w) := _roundtrip k req w in
  (match r with
   | Gives resp => settle "INTERNAL" "gateway error" resp
   | Refuses e => Refuses e
   | Breaks e => Breaks e
   end, w).
(** What is written for the line that [readline] reads; nothing when an exception
    goes through. *)
Definition is_value_error (e : pyexn) : bool := match e with ValueError _ => true | _ => false end.
Definition rpc_stdio (k : link) (line : string) (w : W) : string * W :=
  let write r := _write_frame (response_json r) in
  let failed e := refusal GATEWAY_PROTOCOL_VERSION "" e in
  if String.eqb line "" || negb (utf8_valid line) then ("", w) else
  if MAX_FRAME_LENGTH <? str_len line then (write (failed too_large), w) else
  match request_parse (loads line) line with
  | Refuses e => (write (failed e), w)
  | Breaks e => (write (failed (gw_err "PROTOCOL" (exn_text e))), w)
  | Gives req =>
    let '(r, w) := call k (gr_id req) (gr_method req) (gr_params req) w in
    (match r with
     | Gives result => write (ok_response req result)
     | Refuses e => write (error_response req e)
     | Breaks e => if is_value_error e then write (failed (gw_err "PROTOCOL" (exn_text e))) else ""
     end, w)
  end.

(** ** Over ssh (remote.py) *)
(** How the command ends: by its timeout, by an error of the system, with an output. *)
Inductive ssh_end := Timed_out | Not_run | Output (out : string).
Definition remote_gateway_call (ssh : string -> W -> ssh_end * W) (id method : string) (params : pydict) (w : W) : outcome pyval * W :=
  let req := {| gr_v := GATEWAY_PROTOCOL_VERSION; gr_id := id; gr_method := method; gr_params := params |} in
  let payload := request_json req +:+ NL in
  if negb (utf8_valid payload) then (Breaks no_encoding, w) else
  let '(e, w) := ssh payload w in
  (match e with
   | Timed_out => Refuses (gw_err "REMOTE_RPC_TIMEOUT" "remote gateway rpc timed out")
   | Not_run => Refuses (gw_err "REMOTE_RPC_FAILED" "remote gateway rpc failed")
   | Output out =>
     let out := strip (decode_replace out) in
     if String.eqb out "" then Refuses (gw_err "REMOTE_EMPTY_RESPONSE" "remote gateway returned no response") else
     match response_parse out with
     | Gives resp => settle "REMOTE_ERROR" "remote gateway error" resp
     | Refuses e => Refuses e
     | Breaks e => if is_value_error e then Refuses (gw_err "REMOTE_BAD_RESPONSE" "remote gateway response not JSON") else Breaks e
     end
   end, w).
End rpc.

(** ** Frames in chunks *)
Definition whole_chunks (l : list string) (s : string) : Prop := Forall (fun c => c <> "") l /\ String.concat "" l = s.
Lemma split1_Some c s a b : split1 c s = Some (a, b) -> s = a +:+ String c b /\ has_char c a = false.
Proof.
  revert a b. induction s as [|d s IH]; intros a b; cbn [split1]; [done|]. destruct (Ascii.eqb_spec c d) as [->|Hd].
  - intros [= <- <-]. done.
  - destruct (split1 c s) as [[x y]|]; [|done]. intros [= <- <-]. destruct (IH _ _ eq_refl) as [-> Hx]. split; [done|].
    rewrite has_char_cons, Hx. by rewrite (proj2 (Ascii.eqb_neq c d)).
Qed.
Lemma split1_None c s : split1 c s = None -> has_char c s = false.
Proof.
  induction s as [|d s IH]; cbn [split1]; [done|]. rewrite has_char_cons. destruct (Ascii.eqb c d); [done|].
  destruct (split1 c s) as [[]|]; [done|]. intros _. by apply IH.
Qed.
Lemma concat_cons (c : string) l : String.concat "" (c :: l) = c +:+ String.concat "" l.
Proof. destruct l; [|done]. by rewrite string_append_nil. Qed.
Lemma first_line buf rest line t : buf +:+ rest = line +:+ NL +:+ t -> has_char newline line = false ->
  match split1 newline buf with
  | Some (a, _) => a = line
  | None => (String.length buf <= String.length line)%nat
  end.
Proof.
  intros Heq Hline. destruct (split1 newline buf) as [[a b]|] eqn:Hs.
  - apply split1_Some in Hs as [-> Ha]. rewrite string_app_assoc, string_app_cons in Heq.
    pose proof (split1_app newline a (b +:+ rest) Ha) as H1. rewrite Heq in H1.
    change (line +:+ NL +:+ t) with (line +:+ String newline t) in H1. rewrite split1_app in H1 by done. by injection H1.
  - apply split1_None in Hs. revert line Heq Hline. induction buf as [|c buf IH]; intros line Heq Hline; simpl; [lia|].
    rewrite has_char_cons in Hs. apply orb_false_iff in Hs as [Hc Hs]. destruct line as [|d line].
    + exfalso. rewrite string_app_cons in Heq. injection Heq as -> _. done.
    + rewrite !string_app_cons in Heq. injection Heq as -> Heq. rewrite has_char_cons in Hline. apply orb_false_iff in Hline as [_ Hline].
      simpl. specialize (IH Hs line Heq Hline). lia.
Qed.
(** However a frame that is not too long arrives, it is read as it was sent. *)
Lemma read_frame_whole l tail buf line : Forall (fun c => c <> "") l -> buf +:+ String.concat "" l = line +:+ NL -> has_char newline line = false ->
  byte_length line <= MAX_FRAME_LENGTH -> has_char newline buf = false -> _read_frame buf (map Some l ++ tail) = Some line.
Proof.
  intros Hl. revert buf. induction Hl as [|c l Hc Hl IH]; intros buf Heq Hline Hlen Hbuf.
  - exfalso. simpl in Heq. rewrite string_append_nil in Heq. subst buf. rewrite has_char_app in Hbuf.
    apply orb_false_iff in Hbuf as [_ Hn]. done.
  - cbn [map app _read_frame]. apply String.eqb_neq in Hc. rewrite Hc. cbv zeta. rewrite concat_cons, <- string_app_assoc in Heq.
    pose proof (first_line (buf +:+ c) (String.concat "" l) line "" Heq Hline) as H.
    destruct (split1 newline (buf +:+ c)) as [[a b]|] eqn:Hs; [by subst a|].
    unfold too_long. destruct (Z.ltb_spec MAX_FRAME_LENGTH (byte_length (buf +:+ c))) as [Hlt|_]; [unfold byte_length in *; lia|].
    apply IH; [done..|]. by apply split1_None.
Qed.
Lemma receive_line l tail buf line : Forall (fun c => c <> "") l -> buf +:+ String.concat "" l = line +:+ NL -> has_char newline line = false ->
  has_char newline buf = false -> exists s, receive buf (map Some l ++ tail) = Some s /\ before newline s = line.
Proof.
  intros Hl. revert buf. induction Hl as [|c l Hc Hl IH]; intros buf Heq Hline Hbuf.
  - exfalso. simpl in Heq. rewrite string_append_nil in Heq. subst buf. rewrite has_char_app in Hbuf.
    apply orb_false_iff in Hbuf as [_ Hn]. done.
  - cbn [map app receive]. apply String.eqb_neq in Hc. rewrite Hc. cbv zeta. rewrite concat_cons, <- string_app_assoc in Heq.
    destruct (has_char newline (buf +:+ c)) eqn:Hn; [|by apply IH]. eexists. split; [done|].
    pose proof (first_line (buf +:+ c) (String.concat "" l) line "" Heq Hline) as H. unfold before.
    destruct (split1 newline (buf +:+ c)) as [[a b]|] eqn:Hs; [by subst a|]. apply split1_None in Hs. congruence.
Qed.

Lemma char_not lo hi n a : between lo hi a = true -> (n < lo \/ hi < n)%N -> char_is n a = false.
Proof. unfold between, char_is. intros Ha Hn. apply N.eqb_neq. apply andb_true_iff in Ha as [H1%N.leb_le H2%N.leb_le]. lia. Qed.
Lemma decode_valid s : utf8_valid s = true -> decode_replace s = s.
Proof.
  remember (String.length s) as n eqn:Hn. revert s Hn. induction (lt_wf n) as [n _ IH]. intros [|a s1] Hn Hs; [done|].
  cbn [String.length] in Hn. rewrite utf8_step in Hs. cbn [decode_replace]. unfold width, follows.
  assert (Hrec : forall t, (String.length t < n)%nat -> utf8_valid t = true -> decode_replace t = t) by (intros t Ht; by apply (IH _ Ht)).
  destruct (between 0 127 a) eqn:Ha; [by rewrite Hrec by (done || lia)|].
  destruct (between 194 223 a) eqn:H2; [|destruct (between 224 239 a) eqn:H3; [|destruct (between 240 244 a) eqn:H4; [|done]]].
  - destruct s1 as [|b s2]; [done|]. apply andb_true_iff in Hs as [Hb Hs]. rewrite Hb, (char_not _ _ 224 a H2), (char_not _ _ 237 a H2), (char_not _ _ 240 a H2), (char_not _ _ 244 a H2) by lia. cbn [String.length] in Hn.
    simpl. by rewrite Hrec by (done || lia).
  - destruct s1 as [|b [|c s3]]; [done..|]. cbn [String.length] in Hn.
    apply andb_true_iff in Hs as [[[[Hb Hc]%andb_true_iff Hn1]%andb_true_iff Hn2]%andb_true_iff Hs].
    rewrite Hb, Hc, Hn1, Hn2, (char_not _ _ 240 a H3), (char_not _ _ 244 a H3) by lia. simpl. by rewrite Hrec by (done || lia).
  - destruct s1 as [|b [|c [|d s4]]]; [done..|]. cbn [String.length] in Hn.
    apply andb_true_iff in Hs as [[[[[Hb Hc]%andb_true_iff Hd]%andb_true_iff Hn1]%andb_true_iff Hn2]%andb_true_iff Hs].
    rewrite Hb, Hc, Hd, Hn1, Hn2, (char_not _ _ 224 a H4), (char_not _ _ 237 a H4) by lia. simpl. by rewrite Hrec by (done || lia).
Qed.
Lemma utf8_line s : utf8_valid (s +:+ NL) = utf8_valid s.
Proof.
  remember (String.length s) as n eqn:Hn. revert s Hn. induction (lt_wf n) as [n _ IH]. intros [|a s1] Hn; [done|].
  cbn [String.length] in Hn. rewrite string_app_cons, !utf8_step.
  assert (Hrec : forall t, (String.length t < n)%nat -> utf8_valid (t +:+ NL) = utf8_valid t) by (intros t Ht; by apply (IH _ Ht)).
  destruct (between 0 127 a); [by apply Hrec; lia|].
  assert (Hnl : is_cont newline = false) by done.
  destruct s1 as [|b [|c [|d s4]]]; cbn [String.length] in Hn; repeat first [rewrite string_app_cons|rewrite string_app_nil_l];
    unfold NL; rewrite ?Hnl, ?andb_false_r; cbn [andb].
  - by repeat case_match.
  - change (utf8_valid (String newline "")) with true. change (utf8_valid "") with true. repeat case_match; rewrite ?andb_false_r; done.
  - change (utf8_valid (String newline "")) with true. change (utf8_valid "") with true.
    change (String c (String newline "")) with (String c "" +:+ NL). rewrite Hrec by (simpl; lia). repeat case_match; rewrite ?andb_false_r; done.
  - change (String newline "") with NL. change (String c (String d (s4 +:+ NL))) with (String c (String d s4) +:+ NL).
    change (String d (s4 +:+ NL)) with (String d s4 +:+ NL). rewrite !Hrec by (simpl; lia). done.
Qed.
(** A frame in pieces of which the last has not come. *)
Lemma read_frame_short l buf : Forall (fun c => c <> "") l -> has_char newline (buf +:+ String.concat "" l) = false ->
  byte_length (buf +:+ String.concat "" l) <= MAX_FRAME_LENGTH -> _read_frame buf (map Some l ++ [None]) = None.
Proof.
  intros Hl. revert buf. induction Hl as [|c l Hc Hl IH]; intros buf Hn Hb; [done|]. cbn [map app _read_frame].
  apply String.eqb_neq in Hc. rewrite Hc. cbv zeta. rewrite concat_cons, <- string_app_assoc in Hn, Hb.
  assert (Hshort : too_long (buf +:+ c) = false).
  { apply Z.ltb_ge. unfold byte_length in *. rewrite string_length_app in Hb. lia. }
  destruct (split1 newline (buf +:+ c)) as [[a b]|] eqn:Hs; [|rewrite Hshort; by apply IH].
  exfalso. apply split1_Some in Hs as [Hs _]. rewrite Hs, !has_char_app, has_char_cons in Hn. simpl in Hn.
  by rewrite !orb_true_r in Hn.
Qed.
Lemma concat_app l l' : String.concat "" (l ++ l') = String.concat "" l +:+ String.concat "" l'.
Proof. induction l as [|c l IH]; [done|]. rewrite <- app_comm_cons, !concat_cons, IH. by rewrite string_app_assoc. Qed.
Lemma whole_empty l : whole_chunks l "" -> l = [].
Proof. destruct l as [|c l]; [done|]. intros [H Hc]. rewrite concat_cons in Hc. inversion_clear H. by destruct c. Qed.
Lemma string_snoc (s : string) : s <> "" -> exists s' c, s = s' +:+ String c "".
Proof.
  induction s as [|c s IH]; [done|]. intros _. destruct s as [|d s]; [by exists "", c|]. destruct IH as (s' & e & ->); [done|].
  by exists (String c s'), e.
Qed.
Lemma string_snoc_inj s s' c c' : s +:+ String c "" = s' +:+ String c' "" -> s = s'.
Proof.
  revert s'. induction s as [|a s IH]; intros [|b s']; rewrite ?string_app_cons, ?string_app_nil_l; [done| | |].
  - intros [= -> H]. by destruct s'.
  - intros [= -> H]. by destruct s.
  - intros [= -> H]. f_equal. by apply IH.
Qed.
(** A frame without its last pieces is no frame. *)
Lemma short_frame n l line : whole_chunks l (line +:+ NL) -> has_char newline line = false -> byte_length line <= MAX_FRAME_LENGTH ->
  (n < length l)%nat -> _read_frame "" (map Some (take n l) ++ [None]) = None.
Proof.
  intros [Hl Hc] Hn Hb Hlt. rewrite <- (take_drop n l), concat_app in Hc. destruct (drop n l) as [|d k] eqn:Hd.
  { apply (f_equal length) in Hd. rewrite length_drop in Hd. simpl in Hd. lia. }
  assert (Hne : d <> "").
  { rewrite <- (take_drop n l), Hd in Hl. apply Forall_app in Hl as [_ Hl]. by inversion_clear Hl. }
  assert (Hrest : String.concat "" (d :: k) <> "") by (rewrite concat_cons; by destruct d).
  destruct (string_snoc _ Hrest) as (s' & c & Hs). rewrite Hs, <- string_app_assoc in Hc. apply string_snoc_inj in Hc. subst line.
  apply read_frame_short; [by apply Forall_take| |]; rewrite string_app_nil_l.
  - rewrite has_char_app in Hn. by apply orb_false_iff in Hn as [Hn _].
  - unfold byte_length in *. rewrite string_length_app in Hb. lia.
Qed.

(** ** A call is the handler's answer *)
Section equivalence.
Context (float_repr : spec_float -> string) (json_error : string -> string) (exn_text : pyexn -> string).
Context {W : Type} (dispatch : string -> pydict -> W -> outcome pyval * W).
Abbreviation handle := (_handle_connection float_repr json_error exn_text dispatch).
Abbreviation called := (call float_repr).
Abbreviation relayed := (rpc_stdio float_repr json_error exn_text).
(** A connection to a server: how many others are open; after how many pieces the
    server waits in vain for the next one, if it does; whether the client hears the
    answer before its time is up; and how what goes each way is cut. *)
Record connection := { others : Z; stalls : option nat; heard : bool; cut : string -> list string; cut' : string -> list string }.
Definition cuts (c : connection) : Prop := forall s, whole_chunks (cut c s) s /\ whole_chunks (cut' c s) s.
Definition arriving (c : connection) (payload : string) : chunks :=
  match stalls c with
  | None => map Some (cut c payload)
  | Some n => map Some (take n (cut c payload)) ++ [None]
  end.
Definition arrives (c : connection) (payload : string) : bool :=
  match stalls c with None => true | Some n => bool_decide (length (cut c payload) <= n)%nat end.
Definition served (c : connection) : link (W := W) := {|
  socket_exists := true;
  connect payload w :=
    let '(out, w) := serve_connection float_repr json_error exn_text dispatch (others c) (arriving c payload) w in
    (if heard c then Some (map Some (cut' c out) ++ [Some ""]) else None, w) |}.
(** [rpc --stdio] at the end of an ssh connection. *)
Definition ssh_to (k : link) (payload : string) (w : W) : ssh_end * W := let '(out, w) := relayed k payload w in (Output out, w).
(** What is left of an outcome after it has been a response: no other exception, and
    no false results but the empty object. *)
Definition settled (r : outcome pyval) : outcome pyval :=
  match r with
  | Gives v => Gives (py_or v (VDict []))
  | Refuses e => Refuses (error_init (ge_code e) (ge_message e) (ge_context e))
  | Breaks e => Refuses (gw_err "INTERNAL" (exn_text e))
  end.
Definition plain_outcome (r : outcome pyval) : Prop :=
  match r with
  | Gives v => plain v = true
  | Refuses e => plain (ge_code e) && plain (ge_message e) && plain (ge_context e) = true
  | Breaks _ => True
  end.
Definition request (id method : string) (params : pydict) : GatewayRequest :=
  {| gr_v := GATEWAY_PROTOCOL_VERSION; gr_id := id; gr_method := method; gr_params := params |}.

Definition plain_response (r : GatewayResponse) : Prop :=
  plain (rp_v r) = true /\ plain (rp_id r) = true /\ plain (rp_result r) = true /\ plain (rp_error r) = true.
Definition response_dict (r : GatewayResponse) : pyval :=
  VDict [("v", rp_v r); ("id", rp_id r); ("ok", VBool (rp_ok r)); ("result", rp_result r); ("error", rp_error r)].
Lemma plain_response_dict r : plain_response r -> plain (response_dict r) = true.
Proof. intros (H1 & H2 & H3 & H4). unfold response_dict. cbn [plain forallb fst snd]. rewrite H1, H2, H3, H4. vm_compute. done. Qed.
Definition request_dict (req : GatewayRequest) : pyval :=
  VDict [("v", VInt (gr_v req)); ("id", VStr (gr_id req)); ("method", VStr (gr_method req)); ("params", VDict (gr_params req))].
Lemma plain_request_dict req : plain (VDict (gr_params req)) = true -> plain (request_dict req) = true.
Proof. intros Hp. unfold request_dict. cbn [plain forallb fst snd] in *. rewrite Hp. vm_compute. done. Qed.
Lemma loads_compact v : plain v = true -> loads (dumps float_repr v) = Some v.
Proof. apply (loads_back float_repr "" compact_sep). Qed.
Lemma compact_unbroken v : plain v = true -> has_char newline (dumps float_repr v) = false.
Proof. intros Hv. apply has_char_false. by apply (dumps_unbroken float_repr ""). Qed.
Lemma response_back r : plain_response r -> response_parse (response_json float_repr r) =
  Gives {| rp_v := rp_v r; rp_id := rp_id r; rp_ok := rp_ok r; rp_result := py_or (rp_result r) (VDict []); rp_error := rp_error r |}.
Proof.
  intros Hr. unfold response_parse, response_json. fold (response_dict r). rewrite loads_compact by by apply plain_response_dict.
  unfold response_dict, response_of. cbn. by destruct (rp_ok r).
Qed.
Lemma plain_refusal v id e : plain (ge_code e) && plain (ge_message e) && plain (ge_context e) = true -> plain_response (refusal v id e).
Proof. intros H. split; [done|]. split; [done|]. split; [done|]. simpl. apply andb_true_iff in H as [H H3]. apply andb_true_iff in H as [H1 H2].
  rewrite H1, H2, H3. vm_compute. done. Qed.
Lemma settle_refusal c m v id e r : plain_response (refusal v id e) -> response_parse (response_json float_repr (refusal v id e)) = Gives r ->
  settle c m r = Refuses (error_init (ge_code e) (ge_message e) (ge_context e)).
Proof. intros Hp. rewrite response_back by done. intros [= <-]. reflexivity. Qed.
Lemma settle_ok c m req v r : plain v = true -> response_parse (response_json float_repr (ok_response req v)) = Gives r ->
  settle c m r = Gives (py_or v (VDict [])).
Proof. intros Hv. rewrite response_back by done. intros [= <-]. reflexivity. Qed.
Lemma response_solid r : plain_response r -> blank (response_json float_repr r) = false.
Proof.
  intros Hr. apply (blank_solid (ascii_of_N 123)); [done|]. unfold response_json, dumps. cbn [dumps_with].
  rewrite string_app_cons, has_char_cons. done.
Qed.
(** The server's answer to a request of a client. *)
Definition dispatched (req : GatewayRequest) (r : outcome pyval) : GatewayResponse :=
  match r with
  | Gives result => ok_response req result
  | Refuses e => error_response req e
  | Breaks e => refusal (gr_v req) (gr_id req) (gw_err "INTERNAL" (exn_text e))
  end.
Lemma plain_dispatched req r : plain_outcome r -> plain_response (dispatched req r).
Proof. destruct r as [v|e|e]; intros H; [by repeat split|by apply plain_refusal|by apply plain_refusal]. Qed.
Lemma settle_dispatched c m req r x : plain_outcome r -> response_parse (response_json float_repr (dispatched req r)) = Gives x ->
  settle c m x = settled r.
Proof.
  intros Hp. pose proof (plain_dispatched req r Hp) as Hr. destruct r as [v|e|e]; simpl.
  - by apply settle_ok.
  - by apply settle_refusal.
  - by apply settle_refusal.
Qed.
Lemma from_request req : gr_v req = GATEWAY_PROTOCOL_VERSION -> gr_id req <> "" -> gr_method req <> "" ->
  request_from_dict (request_dict req) = Gives req.
Proof.
  intros Hv Hi Hm. apply String.eqb_neq in Hi, Hm. unfold request_dict. cbn. destruct req as [v id m p]. simpl in *. subst v. cbn.
  by rewrite Hi, Hm.
Qed.

Definition unheard : gw_error := gw_err "GATEWAY_CONNECT_FAILED" "gateway connect failed".
Definition unanswered : gw_error := gw_err "EMPTY_RESPONSE" "gateway returned an empty response".
(** What the caller makes of a response that was to be written. *)
Definition told (r : GatewayResponse) (o : outcome pyval) : outcome pyval :=
  if utf8_valid (response_json float_repr r) then o else Refuses unanswered.

Section sent.
Context (id method : string) (params : pydict) (Hid : id <> "") (Hmethod : method <> "") (Hparams : plain (VDict params) = true).
Abbreviation req := (request id method params).
Abbreviation json := (request_json float_repr req).
Lemma json_loads : loads json = Some (request_dict req).
Proof. apply loads_compact. by apply plain_request_dict. Qed.
Lemma json_unbroken : has_char newline json = false.
Proof. apply compact_unbroken. by apply (plain_request_dict req). Qed.
Lemma answer_request w : utf8_valid json = true -> byte_length json <= MAX_FRAME_LENGTH ->
  answer json_error exn_text dispatch json w = (dispatched req (dispatch method params w).1, (dispatch method params w).2).
Proof.
  intros Hu Hl. unfold answer, too_long. rewrite (proj2 (Z.ltb_ge _ _)) by done. unfold loads_bytes. rewrite Hu, json_loads.
  cbn [request_parse]. rewrite from_request by done. cbn [gr_v]. change (GATEWAY_PROTOCOL_VERSION =? GATEWAY_PROTOCOL_VERSION) with true.
  cbn [negb gr_method gr_params request]. destruct (dispatch method params w) as [r w']. by destruct r.
Qed.
Lemma arriving_frame c : cuts c -> byte_length json <= MAX_FRAME_LENGTH ->
  _read_frame "" (arriving c (json +:+ NL)) = if arrives c (json +:+ NL) then Some json else None.
Proof.
  intros Hcut Hl. destruct (Hcut (json +:+ NL)) as [[Hne Hc] _].
  assert (Hwhole : forall tail, _read_frame "" (map Some (cut c (json +:+ NL)) ++ tail) = Some json).
  { intros tail. apply read_frame_whole; [done|by rewrite Hc|apply json_unbroken|done|done]. }
  unfold arriving, arrives. destruct (stalls c) as [n|]; [|by rewrite <- (app_nil_r (map Some _))].
  case_bool_decide as Hn; [by rewrite take_ge|]. apply (short_frame n _ json); [by split|apply json_unbroken|done|lia].
Qed.
Lemma received c r : cuts c -> plain_response r ->
  exists s, receive "" (map Some (cut' c (_write_frame (response_json float_repr r))) ++ [Some ""]) = Some s /\
    decode_replace (before newline s) = if utf8_valid (response_json float_repr r) then response_json float_repr r else "".
Proof.
  intros Hcut Hr. unfold _write_frame. destruct (utf8_valid (response_json float_repr r)) eqn:Hu.
  - destruct (Hcut (response_json float_repr r +:+ NL)) as [_ [Hne Hc]].
    destruct (receive_line (cut' c (response_json float_repr r +:+ NL)) [Some ""] "" (response_json float_repr r)) as (s & Hs & Hb);
      [done|by rewrite Hc|apply compact_unbroken; by apply (plain_response_dict r)|done|].
    exists s. rewrite Hb. split; [done|by apply decode_valid].
  - destruct (Hcut "") as [_ Hw]. rewrite (whole_empty _ Hw). by exists "".
Qed.
(** What comes of what the server has written. *)
Definition read_reply (c : option chunks) : outcome GatewayResponse :=
  match c with
  | None => Refuses unheard
  | Some l =>
    match receive "" l with
    | None => Refuses unheard
    | Some buf =>
      let line := decode_replace (before newline buf) in
      if blank line then Refuses unanswered else response_parse line
    end
  end.
Definition heard_reply (c : connection) (out : string) : option chunks := if heard c then Some (map Some (cut' c out) ++ [Some ""]) else None.
Lemma reply_read c r : cuts c -> plain_response r -> read_reply (heard_reply c (_write_frame (response_json float_repr r))) =
  if heard c then if utf8_valid (response_json float_repr r) then response_parse (response_json float_repr r) else Refuses unanswered
  else Refuses unheard.
Proof.
  intros Hcut Hr. unfold heard_reply. destruct (heard c); [|done]. cbn [read_reply]. destruct (received c r Hcut Hr) as (s & -> & Hs).
  cbv zeta. rewrite Hs. destruct (utf8_valid (response_json float_repr r)); [|done]. by rewrite response_solid.
Qed.
Lemma nothing_read c : cuts c -> read_reply (heard_reply c "") = if heard c then Refuses unanswered else Refuses unheard.
Proof.
  intros Hcut. unfold heard_reply. destruct (heard c); [|done]. destruct (Hcut "") as [_ Hw]. by rewrite (whole_empty _ Hw).
Qed.
Definition settled_reply (r : outcome GatewayResponse) : outcome pyval :=
  match r with Gives resp => settle "INTERNAL" "gateway error" resp | Refuses e => Refuses e | Breaks e => Breaks e end.
Lemma settled_read (b : bool) r o : plain_response r ->
  (forall x, response_parse (response_json float_repr r) = Gives x -> settle "INTERNAL" "gateway error" x = o) ->
  settled_reply (if b then if utf8_valid (response_json float_repr r) then response_parse (response_json float_repr r) else Refuses unanswered
                 else Refuses unheard) = if b then told r o else Refuses unheard.
Proof.
  intros Hr Ho. unfold told. destruct b; [|done]. destruct (utf8_valid _); [|done]. pose proof (response_back r Hr) as Hb.
  rewrite Hb. cbn [settled_reply]. by apply Ho.
Qed.
(** The end of a call that is sent. *)
Definition fate (c : connection) (w : W) : outcome pyval * W :=
  if negb (others c <? CONNECTIONS) then (Refuses service_busy, w)
  else if negb (arrives c (json +:+ NL)) then (Refuses unanswered, w)
  else let '(r, w) := dispatch method params w in (told (dispatched req r) (settled r), w).
Lemma served_fate c w : cuts c -> utf8_valid json = true -> byte_length json <= MAX_FRAME_LENGTH -> plain_outcome (dispatch method params w).1 ->
  called (served c) id method params w = (if heard c then (fate c w).1 else Refuses unheard, (fate c w).2).
Proof.
  intros Hcut Hu Hl Hp. unfold call. fold req. unfold _roundtrip. cbn [socket_exists served negb connect].
  rewrite utf8_line, Hu. cbn [negb].
  assert (Hlen : byte_length (json +:+ NL) = byte_length json + 1) by (unfold byte_length; rewrite string_length_app; simpl; lia).
  rewrite Hlen, (proj2 (Z.ltb_ge _ _)) by lia. unfold serve_connection, fate. destruct (others c <? CONNECTIONS) eqn:Hopen; cbn [negb].
  - unfold _handle_connection. rewrite arriving_frame by done. destruct (arrives c (json +:+ NL)); cbn [negb].
    + rewrite answer_request by done. destruct (dispatch method params w) as [r w']. cbn [fst snd] in *.
      pose proof (plain_dispatched req r Hp) as Hr. f_equal.
      etransitivity; [apply (f_equal settled_reply (reply_read c _ Hcut Hr))|].
      apply settled_read; [done|]. intros x. by apply settle_dispatched.
    + f_equal. etransitivity; [apply (f_equal settled_reply (nothing_read c Hcut))|]. by destruct (heard c).
  - assert (Hr : plain_response (refusal GATEWAY_PROTOCOL_VERSION "" service_busy)) by by apply plain_refusal.
    f_equal. etransitivity; [apply (f_equal settled_reply (reply_read c _ Hcut Hr))|].
    rewrite (settled_read _ _ (Refuses service_busy)); [done|done|]. intros x. by apply settle_refusal.
Qed.
End sent.

(** What the relay makes of the outcome of its call, when its line can be written. *)
Definition no_response : gw_error := gw_err "REMOTE_EMPTY_RESPONSE" "remote gateway returned no response".
Definition said (r : GatewayResponse) (o : outcome pyval) : outcome pyval :=
  if utf8_valid (response_json float_repr r) then o else Refuses no_response.
Definition relay (req : GatewayRequest) (r : outcome pyval) : outcome pyval :=
  match r with
  | Gives v => said (ok_response req v) (Gives (py_or v (VDict [])))
  | Refuses e => said (error_response req e) (Refuses (error_init (ge_code e) (ge_message e) (ge_context e)))
  | Breaks e =>
    if is_value_error e
    then let e := gw_err "PROTOCOL" (exn_text e) in said (refusal GATEWAY_PROTOCOL_VERSION "" e) (Refuses e)
    else Refuses no_response
  end.
Lemma loads_line v : plain v = true -> loads (dumps float_repr v +:+ NL) = Some v.
Proof.
  intros Hv. unfold loads. pose proof (skip_opens float_repr "" v NL Hv) as Hs.
  pose proof (value_back float_repr "" compact_sep v Hv (S (String.length (dumps float_repr v +:+ NL))) NL) as Hr.
  change (dumps_with float_repr ("," +:+ "") (":" +:+ "") v) with (dumps float_repr v) in Hs, Hr. rewrite Hs, Hr; [done| |done].
  rewrite string_length_app. lia.
Qed.
Lemma strip_response r t : plain_response r -> blank t = true -> strip (response_json float_repr r +:+ t) = response_json float_repr r.
Proof. intros Hr Ht. apply (strip_line float_repr ""); [by apply (plain_response_dict r)|done]. Qed.
Lemma remote_settles r o : plain_response r ->
  (forall x, response_parse (response_json float_repr r) = Gives x -> settle "REMOTE_ERROR" "remote gateway error" x = o) ->
  (let out := strip (decode_replace (_write_frame (response_json float_repr r))) in
   if String.eqb out "" then Refuses no_response else
   match response_parse out with
   | Gives resp => settle "REMOTE_ERROR" "remote gateway error" resp
   | Refuses e => Refuses e
   | Breaks e => if is_value_error e then Refuses (gw_err "REMOTE_BAD_RESPONSE" "remote gateway response not JSON") else Breaks e
   end) = said r o.
Proof.
  intros Hr Hs. cbv zeta. unfold _write_frame, said. destruct (utf8_valid (response_json float_repr r)) eqn:Hu; [|done].
  rewrite decode_valid by by rewrite utf8_line. rewrite strip_response by done.
  assert (Hne : String.eqb (response_json float_repr r) "" = false) by (unfold response_json, dumps; cbn [dumps_with]; by rewrite string_app_cons).
  rewrite Hne. pose proof (response_back r Hr) as Hb. rewrite Hb. by apply Hs.
Qed.
(** The call over ssh gives what the local call on the other machine gives, with
    what the relay adds: a local answer that is no JSON is a PROTOCOL error, and an
    answer that is no object, or that has no UTF-8 form, leaves no line at all.  A
    request of 1048576 characters or more never reaches the other gateway, although
    its limit is one higher, and one without a UTF-8 form is not sent. *)
Theorem remote_is_call k id method params w : id <> "" -> method <> "" -> plain (VDict params) = true ->
  plain_outcome (called k id method params w).1 ->
  let json := request_json float_repr (request id method params) in
  remote_gateway_call float_repr (ssh_to k) id method params w =
  if negb (utf8_valid json) then (Breaks no_encoding, w)
  else if str_len json <? MAX_FRAME_LENGTH
  then (relay (request id method params) (called k id method params w).1, (called k id method params w).2)
  else (Refuses too_large, w).
Proof.
  intros Hid Hm Hp Ho json. unfold remote_gateway_call. fold (request id method params). fold json. cbv zeta. rewrite utf8_line.
  destruct (utf8_valid json) eqn:Hu; [|done]. cbn [negb]. unfold ssh_to, rpc_stdio. cbv zeta. rewrite utf8_line, Hu.
  assert (Hne : String.eqb (json +:+ NL) "" = false) by (by destruct json). rewrite Hne. cbn [orb negb].
  assert (Hlen : str_len (json +:+ NL) = str_len json + 1) by by rewrite str_len_app.
  rewrite Hlen. destruct (Z.ltb_spec (str_len json) MAX_FRAME_LENGTH).
  - rewrite (proj2 (Z.ltb_ge _ _)) by lia. unfold json, request_json. fold (request_dict (request id method params)).
    rewrite loads_line by by apply (plain_request_dict (request id method params)).
    cbn [request_parse]. rewrite from_request by done. cbn [gr_id gr_method gr_params request].
    destruct (called k id method params w) as [r w'] eqn:Hc. cbn [fst snd] in *. f_equal. destruct r as [v|e|e].
    + apply remote_settles; [by repeat split|]. intros x. by apply settle_ok.
    + apply remote_settles; [by apply plain_refusal|]. intros x. by apply settle_refusal, plain_refusal.
    + simpl. destruct (is_value_error e); [|done]. apply remote_settles; [by apply plain_refusal|]. intros x. by apply settle_refusal, plain_refusal.
  - rewrite (proj2 (Z.ltb_lt _ _)) by lia. apply f_equal2; [|done].
    etransitivity; [apply (remote_settles (refusal GATEWAY_PROTOCOL_VERSION "" too_large) (Refuses too_large))|done].
    + by apply plain_refusal.
    + intros x. by apply settle_refusal, plain_refusal.
Qed.
(** A frame that the server hands to a handler. *)
Definition accepted (line : string) (req : GatewayRequest) : Prop := too_long line = false /\
  exists v, loads_bytes line = Some v /\ request_from_dict v = Gives req /\ gr_v req = GATEWAY_PROTOCOL_VERSION.
(** A frame has one answer, which is written when it has a UTF-8 form, and at most
    one execution: what arrives in any pieces is either no whole frame, and nothing
    is written or done, or a request of this version, which is executed once and
    answered with its identifier, or anything else, which is refused with the gateway
    as it was. *)
Theorem frame_answered l w :
  match _read_frame "" l with
  | None => handle l w = ("", w)
  | Some line =>
    (exists req, accepted line req /\ let d := dispatch (gr_method req) (gr_params req) w in
       handle l w = (_write_frame (response_json float_repr (dispatched req d.1)), d.2) /\ rp_id (dispatched req d.1) = VStr (gr_id req)) \/
    ((forall req, ~ accepted line req) /\ exists id e, handle l w = (_write_frame (response_json float_repr (refusal GATEWAY_PROTOCOL_VERSION id e)), w))
  end.
Proof.
  unfold _handle_connection. destruct (_read_frame "" l) as [line|]; [|done]. unfold answer.
  destruct (too_long line) eqn:Hl; [right; split; [intros req [H _]; congruence|by eexists _, _]|].
  unfold request_parse. destruct (loads_bytes line) as [v|] eqn:Hv.
  2: { right. split; [|by eexists _, _]. intros req (_ & v & H & _). congruence. }
  destruct (request_from_dict v) as [req|e|e] eqn:Hr.
  - destruct (Z.eqb_spec (gr_v req) GATEWAY_PROTOCOL_VERSION) as [He|He]; cbn [negb].
    + left. exists req. split; [split; [done|by exists v]|]. cbv zeta. destruct (dispatch (gr_method req) (gr_params req) w) as [r w'].
      cbn [fst snd]. destruct r; done.
    + right. split; [|by eexists _, _]. intros req' (_ & v' & Hv' & Hr' & He'). congruence.
  - right. split; [|by eexists _, _]. intros req' (_ & v' & Hv' & Hr' & _). congruence.
  - right. split; [|by eexists _, _]. intros req' (_ & v' & Hv' & Hr' & _). congruence.
Qed.
End equivalence.

(** ** At work *)
Definition no_floats (f : spec_float) : string := "0".
Definition texts (e : pyexn) : string := match e with ValueError s | RuntimeError s => s | _ => "" end.
Definition bad_text (line : string) : string := "Expecting value".
(** A gateway that counts, and refuses what it does not know. *)
Definition counter (method : string) (params : pydict) (n : Z) : outcome pyval * Z :=
  if String.eqb method "next" then (Gives (VDict [("n", VInt (n + 1))]), n + 1)
  else if String.eqb method "break" then (Breaks (RuntimeError "boom"), n + 1)
  else (Refuses (gw_err "PROTOCOL" ("unknown gateway method: " +:+ method)), n).
Fixpoint bytewise (s : string) : list string :=
  match s with "" => [] | String c s => String c "" :: bytewise s end.
Lemma bytewise_whole s : whole_chunks (bytewise s) s.
Proof.
  induction s as [|c s [Hf Hc]]; [split; [constructor|done]|]. cbn [bytewise]. split; [by constructor|].
  rewrite concat_cons, Hc. done.
Qed.
(** A byte at a time, with three other connections; one that the client gives up. *)
Definition demo (late : bool) : connection := {| others := 3; stalls := None; heard := negb late; cut := bytewise; cut' := bytewise |}.
Lemma demo_cuts late : cuts (demo late).
Proof. intros s. split; apply bytewise_whole. Qed.
Abbreviation demo_link := (served no_floats bad_text texts counter (demo false)).
Example refused_frame : _handle_connection no_floats bad_text texts counter [Some "{}"; Some NL] 5 =
  (response_json no_floats (refusal 1 "" (gw_err "PROTOCOL" "request v must be a positive int")) +:+ NL, 5).
Proof. vm_compute. reflexivity. Qed.
(** A request with the escape of a lone surrogate for its identifier is executed, and
    its response is never written. *)
Definition lone_id : string := "{'v':1,'id':'\ud800','method':'next','params':{}}".
Fixpoint quoted (s : string) : string :=
  match s with "" => "" | String c s => String (if Ascii.eqb c "'" then quote else c) (quoted s) end.
Theorem executed_unanswered : _handle_connection no_floats bad_text texts counter [Some (quoted lone_id +:+ NL)] 5 = ("", 6).
Proof. vm_compute. reflexivity. Qed.
Lemma remote_is_call_witness :
  remote_gateway_call no_floats (ssh_to no_floats bad_text texts demo_link) "r1" "next" [] 5 = (Gives (VDict [("n", VInt 6)]), 6).
Proof.
  rewrite (remote_is_call no_floats bad_text texts demo_link "r1" "next" [] 5);
    [vm_compute; reflexivity|discriminate|discriminate|vm_compute; reflexivity|vm_compute; reflexivity].
Defined.
