(* ===== verification/GatewayWatch.v ===== *)
(** * Watching events
    (src/src/codeagent/gateway/cli.py: [events watch])

    [cmd_events_watch] prints the events of the gateway as they come, and keeps the
    cursor of its position in a file, so that the next watch goes on where it ended.
    The event log and its pages are those of GatewayStores.v; the files are what
    their JSON holds. How an event is printed is left out. *)
From S2P Require Import Prelude Wire RemoteExec GatewayStores Routing.

Section watch.
(** [sha256] in hex, the host's name with the process, and the time of a save. *)
Context (sha256 : string -> string) (watcher_id saved_at : string).

(** ** The file of the cursor *)
Abbreviation filter_set := (option (list string)).
Definition filter_hash (filters : filter_set) : string :=
  match filters with
  | None | Some [] => ""
  | Some l => str_take 12 (sha256 (String.concat "," (sort_strs l)))
  end.
Definition _watch_cursor_file (session_id runtime_id : string) (filters : filter_set) : option string :=
  let key := first_of session_id runtime_id in
  if String.eqb key "" then None else
  let key := match filters with None | Some [] => key | Some _ => key +:+ "-f" +:+ filter_hash filters end in
  Some ("watch-cursor-" +:+ key +:+ ".json").
(** [None]: a file that holds no JSON. *)
Abbreviation files := (gmap string (option pyval)).
Definition _load_watch_cursor (session_id runtime_id : string) (filters : filter_set) (f : files) : res Z :=
  match _watch_cursor_file session_id runtime_id filters with
  | None => Ok 0
  | Some path =>
    match f !! path with
    | None | Some None => Ok 0
    | Some (Some (VDict d)) => Ok (default 0 (py_int (dgetd d "cursor" (VInt 0))))
    | Some (Some _) => Raise (AttributeError "no attribute get")
    end
  end.
Definition _save_watch_cursor (session_id runtime_id : string) (cursor : Z) (filters : filter_set) (f : files) : files :=
  match _watch_cursor_file session_id runtime_id filters with
  | None => f
  | Some path =>
    <[path := Some (VDict [("cursor", VInt cursor); ("filters", VList (map VStr (default [] filters)));
                           ("filter_hash", VStr (filter_hash filters)); ("watcher_id", VStr watcher_id);
                           ("saved_at", VStr saved_at)])]> f
  end.

(** ** --exit-on *)
Definition exit_spec (item : string) : option (string * option string) :=
  let item := strip item in
  if String.eqb item "" then None else
  match split1 "."%char item with
  | None => Some (strip item, None)
  | Some (kind, state) => if String.eqb kind "" || String.eqb state "" then None else Some (strip kind, Some (strip state))
  end.
Definition _parse_exit_on (raw : string) : list (string * option string) := omap exit_spec (split_all ","%char raw).
(** [payload] is an object in every event of the log. *)
Definition hits (exit_on : list (string * option string)) (e : RuntimeEvent) : bool :=
  existsb (fun x => String.eqb (fst x) (ev_kind e) &&
                    match snd x with None => true | Some s => eq_str (dgetd (ev_payload e) "state" (VStr "")) s end) exit_on.
(** The events of a page that are printed, and whether one of them ends the watch. *)
Fixpoint printed (exit_on : list (string * option string)) (l : list RuntimeEvent) : list RuntimeEvent * bool :=
  match l with
  | [] => ([], false)
  | e :: l => if hits exit_on e then ([e], true) else let '(p, hit) := printed exit_on l in (e :: p, hit)
  end.

(** ** The watch *)
Record watch_args := {
  wa_session : string; wa_runtime : string; wa_filters : filter_set; wa_limit : Z; wa_exit_on : list (string * option string);
  wa_max_events : Z; wa_cursor : option Z }.
(** A round: the log as the gateway finds it, unless it does not answer; whether the
    duration is over, and whether the sleep is interrupted. *)
Record watch_round := { wr_log : option events; wr_late : bool; wr_interrupted : bool }.
Definition py_or_z (a b : Z) : Z := if a =? 0 then b else a.
(** The printed events, the files and the exit code, if it has ended. *)
Fixpoint watch_loop (a : watch_args) (rounds : list watch_round) (cursor seen : Z) (f : files) : list RuntimeEvent * files * option Z :=
  match rounds with
  | [] => ([], f, None)
  | r :: rounds =>
    match wr_log r with
    | None => ([], f, Some 1)
    | Some t =>
      match list_after cursor (wa_filters a) (wa_limit a) (wa_session a) (wa_runtime a) t with
      | Raise _ => ([], f, Some 1)
      | Ok (l, c) =>
        let save c := _save_watch_cursor (wa_session a) (wa_runtime a) c (wa_filters a) f in
        let '(p, hit) := printed (wa_exit_on a) l in
        if hit : bool then (p, save (py_or_z c cursor), Some 0) else
        let seen := seen + Z.of_nat (length l) in
        if negb (wa_max_events a =? 0) && (wa_max_events a <=? seen) || wr_late r || wr_interrupted r
        then (p, save c, Some 0)
        else let '(p', f', code) := watch_loop a rounds c seen (save c) in (p ++ p', f', code)
      end
    end
  end.
Definition cmd_events_watch (a : watch_args) (rounds : list watch_round) (f : files) : res (list RuntimeEvent * files * option Z) :=
  do cursor <- match wa_cursor a with
               | Some c => Ok c
               | None => _load_watch_cursor (wa_session a) (wa_runtime a) (wa_filters a) f
               end;
  Ok (watch_loop a rounds cursor 0 f).
(** Watches one after the other, each until it ends or is killed. *)
Fixpoint watches (a : watch_args) (l : list (list watch_round)) (f : files) : res (list RuntimeEvent * files) :=
  match l with
  | [] => Ok ([], f)
  | rounds :: l =>
    do x <- cmd_events_watch a rounds f;
    let '(p, f, _) := x in
    do y <- watches a l f;
    let '(p', f) := y in Ok (p ++ p', f)
  end.
End watch.

(** ** Going on where the last watch ended *)
(** Every round finds the log as appends, ingestions and sweeps have made it. *)
Fixpoint evolves (t : events) (rounds : list watch_round) : Prop :=
  match rounds with
  | [] => True
  | r :: rounds => match wr_log r with None => evolves t rounds | Some t' => rtc log_step t t' /\ evolves t' rounds end
  end.
Fixpoint last_log (t : events) (rounds : list watch_round) : events :=
  match rounds with [] => t | r :: rounds => last_log (default t (wr_log r)) rounds end.
Lemma evolves_last t rounds : evolves t rounds -> rtc log_step t (last_log t rounds).
Proof.
  revert t. induction rounds as [|r rounds IH]; intros t; [by constructor|]. cbn [evolves last_log].
  destruct (wr_log r) as [t'|]; cbn [default]; [|by apply IH]. intros [Ht He]. etrans; [exact Ht|by apply IH].
Qed.
Lemma evolves_app t r1 r2 : evolves t (r1 ++ r2) <-> evolves t r1 /\ evolves (last_log t r1) r2.
Proof.
  revert t. induction r1 as [|r r1 IH]; intros t; cbn [app evolves last_log]; [naive_solver|].
  destruct (wr_log r) as [t'|]; cbn [default id]; rewrite IH; tauto.
Qed.
Lemma last_log_app t r1 r2 : last_log t (r1 ++ r2) = last_log (last_log t r1) r2.
Proof. revert t. induction r1 as [|r r1 IH]; intros t; [done|]. cbn [app last_log]. by rewrite IH. Qed.
Lemma reader_writes fs s rt t t' r : rtc log_step t t' -> reader_ok fs s rt t r -> reader_ok fs s rt t' r.
Proof. induction 1 as [|t t1 t2 Hs _ IH]; [done|]. intros Hr. apply IH. by eapply reader_write. Qed.

Section chain.
Context (sha256 : string -> string) (watcher_id saved_at : string) (a : watch_args).
Abbreviation load f := (_load_watch_cursor sha256 (wa_session a) (wa_runtime a) (wa_filters a) f).
Abbreviation save c f := (_save_watch_cursor sha256 watcher_id saved_at (wa_session a) (wa_runtime a) c (wa_filters a) f).
Abbreviation loop := (watch_loop sha256 watcher_id saved_at a).
Abbreviation keep := (matches (wa_filters a) (wa_session a) (wa_runtime a)).
Abbreviation reads := (reader_ok (wa_filters a) (wa_session a) (wa_runtime a)).
Definition named : Prop := first_of (wa_session a) (wa_runtime a) <> "".
Lemma load_save c f : named -> load (save c f) = Ok c.
Proof.
  unfold named, _load_watch_cursor, _save_watch_cursor, _watch_cursor_file. intros Hn. apply String.eqb_neq in Hn. rewrite Hn.
  by rewrite lookup_insert_eq.
Qed.
Lemma printed_all l : printed [] l = (l, false).
Proof. induction l as [|e l IH]; [done|]. cbn [printed]. by rewrite IH. Qed.
Lemma loop_reads rounds t r seen f p f' code : named -> wa_exit_on a = [] -> reads t r -> evolves t rounds -> load f = Ok (rd_cursor r) ->
  loop rounds (rd_cursor r) seen f = (p, f', code) -> exists r',
  reads (last_log t rounds) r' /\ rd_seen r' = rd_seen r ++ p /\ load f' = Ok (rd_cursor r').
Proof.
  intros Hn Hx. revert t r seen f p. induction rounds as [|x rounds IH]; intros t r seen f p Hr He Hf Hl; cbn [watch_loop] in Hl.
  - simplify_eq. exists r. by rewrite app_nil_r.
  - assert (Hstop : p = [] -> f' = f -> exists r', reads (last_log t (x :: rounds)) r' /\ rd_seen r' = rd_seen r ++ p /\ load f' = Ok (rd_cursor r')).
    { intros -> ->. exists r. rewrite app_nil_r. split; [|done]. eapply reader_writes; [by apply evolves_last|done]. }
    destruct (wr_log x) as [t'|] eqn:Hlog; [|by simplify_eq; auto].
    assert (He' := He). cbn [evolves] in He. rewrite Hlog in He. destruct He as [Hw He].
    assert (Hr' : reads t' r) by by eapply reader_writes.
    destruct (list_after _ _ _ _ _ _) as [[l c]|e] eqn:Ha; [|by simplify_eq; auto].
    rewrite Hx, printed_all in Hl.
    destruct (poll_spec (wa_filters a) (wa_session a) (wa_runtime a) (wa_limit a) t' r Hr') as [Hp _].
    unfold poll in Hp. rewrite Ha in Hp. set (r1 := {| rd_cursor := c; rd_seen := rd_seen r ++ l |}) in *.
    cbn [last_log]. rewrite Hlog. cbn [default].
    destruct (_ || _ || _).
    + simplify_eq. exists r1. split; [|split; [done|by apply load_save]]. eapply reader_writes; [by apply evolves_last|done].
    + destruct (watch_loop _ _ _ _ _ _ _ _) as [[p' f1] code'] eqn:Hrest. simplify_eq.
      destruct (IH t' r1 (seen + Z.of_nat (length l)) (save c f) p' Hp He (load_save _ _ Hn) Hrest) as (r' & H1 & H2 & H3).
      exists r'. split; [done|]. split; [|done]. rewrite H2. simpl. by rewrite app_assoc.
Qed.
Lemma watches_read l t r f p f' : named -> wa_exit_on a = [] -> wa_cursor a = None -> reads t r -> evolves t (List.concat l) ->
  load f = Ok (rd_cursor r) -> watches sha256 watcher_id saved_at a l f = Ok (p, f') -> exists r',
  reads (last_log t (List.concat l)) r' /\ rd_seen r' = rd_seen r ++ p /\ load f' = Ok (rd_cursor r').
Proof.
  intros Hn Hx Hc. revert t r f p. induction l as [|rounds l IH]; intros t r f p Hr He Hf Hw; cbn [watches List.concat] in *.
  - simplify_eq. exists r. by rewrite app_nil_r.
  - unfold cmd_events_watch in Hw. rewrite Hc, Hf in Hw. cbn [res_bind] in Hw.
    destruct (loop rounds (rd_cursor r) 0 f) as [[p1 f1] code] eqn:Hl. apply res_bind_Ok in Hw as ([p2 f2] & Hw & Hp). simplify_eq.
    apply evolves_app in He as [He1 He2].
    destruct (loop_reads _ _ _ _ _ _ _ _ Hn Hx Hr He1 Hf Hl) as (r1 & Hr1 & Hs1 & Hf1).
    destruct (IH _ _ _ _ Hr1 He2 Hf1 Hw) as (r2 & Hr2 & Hs2 & Hf2). exists r2. rewrite last_log_app. split; [done|].
    split; [|done]. by rewrite Hs2, Hs1, app_assoc.
Qed.
(** A watch prints only what is beyond the cursor it starts with. *)
Lemma next_above c l : Forall (fun e => c < ev_id e) l -> c <= next_cursor c l.
Proof. unfold next_cursor. intros Hl. destruct (last l) as [e|] eqn:He; [|lia]. apply last_Some_elem_of in He. rewrite Forall_forall in Hl. apply Hl in He. lia. Qed.
Lemma page_above c k t : Forall (fun e => c < ev_id e /\ keep e = true) (page c k keep t).
Proof.
  apply Forall_forall. intros e He. assert (Hs : page c k keep t `sublist_of` List.filter (fun e => (c <? ev_id e) && keep e) (rows t))
    by apply sublist_take.
  assert (Hf : e ∈ List.filter (fun e => (c <? ev_id e) && keep e) (rows t)).
  { eapply elem_of_submseteq; [exact He|by apply sublist_submseteq]. }
  apply elem_of_List_filter in Hf as [_ Hf]. apply andb_true_iff in Hf as [Hc Hk]. split; [lia|done].
Qed.
Lemma printed_sub x l : (printed x l).1 `prefix_of` l.
Proof.
  induction l as [|e l IH]; [by exists []|]. cbn [printed]. destruct (hits x e); [by exists l|].
  destruct (printed x l) as [q h]. destruct IH as [k ->]. by exists k.
Qed.
Lemma loop_above rounds c seen f p f' code : loop rounds c seen f = (p, f', code) -> Forall (fun e => c < ev_id e /\ keep e = true) p.
Proof.
  revert c seen f p. induction rounds as [|x rounds IH]; intros c seen f p Hl; cbn [watch_loop] in Hl; [by simplify_eq; constructor|].
  destruct (wr_log x) as [t|]; [|by simplify_eq; constructor]. unfold list_after in Hl.
  destruct (forallb _ _); [|by simplify_eq; constructor]. set (l := page c (wa_limit a) keep t) in *.
  pose proof (page_above c (wa_limit a) t) as Hab. fold l in Hab.
  assert (Hp : Forall (fun e => c < ev_id e /\ keep e = true) (printed (wa_exit_on a) l).1).
  { destruct (printed_sub (wa_exit_on a) l) as [k Hk]. rewrite Hk in Hab. by apply Forall_app in Hab as [? _]. }
  destruct (printed (wa_exit_on a) l) as [q h]. cbn [fst] in Hp. destruct h; [by simplify_eq|].
  destruct (_ || _ || _); [by simplify_eq|]. destruct (watch_loop _ _ _ _ _ _ _ _) as [[p1 f1] c1] eqn:Hr. simplify_eq.
  apply Forall_app. split; [done|]. eapply Forall_impl; [by eapply IH|]. cbn beta. intros e [He Hk]. split; [|done].
  assert (c <= next_cursor c l); [|lia]. apply next_above. eapply Forall_impl; [exact Hab|]. naive_solver.
Qed.
Lemma watch_above rounds c f p f' code : wa_cursor a = None -> load f = Ok c ->
  cmd_events_watch sha256 watcher_id saved_at a rounds f = Ok (p, f', code) -> Forall (fun e => c < ev_id e /\ keep e = true) p.
Proof. unfold cmd_events_watch. intros -> ->. cbn [res_bind]. intros [= H]. by eapply loop_above. Qed.
End chain.

Section theorems.
Context (sha256 : string -> string) (watcher_id saved_at : string).
Abbreviation watch := (cmd_events_watch sha256 watcher_id saved_at).
(** C35: Watches of a session or a runtime, started one after the other with the same
    arguments, without --exit-on and without a cursor of their own: however often
    one ends, fails or is killed between two rounds, and however the log grows and
    is swept meanwhile, they together print each event at most once and in order,
    only events that the filters keep, and of the log as it is at the end all that
    are not beyond the position that the file has.  With --exit-on events are missed
    ([exit_on_skips]), and watches with other arguments but the same position file
    take events from each other ([watchers_meet]). *)
Theorem watches_go_on a l p f : named a -> wa_exit_on a = [] -> wa_cursor a = None -> evolves empty_events (List.concat l) ->
  watches sha256 watcher_id saved_at a l ∅ = Ok (p, f) ->
  let keep := matches (wa_filters a) (wa_session a) (wa_runtime a) in
  StronglySorted Z.lt (map ev_id p) /\ Forall (fun e => keep e = true) p /\
  exists c, _load_watch_cursor sha256 (wa_session a) (wa_runtime a) (wa_filters a) f = Ok c /\
    forall e, e ∈ rows (last_log empty_events (List.concat l)) -> keep e = true -> e ∈ p \/ c < ev_id e.
Proof.
  intros Hn Hx Hc He Hw. cbv zeta.
  destruct (watches_read sha256 watcher_id saved_at a l empty_events new_reader ∅ p f Hn Hx Hc) as (r & Hr & Hs & Hf);
    [apply reader_ok_start|done| |done|].
  { unfold _load_watch_cursor. destruct (_watch_cursor_file _ _ _ _); [|done]. by rewrite lookup_empty. }
  simpl in Hs. rewrite <- Hs. destruct Hr as [Hlog ? ? ? ? Hseen]. split; [done|]. split; [done|].
  exists (rd_cursor r). split; [done|]. intros e Hin Hk. destruct (decide (ev_id e <= rd_cursor r)); [left; by apply Hseen|right; lia].
Qed.
(** A watch that an event of --exit-on ends in the middle of a page prints nothing
    of the page behind that event, and no later watch does: the file has the cursor
    of the whole page. *)
Theorem exit_on_skips a t cursor seen f l c q rest : named a -> log_ok t -> 0 <= cursor ->
  list_after cursor (wa_filters a) (wa_limit a) (wa_session a) (wa_runtime a) t = Ok (l, c) ->
  printed (wa_exit_on a) l = (q, true) -> l = q ++ rest ->
  let r := {| wr_log := Some t; wr_late := false; wr_interrupted := false |} in
  exists f', watch_loop sha256 watcher_id saved_at a [r] cursor seen f = (q, f', Some 0) /\
  forall later rounds p f'' code, wa_session later = wa_session a -> wa_runtime later = wa_runtime a ->
    wa_filters later = wa_filters a -> wa_cursor later = None -> watch later rounds f' = Ok (p, f'', code) ->
    forall e, e ∈ rest -> e ∉ p.
Proof.
  intros Hn Ht Hc Ha Hp Hl. cbv zeta. cbn [watch_loop wr_log]. rewrite Ha, Hp. eexists. split; [done|].
  intros later rounds p f'' code Hs1 Hs2 Hs3 Hcur Hw e He Hin.
  unfold list_after in Ha. destruct (forallb _ _); [|done]. injection Ha as Hlc Hcc.
  pose proof (page_moves cursor (wa_limit a) (matches (wa_filters a) (wa_session a) (wa_runtime a)) t (lo_sorted _ Ht)) as (_ & _ & Hmv & _).
  rewrite Hlc in Hmv, Hcc. rewrite Hcc in Hmv. rewrite Forall_forall in Hmv.
  assert (Hel : e ∈ l) by (rewrite Hl; apply elem_of_app; by right). specialize (Hmv e Hel).
  assert (Hz : py_or_z c cursor = c) by (unfold py_or_z; destruct (Z.eqb_spec c 0); lia). rewrite Hz in Hw.
  assert (Hab := watch_above sha256 watcher_id saved_at later rounds c
    (_save_watch_cursor sha256 watcher_id saved_at (wa_session a) (wa_runtime a) c (wa_filters a) f) p f'' code Hcur).
  rewrite Hs1, Hs2, Hs3 in Hab. specialize (Hab (load_save sha256 watcher_id saved_at a c f Hn) Hw).
  rewrite Forall_forall in Hab. specialize (Hab e Hin). lia.
Qed.
(** Watches of different runtimes of one session keep their positions in one file:
    what the one has passed is never printed by the other, events of its own
    runtime included. *)
Theorem watchers_meet a later c f rounds p f' code : wa_session a <> "" -> wa_session later = wa_session a ->
  wa_filters later = wa_filters a -> wa_cursor later = None ->
  watch later rounds (_save_watch_cursor sha256 watcher_id saved_at (wa_session a) (wa_runtime a) c (wa_filters a) f) = Ok (p, f', code) ->
  Forall (fun e => c < ev_id e) p.
Proof.
  intros Hn Hs Hf Hc Hw. assert (Hna : named a) by (unfold named, first_of; apply String.eqb_neq in Hn as Hn'; by rewrite Hn').
  eapply Forall_impl; [eapply (watch_above sha256 watcher_id saved_at later rounds c); [done| |exact Hw]|naive_solver].
  rewrite <- (load_save sha256 watcher_id saved_at a c f Hna). unfold _load_watch_cursor, _watch_cursor_file, first_of. rewrite Hs, Hf.
  apply String.eqb_neq in Hn. by rewrite Hn.
Qed.
End theorems.

(** ** At work *)
Definition no_sha (s : string) : string := "00000000000000000000".
Definition watch_draft (rid kind state : string) : RuntimeEventDraft := {|
  ed_runtime := rid; ed_generation := 1; ed_session := "s1"; ed_agent := "w1"; ed_request := ""; ed_run := ""; ed_kind := kind;
  ed_created := "2026-08-01T10:00:00Z"; ed_payload := [("state", VStr state)] |}.
Definition log_of (l : list RuntimeEventDraft) : events := foldl (fun t d => run_log_op (Append "here" d) t) empty_events l.
Definition log1 : events := log_of [watch_draft "rt1" "TASK_STATE" "agent_start"; watch_draft "rt2" "TURN_STARTED" ""].
Definition log2 : events := run_log_op (Append "here" (watch_draft "rt1" "TASK_STATE" "agent_end")) log1.
Definition a_round (t : events) : watch_round := {| wr_log := Some t; wr_late := false; wr_interrupted := false |}.
Definition demo_watch (runtime_id : string) (exit_on : string) : watch_args := {|
  wa_session := "s1"; wa_runtime := runtime_id; wa_filters := None; wa_limit := 200; wa_exit_on := _parse_exit_on exit_on;
  wa_max_events := 0; wa_cursor := None |}.
Example exit_on_parsed : _parse_exit_on "TASK_STATE.agent_end, ASSISTANT_PROGRESS,.x,y." =
  [("TASK_STATE", Some "agent_end"); ("ASSISTANT_PROGRESS", None)].
Proof. reflexivity. Qed.
Lemma log_of_steps l : rtc log_step empty_events (log_of l).
Proof.
  unfold log_of. induction l as [|d l IH] using rev_ind; [constructor|]. rewrite foldl_app. simpl.
  eapply rtc_r; [exact IH|apply (run_log_op_step (Append "here" d))].
Qed.
Lemma log_of_ok l : log_ok (log_of l).
Proof.
  induction l as [|d l IH] using rev_ind; [apply empty_events_ok|]. unfold log_of. rewrite foldl_app.
  eapply log_step_ok; [exact IH|apply (run_log_op_step (Append "here" d))].
Qed.
Lemma watches_go_on_witness :
  let w := demo_watch "" "" in
  let l := [[a_round log1]; [{| wr_log := None; wr_late := false; wr_interrupted := false |}]; [a_round log2; a_round log2]] in
  exists p f, watches no_sha "host:1" "now" w l ∅ = Ok (p, f) /\ map ev_id p = [1; 2; 3] /\ StronglySorted Z.lt (map ev_id p).
Proof.
  cbv zeta. eexists _, _. split; [vm_compute; reflexivity|]. split; [vm_compute; reflexivity|].
  eapply (watches_go_on no_sha "host:1" "now" (demo_watch "" "")
    [[a_round log1]; [{| wr_log := None; wr_late := false; wr_interrupted := false |}]; [a_round log2; a_round log2]]);
    [discriminate|reflexivity|reflexivity| |vm_compute; reflexivity].
  cbn [List.concat app evolves wr_log a_round]. split; [apply log_of_steps|]. split; [|split; [constructor|exact I]].
  eapply rtc_r; [constructor|apply run_log_op_step].
Defined.
Definition log3 : events := log_of [watch_draft "rt1" "TASK_STATE" "agent_end"; watch_draft "rt1" "TURN_STARTED" ""].
Lemma exit_on_skips_witness : exists e f', e ∈ rows log3 /\
  watch_loop no_sha "host:1" "now" (demo_watch "" "TASK_STATE.agent_end") [a_round log3] 0 0 ∅ = (take 1 (rows log3), f', Some 0) /\
  forall rounds p f'' code, cmd_events_watch no_sha "host:1" "now" (demo_watch "" "") rounds f' = Ok (p, f'', code) -> e ∉ p.
Proof.
  assert (Hlen : exists e1 e2, rows log3 = [e1; e2]) by (eexists _, _; vm_compute; reflexivity).
  destruct Hlen as (e1 & e2 & Hrows).
  destruct (exit_on_skips no_sha "host:1" "now" (demo_watch "" "TASK_STATE.agent_end") log3 0 0 ∅ (rows log3) 2 (take 1 (rows log3)) (drop 1 (rows log3)))
    as (f' & Hf & H); [discriminate|apply log_of_ok|lia|vm_compute; reflexivity|vm_compute; reflexivity|by rewrite take_drop|].
  exists e2, f'. split; [rewrite Hrows; right; left|]. split; [exact Hf|]. intros rounds p f'' code Hw.
  eapply (H (demo_watch "" "") rounds p f'' code); [reflexivity|reflexivity|reflexivity|reflexivity|exact Hw|rewrite Hrows; left].
Defined.
Lemma watchers_meet_witness : exists p f' code,
  cmd_events_watch no_sha "host:1" "now" (demo_watch "rt2" "") [a_round log1]
    (_save_watch_cursor no_sha "host:1" "now" "s1" "rt1" 2 None ∅) = Ok (p, f', code) /\ Forall (fun e => 2 < ev_id e) p.
Proof.
  do 3 eexists. split; [vm_compute; reflexivity|].
  eapply (watchers_meet no_sha "host:1" "now" (demo_watch "rt1" "") (demo_watch "rt2" "") 2 ∅ [a_round log1]);
    [discriminate|reflexivity|reflexivity|reflexivity|vm_compute; reflexivity].
Defined.
