(* ===== verification/Jobs.v ===== *)
(** * Background jobs
    (src/src/codeagent/job.py, the [job] commands and the background runs of cli.py)

    A job is a directory of small files. The command that starts a job makes the
    directory, starts a detached child, and then marks the job as running; the child
    writes the result and the final status. An operation is the list of its steps, a
    reader may come between any two of them, and the two processes interleave. The
    files that only one process writes are replaced in one step. The status is
    written by both, through one temporary file: its opening, its writing and its
    renaming are steps of their own, on files that keep their contents when a name is
    moved, and a process whose renaming finds no file ends with that exception. *)
From S2P Require Import Prelude Routing AgentSession.

(** ** The status and its temporary file *)
Inductive proc := Parent | Child.
#[export] Instance proc_eq_dec : EqDecision proc. Proof. solve_decision. Defined.
(** The files that [status] and [status.tmp] name, by their numbers; the contents of
    all files there have been; which one each process has opened; whether it has
    ended with an exception. *)
Record slot := { sl_status : option nat; sl_tmp : option nat; sl_data : list string; sl_open : proc -> nat; sl_dead : proc -> bool }.
Definition empty_slot : slot := {| sl_status := None; sl_tmp := None; sl_data := []; sl_open := fun _ => O; sl_dead := fun _ => false |}.
Definition upd {A} (f : proc -> A) (p : proc) (x : A) : proc -> A := fun q => if decide (q = p) then x else f q.
Inductive slot_op := Open | Put (s : string) | Replace.
(** A text written from the beginning of a file over what is there. *)
Definition overlay (s old : string) : string := s +:+ String.substring (String.length s) (String.length old) old.
Definition slot_step (p : proc) (o : slot_op) (x : slot) : slot :=
  match o with
  | Open =>
    match sl_tmp x with
    | Some i => {| sl_status := sl_status x; sl_tmp := Some i; sl_data := <[i := ""]> (sl_data x); sl_open := upd (sl_open x) p i; sl_dead := sl_dead x |}
    | None => let i := length (sl_data x) in
      {| sl_status := sl_status x; sl_tmp := Some i; sl_data := sl_data x ++ [""]; sl_open := upd (sl_open x) p i; sl_dead := sl_dead x |}
    end
  | Put s => {| sl_status := sl_status x; sl_tmp := sl_tmp x; sl_data := alter (overlay s) (sl_open x p) (sl_data x);
                sl_open := sl_open x; sl_dead := sl_dead x |}
  | Replace =>
    match sl_tmp x with
    | Some i => {| sl_status := Some i; sl_tmp := None; sl_data := sl_data x; sl_open := sl_open x; sl_dead := sl_dead x |}
    | None => {| sl_status := sl_status x; sl_tmp := None; sl_data := sl_data x; sl_open := sl_open x; sl_dead := upd (sl_dead x) p true |}
    end
  end.

(** ** The files of a job *)
Record job_meta := { jm_task : string; jm_host : string; jm_workdir : string; jm_created : string }.
Record job_dir := {
  j_meta : option job_meta; j_slot : slot; j_started : option string; j_finished : option string; j_pid : option Z;
  j_result : option RunResult; j_stderr : option string }.
Definition empty_dir : job_dir :=
  {| j_meta := None; j_slot := empty_slot; j_started := None; j_finished := None; j_pid := None; j_result := None; j_stderr := None |}.
Definition j_status (d : job_dir) : option string := i ← sl_status (j_slot d); sl_data (j_slot d) !! i.
Definition ended (d : job_dir) (p : proc) : bool := sl_dead (j_slot d) p.
Inductive job_write :=
  W_meta (m : job_meta) | W_slot (o : slot_op) | W_started (t : string) | W_finished (t : string) | W_pid (p : Z)
| W_result (r : RunResult) | W_stderr (s : string).
Definition do_write (d : job_dir) (x : proc * job_write) : job_dir :=
  if ended d (fst x) then d else
  match snd x with
  | W_meta m => {| j_meta := Some m; j_slot := j_slot d; j_started := j_started d; j_finished := j_finished d; j_pid := j_pid d; j_result := j_result d; j_stderr := j_stderr d |}
  | W_slot o => {| j_meta := j_meta d; j_slot := slot_step (fst x) o (j_slot d); j_started := j_started d; j_finished := j_finished d; j_pid := j_pid d; j_result := j_result d; j_stderr := j_stderr d |}
  | W_started t => {| j_meta := j_meta d; j_slot := j_slot d; j_started := Some t; j_finished := j_finished d; j_pid := j_pid d; j_result := j_result d; j_stderr := j_stderr d |}
  | W_finished t => {| j_meta := j_meta d; j_slot := j_slot d; j_started := j_started d; j_finished := Some t; j_pid := j_pid d; j_result := j_result d; j_stderr := j_stderr d |}
  | W_pid p => {| j_meta := j_meta d; j_slot := j_slot d; j_started := j_started d; j_finished := j_finished d; j_pid := Some p; j_result := j_result d; j_stderr := j_stderr d |}
  | W_result r => {| j_meta := j_meta d; j_slot := j_slot d; j_started := j_started d; j_finished := j_finished d; j_pid := j_pid d; j_result := Some r; j_stderr := j_stderr d |}
  | W_stderr s => {| j_meta := j_meta d; j_slot := j_slot d; j_started := j_started d; j_finished := j_finished d; j_pid := j_pid d; j_result := j_result d; j_stderr := Some s |}
  end.
Definition do_writes (l : list (proc * job_write)) (d : job_dir) : job_dir := foldl do_write d l.
Definition alone (p : proc) (l : list job_write) : list (proc * job_write) := map (pair p) l.

(** ** The writes of the operations *)
(** [_atomic_write(job_dir / "status", s)] *)
Definition write_status (s : string) : list job_write := [W_slot Open; W_slot (Put s); W_slot Replace].
Definition create_placeholder (task host workdir now : string) : list job_write :=
  [W_meta {| jm_task := str_take 500 task; jm_host := host; jm_workdir := workdir; jm_created := now |}] ++ write_status "pending".
Definition mark_running (pid : Z) (now : string) : list job_write :=
  write_status "running" ++ [W_started now] ++ (if pid =? 0 then [] else [W_pid pid]).
Definition final_status (r : RunResult) : string := if rs_code r =? 0 then "done" else "failed".
Definition _MAX_STDERR_TAIL : nat := Z.to_nat 8192.
(** The last [n] bytes. *)
Definition last_bytes (n : nat) (s : string) : string := String.substring (String.length s - n) n s.
Definition mark_done (r : RunResult) (now : string) : list job_write :=
  [W_result r] ++ (if String.eqb (rs_stderr r) "" then [] else [W_stderr (last_bytes _MAX_STDERR_TAIL (rs_stderr r))])
  ++ write_status (final_status r) ++ [W_finished now].
(** The thread of a job that [submit] starts; [outcome]: what the function gives. *)
Definition job_exception (text : string) : RunResult := {|
  rs_code := 1; rs_stdout := ""; rs_stderr := "job exception: " +:+ text; rs_session := None; rs_backend := ""; rs_host := ""; rs_workdir := "" |}.
Definition _run_job (outcome : res RunResult) (started finished : string) : list job_write :=
  write_status "running" ++ [W_started started]
  ++ mark_done (match outcome with Ok r => r | Raise e => job_exception (exn_text e) end) finished.

(** ** Reading *)
Record JobInfo := {
  ji_id : string; ji_status : string; ji_task : string; ji_host : string; ji_workdir : string; ji_created : string; ji_started : string;
  ji_finished : string; ji_returncode : option Z; ji_stdout : string; ji_stderr : string; ji_session : option string;
  ji_backend : string; ji_pid : option Z }.
Definition is_final (s : string) : bool := String.eqb s "done" || String.eqb s "failed".
Section jobs.
(** Whether a process lives. *)
Context (alive : Z -> bool).
Definition _read_info (job_id : string) (d : job_dir) : JobInfo :=
  let status := match j_status d with Some s => strip s | None => "unknown" end in
  let meta f := match j_meta d with Some m => f m | None => "" end in
  let watched := if is_final status then None else j_pid d in
  let gone := match watched with Some p => negb (alive p) | None => false end in
  let result {A} (f : RunResult -> A) (dflt : A) := match j_result d with Some r => f r | None => dflt end in
  {| ji_id := job_id; ji_status := if gone && String.eqb status "running" then "stale" else status;
     ji_task := meta jm_task; ji_host := first_of (result rs_host "") (meta jm_host);
     ji_workdir := first_of (result rs_workdir "") (meta jm_workdir); ji_created := meta jm_created;
     ji_started := strip (or_empty (j_started d)); ji_finished := strip (or_empty (j_finished d));
     ji_returncode := result (fun r => Some (rs_code r)) None; ji_stdout := result rs_stdout ""; ji_stderr := result rs_stderr "";
     ji_session := result rs_session None; ji_backend := result rs_backend ""; ji_pid := if gone then None else watched |}.
Definition not_found (job_id : string) : pyexn := OSError ("job " +:+ job_id +:+ " not found").
Definition status (job_id : string) (jobs : gmap string job_dir) : res JobInfo :=
  match jobs !! job_id with Some d => Ok (_read_info job_id d) | None => Raise (not_found job_id) end.
(** The polls until the deadline, and the look after it. *)
Fixpoint wait (job_id : string) (polls : list (gmap string job_dir)) (after : gmap string job_dir) : res JobInfo :=
  match polls with
  | [] => status job_id after
  | jobs :: polls =>
    do info <- status job_id jobs;
    if is_final (ji_status info) then Ok info else wait job_id polls after
  end.
(** [job wait] *)
Definition wait_exit (info : JobInfo) : Z := default 0 (ji_returncode info).
(** [entries]: the directories with a status, and the times of their last change. *)
Definition later (x y : Z * string) : bool := (fst y <? fst x) || (fst x =? fst y) && negb (String.ltb (snd x) (snd y)).
Definition list_jobs (limit : nat) (entries : list (Z * string)) (jobs : gmap string job_dir) : list JobInfo :=
  omap (fun x => _read_info (snd x) <$> jobs !! snd x) (take limit (sort_by later entries)).
End jobs.

(** ** Two processes *)
Inductive merges : list job_write -> list job_write -> list (proc * job_write) -> Prop :=
| merges_nil : merges [] [] []
| merges_left x l1 l2 l : merges l1 l2 l -> merges (x :: l1) l2 ((Parent, x) :: l)
| merges_right x l1 l2 l : merges l1 l2 l -> merges l1 (x :: l2) ((Child, x) :: l).
(** The texts that a file for the status can hold: what the parent writes, an emptied
    file, and what the child writes, alone or over a text of the parent. *)
Definition early : list string := [""; "pending"; "running"].
Definition late (r : RunResult) : list string := [final_status r; overlay (final_status r) "running"].
Definition texts_ok (r : RunResult) (d : job_dir) : Prop :=
  Forall (fun t => t ∈ early \/ j_result d = Some r /\ t ∈ late r) (sl_data (j_slot d)).
(** A final status only behind the result that it is about. *)
Fixpoint orderly (r : RunResult) (has : bool) (l : list job_write) : Prop :=
  match l with
  | [] => True
  | W_result r' :: l => r' = r /\ orderly r true l
  | W_slot (Put s) :: l => has = true /\ s = final_status r /\ orderly r has l
  | _ :: l => orderly r has l
  end.
(** Writes that neither give a result nor end the job. *)
Definition unending (l : list job_write) : Prop :=
  Forall (fun w => match w with W_result _ => False | W_slot (Put s) => s ∈ ["pending"; "running"] | _ => True end) l.
Lemma final_or r : final_status r = "done" \/ final_status r = "failed".
Proof. unfold final_status. destruct (rs_code r =? 0); auto. Qed.
Ltac each_text := repeat match goal with
  | H : _ ∈ [] |- _ => by apply elem_of_nil in H
  | H : _ ∈ _ :: _ |- _ => apply elem_of_cons in H as [->|H]
  | H : _ \/ _ |- _ => destruct H
  end.
Lemma overlay_parent r s t : s ∈ ["pending"; "running"] -> t ∈ early \/ t ∈ late r -> overlay s t = s.
Proof. unfold early, late. intros Hs Ht. destruct (final_or r) as [Hr|Hr]; rewrite Hr in Ht; each_text; reflexivity. Qed.
Lemma overlay_child r t : t ∈ early \/ t ∈ late r -> overlay (final_status r) t ∈ late r.
Proof. unfold early, late. intros Ht. destruct (final_or r) as [Hr|Hr]; rewrite Hr in *; each_text; vm_compute; set_solver. Qed.
Lemma late_final r t : t ∈ late r -> is_final (strip t) = true -> t = final_status r.
Proof. unfold late. intros Ht Hf. destruct (final_or r) as [Hr|Hr]; rewrite Hr in *; each_text; vm_compute in Hf; done. Qed.
Lemma early_open t : t ∈ early -> is_final (strip t) = false.
Proof. unfold early. intros Ht. each_text; reflexivity. Qed.
(** A step on the status keeps its texts when what it puts does. *)
Lemma slot_step_texts (P : string -> Prop) p o x : P "" -> (forall s t, o = Put s -> P t -> P (overlay s t)) ->
  Forall P (sl_data x) -> Forall P (sl_data (slot_step p o x)).
Proof.
  intros He Hp Hx. destruct o; cbn [slot_step].
  - destruct (sl_tmp x); cbn [sl_data]; [by apply Forall_insert|]. apply Forall_app. by split; [|constructor].
  - apply Forall_alter; [done|]. intros t Ht _. apply (Hp s t eq_refl). by eapply Forall_lookup.
  - by destruct (sl_tmp x).
Qed.
(** The result is there when the child has written it, unless it has ended. *)
Definition backed (r : RunResult) (has : bool) (d : job_dir) : Prop := ended d Child = false -> has = true -> j_result d = Some r.
Lemma texts_ok_or r d t : t ∈ early \/ j_result d = Some r /\ t ∈ late r -> t ∈ early \/ t ∈ late r.
Proof. tauto. Qed.
Lemma parent_step r has d w : texts_ok r d -> backed r has d -> unending [w] ->
  texts_ok r (do_write d (Parent, w)) /\ backed r has (do_write d (Parent, w)).
Proof.
  intros Ht Hb Hw. unfold do_write. cbn [fst snd]. destruct (ended d Parent) eqn:He; [done|]. apply Forall_cons in Hw as [Hw _].
  destruct w as [m|o|t|t|q|x|t]; try done. split.
  - apply slot_step_texts; [left; vm_compute; set_solver| |exact Ht]. intros s t -> Hs.
    rewrite (overlay_parent r) by (done || by eapply texts_ok_or). left. unfold early. set_solver.
  - unfold backed, ended in *. cbn [j_slot j_result]. destruct o; cbn [slot_step]; try destruct (sl_tmp _); try done.
Qed.
Lemma child_step r has d w c : texts_ok r d -> backed r has d -> orderly r has (w :: c) ->
  exists has', orderly r has' c /\ texts_ok r (do_write d (Child, w)) /\ backed r has' (do_write d (Child, w)).
Proof.
  intros Ht Hb Ho. unfold do_write. cbn [fst snd]. destruct (ended d Child) eqn:He.
  - assert (Hd : forall has', backed r has' d) by (intros has'; unfold backed; congruence).
    destruct w as [m|[|s|]|t|t|q|x|t]; cbn [orderly] in Ho; naive_solver.
  - destruct w as [m|o|t|t|q|x|t]; cbn [orderly] in Ho; try (by exists has).
    + exists has. destruct o as [|s|]; cbn [orderly] in Ho.
      * split; [done|]. split; [apply slot_step_texts; [left; vm_compute; set_solver|done|exact Ht]|].
        unfold backed, ended in *. cbn [j_slot j_result slot_step]. by destruct (sl_tmp _).
      * destruct Ho as (-> & -> & Ho). split; [done|]. split; [|exact Hb].
        apply slot_step_texts; [left; vm_compute; set_solver| |exact Ht]. intros s t [= <-] Hs. right.
        split; [by apply Hb|]. apply overlay_child. by eapply texts_ok_or.
      * split; [done|]. split; [apply slot_step_texts; [left; vm_compute; set_solver|done|exact Ht]|].
        unfold backed, ended in *. cbn [j_slot j_result slot_step]. destruct (sl_tmp _); [done|]. cbn [sl_dead]. done.
    + destruct Ho as [-> Ho]. exists true. split; [done|]. split; [|done].
      eapply Forall_impl; [exact Ht|]. intros t [?|[_ ?]]; [by left|by right].
Qed.
Lemma merged_ok r has p c l : merges p c l -> unending p -> orderly r has c -> forall d seen rest, l = seen ++ rest ->
  texts_ok r d -> backed r has d -> texts_ok r (do_writes seen d).
Proof.
  intros Hm. revert has. induction Hm as [|x p c l Hm IH|x p c l Hm IH]; intros has Hp Hc d seen rest Hl Ht Hb.
  - by destruct seen.
  - destruct seen as [|y seen]; [done|]. injection Hl as <- Hl. apply Forall_cons in Hp as [Hx Hp].
    destruct (parent_step r has d x Ht Hb) as [Ht' Hb']; [by constructor|]. by apply (IH has Hp Hc _ seen rest).
  - destruct seen as [|y seen]; [done|]. injection Hl as <- Hl.
    destruct (child_step r has d x c Ht Hb Hc) as (has' & Hc' & Ht' & Hb'). by apply (IH has' Hp Hc' _ seen rest).
Qed.
Lemma mark_done_orderly r now : orderly r false (mark_done r now).
Proof. unfold mark_done. cbn [app orderly]. split; [done|]. by destruct (String.eqb _ ""). Qed.
Lemma mark_running_unending pid now : unending (mark_running pid now).
Proof. unfold mark_running. destruct (pid =? 0); repeat constructor; set_solver. Qed.
(** The directory of a job that is made, before anything runs. *)
Definition created (task host workdir now : string) : job_dir := do_writes (alone Parent (create_placeholder task host workdir now)) empty_dir.
Lemma created_ok r task host workdir now : texts_ok r (created task host workdir now).
Proof. repeat constructor. Qed.
(** C36: However the steps of the process that starts a job and those of its child
    interleave, and wherever a reader comes between them: a job that is shown as done
    or failed has its result, the one that the child had, and it is shown as done
    exactly when the exit code is 0. *)
Theorem final_has_result alive id task host workdir t0 pid t1 r t2 writes seen rest :
  merges (mark_running pid t1) (mark_done r t2) writes -> writes = seen ++ rest ->
  let info := _read_info alive id (do_writes seen (created task host workdir t0)) in
  is_final (ji_status info) = true ->
  ji_returncode info = Some (rs_code r) /\ ji_stdout info = rs_stdout r /\ ji_stderr info = rs_stderr r /\
  ji_session info = rs_session r /\ (ji_status info = "done" <-> rs_code r = 0).
Proof.
  intros Hm Hw info Hf. set (d := do_writes seen _) in info.
  assert (Ht : texts_ok r d).
  { apply (merged_ok r false _ _ _ Hm (mark_running_unending pid t1) (mark_done_orderly r t2) _ seen rest Hw); [apply created_ok|done]. }
  clearbody d. subst info. unfold _read_info in Hf |- *. cbn [ji_status ji_returncode ji_stdout ji_stderr ji_session] in *.
  destruct (j_status d) as [s|] eqn:Hs; [|destruct (_ && _); done].
  destruct (is_final (strip s)) eqn:Hfin; [|destruct (_ && _); [done|congruence]].
  apply bind_Some in Hs as (i & _ & Hs). destruct (Forall_lookup_1 _ _ _ _ Ht Hs) as [He|[-> Hl]].
  { apply early_open in He. congruence. }
  apply late_final in Hl as ->; [|done]. cbn [andb]. split_and!; try done.
  unfold final_status. destruct (Z.eqb_spec (rs_code r) 0) as [He|He]; vm_compute; naive_solver.
Qed.
(** The steps of the child and then those of the parent, from where they start. *)
Lemma merges_after p c : merges p c (alone Child c ++ alone Parent p).
Proof.
  induction c as [|w c IH]; [|by apply merges_right]. simpl. induction p as [|w p IH]; [constructor|by apply merges_left].
Qed.
(** The process that starts a job marks it as running after the child exists: when
    the child is faster, its final status is overwritten, the job is shown as stale
    for ever although it has its result, and a wait goes on to its deadline. *)
Theorem late_mark_running alive id task host workdir t0 pid t1 r t2 n : pid <> 0 -> alive pid = false ->
  let l := alone Child (mark_done r t2) ++ alone Parent (mark_running pid t1) in
  let d := do_writes l (created task host workdir t0) in
  merges (mark_running pid t1) (mark_done r t2) l /\
  wait alive id (replicate n {[id := d]}) {[id := d]} = Ok (_read_info alive id d) /\
  ji_status (_read_info alive id d) = "stale" /\ ji_returncode (_read_info alive id d) = Some (rs_code r).
Proof.
  intros Hp Ha l d. split; [apply merges_after|].
  assert (Hd : j_status d = Some "running" /\ j_pid d = Some pid /\ j_result d = Some r).
  { subst d l. unfold mark_done, mark_running. apply Z.eqb_neq in Hp. rewrite Hp. by destruct (String.eqb (rs_stderr r) ""). }
  destruct Hd as (Hs & Hpid & Hr). clearbody d.
  assert (Hi : ji_status (_read_info alive id d) = "stale").
  { unfold _read_info. rewrite Hs, Hpid. cbn [ji_status]. change (is_final (strip "running")) with false. cbv iota. by rewrite Ha. }
  split; [|split; [done|]].
  - assert (Hst : status alive id {[id := d]} = Ok (_read_info alive id d)) by (unfold status; by rewrite lookup_singleton_eq).
    induction n as [|n IH]; [done|]. cbn [replicate wait]. rewrite Hst. cbn [res_bind]. rewrite Hi. exact IH.
  - unfold _read_info. by rewrite Hr.
Qed.
(** A wait gives the first look at which the job is done or failed, and if there is
    none before the deadline what the job is then; it fails only for a job that is
    not there. *)
Theorem wait_spec alive id polls after :
  match wait alive id polls after with
  | Ok info =>
    (exists before jobs rest, polls = before ++ jobs :: rest /\ status alive id jobs = Ok info /\ is_final (ji_status info) = true /\
       Forall (fun jobs => exists i, status alive id jobs = Ok i /\ is_final (ji_status i) = false) before) \/
    (status alive id after = Ok info /\
     Forall (fun jobs => exists i, status alive id jobs = Ok i /\ is_final (ji_status i) = false) polls)
  | Raise e => e = not_found id /\ exists jobs, jobs ∈ polls ++ [after] /\ jobs !! id = None
  end.
Proof.
  assert (Hraise : forall jobs e, status alive id jobs = Raise e -> e = not_found id /\ jobs !! id = None).
  { intros jobs e. unfold status. destruct (jobs !! id); [done|]. by intros [= <-]. }
  induction polls as [|jobs polls IH]; cbn [wait app].
  - destruct (status alive id after) as [i|e] eqn:Hs; [by right|]. destruct (Hraise _ _ Hs). split; [done|]. exists after. split; [by left|done].
  - destruct (status alive id jobs) as [i|e] eqn:Hs; cbn [res_bind].
    + destruct (is_final (ji_status i)) eqn:Hf; [left; by exists [], jobs, polls|].
      assert (Hi : exists i, status alive id jobs = Ok i /\ is_final (ji_status i) = false) by by exists i.
      destruct (wait alive id polls after) as [info|e].
      * destruct IH as [(b & j & r & -> & Hj)|[Ha Hall]]; [left; exists (jobs :: b), j, r|right]; naive_solver.
      * destruct IH as [-> (j & Hj & Hn)]. split; [done|]. exists j. split; [by right|done].
    + destruct (Hraise _ _ Hs). split; [done|]. exists jobs. split; [by left|done].
Qed.
(** A job that a thread runs ends with its result, as done exactly when the function
    gave a result with exit code 0; an exception is a result with code 1 that names it. *)
Theorem run_job_ends alive id task host workdir t0 outcome t1 t2 :
  let d := do_writes (alone Parent (_run_job outcome t1 t2)) (created task host workdir t0) in
  let info := _read_info alive id d in
  is_final (ji_status info) = true /\ (ji_status info = "done" <-> exists r, outcome = Ok r /\ rs_code r = 0) /\
  match outcome with
  | Ok r => ji_returncode info = Some (rs_code r) /\ ji_stdout info = rs_stdout r
  | Raise e => ji_returncode info = Some 1 /\ ji_stderr info = "job exception: " +:+ exn_text e
  end.
Proof.
  intros d info. set (r := match outcome with Ok r => r | Raise e => job_exception (exn_text e) end).
  assert (Hd : j_status d = Some (final_status r) /\ j_result d = Some r).
  { subst d. unfold _run_job, mark_done. fold r. destruct (final_or r) as [-> | ->]; by destruct (String.eqb (rs_stderr r) ""). }
  destruct Hd as [Hs Hr]. subst info. unfold _read_info. rewrite Hs, Hr. unfold final_status. cbn [ji_status ji_returncode ji_stdout ji_stderr].
  destruct (Z.eqb_spec (rs_code r) 0) as [Hc|Hc]; cbn [strip]; (split; [by vm_compute|]).
  - split; [|destruct outcome; done]. split; [|by vm_compute]. intros _. destruct outcome as [x|e]; [by exists x|done].
  - split; [|destruct outcome; done]. split; [by vm_compute|]. intros (x & -> & Hx). done.
Qed.

(** ** At work *)
Definition went_well : RunResult :=
  {| rs_code := 0; rs_stdout := "42"; rs_stderr := ""; rs_session := Some "ses"; rs_backend := "omp"; rs_host := ""; rs_workdir := "" |}.
Definition nobody (p : Z) : bool := false.
Definition there : job_dir := created "task" "gpu" "/w" "t0".
(** The parent marks the job between two steps of the child. *)
Definition in_time : list (proc * job_write) :=
  alone Parent [W_slot Open; W_slot (Put "running"); W_slot Replace] ++ alone Child [W_result went_well; W_slot Open; W_slot (Put "done")]
  ++ alone Parent [W_started "t1"] ++ alone Child [W_slot Replace].
Lemma final_has_result_witness :
  ji_status (_read_info nobody "j" (do_writes in_time there)) = "done" /\
  ji_returncode (_read_info nobody "j" (do_writes in_time there)) = Some 0.
Proof.
  split; [vm_compute; reflexivity|].
  apply (final_has_result nobody "j" "task" "gpu" "/w" "t0" 77 "t1" went_well "t2"
    (in_time ++ [(Child, W_finished "t2"); (Parent, W_pid 77)]) in_time [(Child, W_finished "t2"); (Parent, W_pid 77)]);
    [|reflexivity|vm_compute; reflexivity].
  repeat constructor.
Defined.
(** Both processes have opened the temporary file when the parent moves it: the child
    writes over the status that it has become, which is then no status at all, and
    ends when it finds no file to move; the job is never shown as finished. *)
Definition torn : list (proc * job_write) :=
  alone Parent [W_slot Open] ++ alone Child [W_result went_well; W_slot Open] ++ alone Parent [W_slot (Put "running"); W_slot Replace]
  ++ alone Child [W_slot (Put "done"); W_slot Replace; W_finished "t2"] ++ alone Parent [W_started "t1"; W_pid 77].
Theorem status_torn : merges (mark_running 77 "t1") (mark_done went_well "t2") torn /\
  let d := do_writes torn there in
  ji_status (_read_info nobody "j" d) = "doneing" /\ ended d Child = true /\ j_finished d = None /\ j_result d = Some went_well.
Proof. split; [repeat constructor|by vm_compute]. Qed.
Lemma late_mark_running_witness :
  let l := alone Child (mark_done went_well "t2") ++ alone Parent (mark_running 77 "t1") in
  ji_status (_read_info nobody "j" (do_writes l there)) = "stale".
Proof. cbv zeta. apply (late_mark_running nobody "j" "task" "gpu" "/w" "t0" 77 "t1" went_well "t2" 3); [discriminate|reflexivity]. Defined.
