(* ===== verification/Relay.v ===== *)
(** * A relay with a terminal
    (src/src/codeagent/transport/relay.py: [_run_with_pty])

    Behind a bastion the helper is reached through a terminal: its frames come in
    between the banners and prompts of a login. This models the loop that reads the
    terminal, the frames that it takes out and what it makes of them. A round of
    the loop is what [select] and [read] give, as a text; that a character may be
    cut at the end of a read is left out, and so are the keys that are passed on. *)
From S2P Require Import Prelude MailboxProtocol Wire RemoteExec Exchange.
From Stdlib Require Import Floats.SpecFloat.

(** ** The frames (the body of the loop over complete lines) *)
Record relay := {
  re_out : list string; re_err : list string; re_session : option string; re_code : option pyval; re_mismatch : bool;
  re_any : bool; re_buffer : string }.
Definition relay_start : relay :=
  {| re_out := []; re_err := []; re_session := None; re_code := None; re_mismatch := false; re_any := false; re_buffer := "" |}.
Definition note (s : string) (x : relay) : relay :=
  {| re_out := re_out x; re_err := re_err x ++ [s]; re_session := re_session x; re_code := re_code x; re_mismatch := re_mismatch x;
     re_any := re_any x; re_buffer := re_buffer x |}.
Definition emit (s : string) (x : relay) : relay :=
  {| re_out := re_out x ++ [s]; re_err := re_err x; re_session := re_session x; re_code := re_code x; re_mismatch := re_mismatch x;
     re_any := re_any x; re_buffer := re_buffer x |}.
Definition coded (v : pyval) (x : relay) : relay :=
  {| re_out := re_out x; re_err := re_err x; re_session := re_session x; re_code := Some v; re_mismatch := re_mismatch x;
     re_any := re_any x; re_buffer := re_buffer x |}.
Definition with_session (s : string) (x : relay) : relay :=
  {| re_out := re_out x; re_err := re_err x; re_session := Some s; re_code := re_code x; re_mismatch := re_mismatch x;
     re_any := re_any x; re_buffer := re_buffer x |}.
Definition mismatched (x : relay) : relay :=
  {| re_out := re_out x; re_err := re_err x; re_session := re_session x; re_code := re_code x; re_mismatch := true;
     re_any := re_any x; re_buffer := re_buffer x |}.
Definition buffered (any : bool) (s : string) (x : relay) : relay :=
  {| re_out := re_out x; re_err := re_err x; re_session := re_session x; re_code := re_code x; re_mismatch := re_mismatch x;
     re_any := any || re_any x; re_buffer := s |}.
Definition take_frame (line : string) (m : WireMessage) (x : relay) : relay :=
  let p := wm_payload m in
  if String.eqb (wm_type m) MSG_SESSION then with_session (dstr p "id") x
  else if String.eqb (wm_type m) MSG_RESULT then
    if re_mismatch x then note "ignoring result after wire version mismatch" x
    else coded (dgetd p "exit_code" (VInt 0)) (emit (dstr p "stdout") x)
  else if String.eqb (wm_type m) MSG_MAILBOX_RESULT then
    if re_mismatch x then note "ignoring mailbox_result after wire version mismatch" x
    else coded (dgetd p "exit_code" (VInt 0)) (note (dstr p "stderr") (emit (dstr p "stdout") x))
  else if String.eqb (wm_type m) MSG_ERROR then coded (dgetd p "exit_code" (VInt 1)) (note (dstr p "message") x)
  else if String.eqb (wm_type m) MSG_READY then
    if int_field m "wire_version" 0 =? WIRE_VERSION then x
    else mismatched (coded (VInt 1) (note "wire version mismatch" x))
  else if String.eqb (wm_type m) MSG_ACCEPTED || String.eqb (wm_type m) "progress" then x
  else note line x.
Definition take_text_line (line : string) (x : relay) : relay :=
  let line := strip line in
  if String.eqb line "" then x else
  match decode_line false line with
  | Ok m => take_frame line m x
  | Raise _ => note line x
  end.
(** A read: the complete lines are taken, what is behind the last one is kept. *)
Definition feed (text : string) (x : relay) : relay :=
  let parts := split_all newline (re_buffer x +:+ text) in
  foldl (fun x line => take_text_line line x) (buffered true (default "" (last parts)) x) (removelast parts).

(** ** The loop *)
Definition _MAX_PTY_ITERATIONS : nat := Z.to_nat 100000.
Inductive pty_round := Idle | Select_failed | Read_failed | Closed | Data (text : string).
Inductive pty_end := At_eof | Aborted | At_deadline.
(** The rounds before the deadline. *)
Fixpoint pump (cap : nat) (rounds : list pty_round) (x : relay) {struct rounds} : relay * pty_end :=
  match rounds with
  | [] => (x, At_deadline)
  | r :: rounds =>
    match cap with
    | O => (coded (VInt (-1)) (note "relay pty iteration cap reached" x), Aborted)
    | S cap =>
      if MAX_LINE_LENGTH <? str_len (re_buffer x)
      then (coded (VInt (-1)) (note "relay output buffer exceeded limit; aborting" x), Aborted) else
      match r with
      | Idle => pump cap rounds x
      | Select_failed | Read_failed => (x, Aborted)
      | Closed => (x, At_eof)
      | Data text => pump cap rounds (feed text x)
      end
    end
  end.
Record relay_result := { rr_code : pyval; rr_stdout : string; rr_stderr : string; rr_session : option string }.
(** [late]: whether the deadline is over behind the loop; [returncode]: of the process,
    when it has been waited for or killed. *)
Definition _run_with_pty (rounds : list pty_round) (late : bool) (returncode : option Z) : relay_result :=
  let '(x, e) := pump _MAX_PTY_ITERATIONS rounds relay_start in
  let timed_out := late || match e with At_deadline => true | _ => false end in
  let x := if timed_out then coded (VInt (-1)) (note "timeout" x) else x in
  let x := match re_code x with
           | Some _ => x
           | None => let code := default 1 returncode in
                     if re_any x && (code =? 0) then coded (VInt 1) (note NO_TERMINAL_FRAME_MSG x) else coded (VInt code) x
           end in
  {| rr_code := default VNone (re_code x); rr_stdout := join NL (re_out x); rr_stderr := join NL (re_err x); rr_session := re_session x |}.

(** ** Reads in pieces *)
Lemma split_all_cons c s : exists w ws, split_all c s = w :: ws.
Proof.
  induction s as [|d s (w & ws & IH)]; [by eexists _, _|]. cbn [split_all]. rewrite IH. destruct (Ascii.eqb c d); by eexists _, _.
Qed.
Lemma split_all_cat c s t : split_all c (s +:+ t) =
  removelast (split_all c s) ++ split_all c (default "" (last (split_all c s)) +:+ t).
Proof.
  induction s as [|d s IH]; [done|]. rewrite string_app_cons. cbn [split_all]. destruct (Ascii.eqb c d) eqn:Hd.
  - destruct (split_all_cons c s) as (w & ws & Hs). rewrite IH, Hs. done.
  - destruct (split_all_cons c s) as (w & ws & Hs). rewrite IH, Hs. destruct ws as [|v ws].
    + change (default "" (last [w])) with w. change (default "" (last [String d w])) with (String d w). cbn [removelast app].
      rewrite string_app_cons. cbn [split_all]. rewrite Hd.
      destruct (split_all_cons c (w +:+ t)) as (u & us & ->). done.
    + done.
Qed.
Lemma last_app_ne {A} (l k : list A) : k <> [] -> last (l ++ k) = last k.
Proof. intros Hk. destruct k as [|x k _] using rev_ind; [done|]. by rewrite app_assoc, !last_snoc. Qed.
Lemma split_all_ne c s : split_all c s <> [].
Proof. destruct (split_all_cons c s) as (w & ws & ->). done. Qed.
Lemma take_buffered any s line x : take_text_line line (buffered any s x) = buffered any s (take_text_line line x).
Proof.
  unfold take_text_line. destruct (String.eqb _ ""); [done|]. destruct (decode_line _ _) as [m|]; [|done].
  unfold take_frame. repeat (destruct (String.eqb _ _); [try (cbn [re_mismatch buffered]; destruct (re_mismatch x)); done|]).
  destruct (String.eqb _ MSG_READY); [by destruct (_ =? _)|]. by destruct (_ || _).
Qed.
Lemma fold_buffered any s l x : foldl (fun x line => take_text_line line x) (buffered any s x) l =
  buffered any s (foldl (fun x line => take_text_line line x) x l).
Proof. revert x. induction l as [|line l IH]; intros x; [done|]. cbn [foldl]. by rewrite take_buffered, IH. Qed.
Lemma buffered_twice any any' s s' x : buffered any s (buffered any' s' x) = buffered (any || any') s x.
Proof. unfold buffered. simpl. by rewrite orb_assoc. Qed.
Lemma buffer_of any s x : re_buffer (buffered any s x) = s.
Proof. done. Qed.
(** Reading two pieces is reading them as one. *)
Lemma feed_app s t x : feed t (feed s x) = feed (s +:+ t) x.
Proof.
  unfold feed at 2 3. rewrite <- string_app_assoc, (split_all_cat newline (re_buffer x +:+ s) t).
  rewrite !fold_buffered. unfold feed. rewrite buffer_of, fold_buffered.
  set (k := split_all newline (default "" _ +:+ t)). assert (Hk : k <> []) by apply split_all_ne.
  rewrite last_app_ne, removelast_app, foldl_app, fold_buffered, buffered_twice by done. done.
Qed.

(** ** What the relay returns *)
Definition feeds (texts : list string) (x : relay) : relay := foldl (fun x t => feed t x) x texts.
Lemma feeds_one t texts x : feeds (t :: texts) x = feed (join "" (t :: texts)) x.
Proof.
  revert t x. induction texts as [|u texts IH]; intros t x; [done|].
  change (feeds (t :: u :: texts) x) with (feeds (u :: texts) (feed t x)). rewrite IH, feed_app. done.
Qed.
Lemma str_len_nonneg s : 0 <= str_len s.
Proof. induction s as [|c s IH]; [done|]. cbn [str_len]. destruct (is_cont c); lia. Qed.
Lemma split_last_len c s : str_len (default "" (last (split_all c s))) <= str_len s.
Proof.
  induction s as [|d s IH]; [done|]. cbn [split_all]. destruct (split_all_cons c s) as (w & ws & Hs). rewrite Hs in *.
  cbn [str_len]. destruct (Ascii.eqb c d).
  - change (last ("" :: w :: ws)) with (last (w :: ws)). destruct (is_cont d); lia.
  - destruct ws as [|v ws].
    + change (default "" (last [String d w])) with (String d w). change (default "" (last [w])) with w in IH. cbn [str_len]. lia.
    + change (last (String d w :: v :: ws)) with (last (v :: ws)). change (last (w :: v :: ws)) with (last (v :: ws)) in IH. destruct (is_cont d); lia.
Qed.
Lemma take_text_buffer line x : re_buffer (take_text_line line x) = re_buffer x.
Proof.
  unfold take_text_line. destruct (String.eqb _ ""); [done|]. destruct (decode_line _ _) as [m|]; [|done]. unfold take_frame.
  repeat (destruct (String.eqb _ _); [try destruct (re_mismatch x); done|]). destruct (String.eqb _ MSG_READY); [by destruct (_ =? _)|].
  by destruct (_ || _).
Qed.
Lemma feed_buffer t x : re_buffer (feed t x) = default "" (last (split_all newline (re_buffer x +:+ t))).
Proof. unfold feed. by rewrite fold_buffered. Qed.
Lemma join_cons (t : string) l : join "" (t :: l) = t +:+ join "" l.
Proof. destruct l; cbn [join]; [by rewrite string_append_nil|]. by rewrite string_app_nil_l. Qed.
(** The other end is closed; the read of a terminal fails then. *)
Definition hung_up (r : pty_round) : Prop := r = Closed \/ r = Read_failed.
Lemma pump_reads cap texts r x : hung_up r -> (length texts < cap)%nat -> str_len (re_buffer x +:+ join "" texts) <= MAX_LINE_LENGTH ->
  exists e, pump cap (map Data texts ++ [r]) x = (feeds texts x, e) /\ e <> At_deadline.
Proof.
  intros Hr. revert cap x. induction texts as [|t texts IH]; intros cap x Hc Hl; (destruct cap as [|cap]; [simpl in Hc; lia|]); cbn [map app pump].
  - rewrite str_len_app in Hl. rewrite (proj2 (Z.ltb_ge _ _)) by (cbn [join str_len] in Hl; lia).
    destruct Hr as [-> | ->]; by eexists.
  - rewrite join_cons, !str_len_app in Hl. pose proof (str_len_nonneg (join "" texts)). pose proof (str_len_nonneg t).
    rewrite (proj2 (Z.ltb_ge _ _)) by lia. apply IH; [simpl in Hc; lia|]. rewrite feed_buffer, str_len_app.
    pose proof (split_last_len newline (re_buffer x +:+ t)) as Hs. rewrite str_len_app in Hs. lia.
Qed.
(** Lines that are complete. *)
Definition lines_text (l : list string) : string := join "" (map (fun s => s +:+ NL) l).
Lemma split_lines_text l : Forall (fun s => has_char newline s = false) l -> split_all newline (lines_text l) = l ++ [""].
Proof.
  unfold lines_text. induction 1 as [|s l Hs Hl IH]; [done|]. cbn [map]. rewrite join_cons, string_app_assoc, split_line by done.
  by rewrite IH.
Qed.
Lemma feed_lines l x : Forall (fun s => has_char newline s = false) l -> re_buffer x = "" ->
  feed (lines_text l) x = buffered true "" (foldl (fun x line => take_text_line line x) x l).
Proof.
  intros Hl Hb. unfold feed. rewrite Hb, string_app_nil_l, split_lines_text by done. rewrite last_snoc, removelast_last, fold_buffered. done.
Qed.
Lemma lines_text_ne l : l <> [] -> lines_text l <> "".
Proof. destruct l as [|s l]; [done|]. intros _. unfold lines_text. cbn [map]. rewrite join_cons. by destruct s. Qed.
Definition ui_line (s : string) : Prop := has_char newline s = false /\ strip s <> "" /\ is_ok (decode_line false (strip s)) = false.
Lemma take_ui l x : Forall ui_line l -> foldl (fun x line => take_text_line line x) x l =
  {| re_out := re_out x; re_err := re_err x ++ map strip l; re_session := re_session x; re_code := re_code x;
     re_mismatch := re_mismatch x; re_any := re_any x; re_buffer := re_buffer x |}.
Proof.
  intros Hl. revert x. induction Hl as [|s l (Hn & Hs & Hd) Hl IH]; intros x; [by destruct x; rewrite app_nil_r|].
  cbn [foldl map]. rewrite IH. unfold take_text_line. apply String.eqb_neq in Hs. rewrite Hs. destruct (decode_line _ _); [done|].
  cbn. by rewrite <- app_assoc.
Qed.
Section comes_back.
Context (float_repr : spec_float -> string).
Abbreviation text r := (spaced float_repr " " (VDict (frame_of r))).
Lemma take_response r x : payload_ok r -> fits float_repr " " (frame_of r) -> take_text_line (text r) x =
  take_frame (text r) {| wm_type := kind_of r; wm_payload := ddel (frame_of r) "type" |} x.
Proof.
  intros Hp Hf. pose proof (response_frame r Hp) as Hr. assert (Hpl : plain (VDict (frame_of r)) = true) by apply Hr.
  unfold take_text_line. assert (Hs : strip (text r) = text r).
  { rewrite <- (string_append_nil (text r)) at 1. by apply (strip_text float_repr " "). }
  rewrite Hs. destruct (text_begins float_repr " " (VDict (frame_of r)) Hpl) as (c & s & Hc & _).
  assert (Hne : String.eqb (text r) "" = false) by (by rewrite Hc). rewrite Hne.
  pose proof (decode_text float_repr " " blank_sep false (kind_of r) (frame_of r) "" Hr Hf eq_refl) as Hd.
  rewrite string_append_nil in Hd. rewrite Hd. done.
Qed.
(** In whatever pieces the terminal is read, and whatever banners and prompts come
    first: the output, the exit code and the session of a run are those that the
    helper reports, on a terminal of at most a megabyte of text. What the run wrote
    to its error stream is lost; the error stream of the result is what was no frame. *)
Theorem relay_comes_back noise package version sid o e c texts r rc : Forall ui_line noise -> hung_up r ->
  let frames := [Ready WIRE_VERSION package; Accepted version; Session sid; Result o e c] in
  Forall (fun r => fits float_repr " " (frame_of r)) frames ->
  join "" texts = lines_text (noise ++ map (fun r => text r) frames) ->
  (length texts < _MAX_PTY_ITERATIONS)%nat -> str_len (join "" texts) <= MAX_LINE_LENGTH ->
  _run_with_pty (map Data texts ++ [r]) false rc =
  {| rr_code := VInt c; rr_stdout := o; rr_stderr := join NL (map strip noise); rr_session := Some sid |}.
Proof.
  intros Hn Hr frames Hfit Hj Hlen Hmax. unfold _run_with_pty.
  destruct (pump_reads _MAX_PTY_ITERATIONS texts r relay_start Hr Hlen Hmax) as (en & -> & Hen).
  assert (Hd : false || match en with At_deadline => true | _ => false end = false) by by destruct en.
  rewrite Hd. clear Hd Hen.
  assert (Hok : Forall payload_ok frames) by (subst frames; repeat constructor).
  assert (Hlines : Forall (fun s => has_char newline s = false) (noise ++ map (fun r => text r) frames)).
  { apply Forall_app. split; [eapply Forall_impl; [exact Hn|by intros s [? _]]|]. apply Forall_map. eapply Forall_impl; [exact Hok|].
    intros q Hq. apply has_char_false. apply (dumps_unbroken float_repr " "); [done|]. by destruct (response_frame q Hq). }
  destruct texts as [|t texts].
  { exfalso. eapply lines_text_ne; [|symmetry; exact Hj]. by destruct noise. }
  rewrite feeds_one, Hj, (feed_lines _ relay_start Hlines eq_refl), foldl_app, (take_ui noise _ Hn).
  apply Forall_cons in Hfit as [H1 Hfit]. apply Forall_cons in Hfit as [H2 Hfit]. apply Forall_cons in Hfit as [H3 Hfit].
  apply Forall_cons in Hfit as [H4 _]. subst frames. cbn [map foldl].
  rewrite !take_response by done. reflexivity.
Qed.
End comes_back.

(** ** Success is told *)
Definition told_zero (x : relay) : Prop := re_code x = Some (VInt 0) -> exists line m,
  decode_line false (strip line) = Ok m /\ wm_type m ∈ [MSG_RESULT; MSG_MAILBOX_RESULT; MSG_ERROR] /\
  dgetd (wm_payload m) "exit_code" (VInt 0) = VInt 0.
Lemma take_told line x : told_zero x -> told_zero (take_text_line line x).
Proof.
  intros Hx. unfold take_text_line. destruct (String.eqb _ ""); [done|]. destruct (decode_line _ _) as [m|] eqn:Hm; [|done].
  unfold take_frame. destruct (String.eqb _ MSG_SESSION); [done|].
  destruct (String.eqb_spec (wm_type m) MSG_RESULT) as [Ht|_].
  { destruct (re_mismatch x); [done|]. intros [= Hc]. exists line, m. rewrite Ht. split; [done|]. split; [in_list|done]. }
  destruct (String.eqb_spec (wm_type m) MSG_MAILBOX_RESULT) as [Ht|_].
  { destruct (re_mismatch x); [done|]. intros [= Hc]. exists line, m. rewrite Ht. split; [done|]. split; [in_list|done]. }
  destruct (String.eqb_spec (wm_type m) MSG_ERROR) as [Ht|_].
  { intros [= Hc]. exists line, m. rewrite Ht. split; [done|]. split; [in_list|]. unfold dgetd in *. by destruct (dget _ _). }
  destruct (String.eqb _ MSG_READY); [by destruct (_ =? _)|]. by destruct (_ || _).
Qed.
Lemma feed_told t x : told_zero x -> told_zero (feed t x).
Proof.
  intros Hx. unfold feed. rewrite fold_buffered. unfold told_zero. cbn [re_code buffered].
  generalize (removelast (split_all newline (re_buffer x +:+ t))). intros l. revert x Hx. induction l as [|s l IH]; intros x Hx; [done|].
  cbn [foldl]. by apply IH, take_told.
Qed.
Lemma pump_told cap rounds x : told_zero x -> told_zero (pump cap rounds x).1.
Proof.
  revert cap x. induction rounds as [|r rounds IH]; intros cap x Hx; cbn [pump]; [exact Hx|].
  destruct cap as [|cap]; [by intros [=]|]. destruct (MAX_LINE_LENGTH <? _); [by intros [=]|].
  destruct r as [| | | |t]; try exact Hx; [by apply IH|by apply IH, feed_told].
Qed.
(** A run that the relay calls successful is one that the helper called so: some line
    was a result, or another terminal frame, with exit code 0. The one exception is
    a process that wrote nothing at all and ended with 0. *)
Theorem relay_success_is_told rounds late rc : rr_code (_run_with_pty rounds late rc) = VInt 0 ->
  (exists line m, decode_line false (strip line) = Ok m /\ wm_type m ∈ [MSG_RESULT; MSG_MAILBOX_RESULT; MSG_ERROR] /\
     dgetd (wm_payload m) "exit_code" (VInt 0) = VInt 0) \/
  rc = Some 0 /\ re_any (pump _MAX_PTY_ITERATIONS rounds relay_start).1 = false.
Proof.
  unfold _run_with_pty. assert (H0 : told_zero relay_start) by done.
  pose proof (pump_told _MAX_PTY_ITERATIONS rounds relay_start H0) as Ht.
  destruct (pump _MAX_PTY_ITERATIONS rounds relay_start) as [x e]. cbn [fst] in *. intros Hc.
  destruct (late || _); [done|]. destruct (re_code x) as [v|] eqn:Hv.
  - left. apply Ht. simpl in Hc. rewrite Hv in Hc. simpl in Hc. by rewrite Hv, Hc.
  - right. destruct (re_any x); cbn [andb] in Hc; [destruct (Z.eqb_spec (default 1 rc) 0) as [Hz|Hz]; simpl in Hc; congruence|].
    simpl in Hc. injection Hc as Hc. split; [|done]. destruct rc as [z|]; simpl in Hc; congruence.
Qed.

(** ** At work *)
Definition demo_lines : list string := ["Welcome to the bastion"; "Token:"] ++
  map (fun r => spaced (fun _ => "0") " " (VDict (frame_of r))) [Ready WIRE_VERSION "1"; Accepted 2; Session "ses"; Result "42" "a warning" 0].
Lemma relay_comes_back_witness :
  _run_with_pty [Data (lines_text demo_lines); Closed] false (Some 0) =
  {| rr_code := VInt 0; rr_stdout := "42"; rr_stderr := "Welcome to the bastion" +:+ NL +:+ "Token:"; rr_session := Some "ses" |}.
Proof.
  apply (relay_comes_back (fun _ => "0") ["Welcome to the bastion"; "Token:"] "1" 2 "ses" "42" "a warning" 0 [lines_text demo_lines] Closed (Some 0)).
  - repeat constructor; vm_compute; discriminate.
  - left. reflexivity.
  - repeat constructor; vm_compute; discriminate.
  - reflexivity.
  - unfold _MAX_PTY_ITERATIONS. cbn [length]. lia.
  - vm_compute. discriminate.
Defined.
Lemma relay_success_is_told_witness : exists line m, decode_line false (strip line) = Ok m /\
  wm_type m ∈ [MSG_RESULT; MSG_MAILBOX_RESULT; MSG_ERROR] /\ dgetd (wm_payload m) "exit_code" (VInt 0) = VInt 0.
Proof.
  assert (H : rr_code (_run_with_pty [Data (lines_text demo_lines); Closed] false (Some 1)) = VInt 0) by (vm_compute; reflexivity).
  destruct (relay_success_is_told _ _ _ H) as [H1|[H1 _]]; [exact H1|discriminate H1].
Defined.
Example silent_helper : rr_code (_run_with_pty [Data ("login ok" +:+ NL); Closed] false (Some 0)) = VInt 1.
Proof. vm_compute. reflexivity. Qed.
