(* ===== verification/Patterns.v ===== *)
(** * Patterns of file names and hosts

    [fnmatch.fnmatchcase] of the standard library, which [glob] uses for names and
    the search of the ssh configuration for hosts, against the language of a
    pattern; and small functions on texts that the files behind this one share. *)
From S2P Require Import Prelude.

(** ** Texts and lists *)
Fixpoint lstrip_chars (f : ascii -> bool) (s : string) : string :=
  match s with String c s' => if f c then lstrip_chars f s' else s | "" => "" end.
(** [s.strip(chars)] for ASCII characters, and [strip] of bytes. *)
Definition strip_chars (f : ascii -> bool) (s : string) : string := String.rev (lstrip_chars f (String.rev (lstrip_chars f s))).
Lemma existsb_elem {A} (f : A -> bool) l : existsb f l = true <-> exists x, x ∈ l /\ f x = true.
Proof. rewrite existsb_exists. by setoid_rewrite list_elem_of_In. Qed.

(** ** Patterns of names ([fnmatch.fnmatchcase]) *)
(** The characters of a text, each as its UTF-8 bytes; their order is that of the code points. *)
Fixpoint characters (s : string) : list string :=
  match s with
  | "" => []
  | String c s' =>
    match characters s', s' with
    | x :: xs, String d _ => if is_cont d then String c x :: xs else String c "" :: x :: xs
    | _, _ => [String c ""]
    end
  end.
Inductive glob_item := Any_text | Any_char | This_char (c : string) | One_of (neg : bool) (ranges : list (string * string)).
Fixpoint split_at (c : string) (l : list string) : option (list string * list string) :=
  match l with
  | [] => None
  | x :: l => if String.eqb x c then Some ([], l) else match split_at c l with Some (a, b) => Some (x :: a, b) | None => None end
  end.
(** What stands behind a bracket: the members and what follows the closing bracket. *)
Definition bracket (l : list string) : option (bool * list string * list string) :=
  let '(neg, l) := match l with "!" :: l => (true, l) | _ => (false, l) end in
  let '(first, l) := match l with "]" :: l => (["]"], l) | _ => ([], l) end in
  match split_at "]" l with Some (inside, rest) => Some (neg, first ++ inside, rest) | None => None end.
Fixpoint ranges (l : list string) : list (string * string) :=
  match l with
  | [] => []
  | x :: "-" :: y :: l => (x, y) :: ranges l
  | x :: l => (x, x) :: ranges l
  end.
Fixpoint glob_items (n : nat) (l : list string) : list glob_item :=
  match n, l with
  | S n, x :: l =>
    if String.eqb x "*" then Any_text :: glob_items n l else
    if String.eqb x "?" then Any_char :: glob_items n l else
    if String.eqb x "[" then
      match bracket l with
      | Some (neg, inside, rest) => One_of neg (ranges inside) :: glob_items n rest
      | None => This_char x :: glob_items n l
      end
    else This_char x :: glob_items n l
  | _, _ => []
  end.
Definition item_matches (i : glob_item) (x : string) : bool :=
  match i with
  | Any_text | Any_char => true
  | This_char c => String.eqb c x
  | One_of neg rs => xorb neg (existsb (fun r => String.leb (fst r) x && String.leb x (snd r)) rs)
  end.
Fixpoint glob_match (p : list glob_item) : list string -> bool :=
  match p with
  | [] => fun t => match t with [] => true | _ => false end
  | Any_text :: p => fix go t := glob_match p t || match t with [] => false | _ :: t => go t end
  | i :: p => fun t => match t with x :: t => item_matches i x && glob_match p t | [] => false end
  end.
Definition fnmatchcase (name pat : string) : bool :=
  let l := characters pat in glob_match (glob_items (length l) l) (characters name).

(** ** Patterns: the language of a pattern *)
Inductive glob_lang : list glob_item -> list string -> Prop :=
| lang_nil : glob_lang [] []
| lang_text p t1 t2 : glob_lang p t2 -> glob_lang (Any_text :: p) (t1 ++ t2)
| lang_one i p x t : i <> Any_text -> item_matches i x = true -> glob_lang p t -> glob_lang (i :: p) (x :: t).
Lemma glob_match_spec p t : glob_match p t = true <-> glob_lang p t.
Proof.
  revert t. induction p as [|i p IH]; intros t.
  { destruct t; split; try done; [constructor|by inversion 1]. }
  assert (Hone : i <> Any_text -> (match t with x :: t => item_matches i x && glob_match p t | [] => false end = true <-> glob_lang (i :: p) t)).
  { intros Hi. destruct t as [|x t]; [split; [done|by inversion 1]|]. rewrite andb_true_iff, IH. split; [intros []; by constructor|].
    by inversion 1. }
  destruct i; try by apply Hone. clear Hone. induction t as [|x t IHt].
  - simpl. rewrite orb_false_r, IH. split; [intros Hp; by apply (lang_text p [])|]. intros Hl. inversion Hl as [|? t1 t2 Hp Hq He|]; subst.
    apply app_nil in He as [-> ->]. exact Hp.
  - change (glob_match p (x :: t) || glob_match (Any_text :: p) t = true <-> glob_lang (Any_text :: p) (x :: t)).
    rewrite orb_true_iff, IHt, IH. split.
    + intros [Hp|Hp]; [by apply (lang_text p [])|]. inversion Hp as [|? t1 t2 Hq|]; subst; [|done]. by apply (lang_text p (x :: t1)).
    + intros Hl. inversion Hl as [|? t1 t2 Hq Hr He|]; subst; [|done]. destruct t1 as [|y t1]; simplify_eq/=; [by left|right; by constructor].
Qed.

