(* ===== verification/SshMaster.v ===== *)
(** * Masters of ssh connections
    (src/src/codeagent/transport/control_master.py)

    What an error of ssh means, whether an alias is defined by the user's ssh
    configuration, and the sockets of the masters with the files that name their
    aliases: opening with retries, checking, stopping and listing. The programs
    [ssh] and the files of the configuration are an interface. *)
From S2P Require Import Prelude Wire Patterns Exchange Routing.

(** ** What an error of ssh means *)
Inductive ssh_class := Auth | Config | Network_error | Unknown_error.
#[export] Instance ssh_class_eq_dec : EqDecision ssh_class.
Proof. solve_decision. Defined.
Definition _NONTRANSIENT_SSH_PATTERNS : list string := [
  "permission denied"; "authentication failed"; "too many authentication failures"; "host key verification failed";
  "bad configuration option"; "unknown option"; "could not open"; "unable to open"; "no such file or directory";
  "not a regular file"; "no matching host key"; "no matching cipher"; "no matching key exchange"; "invalid format";
  "configuration error"].
Definition _TRANSIENT_SSH_PATTERNS : list string := [
  "temporary failure in name resolution"; "could not resolve hostname"; "nodename nor servname provided";
  "name or service not known"; "connection refused"; "connection timed out"; "connection reset"; "connection closed";
  "network is unreachable"; "no route to host"; "host is unreachable"; "operation timed out";
  "resource temporarily unavailable"; "too many open files"; "broken pipe"; "connection attempt failed"].
Definition mentions (l : list string) (text : string) : bool := existsb (fun p => contains p text) l.
Definition classify_ssh_error (stderr : string) : ssh_class :=
  let text := lower (strip stderr) in
  if String.eqb text "" then Unknown_error else
  if mentions _NONTRANSIENT_SSH_PATTERNS text then
    if contains "permission denied" text || contains "authentication" text || contains "too many authentication" text
    then Auth else Config
  else if mentions _TRANSIENT_SSH_PATTERNS text then Network_error else Unknown_error.

(** ** Addresses ([ipaddress.ip_address]) *)
Definition octet (s : string) : bool :=
  all_chars is_digit s && negb (String.eqb s "") && Nat.leb (String.length s) 3
  && (String.eqb s "0" || negb (String.prefix "0" s)) && String.leb (String.substring (String.length s - 3) 3 ("00" +:+ s)) "255".
Definition is_ipv4 (s : string) : bool :=
  let l := split_all "."%char s in Nat.eqb (length l) 4 && forallb octet l.
Definition hextet (s : string) : bool := all_chars is_hex s && Nat.leb (String.length s) 4 && negb (String.eqb s "").
(** The groups of an address, with one that stands for an embedded IPv4 address as two. *)
Definition ipv6_groups (l : list string) : option (list string) :=
  match rev l with
  | final :: r => if has_char "."%char final then (if is_ipv4 final then Some (rev r ++ ["0"; "0"]) else None) else Some l
  | [] => Some l
  end.
(** The places of the empty groups that are neither the first nor the last. *)
Definition gaps (l : list string) : list nat :=
  List.filter (fun i => match l !! i with Some "" => true | _ => false end) (seq 1 (length l - 2)).
Definition is_ipv6 (s : string) : bool :=
  let zone_ok := match split1 "%"%char s with Some (_, zone) => negb (String.eqb zone "") && negb (has_char "%"%char zone) | None => true end in
  let address := before "%"%char s in
  let parts := split_all ":"%char address in
  zone_ok && Nat.leb 3 (length parts) &&
  match ipv6_groups parts with
  | None => false
  | Some l =>
    Nat.leb (length l) 9 &&
    match gaps l with
    | [] => Nat.eqb (length l) 8 && forallb hextet l
    | [i] =>
      let hi := take i l in
      let lo := drop (S i) l in
      let hi := match hi with [""] => [] | _ => hi end in
      let lo := match lo with [""] => [] | _ => lo end in
      forallb hextet hi && forallb hextet lo && Nat.ltb (length hi + length lo) 8
    | _ => false
    end
  end.
Definition strip_brackets (s : string) : string :=
  strip_chars (fun c => Ascii.eqb c "["%char || Ascii.eqb c "]"%char) s.
Definition _looks_like_ip (alias : string) : bool :=
  let a := strip_brackets alias in negb (has_char "/"%char a) && (is_ipv4 a || is_ipv6 a).

(** ** The lines of a configuration *)
Definition _host_pattern_matches (pattern alias : string) : bool := fnmatchcase (lower alias) (lower pattern).
Definition bang : ascii := "!"%char.
Fixpoint _host_line_matches (patterns : list string) (alias : string) : bool :=
  match patterns with
  | [] => false
  | pat :: patterns =>
    let p := strip pat in
    if String.eqb p "" then _host_line_matches patterns alias else
    if String.prefix "!" p then
      if _host_pattern_matches (lstrip (String.substring 1 (String.length p) p)) alias then false else _host_line_matches patterns alias
    else if _host_pattern_matches p alias then true else _host_line_matches patterns alias
  end.
Fixpoint _host_line_defines (patterns : list string) (alias : string) : bool :=
  match patterns with
  | [] => false
  | pat :: patterns =>
    let p := strip pat in
    if String.eqb p "" then _host_line_defines patterns alias else
    if String.prefix "!" p then
      if _host_pattern_matches (lstrip (String.substring 1 (String.length p) p)) alias then false else _host_line_defines patterns alias
    else if String.eqb p "*" then _host_line_defines patterns alias
    else if _host_pattern_matches p alias then true else _host_line_defines patterns alias
  end.

Fixpoint take_word (s : string) : string * string :=
  match drop_space s, s with
  | Some _, _ | None, "" => ("", s)
  | None, String c s' => let '(w, r) := take_word s' in (String c w, r)
  end.
(** [s.split()] *)
Fixpoint words_fuel (n : nat) (s : string) : list string :=
  match n with
  | O => []
  | S n =>
    let s := lstrip s in
    if String.eqb s "" then [] else let '(w, r) := take_word s in w :: words_fuel n r
  end.
Definition words (s : string) : list string := words_fuel (String.length s) s.
Fixpoint commas_to_spaces (s : string) : string :=
  match s with "" => "" | String c s' => String (if Ascii.eqb c ","%char then " "%char else c) (commas_to_spaces s') end.
(** The keyword and the value of a line, unless it is empty or a comment. *)
Definition config_line (raw : string) : option (string * string) :=
  let line := strip raw in
  if String.eqb line "" || String.prefix "#" line then None else
  let '(key, rest) := take_word line in Some (lower key, strip rest).
Definition host_patterns (value : string) : list string := map strip (words (commas_to_spaces value)).

(** ** The files of the configuration *)
Definition slash : ascii := "/"%char.
Definition parent (path : string) : string := match rsplit1 slash path with Some ("", _) => "/" | Some (d, _) => d | None => "." end.
Definition base_name (path : string) : string := match rsplit1 slash path with Some (_, n) => n | None => path end.
Definition join_path (d p : string) : string := d +:+ String slash p.
Section config.
(** The text of a file, if it can be read; what [expanduser] makes of a path; the
    paths that a pattern gives in a directory, in order. *)
Context (read_text : string -> option string) (expanduser : string -> string) (glob : string -> string -> list string).
Definition is_glob (pat : string) : bool := has_char "*"%char pat || has_char "?"%char pat || has_char "["%char pat.
Definition included (path pat : string) : list string :=
  let expanded := expanduser pat in
  if is_glob pat then
    if String.prefix "/" pat || String.prefix "~" pat then glob (parent expanded) (base_name expanded) else glob (parent path) pat
  else [if String.prefix "/" expanded then expanded else join_path (parent path) expanded].
(** Whether a line defines the alias, [inside] being the answer for a file that it includes. *)
Definition line_defines (inside : string -> bool) (path alias raw : string) : bool :=
  match config_line raw with
  | None => false
  | Some (key, value) =>
    if String.eqb value "" then false else
    if String.eqb key "include" then existsb (fun pat => existsb inside (included path pat)) (words value)
    else String.eqb key "host" && _host_line_defines (host_patterns value) alias
  end.
(** [n] files may be open in one another. *)
Fixpoint scan (n : nat) (path alias : string) : bool :=
  match n with
  | O => false
  | S n =>
    match read_text path with
    | None => false
    | Some text => existsb (line_defines (fun inc => scan n inc alias) path alias) (splitlines text)
    end
  end.
Definition _scan_config_host_matches (path alias : string) : bool := scan 9 path alias.
Definition _alias_configured (alias : string) : bool := _scan_config_host_matches (expanduser "~/.ssh/config") alias.
End config.

(** ** The sockets and the files beside them *)
(** What a [.meta] file holds: an object with an alias or without one, or no JSON. *)
Inductive meta := No_json | Meta (alias : option string).
#[export] Instance meta_eq_dec : EqDecision meta.
Proof. solve_decision. Defined.
(** The names of the sockets, and the [.meta] files in the order of the directory. *)
Record master_dir := { md_socks : gset string; md_metas : list (string * meta) }.
Definition drop_sock (stem : string) (d : master_dir) : master_dir := {| md_socks := md_socks d ∖ {[stem]}; md_metas := md_metas d |}.
Definition drop_meta (stem : string) (d : master_dir) : master_dir := {| md_socks := md_socks d; md_metas := ddel (md_metas d) stem |}.
Definition put_meta (stem alias : string) (d : master_dir) : master_dir :=
  {| md_socks := md_socks d; md_metas := dset (md_metas d) stem (Meta (Some alias)) |}.
Definition has_alias (alias : string) (m : meta) : bool := match m with Meta (Some a) => String.eqb a alias | _ => false end.
(** What a run of a program gives: its exit code and its two outputs. *)
Record ran := { rn_code : Z; rn_out : string; rn_err : string }.

(** The machine: the directory, where [ssh] is, what a run of it does ([None]: it is
    killed at its timeout), whether a name resolves. *)
Class SshHost (W : Type) := {
  ssh_dir : W -> master_dir;
  set_ssh_dir : master_dir -> W -> W;
  which_ssh : W -> option string;
  ssh_run : list string -> W -> option ran * W;
  resolves : string -> W -> bool;
  configured : string -> bool;
}.
Section masters.
Context `{SshHost W} (socket_dir known_hosts : string) (hash : string -> string).
Definition HOST_KEY_OPTS : list string := ["-o"; "StrictHostKeyChecking=accept-new"; "-o"; "UserKnownHostsFile=" +:+ known_hosts].
Definition _MASTER_OPTS : list string :=
  ["-o"; "ControlMaster=yes"; "-o"; "ControlPersist=no"; "-o"; "ClearAllForwardings=yes"; "-o"; "ForwardAgent=no";
   "-o"; "ForwardX11=no"; "-o"; "BatchMode=yes"; "-o"; "ConnectTimeout=10"] ++ HOST_KEY_OPTS.
Definition sock_path (stem : string) : string := join_path socket_dir (stem +:+ ".sock").
Definition upd_dir (f : master_dir -> master_dir) : st W unit := modify (fun w => set_ssh_dir (f (ssh_dir w)) w).
Definition timed_out : pyexn := AppError "TimeoutExpired" "ssh".
Definition no_ssh : pyexn := TransportError "ssh binary not found".
Definition run (argv : list string) : st W ran := fun w =>
  let '(r, w) := ssh_run argv w in (match r with Some r => Ok r | None => Raise timed_out end, w).
Definition detail_of (r : ran) : string :=
  first_of (strip (rn_err r)) (first_of (strip (rn_out r)) ("exit code " +:+ pretty (rn_code r))).

(** *** The address of an alias *)
Fixpoint hostname_of (alias : string) (lines : list string) : res string :=
  match lines with
  | [] => Ok alias
  | line :: lines =>
    if String.prefix "hostname " (lower line) then
      let rest := lstrip (take_word (lstrip line)).2 in
      if String.eqb rest "" then Raise (IndexError "list index out of range") else Ok (strip rest)
    else hostname_of alias lines
  end.
Definition resolve_alias (alias : string) : st W string :=
  ssh ← gets which_ssh;
  match ssh with
  | None => raise no_ssh
  | Some ssh =>
    r ← run [ssh; "-G"; alias];
    _ ← ensure (rn_code r =? 0) (TransportError "ssh -G failed");
    hostname ← lift (hostname_of alias (splitlines (rn_out r)));
    if negb (String.eqb hostname alias) || _looks_like_ip alias || configured alias then mret hostname else
    ok ← gets (resolves alias);
    if ok : bool then mret hostname else raise (AppError "SSHAliasError" "no such alias")
  end.

(** *** Opening *)
Definition _check (alias : string) : st W Z :=
  d ← gets ssh_dir;
  if decide (hash alias ∈ md_socks d) then
    ssh ← gets which_ssh;
    match ssh with
    | None => mret 1
    | Some ssh => r ← run [ssh; "-O"; "check"; "-S"; sock_path (hash alias); alias]; mret (rn_code r)
    end
  else mret 1.
Definition is_alive (alias : string) : st W bool := c ← _check alias; mret (c =? 0).
Definition label (c : ssh_class) : string :=
  match c with
  | Auth => "authentication failed"
  | Config => "SSH configuration error"
  | Network_error => "network error (transient; retries exhausted)"
  | Unknown_error => "unknown error"
  end.
Definition failed (c : ssh_class) : pyexn := TransportError ("failed to create master: " +:+ label c).
Definition class_of (r : ran) : ssh_class := classify_ssh_error (detail_of r).
Definition master_argv (ssh alias : string) : list string :=
  [ssh; "-M"; "-N"; "-f"; "-S"; sock_path (hash alias)] ++ _MASTER_OPTS ++ [alias].
(** [n] retries are left. *)
Fixpoint attempts (n : nat) (ssh alias : string) : st W unit :=
  r ← run (master_argv ssh alias);
  if rn_code r =? 0 then upd_dir (put_meta (hash alias) alias) else
  match n with
  | S n => if decide (class_of r = Network_error) then attempts n ssh alias else raise (failed (class_of r))
  | O => raise (failed (class_of r))
  end.
Definition _CREATE_RETRIES : nat := 2.
Definition drop_stale (stem : string) (d : master_dir) : master_dir :=
  if decide (stem ∈ md_socks d) then drop_meta stem (drop_sock stem d) else d.
Definition create (alias : string) : st W unit :=
  alive ← is_alive alias;
  if alive : bool then mret tt else
  ssh ← gets which_ssh;
  match ssh with
  | None => raise no_ssh
  | Some ssh =>
    _ ← resolve_alias alias;
    _ ← upd_dir (drop_stale (hash alias));
    attempts _CREATE_RETRIES ssh alias
  end.

(** *** Listing and stopping *)
Definition alias_of (d : master_dir) (stem : string) : string :=
  match dget (md_metas d) stem with Some (Meta (Some a)) => a | _ => stem end.
Definition list_sockets (d : master_dir) : list (string * string) :=
  map (fun stem => (alias_of d stem, stem)) (sort_strs (elements (md_socks d))).
Definition exit_argv (ssh stem alias : string) : list string := [ssh; "-O"; "exit"; "-S"; sock_path stem; alias].
Definition cleanup (stem : string) (d : master_dir) : master_dir := drop_meta stem (drop_sock stem d).
Definition exit_master (stem alias : string) : st W unit :=
  ssh ← gets which_ssh;
  d ← gets ssh_dir;
  _ ← match ssh with
      | Some ssh => if decide (stem ∈ md_socks d) then r ← run (exit_argv ssh stem alias); mret tt else mret tt
      | None => mret tt
      end;
  upd_dir (cleanup stem).
(** [ControlMaster.stop] *)
Definition stop (alias : string) : st W unit :=
  d ← gets ssh_dir;
  if decide (hash alias ∈ md_socks d) then exit_master (hash alias) alias else mret tt.
Definition stop_by_alias (alias : string) : st W bool :=
  d ← gets ssh_dir;
  match List.find (fun x => has_alias alias (snd x)) (md_metas d) with
  | None => mret false
  | Some (stem, _) => _ ← exit_master stem alias; mret true
  end.
(** The files are listed first and read one after the other. *)
Definition stop_one (stem : string) : st W unit :=
  d ← gets ssh_dir;
  match dget (md_metas d) stem with
  | Some (Meta (Some a)) => if String.eqb a "" then mret tt else _ ← stop_by_alias a; mret tt
  | _ => mret tt
  end.
Definition stop_all : st W unit := d ← gets ssh_dir; st_iter stop_one (md_metas d).*1.
Definition ssh_cmd (alias : string) (remote_args : list string) : st W (list string) :=
  ssh ← gets which_ssh;
  match ssh with
  | None => raise no_ssh
  | Some ssh => mret ([ssh; "-S"; sock_path (hash alias); alias] ++ remote_args)
  end.
End masters.

(** ** Lines with several patterns *)
(** What a pattern of a line says of the alias: nothing, that it is meant, or that
    it is left out. *)
Inductive verdict := No_word | Meant | Left_out.
#[export] Instance verdict_eq_dec : EqDecision verdict.
Proof. solve_decision. Defined.
Definition says (alias pat : string) : verdict :=
  let p := strip pat in
  if String.eqb p "" then No_word else
  if String.prefix "!" p then
    if _host_pattern_matches (lstrip (String.substring 1 (String.length p) p)) alias then Left_out else No_word
  else if _host_pattern_matches p alias then Meant else No_word.
(** The rule of ssh_config(5): a negated pattern that matches leaves the alias out,
    whatever the other patterns of the line. *)
Definition manual (patterns : list string) (alias : string) : bool :=
  existsb (fun p => bool_decide (says alias p = Meant)) patterns && negb (existsb (fun p => bool_decide (says alias p = Left_out)) patterns).
Lemma host_line_step p ps alias : _host_line_matches (p :: ps) alias =
  match says alias p with No_word => _host_line_matches ps alias | Meant => true | Left_out => false end.
Proof.
  cbn [_host_line_matches]. unfold says. cbv zeta. destruct (String.eqb (strip p) ""); [done|].
  destruct (String.prefix "!" (strip p)); by destruct (_host_pattern_matches _ alias).
Qed.
(** The code takes the first pattern that says something. It says what the manual
    says, except for an alias that a pattern means before another leaves it out: then
    the code takes the line for the alias's and ssh does not. *)
Theorem host_line_manual patterns alias :
  _host_line_matches patterns alias = manual patterns alias \/
  (_host_line_matches patterns alias = true /\ manual patterns alias = false /\
   exists before p between q after, patterns = before ++ p :: between ++ q :: after /\ says alias p = Meant /\ says alias q = Left_out /\
     Forall (fun r => says alias r = No_word) before).
Proof.
  unfold manual. induction patterns as [|p ps IH]; [by left|]. rewrite host_line_step. cbn [existsb].
  destruct (says alias p) eqn:Hs; simpl.
  - destruct IH as [IH|(H1 & H2 & b & x & m & y & a & -> & Hx & Hy & Hb)]; [by left|]. right. split; [done|]. split; [done|].
    exists (p :: b), x, m, y, a. split; [done|]. split; [done|]. split; [done|]. by constructor.
  - clear IH. destruct (existsb _ ps) eqn:He; [right|by left]. split; [done|]. split; [done|].
    apply existsb_exists in He as (q & Hq & Hl%bool_decide_eq_true). apply list_elem_of_In, list_elem_of_split in Hq as (m & a & ->).
    by exists [], p, m, q, a.
  - left. by destruct (existsb _ ps).
Qed.
(** A line defines an alias as it matches it when the bare stars are left out. *)
Lemma defines_without_stars patterns alias :
  _host_line_defines patterns alias = _host_line_matches (List.filter (fun p => negb (String.eqb (strip p) "*")) patterns) alias.
Proof.
  induction patterns as [|p ps IH]; [done|]. cbn [_host_line_defines List.filter]. rewrite IH. cbv zeta.
  destruct (String.eqb_spec (strip p) "*") as [He|He]; cbn [negb]; [by rewrite He|]. by cbn [_host_line_matches].
Qed.

(** ** The configuration *)
Section configuration.
Context (read_text : string -> option string) (expanduser : string -> string) (glob : string -> string -> list string).
Abbreviation scan := (scan read_text expanduser glob).
(** A line of the file, or of a file that it includes over at most [n] levels, defines
    the alias. *)
Inductive defined (alias : string) : nat -> string -> Prop :=
| defined_here n path text raw value : read_text path = Some text -> raw ∈ splitlines text ->
    config_line raw = Some ("host", value) -> value <> "" -> _host_line_defines (host_patterns value) alias = true -> defined alias (S n) path
| defined_there n path text raw value pat inc : read_text path = Some text -> raw ∈ splitlines text ->
    config_line raw = Some ("include", value) -> value <> "" -> pat ∈ words value -> inc ∈ included expanduser glob path pat ->
    defined alias n inc -> defined alias (S n) path.
Theorem scan_spec n path alias : scan n path alias = true <-> defined alias n path.
Proof.
  revert path. induction n as [|n IH]; intros path; [split; [done|by inversion 1]|]. cbn [SshMaster.scan]. split.
  - destruct (read_text path) as [text|] eqn:Ht; [|done]. intros (raw & Hr & Hl)%existsb_elem. unfold line_defines in Hl.
    destruct (config_line raw) as [[key value]|] eqn:Hc; [|done]. destruct (String.eqb_spec value "") as [|Hv]; [done|].
    destruct (String.eqb_spec key "include") as [->|_].
    + apply existsb_elem in Hl as (pat & Hp & (inc & Hi & Hs)%existsb_elem). by eapply defined_there; eauto; apply IH.
    + apply andb_true_iff in Hl as [->%String.eqb_eq Hd]. by eapply defined_here.
  - inversion 1 as [? ? text raw value Ht Hr Hc Hv Hd|? ? text raw value pat inc Ht Hr Hc Hv Hp Hi Hd]; subst; rewrite Ht;
      apply existsb_elem; exists raw; (split; [done|]); unfold line_defines; rewrite Hc, (proj2 (String.eqb_neq _ _) Hv); simpl; [done|].
    apply existsb_elem. exists pat. split; [done|]. apply existsb_elem. exists inc. split; [done|]. by apply IH.
Qed.
End configuration.

(** ** Masters *)
(** What is known of [ssh]: a run changes at most the socket that its [-S] names, and
    no other file of the directory; a successful check finds the socket, a successful
    master makes it. *)
Fixpoint behind_S (argv : list string) : option string :=
  match argv with
  | x :: argv => if String.eqb x "-S" then head argv else behind_S argv
  | [] => None
  end.
Definition subject (argv : list string) : option string := behind_S (tail argv).
Class SshHostLaws W `{SshHost W} (socket_dir known_hosts : string) := {
  dir_set : forall d w, ssh_dir (set_ssh_dir d w) = d;
  run_metas : forall argv w, md_metas (ssh_dir (ssh_run argv w).2) = md_metas (ssh_dir w);
  run_socks : forall argv w stem, subject argv <> Some (sock_path socket_dir stem) ->
    (stem ∈ md_socks (ssh_dir (ssh_run argv w).2) <-> stem ∈ md_socks (ssh_dir w));
  check_finds : forall ssh stem alias w r w', ssh_run [ssh; "-O"; "check"; "-S"; sock_path socket_dir stem; alias] w = (Some r, w') ->
    rn_code r = 0 -> stem ∈ md_socks (ssh_dir w');
  master_makes : forall hash ssh alias w r w', ssh_run (master_argv socket_dir known_hosts hash ssh alias) w = (Some r, w') ->
    rn_code r = 0 -> hash alias ∈ md_socks (ssh_dir w');
}.
(** Nothing of a name differs. *)
Definition same_at (stem : string) (d d' : master_dir) : Prop :=
  (stem ∈ md_socks d' <-> stem ∈ md_socks d) /\ dget (md_metas d') stem = dget (md_metas d) stem.
Definition clean_at (stem : string) (d : master_dir) : Prop := (stem ∉ md_socks d) /\ dget (md_metas d) stem = None.
(** A [.meta] file lies at the name of the alias that it holds. *)
Definition metas_ok (hash : string -> string) (d : master_dir) : Prop :=
  dict_wf (md_metas d) /\ forall stem alias, dget (md_metas d) stem = Some (Meta (Some alias)) -> stem = hash alias.

Section masters_ok.
Context `{!SshHost W} (socket_dir known_hosts : string) (hash : string -> string) `{!SshHostLaws W socket_dir known_hosts}.
Abbreviation create := (create socket_dir known_hosts hash).
Abbreviation attempts := (attempts socket_dir known_hosts hash).
Abbreviation argv := (master_argv socket_dir known_hosts hash).
Abbreviation exit_master := (exit_master socket_dir).
Abbreviation stop_by_alias := (stop_by_alias socket_dir).
Abbreviation stop_all := (stop_all socket_dir).

(** [k] failures of the network, one after the other. *)
Inductive network_failures (ssh alias : string) : nat -> W -> W -> Prop :=
| failures_none w : network_failures ssh alias 0 w w
| failures_more k w r w1 w2 : ssh_run (argv ssh alias) w = (Some r, w1) -> rn_code r <> 0 -> class_of r = Network_error ->
    network_failures ssh alias k w1 w2 -> network_failures ssh alias (S k) w w2.
(** A master is tried again only behind failures of the network, at most [n] times;
    what the last try gives decides. *)
Theorem attempts_spec n ssh alias w r w' : attempts n ssh alias w = (r, w') ->
  exists k w1 o w2, (k <= n)%nat /\ network_failures ssh alias k w w1 /\ ssh_run (argv ssh alias) w1 = (o, w2) /\
  match o with
  | None => r = Raise timed_out /\ w' = w2
  | Some x =>
    if rn_code x =? 0 then r = Ok tt /\ w' = set_ssh_dir (put_meta (hash alias) alias (ssh_dir w2)) w2
    else r = Raise (failed (class_of x)) /\ w' = w2 /\ (class_of x = Network_error -> k = n)
  end.
Proof.
  revert w. induction n as [|n IH]; intros w; cbn [SshMaster.attempts]; rewrite st_bind_unfold; unfold SshMaster.run;
    destruct (ssh_run (argv ssh alias) w) as [[x|] w2] eqn:Hr.
  2,4: intros [= <- <-]; by exists 0%nat, w, None, w2; split_and!; [lia|constructor| | |].
  - intros Hw. exists 0%nat, w, (Some x), w2. split_and!; [lia|constructor|done|]. destruct (rn_code x =? 0); by inv Hw.
  - destruct (rn_code x =? 0) eqn:Hc.
    + intros Hw. exists 0%nat, w, (Some x), w2. split_and!; [lia|constructor|done|]. rewrite Hc. by inv Hw.
    + destruct (decide _) as [Hn|Hn].
      * intros (k & w1 & o & w3 & Hk & Hf & Ho & Hm)%IH. exists (S k), w1, o, w3. split_and!; [lia| |done|].
        { eapply failures_more; [done| |done|done]. by apply Z.eqb_neq. }
        destruct o as [y|]; [|done]. destruct (rn_code y =? 0); [done|]. destruct Hm as (? & ? & ?). split_and!; [done..|]. intros; f_equal; auto.
      * intros Hw. exists 0%nat, w, (Some x), w2. split_and!; [lia|constructor|done|]. rewrite Hc. by inv Hw.
Qed.

Lemma sock_path_inj s s' : sock_path socket_dir s = sock_path socket_dir s' -> s = s'.
Proof.
  unfold sock_path, join_path. intros He%string_app_inj_l. injection He as He. revert s' He.
  induction s as [|c s IH]; intros [|c' s'] He; [done| | |injection He as -> ?; f_equal; auto];
    apply (f_equal String.length) in He; rewrite ?string_length_app in He; simpl in He; rewrite ?string_length_app in He; simpl in He; lia.
Qed.
(** What a run may do to the directory when the sockets of [A] are its own. *)
Section own.
Context (P : master_dir -> Prop) (A : string -> Prop).
Context (Hrun : forall d d', P d -> md_metas d' = md_metas d -> (forall s, ~ A s -> (s ∈ md_socks d' <-> s ∈ md_socks d)) -> P d').
Context (Hclean : forall s d, A s -> P d -> P (cleanup s d)) (Hput : forall a d, A (hash a) -> P d -> P (put_meta (hash a) a d)).
Abbreviation keeps m := (preserves (fun w => P (ssh_dir w)) m).
Lemma keeps_run argv stem : A stem -> subject argv = None \/ subject argv = Some (sock_path socket_dir stem) -> keeps (run argv).
Proof.
  intros HA Hs w HP. unfold run. pose proof (run_metas argv w) as Hm.
  pose proof (fun s => run_socks argv w s) as Hk. destruct (ssh_run argv w) as [r w']. simpl in *.
  apply (Hrun (ssh_dir w)); [done..|]. intros s Hn. apply Hk. destruct Hs as [->| ->]; [done|]. intros [= ->%sock_path_inj]. done.
Qed.
Lemma keeps_upd_dir f : (forall d, P d -> P (f d)) -> keeps (upd_dir f).
Proof. intros Hf. apply preserves_modify. intros w HP. rewrite dir_set. auto. Qed.
Lemma keeps_resolve stem alias : A stem -> keeps (resolve_alias alias).
Proof.
  intros HA. unfold resolve_alias. preserving. apply (keeps_run _ stem); [done|left]. unfold subject. simpl.
  by destruct (String.eqb alias "-S").
Qed.
Lemma keeps_alive alias : A (hash alias) -> keeps (is_alive socket_dir hash alias).
Proof. intros HA. unfold is_alive, _check. preserving. apply (keeps_run _ (hash alias)); [done|by right]. Qed.
Lemma keeps_attempts n ssh alias : A (hash alias) -> keeps (attempts n ssh alias).
Proof.
  intros HA. induction n as [|n IH]; simpl; preserving; try done; try (apply (keeps_run _ (hash alias)); [done|by right]); apply keeps_upd_dir; auto.
Qed.
Lemma keeps_create alias : A (hash alias) -> keeps (create alias).
Proof.
  intros HA. unfold SshMaster.create. preserving.
  - by apply keeps_alive.
  - by apply (keeps_resolve (hash alias)).
  - apply keeps_upd_dir. intros d HP. unfold drop_stale. case_decide; [by apply Hclean|done].
  - by apply keeps_attempts.
Qed.
Lemma keeps_exit stem alias : A stem -> keeps (exit_master stem alias).
Proof.
  intros HA. unfold SshMaster.exit_master. preserving; [|apply keeps_upd_dir; auto]. apply (keeps_run _ stem); [done|by right].
Qed.
Lemma keeps_stop alias : A (hash alias) -> keeps (stop socket_dir hash alias).
Proof. intros HA. unfold stop. preserving. by apply keeps_exit. Qed.
End own.

(** The files beside the sockets stay at the names of their aliases. *)
Lemma metas_ok_cleanup s d : metas_ok hash d -> metas_ok hash (cleanup s d).
Proof.
  intros [Hw Hn]. split; [by apply ddel_wf|]. intros stem alias. simpl. destruct (decide (s = stem)) as [->|Hs]; [by rewrite dget_ddel_eq|].
  rewrite dget_ddel_ne by done. apply Hn.
Qed.
Lemma metas_ok_put a d : metas_ok hash d -> metas_ok hash (put_meta (hash a) a d).
Proof.
  intros [Hw Hn]. split; [by apply dset_wf|]. intros stem alias. simpl. rewrite dget_dset. case_decide; [by intros [= ->]|apply Hn].
Qed.
Lemma metas_ok_run (d d' : master_dir) : metas_ok hash d -> md_metas d' = md_metas d -> metas_ok hash d'.
Proof. unfold metas_ok. by intros ? ->. Qed.
Lemma create_metas_ok alias : preserves (fun w => metas_ok hash (ssh_dir w)) (create alias).
Proof.
  apply (keeps_create (metas_ok hash) (fun _ => True)); [..|done]; eauto using metas_ok_run, metas_ok_cleanup, metas_ok_put.
Qed.
Lemma exit_metas_ok stem alias : preserves (fun w => metas_ok hash (ssh_dir w)) (exit_master stem alias).
Proof.
  apply (keeps_exit (metas_ok hash) (fun _ => True)); [..|done]; eauto using metas_ok_run, metas_ok_cleanup.
Qed.

(** What is not the alias's own stays as it was. *)
Lemma same_at_self s d : same_at s d d.
Proof. by split. Qed.
Lemma same_at_cleanup s s' d0 d : s' <> s -> same_at s d0 d -> same_at s d0 (cleanup s' d).
Proof. intros Hs [Hk Hm]. split; simpl; [set_solver|]. by rewrite dget_ddel_ne. Qed.
Lemma same_at_put s a d0 d : hash a <> s -> same_at s d0 d -> same_at s d0 (put_meta (hash a) a d).
Proof. intros Hs [Hk Hm]. split; simpl; [done|]. by rewrite dget_dset_ne. Qed.
Lemma same_at_run s (d0 d d' : master_dir) : same_at s d0 d -> md_metas d' = md_metas d ->
  (forall s', ~ s' <> s -> (s' ∈ md_socks d' <-> s' ∈ md_socks d)) -> same_at s d0 d'.
Proof. intros [Hk Hm] He Hs. split; [rewrite Hs by tauto; done|by rewrite He]. Qed.
Lemma create_same s alias d0 : hash alias <> s -> preserves (fun w => same_at s d0 (ssh_dir w)) (create alias).
Proof.
  apply (keeps_create (same_at s d0) (fun s' => s' <> s)); eauto using same_at_run, same_at_cleanup, same_at_put.
Qed.
Lemma exit_same s stem alias d0 : stem <> s -> preserves (fun w => same_at s d0 (ssh_dir w)) (exit_master stem alias).
Proof. apply (keeps_exit (same_at s d0) (fun s' => s' <> s)); eauto using same_at_run, same_at_cleanup. Qed.

Lemma attempts_open n ssh alias w w' : attempts n ssh alias w = (Ok tt, w') ->
  hash alias ∈ md_socks (ssh_dir w') /\ dget (md_metas (ssh_dir w')) (hash alias) = Some (Meta (Some alias)).
Proof.
  intros Ha. apply attempts_spec in Ha as (k & w1 & o & w2 & _ & _ & Hr & Hm). destruct o as [x|]; [|by destruct Hm].
  destruct (Z.eqb_spec (rn_code x) 0) as [Hc|]; [|by destruct Hm]. destruct Hm as [_ ->]. rewrite dir_set. split; simpl.
  - by eapply master_makes.
  - by rewrite dget_dset_eq.
Qed.
(** Opening a master gives a socket, and unless the master was alive its alias is
    written down; nothing of any other name is touched, whatever the outcome. *)
Theorem create_opens alias w : let '(r, w') := create alias w in
  (forall s, s <> hash alias -> same_at s (ssh_dir w) (ssh_dir w')) /\
  (r = Ok tt -> hash alias ∈ md_socks (ssh_dir w') /\
     ((is_alive socket_dir hash alias w).1 = Ok true \/ dget (md_metas (ssh_dir w')) (hash alias) = Some (Meta (Some alias)))).
Proof.
  destruct (create alias w) as [r w'] eqn:Hc. split.
  - intros s Hs. change w' with (r, w').2. rewrite <- Hc. by apply create_same, same_at_self.
  - intros ->. unfold SshMaster.create in Hc. apply st_bind_Ok in Hc as (alive & w1 & Hl & Hc). destruct alive.
    + apply st_ret_Ok in Hc as [_ ->]. split; [|left; by rewrite Hl]. unfold is_alive, _check in Hl.
      apply st_bind_Ok in Hl as (c & w2 & Hk & [Hz ->]%st_ret_Ok). symmetry in Hz. apply Z.eqb_eq in Hz as ->.
      apply st_bind_Ok in Hk as (d & w3 & [-> ->]%gets_Ok & Hk). case_decide; [|by apply st_ret_Ok in Hk as []].
      apply st_bind_Ok in Hk as (ssh & w4 & [-> ->]%gets_Ok & Hk). destruct (which_ssh w) as [ssh|]; [|by apply st_ret_Ok in Hk as []].
      apply st_bind_Ok in Hk as (x & w4 & Hx & [Hz ->]%st_ret_Ok). unfold run in Hx.
      destruct (ssh_run _ w) as [[y|] w5] eqn:Hy; [|done]. inv Hx. by eapply check_finds.
    + apply st_bind_Ok in Hc as (ssh & w2 & [-> ->]%gets_Ok & Hc). destruct (which_ssh w1) as [ssh|]; [|done].
      apply st_bind_Ok in Hc as (? & w2 & _ & Hc). apply st_bind_Ok in Hc as (? & w3 & _ & Hc). apply attempts_open in Hc. naive_solver.
Qed.
Lemma exit_cleans stem alias w : let '(r, w') := exit_master stem alias w in (r = Ok tt /\ clean_at stem (ssh_dir w')) \/ r = Raise timed_out.
Proof.
  unfold SshMaster.exit_master. rewrite st_bind_unfold. simpl. rewrite st_bind_unfold. simpl. rewrite st_bind_unfold.
  assert (Hc : forall w1, clean_at stem (ssh_dir (upd_dir (cleanup stem) w1).2)).
  { intros w1. simpl. rewrite dir_set. split; simpl; [set_solver|apply dget_ddel_eq]. }
  destruct (which_ssh w) as [ssh|]; [case_decide|]; simpl; try (left; split; [done|apply (Hc w)]).
  rewrite st_bind_unfold. unfold run. destruct (ssh_run _ w) as [[x|] w1]; simpl; [left; split; [done|apply (Hc w1)]|by right].
Qed.
Lemma find_alias d alias : metas_ok hash d ->
  match List.find (fun x => has_alias alias (snd x)) (md_metas d) with
  | Some (stem, m) => stem = hash alias /\ dget (md_metas d) (hash alias) = Some (Meta (Some alias))
  | None => dget (md_metas d) (hash alias) <> Some (Meta (Some alias))
  end.
Proof.
  intros [Hw Hn]. destruct (List.find _ _) as [[stem m]|] eqn:Hf.
  - apply find_some in Hf as [Hi%list_elem_of_In Ha]. simpl in Ha. destruct m as [|[a|]]; try done. apply String.eqb_eq in Ha as ->.
    apply dget_elem_of in Hi; [|done]. by rewrite <- (Hn _ _ Hi).
  - intros Hd. apply dget_elem_of in Hd; [|done]. apply list_elem_of_In in Hd. apply (find_none _ _ Hf) in Hd. simpl in Hd.
    by rewrite String.eqb_refl in Hd.
Qed.
(** A master is found by the alias that its file holds: then its socket and its file
    go; an alias that no file holds changes nothing, even when its master is alive. *)
Theorem stop_by_alias_spec alias w : metas_ok hash (ssh_dir w) -> let '(r, w') := stop_by_alias alias w in
  (dget (md_metas (ssh_dir w)) (hash alias) = Some (Meta (Some alias)) ->
     (r = Ok true /\ clean_at (hash alias) (ssh_dir w') \/ r = Raise timed_out) /\
     forall s, s <> hash alias -> same_at s (ssh_dir w) (ssh_dir w')) /\
  (dget (md_metas (ssh_dir w)) (hash alias) <> Some (Meta (Some alias)) -> r = Ok false /\ w' = w).
Proof.
  intros Hm%(fun H => find_alias _ alias H). unfold SshMaster.stop_by_alias. rewrite st_bind_unfold. simpl.
  destruct (List.find _ _) as [[stem m]|]; [|by split]. destruct Hm as [-> Hd].
  rewrite st_bind_unfold. pose proof (exit_cleans (hash alias) alias w) as He.
  pose proof (fun s Hs => exit_same s (hash alias) alias (ssh_dir w) Hs w (same_at_self s _)) as Hk.
  destruct (exit_master (hash alias) alias w) as [[[]|e] w1]; simpl in *; (split; [intros _|done]; split; [|intros s Hs; by apply Hk]).
  - left. by destruct He as [[_ ?]|].
  - right. by destruct He as [[? _]|?]; simplify_eq.
Qed.

(** The names whose file holds an alias. *)
Definition named_at (d : master_dir) (stem : string) : Prop :=
  exists a, a <> "" /\ dget (md_metas d) stem = Some (Meta (Some a)).
Lemma stop_one_spec stem w : metas_ok hash (ssh_dir w) -> let '(r, w') := stop_one socket_dir stem w in
  metas_ok hash (ssh_dir w') /\ (forall s, s <> stem -> same_at s (ssh_dir w) (ssh_dir w')) /\
  match r with
  | Ok _ => (named_at (ssh_dir w) stem -> clean_at stem (ssh_dir w')) /\ (~ named_at (ssh_dir w) stem -> w' = w)
  | Raise e => e = timed_out
  end.
Proof.
  intros Hm. unfold stop_one. rewrite st_bind_unfold. simpl.
  assert (Hskip : (forall a, a <> "" -> dget (md_metas (ssh_dir w)) stem <> Some (Meta (Some a))) ->
    metas_ok hash (ssh_dir w) /\ (forall s, s <> stem -> same_at s (ssh_dir w) (ssh_dir w)) /\
    (named_at (ssh_dir w) stem -> clean_at stem (ssh_dir w)) /\ (~ named_at (ssh_dir w) stem -> w = w)).
  { intros Hno. split_and!; try done. intros (a & Ha & Hd). by destruct (Hno a). }
  destruct (dget (md_metas (ssh_dir w)) stem) as [[|[a|]]|] eqn:Hd; try (by apply Hskip).
  destruct (String.eqb_spec a "") as [->|Ha]; [apply Hskip; congruence|]. clear Hskip. rewrite st_bind_unfold.
  pose proof (stop_by_alias_spec a w Hm) as Hs. pose proof (proj2 Hm _ _ Hd) as ->.
  assert (Hk : metas_ok hash (ssh_dir (stop_by_alias a w).2)).
  { unfold SshMaster.stop_by_alias. rewrite st_bind_unfold. simpl. destruct (List.find _ _) as [[s m]|]; [|done].
    refine (preserves_bind _ _ _ _ _ w Hm); [apply exit_metas_ok|]. intros ?. apply preserves_ret. }
  destruct (stop_by_alias a w) as [[b|e] w1]; simpl in *; destruct Hs as [[Hs Hsame]%(fun f => f Hd) _].
  - split_and!; try done; [by destruct Hs as [[_ ?]|]|]. intros Hn. destruct Hn. by exists a.
  - split_and!; try done. destruct Hs as [[? _]|?]; congruence.
Qed.
(** Stopping everything leaves no named master, unless one of them does not exit in
    time: then the rest goes on running. *)
Theorem stop_all_clears w : metas_ok hash (ssh_dir w) -> let '(r, w') := stop_all w in
  match r with
  | Ok _ => forall s, (s ∈ (md_metas (ssh_dir w)).*1 -> named_at (ssh_dir w) s -> clean_at s (ssh_dir w')) /\
                      (s ∉ (md_metas (ssh_dir w)).*1 -> same_at s (ssh_dir w) (ssh_dir w'))
  | Raise e => e = timed_out
  end.
Proof.
  intros Hm. unfold SshMaster.stop_all. rewrite st_bind_unfold. simpl.
  pose proof (proj1 Hm) as Hnd. unfold dict_wf in Hnd. revert Hm Hnd. generalize (md_metas (ssh_dir w)).*1 as l. intros l. revert w.
  induction l as [|x l IH]; intros w Hm Hnd; [intros s; split; [by intros ?%elem_of_nil|done]|].
  apply NoDup_cons in Hnd as [Hx Hnd]. cbn [st_iter]. rewrite st_bind_unfold. pose proof (stop_one_spec x w Hm) as H1.
  destruct (stop_one socket_dir x w) as [[u|e] w1]; destruct H1 as (Hm1 & Hs1 & H1); [|done].
  specialize (IH w1 Hm1 Hnd). destruct (st_iter (stop_one socket_dir) l w1) as [[v|e] w2]; [|done]. intros s. destruct (IH s) as [IH1 IH2].
  destruct (decide (s = x)) as [->|Hsx].
  - split; [|by intros []%not_elem_of_cons]. intros _ Hn. apply (proj1 H1) in Hn as [Hk Hd]. destruct (IH2 Hx) as [Hk2 Hd2].
    split; [by rewrite Hk2|congruence].
  - destruct (Hs1 s Hsx) as [Hk Hd]. split.
    + intros [?|Hl]%elem_of_cons (a & Ha & Hda); [done|]. apply IH1; [done|]. exists a. by rewrite Hd.
    + intros [_ Hl]%not_elem_of_cons. destruct (IH2 Hl) as [Hk2 Hd2]. split; [by rewrite Hk2|congruence].
Qed.
End masters_ok.

(** A master that hangs is no failure of the transport: when ssh does not answer the
    check in time, opening raises the timeout of the process, and the caller, which
    turns to the fallback host on errors of the transport, does not see one. *)
Theorem hang_escapes W `{SshHost W} socket_dir known_hosts hash alias (w w' : W) ssh :
  hash alias ∈ md_socks (ssh_dir w) -> which_ssh w = Some ssh ->
  ssh_run [ssh; "-O"; "check"; "-S"; sock_path socket_dir (hash alias); alias] w = (None, w') ->
  create socket_dir known_hosts hash alias w = (Raise timed_out, w') /\ is_transport_error timed_out = false.
Proof.
  intros Hs Hw Hr. split; [|done]. unfold create, is_alive, _check. rewrite !st_bind_unfold. simpl.
  rewrite decide_True by done. rewrite st_bind_unfold. simpl. rewrite Hw. rewrite st_bind_unfold. unfold run. by rewrite Hr.
Qed.

(** ** At work *)
(** A machine on which ssh does what a script says. *)
Record desk := { dk_dir : master_dir; dk_script : list (option ran) }.
Fixpoint chop_sock (s : string) : string :=
  if String.eqb s ".sock" then "" else match s with String c s' => String c (chop_sock s') | "" => "" end.
Lemma chop_sock_app s : chop_sock (s +:+ ".sock") = s.
Proof.
  induction s as [|c s IH]; [done|]. rewrite string_app_cons. cbn [chop_sock]. rewrite IH.
  destruct (String.eqb_spec (String c (s +:+ ".sock")) ".sock") as [He|]; [|done].
  apply (f_equal String.length) in He. simpl in He. rewrite string_length_app in He. simpl in He. lia.
Qed.
Definition stem_of (p : string) : string := match p with String _ (String _ s) => chop_sock s | _ => "" end.
Definition own_sock (argv : list string) : option string :=
  match subject argv with
  | Some p => let s := stem_of p in if String.eqb p (sock_path "d" s) then Some s else None
  | None => None
  end.
Lemma own_sock_spec argv s : own_sock argv = Some s <-> subject argv = Some (sock_path "d" s).
Proof.
  unfold own_sock. split.
  - destruct (subject argv) as [p|]; [|done]. cbv zeta. destruct (String.eqb_spec p (sock_path "d" (stem_of p))); [|done]. congruence.
  - intros ->. cbv zeta. change (stem_of (sock_path "d" s)) with (chop_sock (s +:+ ".sock")). by rewrite chop_sock_app, String.eqb_refl.
Qed.
Definition absent : ran := {| rn_code := 1; rn_out := ""; rn_err := "" |}.
Definition run_desk (argv : list string) (w : desk) : option ran * desk :=
  match dk_script w with
  | [] => (None, w)
  | r :: script =>
    let d := dk_dir w in
    let done d := {| dk_dir := d; dk_script := script |} in
    match own_sock argv, r with
    | Some s, Some x =>
      if String.eqb (default "" (argv !! 1%nat)) "-M"
      then (r, done (if rn_code x =? 0 then {| md_socks := {[s]} ∪ md_socks d; md_metas := md_metas d |} else d))
      else if String.eqb (default "" (argv !! 2%nat)) "check" then (if decide (s ∈ md_socks d) then r else Some absent, done d)
      else (r, done d)
    | _, _ => (r, done d)
    end
  end.
#[export] Instance desk_host : SshHost desk := {
  ssh_dir := dk_dir; set_ssh_dir := fun d w => {| dk_dir := d; dk_script := dk_script w |};
  which_ssh := fun _ => Some "/usr/bin/ssh"; ssh_run := run_desk; resolves := fun _ _ => false; configured := fun a => String.eqb a "gpu" }.
Lemma desk_dir argv w : md_metas (dk_dir (run_desk argv w).2) = md_metas (dk_dir w) /\
  forall s, own_sock argv <> Some s -> s ∈ md_socks (dk_dir (run_desk argv w).2) <-> s ∈ md_socks (dk_dir w).
Proof.
  unfold run_desk. destruct (dk_script w) as [|r script]; [by split|]. cbv zeta.
  destruct (own_sock argv) as [s|]; [|by split]. destruct r as [x|]; [|by split]. destruct (String.eqb _ "-M"); [|by destruct (String.eqb _ _)].
  destruct (rn_code x =? 0); split; try done; intros u Hu; set_solver.
Qed.
#[export] Instance desk_laws : SshHostLaws desk "d" "k".
Proof.
  split.
  - done.
  - intros argv w. apply desk_dir.
  - intros argv w s Hs. apply desk_dir. intros He. by apply own_sock_spec in He.
  - intros ssh s a w r w' Hr Hc. cbn [ssh_run desk_host] in Hr. unfold run_desk in Hr. destruct (dk_script w) as [|x script]; [done|].
    cbv zeta in Hr. rewrite (proj2 (own_sock_spec [ssh; "-O"; "check"; "-S"; sock_path "d" s; a] s) eq_refl) in Hr.
    destruct x as [x|]; [|done]. case_decide; [by injection Hr as <- <-|]. injection Hr as <- <-. done.
  - intros hash ssh a w r w' Hr Hc. cbn [ssh_run desk_host] in Hr. unfold run_desk in Hr. destruct (dk_script w) as [|x script]; [done|].
    cbv zeta in Hr. rewrite (proj2 (own_sock_spec (master_argv "d" "k" hash ssh a) (hash a)) eq_refl) in Hr.
    destruct x as [x|]; [|done]. injection Hr as -> <-. rewrite (proj2 (Z.eqb_eq _ _) Hc). simpl. set_solver.
Qed.
Definition says_ran (code : Z) (out err : string) : option ran := Some {| rn_code := code; rn_out := out; rn_err := err |}.
Definition flaky : desk := {|
  dk_dir := {| md_socks := {["h-old"]}; md_metas := [("h-old", Meta (Some "old"))] |};
  dk_script := [says_ran 0 ("user me" +:+ NL +:+ "hostname 10.0.0.1" +:+ NL) ""; says_ran 255 "" "ssh: Connection refused"; says_ran 0 "" ""] |}.
Definition named (a : string) : string := "h-" +:+ a.
Lemma attempts_spec_witness :
  let m := create "d" "k" named "gpu" flaky in
  m.1 = Ok tt /\ list_sockets (dk_dir m.2) = [("gpu", "h-gpu"); ("old", "h-old")] /\
  exists k w1 o w2, (k <= 2)%nat /\ network_failures "d" "k" named "/usr/bin/ssh" "gpu" k {| dk_dir := dk_dir flaky; dk_script := tail (dk_script flaky) |} w1 /\
    ssh_run (master_argv "d" "k" named "/usr/bin/ssh" "gpu") w1 = (o, w2) /\
    match o with
    | None => Ok tt = Raise timed_out /\ m.2 = w2
    | Some x => if rn_code x =? 0 then Ok tt = Ok tt /\ m.2 = set_ssh_dir (put_meta (named "gpu") "gpu" (ssh_dir w2)) w2
                else Ok tt = Raise (failed (class_of x)) /\ m.2 = w2 /\ (class_of x = Network_error -> k = 2%nat)
    end.
Proof.
  cbv zeta. split; [vm_compute; reflexivity|]. split; [vm_compute; reflexivity|].
  apply (attempts_spec "d" "k" named 2 "/usr/bin/ssh" "gpu" {| dk_dir := dk_dir flaky; dk_script := tail (dk_script flaky) |} (Ok tt)).
  vm_compute. reflexivity.
Defined.
Definition two_masters : desk := {|
  dk_dir := {| md_socks := {["h-a"]} ∪ {["h-b"]} ∪ {["h-c"]}; md_metas := [("h-a", Meta (Some "a")); ("h-b", No_json); ("h-c", Meta (Some "c"))] |};
  dk_script := [says_ran 0 "" ""; says_ran 255 "" "gone"] |}.
Lemma two_masters_ok : metas_ok named (dk_dir two_masters).
Proof.
  split; [apply (bool_decide_unpack _); vm_compute; exact I|]. intros s a. simpl.
  destruct (String.eqb_spec s "h-a") as [->|]; [by intros [= <-]|]. destruct (String.eqb s "h-b"); [done|].
  destruct (String.eqb_spec s "h-c") as [->|]; [by intros [= <-]|done].
Qed.
Lemma stop_all_clears_witness :
  let m := stop_all "d" two_masters in m.1 = Ok tt /\ clean_at "h-a" (dk_dir m.2) /\ clean_at "h-c" (dk_dir m.2).
Proof.
  cbv zeta. split; [vm_compute; reflexivity|]. pose proof (stop_all_clears "d" "k" named two_masters two_masters_ok) as Hs.
  destruct (stop_all "d" two_masters) as [r w'] eqn:Hr. assert (Hok : r = Ok tt) by (vm_compute in Hr; by injection Hr). rewrite Hok in Hs.
  split; apply Hs; try (in_list); [exists "a"|exists "c"]; done.
Defined.
Lemma stop_by_alias_spec_witness :
  let m := stop_by_alias "d" "a" two_masters in m.1 = Ok true /\ forall s, s <> "h-a" -> same_at s (dk_dir two_masters) (dk_dir m.2).
Proof.
  cbv zeta. split; [vm_compute; reflexivity|]. pose proof (stop_by_alias_spec "d" "k" named "a" two_masters two_masters_ok) as Hs.
  destruct (stop_by_alias "d" "a" two_masters) as [r w']. apply Hs. reflexivity.
Defined.
Lemma hang_escapes_witness : create "d" "k" named "old" {| dk_dir := dk_dir flaky; dk_script := [None] |} =
  (Raise timed_out, {| dk_dir := dk_dir flaky; dk_script := [] |}).
Proof. apply (hang_escapes desk "d" "k" named "old" _ _ "/usr/bin/ssh"); [set_solver|reflexivity|reflexivity]. Defined.
(** The negated pattern comes too late. *)
Example line_and_manual :
  _host_line_matches ["*.internal"; "!secret.internal"] "secret.internal" = true /\ manual ["*.internal"; "!secret.internal"] "secret.internal" = false /\
  _host_line_defines ["!foo"; "*"] "bar" = false /\ _host_line_matches ["h[0-9]*"; "x"] "h1a" = true /\ _looks_like_ip "[fe80::1%eth0]" = true.
Proof. by vm_compute. Qed.
