(* ===== verification/TranscriptStrip.v ===== *)
(** * The strip of a transcript
    (src/src/codeagent/scripts/oracle_transcript_strip.py)

    After the release of a review the logs of its session are cut down: original
    outputs and the files of the advisor are removed, the logs beside the transcript
    are cut, and the transcript is filtered. A tree of files is a map from directory
    and name; refusals of the file system are left out. *)
From S2P Require Import Prelude Patterns AgentSession Wire GatewayRpc Relay OracleResult.

(** ** The tree *)
Inductive node := File (bytes : string) (mtime : Z) | Folder (mtime : Z).
#[export] Instance node_eq_dec : EqDecision node.
Proof. solve_decision. Defined.
Abbreviation place := (string * string)%type.
Abbreviation tree := (gmap place node).
Definition path_of (k : place) : string := k.1 +:+ String "/"%char k.2.
Definition mtime_of (n : node) : Z := match n with File _ m | Folder m => m end.
Definition is_folder (n : node) : bool := match n with Folder _ => true | _ => false end.
(** What [glob] gives in a directory, in its order. *)
Definition glob (d pat : string) (t : tree) : list (string * node) :=
  omap (fun x => if String.eqb x.1.1 d && fnmatchcase x.1.2 pat then Some (x.1.2, x.2) else None) (map_to_list t).

(** ** Finding the session *)
Definition transcript_pattern (sid : string) : string := "*_" +:+ sid +:+ ".jsonl".
(** [walk]: the places of the files below the root, as [os.walk] gives them. The file
    found so far is compared by the time of its directory. *)
Definition better (sid : string) (t : tree) (dir_mtime : string -> Z) (best : option string) (k : place) : option string :=
  if negb (ends_with ("_" +:+ sid +:+ ".jsonl") k.2) then best else
  match best with
  | None => Some k.1
  | Some d => if dir_mtime d <? default 0 (mtime_of <$> t !! k) then Some k.1 else best
  end.
Definition _locate_session_dir (sid session_dir : string) (is_dir : string -> bool) (sessions_root : string) (walk : list place)
    (dir_mtime : string -> Z) (t : tree) : option string :=
  if negb (String.eqb session_dir "") then
    if negb (is_dir session_dir) then None else
    match glob session_dir (transcript_pattern sid) t with [] => None | _ => Some session_dir end
  else if negb (is_dir sessions_root) then None
  else foldl (better sid t dir_mtime) None walk.
Definition newer (x y : string * node) : bool := mtime_of y.2 <=? mtime_of x.2.
Definition _locate_session_jsonl (sid d : string) (t : tree) : option place :=
  match sort_by newer (glob d (transcript_pattern sid) t) with (n, _) :: _ => Some (d, n) | [] => None end.

(** ** Whether the session has ended *)
Definition byte_space (c : ascii) : bool := between 9 13 c || Ascii.eqb c " "%char.
Definition unhashable : pyexn := TypeError "unhashable type".
(** [v in frozenset(l)] *)
Definition in_set (v : pyval) (l : list string) : res bool :=
  match v with VList _ | VDict _ => Raise unhashable | _ => Ok (existsb (eq_str v) l) end.
Definition _TERMINAL_CUSTOM_TYPES : list string := ["session_exit"; "agent_end"; "agent_stop"; "session_shutdown"; "process_exit"].
Definition undecodable : pyexn := ValueError "invalid utf-8".
Definition tail_bytes (n : nat) (s : string) : string := String.substring (String.length s - n) n s.
Definition last_line (s : string) : option string :=
  List.find (fun l => negb (String.eqb l "")) (map (strip_chars byte_space) (rev (split_all newline s))).
Definition _is_session_terminal (k : place) (t : tree) : res bool :=
  match t !! k with
  | Some (File bytes _) =>
    if String.eqb bytes "" then Ok true else
    match last_line (tail_bytes (Z.to_nat 4096) bytes) with
    | None => Ok false
    | Some line =>
      if negb (utf8_valid line) then Raise undecodable else
      match loads line with
      | None => Ok false
      | Some obj => do ctype <- getd obj "customType" (VStr ""); in_set ctype _TERMINAL_CUSTOM_TYPES
      end
    end
  | _ => Ok false
  end.

(** ** The directories of the session, and what goes there *)
Definition targets (d sid : string) (t : tree) : list string :=
  d :: omap (fun x => if is_folder x.2 then Some (path_of (d, x.1)) else None) (glob d ("*_" +:+ sid) t).
Definition is_original (ts : list string) (k : place) (n : node) : bool :=
  bool_decide (k.1 ∈ ts) && fnmatchcase k.2 "*.bash-original.log" && negb (is_folder n).
Definition _delete_bash_original (d sid : string) (t : tree) : gset place * tree :=
  let ts := targets d sid t in
  (dom (filter (fun x => is_original ts x.1 x.2 = true) t), filter (fun x => is_original ts x.1 x.2 = false) t).

Definition is_sidecar (name : string) : bool := existsb (fnmatchcase name) ["*.bash.log"; "*.eval.log"; "*.read.*"].
Definition byte_count (s : string) : Z := Z.of_nat (String.length s).
(** [f.read(n)] *)
Definition read_head (n : Z) (s : string) : string := if n <? 0 then s else String.substring 0 (Z.to_nat n) s.
Definition is_long (head_bytes : Z) (ts : list string) (k : place) (n : node) : bool :=
  bool_decide (k.1 ∈ ts) && is_sidecar k.2 && match n with File b _ => head_bytes <? byte_count b | Folder _ => false end.
Definition cut (head_bytes now : Z) (n : node) : node := match n with File b _ => File (read_head head_bytes b) now | Folder m => Folder m end.
Definition _truncate_sidecar_logs (d sid : string) (head_bytes now : Z) (t : tree) : gset place * tree :=
  let ts := targets d sid t in
  (dom (filter (fun x => is_long head_bytes ts x.1 x.2 = true) t),
   map_imap (fun k n => Some (if is_long head_bytes ts k n then cut head_bytes now n else n)) t).

(** ** The transcript *)
Definition _KEEP_ROLES : list string := ["user"; "assistant"; "toolResult"].
Definition _KEEP_HEADER_TYPES : list string := ["title"; "session"].
(** The text of a file, with the line ends as Python reads them. *)
Fixpoint universal (s : string) : string :=
  match s with
  | String c s' =>
    if Ascii.eqb c (ascii_of_N 13) then
      match s' with
      | String d s'' => if Ascii.eqb d newline then universal s' else String newline (universal s')
      | "" => NL
      end
    else String c (universal s')
  | "" => ""
  end.
Definition lines_of (bytes : string) : list string := split_all newline (universal bytes).
Definition kept (obj : pyval) : res bool :=
  do t <- getd obj "type" (VStr "");
  do header <- in_set t _KEEP_HEADER_TYPES;
  if header : bool then Ok true else
  do spoken <- (if eq_str t "message" then
                  do m <- getd obj "message" (VDict []); do role <- getd m "role" (VStr ""); in_set role _KEEP_ROLES
                else Ok false);
  if spoken : bool then Ok true else
  if eq_str t "custom" then do c <- getd obj "customType" (VStr ""); Ok (eq_str c "tool_execution_start") else Ok false.
Fixpoint filter_lines (lines : list string) : res (list string * nat) :=
  match lines with
  | [] => Ok ([], 0%nat)
  | raw :: lines =>
    if String.eqb raw "" then filter_lines lines else
    match loads raw with
    | None => do x <- filter_lines lines; Ok (fst x, S (snd x))
    | Some obj =>
      do k <- kept obj;
      do x <- filter_lines lines;
      Ok (if k : bool then (raw :: fst x, snd x) else (fst x, S (snd x)))
    end
  end.
Record filtered := { fi_kept : nat; fi_dropped : nat; fi_rewritten : bool; fi_original : Z; fi_filtered : Z }.
Definition _filter_session_jsonl (k : place) (dry_run : bool) (now : Z) (t : tree) : res filtered * tree :=
  match t !! k with
  | None => (Ok {| fi_kept := 0; fi_dropped := 0; fi_rewritten := false; fi_original := 0; fi_filtered := 0 |}, t)
  | Some (Folder _) => (Raise (OSError "is a directory"), t)
  | Some (File bytes _) =>
    if negb (utf8_valid bytes) then (Raise undecodable, t) else
    match filter_lines (lines_of bytes) with
    | Raise e => (Raise e, t)
    | Ok (l, dropped) =>
      let content := lines_text l in
      let write := negb (Nat.eqb dropped 0) && negb dry_run in
      (Ok {| fi_kept := length l; fi_dropped := dropped; fi_rewritten := write; fi_original := byte_count bytes; fi_filtered := byte_count content |},
       if write then <[k := File content now]> t else t)
    end
  end.

(** ** The files of the advisor *)
Definition is_advisor (ts : list string) (k : place) : bool := bool_decide (k.1 ∈ ts) && fnmatchcase k.2 "__advisor*".
Definition below (q k : place) : bool := String.eqb k.1 (path_of q) || String.prefix (path_of q +:+ "/") k.1.
(** A folder of the advisor that holds the place. *)
Definition in_advisor (ts : list string) (t : tree) (k : place) : bool :=
  existsb (fun x => is_advisor ts x.1 && is_folder x.2 && below x.1 k) (map_to_list t).
Definition goes (ts : list string) (t : tree) (k : place) : bool := is_advisor ts k || in_advisor ts t k.
Definition _delete_advisor_files (d sid : string) (t : tree) : gset place * tree :=
  let ts := targets d sid t in
  (dom (filter (fun x => (is_advisor ts x.1 && negb (in_advisor ts t x.1)) = true) t), filter (fun x => goes ts t x.1 = false) t).

(** ** The strip *)
Record report := {
  re_dir : option string; re_removed : gset place; re_truncated : gset place; re_jsonl : option filtered; re_advisors : gset place;
  re_guard : string; re_error : option string }.
Definition refused (d : option string) (g error : string) : report :=
  {| re_dir := d; re_removed := ∅; re_truncated := ∅; re_jsonl := None; re_advisors := ∅; re_guard := g; re_error := Some error |}.
Definition guard_of (jsonl : option place) (force : bool) (t : tree) : res string :=
  match jsonl with
  | Some k => if force then Ok "forced" else do ended <- _is_session_terminal k t; Ok (if ended : bool then "passed" else "refused")
  | None => Ok (if force then "forced" else "skipped")
  end.
(** Behind the guard. *)
Definition strip_dir (d sid : string) (jsonl : option place) (head_bytes now : Z) (dry_run : bool) (g : string) (t : tree) : res report * tree :=
  let '(removed, t) := _delete_bash_original d sid t in
  let '(truncated, t) := _truncate_sidecar_logs d sid head_bytes now t in
  let '(f, t) := match jsonl with
                 | Some k => let '(f, t) := _filter_session_jsonl k dry_run now t in (do x <- f; Ok (Some x), t)
                 | None => (Ok None, t)
                 end in
  match f with
  | Raise e => (Raise e, t)
  | Ok f =>
    let '(advisors, t) := _delete_advisor_files d sid t in
    (Ok {| re_dir := Some d; re_removed := removed; re_truncated := truncated; re_jsonl := f; re_advisors := advisors;
           re_guard := g; re_error := None |}, t)
  end.
Definition strip_oracle_session (locate : string -> string -> tree -> option string) (sid : string) (head_bytes : Z) (force dry_run : bool)
    (session_dir : string) (now : Z) (t : tree) : res report * tree :=
  if String.eqb sid "" then (Ok (refused None "skipped" "empty_sid"), t) else
  match locate sid session_dir t with
  | None => (Ok (refused None "skipped" "session_not_found"), t)
  | Some d =>
    let jsonl := _locate_session_jsonl sid d t in
    match guard_of jsonl force t with
    | Raise e => (Raise e, t)
    | Ok g =>
      if String.eqb g "refused" then (Ok (refused (Some d) "refused" "session_looks_live"), t)
      else strip_dir d sid jsonl head_bytes now dry_run g t
    end
  end.
(** The directory of the session's file, if the manifest names one. *)
Definition strip_for_manifest (locate : string -> string -> tree -> option string) (parent : string -> string)
    (backend_session_id omp_session_path : string) (head_bytes now : Z) (force dry_run : bool) (t : tree) : res report * tree :=
  let session_dir := if String.eqb omp_session_path "" then "" else parent omp_session_path in
  strip_oracle_session locate backend_session_id head_bytes force dry_run session_dir now t.

(** ** The transcript: what is kept *)
Definition no_cr (s : string) : bool := negb (has_char (ascii_of_N 13) s).
Lemma universal_no_cr s : no_cr (universal s) = true.
Proof.
  induction s as [|c s IH]; [done|]. cbn [universal]. destruct (Ascii.eqb c (ascii_of_N 13)) eqn:Hc.
  - destruct s as [|d s]; [done|]. destruct (Ascii.eqb d newline); [done|]. unfold no_cr in *. by rewrite has_char_cons.
  - unfold no_cr in *. rewrite has_char_cons, Ascii.eqb_sym, Hc. done.
Qed.
Lemma universal_same s : no_cr s = true -> universal s = s.
Proof.
  unfold no_cr. induction s as [|c s IH]; [done|]. rewrite has_char_cons, Ascii.eqb_sym. cbn [universal].
  destruct (Ascii.eqb c (ascii_of_N 13)); [done|]. intros H. f_equal. auto.
Qed.
Definition line_ok (s : string) : Prop := has_char newline s = false /\ no_cr s = true.
Lemma no_cr_app s t : no_cr (s +:+ t) = no_cr s && no_cr t.
Proof. unfold no_cr. by rewrite has_char_app, negb_orb. Qed.
Lemma split_all_free c d s : has_char c s = false -> Forall (fun w => has_char c w = false) (split_all d s).
Proof.
  induction s as [|e s IH]; cbn [split_all]; [by repeat constructor|]. rewrite has_char_cons. intros [He Hs]%orb_false_iff.
  specialize (IH Hs). destruct (Ascii.eqb d e); [by constructor|]. destruct (split_all d s) as [|w ws].
  - constructor; [|constructor]. by rewrite has_char_cons, He.
  - inv IH. constructor; [|done]. by rewrite has_char_cons, He.
Qed.
Lemma lines_of_ok bytes : Forall line_ok (lines_of bytes).
Proof.
  unfold lines_of. apply Forall_and. split; [apply split_all_no_char|]. eapply Forall_impl.
  - apply (split_all_free (ascii_of_N 13)). apply negb_true_iff, universal_no_cr.
  - intros w Hw. unfold no_cr. by rewrite Hw.
Qed.
Lemma lines_of_text l : Forall line_ok l -> lines_of (lines_text l) = l ++ [""].
Proof.
  intros [Hn Hc]%Forall_and. unfold lines_of. rewrite universal_same, split_lines_text; [done..|].
  unfold lines_text. clear Hn. induction Hc as [|s l Hs _ IH]; [done|]. cbn [map]. by rewrite join_cons, !no_cr_app, Hs, IH.
Qed.
(** A line that the filter keeps. *)
Definition keeps_line (raw : string) : Prop := raw <> "" /\ exists obj, loads raw = Some obj /\ kept obj = Ok true.
Lemma filter_keeps lines l d : filter_lines lines = Ok (l, d) -> l `sublist_of` lines /\ Forall keeps_line l.
Proof.
  revert l d. induction lines as [|raw lines IH]; intros l d; cbn [filter_lines]; [by intros [= <- <-]|].
  destruct (String.eqb_spec raw "") as [->|Hr]; [intros [? ?]%IH; split; [by apply sublist_cons|done]|].
  destruct (loads raw) as [obj|] eqn:Hl.
  - destruct (kept obj) as [k|] eqn:Hk; [|done]. cbn [res_bind]. destruct (filter_lines lines) as [[l' d']|]; [|done]. cbn [res_bind].
    destruct (IH l' d' eq_refl) as [Hs Hf]. destruct k; intros [= <- <-]; (split; [by constructor|]); [|done].
    constructor; [|done]. split; [done|]. by exists obj.
  - destruct (filter_lines lines) as [[l' d']|]; [|done]. destruct (IH l' d' eq_refl) as [Hs Hf]. intros [= <- <-]. split; [by constructor|done].
Qed.
Lemma filter_again l : Forall keeps_line l -> filter_lines (l ++ [""]) = Ok (l, 0%nat).
Proof.
  induction 1 as [|raw l (Hr & obj & Hl & Hk) _ IH]; [done|]. cbn [app filter_lines]. apply String.eqb_neq in Hr. rewrite Hr, Hl, Hk. cbn [res_bind].
  by rewrite IH.
Qed.
(** The filter keeps lines of the transcript in their order; filtering its result
    drops nothing and writes nothing. *)
Theorem filter_idempotent bytes l d : filter_lines (lines_of bytes) = Ok (l, d) ->
  l `sublist_of` lines_of bytes /\ filter_lines (lines_of (lines_text l)) = Ok (l, 0%nat).
Proof.
  intros [Hs Hk]%filter_keeps. split; [done|]. rewrite lines_of_text; [by apply filter_again|].
  eapply Forall_sublist; [exact Hs|apply lines_of_ok].
Qed.

(** *** What an oracle said is still found *)
(** The transcript as the extraction reads it. *)
Definition transcript_of (bytes : string) : list (option pyval) :=
  map loads (List.filter (fun l => negb (String.eqb l "")) (map strip (lines_of bytes))).
(** A line whose surrounding blanks are those of JSON. *)
Definition plain_line (raw : string) : Prop := loads (strip raw) = loads raw /\ (strip raw = "" -> loads raw = None).
Section extraction.
Context (fromisoformat : string -> option Z).
Abbreviation text_of := (assistant_text fromisoformat).
Lemma getd_inv v k dflt x : getd v k dflt = Ok x -> exists d, v = VDict d.
Proof. destruct v; try done. by eexists. Qed.
Lemma dropped_silent epoch obj : kept obj = Ok false -> text_of epoch obj = Ok None.
Proof.
  unfold kept, assistant_text. destruct obj as [| | | | | |d]; try done. cbn [getd res_bind].
  destruct (in_set (dgetd d "type" (VStr "")) _) as [[]|] eqn:Hh; try done. cbn [res_bind].
  assert (Hm : eq_str (dgetd d "type" VNone) "message" = eq_str (dgetd d "type" (VStr "")) "message").
  { unfold dgetd. by destruct (dget d "type"). }
  rewrite Hm. clear Hm. destruct (eq_str (dgetd d "type" (VStr "")) "message"); [|done]. cbn [negb].
  destruct (dgetd d "message" (VDict [])) as [| | | | | |m]; try done. cbn [getd res_bind].
  assert (Hr : eq_str (dgetd m "role" VNone) "assistant" = eq_str (dgetd m "role" (VStr "")) "assistant").
  { unfold dgetd. by destruct (dget m "role"). }
  rewrite Hr. clear Hr. destruct (dgetd m "role" (VStr "")) as [| | | |s| |]; try done. cbn [in_set existsb _KEEP_ROLES].
  destruct (eq_str (VStr s) "assistant"); [|done]. rewrite orb_true_l, orb_true_r. done.
Qed.
Lemma texts_filtered epoch lines l d : Forall plain_line lines -> filter_lines lines = Ok (l, d) ->
  let read ls := assistant_texts fromisoformat epoch (map loads (List.filter (fun l => negb (String.eqb l "")) (map strip ls))) in
  read l = read lines.
Proof.
  intros Hp. revert l d. induction Hp as [|raw lines [Hs He] Hp IH]; intros l d; cbn [filter_lines]; [by intros [= <- <-]|].
  destruct (String.eqb_spec raw "") as [->|Hr]; [intros Hf; apply (IH _ _ Hf)|]. cbv zeta in *.
  destruct (loads raw) as [obj|] eqn:Hl.
  - assert (Hne : strip raw <> "") by (intros Hb; by specialize (He Hb)). apply String.eqb_neq in Hne.
    destruct (kept obj) as [[]|] eqn:Hk; [..|done]; cbn [res_bind]; (destruct (filter_lines lines) as [[l' d']|] eqn:Hf; [|done]);
      intros [= <- <-]; specialize (IH l' d' eq_refl); cbn [map List.filter]; rewrite Hne; cbn [negb map assistant_texts]; rewrite Hs; cbn [assistant_texts].
    + by rewrite IH.
    + rewrite (dropped_silent epoch obj Hk). cbn [res_bind]. rewrite IH. clear. by destruct (assistant_texts _ _ _).
  - destruct (filter_lines lines) as [[l' d']|] eqn:Hf; [|done]. intros [= <- <-]. rewrite (IH l' d' eq_refl).
    cbn [map List.filter]. destruct (String.eqb (strip raw) ""); [done|]. cbn [negb map assistant_texts]. by rewrite Hs.
Qed.
End extraction.

(** ** What the strip does to each file *)
Lemma glob_mem d pat t n x : (n, x) ∈ glob d pat t <-> t !! (d, n) = Some x /\ fnmatchcase n pat = true.
Proof.
  unfold glob. rewrite list_elem_of_omap. split.
  - intros ([[p m] y] & Hy & Hc). cbn [fst snd] in Hc. apply elem_of_map_to_list in Hy.
    destruct (String.eqb_spec p d) as [->|]; [|done]. destruct (fnmatchcase m pat) eqn:Hm; [|done]. by simplify_eq/=.
  - intros [Hx Hm]. exists ((d, n), x). split; [by apply elem_of_map_to_list|]. cbn [fst snd]. by rewrite String.eqb_refl, Hm.
Qed.
Definition same_folders (t t' : tree) : Prop := forall k m, t' !! k = Some (Folder m) <-> t !! k = Some (Folder m).
Lemma targets_mem d sid t p : p ∈ targets d sid t <-> p = d \/ exists n m, t !! (d, n) = Some (Folder m) /\ fnmatchcase n ("*_" +:+ sid) = true /\ p = path_of (d, n).
Proof.
  unfold targets. rewrite elem_of_cons, list_elem_of_omap. split; (intros [->|H]; [by left|right]).
  - destruct H as ([n [b m|m]] & [Hx Hm]%glob_mem & Hp); [done|]. exists n, m. by simplify_eq/=.
  - destruct H as (n & m & Hx & Hm & ->). exists (n, Folder m). split; [by apply glob_mem|done].
Qed.
Lemma targets_same d sid t t' p : same_folders t t' -> p ∈ targets d sid t' <-> p ∈ targets d sid t.
Proof. intros Hs. rewrite !targets_mem. by setoid_rewrite (Hs (d, _)). Qed.
Lemma in_advisor_spec ts t k : in_advisor ts t k = true <-> exists q m, t !! q = Some (Folder m) /\ is_advisor ts q = true /\ below q k = true.
Proof.
  unfold in_advisor. rewrite existsb_elem. split.
  - intros ([q x] & Hq%elem_of_map_to_list & [[Ha Hf]%andb_true_iff Hb]%andb_true_iff). destruct x as [|m]; [done|]. by exists q, m.
  - intros (q & m & Hq & Ha & Hb). exists (q, Folder m). split; [by apply elem_of_map_to_list|]. cbn [fst snd is_folder]. by rewrite Ha, Hb.
Qed.
Section same.
Context (d sid : string) (t t' : tree) (Hs : same_folders t t').
Lemma in_targets_same p : bool_decide (p ∈ targets d sid t') = bool_decide (p ∈ targets d sid t).
Proof. apply bool_decide_ext. by apply targets_same. Qed.
Lemma is_advisor_same k : is_advisor (targets d sid t') k = is_advisor (targets d sid t) k.
Proof. unfold is_advisor. by rewrite in_targets_same. Qed.
Lemma goes_same k : goes (targets d sid t') t' k = goes (targets d sid t) t k.
Proof.
  unfold goes. rewrite is_advisor_same. f_equal. apply eq_true_iff_eq. rewrite !in_advisor_spec.
  setoid_rewrite is_advisor_same. by setoid_rewrite (fun k m => Hs k m).
Qed.
Lemma is_long_same h k n : is_long h (targets d sid t') k n = is_long h (targets d sid t) k n.
Proof. unfold is_long. by rewrite in_targets_same. Qed.
End same.
Lemma filter_tree (f : place -> node -> bool) (t : tree) k :
  filter (fun x : place * node => f x.1 x.2 = false) t !! k = match t !! k with Some n => if f k n then None else Some n | None => None end.
Proof.
  destruct (t !! k) as [n|] eqn:Hk.
  - destruct (f k n) eqn:Hf; [apply map_lookup_filter_None_2; right|apply map_lookup_filter_Some_2; [done|done]].
    intros y Hy Hfy. simplify_eq/=. congruence.
  - apply map_lookup_filter_None_2. by left.
Qed.
Lemma deleted_lookup d sid t k : (_delete_bash_original d sid t).2 !! k =
  match t !! k with Some n => if is_original (targets d sid t) k n then None else Some n | None => None end.
Proof. apply (filter_tree (is_original (targets d sid t))). Qed.
Lemma truncated_lookup d sid h now t k : (_truncate_sidecar_logs d sid h now t).2 !! k =
  (fun n => if is_long h (targets d sid t) k n then cut h now n else n) <$> t !! k.
Proof. unfold _truncate_sidecar_logs. cbn [snd]. rewrite map_lookup_imap. by destruct (t !! k). Qed.
Lemma advisors_lookup d sid t k : (_delete_advisor_files d sid t).2 !! k = if goes (targets d sid t) t k then None else t !! k.
Proof.
  unfold _delete_advisor_files. cbn [snd]. rewrite (filter_tree (fun k _ => goes (targets d sid t) t k)). by destruct (t !! k), (goes _ _ _).
Qed.
Lemma deleted_folders d sid t : same_folders t (_delete_bash_original d sid t).2.
Proof.
  intros k m. rewrite deleted_lookup. destruct (t !! k) as [[b x|x]|]; [..|done].
  - by destruct (is_original _ _ _).
  - unfold is_original. cbn [is_folder negb]. by rewrite andb_false_r.
Qed.
Lemma truncated_folders d sid h now t : same_folders t (_truncate_sidecar_logs d sid h now t).2.
Proof.
  intros k m. rewrite truncated_lookup. destruct (t !! k) as [[b x|x]|]; simpl; [..|done].
  - by destruct (is_long _ _ _ _).
  - unfold is_long. by rewrite andb_false_r.
Qed.
(** What the filter makes of the transcript. *)
Definition stripped (dry_run : bool) (now : Z) (n : node) : node :=
  match n with
  | File b _ =>
    match filter_lines (lines_of b) with
    | Ok (l, S _) => if dry_run then n else File (lines_text l) now
    | _ => n
    end
  | Folder _ => n
  end.
Lemma filtered_lookup k dry now t r t' : _filter_session_jsonl k dry now t = (r, t') -> is_ok r = true ->
  (forall k', t' !! k' = if decide (k = k') then stripped dry now <$> t !! k' else t !! k') /\ same_folders t t'.
Proof.
  unfold _filter_session_jsonl. intros Hf Hr.
  assert (Hid : (stripped dry now <$> t !! k = t !! k) -> t' = t ->
    (forall k', t' !! k' = if decide (k = k') then stripped dry now <$> t !! k' else t !! k') /\ same_folders t t').
  { intros Hn ->. split; [|by intros ? ?]. intros k'. case_decide; [by subst|done]. }
  destruct (t !! k) as [[b m|m]|] eqn:Hk; [|by injection Hf as <- <-|by injection Hf as <- <-; apply Hid].
  destruct (utf8_valid b); [|by injection Hf as <- <-]. cbn [negb] in Hf. cbn [fmap option_fmap option_map stripped] in Hid.
  destruct (filter_lines (lines_of b)) as [[l dr]|e] eqn:Hl; [|by injection Hf as <- <-]. cbv zeta in Hf.
  destruct dr as [|dr]; [injection Hf as <- <-; by apply Hid|]. destruct dry; [injection Hf as <- <-; by apply Hid|].
  injection Hf as <- <-. clear Hid. cbn [negb Nat.eqb andb]. split.
  - intros k'. case_decide as He; [subst k'; rewrite lookup_insert_eq, Hk; cbn; by rewrite Hl|by rewrite lookup_insert_ne].
  - intros k' m'. destruct (decide (k = k')) as [<-|He]; [by rewrite lookup_insert_eq, Hk|by rewrite lookup_insert_ne].
Qed.
(** What becomes of the node at a place. *)
Definition outcome (d sid : string) (jsonl : option place) (h now : Z) (dry : bool) (t : tree) (k : place) (n : node) : option node :=
  let ts := targets d sid t in
  if is_original ts k n || goes ts t k then None else
  let n := if is_long h ts k n then cut h now n else n in
  Some (if decide (jsonl = Some k) then stripped dry now n else n).
(** Behind the guard: the original outputs and the files of the advisor are gone, the
    logs are cut, the transcript is filtered, and everything else is as it was. *)
Theorem strip_effect d sid jsonl h now dry g t rep t' : strip_dir d sid jsonl h now dry g t = (Ok rep, t') ->
  forall k, t' !! k = (t !! k ≫= outcome d sid jsonl h now dry t k).
Proof.
  unfold strip_dir. intros Hs k.
  pose proof (deleted_lookup d sid t) as H1. pose proof (deleted_folders d sid t) as F1.
  destruct (_delete_bash_original d sid t) as [removed t1]. cbn [snd] in *.
  pose proof (truncated_lookup d sid h now t1) as H2. pose proof (truncated_folders d sid h now t1) as F2.
  destruct (_truncate_sidecar_logs d sid h now t1) as [long t2]. cbn [snd] in *.
  assert (F12 : same_folders t t2) by (intros q m; by rewrite (F2 q m), (F1 q m)).
  assert (H3 : exists t3, (forall q, t3 !! q = if decide (jsonl = Some q) then stripped dry now <$> t2 !! q else t2 !! q) /\ same_folders t2 t3 /\
    t' = (_delete_advisor_files d sid t3).2).
  { destruct jsonl as [j|].
    - destruct (_filter_session_jsonl j dry now t2) as [[f|e] t3] eqn:Hf; cbn [res_bind] in Hs; [|done].
      destruct (filtered_lookup _ _ _ _ _ _ Hf eq_refl) as [H3 F3]. exists t3. split_and!; [|done|by destruct (_delete_advisor_files d sid t3); simplify_eq/=].
      intros q. rewrite H3. do 2 case_decide; naive_solver.
    - exists t2. split_and!; [|by intros ? ?|by destruct (_delete_advisor_files d sid t2); simplify_eq/=]. intros q. by rewrite decide_False. }
  clear Hs. destruct H3 as (t3 & H3 & F3 & ->). assert (F : same_folders t t3) by (intros q m; by rewrite (F3 q m), (F12 q m)).
  rewrite advisors_lookup, (goes_same d sid t t3 F), H3, H2, H1. unfold outcome. destruct (t !! k) as [n|]; cbn [mbind option_bind].
  - destruct (is_original (targets d sid t) k n); cbn [orb]; [destruct (goes _ _ _); [done|]; by case_decide|].
    destruct (goes (targets d sid t) t k); [done|]. cbn [fmap option_fmap option_map]. rewrite (is_long_same d sid t t1 F1). by case_decide.
  - destruct (goes _ _ _); [done|]. by case_decide.
Qed.
(** A dry run removes and cuts what the real run does; only the transcript is spared. *)
Theorem dry_run_deletes d sid jsonl h now g t r1 t1 r2 t2 k : strip_dir d sid jsonl h now true g t = (Ok r1, t1) ->
  strip_dir d sid jsonl h now false g t = (Ok r2, t2) -> jsonl <> Some k -> t1 !! k = t2 !! k.
Proof.
  intros H1 H2 Hk. rewrite (strip_effect _ _ _ _ _ _ _ _ _ _ H1), (strip_effect _ _ _ _ _ _ _ _ _ _ H2).
  destruct (t !! k) as [n|]; [|done]. cbn [mbind option_bind]. unfold outcome. by rewrite !decide_False.
Qed.
(** C31: The answers of an oracle are found in the stripped transcript as in the whole one,
    whatever the anchor and the number of answers that are wanted. *)
Theorem answers_survive fromisoformat d sid k h now dry g t rep t' bytes m n epoch :
  strip_dir d sid (Some k) h now dry g t = (Ok rep, t') -> t !! k = Some (File bytes m) -> Forall plain_line (lines_of bytes) ->
  is_original (targets d sid t) k (File bytes m) = false -> goes (targets d sid t) t k = false -> is_long h (targets d sid t) k (File bytes m) = false ->
  exists bytes' m', t' !! k = Some (File bytes' m') /\
    _extract_assistant_messages fromisoformat (transcript_of bytes') n epoch = _extract_assistant_messages fromisoformat (transcript_of bytes) n epoch.
Proof.
  intros Hs Hk Hp Ho Hg Hl. rewrite (strip_effect _ _ _ _ _ _ _ _ _ _ Hs k), Hk. cbn [mbind option_bind]. unfold outcome. rewrite Ho, Hg, Hl.
  cbn [orb]. rewrite decide_True by done. cbn [stripped]. destruct (filter_lines (lines_of bytes)) as [[l [|dr]]|e] eqn:Hf; try by exists bytes, m.
  destruct dry; [by exists bytes, m|]. exists (lines_text l), now. split; [done|].
  unfold _extract_assistant_messages, transcript_of. pose proof (texts_filtered fromisoformat epoch _ _ _ Hp Hf) as He. cbv zeta in He.
  rewrite <- He. destruct (filter_keeps _ _ _ Hf) as [Hsub _]. rewrite lines_of_text by (eapply Forall_sublist; [exact Hsub|apply lines_of_ok]).
  rewrite map_app, List.filter_app. cbn [map]. change (List.filter _ [strip ""]) with (@nil string). by rewrite app_nil_r.
Qed.
(** A strip that is refused, or finds no session, changes nothing. *)
Theorem refusal_keeps locate sid h force dry sd now t rep t' e :
  strip_oracle_session locate sid h force dry sd now t = (Ok rep, t') -> re_error rep = Some e -> t' = t /\
  (e = "session_looks_live" -> force = false /\ exists d k, locate sid sd t = Some d /\ _locate_session_jsonl sid d t = Some k /\ _is_session_terminal k t = Ok false).
Proof.
  unfold strip_oracle_session. destruct (String.eqb sid ""); [intros [= <- <-] [= <-]; by split|].
  destruct (locate sid sd t) as [d|] eqn:Hl; [|intros [= <- <-] [= <-]; by split].
  destruct (guard_of _ force t) as [g|] eqn:Hg; [|done]. destruct (String.eqb_spec g "refused") as [->|Hn].
  - intros [= <- <-] [= <-]. split; [done|]. intros _. unfold guard_of in Hg.
    destruct (_locate_session_jsonl sid d t) as [k|] eqn:Hj; [|by destruct force]. destruct force; [done|]. split; [done|].
    destruct (_is_session_terminal k t) as [[]|] eqn:Ht; try done. by exists d, k.
  - unfold strip_dir. destruct (_delete_bash_original d sid t) as [x t1], (_truncate_sidecar_logs d sid h now t1) as [y t2].
    destruct (_locate_session_jsonl sid d t) as [k|]; [destruct (_filter_session_jsonl k dry now t2) as [[f|ex] t3]|]; cbn [res_bind]; try done.
    + destruct (_delete_advisor_files d sid t3). by intros [= <- <-].
    + destruct (_delete_advisor_files d sid t2). by intros [= <- <-].
Qed.

(** ** At work *)
Definition json_line (d : pydict) : string := dumps (fun _ => "0") (VDict d).
Definition head_line : string := json_line [("type", VStr "session"); ("id", VStr "x")].
Definition spoken_line : string :=
  json_line [("type", VStr "message"); ("message", VDict [("role", VStr "assistant"); ("content", VList [VDict [("type", VStr "text"); ("text", VStr "yes")]])])].
Definition exit_line : string := json_line [("type", VStr "custom"); ("customType", VStr "session_exit")].
Definition demo_transcript : string := lines_text [head_line; "no json"; spoken_line; exit_line].
Definition demo_key : place := ("s", "t_x.jsonl").
Definition demo_tree : tree := list_to_map [
  (demo_key, File demo_transcript 50); (("s", "1.bash-original.log"), File "all of it" 40); (("s", "1.bash.log"), File "0123456789" 40);
  (("s", "t_x"), Folder 40); (("s/t_x", "2.eval.log"), File "abcdefgh" 40); (("s/t_x", "notes"), File "abcdefgh" 40);
  (("s", "__advisor"), Folder 40); (("s/__advisor/a", "log"), File "advice" 40)].
Definition here (sid session_dir : string) (t : tree) : option string := Some "s".
Definition strip_demo (force dry : bool) (t : tree) : res report * tree := strip_oracle_session here "x" 4 force dry "" 99 t.
Definition after_strip : tree := list_to_map [
  (demo_key, File (lines_text [head_line; spoken_line]) 99); (("s", "1.bash.log"), File "0123" 99);
  (("s", "t_x"), Folder 40); (("s/t_x", "2.eval.log"), File "abcd" 99); (("s/t_x", "notes"), File "abcdefgh" 40)].
Definition error_of (r : res report) : option string := match r with Ok rep => re_error rep | Raise _ => Some "raised" end.
Lemma ran_ok {A} (m : res A * tree) : is_ok m.1 = true -> exists a, m = (Ok a, m.2).
Proof. destruct m as [[a|e] t]; [by exists a|done]. Qed.
Example strip_runs : (strip_demo false false demo_tree).2 = after_strip /\ error_of (strip_demo false false demo_tree).1 = None.
Proof. split; [apply (bool_decide_unpack _); vm_compute; exact I|vm_compute; reflexivity]. Qed.
(** The line that says that a session has ended is not kept: a second strip, without
    force, takes the session for a live one and is refused. *)
Theorem second_strip_refused : let first := strip_demo false false demo_tree in let second := strip_demo false false first.2 in
  error_of first.1 = None /\ error_of second.1 = Some "session_looks_live".
Proof. split; vm_compute; reflexivity. Qed.
(** The search below the root compares a file with the directory of the one that it
    has found: of two files the older one wins when its directory was changed late. *)
Theorem locate_takes_older :
  let t : tree := list_to_map [(("a", "1_x.jsonl"), File "" 10); (("b", "2_x.jsonl"), File "" 20)] in
  _locate_session_dir "x" "" (fun _ => true) "root" [("a", "1_x.jsonl"); ("b", "2_x.jsonl")] (fun d => if String.eqb d "a" then 30 else 20) t = Some "a".
Proof. vm_compute. reflexivity. Qed.
Lemma filter_idempotent_witness : filter_lines (lines_of (lines_text [head_line; spoken_line])) = Ok ([head_line; spoken_line], 0%nat).
Proof. apply (filter_idempotent demo_transcript [head_line; spoken_line] 2). vm_compute. reflexivity. Defined.
Definition forced (dry : bool) : res report * tree := strip_dir "s" "x" (Some demo_key) 4 99 dry "forced" demo_tree.
Lemma strip_effect_witness : (forced false).2 !! ("s/t_x", "2.eval.log") = Some (File "abcd" 99).
Proof.
  destruct (ran_ok (forced false)) as [rep Hs]; [vm_compute; reflexivity|].
  rewrite (strip_effect "s" "x" (Some demo_key) 4 99 false "forced" demo_tree rep _ Hs). vm_compute. reflexivity.
Defined.
Lemma dry_run_deletes_witness : (forced true).2 !! ("s", "1.bash-original.log") = None /\
  (forced true).2 !! ("s", "1.bash-original.log") = (forced false).2 !! ("s", "1.bash-original.log").
Proof.
  split; [vm_compute; reflexivity|].
  destruct (ran_ok (forced true)) as [r1 H1]; [vm_compute; reflexivity|]. destruct (ran_ok (forced false)) as [r2 H2]; [vm_compute; reflexivity|].
  apply (dry_run_deletes "s" "x" (Some demo_key) 4 99 "forced" demo_tree r1 _ r2 _ _ H1 H2). discriminate.
Defined.
Lemma answers_survive_witness : exists bytes' m', (forced false).2 !! demo_key = Some (File bytes' m') /\
  _extract_assistant_messages (fun _ => None) (transcript_of bytes') 1 0 = Ok ["yes"].
Proof.
  destruct (ran_ok (forced false)) as [rep Hs]; [vm_compute; reflexivity|].
  assert (H0 : _extract_assistant_messages (fun _ => None) (transcript_of demo_transcript) 1 0 = Ok ["yes"]) by (vm_compute; reflexivity).
  rewrite <- H0.
  apply (answers_survive (fun _ => None) "s" "x" demo_key 4 99 false "forced" demo_tree rep _ demo_transcript 50 1 0 Hs).
  - vm_compute. reflexivity.
  - assert (Hl : lines_of demo_transcript = [head_line; "no json"; spoken_line; exit_line; ""]) by (vm_compute; reflexivity). rewrite Hl.
    repeat first [apply Forall_nil_2 | apply Forall_cons_2]; (split; [vm_compute; reflexivity|]); intros Hb; vm_compute in Hb |- *; first [reflexivity|discriminate].
  - vm_compute. reflexivity.
  - vm_compute. reflexivity.
  - vm_compute. reflexivity.
Defined.
Lemma refusal_keeps_witness : (strip_demo false false after_strip).2 = after_strip.
Proof.
  destruct (ran_ok (strip_demo false false after_strip)) as [rep Hs]; [vm_compute; reflexivity|].
  assert (He : error_of (strip_demo false false after_strip).1 = Some "session_looks_live") by (vm_compute; reflexivity).
  rewrite Hs in He. apply (refusal_keeps here "x" 4 false false "" 99 after_strip rep _ "session_looks_live" Hs He).
Defined.
