(* ===== verification/Supervisor.v ===== *)
(** * The supervisor of a runtime
    (src/src/codeagent/runtime/supervisor.py, launchers/tmux.py)

    A pane of tmux runs a supervisor, which reads the specification of a runtime,
    writes its identity, starts the agent and waits for it. What it does to the files
    beside the specification and what it reports to the gateway is a list of effects,
    so that a look at the files may come between any two of them; the launcher's side
    starts the pane, looks at the files and stops the agent. *)
From S2P Require Import Prelude Patterns MailboxProtocol MailboxStore Wire RemoteExec GatewayStores GatewayService GatewayLaws Exchange Routing TranscriptStrip.

(** ** The specification *)
Record RuntimeSpec := {
  sp_runtime_id : string; sp_session : string; sp_agent : string; sp_runtime : string; sp_review : string; sp_generation : Z;
  sp_backend : string; sp_workdir : string; sp_task : string; sp_model : string; sp_profile : list string; sp_socket : string;
  sp_owner_pid : Z; sp_nonce : string; sp_mode : string; sp_host : string; sp_caps : list string; sp_path : string;
  sp_env : list (string * string); sp_session_dir : string }.
Definition to_dict (s : RuntimeSpec) : pydict := [
  ("runtime_id", VStr (sp_runtime_id s)); ("session_id", VStr (sp_session s)); ("agent_id", VStr (sp_agent s));
  ("runtime", VStr (sp_runtime s)); ("review_key", VStr (sp_review s)); ("generation", VInt (sp_generation s));
  ("backend_session_id", VStr (sp_backend s)); ("workdir", VStr (sp_workdir s)); ("task", VStr (sp_task s));
  ("model", VStr (sp_model s)); ("profile_args", VList (map VStr (sp_profile s))); ("gateway_socket", VStr (sp_socket s));
  ("owner_pid", VInt (sp_owner_pid s)); ("nonce", VStr (sp_nonce s)); ("mode", VStr (sp_mode s)); ("host_alias", VStr (sp_host s));
  ("capabilities", VList (map VStr (sp_caps s))); ("spec_path", VStr (sp_path s));
  ("env", VDict (map (fun x => (fst x, VStr (snd x))) (sp_env s))); ("session_dir", VStr (sp_session_dir s))].
(** Fields of the annotated types; [None] for a field of another type, which the
    launcher does not write. *)
Definition text_field (d : pydict) (k dflt : string) : option string :=
  match dget d k with None => Some dflt | Some (VStr s) => Some s | Some _ => None end.
Definition number_field (d : pydict) (k : string) (dflt : Z) : option Z :=
  match dget d k with None => Some dflt | Some (VInt z) => Some z | Some _ => None end.
Fixpoint texts (l : list pyval) : option (list string) :=
  match l with
  | [] => Some []
  | VStr s :: l => (s ::.) <$> texts l
  | _ => None
  end.
Definition list_field (d : pydict) (k : string) : option (list string) :=
  match py_or (dgetd d k (VList [])) (VList []) with VList l => texts l | _ => None end.
Fixpoint text_pairs (d : pydict) : option (list (string * string)) :=
  match d with
  | [] => Some []
  | (k, VStr s) :: d => ((k, s) ::.) <$> text_pairs d
  | _ => None
  end.
Definition from_dict (d : pydict) : option RuntimeSpec :=
  rid ← text_field d "runtime_id" ""; session ← text_field d "session_id" ""; agent ← text_field d "agent_id" "";
  runtime ← text_field d "runtime" "omp"; review ← text_field d "review_key" ""; generation ← number_field d "generation" 1;
  backend ← text_field d "backend_session_id" ""; workdir ← text_field d "workdir" ""; task ← text_field d "task" "";
  model ← text_field d "model" ""; profile ← list_field d "profile_args"; socket ← text_field d "gateway_socket" "";
  owner ← number_field d "owner_pid" 0; nonce ← text_field d "nonce" ""; mode ← text_field d "mode" "interactive_plugin";
  host ← text_field d "host_alias" "__local__"; caps ← list_field d "capabilities"; path ← text_field d "spec_path" "";
  env ← match py_or (dgetd d "env" (VDict [])) (VDict []) with VDict e => text_pairs e | _ => None end;
  session_dir ← text_field d "session_dir" "";
  Some {| sp_runtime_id := rid; sp_session := session; sp_agent := agent; sp_runtime := runtime; sp_review := review;
          sp_generation := generation; sp_backend := backend; sp_workdir := workdir; sp_task := task; sp_model := model;
          sp_profile := profile; sp_socket := socket; sp_owner_pid := owner; sp_nonce := nonce; sp_mode := mode; sp_host := host;
          sp_caps := caps; sp_path := path; sp_env := env; sp_session_dir := session_dir |}.

(** ** The command of the agent *)
Definition option_args (flag value : string) : list string := if String.eqb value "" then [] else [flag; value].
(** [prompt_file]: where the task of a short run is written. *)
Definition _build_agent_argv (prompt_file : string) (s : RuntimeSpec) : res (list string) :=
  if String.eqb (sp_runtime s) "omp" then
    let short := String.eqb (sp_mode s) "short_task" in
    Ok (["omp"] ++ (if short then ["--print"; "--mode"; "json"] else [])
        ++ (if short then [] else option_args "--resume" (sp_backend s))
        ++ option_args "--cwd" (sp_workdir s) ++ option_args "--session-dir" (sp_session_dir s) ++ option_args "--model" (sp_model s)
        ++ sp_profile s ++ (if short then [String "@"%char prompt_file] else []))
  else if String.eqb (sp_runtime s) "opencode" then
    Ok (["opencode"; "run"; "--format"; "json"; "--dir"; first_of (sp_workdir s) "."] ++ option_args "--agent" (sp_agent s)
        ++ option_args "--session" (sp_backend s) ++ option_args "--model" (sp_model s)
        ++ (if String.eqb (sp_task s) "" then [] else [sp_task s]))
  else if String.eqb (sp_runtime s) "generic" then Ok (sp_profile s)
  else Raise (ValueError "unsupported runtime").

(** ** Signs of an exhausted quota *)
Definition is_sep (c : ascii) : bool := Ascii.eqb c "_"%char || Ascii.eqb c " "%char || Ascii.eqb c "-"%char.
(** [re.search("402" between word boundaries)]; a byte of a longer character counts
    as part of a word. *)
Definition word_char (c : ascii) : bool := is_alnum c || Ascii.eqb c "_"%char || between 128 255 c.
Fixpoint has_402 (before : bool) (s : string) : bool :=
  match s with
  | "" => false
  | String c s' =>
    (negb before && String.prefix "402" s && match s' with String _ (String _ (String d _)) => negb (word_char d) | _ => true end)
    || has_402 (word_char c) s'
  end.
(** [a], at most one separator, [b]. *)
Fixpoint joined (a b s : string) : bool :=
  match s with
  | "" => false
  | String _ s' =>
    (String.prefix a s &&
     let r := String.substring (String.length a) (String.length s - String.length a) s in
     (String.prefix b r || match r with String c r' => is_sep c && String.prefix b r' | "" => false end))
    || joined a b s'
  end.
Definition quota_marker (line : string) : bool :=
  let l := lower line in
  joined "insufficient" "quota" l || joined "quota" "exceeded" l || contains "quota exceeded" l || joined "rate" "limit" l
  || contains "payment required" l || has_402 false l || contains "billing" l || contains "quota" l.
Definition _QUOTA_TAIL : nat := Z.to_nat (16 * 1024).
(** [log]: what can be read of the file, [None] without one. *)
Definition _scan_quota_error (log : option string) : string :=
  match log with
  | None => ""
  | Some text =>
    match List.find (fun l => negb (String.eqb l "") && quota_marker l) (map strip (splitlines (tail_bytes _QUOTA_TAIL text))) with
    | Some line => str_take (Z.to_nat 400) line
    | None => ""
    end
  end.

(** ** The identity of the agent *)
Record owner_file := { of_generation : Z; of_owner_pid : Z; of_nonce : string }.
(** [old]: the file of the last supervisor, when there is one that can be read;
    [alive]: whether a process of that number lives. *)
Definition next_owner (s : RuntimeSpec) (old : option owner_file) (alive : Z -> bool) (pid : Z) (uuid uuid' : string) : owner_file :=
  let kept := {| of_generation := sp_generation s; of_owner_pid := pid; of_nonce := first_of (sp_nonce s) uuid |} in
  match old with
  | Some o =>
    if negb (of_owner_pid o =? 0) && negb (of_owner_pid o =? pid) && negb (alive (of_owner_pid o))
    then {| of_generation := of_generation o + 1; of_owner_pid := pid; of_nonce := uuid' |} else kept
  | None => kept
  end.
Definition identity_dict (s : RuntimeSpec) (o : owner_file) : pydict := [
  ("session_id", VStr (sp_session s)); ("agent_id", VStr (sp_agent s)); ("runtime_id", VStr (sp_runtime_id s));
  ("review_key", VStr (sp_review s)); ("generation", VInt (of_generation o)); ("gateway_socket", VStr (sp_socket s));
  ("owner_pid", VInt (of_owner_pid o)); ("nonce", VStr (of_nonce o))].

(** ** The run *)
Inductive effect :=
| Mark (name content : string)
| Reports (kind : string) (payload : pydict)
| Write_identity (o : owner_file)
| Start (argv : list string) (env : gmap string string)
| Write_pid (pid : Z)
| Drop_pid.
(** The machine: paths, the environment, what starting the agent gives, its exit code
    and the log that it leaves. *)
Record machine := {
  ma_now : string; ma_expanduser : string -> string; ma_isdir : string -> bool; ma_prompt : string; ma_env : gmap string string;
  ma_pid : Z; ma_old : option owner_file; ma_alive : Z -> bool; ma_uuid : string; ma_uuid' : string; ma_dir : string;
  ma_popen : list string -> gmap string string -> res Z; ma_code : Z; ma_log : option string }.
Section supervisor.
Context (exn_text : pyexn -> string).
Definition _mark (name content : string) : effect := Mark name content.
Definition setdefault (k v : string) (e : gmap string string) : gmap string string :=
  match e !! k with Some _ => e | None => <[k := v]> e end.
Definition setdefault_if (v k : string) (e : gmap string string) : gmap string string := if String.eqb v "" then e else setdefault k v e.
Definition base_env (s : RuntimeSpec) (e : gmap string string) : gmap string string :=
  let e := foldl (fun e x => <[fst x := snd x]> e) e (sp_env s) in
  let e := setdefault "AIMESHCHAT_RUNTIME_ID" (sp_runtime_id s) e in
  let e := setdefault "AIMESHCHAT_GATEWAY_SOCKET" (sp_socket s) e in
  let e := setdefault_if (sp_review s) "REVIEW_KEY" e in
  let e := setdefault_if (sp_session s) "SWARM_SESSION_ID" (setdefault_if (sp_session s) "OMP_SESSION_ID" e) in
  setdefault_if (sp_agent s) "OMP_WORKER_ID" e.
Definition identity_path (m : machine) : string := ma_dir m +:+ "/identity.json".
Definition identity_env (s : RuntimeSpec) (m : machine) (o : owner_file) (e : gmap string string) : gmap string string :=
  let e := <["OMP_MAILBOX_IDENTITY_FILE" := identity_path m]> e in
  let e := if String.eqb (of_nonce o) "" then e else <["OMP_MAILBOX_NONCE" := of_nonce o]> e in
  let e := <["CODEAGENT_ROLE" := if String.prefix "oracle" (sp_agent s) then "oracle" else "worker"]> e in
  <["AIMESHCHAT_GATEWAY_SOCKET" := sp_socket s]> e.
Definition quota_effects (s : RuntimeSpec) (quota : string) : list effect :=
  if String.eqb quota "" then [] else
  [_mark "QUOTA_ERROR" quota;
   Reports "ERROR" [("error_type", VStr "insufficient_quota"); ("model", VStr (sp_model s)); ("detail", VStr (str_take (Z.to_nat 400) quota));
                    ("degrade_hint", VStr "model quota exhausted")]].
Definition error_report (what : string) : effect := Reports "ERROR" [("error", VStr what)].
Definition ended (s : RuntimeSpec) (m : machine) : list effect :=
  let quota := _scan_quota_error (ma_log m) in
  [Drop_pid; _mark "AGENT_EXITED" (pretty (ma_code m))] ++ quota_effects s quota
  ++ [Reports "RUNTIME_STATE" [("state", VStr "agent_exited"); ("exit_code", VInt (ma_code m)); ("quota_error", VBool (negb (String.eqb quota "")))]].
Definition launched (s : RuntimeSpec) (m : machine) (argv : list string) : list effect * Z :=
  let e := base_env s (ma_env m) in
  let o := next_owner s (ma_old m) (ma_alive m) (ma_pid m) (ma_uuid m) (ma_uuid' m) in
  let own := negb (String.eqb (sp_socket s) "") in
  let e := if own then identity_env s m o e else e in
  let identity := if own then [Write_identity o] else [] in
  match ma_popen m argv e with
  | Raise x => (identity ++ [_mark "AGENT_EXITED" ("spawn_failed:" +:+ exn_text x); error_report (exn_text x)], 1)
  | Ok pid =>
    (identity ++ [Start argv e; Write_pid pid; _mark "AGENT_STARTED" (pretty pid);
       Reports "RUNTIME_STATE" [("state", VStr "agent_started"); ("pid", VInt pid); ("argv", VList (map VStr argv))]] ++ ended s m, ma_code m)
  end.
(** [main], once the specification is read. *)
Definition supervise (s : RuntimeSpec) (m : machine) : list effect * Z :=
  let ready := [_mark "SHELL_READY" (ma_now m)] in
  let wd := ma_expanduser m (sp_workdir s) in
  if negb (String.eqb (sp_workdir s) "") && negb (ma_isdir m wd)
  then (ready ++ [_mark "CWD_VERIFIED" ("missing:" +:+ wd); error_report ("workdir not found: " +:+ wd)], 1) else
  let ready := ready ++ (if String.eqb (sp_workdir s) "" then [] else [_mark "CWD_VERIFIED" wd]) in
  match _build_agent_argv (ma_prompt m) s with
  | Raise x => (ready ++ [_mark "AGENT_EXITED" ("unsupported_runtime:" +:+ exn_text x); error_report (exn_text x)], 1)
  | Ok argv => let '(l, code) := launched s m argv in (ready ++ l, code)
  end.
(** [None]: a specification that is no object, or whose fields have other types. *)
Definition supervisor_main (spec_text : option string) (m : machine) : option (list effect * Z) :=
  match spec_text with
  | None => Some ([], 2)
  | Some text =>
    match loads text with
    | None => Some ([], 2)
    | Some (VDict d) => s ← from_dict d; Some (supervise s m)
    | Some _ => None
    end
  end.
End supervisor.

(** ** The files beside the specification, and a look at them *)
Record run_dir := { rd_marks : gmap string string; rd_pid : option Z; rd_owner : option owner_file }.
Definition apply_effect (d : run_dir) (e : effect) : run_dir :=
  match e with
  | Mark n c => {| rd_marks := <[n := c]> (rd_marks d); rd_pid := rd_pid d; rd_owner := rd_owner d |}
  | Write_pid p => {| rd_marks := rd_marks d; rd_pid := Some p; rd_owner := rd_owner d |}
  | Drop_pid => {| rd_marks := rd_marks d; rd_pid := None; rd_owner := rd_owner d |}
  | Write_identity o => {| rd_marks := rd_marks d; rd_pid := rd_pid d; rd_owner := Some o |}
  | Reports _ _ | Start _ _ => d
  end.
Definition apply_effects (l : list effect) (d : run_dir) : run_dir := foldl apply_effect d l.
Record RuntimeHealth := { he_alive : bool; he_pane : bool; he_pid_alive : bool; he_pid : option Z; he_markers : list (string * string); he_quota : string }.
Definition _MARKERS : list string := ["SHELL_READY"; "CWD_VERIFIED"; "AGENT_STARTED"; "AGENT_EXITED"].
(** [session]: whether tmux has the session of the gateway. *)
Definition probe_runtime (session : bool) (alive : Z -> bool) (d : run_dir) : RuntimeHealth :=
  let live := match rd_pid d with Some p => alive p | None => false end in
  {| he_alive := session && live; he_pane := session; he_pid_alive := live; he_pid := if live then rd_pid d else None;
     he_markers := omap (fun n => (fun c => (n, str_take (Z.to_nat 200) (strip c))) <$> rd_marks d !! n) _MARKERS;
     he_quota := match rd_marks d !! "QUOTA_ERROR" with Some c => str_take (Z.to_nat 400) (strip c) | None => "" end |}.

(** ** The launcher (tmux.py) *)
Definition _first_line (out : string) : string := match splitlines (strip out) with l :: _ => l | [] => "" end.
Definition TMUX_SESSION_NAME : string := "aimeshchat-gateway".
(** Whether tmux is installed, and what a command gives: its code and its output; an
    error or a timeout is code 1. *)
Class Tmux (W : Type) := { tmux_there : W -> bool; tmux_run : list string -> W -> (Z * string) * W }.
Section tmux.
Context `{Tmux W} (socket : string).
Definition tmux_cmd (args : list string) : list string := ["tmux"; "-S"; socket] ++ args.
Definition _tmux (args : list string) : st W (Z * string) := fun w => let '(r, w) := tmux_run (tmux_cmd args) w in (Ok r, w).
Definition ensure_tmux_server : st W bool :=
  there ← gets tmux_there;
  if negb there then mret false else
  has ← _tmux ["has-session"; "-t"; TMUX_SESSION_NAME];
  if fst has =? 0 then mret true else
  made ← _tmux ["new-session"; "-d"; "-s"; TMUX_SESSION_NAME; "-x"; "220"; "-y"; "50"];
  mret (fst made =? 0).
Definition _mark_pane_managed (pane : string) : st W unit :=
  _ ← _tmux ["set-option"; "-t"; pane; "@codeagent_managed"; "1"];
  _ ← _tmux ["set-option"; "-t"; pane; "@codeagent_history_safe"; "1"];
  mret tt.
Definition unavailable (what : string) : pyexn := RuntimeError what.
Definition kill_pane (pane : string) : st W bool := r ← _tmux ["kill-pane"; "-t"; pane]; mret (fst r =? 0).
(** The pane of the supervisor; [command]: its command line, quoted. *)
Definition spawn_runtime (window command : string) : st W string :=
  there ← gets tmux_there;
  _ ← ensure there (unavailable "tmux binary not found");
  up ← ensure_tmux_server;
  _ ← ensure up (unavailable "cannot start private tmux server");
  r ← _tmux ["new-window"; "-t"; TMUX_SESSION_NAME +:+ ":"; "-n"; window; "-P"; "-F"; "#{pane_id}"];
  _ ← ensure (fst r =? 0) (unavailable "tmux new-window failed");
  let pane := _first_line (snd r) in
  _ ← ensure (negb (String.eqb pane "")) (unavailable "tmux new-window returned no pane id");
  _ ← _mark_pane_managed pane;
  _ ← _tmux ["send-keys"; "-t"; pane; " setopt HIST_IGNORE_SPACE"; "Enter"];
  sent ← _tmux ["send-keys"; "-t"; pane; String " "%char command; "Enter"];
  if fst sent =? 0 then mret pane else
  _ ← kill_pane pane; raise (unavailable "tmux send-keys failed").
End tmux.
(** The signals of a stop: [term], whether SIGTERM finds the process; [left], whether
    it lives behind the grace period. *)
Definition stop_signals (pid : option Z) (term left : bool) : list (Z * Z) :=
  match pid with
  | Some p => if term then (p, 15) :: (if left then [(p, 9)] else []) else [(p, 15)]
  | None => []
  end.
Definition stop_runtime `{Tmux W} (socket pane : string) (d : run_dir) (term left : bool) : st W (list (Z * Z) * bool) :=
  _ ← kill_pane socket pane; mret (stop_signals (rd_pid d) term left, true).

(** ** The specification is read back *)
Lemma texts_back l : texts (map VStr l) = Some l.
Proof. induction l as [|s l IH]; [done|]. simpl. by rewrite IH. Qed.
Lemma text_pairs_back l : text_pairs (map (fun x => (fst x, VStr (snd x))) l) = Some l.
Proof. induction l as [|[k v] l IH]; [done|]. simpl. by rewrite IH. Qed.
Lemma list_back l d k : dget d k = Some (VList (map VStr l)) -> list_field d k = Some l.
Proof.
  intros Hd. unfold list_field, dgetd. rewrite Hd. simpl. destruct l as [|s l]; [done|]. exact (texts_back (s :: l)).
Qed.
(** The specification that the launcher writes is the one that the supervisor reads. *)
Theorem spec_roundtrip s : from_dict (to_dict s) = Some s.
Proof.
  unfold from_dict. rewrite (list_back (sp_profile s) _ "profile_args"), (list_back (sp_caps s) _ "capabilities") by done.
  assert (He : match py_or (dgetd (to_dict s) "env" (VDict [])) (VDict []) with VDict e => text_pairs e | _ => None end = Some (sp_env s)).
  { unfold dgetd. cbn [dget to_dict String.eqb Ascii.eqb Bool.eqb]. destruct (sp_env s) as [|x l]; [done|]. exact (text_pairs_back (x :: l)). }
  rewrite He. by destruct s.
Qed.

(** ** Restarts *)
(** The owners of the supervisors of one specification, one after the other; [uuid n]:
    what the [n]-th of them draws. *)
Fixpoint owners (s : RuntimeSpec) (alive : Z -> bool) (uuid : nat -> string) (old : option owner_file) (pids : list Z) : list owner_file :=
  match pids with
  | [] => []
  | p :: pids => let o := next_owner s old alive p (uuid (length pids)) (uuid (length pids)) in o :: owners s alive uuid (Some o) pids
  end.
(** A generation has one owner: while no supervisor finds a process under the number
    of the last one, every restart takes the next generation. *)
Theorem generations_grow s alive uuid pids : (forall p, p ∈ pids -> p <> 0 /\ alive p = false) -> NoDup pids ->
  map of_generation (owners s alive uuid None pids) = map (fun n => sp_generation s + Z.of_nat n) (seq 0 (length pids)).
Proof.
  intros Hp Hn. destruct pids as [|p pids]; [done|]. cbn [owners map length seq next_owner of_generation]. rewrite Z.add_0_r. f_equal.
  set (o := {| of_generation := sp_generation s; of_owner_pid := p; of_nonce := _ |}).
  assert (Hg : of_generation o = sp_generation s + Z.of_nat 0) by (simpl; lia). assert (Ho : of_owner_pid o = p) by done. clearbody o.
  revert o p Hp Hn Hg Ho. generalize 0%nat as n. induction pids as [|q pids IH]; intros n o p Hp Hn Hg Ho; [done|].
  cbn [owners map length seq]. destruct (Hp p) as [Hp0 Hpa]; [by left|]. apply NoDup_cons in Hn as [Hpq Hn].
  assert (Hx : of_generation (next_owner s (Some o) alive q (uuid (length pids)) (uuid (length pids))) = sp_generation s + Z.of_nat (S n) /\
               of_owner_pid (next_owner s (Some o) alive q (uuid (length pids)) (uuid (length pids))) = q).
  { unfold next_owner. rewrite Ho, Hpa. rewrite (proj2 (Z.eqb_neq p 0)) by done. rewrite (proj2 (Z.eqb_neq p q)) by (intros ->; set_solver). cbn. split; [lia|done]. }
  destruct Hx as [Hx Hy]. f_equal; [done|]. apply (IH (S n) _ q); try done. intros r Hr. apply Hp. by right.
Qed.
(** The registration of the agent's plugin, which reads the identity. *)
Definition registration (s : RuntimeSpec) (o : owner_file) (backend kind : string) (caps : list string) : register_params := {|
  rp_session := sp_session s; rp_agent := sp_agent s; rp_runtime := sp_runtime_id s; rp_generation := of_generation o;
  rp_review := sp_review s; rp_backend := backend; rp_kind := kind; rp_owner_pid := of_owner_pid o; rp_nonce := of_nonce o; rp_caps := caps |}.
(** The record that the gateway has of a registration. *)
Definition registered_by (s : RuntimeSpec) (o : owner_file) (r : RuntimeRecord) : Prop :=
  id_generation (rr_id r) = of_generation o /\ id_owner_pid (rr_id r) = of_owner_pid o /\ id_nonce (rr_id r) = of_nonce o.
Section gateway.
Context {W : Type} (backend kind : string) (caps : list string).
Implicit Types g : gateway * W.
(** The session of the specification is there, with the agent in its roster. *)
Definition admitted_to (s : RuntimeSpec) g : Prop :=
  negb (String.eqb (sp_session s) "" || String.eqb (sp_agent s) "" || String.eqb (sp_runtime_id s) "") = true /\
  validate_agent_id (sp_session s) = Ok tt /\
  exists m, meta (default empty_session (g_mail g.1 !! sp_session s)) = Some m /\ sp_agent s ∈ roster m.
Lemma checks_admitted s o g r : admitted_to s g -> dget (g_runtimes g.1) (sp_runtime_id s) = Some r ->
  (register_checks (registration s o backend kind caps) g).1 =
    if negb (id_generation (rr_id r) <=? of_generation o) then Raise (GatewayError "GENERATION_STALE")
    else if other_owner (registration s o backend kind caps) (rr_id r) then Raise (GatewayError "OWNER_MISMATCH") else Ok (Some r).
Proof.
  intros (Hn & Hv & m & Hm & Hr) Hd. unfold register_checks. rewrite st_bind_unfold. unfold ensure at 1.
  cbn [registration rp_session rp_agent rp_runtime rp_generation]. rewrite Hn.
  rewrite st_bind_unfold. unfold look, on_gw, gets. cbn [fst snd]. rewrite Hd. rewrite !st_bind_unfold. unfold ensure.
  destruct (id_generation (rr_id r) <=? of_generation o); cbn [negb]; [|done].
  destruct (other_owner _ _); cbn [negb]; [done|]. rewrite st_bind_unfold. unfold read_meta. rewrite st_bind_unfold. unfold on_gw, lift. rewrite Hv.
  unfold look, on_gw, gets. cbn [fst snd]. rewrite Hm. by rewrite bool_decide_eq_true_2.
Qed.
(** C38: After the end of a supervisor the next one is admitted in its place, whatever
    generation and nonce the specification names, if it can read the identity file
    that the last one left, which names a process number other than its own that it
    finds dead, and if the session has the agent on its roster and the gateway has
    the record of the last one.  When the number was taken by another process, or
    the file is gone, the gateway refuses it ([reused_number_refused]). *)
Theorem restart_accepted s old alive pid uuid uuid' g r : admitted_to s g -> dget (g_runtimes g.1) (sp_runtime_id s) = Some r ->
  registered_by s old r -> of_owner_pid old <> 0 -> of_owner_pid old <> pid -> alive (of_owner_pid old) = false ->
  (register_checks (registration s (next_owner s (Some old) alive pid uuid uuid') backend kind caps) g).1 = Ok (Some r).
Proof.
  intros Ha Hd (Hg & _ & _) H0 Hp Hl. rewrite (checks_admitted s _ g r Ha Hd). unfold next_owner.
  rewrite (proj2 (Z.eqb_neq _ _) H0), (proj2 (Z.eqb_neq _ _) Hp), Hl. cbn [negb andb of_generation]. rewrite Hg.
  rewrite (proj2 (Z.leb_le _ _)) by lia. cbn [negb]. unfold other_owner. cbn [rp_generation registration of_generation]. rewrite Hg.
  by rewrite (proj2 (Z.eqb_neq _ _)) by lia.
Qed.
(** When any process has taken the number of the last supervisor, or the identity is
    gone, the next supervisor keeps the generation and the gateway refuses its agent:
    the runtime cannot come back under this specification. *)
Theorem reused_number_refused s old file alive pid uuid uuid' g r : admitted_to s g -> dget (g_runtimes g.1) (sp_runtime_id s) = Some r ->
  registered_by s old r -> of_generation old = sp_generation s -> of_owner_pid old <> 0 -> of_owner_pid old <> pid ->
  file = None \/ (file = Some old /\ alive (of_owner_pid old) = true) ->
  (register_checks (registration s (next_owner s file alive pid uuid uuid') backend kind caps) g).1 = Raise (GatewayError "OWNER_MISMATCH").
Proof.
  intros Ha Hd (Hg & Ho & Hn) Hs H0 Hp Hf. rewrite (checks_admitted s _ g r Ha Hd).
  assert (Hx : next_owner s file alive pid uuid uuid' = {| of_generation := sp_generation s; of_owner_pid := pid; of_nonce := first_of (sp_nonce s) uuid |}).
  { unfold next_owner. destruct Hf as [->|[-> Hl]]; [done|]. by rewrite Hl, andb_false_r. }
  rewrite Hx. cbn [of_generation]. rewrite Hg, Hs, Z.leb_refl. cbn [negb]. unfold other_owner. cbn [registration rp_generation of_generation rp_owner_pid of_owner_pid].
  rewrite Hg, Hs, Z.eqb_refl, Ho. rewrite (proj2 (Z.eqb_neq _ _) H0), (proj2 (Z.eqb_neq _ _) Hp). done.
Qed.
End gateway.

(** ** What a look at the files tells *)
(** No supervisor has run beside this specification. *)
Definition fresh (d : run_dir) : Prop := rd_marks d = ∅ /\ rd_pid d = None.
Definition exited (d : run_dir) : Prop := is_Some (rd_marks d !! "AGENT_EXITED").
(** Before the agent, while it runs under a number, and behind it. *)
Inductive phase := Before | Running (pid : Z) | Over.
Definition phase_step (ph : phase) (e : effect) : option phase :=
  match e, ph with
  | Write_pid p, Before => Some (Running p)
  | Drop_pid, Running _ => Some Over
  | Mark n _, Running _ => if String.eqb n "AGENT_EXITED" then None else Some ph
  | Mark n _, Before => Some (if String.eqb n "AGENT_EXITED" then Over else Before)
  | Write_pid _, _ | Drop_pid, _ => None
  | _, _ => Some ph
  end.
Fixpoint phase_run (ph : phase) (l : list effect) : option phase :=
  match l with
  | [] => Some ph
  | e :: l => ph ← phase_step ph e; phase_run ph l
  end.
Definition in_phase (ph : phase) (d : run_dir) : Prop :=
  match ph with
  | Before => rd_pid d = None /\ ~ exited d
  | Running p => rd_pid d = Some p /\ ~ exited d
  | Over => rd_pid d = None
  end.
Lemma phase_run_app ph l1 l2 : phase_run ph (l1 ++ l2) = (phase_run ph l1 ≫= fun ph => phase_run ph l2).
Proof. revert ph. induction l1 as [|e l1 IH]; intros ph; [done|]. simpl. destruct (phase_step ph e) as [ph'|]; [apply IH|done]. Qed.
Lemma step_in_phase ph ph' e d : phase_step ph e = Some ph' -> in_phase ph d -> in_phase ph' (apply_effect d e).
Proof.
  intros Hs Hd. destruct e as [n c|k p|o|a v|p|], ph as [|q|]; simpl in Hs; try done; try (injection Hs as <-; exact Hd); try (by injection Hs as <-).
  - unfold in_phase, exited in *. cbn [apply_effect rd_pid rd_marks]. destruct (String.eqb_spec n "AGENT_EXITED") as [->|Hn]; injection Hs as <-; [by destruct Hd|].
    by rewrite lookup_insert_ne.
  - unfold in_phase, exited in *. cbn [apply_effect rd_pid rd_marks]. destruct (String.eqb_spec n "AGENT_EXITED") as [->|Hn]; [done|]. injection Hs as <-.
    by rewrite lookup_insert_ne.
  - injection Hs as <-. destruct Hd as [_ He]. by split.
Qed.
Lemma run_in_phase ph ph' l d : phase_run ph l = Some ph' -> in_phase ph d -> in_phase ph' (apply_effects l d).
Proof.
  revert ph d. induction l as [|e l IH]; intros ph d; [by intros [= ->]|]. simpl. destruct (phase_step ph e) as [ph1|] eqn:Hs; [|done].
  intros Hr Hd. eapply IH; [exact Hr|]. by eapply step_in_phase.
Qed.
Lemma quota_over s q : phase_run Over (quota_effects s q) = Some Over.
Proof. unfold quota_effects. by destruct (String.eqb q ""). Qed.
Lemma launched_phases exn_text s m argv : phase_run Before (launched exn_text s m argv).1 = Some Over.
Proof.
  unfold launched. destruct (ma_popen m argv _) as [pid|x]; cbn [fst].
  - unfold ended. rewrite !phase_run_app. assert (Hi : phase_run Before (if negb (String.eqb (sp_socket s) "") then
      [Write_identity (next_owner s (ma_old m) (ma_alive m) (ma_pid m) (ma_uuid m) (ma_uuid' m))] else []) = Some Before) by by destruct (negb _).
    rewrite Hi. cbn -[quota_effects]. by rewrite phase_run_app, quota_over.
  - by destruct (negb (String.eqb (sp_socket s) "")).
Qed.
Lemma supervise_phases exn_text s m : exists ph, phase_run Before (supervise exn_text s m).1 = Some ph /\
  (ph = Over \/ ph = Before /\ sp_workdir s <> "" /\ ma_isdir m (ma_expanduser m (sp_workdir s)) = false).
Proof.
  unfold supervise. cbv zeta. destruct (String.eqb_spec (sp_workdir s) "") as [Hw|Hw]; cbn [negb andb].
  - exists Over. split; [|by left]. destruct (_build_agent_argv (ma_prompt m) s) as [argv|x]; [|done].
    pose proof (launched_phases exn_text s m argv) as Hl. destruct (launched exn_text s m argv) as [l code]. exact Hl.
  - destruct (ma_isdir m _) eqn:Hd; cbn [negb]; [|exists Before; split; [done|right; done]]. exists Over. split; [|by left].
    destruct (_build_agent_argv (ma_prompt m) s) as [argv|x]; [|done].
    pose proof (launched_phases exn_text s m argv) as Hl. destruct (launched exn_text s m argv) as [l code]. exact Hl.
Qed.
(** Wherever the launcher looks during a run: an agent that it finds alive has not
    been marked as ended, and behind the run there is no number, so that the runtime
    is not taken for alive; without a mark of the end the directory was missing. *)
Theorem probe_tells exn_text s m seen rest d session alive : fresh d -> (supervise exn_text s m).1 = seen ++ rest ->
  let dir := apply_effects seen d in
  (he_alive (probe_runtime session alive dir) = true -> ~ exited dir /\ exists pid, rd_pid dir = Some pid /\ alive pid = true) /\
  (rest = [] -> he_alive (probe_runtime session alive dir) = false).
Proof.
  intros [Hm Hp] Hl dir. destruct (supervise_phases exn_text s m) as (ph & Hr & Hph). rewrite Hl, phase_run_app in Hr.
  destruct (phase_run Before seen) as [ph1|] eqn:Hs; [|done].
  assert (Hd : in_phase ph1 dir). { eapply run_in_phase; [exact Hs|]. split; [done|]. unfold exited. rewrite Hm. by intros []. }
  unfold probe_runtime. cbn [he_alive]. split.
  - intros [_ Ha]%andb_true_iff. destruct ph1 as [|q|]; cbn in Hd.
    + destruct Hd as [Hd _]. by rewrite Hd in Ha.
    + destruct Hd as [Hd He]. rewrite Hd in Ha. split; [done|]. by exists q.
    + by rewrite Hd in Ha.
  - intros ->. simpl in Hr. injection Hr as ->. assert (Hn : rd_pid dir = None) by (destruct Hph as [->|[-> _]]; [exact Hd|apply Hd]).
    rewrite Hn. by rewrite andb_false_r.
Qed.
(** The marks of an earlier run stay: an agent that has been started again is alive
    and marked as ended, and an exhausted quota is told of every later run. *)
Lemma marks_kept n l d : Forall (fun e => forall c, e <> Mark n c) l -> rd_marks (apply_effects l d) !! n = rd_marks d !! n.
Proof.
  intros Hl. revert d. induction Hl as [|e l He _ IH]; intros d; [done|]. cbn [apply_effects foldl]. etrans; [apply IH|].
  destruct e as [k c| | | | |]; try done. cbn. rewrite lookup_insert_ne; [done|]. intros ->. by apply (He c).
Qed.
Lemma exited_stays l d : exited d -> exited (apply_effects l d).
Proof.
  revert d. induction l as [|e l IH]; intros d Hd; [done|]. apply IH. unfold exited in *. destruct e as [k c| | | | |]; try done.
  cbn. destruct (decide (k = "AGENT_EXITED")) as [->|Hk]; [by rewrite lookup_insert_eq|by rewrite lookup_insert_ne].
Qed.
Lemma no_quota_mark exn_text s m : _scan_quota_error (ma_log m) = "" -> Forall (fun e => forall c, e <> Mark "QUOTA_ERROR" c) (supervise exn_text s m).1.
Proof.
  intros Hq. assert (Hl : forall argv, Forall (fun e => forall c, e <> Mark "QUOTA_ERROR" c) (launched exn_text s m argv).1).
  { intros argv. unfold launched. destruct (ma_popen m argv _); cbn [fst]; (apply Forall_app; split; [by destruct (negb _); repeat constructor|]).
    - unfold ended. rewrite Hq. by repeat constructor.
    - by repeat constructor. }
  unfold supervise. cbv zeta. destruct (_ && _); [by repeat constructor|].
  destruct (_build_agent_argv (ma_prompt m) s) as [argv|x]; [specialize (Hl argv); destruct (launched exn_text s m argv) as [l c]|]; cbn [fst];
    (destruct (String.eqb (sp_workdir s) ""); [|]); repeat (constructor; [done|]); done.
Qed.
Theorem old_marks_stay exn_text s m seen rest d session alive q : (supervise exn_text s m).1 = seen ++ rest -> exited d ->
  rd_marks d !! "QUOTA_ERROR" = Some q -> _scan_quota_error (ma_log m) = "" ->
  exited (apply_effects seen d) /\ he_quota (probe_runtime session alive (apply_effects seen d)) = str_take (Z.to_nat 400) (strip q).
Proof.
  intros Hl He Hq Hn. split; [by apply exited_stays|]. apply (no_quota_mark exn_text s) in Hn. rewrite Hl in Hn. apply Forall_app in Hn as [Hn _].
  unfold probe_runtime. cbn [he_quota]. by rewrite (marks_kept _ _ _ Hn), Hq.
Qed.

(** ** What counts as an exhausted quota *)
Lemma substring_whole s : String.substring 0 (String.length s) s = s.
Proof. induction s as [|c s IH]; [done|]. cbn [String.length String.substring]. by rewrite IH. Qed.
Lemma contains_rest sub n s : contains sub (String.substring n (String.length s - n) s) = true -> contains sub s = true.
Proof.
  revert n. induction s as [|c s IH]; intros n; [by destruct n|]. destruct n as [|n].
  - rewrite Nat.sub_0_r. by rewrite substring_whole.
  - intros H. apply IH in H. cbn [contains]. by rewrite H, orb_true_r.
Qed.
Lemma joined_contains_l a b s : joined a b s = true -> contains a s = true.
Proof.
  induction s as [|c s IH]; [done|]. cbn [joined contains]. intros [[Ha _]%andb_true_iff|H%IH]%orb_true_iff; [by rewrite Ha|by rewrite H, orb_true_r].
Qed.
Lemma prefix_contains a s : String.prefix a s = true -> contains a s = true.
Proof. intros H. destruct s; cbn [contains]; by rewrite H. Qed.
Lemma joined_contains_r a b s : joined a b s = true -> contains b s = true.
Proof.
  induction s as [|c s IH]; [done|]. cbn [joined]. intros [[_ Hb]%andb_true_iff|H%IH]%orb_true_iff; [|cbn [contains]; by rewrite H, orb_true_r].
  apply (contains_rest b (String.length a)). cbv zeta in Hb. apply orb_true_iff in Hb as [Hb|Hb]; [by apply prefix_contains|].
  destruct (String.substring _ _ _) as [|d r]; [done|]. apply andb_true_iff in Hb as [_ Hb%prefix_contains]. cbn [contains]. by rewrite Hb, orb_true_r.
Qed.
Lemma contains_prefix a b s : contains (a +:+ b) s = true -> contains a s = true.
Proof.
  assert (Hp : forall a s, String.prefix (a +:+ b) s = true -> String.prefix a s = true).
  { intros x. induction x as [|c x IH]; intros t; [by destruct t|]. destruct t as [|d t]; [done|]. rewrite string_app_cons. cbn [String.prefix].
    destruct (Ascii.ascii_dec c d); [apply IH|done]. }
  induction s as [|c s IH]; cbn [contains]; intros [H|H]%orb_true_iff; try done; apply orb_true_iff; [left|left|right]; auto.
Qed.
(** A line tells of an exhausted quota when it has one of five words. *)
Theorem quota_marker_spec line : let l := lower line in
  quota_marker line = contains "quota" l || contains "billing" l || contains "payment required" l || joined "rate" "limit" l || has_402 false l.
Proof.
  cbv zeta. unfold quota_marker. set (l := lower line). destruct (contains "quota" l) eqn:Hq.
  - rewrite !orb_true_r. done.
  - assert (H1 : joined "insufficient" "quota" l = false) by (apply not_true_is_false; intros H%joined_contains_r; congruence).
    assert (H2 : joined "quota" "exceeded" l = false) by (apply not_true_is_false; intros H%joined_contains_l; congruence).
    assert (H3 : contains "quota exceeded" l = false) by (apply not_true_is_false; intros H%(contains_prefix "quota" " exceeded"); congruence).
    rewrite H1, H2, H3. cbn [orb]. rewrite orb_false_r.
    by destruct (joined "rate" "limit" l), (contains "payment required" l), (has_402 false l), (contains "billing" l).
Qed.
(** A run is reported as out of quota when a line at the end of its log has one of the
    words, also of an earlier run, and whatever the exit code. *)
Theorem quota_reported exn_text s m argv env : Start argv env ∈ (supervise exn_text s m).1 ->
  ((exists q, Mark "QUOTA_ERROR" q ∈ (supervise exn_text s m).1) <->
   exists text line, ma_log m = Some text /\ line ∈ map strip (splitlines (tail_bytes _QUOTA_TAIL text)) /\ line <> "" /\ quota_marker line = true).
Proof.
  intros Hs.
  assert (Hscan : _scan_quota_error (ma_log m) <> "" <->
    exists text line, ma_log m = Some text /\ line ∈ map strip (splitlines (tail_bytes _QUOTA_TAIL text)) /\ line <> "" /\ quota_marker line = true).
  { unfold _scan_quota_error. destruct (ma_log m) as [text|]; [|naive_solver].
    destruct (List.find _ _) as [line|] eqn:Hf.
    - apply find_some in Hf as [Hi%list_elem_of_In [Hn%negb_true_iff Hq]%andb_true_iff]. apply String.eqb_neq in Hn.
      split; [intros _; by exists text, line|]. intros _. destruct line as [|c line]; [done|]. cbn [str_take]. by destruct (is_cont c).
    - split; [done|]. intros (x & line & [= <-] & Hi & Hn & Hq). apply list_elem_of_In in Hi. apply (find_none _ _ Hf) in Hi.
      apply String.eqb_neq in Hn. rewrite Hn, Hq in Hi. done. }
  rewrite <- Hscan. split.
  - intros [q Hq] Hn. apply (no_quota_mark exn_text s) in Hn. rewrite Forall_forall in Hn. by apply (Hn _ Hq q).
  - intros Hn. exists (_scan_quota_error (ma_log m)). revert Hs. unfold supervise. cbv zeta.
    destruct (_ && _); [intros Hs; repeat (apply elem_of_cons in Hs as [?|Hs]; [done|]); by apply elem_of_nil in Hs|].
    destruct (_build_agent_argv (ma_prompt m) s) as [av|x]; [|cbn [fst]; intros [Hs|Hs]%elem_of_app;
      [destruct (String.eqb (sp_workdir s) "")|]; repeat (apply elem_of_cons in Hs as [?|Hs]; [done|]); by apply elem_of_nil in Hs].
    pose proof (eq_refl (launched exn_text s m av)) as Hl. revert Hl. generalize (launched exn_text s m av) at 2 3 4. intros [l c] Hl. cbn [fst].
    intros [Hs|Hs]%elem_of_app; apply elem_of_app; [left|right].
    { exfalso. destruct (String.eqb (sp_workdir s) ""); repeat (apply elem_of_cons in Hs as [?|Hs]; [done|]); by apply elem_of_nil in Hs. }
    revert Hl. unfold launched. destruct (ma_popen m av _) as [pid|x]; intros [= <- <-].
    + apply elem_of_app. right. do 4 right. unfold ended. apply elem_of_app. right. apply elem_of_app. left. unfold quota_effects.
      apply String.eqb_neq in Hn. rewrite Hn. by left.
    + exfalso. apply elem_of_app in Hs as [Hs|Hs]; [destruct (negb _)|]; repeat (apply elem_of_cons in Hs as [?|Hs]; [done|]); by apply elem_of_nil in Hs.
Qed.

(** ** The environment of the agent *)
Lemma setdefault_keeps k k' v w (e : gmap string string) : e !! k = Some w -> setdefault k' v e !! k = Some w.
Proof.
  intros He. unfold setdefault. destruct (e !! k') eqn:Hk; [done|]. destruct (decide (k' = k)) as [->|Hn]; [congruence|by rewrite lookup_insert_ne].
Qed.
Lemma setdefault_if_keeps k k' v w (e : gmap string string) : e !! k = Some w -> setdefault_if v k' e !! k = Some w.
Proof. intros He. unfold setdefault_if. destruct (String.eqb v ""); [done|by apply setdefault_keeps]. Qed.
Lemma env_overrides k w (l : list (string * string)) (e : gmap string string) : e !! k = Some w -> k ∉ l.*1 ->
  foldl (fun e x => <[fst x := snd x]> e) e l !! k = Some w.
Proof.
  revert e. induction l as [|[k' v] l IH]; intros e He Hk; [done|]. apply not_elem_of_cons in Hk as [Hk Hl]. apply IH; [|done]. cbn. by rewrite lookup_insert_ne.
Qed.
(** What the supervisor inherits wins over the specification: an identity that the
    server of tmux was started with is the identity of every agent. *)
Theorem inherited_wins s m o k w : ma_env m !! k = Some w -> k ∉ (sp_env s).*1 ->
  k ∈ ["AIMESHCHAT_RUNTIME_ID"; "REVIEW_KEY"; "OMP_SESSION_ID"; "SWARM_SESSION_ID"; "OMP_WORKER_ID"] ->
  identity_env s m o (base_env s (ma_env m)) !! k = Some w.
Proof.
  intros He Hk Hi.
  assert (Hb : base_env s (ma_env m) !! k = Some w).
  { unfold base_env. cbv zeta. repeat first [apply setdefault_if_keeps | apply setdefault_keeps]. by apply env_overrides. }
  assert (Hne : k <> "OMP_MAILBOX_IDENTITY_FILE" /\ k <> "OMP_MAILBOX_NONCE" /\ k <> "CODEAGENT_ROLE" /\ k <> "AIMESHCHAT_GATEWAY_SOCKET").
  { clear -Hi. split_and!; intros ->; revert Hi; apply (bool_decide_unpack _); vm_compute; exact I. }
  destruct Hne as (H1 & H2 & H3 & H4). unfold identity_env. cbv zeta. do 2 (rewrite lookup_insert_ne by done).
  destruct (String.eqb (of_nonce o) ""); [|rewrite lookup_insert_ne by done]; by rewrite lookup_insert_ne.
Qed.

(** ** The pane *)
(** A pane whose supervisor could not be started is killed. *)
Theorem spawn_cleans W `{Tmux W} socket window command w :
  match spawn_runtime socket window command w with
  | (Ok pane, w') => pane <> "" /\ exists w1 out, tmux_run (tmux_cmd socket ["send-keys"; "-t"; pane; String " "%char command; "Enter"]) w1 = ((0, out), w')
  | (Raise e, w') => e = unavailable "tmux send-keys failed" -> exists pane w1, w' = snd (tmux_run (tmux_cmd socket ["kill-pane"; "-t"; pane]) w1)
  end.
Proof.
  unfold spawn_runtime. rewrite st_bind_unfold. unfold gets. rewrite st_bind_unfold. unfold ensure.
  destruct (tmux_there w); [|done]. rewrite st_bind_unfold.
  destruct (ensure_tmux_server socket w) as [[[]|e] w1] eqn:Hup.
  2: { by rewrite st_bind_unfold. }
  2: { intros ->. exfalso. revert Hup. unfold ensure_tmux_server. rewrite st_bind_unfold. unfold gets. destruct (tmux_there w); cbn [negb]; [|done].
       rewrite st_bind_unfold. unfold _tmux at 1. destruct (tmux_run _ w) as [[c o] w2]. cbn [fst]. destruct (c =? 0); [done|].
       rewrite st_bind_unfold. unfold _tmux. by destruct (tmux_run _ w2) as [[c2 o2] w3]. }
  rewrite st_bind_unfold. rewrite st_bind_unfold. unfold _tmux at 1. destruct (tmux_run _ w1) as [[c o] w2]. cbn [fst snd].
  rewrite st_bind_unfold. destruct (c =? 0); [|done]. rewrite st_bind_unfold.
  destruct (String.eqb_spec (_first_line o) "") as [|Hp]; cbn [negb]; [done|].
  set (pane := _first_line o) in *. clearbody pane. rewrite st_bind_unfold. unfold _mark_pane_managed. rewrite !st_bind_unfold.
  unfold _tmux. destruct (tmux_run _ w2) as [x2 w3]. rewrite st_bind_unfold. destruct (tmux_run _ w3) as [x3 w4]. cbn. rewrite st_bind_unfold.
  destruct (tmux_run _ w4) as [x4 w5]. rewrite st_bind_unfold. destruct (tmux_run _ w5) as [[c5 o5] w6] eqn:H5. cbn [fst].
  destruct (Z.eqb_spec c5 0) as [->|Hc].
  - split; [done|]. by exists w5, o5.
  - rewrite st_bind_unfold. unfold kill_pane, _tmux. rewrite st_bind_unfold. destruct (tmux_run _ w6) as [x7 w7] eqn:H7. cbn. intros _.
    exists pane, w6. exact (eq_sym (f_equal snd H7)).
Qed.

(** ** At work *)
Definition demo_spec : RuntimeSpec := {|
  sp_runtime_id := "rt1"; sp_session := "s1"; sp_agent := "w1"; sp_runtime := "omp"; sp_review := ""; sp_generation := 1;
  sp_backend := "b1"; sp_workdir := "/w"; sp_task := ""; sp_model := ""; sp_profile := []; sp_socket := "/run/gw.sock"; sp_owner_pid := 0;
  sp_nonce := "n1"; sp_mode := "interactive_plugin"; sp_host := "__local__"; sp_caps := []; sp_path := "/d/spec.json"; sp_env := [];
  sp_session_dir := "" |}.
Definition demo_log : string := "editing quota.py" +:+ NL.
Definition demo_machine : machine := {|
  ma_now := "t0"; ma_expanduser := fun p => p; ma_isdir := fun _ => true; ma_prompt := "/p"; ma_env := {["OMP_WORKER_ID" := "other"]};
  ma_pid := 7; ma_old := None; ma_alive := fun _ => false; ma_uuid := "u"; ma_uuid' := "v"; ma_dir := "/d";
  ma_popen := fun _ _ => Ok 8; ma_code := 0; ma_log := Some demo_log |}.
Definition no_text (e : pyexn) : string := "".
Example supervise_runs : map (fun e => match e with Mark n _ => n | Reports k _ => k | Write_identity _ => "identity" | Start a _ => join " " a | Write_pid _ => "pid" | Drop_pid => "no pid" end)
    (supervise no_text demo_spec demo_machine).1 =
  ["SHELL_READY"; "CWD_VERIFIED"; "identity"; "omp --resume b1 --cwd /w"; "pid"; "AGENT_STARTED"; "RUNTIME_STATE"; "no pid"; "AGENT_EXITED"; "QUOTA_ERROR"; "ERROR"; "RUNTIME_STATE"].
Proof. vm_compute. reflexivity. Qed.
Definition new_dir : run_dir := {| rd_marks := ∅; rd_pid := None; rd_owner := None |}.
Lemma generations_grow_witness : map of_generation (owners demo_spec (fun _ => false) (fun _ => "u") None [7; 9; 12]) = [1; 2; 3].
Proof.
  apply (generations_grow demo_spec (fun _ => false) (fun _ => "u") [7; 9; 12]); [|repeat constructor; set_solver].
  intros p Hp. split; [|done]. repeat (apply elem_of_cons in Hp as [->|Hp]; [done|]). by apply elem_of_nil in Hp.
Defined.
Lemma probe_tells_witness :
  let seen := take 5 (supervise no_text demo_spec demo_machine).1 in
  he_alive (probe_runtime true (Z.eqb 8) (apply_effects seen new_dir)) = true /\ ~ exited (apply_effects seen new_dir).
Proof.
  cbv zeta. split; [vm_compute; reflexivity|].
  apply (probe_tells no_text demo_spec demo_machine (take 5 (supervise no_text demo_spec demo_machine).1) (drop 5 (supervise no_text demo_spec demo_machine).1) new_dir true (Z.eqb 8)).
  - by split.
  - by rewrite take_drop.
  - vm_compute. reflexivity.
Defined.
Definition old_dir : run_dir := {| rd_marks := {["AGENT_EXITED" := "0"]} ∪ {["QUOTA_ERROR" := "quota exceeded"]}; rd_pid := None; rd_owner := None |}.
Definition quiet_machine : machine := {|
  ma_now := "t0"; ma_expanduser := fun p => p; ma_isdir := fun _ => true; ma_prompt := "/p"; ma_env := ∅; ma_pid := 7; ma_old := None;
  ma_alive := fun _ => false; ma_uuid := "u"; ma_uuid' := "v"; ma_dir := "/d"; ma_popen := fun _ _ => Ok 8; ma_code := 0; ma_log := None |}.
Lemma old_marks_stay_witness :
  let h := probe_runtime true (Z.eqb 8) (apply_effects (take 5 (supervise no_text demo_spec quiet_machine).1) old_dir) in
  he_alive h = true /\ he_quota h = "quota exceeded".
Proof.
  cbv zeta. split; [vm_compute; reflexivity|].
  apply (old_marks_stay no_text demo_spec quiet_machine (take 5 (supervise no_text demo_spec quiet_machine).1) (drop 5 (supervise no_text demo_spec quiet_machine).1) old_dir true (Z.eqb 8) "quota exceeded").
  - by rewrite take_drop.
  - by exists "0".
  - reflexivity.
  - reflexivity.
Defined.
Lemma quota_reported_witness : exists q, Mark "QUOTA_ERROR" q ∈ (supervise no_text demo_spec demo_machine).1.
Proof.
  apply (quota_reported no_text demo_spec demo_machine ["omp"; "--resume"; "b1"; "--cwd"; "/w"]
    (identity_env demo_spec demo_machine {| of_generation := 1; of_owner_pid := 7; of_nonce := "n1" |} (base_env demo_spec (ma_env demo_machine)))).
  - do 3 right. left.
  - exists demo_log, "editing quota.py". split; [reflexivity|]. split; [vm_compute; left|]. split; [discriminate|vm_compute; reflexivity].
Defined.
Lemma inherited_wins_witness : forall o, identity_env demo_spec demo_machine o (base_env demo_spec (ma_env demo_machine)) !! "OMP_WORKER_ID" = Some "other".
Proof. intros o. apply (inherited_wins demo_spec demo_machine o "OMP_WORKER_ID" "other"); [reflexivity|apply not_elem_of_nil|in_list]. Defined.
(** The gateway of [GatewayLaws], at which the first supervisor's agent is registered. *)
Definition first_owner : owner_file := {| of_generation := 1; of_owner_pid := 7; of_nonce := "n" |}.
Lemma demo_registered : exists r, dget (g_runtimes demo_gateway.1) "rt1" = Some r /\ registered_by demo_spec first_owner r.
Proof. eexists. split; [vm_compute; reflexivity|]. by split_and!. Qed.
Lemma demo_admitted : admitted_to demo_spec demo_gateway.
Proof. split; [reflexivity|]. split; [vm_compute; reflexivity|]. eexists. split; [vm_compute; reflexivity|]. vm_compute. right. left. Qed.
Lemma restart_accepted_witness : exists r,
  (register_checks (registration demo_spec (next_owner demo_spec (Some first_owner) (fun _ => false) 9 "u" "v") "b1" "omp" []) demo_gateway).1 = Ok (Some r).
Proof.
  destruct demo_registered as (r & Hd & Hr). exists r.
  apply (restart_accepted "b1" "omp" [] demo_spec first_owner (fun _ => false) 9 "u" "v" demo_gateway r demo_admitted Hd Hr); [discriminate|discriminate|reflexivity].
Defined.
Lemma reused_number_refused_witness :
  (register_checks (registration demo_spec (next_owner demo_spec (Some first_owner) (Z.eqb 7) 9 "u" "v") "b1" "omp" []) demo_gateway).1 =
  Raise (GatewayError "OWNER_MISMATCH").
Proof.
  destruct demo_registered as (r & Hd & Hr).
  apply (reused_number_refused "b1" "omp" [] demo_spec first_owner (Some first_owner) (Z.eqb 7) 9 "u" "v" demo_gateway r demo_admitted Hd Hr);
    [reflexivity|discriminate|discriminate|by right].
Defined.

(** ** Reports after a restart *)
(** What a report sends to the gateway. *)
Definition _report (s : RuntimeSpec) (kind : string) (payload : pydict) (now : string) : RuntimeEventDraft := {|
  ed_runtime := sp_runtime_id s; ed_generation := sp_generation s; ed_session := sp_session s; ed_agent := sp_agent s;
  ed_request := ""; ed_run := ""; ed_kind := kind; ed_created := now; ed_payload := payload |}.
(** A report carries the generation of the specification, and not the one that the
    restarted agent is registered with: the gateway refuses it, so that the end of
    the agent and an exhausted quota are not told. *)
Theorem restart_reports_refused W `{Backends W} s old alive pid uuid uuid' (g : gateway * W) r kind payload stamp now :
  dget (g_runtimes g.1) (sp_runtime_id s) = Some r -> registered_by s (next_owner s (Some old) alive pid uuid uuid') r ->
  sp_generation s <= of_generation old -> of_owner_pid old <> 0 -> of_owner_pid old <> pid -> alive (of_owner_pid old) = false ->
  runtime_event (_report s kind payload stamp) now g = (Raise (GatewayError "GENERATION_STALE"), g).
Proof.
  intros Hd (Hg & _ & _) Hs H0 Hp Hl. unfold runtime_event. rewrite st_bind_unfold, require_run. cbn [_report ed_runtime ed_generation]. rewrite Hd.
  rewrite st_bind_unfold, ensure_run, Hg. unfold next_owner.
  rewrite (proj2 (Z.eqb_neq _ _) H0), (proj2 (Z.eqb_neq _ _) Hp), Hl. cbn [negb andb of_generation]. by rewrite (proj2 (Z.eqb_neq _ _)) by lia.
Qed.
Definition second_register : register_params := registration demo_spec (next_owner demo_spec (Some first_owner) (fun _ => false) 9 "u" "v") "b1" "omp" [].
Definition second_gateway : gateway * unit := (dispatch (H := demo_backends) (Register second_register) 1700000009000 demo_gateway).2.
Lemma restart_reports_refused_witness :
  (runtime_event (H := demo_backends) (_report demo_spec "RUNTIME_STATE" [("state", VStr "agent_exited")] "t") 1700000010000 second_gateway).1 =
  Raise (GatewayError "GENERATION_STALE").
Proof.
  assert (Hr : exists r, dget (g_runtimes second_gateway.1) "rt1" = Some r /\
    registered_by demo_spec (next_owner demo_spec (Some first_owner) (fun _ => false) 9 "u" "v") r)
    by (eexists; split; [vm_compute; reflexivity|by split_and!]).
  destruct Hr as (r & Hd & Hr).
  rewrite (restart_reports_refused unit (H := demo_backends) demo_spec first_owner (fun _ => false) 9 "u" "v" second_gateway r
    "RUNTIME_STATE" [("state", VStr "agent_exited")] "t" 1700000010000 Hd Hr); [reflexivity|discriminate|discriminate|discriminate|reflexivity].
Defined.
