(* ===== verification/SwarmHooks.v ===== *)
(** * The hooks of an agent's life
    (src/src/codeagent/hooks/swarm_hooks.py)

    A process keeps one kernel, opened over the mailboxes of one root, and the pairs of
    session and agent that it has registered. The kernels of SwarmKernel.v are opened by
    reading the files of their root; opening another root drops the tables of the first
    one, whose files stay. *)
From S2P Require Import Prelude MailboxProtocol MailboxStore SwarmKernel RemoteExec.

(** ** The module's state *)
Abbreviation files := (gmap string session * gmap string swarm_meta)%type.
(** [hk_live]: [_kernel] with [_store_root]; [hk_roots]: the files of the roots that
    are not open. *)
Record hooks := {
  hk_live : option (string * kernel); hk_roots : gmap string files; hk_registered : gset (string * string) }.
Definition fresh_hooks (roots : gmap string files) : hooks := {| hk_live := None; hk_roots := roots; hk_registered := ∅ |}.
Definition set_registered (r : gset (string * string)) (h : hooks) : hooks :=
  {| hk_live := hk_live h; hk_roots := hk_roots h; hk_registered := r |}.
Definition files_of (k : kernel) : files := (disk k, metas k).
Definition all_files (h : hooks) : gmap string files :=
  match hk_live h with Some (r, k) => <[r := files_of k]> (hk_roots h) | None => hk_roots h end.
Definition reset (h : hooks) : hooks := fresh_hooks (all_files h).
Definition open_kernel (root : string) (h : hooks) : res kernel * hooks :=
  let all := all_files h in
  let f := default (∅, ∅) (all !! root) in
  let r := _load_persisted_sessions f.1 f.2 in
  (r, {| hk_live := match r with Ok k => Some (root, k) | Raise _ => None end; hk_roots := all; hk_registered := hk_registered h |}).
Definition _get_kernel (root : string) : st hooks kernel := fun h =>
  match hk_live h with
  | Some (r, k) => if String.eqb r root then (Ok k, h) else open_kernel root h
  | None => open_kernel root h
  end.
(** A call of the kernel of a root. *)
Definition on_hook {A} (root : string) (m : st kernel A) : st hooks A := fun h =>
  match _get_kernel root h with
  | (Ok k, h) => let r := m k in (r.1, {| hk_live := Some (root, r.2); hk_roots := hk_roots h; hk_registered := hk_registered h |})
  | (Raise e, h) => (Raise e, h)
  end.

(** ** The hooks *)
Definition location (agent host backend : string) : AgentLocation := {|
  l_agent_id := agent; l_host_alias := host; l_backend := backend; l_capabilities := []; l_execution_mode := None;
  l_mailbox_root := ""; l_return_mode := None |}.
Definition on_agent_start (session_id agent_id host_alias backend root : string) (now : Z) : st hooks pydict :=
  loc ← on_hook root (register (location agent_id host_alias backend) session_id "" now);
  _ ← modify (fun h => set_registered ({[(session_id, agent_id)]} ∪ hk_registered h) h);
  mret [("agent_id", VStr (l_agent_id loc)); ("session_id", VStr session_id); ("host_alias", VStr (l_host_alias loc));
        ("backend", VStr (l_backend loc))].
Definition never_registered (session_id agent_id : string) : pydict :=
  [("unregistered", VBool false); ("agent_id", VStr agent_id); ("session_id", VStr session_id); ("reason", VStr "never registered")].
Definition unregistered (session_id agent_id : string) : pydict :=
  [("unregistered", VBool true); ("agent_id", VStr agent_id); ("session_id", VStr session_id)].
Definition on_agent_stop (session_id agent_id root : string) : st hooks pydict :=
  known ← gets (fun h => bool_decide ((session_id, agent_id) ∈ hk_registered h));
  if negb (known : bool) then mret (never_registered session_id agent_id) else
  _ ← on_hook root (unregister session_id agent_id);
  _ ← modify (fun h => set_registered (hk_registered h ∖ {[(session_id, agent_id)]}) h);
  mret (unregistered session_id agent_id).

(** *** An incoming message *)
(** The fields of a message, [None] for a field of another type than the protocol's. *)
Definition msg_text (d : pydict) (k dflt : string) : option string :=
  match dget d k with None => Some dflt | Some (VStr s) => Some s | Some _ => None end.
Fixpoint msg_refs (l : list pyval) : option (res (list AttachmentRef)) :=
  match l with
  | [] => Some (Ok [])
  | VDict a :: l => rest ← msg_refs l; Some (do r <- AttachmentRef.from_dict a; do rs <- rest; Ok (r :: rs))
  | _ => None
  end.
Definition msg_attachments (d : pydict) : option (res (list AttachmentRef)) :=
  match py_or (dgetd d "attachments" VNone) (VList []) with VList l => msg_refs l | _ => None end.
Definition envelope_of (d : pydict) : option (res (string * Envelope)) :=
  to_id ← msg_text d "to" ""; kind ← msg_text d "kind" "TASK"; subject ← msg_text d "subject" ""; body ← msg_text d "body" "";
  run ← msg_text d "run_id" ""; request ← msg_text d "request_id" ""; reply ← msg_text d "reply_to" "";
  refs ← msg_attachments d; causation ← msg_text d "causation_id" ""; trace ← msg_text d "trace_id" "";
  Some (do refs <- refs;
        Ok (to_id, {| e_subject := subject; e_body := body; e_kind := kind; e_attachments := refs; e_reply_to := reply;
                      e_run_id := run; e_request_id := request; e_trace_id := trace; e_causation_id := causation;
                      e_require_ack := false; e_receipt_type := "" |})).
Section message.
Context {T : Type} `{DeliverySink T} (uuid : nat -> string) (now : Z).
Definition count {A} (l : list A) : pyval := VInt (Z.of_nat (length l)).
(** [to_id[1:]] when [to_id.startswith("#")] *)
Definition channel_name (to_id : string) : option string := match to_id with String "#"%char c => Some c | _ => None end.
Definition route (session_id agent_id to_id : string) (env : Envelope) : st (kernel * T) pydict :=
  if String.eqb to_id "*" then
    receipts ← broadcast uuid now session_id agent_id env;
    mret [("broadcast", VBool true); ("recipients", count receipts)]
  else match channel_name to_id with
  | Some channel_id =>
    receipts ← channel uuid now session_id agent_id channel_id env;
    mret [("channel", VBool true); ("recipients", count receipts); ("msg_ids", VList (map (fun r => VStr (dr_msg_id r)) receipts))]
  | None =>
    r ← direct uuid now session_id agent_id to_id env;
    mret [("msg_id", VStr (sr_msg_id r)); ("status", VStr (sr_status r)); ("target", VStr (sr_target r))]
  end.
(** The sink has a state of its own beside the module's. *)
Definition on_agent_message (session_id agent_id root : string) (x : res (string * Envelope)) : st (hooks * T) pydict := fun ht =>
  match _get_kernel root ht.1 with
  | (Raise e, h) => (Raise e, (h, ht.2))
  | (Ok k, h) =>
    match x with
    | Raise e => (Raise e, (h, ht.2))
    | Ok (to_id, env) =>
      let r := route session_id agent_id to_id env (k, ht.2) in
      (r.1, ({| hk_live := Some (root, r.2.1); hk_roots := hk_roots h; hk_registered := hk_registered h |}, r.2.2))
    end
  end.
End message.

(** ** What a call does *)
Lemma open_files root r h : r <> root -> all_files (open_kernel root h).2 !! r = all_files h !! r.
Proof.
  intros Hr. unfold open_kernel. destruct (_load_persisted_sessions _ _); simpl; unfold all_files at 1; simpl; [|done].
  by rewrite lookup_insert_ne.
Qed.
Lemma get_kernel_live root k h h' : _get_kernel root h = (Ok k, h') ->
  hk_live h' = Some (root, k) /\ hk_registered h' = hk_registered h.
Proof.
  assert (Ho : open_kernel root h = (Ok k, h') -> hk_live h' = Some (root, k) /\ hk_registered h' = hk_registered h).
  { unfold open_kernel. intros [= H <-]. by rewrite H. }
  unfold _get_kernel. destruct (hk_live h) as [[r k']|] eqn:Hl; [|done]. destruct (String.eqb_spec r root) as [->|]; [|done].
  by intros [= -> <-].
Qed.
Lemma on_hook_unfold {A} root (m : st kernel A) k h h' : _get_kernel root h = (Ok k, h') ->
  on_hook root m h = ((m k).1, {| hk_live := Some (root, (m k).2); hk_roots := hk_roots h'; hk_registered := hk_registered h' |}).
Proof. intros H. unfold on_hook. by rewrite H. Qed.
Lemma on_hook_Ok {A} root (m : st kernel A) h a h1 : on_hook root m h = (Ok a, h1) ->
  exists k k1, (_get_kernel root h).1 = Ok k /\ m k = (Ok a, k1) /\ hk_live h1 = Some (root, k1) /\ hk_registered h1 = hk_registered h.
Proof.
  unfold on_hook. destruct (_get_kernel root h) as [[k|e] h'] eqn:Hk; [|done]. intros [= Hm <-].
  exists k, (m k).2. rewrite <- Hm. apply get_kernel_live in Hk as [_ Hr]. split_and!; try done. by destruct (m k).
Qed.
Lemma get_kernel_here root k h : hk_live h = Some (root, k) -> _get_kernel root h = (Ok k, h).
Proof. intros H. unfold _get_kernel. by rewrite H, String.eqb_refl. Qed.

(** What a registration leaves. *)
Lemma start_registers agent host backend sid now k a k1 : register (location agent host backend) sid "" now k = (Ok a, k1) ->
  a = location agent host backend /\ is_Some (sessions k1 !! sid) /\ metas k1 = metas (routed a sid k).
Proof.
  intros H. rewrite register_eq in H. destruct (sessions k !! sid) as [s|]; [|done]. case_bool_decide; [|done].
  case_bool_decide; [done|]. injection H as <- <-. split_and!; [done| |done]. simpl. by rewrite lookup_insert_eq.
Qed.

(** Work under one root leaves the files of the others. *)
Lemma get_kernel_files root r h : r <> root -> all_files (_get_kernel root h).2 !! r = all_files h !! r.
Proof.
  intros Hr. pose proof (open_files root r h Hr) as Ho.
  unfold _get_kernel. destruct (hk_live h) as [[r' k']|]; [|done]. by destruct (String.eqb_spec r' root).
Qed.
Lemma on_hook_files {A} root r (m : st kernel A) h : r <> root -> all_files (on_hook root m h).2 !! r = all_files h !! r.
Proof.
  intros Hr. rewrite <- (get_kernel_files root r h Hr). unfold on_hook. destruct (_get_kernel root h) as [[k|e] h'] eqn:Hk; [|done].
  apply get_kernel_live in Hk as [Hl _]. simpl. unfold all_files. simpl. rewrite Hl. by rewrite !lookup_insert_ne by congruence.
Qed.
(** The kernel of a process answers for the session [session_id]. *)
Definition routed_as (session_id agent_id : string) (f : files) : Prop :=
  exists m, f.2 !! session_id = Some m /\ is_Some (sm_routing m !! agent_id).
Lemma foldl_routing_keeps (l : list (string * AgentLocation)) (r : gmap string routing_entry) aid :
  is_Some (r !! aid) -> is_Some (foldl (fun r x => <[x.1 := entry_of x.2]> r) r l !! aid).
Proof.
  revert r. induction l as [|[a loc] l IH]; intros r Hr; [done|]. simpl. apply IH.
  destruct (decide (a = aid)) as [->|]; [rewrite lookup_insert_eq|rewrite lookup_insert_ne by done]; done.
Qed.
Lemma foldl_routing_has (l : list (string * AgentLocation)) (r : gmap string routing_entry) aid loc :
  (aid, loc) ∈ l -> is_Some (foldl (fun r x => <[x.1 := entry_of x.2]> r) r l !! aid).
Proof.
  revert r. induction l as [|[a lo] l IH]; intros r Hin; [by apply elem_of_nil in Hin|]. simpl.
  apply elem_of_cons in Hin as [[= <- <-]|Hin]; [|by apply IH]. apply foldl_routing_keeps. by rewrite lookup_insert_eq.
Qed.
Lemma register_routes agent host backend sid now k a k1 : register (location agent host backend) sid "" now k = (Ok a, k1) ->
  routed_as sid agent (files_of k1).
Proof.
  intros (-> & _ & Hm)%start_registers. unfold routed_as, files_of. simpl. rewrite Hm. unfold routed, _persist_routing.
  rewrite st_bind_unfold. unfold gets, _persist_meta, modify. simpl. rewrite lookup_insert_eq. eexists. split; [done|]. simpl.
  apply foldl_routing_has with (loc := location agent host backend). unfold session_routing. apply list_elem_of_omap.
  exists ((sid, agent), location agent host backend).
  split; [|simpl; by rewrite String.eqb_refl]. apply elem_of_map_to_list. simpl. by rewrite lookup_insert_eq.
Qed.
(** [gone]: neither the table nor the file has the agent. *)
Record gone (session_id agent_id : string) (k : kernel) : Prop := {
  gone_table : routing k !! (session_id, agent_id) = None;
  gone_file : metas k !! session_id ≫= (fun m => sm_routing m !! agent_id) = None }.
Lemma unregister_gone sid aid k : is_Some (sessions k !! sid) ->
  exists k1, unregister sid aid k = (Ok tt, k1) /\ gone sid aid k1.
Proof.
  intros [s Hs]. unfold unregister. rewrite st_bind_unfold, require_session_eq, Hs. eexists. split; [reflexivity|].
  constructor; simpl; [apply lookup_delete_eq|]. rewrite lookup_insert_eq. simpl. apply lookup_delete_eq.
Qed.
Lemma start_Ok sid aid host backend root now h d h1 : on_agent_start sid aid host backend root now h = (Ok d, h1) ->
  exists k1, hk_live h1 = Some (root, k1) /\ is_Some (sessions k1 !! sid) /\ routed_as sid aid (files_of k1) /\
             hk_registered h1 = {[(sid, aid)]} ∪ hk_registered h.
Proof.
  unfold on_agent_start. intros H. st_inv. match goal with H : on_hook _ _ _ = _ |- _ => apply on_hook_Ok in H as (k & k1 & _ & Hr & Hl & Hh) end.
  exists k1. simpl. rewrite Hh. split_and!; [done| |by eapply register_routes|done]. by apply start_registers in Hr as (_ & ? & _).
Qed.

(** An agent that was started and is stopped under the same root is gone from the
    tables and the files, and a second stop finds nothing to do. *)
Theorem started_is_stopped sid aid host backend root now h d h1 : on_agent_start sid aid host backend root now h = (Ok d, h1) ->
  exists h2 k, on_agent_stop sid aid root h1 = (Ok (unregistered sid aid), h2) /\ hk_live h2 = Some (root, k) /\ gone sid aid k /\
  hk_registered h2 = hk_registered h ∖ {[(sid, aid)]} /\
  on_agent_stop sid aid root h2 = (Ok (never_registered sid aid), h2).
Proof.
  intros (k1 & Hl & Hs & _ & Hr)%start_Ok. destruct (unregister_gone sid aid k1 Hs) as (k2 & Hu & Hg).
  unfold on_agent_stop at 1. rewrite st_bind_unfold. unfold gets at 1. rewrite bool_decide_eq_true_2 by set_solver.
  cbn [negb]. rewrite st_bind_unfold, (on_hook_unfold root _ _ _ _ (get_kernel_here _ _ _ Hl)), Hu.
  eexists _, k2. split; [reflexivity|]. simpl. split_and!; [done|done|set_solver|].
  unfold on_agent_stop. rewrite st_bind_unfold. unfold gets. by rewrite bool_decide_eq_false_2 by set_solver.
Qed.
(** An agent that the roster of the session does not name is refused, and nothing
    but the opening of the kernel is left of the call. *)
Theorem stranger_refused sid aid host backend root now h k s : (_get_kernel root h).1 = Ok k -> sessions k !! sid = Some s ->
  aid ∉ s_roster s ->
  exists h1, on_agent_start sid aid host backend root now h = (Raise (ValueError "agent not in roster"), h1) /\
             hk_live h1 = Some (root, k) /\ hk_registered h1 = hk_registered h.
Proof.
  intros Hk Hs Ha. destruct (_get_kernel root h) as [r h'] eqn:Hg. simpl in Hk. subst r.
  destruct (get_kernel_live _ _ _ _ Hg) as [Hl Hr]. unfold on_agent_start. rewrite st_bind_unfold, (on_hook_unfold root _ _ _ _ Hg).
  rewrite register_eq, Hs, bool_decide_eq_false_2 by done. eexists. split; [reflexivity|]. by rewrite <- Hr.
Qed.
(** A pair does not say under which root it was registered: after a stop under
    another root the agent stays in the files of the first, and a stop there does
    nothing any more. *)
Theorem stop_forgets_root sid aid host backend A B now h d h1 d2 h2 : A <> B -> on_agent_start sid aid host backend A now h = (Ok d, h1) ->
  on_agent_stop sid aid B h1 = (Ok d2, h2) ->
  d2 = unregistered sid aid /\ (exists f, all_files h2 !! A = Some f /\ routed_as sid aid f) /\
  on_agent_stop sid aid A h2 = (Ok (never_registered sid aid), h2).
Proof.
  intros HAB (k1 & Hl & _ & Hf & Hr)%start_Ok H. unfold on_agent_stop in H. rewrite st_bind_unfold in H. unfold gets at 1 in H.
  rewrite bool_decide_eq_true_2 in H by set_solver. cbn [negb] in H. st_inv. split; [done|]. split.
  - exists (files_of k1). split; [|done]. unfold all_files. cbn [hk_live hk_roots set_registered].
    match goal with H : on_hook B ?m h1 = (_, ?x) |- _ => pose proof (on_hook_files B A m h1 HAB) as Hq; rewrite H in Hq end.
    simpl in Hq. unfold all_files in Hq at 2. rewrite Hl, lookup_insert_eq in Hq. exact Hq.
  - unfold on_agent_stop. rewrite st_bind_unfold. unfold gets. by rewrite bool_decide_eq_false_2 by set_solver.
Qed.

(** The target that an incoming message names, as an address of the kernel. *)
Definition address_of (to_id : string) : Address :=
  let a k agent channel := {| ad_kind := k; ad_agent_id := agent; ad_channel_id := channel; ad_topic := "" |} in
  if String.eqb to_id "*" then a BROADCAST "" "" else
  match channel_name to_id with Some c => a CHANNEL "" c | None => a DIRECT to_id "" end.
(** An incoming message does to kernel, mailboxes and sink what a send to that
    address does, and raises what it raises. *)
Theorem message_goes_as_sent {T} `{DeliverySink T} uuid now session_id agent_id to_id env (kt : kernel * T) :
  let r := route uuid now session_id agent_id to_id env kt in
  let s := SwarmKernel.send uuid now session_id agent_id (address_of to_id) env kt in
  r.2 = s.2 /\ forall e, r.1 = Raise e <-> s.1 = Raise e.
Proof.
  simpl. unfold route, address_of, SwarmKernel.send. destruct (String.eqb to_id "*"); [|destruct (channel_name to_id) as [c|]];
    cbn [ad_kind ad_agent_id ad_channel_id]; rewrite ?st_bind_unfold.
  - destruct (broadcast uuid now session_id agent_id env kt) as [[[]|] x]; naive_solver.
  - destruct (channel uuid now session_id agent_id c env kt) as [[] x]; naive_solver.
  - destruct (direct uuid now session_id agent_id to_id env kt) as [[] x]; naive_solver.
Qed.

(** ** Examples *)
Definition opened (root : string) (h : hooks) : hooks := (on_hook root (create_session "s1" "m" ["w"] None [] [] 0) h).2.
Definition demo_hooks : hooks := opened "/a" (fresh_hooks ∅).
Definition started (h : hooks) : hooks := (on_agent_start "s1" "w" "__local__" "omp" "/a" 0 h).2.
Definition start_row : pydict :=
  [("agent_id", VStr "w"); ("session_id", VStr "s1"); ("host_alias", VStr "__local__"); ("backend", VStr "omp")].
Lemma demo_started h : (on_agent_start "s1" "w" "__local__" "omp" "/a" 0 h).1 = Ok start_row ->
  on_agent_start "s1" "w" "__local__" "omp" "/a" 0 h = (Ok start_row, started h).
Proof. intros H. unfold started. rewrite <- H. apply surjective_pairing. Qed.
Lemma demo_start : (on_agent_start "s1" "w" "__local__" "omp" "/a" 0 demo_hooks).1 = Ok start_row.
Proof. by vm_compute. Qed.
Lemma started_is_stopped_witness : exists h2 k, on_agent_stop "s1" "w" "/a" (started demo_hooks) = (Ok (unregistered "s1" "w"), h2) /\
  hk_live h2 = Some ("/a", k) /\ gone "s1" "w" k /\ hk_registered h2 = hk_registered demo_hooks ∖ {[("s1", "w")]} /\
  on_agent_stop "s1" "w" "/a" h2 = (Ok (never_registered "s1" "w"), h2).
Proof. eapply started_is_stopped. apply demo_started, demo_start. Defined.
Definition demo_kernel : kernel := match hk_live demo_hooks with Some (_, k) => k | None => empty_kernel end.
Lemma stranger_refused_witness : exists h1, on_agent_start "s1" "ses_9" "__local__" "omp" "/a" 0 demo_hooks = (Raise (ValueError "agent not in roster"), h1) /\
  hk_live h1 = Some ("/a", demo_kernel) /\ hk_registered h1 = hk_registered demo_hooks.
Proof.
  assert (Hs : is_Some (sessions demo_kernel !! "s1")) by (refine (bool_decide_unpack _ _); by vm_compute).
  destruct Hs as [s Hs]. eapply stranger_refused; [by vm_compute|exact Hs|].
  assert (Hr : s_roster <$> sessions demo_kernel !! "s1" = Some ["m"; "w"]) by (by vm_compute).
  rewrite Hs in Hr. injection Hr as ->. refine (bool_decide_unpack _ _). by vm_compute.
Defined.
Lemma stop_forgets_root_witness : exists f h2, all_files h2 !! "/a" = Some f /\ routed_as "s1" "w" f /\
  on_agent_stop "s1" "w" "/a" h2 = (Ok (never_registered "s1" "w"), h2).
Proof.
  set (h0 := opened "/b" demo_hooks). set (r := on_agent_stop "s1" "w" "/b" (started h0)).
  assert (H : r.1 = Ok (unregistered "s1" "w")) by (by vm_compute).
  destruct (stop_forgets_root "s1" "w" "__local__" "omp" "/a" "/b" 0 h0 start_row (started h0) (unregistered "s1" "w") r.2)
    as (_ & (f & Hf & Hr) & Hn); [done|apply demo_started; by vm_compute|rewrite <- H; apply surjective_pairing|].
  exists f, r.2. by split_and!.
Defined.
