(* ===== verification/OmpRunner.v ===== *)
(** * The runner of omp
    (src/src/codeagent/runners/base.py, runners/omp.py)

    A runner starts omp with a command and an environment, reads the lines that it
    prints as they come, waits for its end and makes a result of them. The program is
    an interface: what it prints, when it closes its pipes and when it ends, also when
    it is killed. Times are milliseconds of one clock. The sessions and registrations
    of the swarm are those of SwarmHooks.v, the parked agents those of Park.v. *)
From S2P Require Import Prelude MailboxProtocol MailboxStore SwarmKernel Wire RemoteExec Park Exchange Routing OracleResult SwarmHooks.

Definition DEFAULT_EXEC_TIMEOUT : Z := 600.
Definition ORACLE_TIMEOUT : Z := 3600.

(** ** Profiles *)
Record AgentProfile := {
  ap_name : string; ap_model : string; ap_thinking : string; ap_path : string; ap_auto_exit : bool; ap_park : bool;
  ap_class : string; ap_spawning : bool }.
(** What stands before the first [pat] in [s]. *)
Fixpoint before_text (pat s : string) : option string :=
  if String.prefix pat s then Some "" else match s with "" => None | String c s => String c <$> before_text pat s end.
Fixpoint skip_cont (s : string) : string :=
  match s with String c r => if is_cont c then skip_cont r else s | "" => "" end.
(** [s[1:]] *)
Definition skip_char (s : string) : string := match s with "" => "" | String _ r => skip_cont r end.
Definition is_quote (c : ascii) : bool := Ascii.eqb c "'"%char || Ascii.eqb c (ascii_of_N 34).
Definition unquote (v : string) : string :=
  match v with
  | String q r =>
    match String.rev r with
    | String q' m => if is_quote q && Ascii.eqb q' q then String.rev m else v
    | "" => v
    end
  | "" => ""
  end.
Abbreviation env := (list (string * string)).
Definition no_pair (line : string) : bool := match line with "" => true | String c _ => Ascii.eqb c "#"%char end.
Definition fm_line (d : env) (raw : string) : env :=
  let line := strip raw in
  if no_pair line then d else
  match split1 ":"%char line with Some (k, v) => dset d (strip k) (unquote (strip v)) | None => d end.
Definition _parse_frontmatter (text : string) : env :=
  match text with
  | String "-"%char (String "-"%char (String "-"%char rest)) =>
    match before_text (NL +:+ "---") rest with Some p => foldl fm_line [] (splitlines (skip_char p)) | None => [] end
  | _ => []
  end.
Definition fm_get (fm : env) (k dflt : string) : string := default dflt (dget fm k).
Definition fm_true (fm : env) (k dflt : string) : bool := String.eqb (lower (fm_get fm k dflt)) "true".
Definition profile_path (home name : string) : string := home +:+ "/.omp/agent/agents/" +:+ name +:+ ".md".
(** [read_text]: the text of a file that exists. *)
Definition resolve_agent_profile (home : string) (read_text : string -> option string) (name : string) : res AgentProfile :=
  match read_text (profile_path home name) with
  | None => Raise (ValueError ("Unknown agent profile: " +:+ name))
  | Some text =>
    let fm := _parse_frontmatter text in
    Ok {| ap_name := fm_get fm "name" name; ap_model := fm_get fm "model" ""; ap_thinking := fm_get fm "thinking" "";
          ap_path := profile_path home name; ap_auto_exit := fm_true fm "auto-exit" "true"; ap_park := fm_true fm "park" "false";
          ap_class := fm_get fm "park-class" ""; ap_spawning := fm_true fm "spawning" "false" |}
  end.

(** ** The lines that omp prints *)
(** [_backend_session_id], [_terminal_seen], [_visible_texts], [_events]. The session's
    identifier is any value that counts as true. *)
Record stream := { sm_session : pyval; sm_ended : bool; sm_texts : list pyval; sm_events : list pyval }.
Definition fresh_stream : stream := {| sm_session := VNone; sm_ended := false; sm_texts := []; sm_events := [] |}.
Definition _MAX_VISIBLE_MESSAGES : nat := 5.
(** The fields that every event has. *)
Definition base_of (key : string) (p : option AgentProfile) (req : option RunRequest) (created_at : string) : pydict := [
  ("session_id", VStr key); ("agent_id", VStr (from_option ap_name "" p)); ("request_id", VStr (from_option rq_request_id "" req));
  ("run_id", VStr (from_option rq_run_id "" req)); ("created_at", VStr created_at)].
Definition with_event (base : pydict) (kind : string) (payload : pyval) (s : stream) : stream :=
  {| sm_session := sm_session s; sm_ended := sm_ended s; sm_texts := sm_texts s;
     sm_events := sm_events s ++ [VDict (base ++ [("kind", VStr kind); ("payload", payload)])] |}.
Definition with_session (id : pyval) (s : stream) : stream :=
  {| sm_session := id; sm_ended := sm_ended s; sm_texts := sm_texts s; sm_events := sm_events s |}.
Definition bounded (l : list pyval) : list pyval := drop (length l - _MAX_VISIBLE_MESSAGES) l.
Definition with_text (t : pyval) (s : stream) : stream :=
  {| sm_session := sm_session s; sm_ended := sm_ended s; sm_texts := bounded (sm_texts s ++ [t]); sm_events := sm_events s |}.
Definition with_end (s : stream) : stream :=
  {| sm_session := sm_session s; sm_ended := true; sm_texts := sm_texts s; sm_events := sm_events s |}.

Section runner.
(** [str] of a value that is no string, number or truth value. *)
Context (py_repr : pyval -> string).
Definition _consume_line (base : pydict) (line : string) (s : stream) : res stream :=
  match loads (strip line) with
  | None => Ok s
  | Some obj =>
    do msg_type <- getd obj "type" (VStr "");
    if eq_str msg_type "session" then
      do id <- getd obj "id" VNone;
      Ok (if truthy id
          then with_event base "RUNTIME_STATE" (VDict [("state", VStr "session_start"); ("backend_session_id", id)]) (with_session id s)
          else s)
    else if eq_str msg_type "assistant" then
      do end_ <- getd obj "message_end" (VDict []);
      do text <- getd end_ "message" VNone;
      if truthy text then
        do short <- slice (Z.to_nat 1000) text;
        Ok (with_text text (with_event base "ASSISTANT_PROGRESS" (VDict [("text", short)]) s))
      else Ok s
    else if eq_str msg_type "turn" then
      do id <- getd obj "id" (VStr "");
      Ok (with_event base "TURN_STARTED" (VDict [("id", id)]) s)
    else if eq_str msg_type "tool" then
      do name <- getd obj "name" (VStr "");
      do input <- getd obj "input" (VStr "");
      Ok (with_event base "TOOL_STARTED"
            (VDict [("name", name); ("input", VStr (str_take (Z.to_nat 500) (MailboxStore.py_str py_repr input)))]) s)
    else if eq_str msg_type "usage" then
      do usage <- getd obj "usage" (VDict []);
      Ok (with_event base "USAGE" (py_or usage (VDict [])) s)
    else if eq_str msg_type "agent_end" then
      Ok (with_event base "TASK_STATE" (VDict [("state", VStr "agent_end")]) (with_end s))
    else Ok s
  end.
(** [pump] gives the lines of the standard output with the times at which they come;
    the first that raises ends the loop. *)
Fixpoint consume (base : Z -> pydict) (l : list (Z * string)) (s : stream) : option (pyexn * Z) * stream :=
  match l with
  | [] => (None, s)
  | (t, line) :: l =>
    match _consume_line (base t) line s with
    | Ok s => consume base l s
    | Raise e => (Some (e, t), s)
    end
  end.
(** The second reading of the output, when no text was kept. *)
Fixpoint reread (lines : list string) (session : pyval) (final : option pyval) : res (pyval * option pyval) :=
  match lines with
  | [] => Ok (session, final)
  | line :: lines =>
    match loads (strip line) with
    | None => reread lines session final
    | Some msg =>
      do msg_type <- getd msg "type" (VStr "");
      if eq_str msg_type "session" && negb (truthy session) then do id <- getd msg "id" VNone; reread lines id final
      else if eq_str msg_type "assistant" then
        do end_ <- getd msg "message_end" (VDict []);
        do text <- getd end_ "message" VNone;
        reread lines session (if truthy text then Some text else final)
      else if eq_str msg_type "agent_end" then Ok (session, final)
      else reread lines session final
    end
  end.
Definition final_of (s : stream) (stdout : string) : res (pyval * option pyval) :=
  match last (sm_texts s) with
  | Some text => Ok (sm_session s, Some text)
  | None => reread (splitlines stdout) (sm_session s) None
  end.

(** ** The runner's state *)
(** A file that a run writes: the prompt, or an identity. *)
Inductive artefact := Prompt (task : string) | Identity (payload : pydict).
Record result := { ox_code : Z; ox_out : pyval; ox_err : string; ox_session : pyval }.
(** [om_swarm]: [_swarm_session_id] with [_swarm_agent_id]; [om_environ], [om_files],
    [om_hooks] and [om_park] are those of the process and the machine. *)
Record runner := {
  om_binary : string; om_timeout : Z; om_stream : stream; om_profile : option AgentProfile; om_request : option RunRequest;
  om_prompt : option string; om_identity : option string; om_swarm : option (string * string);
  om_environ : env; om_files : gmap string artefact; om_hooks : hooks; om_park : park }.
Definition set_run (timeout : Z) (sm : stream) (p : option AgentProfile) (req : option RunRequest) (r : runner) : runner := {|
  om_binary := om_binary r; om_timeout := timeout; om_stream := sm; om_profile := p; om_request := req; om_prompt := om_prompt r;
  om_identity := om_identity r; om_swarm := om_swarm r; om_environ := om_environ r; om_files := om_files r; om_hooks := om_hooks r;
  om_park := om_park r |}.
Definition set_own (prompt identity : option string) (files : gmap string artefact) (r : runner) : runner := {|
  om_binary := om_binary r; om_timeout := om_timeout r; om_stream := om_stream r; om_profile := om_profile r;
  om_request := om_request r; om_prompt := prompt; om_identity := identity; om_swarm := om_swarm r; om_environ := om_environ r;
  om_files := files; om_hooks := om_hooks r; om_park := om_park r |}.
Definition set_around (swarm : option (string * string)) (environ : env) (h : hooks) (r : runner) : runner := {|
  om_binary := om_binary r; om_timeout := om_timeout r; om_stream := om_stream r; om_profile := om_profile r;
  om_request := om_request r; om_prompt := om_prompt r; om_identity := om_identity r; om_swarm := swarm; om_environ := environ;
  om_files := om_files r; om_hooks := h; om_park := om_park r |}.
Definition set_stream (sm : stream) (r : runner) : runner := set_run (om_timeout r) sm (om_profile r) (om_request r) r.
Definition set_timeout (t : Z) (r : runner) : runner := set_run t (om_stream r) (om_profile r) (om_request r) r.
Definition set_request (req : option RunRequest) (r : runner) : runner := set_run (om_timeout r) (om_stream r) (om_profile r) req r.
Definition set_profile (p : option AgentProfile) (r : runner) : runner := set_run (om_timeout r) (om_stream r) p (om_request r) r.
Definition set_environ (e : env) (r : runner) : runner := set_around (om_swarm r) e (om_hooks r) r.
Definition set_hooks (h : hooks) (r : runner) : runner := set_around (om_swarm r) (om_environ r) h r.
Definition set_swarm (x : option (string * string)) (r : runner) : runner := set_around x (om_environ r) (om_hooks r) r.
Abbreviation M := (st runner).
(** A call of a hook whose exception is logged and dropped; whether it came through. *)
Definition attempted {A} (m : st hooks A) : M bool := fun r =>
  let x := m (om_hooks r) in (Ok (is_ok x.1), set_hooks x.2 r).
Definition getenv (k : string) : M string := gets (fun r => default "" (dget (om_environ r) k)).
Definition putenv (k v : string) : M unit := modify (fun r => set_environ (dset (om_environ r) k v) r).

(** ** The machine and the names that a run draws *)
Context (home : string) (pid : Z) (read_text : string -> option string) (isoformat : Z -> string).
Record names := { nm_swarm : string; nm_token : string; nm_nonce : string; nm_prompt : string }.
(** What a program does: its lines with their times, when its pipes are closed at its
    side (also by children that it leaves behind), its end. *)
Record process := {
  p_stdout : list (Z * string); p_eof : option Z; p_stderr : list (Z * string); p_err_eof : option Z; p_exit : option Z;
  p_code : Z }.
(** ... left alone, or killed at a time. *)
Definition program := option Z -> process.
Context (launch : list string -> option env -> string -> res program).

(** ** Starting *)
Definition opt_arg (flag : string) (v : string) : list string := if String.eqb v "" then [] else [flag; v].
Definition _write_prompt_file (n : names) (task : string) : M unit :=
  modify (fun r => set_own (Some (nm_prompt n)) (om_identity r) (<[nm_prompt n := Prompt task]> (om_files r)) r).
Definition command (binary : string) (p : option AgentProfile) (req : RunRequest) (output prompt_file : string) : list string :=
  [binary; "--print"; "--mode"; "json"] ++ opt_arg "--cwd" (rq_workdir req)
  ++ (if rq_new_session req then [] else opt_arg "--resume" (or_empty (rq_resume req)))
  ++ match p with Some p => opt_arg "--thinking" (ap_thinking p) ++ opt_arg "--append-system-prompt" (ap_path p) | None => [] end
  ++ opt_arg "--model" (first_of (or_empty (rq_model req)) (from_option ap_model "" p))
  ++ (if rq_skip_permissions req then ["--auto-approve"] else []) ++ [String "@"%char prompt_file] ++ opt_arg "--output" output.
Definition _build_cmd (n : names) (output : string) (req : RunRequest) : M (list string) :=
  _ ← _write_prompt_file n (rq_task req);
  gets (fun r => command (om_binary r) (om_profile r) req output (nm_prompt n)).

(** The context that a bootstrap may give. *)
Record RunContext := { rc_swarm : string; rc_agent : string; rc_root : string }.
Definition identity_path (n : names) : string := home +:+ "/.omp/mailbox-identity/" +:+ nm_token n +:+ ".json".
Definition identity_payload (n : names) (session worker : string) : pydict :=
  [("session_id", VStr session); ("worker_id", VStr worker); ("owner_pid", VInt pid); ("nonce", VStr (nm_nonce n))].
Definition _write_identity_file (n : names) (payload : pydict) : M unit :=
  modify (fun r => set_own (om_prompt r) (Some (identity_path n)) (<[identity_path n := Identity payload]> (om_files r)) r).
Definition swarm_sid : M string :=
  a ← getenv "SWARM_SESSION_ID"; b ← getenv "OMP_SESSION_ID"; mret (first_of a b).
Definition identity_vars (n : names) (session worker root : string) : env := [
  ("SWARM_SESSION_ID", session); ("OMP_MAILBOX_SESSION_ID", session); ("OMP_MAILBOX_AGENT_ID", worker);
  ("OMP_MAILBOX_IDENTITY_FILE", identity_path n); ("OMP_MAILBOX_NONCE", nm_nonce n); ("MAILBOX_ROOT", root)].
Definition context_vars (n : names) (session worker root : string) : env := [
  ("SWARM_SESSION_ID", session); ("OMP_SESSION_ID", session); ("OMP_WORKER_ID", worker); ("MAILBOX_ROOT", root);
  ("OMP_MAILBOX_SESSION_ID", session); ("OMP_MAILBOX_AGENT_ID", worker); ("OMP_MAILBOX_IDENTITY_FILE", identity_path n);
  ("OMP_MAILBOX_NONCE", nm_nonce n)].
Definition env_identity (n : names) : M (option env) :=
  sid ← swarm_sid;
  if String.eqb sid "" then mret None else
  worker ← getenv "OMP_WORKER_ID";
  let worker := first_of worker "worker" in
  _ ← _write_identity_file n (identity_payload n sid worker);
  root ← getenv "MAILBOX_ROOT";
  mret (Some (identity_vars n sid worker root)).
Definition _extra_env (n : names) (ctx : option RunContext) : M (option env) :=
  match ctx with
  | Some c =>
    if String.eqb (rc_swarm c) "" then env_identity n else
    let worker := first_of (rc_agent c) "oracle" in
    _ ← _write_identity_file n (identity_payload n (rc_swarm c) worker);
    mret (Some (context_vars n (rc_swarm c) worker (rc_root c)))
  | None => env_identity n
  end.
(** [env.update(extra_env)] *)
Definition update_env (e extra : env) : env := foldl (fun e x => dset e x.1 x.2) e extra.
Definition spawn (n : names) (ctx : option RunContext) (output : string) (req : RunRequest) : M program :=
  cmd ← _build_cmd n output req;
  extra ← _extra_env n ctx;
  environ ← gets om_environ;
  lift (launch cmd (update_env environ <$> extra) (rq_workdir req)).

Definition _ensure_swarm_session (n : names) (req : RunRequest) (now : Z) : M unit :=
  sid ← swarm_sid;
  if negb (String.eqb sid "") then mret tt else
  _ ← putenv "SWARM_SESSION_ID" (nm_swarm n);
  root ← getenv "MAILBOX_ROOT";
  _ ← (if String.eqb root "" then putenv "MAILBOX_ROOT" (home +:+ "/.omp/mailbox") else mret tt);
  let agent := first_of (or_empty (rq_agent req)) "agent" in
  worker ← getenv "OMP_WORKER_ID";
  _ ← (if String.eqb worker "" then putenv "OMP_WORKER_ID" agent else mret tt);
  _ ← attempted (on_hook "" (create_session (nm_swarm n) "manager" ["manager"; agent] None [] [] now));
  mret tt.

(** ** The end of a run *)
Definition drop_file (k : option string) (files : gmap string artefact) : gmap string artefact :=
  match k with Some k => base.delete k files | None => files end.
Definition _cleanup_prompt_file : M unit :=
  modify (fun r => set_own None (om_identity r) (drop_file (om_prompt r) (om_files r)) r).
Definition drop_identity : M unit :=
  modify (fun r => set_own (om_prompt r) None (drop_file (om_identity r) (om_files r)) r).
Definition hot_parked (r : runner) : bool :=
  match om_swarm r with
  | Some (_, agent) =>
    match (lookup_by_field "backend_session_id" agent (om_park r)).1 with
    | Ok (Some m) => bool_decide (pm_lifecycle m = HOT_PARKED)
    | _ => false
    end
  | None => false
  end.
Definition _cleanup : M unit :=
  parked ← gets hot_parked;
  if parked : bool then mret tt else
  _ ← _cleanup_prompt_file;
  _ ← drop_identity;
  swarm ← gets om_swarm;
  match swarm with
  | Some (session, agent) => _ ← attempted (on_agent_stop session agent ""); mret tt
  | None => mret tt
  end.
(** The agent is registered under the name of its session. *)
Definition register_agent (session_id : pyval) (now : Z) : M unit :=
  sid ← getenv "SWARM_SESSION_ID";
  if String.eqb sid "" || negb (truthy session_id) then mret tt else
  match session_id with
  | VStr agent =>
    came ← attempted (on_agent_start sid agent "__local__" "omp" "" now);
    if came : bool then modify (set_swarm (Some (sid, agent))) else mret tt
  | _ => _ ← attempted (_get_kernel ""); mret tt
  end.
Definition _parse_output (returncode : Z) (stdout stderr : string) (now : Z) : M result :=
  _ ← _cleanup_prompt_file;
  if negb (returncode =? 0) then mret {| ox_code := returncode; ox_out := VStr stdout; ox_err := stderr; ox_session := VNone |} else
  s ← gets om_stream;
  '(session, final) ← lift (final_of s stdout);
  _ ← register_agent session now;
  mret {| ox_code := returncode; ox_out := default (VStr stdout) final; ox_err := stderr; ox_session := session |}.

(** ** BaseRunner.run *)
Inductive ending := Returns (r : res result) (at_ : Z) | Hangs.
Definition failed (code : Z) (err : string) : result := {| ox_code := code; ox_out := VStr ""; ox_err := err; ox_session := VNone |}.
(** The watchdog kills the process at the deadline, when it still runs. *)
Definition watched (prog : program) (deadline : option Z) (start : Z) : process * bool :=
  match deadline with
  | Some d =>
    let k := Z.max d start in
    if (0 <? d) && negb (from_option (fun x => x <=? k) false (p_exit (prog None))) then (prog (Some k), true) else (prog None, false)
  | None => (prog None, false)
  end.
(** The end of the output, and the five seconds that the reader of the errors has
    from then on. *)
Definition joined (p : process) (eof : Z) : Z :=
  match p_err_eof p with Some e => Z.min (Z.max eof e) (eof + 5000) | None => eof + 5000 end.
Definition errors_until (t : Z) (p : process) : string :=
  join "" (map snd (List.filter (fun x => x.1 <=? t) (p_stderr p))).
Definition diagnosed (killed : bool) (timeout : Z) (stderr : string) : string :=
  if killed then strip (stderr +:+ NL +:+ "watchdog: killed after " +:+ pretty timeout +:+ "s deadline (AIMESHCHAT_DEADLINE)")
  else stderr.
Definition timed_out (timeout : Z) : result := failed (-1) ("timeout after " +:+ pretty timeout +:+ "s").
(** [finally: self._cleanup()] *)
Definition finally_cleanup {A} (m : M A) : M A := fun r => let x := m r in (x.1, (_cleanup x.2).2).
(** What is waited for, when all lines have been read. *)
Definition waited (p : process) (killed : bool) (eof : Z) : runner -> ending * runner := fun r =>
  let from := joined p eof in
  let finished := match p_exit p with Some x => if x <=? from + 1000 * om_timeout r then Some (Z.max from x) else None | None => None end in
  match finished with
  | Some t =>
    let out := join "" (map snd (p_stdout p)) in
    let x := finally_cleanup (_parse_output (p_code p) out (diagnosed killed (om_timeout r) (errors_until from p)) t) r in
    (Returns x.1 t, x.2)
  | None => (Returns (Ok (timed_out (om_timeout r))) (from + 1000 * om_timeout r), (_cleanup r).2)
  end.
Definition line_base (r : runner) (t : Z) : pydict :=
  base_of (from_option (fun q => or_empty (rq_session_key q)) "" (om_request r)) (om_profile r) (om_request r) (isoformat t).
Definition pumped (p : process) (killed : bool) : runner -> ending * runner := fun r =>
  let x := consume (line_base r) (p_stdout p) (om_stream r) in
  let r := set_stream x.2 r in
  match x.1 with
  | Some (e, t) => (Returns (Raise e) t, r)
  | None => match p_eof p with Some eof => waited p killed eof r | None => (Hangs, r) end
  end.
Definition base_run (n : names) (ctx : option RunContext) (output : string) (req : RunRequest) (deadline : option Z) (start : Z) :
    runner -> ending * runner := fun r =>
  match spawn n ctx output req r with
  | (Ok prog, r) => let p := watched prog deadline start in pumped p.1 p.2 r
  | (Raise e, r) =>
    match e with
    | ValueError m | OSError m => (Returns (Ok (failed 1 m)) start, (_cleanup r).2)
    | AppError "FileNotFoundError" m => (Returns (Ok (failed 127 m)) start, (_cleanup r).2)
    | e => (Returns (Raise e) start, r)
    end
  end.

(** ** OMPRunner.run *)
Definition is_oracle (p : AgentProfile) : bool := ap_park p && negb (ap_auto_exit p).
Definition profile_of (req : RunRequest) : res (option AgentProfile) :=
  let agent := or_empty (rq_agent req) in
  if String.eqb agent "" then Ok None else do p <- resolve_agent_profile home read_text agent; Ok (Some p).
Definition run (n : names) (ctx : option RunContext) (output : string) (req : RunRequest) (deadline : option Z) (start : Z) :
    runner -> ending * runner := fun r =>
  let r := set_run (om_timeout r) fresh_stream None (Some req) r in
  match profile_of req with
  | Raise e => (Returns (match e with ValueError m => Ok (failed 1 m) | e => Raise e end) start, r)
  | Ok p =>
    let timeout := om_timeout r in
    let oracle := from_option is_oracle false p in
    let r := set_profile p r in
    let r := if oracle then set_timeout ORACLE_TIMEOUT r else r in
    let r := if from_option ap_park false p then (_ensure_swarm_session n req start r).2 else r in
    let x := base_run n ctx output req deadline start r in
    (x.1, match x.1 with
          | Hangs => x.2
          | Returns _ _ => set_request None (if oracle then set_timeout timeout x.2 else x.2)
          end)
  end.
End runner.

(** ** What the lines say *)
(** The text and the session that a line carries. *)
Definition shown (kind : string) (line : string) : option pydict :=
  match loads (strip line) with
  | Some (VDict d) => if eq_str (dgetd d "type" (VStr "")) kind then Some d else None
  | _ => None
  end.
Definition kept (v : pyval) : option pyval := if truthy v then Some v else None.
Definition shown_text (line : string) : option pyval :=
  d ← shown "assistant" line;
  match dgetd d "message_end" (VDict []) with VDict e => kept (dgetd e "message" VNone) | _ => None end.
Definition shown_session (line : string) : option pyval :=
  d ← shown "session" line; kept (dgetd d "id" VNone).
Lemma shown_other k k' line d : shown k line = Some d -> k <> k' -> shown k' line = None.
Proof.
  unfold shown. destruct (loads (strip line)) as [[| | | | | |d']|]; try done. intros H Hk.
  destruct (eq_str _ k) eqn:E; [|done]. apply eq_str_true in E. rewrite E. simpl. by destruct (String.eqb_spec k k').
Qed.

Section lines.
Context (py_repr : pyval -> string).
(** A line that is no object of JSON, though JSON. *)
Definition scalar (line : string) : Prop := exists v, loads (strip line) = Some v /\ match v with VDict _ => False | _ => True end.
Lemma scalar_raises base line s : scalar line -> exists e, _consume_line py_repr base line s = Raise (AttributeError e).
Proof. intros (v & Hl & Hv). unfold _consume_line. rewrite Hl. destruct v; try done; by eexists. Qed.
Lemma consume_line_spec base line s s' : _consume_line py_repr base line s = Ok s' ->
  sm_texts s' = from_option (fun t => bounded (sm_texts s ++ [t])) (sm_texts s) (shown_text line) /\
  sm_session s' = default (sm_session s) (shown_session line).
Proof.
  unfold _consume_line, shown_text, shown_session, shown. destruct (loads (strip line)) as [[| | | | | |d]|]; simpl; try done; [|by intros [= <-]].
  destruct (dgetd d "type" (VStr "")) as [| | | |ty| |]; simpl; try (by intros [= <-]).
  destruct (String.eqb_spec ty "session") as [->|Hs]; simpl.
  { intros [= <-]. unfold kept. by destruct (truthy _). }
  destruct (String.eqb_spec ty "assistant") as [->|Ha]; simpl.
  { destruct (dgetd d "message_end" _) as [| | | | | |e]; simpl; try done. unfold kept.
    destruct (truthy _); [|by intros [= <-]]. destruct (slice _ _); [|done]. by intros [= <-]. }
  repeat (destruct (String.eqb _ _); simpl; [by intros [= <-]|]). by intros [= <-].
Qed.
Lemma last_bounded l t : last (bounded (l ++ [t])) = Some t.
Proof.
  unfold bounded, _MAX_VISIBLE_MESSAGES. rewrite length_app. simpl. rewrite drop_app_le by lia. apply last_snoc.
Qed.
Lemma last_cons_default {A} (x : A) l : last (x :: l) = Some (default x (last l)).
Proof. rewrite last_cons. by destruct (last l). Qed.
Lemma consume_spec base l s s' : consume py_repr base l s = (None, s') ->
  last (sm_texts s') = match last (omap shown_text (map snd l)) with Some t => Some t | None => last (sm_texts s) end /\
  sm_session s' = default (sm_session s) (last (omap shown_session (map snd l))).
Proof.
  revert s. induction l as [|[t line] l IH]; intros s; csimpl; [by intros [= <-]|].
  destruct (_consume_line _ _ _ _) as [s1|] eqn:E; [|done]. intros H. apply consume_line_spec in E as [Ht Hs].
  destruct (IH _ H) as [IHt IHs]. rewrite IHt, IHs, Ht, Hs. split.
  - destruct (shown_text line) as [x|]; csimpl; [|done]. rewrite last_cons_default, last_bounded.
    by destruct (last (omap shown_text (map snd l))).
  - destruct (shown_session line) as [x|]; csimpl; [|done]. rewrite last_cons_default. by destruct (last _).
Qed.
End lines.

(** ** The steps of a run *)
Section runs.
Context (py_repr : pyval -> string) (home : string) (pid : Z) (read_text : string -> option string) (isoformat : Z -> string).
Context (launch : list string -> option env -> string -> res program).
Abbreviation spawn' := (spawn home pid launch).
Abbreviation base_run' := (base_run py_repr home pid isoformat launch).
Abbreviation run' := (run py_repr home pid read_text isoformat launch).
Abbreviation pumped' := (pumped py_repr isoformat).
Abbreviation env_identity' := (env_identity home pid).

Abbreviation M := (st runner).
(** A part of the state that a computation keeps, whatever comes of it. *)
Definition keeps {A B} (f : runner -> B) (m : M A) : Prop := forall v, preserves (fun r => f r = v) m.
Section keeps.
Context {B : Type} (f : runner -> B).
Hypothesis own : forall p i fs r, f (set_own p i fs r) = f r.
Lemma keeps_attempted {A} (m : st hooks A) : (forall h r, f (set_hooks h r) = f r) -> keeps f (attempted m).
Proof. intros H v r <-. apply H. Qed.
Lemma env_identity_keeps n : keeps f (env_identity' n).
Proof. intros v. unfold env_identity, swarm_sid, getenv, _write_identity_file. preserving; by rewrite own. Qed.
Lemma spawn_keeps n ctx output req : keeps f (spawn' n ctx output req).
Proof.
  intros v. unfold spawn, _build_cmd, _write_prompt_file, _extra_env, _write_identity_file.
  preserving; first [by apply env_identity_keeps | by rewrite own].
Qed.
Lemma cleanup_keeps : (forall h r, f (set_hooks h r) = f r) -> keeps f _cleanup.
Proof.
  intros H v. unfold _cleanup, _cleanup_prompt_file, drop_identity.
  preserving; first [by apply keeps_attempted | by rewrite own].
Qed.
Lemma parse_keeps code out err now : (forall x e h r, f (set_around x e h r) = f r) -> keeps f (_parse_output code out err now).
Proof.
  intros H v. unfold _parse_output, _cleanup_prompt_file, register_agent, getenv.
  preserving; first [apply keeps_attempted; intros; apply H | by rewrite own | unfold set_swarm; by rewrite H].
Qed.
End keeps.
Lemma keeps_eq {A B} (f : runner -> B) (m : M A) r : keeps f m -> f (m r).2 = f r.
Proof. intros H. by apply (H (f r)). Qed.
Lemma waited_timeout p killed eof r : om_timeout (waited p killed eof r).2 = om_timeout r.
Proof.
  unfold waited. case_match; simpl; rewrite (keeps_eq om_timeout) by (by apply cleanup_keeps); [|done].
  apply (keeps_eq om_timeout). by apply parse_keeps.
Qed.
Lemma pumped_timeout p killed r : om_timeout (pumped' p killed r).2 = om_timeout r.
Proof. unfold pumped. case_match; [by case_match|]. case_match; [|done]. by rewrite waited_timeout. Qed.
Lemma base_run_timeout n ctx output req deadline start r : om_timeout (base_run' n ctx output req deadline start r).2 = om_timeout r.
Proof.
  unfold base_run. assert (Hs : om_timeout (spawn' n ctx output req r).2 = om_timeout r) by (apply (keeps_eq om_timeout); by apply spawn_keeps).
  destruct (spawn' n ctx output req r) as [[prog|e] r1]; simpl in Hs; [by rewrite pumped_timeout|].
  repeat case_match; simpl; rewrite ?(keeps_eq om_timeout) by (by apply cleanup_keeps); done.
Qed.
Lemma ensure_keeps {B} (f : runner -> B) n req now : (forall x e h r, f (set_around x e h r) = f r) ->
  keeps f (_ensure_swarm_session home n req now).
Proof.
  intros H v. unfold _ensure_swarm_session, swarm_sid, getenv, putenv, set_environ.
  preserving; first [apply keeps_attempted; intros; apply H | by rewrite H].
Qed.
(** A run leaves the runner's timeout as it was, also when it raises. *)
Theorem timeout_restored n ctx output req deadline start r x t : (run' n ctx output req deadline start r).1 = Returns x t ->
  om_timeout (run' n ctx output req deadline start r).2 = om_timeout r.
Proof.
  unfold run. destruct (profile_of home read_text req) as [p|e]; [|done]. set (r1 := if from_option is_oracle false p then _ else _).
  set (r2 := if from_option ap_park false p then _ else _).
  destruct (base_run' n ctx output req deadline start r2) as [[y u|] r3] eqn:E; [|done]. intros _. simpl.
  destruct (from_option is_oracle false p) eqn:Ho; [done|]. simpl.
  pose proof (base_run_timeout n ctx output req deadline start r2) as H. rewrite E in H. simpl in H. rewrite H.
  unfold r2, r1. destruct (from_option ap_park false p); [|done].
  rewrite (keeps_eq om_timeout) by (by apply ensure_keeps). done.
Qed.

(** What a run that has come to its end has waited for. *)
Lemma started_run n ctx output req deadline start r prog r1 : spawn' n ctx output req r = (Ok prog, r1) ->
  base_run' n ctx output req deadline start r = pumped' (watched prog deadline start).1 (watched prog deadline start).2 r1.
Proof. intros H. unfold base_run. by rewrite H. Qed.
Lemma spawn_stream n ctx output req r x r1 : spawn' n ctx output req r = (x, r1) -> om_stream r1 = om_stream r.
Proof. intros H. change r1 with (x, r1).2. rewrite <- H. apply (keeps_eq om_stream). by apply spawn_keeps. Qed.
Lemma parse_ok sm out err now r t : om_stream r = sm -> last (sm_texts sm) = Some t ->
  exists r', _parse_output 0 out err now r = (Ok {| ox_code := 0; ox_out := t; ox_err := err; ox_session := sm_session sm |}, r').
Proof.
  intros Hs Ht. unfold _parse_output, _cleanup_prompt_file. rewrite st_bind_unfold. unfold modify at 1. cbn [negb Z.eqb].
  rewrite st_bind_unfold. unfold gets at 1, set_own at 1. cbn [om_stream]. rewrite Hs, st_bind_unfold. unfold lift, final_of.
  rewrite Ht. rewrite st_bind_unfold.
  assert (Hr : forall r, (register_agent (sm_session sm) now r).1 = Ok tt).
  { clear. intros r. unfold register_agent, getenv. rewrite st_bind_unfold. unfold gets. case_match; [done|].
    case_match; try done. rewrite st_bind_unfold. unfold attempted. by case_match. }
  match goal with |- context [register_agent _ _ ?x] => specialize (Hr x); destruct (register_agent (sm_session sm) now x) as [[u|] r'] end; [|done].
  by eexists.
Qed.
(** C33: A run whose program ends well and in time gives the last text that any line
    carries, however many texts there were, and the last session. *)
Theorem output_is_last_text n ctx output req deadline start r prog r1 sm eof x text :
  om_stream r = fresh_stream -> spawn' n ctx output req r = (Ok prog, r1) ->
  let p := (watched prog deadline start).1 in
  let lines := map snd (p_stdout p) in
  consume py_repr (line_base isoformat r1) (p_stdout p) fresh_stream = (None, sm) -> p_eof p = Some eof -> p_exit p = Some x ->
  x <= joined p eof + 1000 * om_timeout r -> p_code p = 0 -> last (omap shown_text lines) = Some text ->
  exists res, (base_run' n ctx output req deadline start r).1 = Returns (Ok res) (Z.max (joined p eof) x) /\
              ox_code res = 0 /\ ox_out res = text /\ ox_session res = default VNone (last (omap shown_session lines)).
Proof.
  intros Hf Hs p lines Hc He Hx Ht Hp Hl. rewrite (started_run _ _ _ _ _ _ _ _ _ Hs). fold p.
  assert (Hr : om_timeout r1 = om_timeout r) by (change r1 with (@Ok program prog, r1).2; rewrite <- Hs; apply (keeps_eq om_timeout); by apply spawn_keeps).
  unfold pumped. rewrite (spawn_stream _ _ _ _ _ _ _ Hs), Hf, Hc. cbn [fst snd]. rewrite He. unfold waited. rewrite Hx. cbn [set_stream set_run om_timeout].
  rewrite Hr, (proj2 (Z.leb_le _ _)) by done. rewrite Hp. unfold finally_cleanup.
  apply consume_spec in Hc as [Hct Hcs]. simpl in Hct, Hcs. fold lines in Hct, Hcs. rewrite Hl in Hct.
  match goal with |- context [_parse_output 0 ?o ?e ?t ?r'] => destruct (parse_ok sm o e t r' text) as [r2 ->]; [done|done|] end.
  eexists. split; [reflexivity|]. simpl. by rewrite Hcs.
Qed.

(** A run that failed, was killed or took too long gives no session, though its
    program may have told one. *)
Lemma parse_session code out err now r res : (_parse_output code out err now r).1 = Ok res -> ox_code res = code /\ (code <> 0 -> ox_session res = VNone).
Proof.
  unfold _parse_output. rewrite st_bind_unfold. unfold _cleanup_prompt_file, modify at 1.
  destruct (Z.eqb_spec code 0) as [->|Hc]; cbn [negb]; [|by intros [= <-]].
  rewrite st_bind_unfold. unfold gets at 1. rewrite st_bind_unfold. destruct (lift _ _) as [[[session final]|] r1]; [|done].
  rewrite st_bind_unfold. destruct (register_agent session now r1) as [[]]; [|done]. by intros [= <-].
Qed.
Lemma base_run_session n ctx output req deadline start r res t :
  (base_run' n ctx output req deadline start r).1 = Returns (Ok res) t -> ox_code res <> 0 -> ox_session res = VNone.
Proof.
  unfold base_run. destruct (spawn' n ctx output req r) as [[prog|e] r1].
  - unfold pumped. case_match; [by case_match|]. case_match; [|done]. unfold waited. case_match; [|by intros [= <- _]].
    simpl. intros [= Hr _] Hc. apply parse_session in Hr as [<- Hs]. by apply Hs.
  - repeat case_match; simpl; intros; by simplify_eq/=.
Qed.
Theorem failed_run_no_session n ctx output req deadline start r res t :
  (run' n ctx output req deadline start r).1 = Returns (Ok res) t -> ox_code res <> 0 -> ox_session res = VNone.
Proof.
  unfold run. destruct (profile_of home read_text req) as [p|[]]; simpl; try (by intros [= <- _]); [|done..].
  apply base_run_session.
Qed.

(** A line of the output that is JSON but no object ends the run with an exception:
    the program is not stopped, and the prompt and the identity stay on the disk. *)
Lemma consume_app base l l' s s' : consume py_repr base l s = (None, s') -> consume py_repr base (l ++ l') s = consume py_repr base l' s'.
Proof.
  revert s. induction l as [|[t line] l IH]; intros s; simpl; [by intros [= <-]|].
  destruct (_consume_line _ _ _ _) as [s1|]; [apply IH|done].
Qed.
Theorem scalar_line_escapes n ctx output req deadline start r prog r1 before_ t line after sm :
  spawn' n ctx output req r = (Ok prog, r1) -> p_stdout (watched prog deadline start).1 = before_ ++ (t, line) :: after ->
  consume py_repr (line_base isoformat r1) before_ (om_stream r1) = (None, sm) -> scalar line ->
  exists e r', base_run' n ctx output req deadline start r = (Returns (Raise (AttributeError e)) t, r') /\
               om_files r' = om_files r1 /\ om_prompt r' = om_prompt r1 /\ om_identity r' = om_identity r1.
Proof.
  intros Hs Hp Hc Hl. rewrite (started_run _ _ _ _ _ _ _ _ _ Hs). unfold pumped. rewrite Hp.
  rewrite (consume_app _ _ _ _ _ Hc). simpl. destruct (scalar_raises py_repr (line_base isoformat r1 t) line sm Hl) as [e ->].
  simpl. by eexists _, _.
Qed.

(** The time that a run may take is counted from the end of its output: it returns
    no sooner than that, and never when a child of the program keeps the pipe open,
    whether the program has ended or not. *)
Lemma joined_after p eof : eof <= joined p eof <= eof + 5000.
Proof. unfold joined. destruct (p_err_eof p); lia. Qed.
Lemma waited_after p killed eof r : 0 <= om_timeout r -> exists y t, (waited p killed eof r).1 = Returns y t /\ joined p eof <= t.
Proof. intros H. unfold waited. case_match; simpl; eexists _, _; (split; [done|]); [|lia]. repeat case_match; simplify_eq; lia. Qed.
Theorem timeout_starts_at_eof n ctx output req deadline start r prog r1 sm : 0 <= om_timeout r -> spawn' n ctx output req r = (Ok prog, r1) ->
  let p := (watched prog deadline start).1 in
  consume py_repr (line_base isoformat r1) (p_stdout p) (om_stream r1) = (None, sm) ->
  match p_eof p with
  | Some eof => exists y t, (base_run' n ctx output req deadline start r).1 = Returns y t /\ eof <= t
  | None => (base_run' n ctx output req deadline start r).1 = Hangs
  end.
Proof.
  intros H0 Hs p Hc. rewrite (started_run _ _ _ _ _ _ _ _ _ Hs). fold p. unfold pumped. rewrite Hc. cbn [fst snd].
  destruct (p_eof p) as [eof|]; [|done].
  assert (Hr : om_timeout r1 = om_timeout r) by (change r1 with (@Ok program prog, r1).2; rewrite <- Hs; apply (keeps_eq om_timeout); by apply spawn_keeps).
  destruct (waited_after p (watched prog deadline start).2 eof (set_stream sm r1)) as (y & t & Hy & Ht); [simpl; by rewrite Hr|].
  exists y, t. split; [done|]. pose proof (joined_after p eof). lia.
Qed.

(** With a deadline every run comes back, at the latest five seconds behind it, when
    the program leaves no child that keeps its pipes open. *)
Record closes (p : process) (by_ : Z) : Prop := {
  cl_lines : forall t line, (t, line) ∈ p_stdout p -> t <= by_;
  cl_eof : exists eof, p_eof p = Some eof /\ eof <= by_;
  cl_exit : exists x, p_exit p = Some x /\ x <= by_ }.
Definition leaves_no_child (prog : program) : Prop :=
  (forall k, closes (prog (Some k)) k) /\ (forall x, p_exit (prog None) = Some x -> closes (prog None) x).
Lemma consume_time base l s e t sm : consume py_repr base l s = (Some (e, t), sm) -> exists line, (t, line) ∈ l.
Proof.
  revert s. induction l as [|[u line] l IH]; intros s; simpl; [done|]. destruct (_consume_line _ _ _ _).
  - intros [x H]%IH. exists x. by right.
  - intros [= _ <- _]. exists line. by left.
Qed.
Lemma pumped_by p killed by_ r : 0 <= om_timeout r -> closes p by_ -> exists y t, (pumped' p killed r).1 = Returns y t /\ t <= by_ + 5000.
Proof.
  intros H0 [Hl (eof & He & Hb) (x & Hx & Hxb)]. unfold pumped. destruct (consume _ _ _ _) as [[[e t]|] sm] eqn:E; cbn [fst snd].
  - apply consume_time in E as [line Hin]. apply Hl in Hin. eexists _, _. split; [done|]. lia.
  - rewrite He. unfold waited. rewrite Hx. pose proof (joined_after p eof). case_match eqn:Hf; cbn [fst snd]; eexists _, _; (split; [done|]).
    + case_match; simplify_eq. lia.
    + case_match eqn:Hle; [done|]. apply Z.leb_gt in Hle. simpl in *. lia.
Qed.
Theorem watchdog_bounds n ctx output req d start r : 0 < d -> 0 <= om_timeout r ->
  (forall cmd e dir prog, launch cmd e dir = Ok prog -> leaves_no_child prog) ->
  exists y t, (base_run' n ctx output req (Some d) start r).1 = Returns y t /\ t <= Z.max d start + 5000.
Proof.
  intros Hd H0 Hl. destruct (spawn' n ctx output req r) as [[prog|e] r1] eqn:E.
  - rewrite (started_run _ _ _ _ _ _ _ _ _ E).
    assert (Hr : om_timeout r1 = om_timeout r) by (change r1 with (@Ok program prog, r1).2; rewrite <- E; apply (keeps_eq om_timeout); by apply spawn_keeps).
    apply pumped_by; [by rewrite Hr|].
    assert (Hp : leaves_no_child prog) by (unfold spawn in E; st_inv; by eapply Hl). destruct Hp as [Hk Hf].
    unfold watched. rewrite (proj2 (Z.ltb_lt _ _)) by done. cbn [andb]. destruct (p_exit (prog None)) as [x|] eqn:Hx; [|apply Hk].
    cbn [from_option]. destruct (x <=? Z.max d start) eqn:Hle; [|apply Hk]. apply Z.leb_le in Hle. destruct (Hf x eq_refl) as [A (eof & B & C) (y & D & F)].
    constructor; [|exists eof; split; [done|]|exists y; split; [done|]]; [|cbn [fst negb]; lia..]. intros t line Hin. apply A in Hin. lia.
  - unfold base_run. rewrite E. repeat case_match; simpl; eexists _, _; (split; [done|lia]).
Qed.

(** *** The identity *)
Abbreviation extra_env' := (_extra_env home pid).
Lemma env_identity_eq n r :
  let sid := first_of (default "" (dget (om_environ r) "SWARM_SESSION_ID")) (default "" (dget (om_environ r) "OMP_SESSION_ID")) in
  let worker := first_of (default "" (dget (om_environ r) "OMP_WORKER_ID")) "worker" in
  env_identity' n r =
    if String.eqb sid "" then (Ok None, r)
    else (Ok (Some (identity_vars home n sid worker (default "" (dget (om_environ r) "MAILBOX_ROOT")))),
          set_own (om_prompt r) (Some (identity_path home n))
            (<[identity_path home n := Identity (identity_payload pid n sid worker)]> (om_files r)) r).
Proof.
  unfold env_identity, swarm_sid, getenv. rewrite !st_bind_unfold. unfold gets at 1. cbv beta iota. rewrite st_bind_unfold.
  unfold gets at 1, mret at 1, st_ret at 1. case_match; [done|]. rewrite st_bind_unfold. unfold gets at 1. done.
Qed.
(** What the run hands to the plugin: nothing without a session of the swarm, and
    otherwise an identity whose file and variables say the same, with no empty name. *)
Theorem identity_agrees n ctx r vars r1 : extra_env' n ctx r = (Ok (Some vars), r1) ->
  exists session worker, session <> "" /\ worker <> "" /\ om_identity r1 = Some (identity_path home n) /\
    om_files r1 !! identity_path home n = Some (Identity (identity_payload pid n session worker)) /\
    dget vars "SWARM_SESSION_ID" = Some session /\ dget vars "OMP_MAILBOX_SESSION_ID" = Some session /\
    dget vars "OMP_MAILBOX_AGENT_ID" = Some worker /\ dget vars "OMP_MAILBOX_IDENTITY_FILE" = Some (identity_path home n) /\
    dget vars "OMP_MAILBOX_NONCE" = Some (nm_nonce n).
Proof.
  assert (Hne : forall a b, b <> "" -> first_of a b <> "").
  { intros a b Hb. unfold first_of. by destruct (String.eqb_spec a ""). }
  match goal with |- _ -> ?P => assert (He : env_identity' n r = (Ok (Some vars), r1) -> P) end.
  2: { unfold _extra_env. destruct ctx as [c|]; [|exact He]. destruct (String.eqb_spec (rc_swarm c) "") as [_|Hc]; [exact He|].
       intros H. unfold _write_identity_file in H. st_inv. exists (rc_swarm c), (first_of (rc_agent c) "oracle"). split_and!; try done; [by apply Hne|simpl; by rewrite lookup_insert_eq]. }
  rewrite env_identity_eq. cbv zeta. match goal with |- (if String.eqb ?x "" then _ else _) = _ -> _ => destruct (String.eqb_spec x "") as [|Hs] end; [done|]. intros [= <- <-].
  eexists _, (first_of (default "" (dget (om_environ r) "OMP_WORKER_ID")) "worker"). split_and!; try done; [by apply Hne|simpl; by rewrite lookup_insert_eq].
Qed.
Lemma extra_env_state n ctx r : (extra_env' n ctx r).2 = r \/ exists pl,
  (extra_env' n ctx r).2 = set_own (om_prompt r) (Some (identity_path home n)) (<[identity_path home n := Identity pl]> (om_files r)) r.
Proof.
  assert (He : (env_identity' n r).2 = r \/ exists pl,
    (env_identity' n r).2 = set_own (om_prompt r) (Some (identity_path home n)) (<[identity_path home n := Identity pl]> (om_files r)) r).
  { rewrite env_identity_eq. case_match; [by left|]. right. by eexists. }
  unfold _extra_env. destruct ctx as [c|]; [|done]. case_match; [done|]. right. by eexists.
Qed.

(** *** Files that a run leaves *)
(** Apart from its own prompt and identity the files are [F]. *)
Definition tidy (F : gmap string artefact) (r : runner) : Prop := drop_file (om_identity r) (drop_file (om_prompt r) (om_files r)) = F.
Definition fresh_names (n : names) (r : runner) : Prop :=
  om_files r !! nm_prompt n = None /\ om_files r !! identity_path home n = None /\ nm_prompt n <> identity_path home n.
Lemma spawn_tidy n ctx output req r : fresh_names n r -> om_identity r = None -> tidy (om_files r) (spawn' n ctx output req r).2.
Proof.
  intros (Hp & Hi & Hne) Ho. unfold spawn, _build_cmd, _write_prompt_file. rewrite !st_bind_unfold. unfold modify at 1, gets at 1.
  set (ra := set_own _ _ _ r). cbv beta iota. rewrite st_bind_unfold. pose proof (extra_env_state n ctx ra) as Hs.
  assert (Ha : drop_file (Some (nm_prompt n)) (om_files ra) = om_files r) by (simpl; by rewrite delete_insert_id).
  assert (Ht : tidy (om_files r) (extra_env' n ctx ra).2).
  { destruct Hs as [->|[pl ->]]; unfold tidy; simpl; rewrite ?Ho; simpl; [done|].
    rewrite delete_insert_ne by done. simpl in Ha. rewrite Ha. by apply delete_insert_id. }
  destruct (extra_env' n ctx ra) as [[x|e] rb]; simpl in Ht; [|done]. rewrite st_bind_unfold. unfold gets, lift. done.
Qed.
Lemma parse_tidy F code out err now : preserves (tidy F) (_parse_output code out err now).
Proof.
  assert (Ha : forall A (m : st hooks A), preserves (tidy F) (attempted m)) by (by intros A m r H).
  unfold _parse_output, _cleanup_prompt_file, register_agent, getenv. preserving; apply Ha.
Qed.
Lemma cleanup_tidy F r : tidy F r -> hot_parked r = false -> om_files (_cleanup r).2 = F.
Proof.
  intros Ht Hh. unfold _cleanup. rewrite st_bind_unfold. unfold gets at 1. rewrite Hh, st_bind_unfold. unfold _cleanup_prompt_file, modify at 1.
  rewrite st_bind_unfold. unfold drop_identity, modify at 1. rewrite st_bind_unfold. unfold gets at 1. by case_match; [case_match|].
Qed.
Lemma cleaned F m r : tidy F r -> preserves (tidy F) m -> hot_parked (@finally_cleanup result m r).2 = false -> om_files (finally_cleanup m r).2 = F.
Proof.
  intros Ht Hm. unfold finally_cleanup. simpl. rewrite (keeps_eq hot_parked) by (by apply cleanup_keeps). intros Hh.
  apply cleanup_tidy; [by apply Hm|done].
Qed.
(** A run that comes back with a result has removed its prompt and its identity, and
    touched no other file, unless its agent is parked. *)
Theorem no_files_left n ctx output req deadline start r res t r' : fresh_names n r -> om_identity r = None ->
  base_run' n ctx output req deadline start r = (Returns (Ok res) t, r') -> hot_parked r' = false -> om_files r' = om_files r.
Proof.
  intros Hf Hi. pose proof (spawn_tidy n ctx output req r Hf Hi) as Ht. unfold base_run.
  destruct (spawn' n ctx output req r) as [[prog|e] r1]; simpl in Ht.
  - unfold pumped. destruct (consume _ _ _ _) as [[[]|] sm]; [done|]. cbn [fst snd]. destruct (p_eof _) as [eof|]; [|done]. unfold waited. case_match.
    + intros [= _ _ <-] Hh. by eapply cleaned; [|apply parse_tidy|].
    + intros [= _ _ <-]. rewrite (keeps_eq hot_parked) by (by apply cleanup_keeps). by apply cleanup_tidy.
  - assert (Hc : hot_parked (_cleanup r1).2 = false -> om_files (_cleanup r1).2 = om_files r).
    { rewrite (keeps_eq hot_parked) by (by apply cleanup_keeps). by apply cleanup_tidy. }
    repeat case_match; intros [= <- _ <-] || done; done.
Qed.

(** *** Sessions of the swarm *)
Definition var (k : string) (r : runner) : string := default "" (dget (om_environ r) k).
Lemma swarm_sid_eq r : swarm_sid r = (Ok (first_of (var "SWARM_SESSION_ID" r) (var "OMP_SESSION_ID" r)), r).
Proof. done. Qed.
Abbreviation ensure' := (_ensure_swarm_session home).
Lemma ensure_wired n req now r : first_of (var "SWARM_SESSION_ID" r) (var "OMP_SESSION_ID" r) <> "" -> ensure' n req now r = (Ok tt, r).
Proof.
  intros H. unfold _ensure_swarm_session. rewrite st_bind_unfold, swarm_sid_eq. cbv beta iota.
  by rewrite (proj2 (String.eqb_neq _ _) H).
Qed.
Definition put (k v : string) (r : runner) : runner := set_environ (dset (om_environ r) k v) r.
Lemma var_put k k' v r : var k (put k' v r) = if String.eqb k k' then v else var k r.
Proof.
  unfold var, put. simpl. destruct (String.eqb_spec k k') as [->|H]; [by rewrite dget_dset_eq|by rewrite dget_dset_ne].
Qed.
(** The environment and the sessions after the first request of an oracle. *)
Definition put_if (k v : string) (r : runner) : runner := if String.eqb (var k r) "" then put k v r else r.
Definition agent_of (req : RunRequest) : string := first_of (or_empty (rq_agent req)) "agent".
Definition wired (n : names) (req : RunRequest) (r : runner) : runner :=
  put_if "OMP_WORKER_ID" (agent_of req) (put_if "MAILBOX_ROOT" (home +:+ "/.omp/mailbox") (put "SWARM_SESSION_ID" (nm_swarm n) r)).
Definition created (n : names) (req : RunRequest) (now : Z) (h : hooks) : hooks :=
  (on_hook "" (create_session (nm_swarm n) "manager" ["manager"; agent_of req] None [] [] now) h).2.
Lemma put_if_step {A} k v (m : M A) r : ((_ ← (if String.eqb (var k r) "" then putenv k v else mret tt); m) : M A) r = m (put_if k v r).
Proof. rewrite st_bind_unfold. unfold put_if. by destruct (String.eqb _ ""). Qed.
Lemma put_if_hooks k v r : om_hooks (put_if k v r) = om_hooks r.
Proof. unfold put_if. by destruct (String.eqb _ ""). Qed.
Lemma ensure_fresh n req now r : first_of (var "SWARM_SESSION_ID" r) (var "OMP_SESSION_ID" r) = "" ->
  ensure' n req now r = (Ok tt, set_hooks (created n req now (om_hooks r)) (wired n req r)).
Proof.
  intros H. unfold _ensure_swarm_session. rewrite st_bind_unfold, swarm_sid_eq. cbv beta iota. rewrite H. cbn [negb String.eqb].
  change (getenv ?k) with (gets (var k)). rewrite st_bind_unfold. unfold putenv at 1, modify at 1. fold (put "SWARM_SESSION_ID" (nm_swarm n) r).
  rewrite st_bind_unfold. unfold gets at 1. rewrite put_if_step, st_bind_unfold. unfold gets at 1. rewrite put_if_step, st_bind_unfold.
  fold (agent_of req) (wired n req r). unfold attempted, created, wired, set_hooks. by rewrite !put_if_hooks.
Qed.
Lemma var_put_if k k' v r : var k (put_if k' v r) = if String.eqb k k' then first_of (var k r) v else var k r.
Proof.
  unfold put_if, first_of. destruct (String.eqb_spec (var k' r) ""), (String.eqb_spec k k'); subst; rewrite ?var_put, ?String.eqb_refl; try done.
  - by rewrite (proj2 (String.eqb_eq _ _)).
  - by destruct (String.eqb_spec k k').
  - by rewrite (proj2 (String.eqb_neq _ _)).
Qed.
(** A second request in the same process: it gets the session of the first, and its
    agent the name of the first one's, whatever it asks for. *)
Theorem first_agent_stays n1 req1 t1 r n2 req2 t2 : first_of (var "SWARM_SESSION_ID" r) (var "OMP_SESSION_ID" r) = "" ->
  var "OMP_WORKER_ID" r = "" -> nm_swarm n1 <> "" ->
  let r1 := (ensure' n1 req1 t1 r).2 in
  ensure' n2 req2 t2 r1 = (Ok tt, r1) /\
  exists root, (env_identity' n2 r1).1 = Ok (Some (identity_vars home n2 (nm_swarm n1) (agent_of req1) root)).
Proof.
  intros H Hw Hn r1. assert (Hr : var "SWARM_SESSION_ID" r1 = nm_swarm n1 /\ var "OMP_WORKER_ID" r1 = agent_of req1).
  { unfold r1. rewrite ensure_fresh by done. cbn [snd]. change (var ?k (set_hooks ?h ?x)) with (var k x). unfold wired.
    rewrite !var_put_if, !var_put. cbn [String.eqb Ascii.eqb Bool.eqb]. rewrite Hw. done. }
  destruct Hr as [Hs Ha]. split.
  - apply ensure_wired. rewrite Hs. unfold first_of. by rewrite (proj2 (String.eqb_neq _ _) Hn).
  - rewrite env_identity_eq. cbv zeta. change (default "" (dget (om_environ r1) ?k)) with (var k r1). rewrite Hs, Ha.
    assert (Hne : agent_of req1 <> "") by (unfold agent_of, first_of; by destruct (String.eqb_spec (or_empty (rq_agent req1)) "")).
    unfold first_of. rewrite (proj2 (String.eqb_neq _ _) Hn), (proj2 (String.eqb_neq _ _) Hn), (proj2 (String.eqb_neq _ _) Hne). by eexists.
Qed.
Lemma create_roster sid manager roster now k s k1 : create_session sid manager roster None [] [] now k = (Ok s, k1) ->
  sessions k1 !! sid = Some s /\ s_roster s = sorted_set (manager :: roster).
Proof. unfold create_session, _persist_meta. intros H. st_inv. simpl. by rewrite lookup_insert_eq. Qed.
(** The session that the runner makes has a manager and the agent's name for its
    members, and the agent is registered under the identifier of its own session: the
    kernel refuses it, the runner goes on, and no look at the parked agents will find it. *)
Theorem session_never_registered n req t r session_id now s : first_of (var "SWARM_SESSION_ID" r) (var "OMP_SESSION_ID" r) = "" ->
  nm_swarm n <> "" -> (on_hook "" (create_session (nm_swarm n) "manager" ["manager"; agent_of req] None [] [] t) (om_hooks r)).1 = Ok s ->
  session_id <> "" -> session_id <> "manager" -> session_id <> agent_of req ->
  let r1 := (ensure' n req t r).2 in
  exists h, register_agent (VStr session_id) now r1 = (Ok tt, set_hooks h r1) /\ hk_registered h = hk_registered (om_hooks r).
Proof.
  intros H Hn Hc H0 Hm Ha. rewrite ensure_fresh by done. cbn [snd]. set (r1 := set_hooks _ _).
  assert (Hs : var "SWARM_SESSION_ID" r1 = nm_swarm n).
  { unfold r1. change (var ?k (set_hooks ?h ?x)) with (var k x). unfold wired. by rewrite !var_put_if, !var_put. }
  assert (Hh : on_hook "" (create_session (nm_swarm n) "manager" ["manager"; agent_of req] None [] [] t) (om_hooks r) = (Ok s, om_hooks r1)).
  { rewrite <- Hc. apply surjective_pairing. }
  apply on_hook_Ok in Hh as (k & k1 & _ & Hk & Hl & Hr). apply create_roster in Hk as [Hk Hro].
  destruct (stranger_refused (nm_swarm n) session_id "__local__" "omp" "" now (om_hooks r1) k1 s) as (h1 & Hst & _ & Hreg).
  { by rewrite (get_kernel_here _ _ _ Hl). }
  { done. }
  { rewrite Hro, elem_of_sorted_set, !elem_of_cons, elem_of_nil. by intros [?|[?|[?|[]]]]. }
  exists h1. split; [|by rewrite Hreg]. unfold register_agent. change (getenv ?k) with (gets (var k)). rewrite st_bind_unfold. unfold gets at 1.
  rewrite Hs, (proj2 (String.eqb_neq _ _) Hn). cbn [truthy orb negb]. rewrite (proj2 (String.eqb_neq _ _) H0). cbn [negb].
  rewrite st_bind_unfold. unfold attempted. by rewrite Hst.
Qed.
(** The timeout of a request to an oracle counts for nothing: an hour is what it gets. *)
Theorem explicit_timeout_dropped n ctx output req deadline start r p timeout : profile_of home read_text req = Ok (Some p) -> is_oracle p = true ->
  (run' n ctx output req deadline start (set_timeout timeout r)).1 = (run' n ctx output req deadline start r).1.
Proof. intros Hp Ho. unfold run. by rewrite Hp, !(Ho : from_option is_oracle false (Some p) = true). Qed.
End runs.

(** ** Profiles are read back *)
Definition word (s : string) : Prop :=
  (exists c r, s = String c r /\ solid c = true) /\ (exists r c, s = r +:+ String c "" /\ solid c = true).
Lemma strip_word s : word s -> strip s = s.
Proof. intros [(c & r & -> & Hc) (r' & c' & Hs & Hc')]. unfold strip. rewrite lstrip_solid_head by done. rewrite Hs. by apply rstrip_solid. Qed.
Lemma strip_space s : word s -> strip (String " "%char s) = s.
Proof. intros Hs. by rewrite <- (strip_word s Hs) at 2. Qed.
Abbreviation printable s := (all_chars (between 32 126) s = true).
(** A pair that a line of a profile can hold. *)
Record clean (x : string * string) : Prop := {
  cn_key : word x.1; cn_value : word x.2; cn_chars : printable x.1 /\ printable x.2; cn_colon : has_char ":"%char x.1 = false;
  cn_head : match x.1 with String c _ => c <> "#"%char /\ c <> "-"%char | "" => False end; cn_quotes : unquote x.2 = x.2 }.
Definition fm_text (x : string * string) : string := x.1 +:+ ": " +:+ x.2.
Fixpoint fm_body (l : env) : string := match l with [] => "" | x :: l => NL +:+ fm_text x +:+ fm_body l end.
Definition frontmatter (l : env) : string := "---" +:+ fm_body l +:+ NL +:+ "---".
Lemma fm_text_word x : clean x -> word (fm_text x).
Proof.
  intros [[(c & r & Hk & Hc) _] [_ (r' & c' & Hv & Hc')] _ _ _ _]. unfold fm_text. split.
  - exists c, (r +:+ ": " +:+ x.2). by rewrite Hk.
  - exists (x.1 +:+ ": " +:+ r'), c'. by rewrite Hv, !string_app_assoc.
Qed.
Lemma fm_line_clean d x : clean x -> x.1 ∉ d.*1 -> fm_line d (fm_text x) = d ++ [x].
Proof.
  intros Hx Hd. unfold fm_line. rewrite strip_word by by apply fm_text_word. destruct Hx as [Hk Hv _ Hc Hh Hq]. destruct x as [k v]. simpl in *.
  assert (Hs : split1 ":"%char (fm_text (k, v)) = Some (k, String " "%char v)) by (unfold fm_text; simpl; by apply split1_app).
  assert (Hl : dset d (strip k) (unquote (strip (String " "%char v))) = d ++ [(k, v)]).
  { rewrite strip_word, strip_space, Hq by done. clear -Hd. induction d as [|[k' v'] d IH]; simpl in *; [done|].
    apply not_elem_of_cons in Hd as [Hne Hd]. rewrite (proj2 (String.eqb_neq _ _) Hne). by rewrite IH. }
  destruct k as [|c k]; [done|]. destruct Hh as [H1 _].
  assert (Hn : no_pair (fm_text (String c k, v)) = false) by (unfold fm_text; simpl; by apply Ascii.eqb_neq).
  by rewrite Hn, Hs.
Qed.
(** The text before the mark: no line of a profile begins with it. *)
Lemma before_text_skip pat a s : all_chars (between 32 126) a = true ->
  before_text (NL +:+ pat) (a +:+ s) = (fun t => a +:+ t) <$> before_text (NL +:+ pat) s.
Proof.
  induction a as [|c a IH]; [intros _; rewrite string_app_nil_l; by destruct (before_text _ s)|].
  cbn [all_chars]. intros [Hc Ha]%andb_true_iff. rewrite string_app_cons. cbn [before_text]. rewrite IH by done.
  replace (String.prefix _ _) with false; [by destruct (before_text _ s)|].
  unfold NL. rewrite string_app_cons. cbn [String.prefix]. destruct (Ascii.ascii_dec newline c) as [<-|]; [by vm_compute in Hc|done].
Qed.
Lemma fm_text_printable x : clean x -> printable (fm_text x).
Proof. intros Hx. destruct (cn_chars _ Hx) as [Hk Hv]. unfold fm_text. rewrite !all_chars_app, Hk, Hv. done. Qed.
Lemma before_text_lines l : Forall clean l -> before_text (NL +:+ "---") (fm_body l +:+ NL +:+ "---") = Some (fm_body l).
Proof.
  induction 1 as [|x l Hx _ IH]; [by vm_compute|]. cbn [fm_body]. rewrite !string_app_assoc.
  pose proof (before_text_skip "---" (fm_text x) (fm_body l +:+ NL +:+ "---") (fm_text_printable x Hx)) as Hs. rewrite IH in Hs.
  pose proof (cn_head _ Hx) as Hh. remember (fm_text x +:+ fm_body l +:+ NL +:+ "---") as rest eqn:Hr.
  unfold NL at 2. rewrite string_app_cons, string_app_nil_l. cbn [before_text]. rewrite Hs.
  replace (String.prefix _ _) with false; [unfold NL; by rewrite !string_app_cons, !string_app_nil_l|].
  subst rest. unfold fm_text. destruct x as [[|c k] v]; [done|]. destruct Hh as [_ Hc].
  cbn [fst]. unfold NL at 1. rewrite !string_app_cons, !string_app_nil_l. cbn [String.prefix].
  destruct (Ascii.ascii_dec newline newline) as [_|]; [|done]. by destruct (Ascii.ascii_dec "-"%char c) as [<-|].
Qed.
Lemma split_body n x l : clean x -> Forall clean l -> (String.length (fm_text x +:+ fm_body l) <= n)%nat ->
  split_lines n (fm_text x +:+ fm_body l) = map fm_text (x :: l).
Proof.
  intros Hx Hl. revert n x Hx. induction Hl as [|y l Hy _ IH]; intros n x Hx Hn; pose proof (fm_text_printable x Hx) as Hp.
  - cbn [fm_body] in *. rewrite string_append_nil in *. apply split_one; [done| |done].
    destruct (fm_text_word x Hx) as [(c & r & -> & _) _]. done.
  - cbn [fm_body] in *. rewrite split_printable by done. cbn [map]. f_equal. apply IH; [done|].
    rewrite string_length_app in Hn. cbn [String.length] in Hn. rewrite string_length_app in Hn. change (String.length NL) with 1%nat in Hn. lia.
Qed.
(** The pairs of a profile are read back from its text. *)
Theorem frontmatter_roundtrip l : Forall clean l -> NoDup l.*1 -> _parse_frontmatter (frontmatter l) = l.
Proof.
  intros Hl Hd. assert (Hf : forall d, Forall clean l -> NoDup (d ++ l).*1 -> foldl fm_line d (map fm_text l) = d ++ l).
  { clear. induction l as [|x l IH]; intros d Hl Hd; [by rewrite app_nil_r|]. apply Forall_cons in Hl as [Hx Hl]. cbn [map foldl].
    rewrite fm_line_clean by (try done; rewrite fmap_app in Hd; apply NoDup_app in Hd as (_ & Hd & _); intros Hin; apply (Hd _ Hin); by left).
    rewrite IH by (rewrite <- ?app_assoc; done). by rewrite <- app_assoc. }
  unfold frontmatter. change (_parse_frontmatter ("---" +:+ ?t)) with
    (match before_text (NL +:+ "---") t with Some p => foldl fm_line [] (splitlines (skip_char p)) | None => [] end).
  rewrite before_text_lines by done. destruct l as [|x l]; [done|]. pose proof Hl as Hl'. apply Forall_cons in Hl' as [Hx Hl'].
  assert (Hk : skip_char (fm_body (x :: l)) = fm_text x +:+ fm_body l).
  { cbn [fm_body]. unfold NL. rewrite string_app_cons, string_app_nil_l. cbn [skip_char].
    destruct (fm_text_word x Hx) as [(c & r & -> & Hc) _]. rewrite string_app_cons. cbn [skip_cont]. replace (is_cont c) with false; [done|].
    revert Hc. clear. by destruct c as [[] [] [] [] [] [] [] []]. }
  rewrite Hk. unfold splitlines. rewrite split_body by done. by apply (Hf []).
Qed.

(** ** Examples *)
Definition json_line (d : pydict) : string := spaced (fun _ => "0") " " (VDict d).
Definition says (kind : string) (d : pydict) : string := json_line (("type", VStr kind) :: d).
Definition says_text (t : string) : string := says "assistant" [("message_end", VDict [("message", VStr t)])].
(** A program that prints a line every second, ends after them and leaves no child. *)
Fixpoint clocked (t : Z) (l : list string) : list (Z * string) :=
  match l with [] => [] | x :: l => (t, x +:+ NL) :: clocked (t + 1000) l end.
Definition ends_at (lines : list (Z * string)) (t code : Z) : process :=
  {| p_stdout := List.filter (fun x => x.1 <=? t) lines; p_eof := Some t; p_stderr := []; p_err_eof := Some t; p_exit := Some t; p_code := code |}.
Definition demo_program (l : list string) (t code : Z) : program := fun k =>
  match k with Some k => if t <=? k then ends_at (clocked 0 l) t code else ends_at (clocked 0 l) k (-9) | None => ends_at (clocked 0 l) t code end.
Definition demo_launch (l : list string) (t code : Z) : list string -> option env -> string -> res program := fun _ _ _ => Ok (demo_program l t code).
Definition demo_request (agent : string) : RunRequest := {|
  rq_task := "look"; rq_workdir := "/w"; rq_backend := None; rq_agent := Some agent; rq_model := None; rq_skills := None;
  rq_skip_permissions := true; rq_raw := false; rq_session_key := Some "k"; rq_new_session := false; rq_no_auto_resume := false;
  rq_topic := None; rq_repo_index := 0; rq_host := None; rq_timeout := 600; rq_resume := None; rq_request_id := "q"; rq_run_id := "r";
  rq_review_key := ""; rq_require_ack := false; rq_capabilities := [] |}.
Definition oracle_profile : env := [("name", "oracle"); ("park", "true"); ("auto-exit", "false")].
Definition demo_profiles (path : string) : option string :=
  if String.eqb path (profile_path "/h" "oracle") then Some (frontmatter oracle_profile +:+ NL) else None.
Definition demo_names : names := {| nm_swarm := "swarm_1"; nm_token := "t1"; nm_nonce := "n1"; nm_prompt := "/tmp/p1" |}.
Definition demo_runner : runner := {|
  om_binary := "omp"; om_timeout := 600; om_stream := fresh_stream; om_profile := None; om_request := None; om_prompt := None;
  om_identity := None; om_swarm := None; om_environ := []; om_files := ∅; om_hooks := fresh_hooks ∅; om_park := empty_park |}.
Definition no_repr (v : pyval) : string := "?".
Definition no_iso (t : Z) : string := "now".
Definition demo_lines : list string := [says "session" [("id", VStr "ses_9")]; says_text "first"; says_text "second"; says "agent_end" []].
Definition demo_run (l : list string) (t code : Z) : ending * runner :=
  run no_repr "/h" 7 demo_profiles no_iso (demo_launch l t code) demo_names None "" (demo_request "oracle") None 0 demo_runner.
Definition demo_spawn (l : list string) (t code : Z) (r : runner) : res program * runner :=
  spawn "/h" 7 (demo_launch l t code) demo_names None "" (demo_request "oracle") r.
Lemma demo_spawned l t code r : demo_spawn l t code r = (Ok (demo_program l t code), (demo_spawn l t code r).2).
Proof.
  assert (H : (demo_spawn l t code r).1 = Ok (demo_program l t code)).
  { unfold demo_spawn, spawn, _build_cmd, _write_prompt_file. rewrite !st_bind_unfold. unfold modify at 1, gets at 1. cbv beta iota.
    rewrite st_bind_unfold. unfold _extra_env. rewrite env_identity_eq. by destruct (String.eqb (first_of _ _) _). }
  rewrite <- H. apply surjective_pairing.
Qed.

Lemma timeout_restored_witness : om_timeout (demo_run demo_lines 5000 0).2 = 600.
Proof. eapply (timeout_restored no_repr "/h" 7 demo_profiles no_iso). vm_compute. reflexivity. Defined.
Lemma output_is_last_text_witness : exists res,
  (base_run no_repr "/h" 7 no_iso (demo_launch demo_lines 5000 0) demo_names None "" (demo_request "oracle") None 0 demo_runner).1
    = Returns (Ok res) 5000 /\ ox_code res = 0 /\ ox_out res = VStr "second" /\ ox_session res = VStr "ses_9".
Proof.
  pose proof (output_is_last_text no_repr "/h" 7 no_iso (demo_launch demo_lines 5000 0) demo_names None "" (demo_request "oracle") None 0
    demo_runner _ _ (consume no_repr (fun _ => base_of "" None None "now") (clocked 0 demo_lines) fresh_stream).2 5000 5000 (VStr "second")
    eq_refl (demo_spawned demo_lines 5000 0 demo_runner)) as H.
  exact (H ltac:(by vm_compute) eq_refl eq_refl ltac:(by vm_compute) eq_refl ltac:(by vm_compute)).
Defined.
Lemma failed_run_no_session_witness : exists res t, (demo_run demo_lines 5000 3).1 = Returns (Ok res) t /\ ox_session res = VNone.
Proof.
  assert (H : exists res t, (demo_run demo_lines 5000 3).1 = Returns (Ok res) t /\ ox_code res <> 0) by (eexists _, _; split; [vm_compute; reflexivity|done]).
  destruct H as (res & t & H & Hc). exists res, t. split; [done|]. by apply (failed_run_no_session _ _ _ _ _ _ _ _ _ _ _ _ _ _ _ H).
Defined.
Lemma scalar_line_escapes_witness : exists e r',
  base_run no_repr "/h" 7 no_iso (demo_launch [says_text "a"; "5"; says_text "b"] 5000 0) demo_names None "" (demo_request "oracle") None 0 demo_runner
    = (Returns (Raise (AttributeError e)) 1000, r') /\ om_prompt r' = Some "/tmp/p1".
Proof.
  destruct (scalar_line_escapes no_repr "/h" 7 no_iso (demo_launch [says_text "a"; "5"; says_text "b"] 5000 0) demo_names None "" (demo_request "oracle") None 0
    demo_runner _ _ [(0, says_text "a" +:+ NL)] 1000 ("5" +:+ NL) [(2000, says_text "b" +:+ NL)]
    (consume no_repr (fun _ => base_of "" None None "now") [(0, says_text "a" +:+ NL)] fresh_stream).2 (demo_spawned [says_text "a"; "5"; says_text "b"] 5000 0 demo_runner)) as (e & r' & H & _ & Hp & _).
  - by vm_compute.
  - by vm_compute.
  - exists (VInt 5). by vm_compute.
  - exists e, r'. split; [exact H|]. rewrite Hp. by vm_compute.
Defined.
(** A program that has ended and left a child with its pipe. *)
Definition left_open : program := fun _ =>
  {| p_stdout := []; p_eof := None; p_stderr := []; p_err_eof := None; p_exit := Some 10; p_code := 0 |}.
Lemma timeout_starts_at_eof_witness :
  (base_run no_repr "/h" 7 no_iso (fun _ _ _ => Ok left_open) demo_names None "" (demo_request "oracle") None 0 demo_runner).1 = Hangs.
Proof.
  refine (timeout_starts_at_eof no_repr "/h" 7 no_iso (fun _ _ _ => Ok left_open) demo_names None "" (demo_request "oracle") None 0 demo_runner
    left_open (spawn "/h" 7 (fun _ _ _ => Ok left_open) demo_names None "" (demo_request "oracle") demo_runner).2 fresh_stream _ _ _); by vm_compute.
Defined.
Lemma ends_closes lines t code b : t <= b -> closes (ends_at lines t code) b.
Proof.
  intros H. constructor; simpl; [|by exists t..]. intros u line Hin.
  apply list_elem_of_In, List.filter_In in Hin as [_ Hu]. simpl in Hu. lia.
Qed.
Lemma watchdog_bounds_witness : exists y t,
  (base_run no_repr "/h" 7 no_iso (demo_launch demo_lines 90000 0) demo_names None "" (demo_request "oracle") (Some 30000) 0 demo_runner).1
    = Returns y t /\ t <= 35000.
Proof.
  apply (watchdog_bounds no_repr "/h" 7 no_iso (demo_launch demo_lines 90000 0) demo_names None "" (demo_request "oracle") 30000 0 demo_runner);
    [lia|simpl; lia|].
  intros cmd e dir prog [= <-]. split.
  - intros k. unfold demo_program. case_match eqn:Hk; apply ends_closes; lia.
  - intros x [= <-]. by apply ends_closes.
Defined.
Definition demo_wired : runner := put "SWARM_SESSION_ID" "swarm_9" demo_runner.
Lemma identity_agrees_witness : exists session worker r1, _extra_env "/h" 7 demo_names None demo_wired = (Ok (Some (identity_vars "/h" demo_names "swarm_9" "worker" "")), r1) /\
  session <> "" /\ worker <> "" /\ om_files r1 !! identity_path "/h" demo_names = Some (Identity (identity_payload 7 demo_names session worker)).
Proof.
  set (r1 := (_extra_env "/h" 7 demo_names None demo_wired).2).
  assert (H : _extra_env "/h" 7 demo_names None demo_wired = (Ok (Some (identity_vars "/h" demo_names "swarm_9" "worker" "")), r1)) by done.
  destruct (identity_agrees "/h" 7 demo_names None demo_wired _ r1 H) as (s & w & Hs & Hw & _ & Hf & _). by exists s, w, r1.
Defined.
Lemma no_files_left_witness : exists res t r',
  base_run no_repr "/h" 7 no_iso (demo_launch demo_lines 5000 0) demo_names None "" (demo_request "oracle") None 0 demo_wired = (Returns (Ok res) t, r')
  /\ om_files r' = ∅.
Proof.
  set (x := base_run no_repr "/h" 7 no_iso (demo_launch demo_lines 5000 0) demo_names None "" (demo_request "oracle") None 0 demo_wired).
  assert (H : exists res t, x.1 = Returns (Ok res) t) by (eexists _, _; vm_compute; reflexivity).
  destruct H as (res & t & H). assert (Hx : x = (Returns (Ok res) t, x.2)) by (rewrite <- H; apply surjective_pairing).
  exists res, t, x.2. split; [done|].
  apply (no_files_left no_repr "/h" 7 no_iso (demo_launch demo_lines 5000 0) demo_names None "" (demo_request "oracle") None 0 demo_wired res t); [|done|exact Hx|by vm_compute].
  split; [done|]. split; [done|]. by vm_compute.
Defined.
Lemma first_agent_stays_witness : let r1 := (_ensure_swarm_session "/h" demo_names (demo_request "oracle") 0 demo_runner).2 in
  exists root, (env_identity "/h" 7 {| nm_swarm := "swarm_2"; nm_token := "t2"; nm_nonce := "n2"; nm_prompt := "/tmp/p2" |} r1).1
    = Ok (Some (identity_vars "/h" {| nm_swarm := "swarm_2"; nm_token := "t2"; nm_nonce := "n2"; nm_prompt := "/tmp/p2" |} "swarm_1" "oracle" root)).
Proof.
  apply (first_agent_stays "/h" 7 demo_names (demo_request "oracle") 0 demo_runner {| nm_swarm := "swarm_2"; nm_token := "t2"; nm_nonce := "n2"; nm_prompt := "/tmp/p2" |}
    (demo_request "critic") 5); done.
Defined.
Lemma session_never_registered_witness : let r1 := (_ensure_swarm_session "/h" demo_names (demo_request "oracle") 0 demo_runner).2 in
  exists h, register_agent (VStr "ses_9") 9 r1 = (Ok tt, set_hooks h r1) /\ hk_registered h = ∅.
Proof.
  assert (H : is_ok (on_hook "" (create_session "swarm_1" "manager" ["manager"; "oracle"] None [] [] 0) (fresh_hooks ∅)).1 = true) by (by vm_compute).
  destruct (on_hook "" (create_session "swarm_1" "manager" ["manager"; "oracle"] None [] [] 0) (fresh_hooks ∅)).1 as [s|e] eqn:E; [|done].
  by apply (session_never_registered "/h" demo_names (demo_request "oracle") 0 demo_runner "ses_9" 9 s).
Defined.
Definition demo_profile : AgentProfile := {|
  ap_name := "oracle"; ap_model := ""; ap_thinking := ""; ap_path := profile_path "/h" "oracle"; ap_auto_exit := false; ap_park := true;
  ap_class := ""; ap_spawning := false |}.
Lemma explicit_timeout_dropped_witness :
  (run no_repr "/h" 7 demo_profiles no_iso (demo_launch demo_lines 5000000 0) demo_names None "" (demo_request "oracle") None 0 (set_timeout 7200 demo_runner)).1
  = (run no_repr "/h" 7 demo_profiles no_iso (demo_launch demo_lines 5000000 0) demo_names None "" (demo_request "oracle") None 0 demo_runner).1.
Proof. apply explicit_timeout_dropped with (p := demo_profile); by vm_compute. Defined.
Lemma solid_word s : s <> "" -> all_chars solid s = true -> word s.
Proof.
  destruct s as [|c s]; [done|]. intros _ H. split; [|by apply last_char in H].
  cbn [all_chars] in H. apply andb_true_iff in H as [Hc _]. by exists c, s.
Qed.
Lemma frontmatter_roundtrip_witness : _parse_frontmatter (frontmatter oracle_profile) = oracle_profile.
Proof.
  apply frontmatter_roundtrip; [|refine (bool_decide_unpack _ _); by vm_compute].
  repeat (apply Forall_cons; split; [constructor; try done|]); try done; by (apply solid_word; [done|by vm_compute]).
Defined.
